(* ===== verification/_CoqProject ===== *)
-Q . S2P
Prelude.v
Events.v
Spinlock.v
Synch.v
SynchSteps.v
Hangman.v
LinkedList.v
SharedBuffer.v
Console.v
ThreadList.v
Thread.v
Cstring.v
Strtok.v
Printf.v
Bitmap.v
Array.v
ByteOrder.v
Timekeeping.v
CopyInOut.v
Uio.v
Vop.v
Device.v
Semfs.v
SemfsSem.v
Lhd.v
Sfs.v
SfsIo.v
SfsDir.v
SfsVnode.v
SfsFs.v
Mksfs.v
Vfs.v
FileTable.v
FileSyscalls.v
Dumbvm.v
Proc.v
Kmalloc.v
KernelHeap.v
Allocator.v
Exec.v
System.v
Machine.v
MachineProc.v
