(* ===== verification/Prelude.v ===== *)
(** * The OS/161 kernel of UnionCollegeCode: a verification development

    The program is the kernel in OperatingSystems/OS161_Final_Project/src/kern with the C
    library it is linked with (../common/libc): OS/161 with the students' locks, condition
    variables, linked list, shared buffer, scheduler, file tables, processes and system
    calls.  Paths below are relative to kern.  OS161-Project1 holds an earlier state of the
    same kernel; the other directories of the repository are exercises that do not use it.

    ** The parts, and how they fit together

    From the bottom:

    - Events: programs that touch shared memory one access at a time, and systems in which
      any number of them interleave.
    - Spinlock: spinlocks, load-linked and store-conditional, and the interrupt levels
      (thread/spinlock.c, thread/spl.c, include/spl.h, arch/mips/include/spinlock.h) as such
      programs, on any number of processors.
    - Synch, SynchSteps: semaphores, locks and condition variables (thread/synch.c).
      Synch has the critical sections as functions, SynchSteps interleaves those of any
      number of threads.
    - Hangman: the deadlock detector (thread/hangman.c) and the locks of synch.c when the
      kernel is built with it.
    - LinkedList, SharedBuffer: the students' linked list (concurrent_list) and bounded
      buffer (shared_buffer), which is a monitor over the list, a lock and two condition
      variables.
    - ThreadList, Thread: lists of threads with their bookends and the scheduler's pass
      over a run queue (thread/threadlist.c, schedule of thread/thread.c); threads,
      processors, wait channels, switching, migration and the clock (thread/thread.c,
      clock.c).  ThreadList shows that the linked nodes implement the lists that Thread
      takes as its run queues.
    - Cstring, Strtok, Printf, Bitmap, Array, CopyInOut, Uio: C strings and blocks, the printf machine and
      snprintf (common/libc/printf), the bit map of lib/bitmap.c, the arrays of lib/array.c,
      moving data between kernel and user (vm/copyinout.c) and along iovecs (lib/uio.c).
    - Dumbvm, Kmalloc, KernelHeap, Allocator: physical memory, address spaces and the TLB
      (arch/mips/vm); the kernel heap on the pages it takes from there (vm/kmalloc.c), its
      invariant, and the allocator it implements.
    - Vop: the interface between the VFS layer and what is below it, a class of operations
      with the laws its clients rely on.  The file systems (SfsVnode, SfsFs, Semfs) and the
      devices (Device) are instances, Vfs and everything above it are clients.
    - Lhd, Sfs, SfsIo, SfsDir, SfsVnode, SfsFs: the disk driver (dev/lamebus/lhd.c) and the
      file system (fs/sfs) file by file: block allocation and block map, reading and
      writing, directories, inodes and vnode operations, mounting and unmounting.
    - Semfs, SemfsSem: semfs, whose files are semaphores (fs/semfs), one call at a time; and
      many threads that read and write one of them, and the removal of a name that meets
      the end of its vnode, at the steps between which other threads run.
    - Device, Vfs: devices as vnodes (vfs/device.c, devnull.c), path names, the current
      directory and the table of devices (vfs/vfslookup.c, vfslist.c, vfspath.c, vfscwd.c).
    - FileTable, FileSyscalls: open files and file tables (thread/file_table.c), and the
      system calls on files (syscall/open.c and its neighbours).
    - Proc: processes and the process table (proc/proc.c, proctable.c).
    - Exec: loading programs, runprogram and execv (syscall/loadelf.c, runprogram.c,
      execv.c).
    - System: fork, exit, waitpid and the system call dispatcher (syscall, arch/mips/syscall)
      over the whole state.
    - Console, Timekeeping, ByteOrder: the console with the serial port behind it
      (dev/generic/console.c, dev/lamebus/lser.c), as threads and interrupt handlers that
      interleave; times and reading the clock (lib/time.c, dev/generic/rtclock.c,
      dev/lamebus/ltimer.c); lib/bswap.c.
    - Mksfs: the program that makes an SFS volume (userland/sbin/mksfs), which meets the
      kernel's file system on the disk.
    - Machine, MachineProc: a small machine at which the theorems of the upper layers are
      tried out.

    The state of a layer is a record that holds the state of the layers below: [kern] of
    Proc has the files, the memory and the processes; [files] of FileTable has the VFS;
    [vfs] has the state [S] of the file systems, which is a parameter of everything above
    Vop.  Thread is over the interface [ProcThreads], which Proc implements.

    ** How the code is read

    A function of the kernel that can fail an assertion or sleep is a computation that ends
    in [Done], [Panic] or [Blocked] ([outcome], below); one that works on shared state is a
    computation in [K], which passes the state along.  [Panic] is a failed KASSERT, a call
    of panic, and the use of a null, dangling or uninitialised pointer.  [Blocked] is a
    sleep that only another thread can end, and a loop that never ends.  Integers are [Z]
    with the conversions of the code ([u32], [s32], [u16]) where they can matter.  Objects
    that are shared live in stores, under keys that stand for their addresses; freeing
    removes the object, so a use after free is a [Panic].

    Requests for memory are answered by a list in the state (for the heap itself see
    Kmalloc); whether the two requests that are made with a spinlock held (in add_proc)
    take a page is a parameter of the calls that make them; memory that has not been initialised is a parameter.  Names that are for
    debugging, and printing, are not kept.  What runs with a spinlock held is one step of
    the systems of threads: Spinlock has the accesses one at a time, and shows that at most
    one processor is between taking a spinlock and releasing it, with its interrupts off.
    SFS runs under the VFS big lock, so one call at a time is in it.

    Loops on pointers take fuel.  The fuel is the number of objects there are, and the
    theorems show that it suffices whenever the invariant holds (a list in memory has no
    more nodes than objects); where there is no bound the end of the fuel is [Blocked] and
    the theorem says that a result is reached.

    ** The theorems

    - Concurrency: [thread_safety] (no thread is lost or in two places, and the operations
      panic in four stated cases and no other), [spinlock_exclusion] and [spinlock_progress] (one holder, interrupts off
      while there is one, and no processor spins for ever on a free lock),
      [spinlock_panics], [cv_no_lost_signal], [lock_exclusion], [semaphore_live],
      [hangman_locks] and [hangman_exact] (the detector stops the kernel exactly when a
      wait closes a cycle), [shared_buffer_correct], [yield_round_robin].
    - Data structures against their abstract counterparts: [linked_list_refines],
      [threadlist_refines], [schedule_sorts] (a pass over the run queue for all priorities
      of the bookends, which the code leaves unset), [proctable_refines], [kheap_refines],
      [tlb_refines], [array_refines], [array_limits], [bitmap_alloc_least].
    - Text: [snprintf_spec] (the machine writes what a reference formatter says, cut to the
      buffer), [decimal_roundtrip], [printnum_buffer], [strtok_words], [memset_spec].
    - Memory: [as_copy_separate], [copyout_confined], [kmalloc_succeeds],
      [kheap_getused_total], [load_elf_correct].
    - The file system: [sfs_bmap_spec], [sfs_itrunc_spec], [sfs_read_correct],
      [sfs_write_correct], [dir_link_spec], [dir_link_find_unlink], [inode_persists],
      [sync_remount].
    - semfs: [semfs_refines], [semfs_typed], [semfs_unmount_spec], [semfs_count_exact],
      [semfs_wakeups].
    - Names and files: [getdevice_spec], [biglock_balanced] (the big lock is given back on
      each of the separate returns of the VFS calls), [dev_io_spec], [sys_open_spec],
      [sys_close_spec], [sys_read_spec], [sys_write_spec].
    - Processes: [fork_spec], [syscall_spec], [waitpid_spec].  [proctable_refines] and
      [fork_spec] say what happens when the heap has to take a page while the process
      table's spinlock is held: the assertion of dumbvm_can_sleep fails.
    - Around the kernel: [mksfs_mounts] (what mksfs writes mounts, empty and well formed) and
      [mksfs_refuses], [con_input_queue], [con_output], [timespec_spec],
      [ltimer_gettime_spec], [bswap_spec], [join_split].
    - Faults of the code, as theorems about what it does instead: [exit_panics],
      [execv_never_runs], [kmalloc_wraps], [kfree_checks], [sfs_writeblock_lost],
      [proctable_deadlocks], [semfs_lost_wakeup], [semfs_remove_race], [semfs_creat_null],
      [semfs_getdirentry_skips], [bswap64_wrong], [freemap_wraps], [con_readers_race], and
      the error branches of the theorems on system calls.

    The hypotheses of a theorem are invariants that the operations are shown to keep, or
    conditions on its arguments; each has a witness at which they hold.  Code outside the
    repository appears as parameters: the disk's status codes (Lhd), the devices behind
    [DEVOP_IO] (Device), the file systems behind [Vops] where a theorem is about a client.

    ** What is not modelled

    The connection between the user's memory as the system calls see it ([f_umem]) and
    physical memory is made at one place, where Exec enters the program.  Loading does not
    follow the faults of the kernel on user pages one by one.

    SFS takes the VFS big lock again in each of its methods; those nested acquisitions are
    not in the model of SFS, and the interface Vop leaves the lock to the VFS layer.

    Without a model: switching stacks, saving registers, traps and start-up in assembly,
    whose meaning is that of the processor; the registers of devices other than those of
    the disk, the serial port and the clock; emufs, which passes every call to the host; kprintf, which is the
    printf machine sending to the console; the kernel menu and its tests, which print; the
    other programs under userland, which use the kernel from outside. *)

From Stdlib Require Export ZArith Lia.
From stdpp Require Export list gmap.

#[global] Open Scope Z_scope.

(** [lia] decides goals with division and remainder by constants. *)
Ltac Zify.zify_post_hook ::= Z.div_mod_to_equations.

(** ** Outcomes

    A kernel function either returns, or panics: a failed [KASSERT], an
    explicit [panic], or the dereference of a null pointer (which traps in
    kernel mode and ends in [panic] as well), or goes to sleep on a resource
    that only another thread can give back ([Blocked]). *)
Inductive outcome (A : Type) : Type :=
  | Done (a : A)
  | Panic
  | Blocked.
Arguments Done {A} a.
Arguments Panic {A}.
Arguments Blocked {A}.

#[export] Instance outcome_ret : MRet outcome := fun _ a => Done a.
#[export] Instance outcome_bind : MBind outcome := fun _ _ f m =>
  match m with
  | Done a => f a
  | Panic => Panic
  | Blocked => Blocked
  end.

(** [KASSERT(e)]. *)
Definition KASSERT (e : bool) : outcome unit := if e then Done () else Panic.

(** The value a function hands back when its [int] result is 0, or its error
    number; used where nothing else changes on the error path. *)
Inductive res (A : Type) : Type :=
  | Ok (a : A)
  | Err (e : Z).
Arguments Ok {A} a.
Arguments Err {A} e.

(** Reading through a pointer that may be null. *)
Definition deref {A} (p : option A) : outcome A :=
  match p with Some a => Done a | None => Panic end.

Lemma bind_Done {A B} (f : A → outcome B) (a : A) : (Done a ≫= f) = f a.
Proof. reflexivity. Qed.

Lemma bind_mret {A B} (f : A → outcome B) (a : A) : (mret a ≫= f) = f a.
Proof. reflexivity. Qed.

Lemma bind_Done_inv {A B} (f : A → outcome B) (m : outcome A) (b : B) :
  m ≫= f = Done b → ∃ a, m = Done a ∧ f a = Done b.
Proof. destruct m; [eauto|discriminate..]. Qed.

Lemma KASSERT_true e : e = true → KASSERT e = Done ().
Proof. by intros ->. Qed.

Lemma KASSERT_Done e u : KASSERT e = Done u → e = true.
Proof. by destruct e. Qed.

Lemma deref_Some {A} (p : option A) a : p = Some a → deref p = Done a.
Proof. by intros ->. Qed.

(** ** Computations that read and change a state *)
Definition K (Σ A : Type) : Type := Σ → outcome (A * Σ).

#[export] Instance K_ret Σ : MRet (K Σ) := fun _ a s => Done (a, s).
#[export] Instance K_bind Σ : MBind (K Σ) := fun _ _ f m s =>
  match m s with
  | Done (a, s) => f a s
  | Panic => Panic
  | Blocked => Blocked
  end.

Definition gets {Σ A} (f : Σ → A) : K Σ A := fun s => Done (f s, s).
Definition modify {Σ} (f : Σ → Σ) : K Σ unit := fun s => Done ((), f s).
(** A computation that does not touch the state. *)
Definition lift {Σ A} (m : outcome A) : K Σ A := fun s => a ← m; Done (a, s).
Definition kassert {Σ} (e : bool) : K Σ unit := lift (KASSERT e).
(** A computation on a part of the state. *)
Definition zoom {Σ T A} (get : Σ → T) (put : T → Σ → Σ) (m : K T A) : K Σ A := fun s =>
  '(a, t) ← m (get s); Done (a, put t s).
(** What goes before an early return. *)
Definition when_ok {Σ} (result : Z) (k : K Σ Z) : K Σ Z := if negb (result =? 0) then mret result else k.

Lemma K_bind_eq {Σ A B} (m : K Σ A) (f : A → K Σ B) s :
  (m ≫= f) s = match m s with Done (a, s) => f a s | Panic => Panic | Blocked => Blocked end.
Proof. reflexivity. Qed.

Lemma K_ret_eq {Σ A} (a : A) (s : Σ) : (mret a : K Σ A) s = Done (a, s).
Proof. reflexivity. Qed.

Lemma K_bind_inv {Σ A B} (m : K Σ A) (f : A → K Σ B) s r :
  (m ≫= f) s = Done r → ∃ a s', m s = Done (a, s') ∧ f a s' = Done r.
Proof. rewrite K_bind_eq. destruct (m s) as [[a s']| |]; [eauto|discriminate..]. Qed.

Lemma lift_eq {Σ A} (m : outcome A) (s : Σ) :
  lift m s = match m with Done a => Done (a, s) | Panic => Panic | Blocked => Blocked end.
Proof. by destruct m. Qed.

Lemma lift_ret {Σ A} (a : A) (s : Σ) : lift (mret a) s = Done (a, s).
Proof. reflexivity. Qed.

(** How the next requests to [kmalloc] end; when the list is exhausted there is
    memory. *)
Definition kalloc (mem : list bool) : bool * list bool :=
  (match mem with [] => true | b :: _ => b end, tail mem).

(** ** Error numbers (kern/errno.h) *)
Definition ENOSYS : Z := 1.
Definition ENOMEM : Z := 3.
Definition EFAULT : Z := 6.
Definition ENAMETOOLONG : Z := 7.
Definition EINVAL : Z := 8.
Definition ESRCH : Z := 15.
Definition ECHILD : Z := 16.
Definition ENOTDIR : Z := 17.
Definition EISDIR : Z := 18.
Definition ENOENT : Z := 19.
Definition EEXIST : Z := 22.
Definition EXDEV : Z := 24.
Definition ENODEV : Z := 25.
Definition ENXIO : Z := 26.
Definition EBUSY : Z := 27.
Definition ENFILE : Z := 29.
Definition EBADF : Z := 30.
Definition EIO : Z := 32.
Definition ESPIPE : Z := 33.
Definition ENOSPC : Z := 36.
Definition EFBIG : Z := 38.

(** ** Open flags (kern/fcntl.h) and file types (kern/stattypes.h) *)
Definition O_RDONLY : Z := 0.
Definition O_WRONLY : Z := 1.
Definition O_RDWR : Z := 2.
Definition O_ACCMODE : Z := 3.
Definition O_CREAT : Z := 4.
Definition O_EXCL : Z := 8.
Definition O_TRUNC : Z := 16.
Definition O_APPEND : Z := 32.
Definition S_IFREG : Z := 4096.
Definition S_IFDIR : Z := 8192.
Definition S_IFCHR : Z := 24576.
Definition S_IFBLK : Z := 28672.

(** ** Machine integers *)

(** Conversion to [uint32_t] / [unsigned]. *)
Definition u32 (x : Z) : Z := x mod 2 ^ 32.

(** Conversion to [uint16_t]. *)
Definition u16 (x : Z) : Z := x mod 2 ^ 16.

Arguments u32 : simpl never.
Arguments u16 : simpl never.

Lemma u32_small x : 0 <= x < 2 ^ 32 → u32 x = x.
Proof. apply Z.mod_small. Qed.

Lemma u32_range x : 0 <= u32 x < 2 ^ 32.
Proof. by apply Z.mod_pos_bound. Qed.

(** Conversion to [int]. *)
Definition s32 (x : Z) : Z := (x + 2 ^ 31) mod 2 ^ 32 - 2 ^ 31.
Arguments s32 : simpl never.

Lemma s32_small x : - 2 ^ 31 <= x < 2 ^ 31 -> s32 x = x.
Proof. intros. unfold s32. rewrite Z.mod_small; lia. Qed.

Lemma s32_add x k : s32 (s32 x + k) = s32 (x + k).
Proof.
  unfold s32. f_equal.
  replace ((x + 2 ^ 31) mod 2 ^ 32 - 2 ^ 31 + k + 2 ^ 31) with ((x + 2 ^ 31) mod 2 ^ 32 + k) by lia.
  rewrite Zplus_mod_idemp_l. f_equal. lia.
Qed.

Lemma s32_sub x k : s32 (s32 x - k) = s32 (x - k).
Proof. apply (s32_add x (- k)). Qed.

Lemma u32_idemp x : u32 (u32 x) = u32 x.
Proof. apply u32_small, u32_range. Qed.

(** [DIVROUNDUP(a,b)] on [unsigned] operands (lib.h). *)
Definition DIVROUNDUP (a b : Z) : Z := u32 (u32 (a + b) - 1) / b.

Arguments DIVROUNDUP : simpl never.

Lemma DIVROUNDUP_eq a b :
  0 <= a → 0 < b → a + b < 2 ^ 32 → DIVROUNDUP a b = (a + b - 1) / b.
Proof. intros. unfold DIVROUNDUP. rewrite (u32_small (a + b)), u32_small by lia. done. Qed.

(** ** Bits *)

Lemma land_shiftl_bit w j :
  0 <= j -> (Z.land w (Z.shiftl 1 j) =? 0) = negb (Z.testbit w j).
Proof.
  intros Hj. destruct (Z.testbit w j) eqn:E; cbn.
  - apply Z.eqb_neq. intros H. apply (f_equal (fun z => Z.testbit z j)) in H.
    rewrite Z.land_spec, E, Z.shiftl_1_l, Z.pow2_bits_true, Z.bits_0 in H; done.
  - apply Z.eqb_eq, Z.bits_inj'. intros n Hn.
    rewrite Z.land_spec, Z.shiftl_1_l, Z.bits_0, Z.pow2_bits_eqb by lia.
    destruct (Z.eqb_spec j n); subst; rewrite ?E; cbn; auto using andb_false_r.
Qed.

Lemma testbit_lor w j k :
  0 <= j -> 0 <= k ->
  Z.testbit (Z.lor w (Z.shiftl 1 j)) k = if k =? j then true else Z.testbit w k.
Proof.
  intros. rewrite Z.lor_spec, Z.shiftl_1_l, Z.pow2_bits_eqb by done.
  rewrite (Z.eqb_sym j). destruct (k =? j); auto using orb_true_r, orb_false_r.
Qed.

Lemma below_bits n w : 0 <= n -> 0 <= w < 2 ^ n <-> 0 <= w /\ forall j, n <= j -> Z.testbit w j = false.
Proof.
  intros Hn. split.
  - intros Hw. split; [lia|]. intros j Hj. rewrite <- (Z.mod_small w (2 ^ n)) by lia. apply Z.mod_pow2_bits_high. lia.
  - intros [H0 Hb]. split; [done|]. destruct (Z.lt_ge_cases w (2 ^ n)) as [|Hge]; [done|].
    assert (0 < w) as Hpos by (pose proof (Z.pow_pos_nonneg 2 n); lia).
    pose proof (Z.bit_log2 w Hpos) as Ht. rewrite Hb in Ht; [done|]. by apply Z.log2_le_pow2.
Qed.

(** ** Sizes of sets *)
#[local] Set Warnings "-clear-no-such-hyp".
Lemma size_add (t : Z) (X : gset Z) : t ∉ X -> Z.of_nat (size ({[t]} ∪ X)) = Z.of_nat (size X) + 1.
Proof. intros Ht. rewrite (size_union {[t]} X) by set_solver. rewrite (size_singleton t). lia. Qed.

Lemma size_remove (t : Z) (X : gset Z) : t ∈ X -> Z.of_nat (size (X ∖ {[t]})) = Z.of_nat (size X) - 1.
Proof.
  intros Ht. pose proof (size_add t (X ∖ {[t]}) ltac:(set_solver)) as H.
  rewrite <- union_difference_singleton_L in H by done. lia.
Qed.

(** ** Bytes *)
Definition is_byte (b : Z) : Prop := 0 <= b < 256.
Definition bytes (l : list Z) : Prop := Forall is_byte l.
Definition zeros (n : nat) : list Z := replicate n 0.

Lemma length_zeros n : length (zeros n) = n.
Proof. apply length_replicate. Qed.

Lemma bytes_zeros n : bytes (zeros n).
Proof. apply Forall_replicate. unfold is_byte. lia. Qed.

Lemma zeros_add n m : zeros (n + m) = zeros n ++ zeros m.
Proof. apply replicate_add. Qed.

(** Big-endian 32-bit words, as the MIPS stores them. *)
Definition be32 (x : Z) : list Z :=
  [ (x / 2 ^ 24) mod 256; (x / 2 ^ 16) mod 256; (x / 2 ^ 8) mod 256; x mod 256 ].
Definition un_be32 (a b c d : Z) : Z := a * 2 ^ 24 + b * 2 ^ 16 + c * 2 ^ 8 + d.

Definition encode_words (ws : list Z) : list Z := flat_map be32 ws.
Fixpoint decode_words (l : list Z) : list Z :=
  match l with
  | a :: b :: c :: d :: r => un_be32 a b c d :: decode_words r
  | _ => []
  end.

Lemma un_be32_be32 x :
  0 <= x < 2 ^ 32 →
  un_be32 ((x / 2 ^ 24) mod 256) ((x / 2 ^ 16) mod 256) ((x / 2 ^ 8) mod 256) (x mod 256) = x.
Proof.
  intros. unfold un_be32.
  change (2 ^ 24) with (256 * 256 * 256). change (2 ^ 16) with (256 * 256).
  change (2 ^ 8) with 256. change (2 ^ 32) with (256 * 256 * 256 * 256) in *.
  rewrite <- !Z.div_div by lia.
  assert (x / 256 / 256 / 256 < 256) by (repeat apply Z.div_lt_upper_bound; lia).
  assert (0 <= x / 256 / 256 / 256) by (repeat apply Z.div_pos; lia).
  rewrite (Z.mod_small (x / 256 / 256 / 256)) by lia.
  pose proof (Z.div_mod x 256). pose proof (Z.div_mod (x / 256) 256).
  pose proof (Z.div_mod (x / 256 / 256) 256). lia.
Qed.

Lemma decode_encode_words ws :
  Forall (fun x => 0 <= x < 2 ^ 32) ws → decode_words (encode_words ws) = ws.
Proof.
  induction 1 as [|x ws Hx _ IH]; [done|].
  cbn -[Z.pow]. fold (encode_words ws). by rewrite IH, un_be32_be32.
Qed.

Lemma be32_un_be32 a b c d :
  is_byte a → is_byte b → is_byte c → is_byte d → be32 (un_be32 a b c d) = [a; b; c; d].
Proof.
  unfold is_byte, be32, un_be32. intros.
  change (2 ^ 24) with (256 * 256 * 256). change (2 ^ 16) with (256 * 256).
  change (2 ^ 8) with 256. rewrite <- !Z.div_div by lia.
  set (x := a * _ + _ + _ + _).
  assert (x / 256 = a * (256 * 256) + b * 256 + c) as ->
    by (symmetry; apply Z.div_unique with d; subst x; lia).
  assert ((a * (256 * 256) + b * 256 + c) / 256 = a * 256 + b) as ->
    by (symmetry; apply Z.div_unique with c; lia).
  assert ((a * 256 + b) / 256 = a) as ->
    by (symmetry; apply Z.div_unique with b; lia).
  rewrite (Z.mod_small a) by lia.
  repeat f_equal; symmetry; [apply Z.mod_unique with a | apply Z.mod_unique with (a * 256 + b)
    | apply Z.mod_unique with (a * (256 * 256) + b * 256 + c)]; subst x; lia.
Qed.

Lemma length_encode_words ws : length (encode_words ws) = (4 * length ws)%nat.
Proof. induction ws; cbn -[Nat.mul]; [done|]. fold (encode_words ws). lia. Qed.

Lemma bytes_encode_words ws : bytes (encode_words ws).
Proof.
  induction ws as [|w ws IH]; [constructor|].
  change (encode_words (w :: ws)) with (be32 w ++ encode_words ws).
  apply Forall_app; split; [|exact IH].
  repeat constructor; by apply Z.mod_pos_bound.
Qed.

Lemma length_decode_words l n : length l = (4 * n)%nat → length (decode_words l) = n.
Proof.
  revert l. induction n as [|n IH]; intros l Hl.
  - by destruct l.
  - destruct l as [|a [|b [|c [|d l]]]]; cbn in Hl; try lia. cbn. rewrite IH; lia.
Qed.

Lemma encode_decode_words l n :
  bytes l → length l = (4 * n)%nat → encode_words (decode_words l) = l.
Proof.
  revert l. induction n as [|n IH]; intros l Hb Hl.
  - by destruct l.
  - destruct l as [|a [|b [|c [|d l]]]]; cbn in Hl; try lia.
    unfold bytes in Hb. rewrite !Forall_cons in Hb. destruct Hb as (?&?&?&?&?).
    cbn [decode_words].
    change (encode_words (un_be32 a b c d :: decode_words l))
      with (be32 (un_be32 a b c d) ++ encode_words (decode_words l)).
    rewrite be32_un_be32, IH by (done || lia). done.
Qed.

Lemma decode_words_range l :
  bytes l → Forall (fun x => 0 <= x < 2 ^ 32) (decode_words l).
Proof.
  induction l as [l IH] using (induction_ltof1 _ (@length Z)). intros Hb.
  destruct l as [|a [|b [|c [|d l]]]]; cbn; try constructor.
  - unfold bytes in Hb. rewrite !Forall_cons in Hb. destruct Hb as (Ha&Hb'&Hc&Hd&_).
    unfold is_byte, un_be32 in *. lia.
  - apply IH; [unfold ltof; cbn; lia|]. unfold bytes in *. rewrite !Forall_cons in Hb. tauto.
Qed.

Lemma decode_words_zeros n : decode_words (zeros (4 * n)) = replicate n 0.
Proof.
  induction n as [|n IH]; [done|].
  replace (4 * S n)%nat with (4 + 4 * n)%nat by lia.
  rewrite zeros_add. cbn [zeros replicate app decode_words]. rewrite IH. done.
Qed.

(** ** Overwriting a segment of a buffer *)
Definition splice (off : nat) (new l : list Z) : list Z :=
  take off l ++ new ++ drop (off + length new) l.

Arguments splice : simpl never.

Lemma length_splice off new l :
  (off + length new <= length l)%nat → length (splice off new l) = length l.
Proof. intros. unfold splice. rewrite !length_app, length_take, length_drop. lia. Qed.

Lemma lookup_splice_old off new l i :
  (off + length new <= length l)%nat →
  (i < off ∨ off + length new <= i)%nat → splice off new l !! i = l !! i.
Proof.
  intros Hl [Hi|Hi]; unfold splice.
  - rewrite lookup_app_l by (rewrite length_take; lia). by rewrite lookup_take_lt.
  - rewrite lookup_app_r by (rewrite length_take; lia).
    rewrite lookup_app_r by (rewrite length_take; lia).
    rewrite lookup_drop, length_take. f_equal. lia.
Qed.

Lemma lookup_splice_new off new l i :
  (off + length new <= length l)%nat →
  (off <= i < off + length new)%nat → splice off new l !! i = new !! (i - off)%nat.
Proof.
  intros Hl Hi. unfold splice.
  rewrite lookup_app_r by (rewrite length_take; lia).
  rewrite length_take, lookup_app_l by lia. f_equal. lia.
Qed.

Lemma bytes_splice off new l : bytes new → bytes l → bytes (splice off new l).
Proof.
  intros. unfold splice, bytes in *. rewrite !Forall_app.
  auto using Forall_take, Forall_drop.
Qed.

Lemma splice_all new l : length new = length l → splice 0 new l = new.
Proof. intros H. unfold splice. cbn. rewrite H, drop_all. apply app_nil_r. Qed.

Lemma splice_nil o l : splice o [] l = l.
Proof. unfold splice. cbn [length app]. rewrite Nat.add_0_r. apply take_drop. Qed.

Lemma splice_splice p a b (l : list Z) :
  (p + length a + length b <= length l)%nat -> splice (p + length a) b (splice p a l) = splice p (a ++ b) l.
Proof.
  intros Hl. apply list_eq. intros i.
  destruct (decide (p + length a <= i < p + length a + length b)%nat) as [Hin|Hout].
  - rewrite lookup_splice_new, lookup_splice_new by (rewrite ?length_splice, ?length_app; lia).
    rewrite lookup_app_r by lia. f_equal. lia.
  - rewrite lookup_splice_old by (rewrite ?length_splice; lia).
    destruct (decide (p <= i < p + length a)%nat).
    + rewrite !lookup_splice_new by (rewrite ?length_app; lia). by rewrite lookup_app_l by lia.
    + rewrite !lookup_splice_old by (rewrite ?length_app; lia). done.
Qed.

(** Writing the part before one already written. *)
Lemma splice_before p a b (l : list Z) :
  (p + length a + length b <= length l)%nat -> splice p a (splice (p + length a) b l) = splice p (a ++ b) l.
Proof.
  intros Hl. apply list_eq. intros i.
  destruct (decide (p <= i < p + length a)%nat).
  - rewrite !lookup_splice_new by (rewrite ?length_splice, ?length_app; lia). by rewrite lookup_app_l by lia.
  - rewrite (lookup_splice_old p a) by (rewrite ?length_splice; lia).
    destruct (decide (p + length a <= i < p + length a + length b)%nat).
    + rewrite !lookup_splice_new by (rewrite ?length_app; lia). rewrite lookup_app_r by lia. f_equal. lia.
    + rewrite !lookup_splice_old by (rewrite ?length_app; lia). done.
Qed.

(** ** Automation *)
Create HintDb kernel discriminated.
Create Rewrite HintDb kernel_rw.
#[export] Hint Resolve bytes_zeros bytes_splice bytes_encode_words u32_range : kernel.
#[export] Hint Rewrite length_zeros length_encode_words : kernel_rw.

(** Runs the computations of the goal that have returned. *)
Ltac kred :=
  repeat progress (rewrite ?bind_mret, ?bind_Done; cbv beta iota;
    cbn [negb orb andb Z.eqb fst snd deref KASSERT]).

(** The same for computations with a state. *)
Ltac krun :=
  repeat progress (rewrite ?K_bind_eq, ?K_ret_eq, ?lift_ret, ?lift_eq;
    cbv beta iota delta [gets modify]; kred).

(** Decides the comparisons of constants. *)
Ltac zconst :=
  repeat match goal with
  | |- context [?e] =>
      lazymatch e with
      | Z.ltb _ _ => idtac | Z.leb _ _ => idtac | Z.eqb _ _ => idtac | Z.gtb _ _ => idtac | Z.geb _ _ => idtac
      end;
      let r := eval vm_compute in e in
      lazymatch r with true => idtac | false => idtac end;
      change e with r
  end.

(** Inverts every [bind] in a hypothesis that says a computation returned. *)
Ltac inv_done :=
  repeat match goal with
  | H : _ ≫= _ = Done _ |- _ =>
      let a := fresh "a" in let Ha := fresh "Ha" in
      apply bind_Done_inv in H as (a & Ha & H)
  | H : KASSERT _ = Done _ |- _ => apply KASSERT_Done in H
  | H : Done _ = Done _ |- _ => injection H as H; subst
  | H : mret _ = Done _ |- _ => injection H as H; subst
  | H : Panic = Done _ |- _ => discriminate H
  | H : Blocked = Done _ |- _ => discriminate H
  end.
