(* ===== verification/Events.v ===== *)
(** * Systems driven by events

    The transition systems of [Spinlock] and [Hangman]: a state, the events that may
    come in it, and what an event does, as a function.  A run is a list of events. *)

From stdpp Require Import relations.
From S2P Require Import Prelude.

#[local] Set Warnings "-clear-no-such-hyp".

#[export] Instance some_dec {A} (o : option A) (Q : A -> Prop) `{!forall a, Decision (Q a)} :
  Decision (exists a, o = Some a /\ Q a).
Proof. destruct o as [a|]; [destruct (decide (Q a))|]; [left|right|right]; naive_solver. Defined.

Section events.
Context {E S : Type} (allowed : E -> S -> Prop) (exec : E -> S -> outcome S).

Definition event_step (s s' : S) : Prop := exists e, allowed e s /\ exec e s = Done s'.

(** What an event does to a state of the invariant: it is one of those that panic, or
    it leads to another such state. *)
Definition event_goes (wrong : E -> S -> Prop) (inv : S -> Prop) (e : E) (s : S) : Prop :=
  (wrong e s /\ exec e s = Panic) \/ (~ wrong e s /\ exists s', exec e s = Done s' /\ inv s').

Lemma goes_on (wrong : E -> S -> Prop) inv e s s' :
  ~ wrong e s -> exec e s = Done s' -> inv s' -> event_goes wrong inv e s.
Proof. intros ???. right. eauto. Qed.

Lemma goes_panics (wrong : E -> S -> Prop) inv e s :
  event_goes wrong inv e s -> (exec e s = Panic <-> wrong e s) /\ (wrong e s \/ exists s', exec e s = Done s').
Proof. intros [[Hw E1]|(Hw&s'&E1&_)]; rewrite E1; (split; [done|]); [by left|right; eauto]. Qed.

Lemma steps_invariant (wrong : E -> S -> Prop) (inv : S -> Prop) s s' :
  (forall e s, inv s -> allowed e s -> event_goes wrong inv e s) -> inv s -> rtc event_step s s' -> inv s'.
Proof.
  intros Hgo Hi Hs. induction Hs as [|s s1 s2 (e&Ha&E1) _ IH]; [done|]. apply IH.
  destruct (Hgo e s Hi Ha) as [[_ E2]|(_&s3&E2&Hi')]; rewrite E2 in E1; [done|]. by injection E1 as <-.
Qed.

(** An event that may not come stops the run. *)
Fixpoint run_events `{!forall e s, Decision (allowed e s)} (es : list E) (s : S) : outcome S :=
  match es with
  | [] => Done s
  | e :: es => if decide (allowed e s) then s ← exec e s; run_events es s else Blocked
  end.

Lemma run_events_steps `{!forall e s, Decision (allowed e s)} es s s' :
  run_events es s = Done s' -> rtc event_step s s'.
Proof.
  revert s. induction es as [|e es IH]; intros s Hr; cbn in Hr; [injection Hr as ->; constructor|].
  case_decide as Ha; [|done]. apply bind_Done_inv in Hr as (s1&E1&Hr). eapply rtc_l; [by exists e|by apply IH].
Qed.

End events.
