(* ===== verification/Spinlock.v ===== *)
(** * Spinlocks and interrupt levels

    [thread/spinlock.c], [thread/spl.c], the MIPS test-and-set of
    [arch/mips/include/spinlock.h] and the interrupt path of [mips_trap], for any
    number of processors that run at the same time.  One event is what a processor
    does in one go: a call up to its first access to a lock, one access to a shared
    word, an interrupt.  Everything else of the development takes the code between
    [spinlock_acquire] and [spinlock_release] as one step; the theorems here say why
    that is right.

    The processors see the stores in one order (System/161 has no store buffers, and
    the code has its barriers).  The state is that of a running system: [curcpu]
    exists.  A processor comes with the fields of its current thread that the code
    uses; the idle loop, which turns interrupts on with [t_curspl] high, is left out. *)

From stdpp Require Import relations.
From S2P Require Import Prelude Events.

#[local] Set Warnings "-clear-no-such-hyp".

Definition IPL_NONE : Z := 0.
Definition IPL_HIGH : Z := 1.

(** ** The state *)

Record spinlock := mkSplk { splk_lock : Z; splk_holder : option nat }.

(** Where a processor is: outside ([Run]); in [spinlock_acquire], before
    [spinlock_data_get], before [ll], before [sc] with what [ll] read, before the store
    to [splk_holder]; in [spinlock_release], before the store to [splk_holder], before
    [spinlock_data_set], before [spllower]. *)
Inductive pc :=
  | Run | Get (l : Z) | Ll (l : Z) | Sc (l x : Z) | SetHolder (l : Z)
  | ClearHolder (l : Z) | ClearWord (l : Z) | Lower.

#[export] Instance pc_eq_dec : EqDecision pc.
Proof. solve_decision. Defined.

(** [c_frames]: the [doadjust] of the interrupts being handled; [c_irq]: interrupts are
    on.  [c_held] is not in the code: the locks for which [spinlock_acquire] has
    returned and [spinlock_release] has not been called. *)
Record pcpu := mkPcpu {
  c_pc : pc; c_spinlocks : Z; t_iplhigh_count : Z; t_curspl : Z; c_irq : bool;
  c_frames : list bool; c_held : gset Z }.

(** What happens to the data a lock protects, for the record of a run. *)
Inductive secop := Enter (i : nat) | Touch (i : nat) | Leave (i : nat).

(** [links]: the address each processor has marked with [ll]. *)
Record smp := mkSmp {
  locks : gmap Z spinlock; cpus : list pcpu; links : gmap nat Z; log : list (Z * secop) }.

Definition at_pc (k : pc) (p : pcpu) : pcpu :=
  mkPcpu k (c_spinlocks p) (t_iplhigh_count p) (t_curspl p) (c_irq p) (c_frames p) (c_held p).
Definition with_spinlocks (n : Z) (p : pcpu) : pcpu :=
  mkPcpu (c_pc p) (u32 n) (t_iplhigh_count p) (t_curspl p) (c_irq p) (c_frames p) (c_held p).
Definition with_spl (n : Z) (p : pcpu) : pcpu :=
  mkPcpu (c_pc p) (c_spinlocks p) (t_iplhigh_count p) n (c_irq p) (c_frames p) (c_held p).
Definition with_held (h : gset Z) (p : pcpu) : pcpu :=
  mkPcpu (c_pc p) (c_spinlocks p) (t_iplhigh_count p) (t_curspl p) (c_irq p) (c_frames p) h.

Definition put_cpu (i : nat) (p : pcpu) (s : smp) : smp := mkSmp (locks s) (<[i := p]> (cpus s)) (links s) (log s).
Definition put_links (m : gmap nat Z) (s : smp) : smp := mkSmp (locks s) (cpus s) m (log s).
Definition put_log (l : Z) (op : secop) (s : smp) : smp := mkSmp (locks s) (cpus s) (links s) (log s ++ [(l, op)]).
Definition put_holder (l : Z) (lk : spinlock) (h : option nat) (s : smp) : smp :=
  mkSmp (<[l := mkSplk (splk_lock lk) h]> (locks s)) (cpus s) (links s) (log s).

(** A store to the word of a lock: it takes the marks the processors have on it. *)
Definition spinlock_data_set (l : Z) (lk : spinlock) (val : Z) (s : smp) : smp :=
  mkSmp (<[l := mkSplk val (splk_holder lk)]> (locks s)) (cpus s)
    (filter (fun il => il.2 <> l) (links s)) (log s).

(** ** Interrupt levels *)

Definition splraise (oldspl newspl : Z) (p : pcpu) : outcome pcpu :=
  _ ← KASSERT (oldspl =? IPL_NONE); _ ← KASSERT (newspl =? IPL_HIGH);
  Done (mkPcpu (c_pc p) (c_spinlocks p) (s32 (t_iplhigh_count p + 1)) (t_curspl p)
    (if t_iplhigh_count p =? 0 then false else c_irq p) (c_frames p) (c_held p)).

Definition spllower (oldspl newspl : Z) (p : pcpu) : outcome pcpu :=
  _ ← KASSERT (oldspl =? IPL_HIGH); _ ← KASSERT (newspl =? IPL_NONE);
  let n := s32 (t_iplhigh_count p - 1) in
  Done (mkPcpu (c_pc p) (c_spinlocks p) n (t_curspl p) (if n =? 0 then true else c_irq p) (c_frames p) (c_held p)).

Definition splx (spl : Z) (p : pcpu) : outcome (Z * pcpu) :=
  if t_curspl p <? spl then
    q ← splraise (t_curspl p) spl p; Done (t_curspl q, with_spl spl q)
  else if spl <? t_curspl p then
    let ret := t_curspl p in q ← spllower ret spl (with_spl spl p); Done (ret, q)
  else Done (spl, p).

Definition spl0 : pcpu -> outcome (Z * pcpu) := splx IPL_NONE.
Definition splhigh : pcpu -> outcome (Z * pcpu) := splx IPL_HIGH.

(** The head and the tail of the interrupt path of [mips_trap]; [mainbus_interrupt] is
    what the processor does between them.  The return from the exception puts the
    interrupt enable bit back to what it was: on. *)
Definition mips_trap_enter (p : pcpu) : outcome pcpu :=
  if t_curspl p =? 0 then
    _ ← KASSERT (t_curspl p =? 0); _ ← KASSERT (t_iplhigh_count p =? 0);
    Done (mkPcpu (c_pc p) (c_spinlocks p) (s32 (t_iplhigh_count p + 1)) IPL_HIGH false (true :: c_frames p) (c_held p))
  else Done (mkPcpu (c_pc p) (c_spinlocks p) (t_iplhigh_count p) (t_curspl p) false (false :: c_frames p) (c_held p)).

Definition mips_trap_leave (p : pcpu) : outcome pcpu :=
  match c_frames p with
  | true :: fs =>
      _ ← KASSERT (t_curspl p =? IPL_HIGH); _ ← KASSERT (t_iplhigh_count p =? 1);
      Done (mkPcpu (c_pc p) (c_spinlocks p) (s32 (t_iplhigh_count p - 1)) 0 true fs (c_held p))
  | fs => Done (mkPcpu (c_pc p) (c_spinlocks p) (t_iplhigh_count p) (t_curspl p) true (tail fs) (c_held p))
  end.

(** ** The operations *)

Definition spinlock_init : spinlock := mkSplk 0 None.

Definition spinlock_cleanup (lk : spinlock) : outcome unit :=
  _ ← KASSERT (bool_decide (splk_holder lk = None)); KASSERT (splk_lock lk =? 0).

Definition spinlock_do_i_hold (self : nat) (lk : spinlock) : bool := bool_decide (splk_holder lk = Some self).

(** [spinlock_acquire] up to the loop. *)
Definition spinlock_acquire (self : nat) (l : Z) (s : smp) : outcome smp :=
  p ← deref (cpus s !! self); p ← splraise IPL_NONE IPL_HIGH p;
  lk ← deref (locks s !! l);
  if bool_decide (splk_holder lk = Some self) then Panic
  else Done (put_cpu self (at_pc (Get l) (with_spinlocks (c_spinlocks p + 1) p)) s).

(** [sc]: whether it stored, which it does when the mark of [ll] is still there. *)
Definition store_conditional (self : nat) (l : Z) (lk : spinlock) (s : smp) : bool * smp :=
  if bool_decide (links s !! self = Some l) then (true, spinlock_data_set l lk 1 s) else (false, s).

(** [spinlock_release] up to the store to [splk_holder]. *)
Definition spinlock_release (self : nat) (l : Z) (s : smp) : outcome smp :=
  p ← deref (cpus s !! self); lk ← deref (locks s !! l);
  _ ← KASSERT (spinlock_do_i_hold self lk); _ ← KASSERT (0 <? c_spinlocks p);
  Done (put_log l (Leave self)
    (put_cpu self (at_pc (ClearHolder l) (with_held (c_held p ∖ {[l]}) (with_spinlocks (c_spinlocks p - 1) p))) s)).

(** The next access of a processor inside [spinlock_acquire] or [spinlock_release]. *)
Definition spinlock_step (self : nat) (s : smp) : outcome smp :=
  p ← deref (cpus s !! self);
  match c_pc p with
  | Run => Done s
  | Get l =>
      lk ← deref (locks s !! l);
      Done (put_cpu self (at_pc (if splk_lock lk =? 0 then Ll l else Get l) p) s)
  | Ll l =>
      lk ← deref (locks s !! l);
      Done (put_links (<[self := l]> (links s)) (put_cpu self (at_pc (Sc l (splk_lock lk)) p) s))
  | Sc l x =>
      lk ← deref (locks s !! l);
      let '(ok, s) := store_conditional self l lk s in
      let tas := if ok then x else 1 in
      Done (put_links (delete self (links s)) (put_cpu self (at_pc (if tas =? 0 then SetHolder l else Get l) p) s))
  | SetHolder l =>
      lk ← deref (locks s !! l);
      Done (put_log l (Enter self)
        (put_cpu self (at_pc Run (with_held (c_held p ∪ {[l]}) p)) (put_holder l lk (Some self) s)))
  | ClearHolder l =>
      lk ← deref (locks s !! l); Done (put_cpu self (at_pc (ClearWord l) p) (put_holder l lk None s))
  | ClearWord l =>
      lk ← deref (locks s !! l); Done (put_cpu self (at_pc Lower p) (spinlock_data_set l lk 0 s))
  | Lower => p ← spllower IPL_HIGH IPL_NONE p; Done (put_cpu self (at_pc Run p) s)
  end.

(** ** Events *)

(** [Access]: the processor reads or writes data protected by the lock, which the code
    guards with [KASSERT(spinlock_do_i_hold(l))].  [Unlink]: a processor loses its mark
    for another reason (the hardware may). *)
Inductive event :=
  | Acquire (i : nat) (l : Z) | Release (i : nat) (l : Z) | Access (i : nat) (l : Z)
  | Splx (i : nat) (spl : Z) | Step (i : nat) | Unlink (i : nat)
  | Interrupt (i : nat) | Interrupt_done (i : nat).

Definition exec (e : event) (s : smp) : outcome smp :=
  match e with
  | Acquire i l => spinlock_acquire i l s
  | Release i l => spinlock_release i l s
  | Access i l =>
      lk ← deref (locks s !! l); _ ← KASSERT (spinlock_do_i_hold i lk); Done (put_log l (Touch i) s)
  | Splx i spl => p ← deref (cpus s !! i); '(_, p) ← splx spl p; Done (put_cpu i p s)
  | Step i => spinlock_step i s
  | Unlink i => Done (put_links (delete i (links s)) s)
  | Interrupt i =>
      p ← deref (cpus s !! i); p ← mips_trap_enter p;
      Done (put_links (delete i (links s)) (put_cpu i p s))
  | Interrupt_done i => p ← deref (cpus s !! i); p ← mips_trap_leave p; Done (put_cpu i p s)
  end.

(** What a processor can do next.  Which calls it makes is up to the kernel. *)
Definition allowed (e : event) (s : smp) : Prop :=
  match e with
  | Acquire i l | Release i l | Access i l =>
      (exists p, cpus s !! i = Some p /\ c_pc p = Run) /\ is_Some (locks s !! l)
  | Splx i spl => (exists p, cpus s !! i = Some p /\ c_pc p = Run) /\ (spl = IPL_NONE \/ spl = IPL_HIGH)
  | Step i => exists p, cpus s !! i = Some p /\ c_pc p <> Run
  | Unlink i => True
  | Interrupt i => exists p, cpus s !! i = Some p /\ c_irq p = true
  | Interrupt_done i => exists p, cpus s !! i = Some p /\ c_pc p = Run /\ c_frames p <> []
  end.

#[export] Instance allowed_dec e s : Decision (allowed e s).
Proof. destruct e; apply _. Defined.

(** [n] processors as [cpu_create] leaves them, and the locks, unlocked. *)
Definition smp_start (n : nat) (L : gset Z) : smp :=
  mkSmp (gset_to_gmap spinlock_init L) (replicate n (mkPcpu Run 0 1 IPL_HIGH false [] ∅)) ∅ [].

Definition reachable (s : smp) : Prop :=
  exists n L, Z.of_nat (size L) < 2 ^ 29 /\ rtc (event_step allowed exec) (smp_start n L) s.

(** ** Who has a lock *)

(** How far a processor is with a lock: it has won the test-and-set; it is inside; in
    [spinlock_release], before and after the store to [splk_holder]. *)
Inductive stage := Won | Inside | Leaving | Left.

#[export] Instance stage_eq_dec : EqDecision stage.
Proof. solve_decision. Defined.

Definition pc_stage (k : pc) : option (Z * stage) :=
  match k with
  | SetHolder l => Some (l, Won)
  | ClearHolder l => Some (l, Leaving)
  | ClearWord l => Some (l, Left)
  | _ => None
  end.

Definition pc_at (k : pc) (l : Z) : option stage :=
  match pc_stage k with Some (l', st) => if l' =? l then Some st else None | None => None end.

Arguments pc_at : simpl never.

Definition stage_of (p : pcpu) (l : Z) : option stage :=
  if decide (l ∈ c_held p) then Some Inside else pc_at (c_pc p) l.

(** The lock a processor is in the middle of acquiring. *)
Definition acquiring (p : pcpu) : option Z :=
  match c_pc p with Get l | Ll l | Sc l _ | SetHolder l => Some l | _ => None end.
Definition releasing (p : pcpu) : option Z :=
  match c_pc p with ClearHolder l | ClearWord l => Some l | _ => None end.

(** The record of what happened under one lock: sections of one processor each. *)
Definition section_step (o : option (option nat)) (op : secop) : option (option nat) :=
  match o, op with
  | Some None, Enter i => Some (Some i)
  | Some (Some j), Touch i => if decide (i = j) then Some (Some j) else None
  | Some (Some j), Leave i => if decide (i = j) then Some None else None
  | _, _ => None
  end.
Definition sections (ops : list secop) : option (option nat) := fold_left section_step ops (Some None).
Definition under (l : Z) (lg : list (Z * secop)) : list secop := snd <$> filter (fun x => x.1 = l) lg.

Lemma sections_snoc ops op : sections (ops ++ [op]) = section_step (sections ops) op.
Proof. unfold sections. by rewrite fold_left_app. Qed.

Lemma under_snoc l lg l' op : under l (lg ++ [(l', op)]) = if decide (l' = l) then under l lg ++ [op] else under l lg.
Proof.
  unfold under. rewrite filter_app, fmap_app. case_decide as Hd.
  - by rewrite (filter_cons_True _ (l', op) []) by done.
  - rewrite (filter_cons_False _ (l', op) []) by done. cbn. by rewrite app_nil_r.
Qed.

(** A lock and the processor that has it. *)
Record lock_at (s : smp) (l : Z) (lk : spinlock) (o : option (nat * stage)) : Prop := mkLockAt {
  at_word : splk_lock lk = match o with Some _ => 1 | None => 0 end;
  at_holder : splk_holder lk = match o with Some (i, Inside) | Some (i, Leaving) => Some i | _ => None end;
  at_range : forall j st, o = Some (j, st) -> is_Some (cpus s !! j);
  at_stage : forall i p, cpus s !! i = Some p ->
    stage_of p l = match o with Some (j, st) => if decide (i = j) then Some st else None | None => None end;
  at_log : sections (under l (log s)) = Some match o with Some (i, Inside) => Some i | _ => None end }.

Definition busy (p : pcpu) : bool := match c_pc p with Run => false | _ => true end.
Definition Zsize (X : gset Z) : Z := Z.of_nat (size X).

Record cpu_ok (D : gset Z) (p : pcpu) : Prop := mkCpuOk {
  ok_held : c_held p ⊆ D;
  ok_acquiring : forall l, acquiring p = Some l \/ releasing p = Some l -> l ∈ D /\ l ∉ c_held p;
  ok_spinlocks : c_spinlocks p = Zsize (c_held p) + match acquiring p with Some _ => 1 | None => 0 end;
  ok_count : t_iplhigh_count p = Zsize (c_held p) + (if busy p then 1 else 0) + t_curspl p;
  ok_spl : t_curspl p = IPL_NONE \/ t_curspl p = IPL_HIGH;
  ok_irq : c_irq p = (t_iplhigh_count p =? 0);
  ok_frames : Forall (fun b => b = true) (c_frames p) }.

Record smp_inv (s : smp) : Prop := mkSmpInv {
  inv_small : Zsize (dom (locks s)) < 2 ^ 29;
  inv_locks : forall l lk, locks s !! l = Some lk -> exists o, lock_at s l lk o;
  inv_cpus : forall i p, cpus s !! i = Some p -> cpu_ok (dom (locks s)) p;
  inv_links : forall i l p x lk, links s !! i = Some l -> cpus s !! i = Some p -> c_pc p = Sc l x ->
    locks s !! l = Some lk -> splk_lock lk = x }.

Lemma smp_start_inv n L : Zsize L < 2 ^ 29 -> smp_inv (smp_start n L).
Proof.
  intros HL. constructor; cbn.
  - by rewrite dom_gset_to_gmap.
  - intros l lk Hl. apply lookup_gset_to_gmap_Some in Hl as (_&<-). exists None. constructor; cbn; try done.
    intros i p Hp. by apply lookup_replicate in Hp as (->&_).
  - intros i p Hp. apply lookup_replicate in Hp as (->&_). constructor; cbn; try done.
    + intros l [?|?]; done.
    + by right.
  - intros i l p x lk Hl. by rewrite lookup_empty in Hl.
Qed.

(** What a processor does to a lock that it has, or that nobody has. *)
Lemma lock_at_put s l lk o i p p' lk' o' s' :
  lock_at s l lk o -> cpus s !! i = Some p ->
  (forall st, o = Some st -> st.1 = i) -> (forall st, o' = Some st -> st.1 = i) ->
  cpus s' = <[i := p']> (cpus s) -> stage_of p' l = (snd <$> o') ->
  splk_lock lk' = match o' with Some _ => 1 | None => 0 end ->
  splk_holder lk' = match o' with Some (i, Inside) | Some (i, Leaving) => Some i | _ => None end ->
  sections (under l (log s')) = Some match o' with Some (i, Inside) => Some i | _ => None end ->
  lock_at s' l lk' o'.
Proof.
  intros [Hw Hh _ Hs Hl] Hp Ho Ho' Ec Hst Hw' Hh' Hl'. constructor; [done|done| | |done].
  { intros j st E. specialize (Ho' _ E). cbn in Ho'. subst j. rewrite Ec, list_lookup_insert_eq by (by eapply lookup_lt_Some).
    by eexists. }
  intros j q Hq. rewrite Ec in Hq. destruct (decide (i = j)) as [<-|Hij].
  - rewrite list_lookup_insert_eq in Hq by (by eapply lookup_lt_Some). injection Hq as <-.
    rewrite Hst. destruct o' as [[k st]|]; [|done]. specialize (Ho' _ eq_refl). cbn in Ho'. subst k.
    by rewrite decide_True.
  - rewrite list_lookup_insert_ne in Hq by done. rewrite (Hs _ _ Hq).
    assert (forall (o : option (nat * stage)), (forall st, o = Some st -> st.1 = i) ->
      match o with Some (k, st) => if decide (j = k) then Some st else None | None => None end = None) as Hno.
    { intros [[k st]|] Hk; [|done]. specialize (Hk _ eq_refl). cbn in Hk. subst k. by rewrite decide_False. }
    by rewrite !Hno.
Qed.

(** A lock that the event is not about. *)
Lemma lock_at_other s l lk o i p p' s' :
  lock_at s l lk o -> cpus s !! i = Some p -> cpus s' = <[i := p']> (cpus s) ->
  stage_of p' l = stage_of p l -> under l (log s') = under l (log s) -> lock_at s' l lk o.
Proof.
  intros [Hw Hh Hr Hs Hl] Hp Ec Hst El. constructor; [done|done| | |by rewrite El].
  { intros j st E. apply Hr in E. rewrite Ec. apply lookup_lt_is_Some. rewrite length_insert. by apply lookup_lt_is_Some. }
  intros j q Hq. rewrite Ec in Hq. destruct (decide (i = j)) as [<-|Hij].
  - rewrite list_lookup_insert_eq in Hq by (by eapply lookup_lt_Some). injection Hq as <-.
    rewrite Hst. by apply Hs.
  - rewrite list_lookup_insert_ne in Hq by done. by apply Hs.
Qed.

Lemma lock_at_owner s l lk o i p st :
  lock_at s l lk o -> cpus s !! i = Some p -> stage_of p l = Some st -> o = Some (i, st).
Proof.
  intros Ha Hp Hst. rewrite (at_stage _ _ _ _ Ha _ _ Hp) in Hst.
  destruct o as [[j st']|]; [|done]. case_decide; [subst j|done]. by injection Hst as <-.
Qed.

(** ** The processor's own fields *)

Lemma held_add l (h : gset Z) : l ∉ h -> Zsize (h ∪ {[l]}) = Zsize h + 1.
Proof. intros Hl. unfold Zsize. rewrite (union_comm_L h). by apply size_add. Qed.

Lemma held_remove l (h : gset Z) : l ∈ h -> Zsize (h ∖ {[l]}) = Zsize h - 1.
Proof. apply size_remove. Qed.

Lemma held_small D p : Zsize D < 2 ^ 29 -> cpu_ok D p -> 0 <= Zsize (c_held p) < 2 ^ 29.
Proof.
  intros HD Hok. pose proof (subseteq_size _ _ (ok_held _ _ Hok)). unfold Zsize in *. lia.
Qed.

Lemma spl_range D p : cpu_ok D p -> 0 <= t_curspl p <= 1.
Proof. intros Hok. destruct (ok_spl _ _ Hok) as [->| ->]; unfold IPL_NONE, IPL_HIGH; lia. Qed.

(** Interrupts are off in a processor that has a lock or is at one. *)
Lemma irq_quiet D p : cpu_ok D p -> c_irq p = true -> c_pc p = Run /\ c_held p = ∅ /\ t_curspl p = IPL_NONE.
Proof.
  intros Hok Hirq. rewrite (ok_irq _ _ Hok), Z.eqb_eq in Hirq. pose proof (spl_range _ _ Hok) as Hs.
  rewrite (ok_count _ _ Hok) in Hirq. unfold busy, Zsize in Hirq.
  destruct (c_pc p); try lia. split; [done|].
  split; [|unfold IPL_NONE; lia]. apply leibniz_equiv, size_empty_iff. lia.
Qed.

Lemma splraise_ok p :
  splraise IPL_NONE IPL_HIGH p = Done (mkPcpu (c_pc p) (c_spinlocks p) (s32 (t_iplhigh_count p + 1)) (t_curspl p)
    (if t_iplhigh_count p =? 0 then false else c_irq p) (c_frames p) (c_held p)).
Proof. reflexivity. Qed.

Lemma acquire_cpu_ok D p l :
  Zsize D < 2 ^ 29 -> cpu_ok D p -> c_pc p = Run -> l ∈ D -> l ∉ c_held p ->
  cpu_ok D (mkPcpu (Get l) (u32 (c_spinlocks p + 1)) (s32 (t_iplhigh_count p + 1)) (t_curspl p)
    (if t_iplhigh_count p =? 0 then false else c_irq p) (c_frames p) (c_held p)).
Proof.
  intros HD Hok Hr Hl Hh. pose proof (held_small _ _ HD Hok). pose proof (spl_range _ _ Hok).
  pose proof (ok_spinlocks _ _ Hok) as Esp. pose proof (ok_count _ _ Hok) as Ec.
  unfold acquiring in Esp. unfold busy in Ec. rewrite Hr in Esp, Ec.
  constructor; cbn; try apply Hok.
  - intros l' [[= <-]|?]; done.
  - rewrite u32_small by lia. lia.
  - rewrite s32_small by lia. lia.
  - rewrite s32_small by lia. rewrite (ok_irq _ _ Hok).
    destruct (t_iplhigh_count p =? 0); symmetry; apply Z.eqb_neq; lia.
Qed.

(** A step of [spinlock_acquire] that keeps the lock. *)
Lemma acquiring_cpu_ok D p k l :
  cpu_ok D p -> acquiring p = Some l -> acquiring (at_pc k p) = Some l -> cpu_ok D (at_pc k p).
Proof.
  intros Hok Ha Ha'. pose proof (ok_acquiring _ _ Hok l (or_introl Ha)).
  assert (busy p = true /\ busy (at_pc k p) = true) as [Hr Hr'].
  { unfold acquiring in Ha, Ha'. unfold busy. cbn in *. destruct (c_pc p), k; done. }
  pose proof (ok_spinlocks _ _ Hok) as Esp. pose proof (ok_count _ _ Hok) as Ec.
  rewrite Ha in Esp. rewrite Hr in Ec.
  constructor; cbn; try apply Hok.
  - intros l' [Hl'|Hl']; [by rewrite Ha' in Hl'; injection Hl' as <-|].
    unfold acquiring in Ha'. unfold releasing in Hl'. cbn in Ha', Hl'. by destruct k.
  - by rewrite Ha'.
  - by rewrite Hr'.
Qed.

Lemma acquired_cpu_ok D p l :
  cpu_ok D p -> c_pc p = SetHolder l -> cpu_ok D (at_pc Run (with_held (c_held p ∪ {[l]}) p)).
Proof.
  intros Hok Hk. destruct (ok_acquiring _ _ Hok l) as [HlD Hlh]; [left; unfold acquiring; by rewrite Hk|].
  pose proof (ok_spinlocks _ _ Hok) as Esp. pose proof (ok_count _ _ Hok) as Ec.
  unfold acquiring in Esp. unfold busy in Ec. rewrite Hk in Esp, Ec.
  constructor; cbn; try apply Hok.
  - pose proof (ok_held _ _ Hok). set_solver.
  - intros l' [?|?]; done.
  - rewrite held_add by done. lia.
  - rewrite held_add by done. lia.
Qed.

Lemma release_cpu_ok D p l :
  Zsize D < 2 ^ 29 -> cpu_ok D p -> c_pc p = Run -> l ∈ c_held p ->
  0 < c_spinlocks p /\
  cpu_ok D (at_pc (ClearHolder l) (with_held (c_held p ∖ {[l]}) (with_spinlocks (c_spinlocks p - 1) p))).
Proof.
  intros HD Hok Hr Hl. pose proof (held_small _ _ HD Hok). pose proof (held_remove _ _ Hl) as Hrm.
  assert (0 <= Zsize (c_held p ∖ {[l]})) by (unfold Zsize; lia).
  pose proof (ok_spinlocks _ _ Hok) as Esp. pose proof (ok_count _ _ Hok) as Ec.
  unfold acquiring in Esp. unfold busy in Ec. rewrite Hr in Esp, Ec. split; [lia|].
  constructor; cbn; try apply Hok.
  - pose proof (ok_held _ _ Hok). set_solver.
  - intros l' [?|[= <-]]; [done|]. pose proof (ok_held _ _ Hok). set_solver.
  - rewrite u32_small by lia. lia.
  - lia.
Qed.

Lemma releasing_cpu_ok D p k l :
  cpu_ok D p -> releasing p = Some l -> (k = ClearWord l \/ k = Lower) -> cpu_ok D (at_pc k p).
Proof.
  intros Hok Hrel Hk. pose proof (ok_acquiring _ _ Hok l (or_intror Hrel)).
  pose proof (ok_spinlocks _ _ Hok) as Esp. pose proof (ok_count _ _ Hok) as Ec.
  unfold releasing in Hrel. unfold acquiring in Esp. unfold busy in Ec.
  constructor; cbn; try apply Hok.
  - intros l' Hl'. unfold acquiring, releasing in Hl'. cbn in Hl'.
    destruct Hk as [-> | ->]; destruct Hl' as [?|Hl']; try done. by injection Hl' as <-.
  - unfold acquiring. cbn. by destruct (c_pc p), Hk as [-> | ->].
  - unfold busy. cbn. by destruct (c_pc p), Hk as [-> | ->].
Qed.

Lemma lower_cpu_ok D p :
  Zsize D < 2 ^ 29 -> cpu_ok D p -> c_pc p = Lower ->
  exists q, spllower IPL_HIGH IPL_NONE p = Done q /\ c_held q = c_held p /\ cpu_ok D (at_pc Run q).
Proof.
  intros HD Hok Hk. pose proof (held_small _ _ HD Hok). pose proof (spl_range _ _ Hok).
  pose proof (ok_spinlocks _ _ Hok) as Esp. pose proof (ok_count _ _ Hok) as Ec.
  unfold acquiring in Esp. unfold busy in Ec. rewrite Hk in Esp, Ec.
  eexists. split; [reflexivity|]. split; [done|]. constructor; cbn; try apply Hok.
  - intros l [?|?]; done.
  - lia.
  - rewrite s32_small by lia. lia.
  - rewrite (ok_irq _ _ Hok), s32_small by lia.
    destruct (Z.eqb_spec (t_iplhigh_count p - 1) 0); [done|]. apply Z.eqb_neq. lia.
Qed.

(** ** The events keep the invariant *)

(** An event that changes no lock. *)
Lemma inv_put_cpu s i p p' m :
  smp_inv s -> cpus s !! i = Some p -> (forall l, stage_of p' l = stage_of p l) -> cpu_ok (dom (locks s)) p' ->
  (forall j l, m !! j = Some l -> links s !! j = Some l \/ j = i) ->
  (forall l x lk, m !! i = Some l -> c_pc p' = Sc l x -> locks s !! l = Some lk -> splk_lock lk = x) ->
  smp_inv (put_links m (put_cpu i p' s)).
Proof.
  intros [Hsm Hl Hc Hlk] Hp Hst Hok Hm Hx. constructor; cbn; [done| | |].
  - intros l lk E. destruct (Hl l lk E) as [o Ho]. exists o. by eapply (lock_at_other s l lk o i p p').
  - intros j q Hq. apply list_lookup_insert_Some in Hq as [(<-&<-&_)|(_&Hq)]; [done|by eapply Hc].
  - intros j l q x lk E Hq Hpc El. apply list_lookup_insert_Some in Hq as [(<-&<-&_)|(Hij&Hq)]; [by eapply Hx|].
    destruct (Hm _ _ E) as [E'|]; [by eapply Hlk|done].
Qed.

(** An event about a lock that the processor has or nobody has. *)
Lemma inv_put_lock s i p p' l lk lk' o' m lg :
  smp_inv s -> cpus s !! i = Some p -> locks s !! l = Some lk ->
  (splk_lock lk = 0 \/ is_Some (stage_of p l)) -> stage_of p' l = o' ->
  splk_lock lk' = match o' with Some _ => 1 | None => 0 end ->
  splk_holder lk' = match o' with Some Inside | Some Leaving => Some i | _ => None end ->
  sections (under l lg) = Some match o' with Some Inside => Some i | _ => None end ->
  (forall l', l' <> l -> stage_of p' l' = stage_of p l' /\ under l' lg = under l' (log s)) ->
  cpu_ok (dom (locks s)) p' -> (forall l' x, c_pc p' <> Sc l' x \/ m !! i = None) ->
  (forall j l', m !! j = Some l' -> links s !! j = Some l' /\ (l' = l -> splk_lock lk' = splk_lock lk)) ->
  smp_inv (mkSmp (<[l := lk']> (locks s)) (<[i := p']> (cpus s)) m lg).
Proof.
  intros [Hsm Hl Hc Hlk] Hp El Ho Hst Hw Hh Hlg Hoth Hok Hnsc Hm.
  assert (dom (<[l := lk']> (locks s)) = dom (locks s)) as Hdom.
  { apply leibniz_equiv. rewrite dom_insert. apply elem_of_dom_2 in El. set_solver. }
  constructor; cbn; rewrite ?Hdom; [done| | |].
  - intros l1 lk1 E. apply lookup_insert_Some in E as [(<-&<-)|(Hne&E)].
    + destruct (Hl l lk El) as [o Ha]. exists (pair i <$> o').
      eapply (lock_at_put s l lk o i p p'); try done.
      * intros st ->. destruct Ho as [H0|[st' Hst']]; [by rewrite (at_word _ _ _ _ Ha) in H0|].
        pose proof (lock_at_owner _ _ _ _ _ _ _ Ha Hp Hst') as [= ->]. done.
      * intros st E. by destruct o'; [injection E as <-|].
      * rewrite Hst. by destruct o'.
      * rewrite Hw. by destruct o'.
      * rewrite Hh. by destruct o' as [[]|].
      * etrans; [exact Hlg|]. by destruct o' as [[]|].
    + destruct (Hl l1 lk1 E) as [o Ha]. exists o. destruct (Hoth l1 (not_eq_sym Hne)) as [? ?].
      by eapply (lock_at_other s l1 lk1 o i p p').
  - intros j q Hq. apply list_lookup_insert_Some in Hq as [(<-&<-&_)|(_&Hq)]; [done|by eapply Hc].
  - intros j l1 q x lk1 E Hq Hpc E1. destruct (Hm _ _ E) as [E' Hsame].
    apply list_lookup_insert_Some in Hq as [(<-&<-&_)|(Hij&Hq)].
    { by destruct (Hnsc l1 x) as [|?]; [|simplify_eq]. }
    apply lookup_insert_Some in E1 as [(<-&<-)|(Hne&E1)]; [|by eapply Hlk].
    rewrite Hsame by done. by eapply Hlk.
Qed.

Lemma stage_ext p p' l :
  (l ∈ c_held p' <-> l ∈ c_held p) -> pc_at (c_pc p') l = pc_at (c_pc p) l -> stage_of p' l = stage_of p l.
Proof. unfold stage_of. intros Hl ->. repeat case_decide; tauto. Qed.

Lemma stage_inside p l : l ∈ c_held p -> stage_of p l = Some Inside.
Proof. intros Hl. unfold stage_of. by rewrite decide_True. Qed.

Lemma stage_outside p l : l ∉ c_held p -> stage_of p l = pc_at (c_pc p) l.
Proof. intros Hl. unfold stage_of. by rewrite decide_False. Qed.

Lemma pc_at_self k l st : pc_stage k = Some (l, st) -> pc_at k l = Some st.
Proof. unfold pc_at. intros ->. by rewrite Z.eqb_refl. Qed.

Lemma pc_at_away k l : (forall st, pc_stage k <> Some (l, st)) -> pc_at k l = None.
Proof.
  unfold pc_at. destruct (pc_stage k) as [[l' st]|]; [|done]. intros Hst.
  destruct (Z.eqb_spec l' l); [subst; by destruct (Hst st)|done].
Qed.

Lemma stage_inside_inv p l : stage_of p l = Some Inside -> l ∈ c_held p.
Proof. unfold stage_of, pc_at. case_decide; [done|]. by destruct (c_pc p); cbn; try destruct (_ =? _). Qed.

Lemma lock_find s i p l lk :
  smp_inv s -> cpus s !! i = Some p -> locks s !! l = Some lk ->
  exists o, lock_at s l lk o /\ (forall st, stage_of p l = Some st -> o = Some (i, st)).
Proof.
  intros Hi Hp El. destruct (inv_locks _ Hi l lk El) as [o Ha]. exists o. split; [done|].
  intros st Hst. by eapply lock_at_owner.
Qed.

(** [spinlock_do_i_hold] tells a processor outside the operations the truth. *)
Lemma do_i_hold_exact s i p l lk :
  smp_inv s -> cpus s !! i = Some p -> c_pc p = Run -> locks s !! l = Some lk ->
  spinlock_do_i_hold i lk = bool_decide (l ∈ c_held p).
Proof.
  intros Hi Hp Hr El. destruct (inv_locks _ Hi l lk El) as [o Ha].
  pose proof (at_stage _ _ _ _ Ha i p Hp) as Hst. unfold spinlock_do_i_hold. rewrite (at_holder _ _ _ _ Ha).
  apply bool_decide_ext. split.
  - intros Ho. destruct o as [[j st]|]; [|done].
    assert (j = i /\ (st = Inside \/ st = Leaving)) as [-> Hst'] by (destruct st; naive_solver).
    rewrite decide_True in Hst by done. apply stage_inside_inv. rewrite Hst. f_equal.
    destruct Hst' as [-> | ->]; [done|]. exfalso. revert Hst. unfold stage_of. rewrite Hr. by case_decide.
  - intros Hl. rewrite stage_inside in Hst by done. destruct o as [[j st]|]; [|done]. case_decide; [|done].
    injection Hst as <-. by subst.
Qed.

(** What [panic] and the assertions catch: acquiring a lock twice, releasing or using
    one that is not held, and returning from an interrupt with a lock held or with
    interrupts enabled. *)
Definition wrong (e : event) (s : smp) : Prop :=
  match e with
  | Acquire i l => exists p, cpus s !! i = Some p /\ l ∈ c_held p
  | Release i l | Access i l => exists p, cpus s !! i = Some p /\ l ∉ c_held p
  | Interrupt_done i => exists p, cpus s !! i = Some p /\ ~ (c_held p = ∅ /\ t_curspl p = IPL_HIGH)
  | _ => False
  end.

Abbreviation goes_well := (event_goes exec wrong smp_inv) (only parsing).

Lemma lock_dom s l lk : locks s !! l = Some lk -> l ∈ dom (locks s).
Proof. apply elem_of_dom_2. Qed.

Lemma acquire_goes i l s : smp_inv s -> allowed (Acquire i l) s -> goes_well (Acquire i l) s.
Proof.
  intros Hi ((p&Hp&Hr)&lk&El). pose proof (do_i_hold_exact _ _ _ _ _ Hi Hp Hr El) as Eh.
  unfold spinlock_do_i_hold in Eh. destruct (decide (l ∈ c_held p)) as [Hl|Hl].
  - left. split; [by exists p|]. cbn. unfold spinlock_acquire. rewrite Hp. cbn. rewrite El. cbn.
    rewrite Eh. by rewrite bool_decide_true.
  - eapply goes_on; [by intros (?&?&?); simplify_eq| |].
    + cbn. unfold spinlock_acquire. rewrite Hp. cbn. rewrite El. cbn. rewrite Eh, bool_decide_false by done. reflexivity.
    + apply (inv_put_cpu s i p _ (links s)); try done.
      * intros l'. apply stage_ext; [done|]. cbn. by rewrite Hr.
      * apply (acquire_cpu_ok _ p l); try done; [by apply Hi|by eapply Hi|by eapply lock_dom].
      * auto.
Qed.

Lemma release_goes i l s : smp_inv s -> allowed (Release i l) s -> goes_well (Release i l) s.
Proof.
  intros Hi ((p&Hp&Hr)&lk&El). pose proof (do_i_hold_exact _ _ _ _ _ Hi Hp Hr El) as Eh.
  destruct (decide (l ∈ c_held p)) as [Hl|Hl].
  2: { left. split; [by exists p|]. cbn. unfold spinlock_release. rewrite Hp. cbn. rewrite El. cbn.
       rewrite Eh. by rewrite bool_decide_false. }
  destruct (release_cpu_ok (dom (locks s)) p l) as [Hpos Hok]; try done; [by apply Hi|by eapply Hi|].
  destruct (lock_find _ _ _ _ _ Hi Hp El) as (o&Ha&Ho). specialize (Ho _ (stage_inside _ _ Hl)). subst o.
  eapply goes_on; [by intros (?&?&?); simplify_eq| |].
  - cbn. unfold spinlock_release. rewrite Hp. cbn. rewrite El. cbn. rewrite Eh, bool_decide_true by done. cbn.
    apply Z.ltb_lt in Hpos. rewrite Hpos. reflexivity.
  - unfold put_log, put_cpu. cbn. rewrite <- (insert_id (locks s) l lk) by done.
    apply (inv_put_lock s i p _ l lk lk (Some Leaving)); cbn; try done.
    + right. rewrite stage_inside by done. by eexists.
    + rewrite stage_outside by (cbn; set_solver). by apply pc_at_self.
    + by rewrite (at_word _ _ _ _ Ha).
    + by rewrite (at_holder _ _ _ _ Ha).
    + rewrite under_snoc, decide_True, sections_snoc, (at_log _ _ _ _ Ha) by done. cbn. by rewrite decide_True.
    + intros l' Hne. rewrite under_snoc, decide_False by done. split; [|done].
      apply stage_ext; cbn; [set_solver|]. by rewrite Hr, !pc_at_away by (cbn; congruence).
    + intros l' x. by left.
Qed.

Lemma access_goes i l s : smp_inv s -> allowed (Access i l) s -> goes_well (Access i l) s.
Proof.
  intros Hi ((p&Hp&Hr)&lk&El). pose proof (do_i_hold_exact _ _ _ _ _ Hi Hp Hr El) as Eh.
  destruct (decide (l ∈ c_held p)) as [Hl|Hl].
  2: { left. split; [by exists p|]. cbn. rewrite El. cbn. rewrite Eh. by rewrite bool_decide_false. }
  destruct (lock_find _ _ _ _ _ Hi Hp El) as (o&Ha&Ho). specialize (Ho _ (stage_inside _ _ Hl)). subst o.
  eapply goes_on; [by intros (?&?&?); simplify_eq| |].
  - cbn. rewrite El. cbn. rewrite Eh, bool_decide_true by done. reflexivity.
  - unfold put_log. rewrite <- (insert_id (locks s) l lk), <- (list_insert_id (cpus s) i p) by done.
    apply (inv_put_lock s i p _ l lk lk (Some Inside)); cbn; try done.
    + right. rewrite stage_inside by done. by eexists.
    + by apply stage_inside.
    + by rewrite (at_word _ _ _ _ Ha).
    + by rewrite (at_holder _ _ _ _ Ha).
    + rewrite under_snoc, decide_True, sections_snoc, (at_log _ _ _ _ Ha) by done. cbn. by rewrite decide_True.
    + intros l' Hne. by rewrite under_snoc, decide_False.
    + by eapply Hi.
    + intros l' x. left. by rewrite Hr.
Qed.

Lemma splx_goes i spl s : smp_inv s -> allowed (Splx i spl) s -> goes_well (Splx i spl) s.
Proof.
  intros Hi ((p&Hp&Hr)&Hspl). pose proof (inv_cpus _ Hi _ _ Hp) as Hok.
  pose proof (held_small _ _ (inv_small _ Hi) Hok) as Hsz. pose proof (spl_range _ _ Hok) as Hrg.
  pose proof (ok_spinlocks _ _ Hok) as Esp. pose proof (ok_count _ _ Hok) as Ec. pose proof (ok_irq _ _ Hok) as Eirq.
  unfold acquiring in Esp. unfold busy in Ec. rewrite Hr in Esp, Ec.
  assert (exists x q, splx spl p = Done (x, q) /\ c_pc q = Run /\ c_held q = c_held p /\ cpu_ok (dom (locks s)) q)
    as (x&q&E&Hq&Hh&Hok').
  { unfold splx. destruct Hspl as [-> | ->], (ok_spl _ _ Hok) as [Es|Es]; rewrite Es in *; cbn -[s32];
      (eexists _, _; split; [reflexivity|]; split; [done|]; split; [done|]); try exact Hok;
      constructor; cbn -[s32]; try apply Hok; unfold IPL_NONE, IPL_HIGH in *;
      unfold acquiring, releasing, busy; cbn -[s32]; rewrite ?Hr, ?s32_small by lia;
      try (intros l [?|?]; done); try lia; auto.
    - rewrite Eirq. destruct (Z.eqb_spec (t_iplhigh_count p - 1) 0); [done|]. apply Z.eqb_neq. lia.
    - rewrite Eirq. destruct (t_iplhigh_count p =? 0); symmetry; apply Z.eqb_neq; lia. }
  eapply goes_on; [by intros []| |].
  - cbn. rewrite Hp. cbn. rewrite E. reflexivity.
  - apply (inv_put_cpu s i p _ (links s)); try done; [|auto|].
    + intros l. apply stage_ext; [by rewrite Hh|by rewrite Hq, Hr].
    + intros l y lk _ Hsc. by rewrite Hq in Hsc.
Qed.

Lemma links_filter_lookup (m : gmap nat Z) i j l l' :
  delete i (filter (fun il => il.2 <> l) m) !! j = Some l' -> m !! j = Some l' /\ l' <> l.
Proof. intros H. apply lookup_delete_Some in H as (_&H). by apply map_lookup_filter_Some in H. Qed.

(** A step inside [spinlock_acquire] that leaves the lock as it is. *)
Lemma acquiring_goes i l s p k m :
  smp_inv s -> cpus s !! i = Some p -> acquiring p = Some l -> acquiring (at_pc k p) = Some l ->
  pc_stage (c_pc p) = None -> pc_stage k = None ->
  (forall j l', m !! j = Some l' -> links s !! j = Some l' \/ j = i) ->
  (forall l' x lk, m !! i = Some l' -> k = Sc l' x -> locks s !! l' = Some lk -> splk_lock lk = x) ->
  smp_inv (put_links m (put_cpu i (at_pc k p) s)).
Proof.
  intros Hi Hp Ha Ha' Hs Hs' Hm Hx. apply (inv_put_cpu s i p); try done.
  - intros l'. apply stage_ext; [done|]. unfold pc_at. cbn. by rewrite Hs, Hs'.
  - eapply acquiring_cpu_ok; [by eapply Hi|done|done].
Qed.

Lemma sc_goes i l x s p lk :
  smp_inv s -> cpus s !! i = Some p -> c_pc p = Sc l x -> locks s !! l = Some lk ->
  exists s', exec (Step i) s = Done s' /\ smp_inv s' /\
    (links s !! i = Some l -> splk_lock lk = 0 -> cpus s' !! i = Some (at_pc (SetHolder l) p) /\ locks s' = <[l := mkSplk 1 (splk_holder lk)]> (locks s)) /\
    (links s !! i <> Some l -> cpus s' !! i = Some (at_pc (Get l) p) /\ locks s' = locks s).
Proof.
  intros Hi Hp Hpc El. cbn. unfold spinlock_step. rewrite Hp. cbn. rewrite Hpc, El. cbn. unfold store_conditional.
  assert (acquiring p = Some l) as Hacq by (unfold acquiring; by rewrite Hpc).
  destruct (ok_acquiring _ _ (inv_cpus _ Hi _ _ Hp) l (or_introl Hacq)) as [HlD Hlh].
  case_bool_decide as Hmark.
  2: { eexists. split; [reflexivity|].
       split; [|split; [done|cbn; by rewrite list_lookup_insert_eq by (by eapply lookup_lt_Some)]]. cbn. apply (acquiring_goes i l); try done; [by rewrite Hpc|].
       intros j l' Hj. apply lookup_delete_Some in Hj as (_&?). by left. }
  pose proof (inv_links _ Hi i l p x lk Hmark Hp Hpc El) as Hx. subst x.
  eexists. split; [reflexivity|]. split.
  2: { split; [|done]. intros _ ->. cbn. by rewrite list_lookup_insert_eq by (by eapply lookup_lt_Some). }
  destruct (inv_locks _ Hi l lk El) as [o Ha]. unfold put_links, put_cpu, spinlock_data_set. cbn.
  pose proof (at_stage _ _ _ _ Ha _ _ Hp) as Hst.
  assert (stage_of p l = None) as Hout by (rewrite stage_outside, Hpc by done; done). rewrite Hout in Hst.
  destruct (Z.eqb_spec (splk_lock lk) 0) as [H0|H0].
  - assert (o = None) as -> by (destruct o; [by rewrite (at_word _ _ _ _ Ha) in H0|done]).
    apply (inv_put_lock s i p _ l lk _ (Some Won)); cbn; try done; try (by left).
    + rewrite stage_outside by done. by apply pc_at_self.
    + apply (at_holder _ _ _ _ Ha).
    + apply (at_log _ _ _ _ Ha).
    + intros l' Hne. split; [|done]. apply stage_ext; [done|]. cbn. by rewrite Hpc, !pc_at_away by (cbn; congruence).
    + eapply acquiring_cpu_ok; [by eapply Hi|done|done].
    + intros j l' Hj. by apply links_filter_lookup in Hj as (?&?).
  - assert (splk_lock lk = 1) as H1 by (destruct o; rewrite (at_word _ _ _ _ Ha) in *; done).
    replace (mkSplk 1 (splk_holder lk)) with lk by (destruct lk; cbn in *; by subst). rewrite insert_id by done.
    apply (acquiring_goes i l _ p (Get l) (delete i (filter (fun il => il.2 <> l) (links s)))); try done; [by rewrite Hpc|].
    intros j l' Hj. apply links_filter_lookup in Hj as (?&?). by left.
Qed.

Lemma set_holder_goes i l s p lk :
  smp_inv s -> cpus s !! i = Some p -> c_pc p = SetHolder l -> locks s !! l = Some lk ->
  exists s', exec (Step i) s = Done s' /\ smp_inv s' /\ cpus s' !! i = Some (at_pc Run (with_held (c_held p ∪ {[l]}) p)).
Proof.
  intros Hi Hp Hpc El. cbn. unfold spinlock_step. rewrite Hp. cbn. rewrite Hpc, El. cbn.
  assert (acquiring p = Some l) as Hacq by (unfold acquiring; by rewrite Hpc).
  destruct (ok_acquiring _ _ (inv_cpus _ Hi _ _ Hp) l (or_introl Hacq)) as [HlD Hlh].
  assert (stage_of p l = Some Won) as Hst by (rewrite stage_outside, Hpc by done; by apply pc_at_self).
  destruct (lock_find _ _ _ _ _ Hi Hp El) as (o&Ha&Ho). specialize (Ho _ Hst). subst o.
  eexists. split; [reflexivity|]. split.
  2: { cbn. by rewrite list_lookup_insert_eq by (by eapply lookup_lt_Some). }
  unfold put_log, put_cpu, put_holder. cbn.
  apply (inv_put_lock s i p _ l lk _ (Some Inside)); cbn; try done.
  - right. rewrite Hst. by eexists.
  - apply stage_inside. cbn. set_solver.
  - apply (at_word _ _ _ _ Ha).
  - by rewrite under_snoc, decide_True, sections_snoc, (at_log _ _ _ _ Ha) by done.
  - intros l' Hne. rewrite under_snoc, decide_False by done. split; [|done].
    apply stage_ext; cbn; [set_solver|]. by rewrite Hpc, !pc_at_away by (cbn; congruence).
  - apply acquired_cpu_ok; [by eapply Hi|done].
  - intros l' x. by left.
Qed.

Lemma clear_goes i l s p lk :
  smp_inv s -> cpus s !! i = Some p -> c_pc p = ClearHolder l \/ c_pc p = ClearWord l -> locks s !! l = Some lk ->
  exists s', exec (Step i) s = Done s' /\ smp_inv s' /\
    cpus s' !! i = Some (at_pc (if decide (c_pc p = ClearHolder l) then ClearWord l else Lower) p).
Proof.
  intros Hi Hp Hpc El. cbn. unfold spinlock_step. rewrite Hp. cbn.
  assert (releasing p = Some l) as Hrel by (unfold releasing; by destruct Hpc as [-> | ->]).
  destruct (ok_acquiring _ _ (inv_cpus _ Hi _ _ Hp) l (or_intror Hrel)) as [HlD Hlh].
  destruct (lock_find _ _ _ _ _ Hi Hp El) as (o&Ha&Ho). rewrite stage_outside in Ho by done.
  destruct Hpc as [Hpc|Hpc]; rewrite Hpc, El; cbn; rewrite Hpc in Ho;
    rewrite (Ho _ ltac:(by apply pc_at_self)) in Ha; clear Ho;
    (eexists; split; [reflexivity|]; split; [|cbn; rewrite list_lookup_insert_eq by (by eapply lookup_lt_Some); by case_decide]);
    unfold put_cpu, put_holder, spinlock_data_set; cbn.
  - apply (inv_put_lock s i p _ l lk _ (Some Left)); cbn; try done.
    + right. rewrite stage_outside, Hpc by done. by eexists; apply pc_at_self.
    + rewrite stage_outside by done. by apply pc_at_self.
    + apply (at_word _ _ _ _ Ha).
    + apply (at_log _ _ _ _ Ha).
    + intros l' Hne. split; [|done]. apply stage_ext; [done|]. cbn. by rewrite Hpc, !pc_at_away by (cbn; congruence).
    + apply (releasing_cpu_ok _ _ _ l); [by eapply Hi|done|by left].
    + intros l' x. by left.
  - apply (inv_put_lock s i p _ l lk _ None); cbn; try done.
    + right. rewrite stage_outside, Hpc by done. by eexists; apply pc_at_self.
    + by rewrite stage_outside.
    + apply (at_holder _ _ _ _ Ha).
    + apply (at_log _ _ _ _ Ha).
    + intros l' Hne. split; [|done]. apply stage_ext; [done|]. cbn. by rewrite Hpc, !pc_at_away by (cbn; congruence).
    + apply (releasing_cpu_ok _ _ _ l); [by eapply Hi|done|by right].
    + intros l' x. by left.
    + intros j l' Hj. by apply map_lookup_filter_Some in Hj as (?&?).
Qed.

Lemma lower_goes i s p :
  smp_inv s -> cpus s !! i = Some p -> c_pc p = Lower ->
  exists s' q, exec (Step i) s = Done s' /\ smp_inv s' /\ cpus s' !! i = Some q /\ c_pc q = Run.
Proof.
  intros Hi Hp Hpc. destruct (lower_cpu_ok _ p (inv_small _ Hi) (inv_cpus _ Hi _ _ Hp) Hpc) as (q&E&Hh&Hok).
  eexists _, _. split; [cbn -[spllower]; unfold spinlock_step; rewrite Hp; cbn -[spllower]; rewrite Hpc, E; reflexivity|]. split; [|split].
  - apply (inv_put_cpu s i p _ (links s)); try done; [|auto].
    intros l. apply stage_ext; cbn; [by rewrite Hh|]. by rewrite Hpc.
  - cbn. by rewrite list_lookup_insert_eq by (by eapply lookup_lt_Some).
  - done.
Qed.

Lemma lock_of_pc i l s p : smp_inv s -> cpus s !! i = Some p -> acquiring p = Some l \/ releasing p = Some l -> exists lk, locks s !! l = Some lk.
Proof. intros Hi Hp Hl. destruct (ok_acquiring _ _ (inv_cpus _ Hi _ _ Hp) l Hl) as [HD _]. by apply elem_of_dom in HD. Qed.

(** Where the two reads lead. *)
Lemma read_goes i l s p lk :
  smp_inv s -> cpus s !! i = Some p -> c_pc p = Get l \/ c_pc p = Ll l -> locks s !! l = Some lk ->
  exists s', exec (Step i) s = Done s' /\ smp_inv s' /\ locks s' = locks s /\
    cpus s' !! i = Some (at_pc (if decide (c_pc p = Get l) then (if splk_lock lk =? 0 then Ll l else Get l) else Sc l (splk_lock lk)) p) /\
    (c_pc p = Ll l -> links s' !! i = Some l).
Proof.
  intros Hi Hp Hpc El. cbn. unfold spinlock_step. rewrite Hp. cbn.
  assert (acquiring p = Some l) as Hacq by (unfold acquiring; by destruct Hpc as [-> | ->]).
  destruct Hpc as [Hpc|Hpc]; rewrite Hpc, El; cbn;
    (eexists; split; [reflexivity|]; split; [|split; [done|split; [cbn; rewrite list_lookup_insert_eq by (by eapply lookup_lt_Some); by case_decide|]]]).
  - apply (acquiring_goes i l _ p _ (links s)); try done; [|by rewrite Hpc| |auto|]; cbn.
    + by destruct (_ =? _).
    + by destruct (_ =? _).
    + intros l' x lk' _ Hk. by destruct (_ =? _).
  - done.
  - apply (acquiring_goes i l); try done; [by rewrite Hpc| |].
    + intros j l' Hj. apply lookup_insert_Some in Hj as [(<-&_)|(_&?)]; auto.
    + intros l' x lk' _ [= <- <-] El'. by simplify_eq.
  - intros _. cbn. by rewrite lookup_insert_eq.
Qed.

Lemma step_goes i s : smp_inv s -> allowed (Step i) s -> goes_well (Step i) s.
Proof.
  intros Hi (p&Hp&Hr).
  assert (forall l, acquiring p = Some l \/ releasing p = Some l -> exists lk, locks s !! l = Some lk) as Hlk
    by (intros l; by eapply lock_of_pc).
  enough (exists s', exec (Step i) s = Done s' /\ smp_inv s') as (s'&E&Hi') by (eapply goes_on; [by intros []|done|done]).
  unfold acquiring, releasing in Hlk. destruct (c_pc p) as [|l|l|l x|l|l|l|] eqn:Hpc; [done|..];
    try (destruct (Hlk l ltac:(auto)) as [lk El]).
  - destruct (read_goes i l s p lk) as (s'&?&?&_); eauto.
  - destruct (read_goes i l s p lk) as (s'&?&?&_); eauto.
  - destruct (sc_goes i l x s p lk) as (s'&?&?&_); eauto.
  - destruct (set_holder_goes i l s p lk) as (s'&?&?&_); eauto.
  - destruct (clear_goes i l s p lk) as (s'&?&?&_); eauto.
  - destruct (clear_goes i l s p lk) as (s'&?&?&_); eauto.
  - destruct (lower_goes i s p) as (s'&q&?&?&_); eauto.
Qed.

Lemma interrupt_goes i s : smp_inv s -> allowed (Interrupt i) s -> goes_well (Interrupt i) s.
Proof.
  intros Hi (p&Hp&Hirq). pose proof (inv_cpus _ Hi _ _ Hp) as Hok. destruct (irq_quiet _ _ Hok Hirq) as (Hr&Hh&Hs).
  pose proof (ok_irq _ _ Hok) as Ec. rewrite Hirq in Ec. symmetry in Ec. pose proof Ec as Ec0. apply Z.eqb_eq in Ec0.
  eapply goes_on; [by intros []| |].
  - cbn. rewrite Hp. cbn. unfold mips_trap_enter. rewrite Hs. cbn. rewrite Ec. cbn. reflexivity.
  - apply (inv_put_cpu s i p); try done.
    + constructor; cbn; try apply Hok.
      * rewrite Ec0. unfold busy. cbn. rewrite Hr, Hh. done.
      * by right.
      * by rewrite Ec0.
      * constructor; [done|apply Hok].
    + intros j l Hj. apply lookup_delete_Some in Hj as (_&?). by left.
    + intros l x lk _ Hk. cbn in Hk. by rewrite Hr in Hk.
Qed.

Lemma interrupt_done_goes i s : smp_inv s -> allowed (Interrupt_done i) s -> goes_well (Interrupt_done i) s.
Proof.
  intros Hi (p&Hp&Hr&Hfr). pose proof (inv_cpus _ Hi _ _ Hp) as Hok. pose proof (ok_frames _ _ Hok) as Hf.
  pose proof (spl_range _ _ Hok) as Hrg. pose proof (ok_count _ _ Hok) as Ec. unfold busy in Ec. rewrite Hr in Ec.
  destruct (c_frames p) as [|b fs] eqn:Efr; [done|]. apply Forall_cons in Hf as [-> Hf].
  destruct (decide (c_held p = ∅ /\ t_curspl p = IPL_HIGH)) as [[Hh Hs]|Hw].
  - rewrite Hh, Hs in Ec. change (t_iplhigh_count p = 1) in Ec. eapply goes_on.
    + intros (q&Hq&Hn). simplify_eq. by destruct Hn.
    + cbn. rewrite Hp. cbn. unfold mips_trap_leave. rewrite Efr, Hs, Ec. cbn. reflexivity.
    + apply (inv_put_cpu s i p _ (links s)); try done; [|auto|].
      * pose proof (ok_spinlocks _ _ Hok) as Esp. constructor; cbn; try apply Hok; try done.
        -- unfold busy. cbn. rewrite Hr, Hh. done.
        -- by left.
      * intros l x lk _ Hk. cbn in Hk. by rewrite Hr in Hk.
  - left. split; [by exists p|]. cbn. rewrite Hp. cbn. unfold mips_trap_leave. rewrite Efr.
    destruct (Z.eqb_spec (t_curspl p) IPL_HIGH) as [Hs|]; [|done]. cbn.
    destruct (Z.eqb_spec (t_iplhigh_count p) 1) as [H1|]; [|done]. destruct Hw. split; [|done].
    apply leibniz_equiv, size_empty_iff. unfold IPL_HIGH, Zsize in *. lia.
Qed.

Lemma unlink_goes i s : smp_inv s -> goes_well (Unlink i) s.
Proof.
  intros [Hsm Hl Hc Hlk]. eapply goes_on; [by intros []|reflexivity|]. constructor; cbn; try done.
  - intros l lk E. destruct (Hl l lk E) as [o []]. by exists o.
  - intros j l p x lk Hj. apply lookup_delete_Some in Hj as (_&Hj). by eapply Hlk.
Qed.

Lemma all_go e s : smp_inv s -> allowed e s -> goes_well e s.
Proof.
  destruct e; intros Hi Ha; eauto using acquire_goes, release_goes, access_goes, splx_goes, step_goes, unlink_goes,
    interrupt_goes, interrupt_done_goes.
Qed.

Lemma reachable_inv s : reachable s -> smp_inv s.
Proof. intros (n&L&HL&Hs). eapply steps_invariant; [apply all_go|by apply smp_start_inv|exact Hs]. Qed.

(** Steps of one processor, until it is outside the operations. *)
Fixpoint steps (n : nat) (i : nat) (s : smp) : outcome smp :=
  match n with
  | O => Done s
  | S n => s ← exec (Step i) s; steps n i s
  end.

Definition inside (i : nat) (l : Z) (s : smp) : Prop :=
  exists p, cpus s !! i = Some p /\ c_pc p = Run /\ l ∈ c_held p.
Definition outside (i : nat) (s : smp) : Prop := exists p, cpus s !! i = Some p /\ c_pc p = Run.

Lemma steps_outside n i s : outside i s -> steps n i s = Done s.
Proof. intros (p&Hp&Hr). induction n as [|n IH]; [done|]. cbn. unfold spinlock_step. rewrite Hp. cbn. by rewrite Hr. Qed.

Lemma inside_outside i l s : inside i l s -> outside i s.
Proof. intros (p&?&?&?). by exists p. Qed.

Lemma set_holder_progress i l s p lk n :
  smp_inv s -> cpus s !! i = Some p -> c_pc p = SetHolder l -> locks s !! l = Some lk ->
  exists s', steps (S n) i s = Done s' /\ inside i l s'.
Proof.
  intros Hi Hp Hpc El. destruct (set_holder_goes _ _ _ _ _ Hi Hp Hpc El) as (s'&E&_&Hp').
  assert (inside i l s') as Hin by (eexists; split; [exact Hp'|]; split; [done|]; cbn; set_solver).
  exists s'. cbn [steps]. rewrite E. cbn. split; [|done]. by apply steps_outside, (inside_outside i l).
Qed.

Lemma marked_progress i l s p lk x n :
  smp_inv s -> cpus s !! i = Some p -> c_pc p = Sc l x -> locks s !! l = Some lk -> splk_lock lk = 0 -> links s !! i = Some l ->
  exists s', steps (S (S n)) i s = Done s' /\ inside i l s'.
Proof.
  intros Hi Hp Hpc El H0 Hmark. destruct (sc_goes _ _ _ _ _ _ Hi Hp Hpc El) as (s1&E&Hi1&Hgot&_).
  destruct (Hgot Hmark H0) as [Hp1 El1].
  destruct (set_holder_progress i l s1 _ (mkSplk 1 (splk_holder lk)) n Hi1 Hp1 eq_refl) as (s'&E'&Hin).
  { rewrite El1. by rewrite lookup_insert_eq. }
  exists s'. cbn [steps]. rewrite E. done.
Qed.

Lemma read_progress i l s p lk n :
  smp_inv s -> cpus s !! i = Some p -> c_pc p = Get l \/ c_pc p = Ll l -> locks s !! l = Some lk -> splk_lock lk = 0 ->
  exists s', steps (S (S (S (S n)))) i s = Done s' /\ inside i l s'.
Proof.
  intros Hi Hp Hpc El H0. destruct (read_goes _ _ _ _ _ Hi Hp Hpc El) as (s1&E&Hi1&El1&Hp1&Hm1).
  cbn [steps]. rewrite E. cbn -[exec]. rewrite <- El1 in El. case_decide as Hd.
  - rewrite H0 in Hp1. cbn in Hp1.
    destruct (read_goes _ _ _ _ _ Hi1 Hp1 (or_intror eq_refl) El) as (s2&E2&Hi2&El2&Hp2&Hm2).
    rewrite E2. cbn -[exec]. rewrite <- El2 in El. rewrite decide_False in Hp2 by done.
    by apply (marked_progress i l s2 _ lk (splk_lock lk) n Hi2 Hp2 eq_refl El H0 (Hm2 eq_refl)).
  - destruct Hpc as [?|Hpc]; [done|].
    by apply (marked_progress i l s1 _ lk (splk_lock lk) (S n) Hi1 Hp1 eq_refl El H0 (Hm1 Hpc)).
Qed.

Lemma sc_progress i l s p lk x n :
  smp_inv s -> cpus s !! i = Some p -> c_pc p = Sc l x -> locks s !! l = Some lk -> splk_lock lk = 0 ->
  exists s', steps (S (S (S (S (S n))))) i s = Done s' /\ inside i l s'.
Proof.
  intros Hi Hp Hpc El H0. destruct (decide (links s !! i = Some l)) as [Hm|Hm]; [by eapply marked_progress|].
  destruct (sc_goes _ _ _ _ _ _ Hi Hp Hpc El) as (s1&E&Hi1&_&Hlost). destruct (Hlost Hm) as [Hp1 El1].
  rewrite <- El1 in El. cbn [steps]. rewrite E. by apply (read_progress i l s1 _ lk n Hi1 Hp1 (or_introl eq_refl)).
Qed.

Lemma free_word s l lk : smp_inv s -> locks s !! l = Some lk ->
  (forall j q, cpus s !! j = Some q -> stage_of q l = None) -> splk_lock lk = 0.
Proof.
  intros Hi El Hfree. destruct (inv_locks _ Hi l lk El) as [o Ha]. rewrite (at_word _ _ _ _ Ha).
  destruct o as [[j st]|]; [|done]. destruct (at_range _ _ _ _ Ha j st eq_refl) as [q Hq].
  pose proof (at_stage _ _ _ _ Ha j q Hq) as Hst. rewrite (Hfree j q Hq) in Hst. by rewrite decide_True in Hst.
Qed.

Lemma lower_progress i s p n :
  smp_inv s -> cpus s !! i = Some p -> c_pc p = Lower -> exists s', steps (S n) i s = Done s' /\ outside i s'.
Proof.
  intros Hi Hp Hpc. destruct (lower_goes i s p Hi Hp Hpc) as (s'&q&E&_&Hq&Hr).
  exists s'. cbn [steps]. rewrite E. cbn. split; [apply steps_outside|]; by exists q.
Qed.

Lemma clear_progress i l s p lk n :
  smp_inv s -> cpus s !! i = Some p -> c_pc p = ClearHolder l \/ c_pc p = ClearWord l -> locks s !! l = Some lk ->
  exists s', steps (S (S (S n))) i s = Done s' /\ outside i s'.
Proof.
  intros Hi Hp Hpc El. destruct (clear_goes _ _ _ _ _ Hi Hp Hpc El) as (s1&E&Hi1&Hp1).
  cbn [steps]. rewrite E. cbn -[exec]. case_decide.
  - destruct (lock_of_pc i l s1 _ Hi1 Hp1 (or_intror eq_refl)) as [lk1 El1].
    destruct (clear_goes _ _ _ _ _ Hi1 Hp1 (or_intror eq_refl) El1) as (s2&E2&Hi2&Hp2).
    rewrite E2. cbn -[exec]. rewrite decide_False in Hp2 by done. by apply (lower_progress i s2 _ n Hi2 Hp2).
  - by apply (lower_progress i s1 _ (S n) Hi1 Hp1).
Qed.

(** ** The properties *)

(** C2. However the processors run, at most one is between the return of
    [spinlock_acquire] and the call of [spinlock_release] of a lock; what is done under a
    lock is a sequence of whole sections, none cut by another; [spinlock_do_i_hold] tells
    a processor exactly whether it is inside; [c_spinlocks] counts the locks it is inside
    of; and interrupts come to a processor only when it has no lock and is not at one. *)
Theorem spinlock_exclusion s :
  reachable s ->
  (forall i j p q l, cpus s !! i = Some p -> cpus s !! j = Some q -> l ∈ c_held p -> l ∈ c_held q -> i = j) /\
  (forall l lk, locks s !! l = Some lk -> is_Some (sections (under l (log s)))) /\
  (forall i p l lk, cpus s !! i = Some p -> c_pc p = Run -> locks s !! l = Some lk ->
     spinlock_do_i_hold i lk = bool_decide (l ∈ c_held p)) /\
  (forall i p, cpus s !! i = Some p -> c_pc p = Run -> c_spinlocks p = Z.of_nat (size (c_held p))) /\
  (forall i p, cpus s !! i = Some p -> c_irq p = true -> c_pc p = Run /\ c_held p = ∅).
Proof.
  intros Hr. apply reachable_inv in Hr as Hi. repeat split.
  - intros i j p q l Hp Hq Hl Hl'. assert (is_Some (locks s !! l)) as [lk El].
    { apply elem_of_dom, (ok_held _ _ (inv_cpus _ Hi _ _ Hp)), Hl. }
    destruct (lock_find _ _ _ _ _ Hi Hp El) as (o&Ha&Ho).
    pose proof (lock_at_owner _ _ _ _ _ _ _ Ha Hq (stage_inside _ _ Hl')) as E.
    rewrite (Ho _ (stage_inside _ _ Hl)) in E. by injection E.
  - intros l lk El. destruct (inv_locks _ Hi l lk El) as [o Ha]. rewrite (at_log _ _ _ _ Ha). by eexists.
  - intros i p l lk. by apply do_i_hold_exact.
  - intros i p Hp Hrun. rewrite (ok_spinlocks _ _ (inv_cpus _ Hi _ _ Hp)). unfold acquiring. rewrite Hrun. unfold Zsize. lia.
  - by apply (irq_quiet _ p (inv_cpus _ Hi _ _ H)).
  - by apply (irq_quiet _ p (inv_cpus _ Hi _ _ H)).
Qed.

(** The calls of [panic] and the assertions of spinlock.c, spl.c and the interrupt
    path fail exactly for a processor that acquires a lock it has, releases or uses one it
    has not, or ends an interrupt with a lock or with interrupts enabled; every other
    event goes through. *)
Theorem spinlock_panics e s :
  reachable s -> allowed e s -> (exec e s = Panic <-> wrong e s) /\ (wrong e s \/ exists s', exec e s = Done s').
Proof.
  intros Hr Ha. apply reachable_inv in Hr. eapply goes_panics. by apply all_go.
Qed.

(** C3. A processor that is at a lock nobody has gets it within five accesses of its own,
    even when a mark of [ll] was lost; and [spinlock_release] takes at most three. *)
Theorem spinlock_progress s i p :
  reachable s -> cpus s !! i = Some p ->
  (forall l, c_pc p <> SetHolder l -> acquiring p = Some l ->
     (forall j q, cpus s !! j = Some q -> stage_of q l = None) ->
     exists s', steps 5 i s = Done s' /\ inside i l s') /\
  (forall l, c_pc p = SetHolder l -> exists s', steps 1 i s = Done s' /\ inside i l s') /\
  (acquiring p = None -> exists s', steps 3 i s = Done s' /\ outside i s').
Proof.
  intros Hr Hp. apply reachable_inv in Hr as Hi.
  assert (forall l, acquiring p = Some l \/ releasing p = Some l -> exists lk, locks s !! l = Some lk) as Hlk
    by (intros l; by eapply lock_of_pc).
  split; [|split].
  - intros l Hns Hacq Hfree. destruct (Hlk l (or_introl Hacq)) as [lk El].
    pose proof (free_word s l lk Hi El Hfree) as H0. unfold acquiring in Hacq.
    destruct (c_pc p) as [|l'|l'|l' x|l'|l'|l'|] eqn:Hpc; try done; injection Hacq as ->.
    + eapply (read_progress i l s p lk 1); eauto.
    + eapply (read_progress i l s p lk 1); eauto.
    + by eapply (sc_progress i l s p lk x 0).
    + by destruct Hns.
  - intros l Hpc. destruct (Hlk l) as [lk El]; [left; unfold acquiring; by rewrite Hpc|].
    by eapply (set_holder_progress i l s p lk 0).
  - intros Hacq. unfold releasing in Hlk. unfold acquiring in Hacq.
    destruct (c_pc p) as [|l'|l'|l' x|l'|l'|l'|] eqn:Hpc; try done.
    + exists s. split; [apply steps_outside|]; by exists p.
    + destruct (Hlk l' (or_intror eq_refl)) as [lk El]. eapply (clear_progress i l' s p lk 0); eauto.
    + destruct (Hlk l' (or_intror eq_refl)) as [lk El]. eapply (clear_progress i l' s p lk 0); eauto.
    + by apply (lower_progress i s p 2).
Qed.

(** ** A run of two processors *)

(** Both boot, the first takes lock 7 and is inside; the second tries; the first leaves;
    the second is about to store, and has lost its mark. *)
Definition two_cpus : list event :=
  [Splx 0 IPL_NONE; Splx 1 IPL_NONE; Acquire 0 7; Step 0; Step 0; Acquire 1 7; Step 1; Step 0; Step 1; Step 0;
   Access 0 7; Step 1].
Definition then_leaves : list event :=
  [Release 0 7; Step 0; Step 0; Step 1; Step 1; Step 0; Interrupt 0; Unlink 1].

Definition at_run (es : list event) : outcome smp := run_events allowed exec es (smp_start 2 {[7]}).

Lemma at_run_reachable es s : at_run es = Done s -> reachable s.
Proof. intros E. exists 2%nat, {[7]}. split; [done|]. by eapply run_events_steps. Qed.

Definition state_of (o : outcome smp) : smp := match o with Done s => s | _ => smp_start 0 ∅ end.

Definition s_inside : smp := Eval vm_compute in state_of (at_run two_cpus).
Definition s_marked : smp := Eval vm_compute in state_of (at_run (two_cpus ++ then_leaves)).

Lemma s_inside_run : at_run two_cpus = Done s_inside.
Proof. vm_compute. reflexivity. Qed.

Lemma s_marked_run : at_run (two_cpus ++ then_leaves) = Done s_marked.
Proof. vm_compute. reflexivity. Qed.

Lemma s_inside_cpu : exists p, cpus s_inside !! 0%nat = Some p /\ c_pc p = Run /\ c_held p = {[7]}.
Proof. eexists. split; [reflexivity|]. split; [reflexivity|]. vm_compute. reflexivity. Qed.

Lemma spinlock_exclusion_witness :
  exists p, cpus s_inside !! 0%nat = Some p /\ 7 ∈ c_held p /\ c_spinlocks p = 1 /\
    forall j q, cpus s_inside !! j = Some q -> 7 ∈ c_held q -> 0%nat = j.
Proof.
  destruct s_inside_cpu as (p&Hp&Hr&Hh). destruct (spinlock_exclusion s_inside) as (Hx&_&_&Hn&_).
  { apply (at_run_reachable _ _ s_inside_run). }
  assert (7 ∈ c_held p) as H7 by (rewrite Hh; by apply elem_of_singleton).
  exists p. split; [exact Hp|]. split; [exact H7|]. split.
  - rewrite (Hn _ _ Hp Hr), Hh. vm_compute. reflexivity.
  - intros j q Hq Hl. exact (Hx _ _ _ _ _ Hp Hq H7 Hl).
Defined.

Lemma spinlock_panics_witness : exec (Acquire 0 7) s_inside = Panic.
Proof.
  destruct s_inside_cpu as (p&Hp&Hr&Hh). apply (spinlock_panics (Acquire 0 7) s_inside).
  - apply (at_run_reachable _ _ s_inside_run).
  - split; [exists p; split; [exact Hp|exact Hr]|]. eexists. reflexivity.
  - exists p. split; [exact Hp|]. rewrite Hh. by apply elem_of_singleton.
Defined.

Lemma spinlock_progress_witness : exists s', steps 5 1 s_marked = Done s' /\ inside 1 7 s'.
Proof.
  eapply (spinlock_progress s_marked 1 _); [apply (at_run_reachable _ _ s_marked_run)|reflexivity|discriminate|reflexivity|].
  intros j q Hq. assert (j = 0%nat \/ j = 1%nat) as [-> | ->].
  { apply lookup_lt_Some in Hq. change (length (cpus s_marked)) with 2%nat in Hq. lia. }
  - injection Hq as <-. vm_compute. reflexivity.
  - injection Hq as <-. vm_compute. reflexivity.
Defined.
