(* ===== verification/Synch.v ===== *)
(** * thread/synch.c: semaphores, locks and condition variables

    The operations as critical sections: everything between taking and releasing
    the object's spinlock happens at once.  A thread is known by a number, and a
    wait channel (thread.c) is the list of the threads asleep on it, in order.
    Names are for debugging and are not kept.  [SynchSteps] interleaves the
    critical sections of several threads. *)

From S2P Require Import Prelude.

(** ** Wait channels *)

Abbreviation wchan := (list Z) (only parsing).

(** The thread made runnable, if any. *)
Definition wchan_wakeone (wc : wchan) : option Z * wchan := (head wc, tail wc).
Definition wchan_wakeall (wc : wchan) : list Z * wchan := (wc, []).
Definition wchan_isempty (wc : wchan) : bool := match wc with [] => true | _ => false end.
Definition wchan_destroy (wc : wchan) : outcome unit := KASSERT (wchan_isempty wc).

(** Three requests for memory: the object, its name and its wait channel. *)
Definition kalloc3 (mem : list bool) : bool * list bool :=
  let '(a, mem) := kalloc mem in if negb a then (false, mem) else
  let '(b, mem) := kalloc mem in if negb b then (false, mem) else kalloc mem.

(** ** Semaphores *)

Record semaphore := mkSem { sem_count : Z; sem_wchan : wchan }.

Definition sem_create (mem : list bool) (initial_count : Z) : option semaphore * list bool :=
  let '(ok, mem) := kalloc3 mem in
  (if ok then Some (mkSem initial_count []) else None, mem).

Definition sem_destroy (sem : semaphore) : outcome unit := wchan_destroy (sem_wchan sem).

(** One round of [P]'s loop by thread [t]: [true] if it got through, [false] if it
    went to sleep. *)
Definition P (t : Z) (sem : semaphore) : bool * semaphore :=
  if sem_count sem =? 0 then (false, mkSem (sem_count sem) (sem_wchan sem ++ [t]))
  else (true, mkSem (sem_count sem - 1) (sem_wchan sem)).

Definition V (sem : semaphore) : outcome (option Z * semaphore) :=
  let count := u32 (sem_count sem + 1) in
  KASSERT (count >? 0);;
  let '(woken, wc) := wchan_wakeone (sem_wchan sem) in
  mret (woken, mkSem count wc).

(** ** Locks *)

Record lock := mkLock { is_busy : bool; lk_owner : option Z; lk_wchan : wchan }.

Definition new_lock : lock := mkLock false None [].

Definition lock_create (mem : list bool) : option lock * list bool :=
  let '(ok, mem) := kalloc3 mem in (if ok then Some new_lock else None, mem).

Definition lock_do_i_hold (t : Z) (lk : lock) : bool := bool_decide (lk_owner lk = Some t).

Definition lock_destroy (t : Z) (lk : lock) : outcome unit :=
  KASSERT (negb (lock_do_i_hold t lk));;
  wchan_destroy (lk_wchan lk).

(** One round of the loop of [lock_acquire]. *)
Definition lock_try (t : Z) (lk : lock) : bool * lock :=
  if is_busy lk then (false, mkLock (is_busy lk) (lk_owner lk) (lk_wchan lk ++ [t]))
  else (true, mkLock true (Some t) (lk_wchan lk)).

(** The whole of it, as the calling thread sees it: it gets the lock or sleeps. *)
Definition lock_acquire (t : Z) (lk : lock) : outcome lock :=
  KASSERT (negb (lock_do_i_hold t lk));;
  let '(got, lk) := lock_try t lk in
  if got then mret lk else Blocked.

Definition lock_release (t : Z) (lk : lock) : outcome (option Z * lock) :=
  KASSERT (lock_do_i_hold t lk);;
  KASSERT (is_busy lk);;
  let '(woken, wc) := wchan_wakeone (lk_wchan lk) in
  mret (woken, mkLock false None wc).

(** ** Condition variables *)

(** [cv_spinlock] is written out, with the thread that holds it: [cv_wait] gives up
    the lock inside it. *)
Record cv := mkCv { cv_spinlock : option Z; cv_wchan : wchan }.

Definition cv_create (mem : list bool) : option cv * list bool :=
  let '(ok, mem) := kalloc3 mem in
  (if ok then Some (mkCv None []) else None, mem).

Definition cv_destroy (c : cv) : outcome unit :=
  KASSERT (bool_decide (cv_spinlock c = None));;
  wchan_destroy (cv_wchan c).

(** Taking the spinlock: a thread that finds it taken waits in a loop. *)
Definition cv_spin (t : Z) (c : cv) : outcome cv :=
  match cv_spinlock c with
  | None => Done (mkCv (Some t) (cv_wchan c))
  | Some u => if u =? t then Panic else Blocked
  end.
Definition cv_unspin (t : Z) (c : cv) : outcome cv :=
  KASSERT (bool_decide (cv_spinlock c = Some t));;
  mret (mkCv None (cv_wchan c)).

(** [cv_wait] up to the point where the lock has been released; the thread woken by
    that. *)
Definition cv_wait_release (t : Z) (c : cv) (lk : lock) : outcome (option Z * cv * lock) :=
  KASSERT (lock_do_i_hold t lk);;
  c ← cv_spin t c;
  '(woken, lk) ← lock_release t lk;
  mret (woken, c, lk).

(** [wchan_sleep]: onto the wait channel and out of the spinlock at once. *)
Definition cv_wait_sleep (t : Z) (c : cv) : outcome cv :=
  KASSERT (bool_decide (cv_spinlock c = Some t));;
  cv_unspin t (mkCv (cv_spinlock c) (cv_wchan c ++ [t])).

(** When it has been woken it takes the spinlock, gives it up, and goes on with
    [lock_acquire]. *)
Definition cv_wait_woken (t : Z) (c : cv) : outcome cv := c ← cv_spin t c; cv_unspin t c.

Definition cv_signal (t : Z) (c : cv) (lk : lock) : outcome (option Z * cv) :=
  KASSERT (lock_do_i_hold t lk);;
  c ← cv_spin t c;
  let '(woken, wc) := wchan_wakeone (cv_wchan c) in
  c ← cv_unspin t (mkCv (cv_spinlock c) wc);
  mret (woken, c).

Definition cv_broadcast (t : Z) (c : cv) (lk : lock) : outcome (list Z * cv) :=
  KASSERT (lock_do_i_hold t lk);;
  c ← cv_spin t c;
  let '(woken, wc) := wchan_wakeall (cv_wchan c) in
  c ← cv_unspin t (mkCv (cv_spinlock c) wc);
  mret (woken, c).

(** ** Lemmas for callers *)

(** The lock [t] holds, with the threads of [lk] still waiting. *)
Definition held_by (t : Z) (lk : lock) : lock := mkLock true (Some t) (lk_wchan lk).
Definition freed (lk : lock) : lock := mkLock false None (tail (lk_wchan lk)).

(** A lock nobody holds. *)
Definition idle (lk : lock) : Prop := is_busy lk = false /\ lk_owner lk = None.

Lemma idle_freed lk : idle (freed lk).
Proof. done. Qed.

Lemma lock_acquire_free t lk :
  is_busy lk = false -> lk_owner lk = None -> lock_acquire t lk = Done (held_by t lk).
Proof. intros Hb Ho. unfold lock_acquire, lock_do_i_hold, lock_try. rewrite Hb, Ho. done. Qed.

Lemma lock_release_held t lk : lock_release t (held_by t lk) = Done (head (lk_wchan lk), freed lk).
Proof. unfold lock_release, lock_do_i_hold. cbn [held_by lk_owner]. rewrite bool_decide_true by done. done. Qed.

Lemma lock_acquire_self t lk : lk_owner lk = Some t -> lock_acquire t lk = Panic.
Proof. intros Ho. unfold lock_acquire, lock_do_i_hold. by rewrite Ho, bool_decide_true. Qed.

Lemma lock_acquire_busy t lk :
  is_busy lk = true -> lk_owner lk <> Some t -> lock_acquire t lk = Blocked.
Proof.
  intros Hb Ho. unfold lock_acquire, lock_do_i_hold, lock_try. rewrite Hb, bool_decide_false by done. done.
Qed.

Lemma lock_acquire_inv t lk lk' : lock_acquire t lk = Done lk' -> is_busy lk = false /\ lk' = held_by t lk.
Proof.
  unfold lock_acquire, lock_try. intros H. inv_done. destruct (is_busy lk); [done|]. by injection H as <-.
Qed.
