(* ===== verification/SynchSteps.v ===== *)
(** * Semaphores, locks and condition variables among threads

    The critical sections of [Synch] as the steps of transition systems: any number
    of threads, in any order.  A thread is in one of the sets of the state: [trying]
    threads are in the loop of [P] or [lock_acquire] and about to look at the object
    (they have just come, or have been woken); the threads asleep are those on the
    wait channel; the others are elsewhere.  The invariants are by induction on the
    steps; what the theorems say of liveness is that the threads that are awake
    suffice: when each of them has looked once more, nobody sleeps without reason. *)

From stdpp Require Import relations.
From S2P Require Import Prelude Synch.

#[local] Set Warnings "-clear-no-such-hyp".

(** The threads a wake-up made runnable. *)
Definition woken_set (o : option Z) : gset Z := match o with Some t => {[t]} | None => ∅ end.

(** ** Semaphores *)

(** [ss_ups] and [ss_downs] count the calls to [V] and the calls of [P] that returned. *)
Record sem_sys := mkSemSys { ss_sem : semaphore; ss_trying : gset Z; ss_ups : Z; ss_downs : Z }.

Definition sem_start (n : Z) : sem_sys := mkSemSys (mkSem n []) ∅ 0 0.

(** One round of the loop of [P] by a thread that is awake. *)
Inductive sem_round : sem_sys -> sem_sys -> Prop :=
  | sem_through t sem sem' tr u d :
      t ∈ tr -> P t sem = (true, sem') ->
      sem_round (mkSemSys sem tr u d) (mkSemSys sem' (tr ∖ {[t]}) u (d + 1))
  | sem_sleep t sem sem' tr u d :
      t ∈ tr -> P t sem = (false, sem') ->
      sem_round (mkSemSys sem tr u d) (mkSemSys sem' (tr ∖ {[t]}) u d).

Inductive sem_step : sem_sys -> sem_sys -> Prop :=
  | sem_call t sem tr u d :
      t ∉ tr -> t ∉ sem_wchan sem ->
      sem_step (mkSemSys sem tr u d) (mkSemSys sem ({[t]} ∪ tr) u d)
  | sem_loop s s' : sem_round s s' -> sem_step s s'
  | sem_V sem woken sem' tr u d :
      V sem = Done (woken, sem') ->
      sem_step (mkSemSys sem tr u d) (mkSemSys sem' (tr ∪ woken_set woken) (u + 1) d).

Record sem_inv (n : Z) (s : sem_sys) : Prop := mkSemInv {
  sem_count_eq : sem_count (ss_sem s) = n + ss_ups s - ss_downs s;
  sem_count_range : 0 <= sem_count (ss_sem s) < 2 ^ 32;
  sem_asleep : NoDup (sem_wchan (ss_sem s));
  sem_apart : forall t, t ∈ sem_wchan (ss_sem s) -> t ∉ ss_trying s;
  sem_awake : sem_wchan (ss_sem s) <> [] -> sem_count (ss_sem s) <= Z.of_nat (size (ss_trying s)) }.

Lemma P_cases t sem :
  (sem_count sem = 0 /\ P t sem = (false, mkSem 0 (sem_wchan sem ++ [t]))) \/
  (sem_count sem <> 0 /\ P t sem = (true, mkSem (sem_count sem - 1) (sem_wchan sem))).
Proof. unfold P. destruct (Z.eqb_spec (sem_count sem) 0) as [->|]; auto. Qed.

Lemma V_inv sem woken sem' :
  0 <= sem_count sem < 2 ^ 32 -> V sem = Done (woken, sem') ->
  sem_count sem + 1 < 2 ^ 32 /\ woken = head (sem_wchan sem) /\ sem' = mkSem (sem_count sem + 1) (tail (sem_wchan sem)).
Proof.
  intros Hr HV. unfold V in HV. inv_done. kred.
  assert (sem_count sem + 1 <> 2 ^ 32).
  { intros E. rewrite E in *. discriminate. }
  rewrite u32_small in HV by lia. injection HV as <- <-. split; [lia|done].
Qed.

Lemma sem_round_inv n s s' : sem_inv n s -> sem_round s s' -> sem_inv n s'.
Proof.
  intros Hi Hs. destruct Hs as [t sem sem' tr u d Ht HP|t sem sem' tr u d Ht HP]; destruct Hi as [Hc Hr Hnd Hap Haw]; cbn in *;
    destruct (P_cases t sem) as [(H0&E)|(H0&E)]; rewrite E in HP; try discriminate; injection HP as <-; constructor; cbn.
  - lia.
  - lia.
  - done.
  - set_solver.
  - intros Hne. rewrite size_remove by done. specialize (Haw Hne). lia.
  - lia.
  - lia.
  - apply NoDup_app. split; [done|]. split; [|apply NoDup_singleton]. set_solver.
  - set_solver.
  - lia.
Qed.

Lemma sem_step_inv n s s' : sem_inv n s -> sem_step s s' -> sem_inv n s'.
Proof.
  intros Hi Hs. destruct Hs as [t sem tr u d Ht Hw|? ? Hstep|sem woken sem' tr u d HV]; [|by eapply sem_round_inv|].
  - destruct Hi as [Hc Hr Hnd Hap Haw]. constructor; cbn in *; try done; [set_solver|].
    intros Hne. rewrite size_add by done. specialize (Haw Hne). lia.
  - destruct Hi as [Hc Hr Hnd Hap Haw]. cbn in *. destruct (V_inv _ _ _ Hr HV) as (Hlt&->&->).
    destruct (sem_wchan sem) as [|w wc]; constructor; cbn in *; try lia.
    + constructor.
    + intros t Ht. by apply elem_of_nil in Ht.
    + done.
    + by apply NoDup_cons in Hnd as (?&?).
    + apply NoDup_cons in Hnd as (?&?). set_solver.
    + intros _. rewrite union_comm_L, size_add by (apply Hap; left). specialize (Haw ltac:(done)). lia.
Qed.

Lemma sem_reachable_inv n s : 0 <= n < 2 ^ 32 -> rtc sem_step (sem_start n) s -> sem_inv n s.
Proof.
  intros Hn Hs. remember (sem_start n) as s0 eqn:E.
  assert (sem_inv n s0) as Hi.
  { subst s0. constructor; cbn; try lia; [constructor|intros t Ht; by apply elem_of_nil in Ht|done]. }
  clear E. induction Hs; eauto using sem_step_inv.
Qed.

Lemma sem_round_terminates s : Acc (flip sem_round) s.
Proof.
  remember (size (ss_trying s)) as k eqn:Hk. revert s Hk.
  induction (lt_wf k) as [k _ IH]. intros s ->. constructor. intros s' Hs. eapply IH; [|reflexivity].
  destruct Hs as [t sem sem' tr u d Ht _|t sem sem' tr u d Ht _]; cbn; pose proof (size_remove _ _ Ht); lia.
Qed.

Lemma sem_round_progress s : nf sem_round s -> ss_trying s = ∅.
Proof.
  intros Hnf. apply leibniz_equiv, elem_of_equiv_empty. intros t Ht. apply Hnf. destruct s as [sem tr u d].
  destruct (P_cases t sem) as [(_&E)|(_&E)]; [eexists; by eapply sem_sleep|eexists; by eapply sem_through].
Qed.

Lemma sem_rounds s s' : rtc sem_round s s' -> rtc sem_step s s'.
Proof. apply rtc_subrel. intros ? ?. apply sem_loop. Qed.

(** ** Locks *)

(** [ls_inside] are the threads that have returned from [lock_acquire] and not yet
    called [lock_release]. *)
Record lk_sys := mkLkSys { ls_lock : lock; ls_trying : gset Z; ls_inside : gset Z }.

Definition lk_start : lk_sys := mkLkSys new_lock ∅ ∅.

Inductive lk_round : lk_sys -> lk_sys -> Prop :=
  | lk_got t lk lk' tr ins :
      t ∈ tr -> lock_try t lk = (true, lk') ->
      lk_round (mkLkSys lk tr ins) (mkLkSys lk' (tr ∖ {[t]}) (ins ∪ {[t]}))
  | lk_sleep t lk lk' tr ins :
      t ∈ tr -> lock_try t lk = (false, lk') ->
      lk_round (mkLkSys lk tr ins) (mkLkSys lk' (tr ∖ {[t]}) ins).

(** [lock_acquire] starts with its assertion; [lock_release] may be called by any
    thread that is not in [lock_acquire]: if it does not hold the lock that panics. *)
Inductive lk_step : lk_sys -> lk_sys -> Prop :=
  | lk_call t lk tr ins :
      t ∉ tr -> t ∉ lk_wchan lk -> lock_do_i_hold t lk = false ->
      lk_step (mkLkSys lk tr ins) (mkLkSys lk ({[t]} ∪ tr) ins)
  | lk_loop s s' : lk_round s s' -> lk_step s s'
  | lk_release t lk woken lk' tr ins :
      t ∉ tr -> t ∉ lk_wchan lk -> lock_release t lk = Done (woken, lk') ->
      lk_step (mkLkSys lk tr ins) (mkLkSys lk' (tr ∪ woken_set woken) (ins ∖ {[t]})).

Record lk_inv (s : lk_sys) : Prop := mkLkInv {
  lk_inside : ls_inside s = woken_set (lk_owner (ls_lock s));
  lk_busy : is_busy (ls_lock s) = bool_decide (lk_owner (ls_lock s) <> None);
  lk_asleep : NoDup (lk_wchan (ls_lock s));
  lk_apart : forall t, t ∈ ls_trying s -> t ∉ lk_wchan (ls_lock s);
  lk_out : forall t, lk_owner (ls_lock s) = Some t -> (t ∉ ls_trying s) /\ (t ∉ lk_wchan (ls_lock s));
  lk_awake : lk_wchan (ls_lock s) <> [] -> is_busy (ls_lock s) = true \/ ls_trying s <> ∅ }.

Lemma lock_try_cases t lk :
  (is_busy lk = true /\ lock_try t lk = (false, mkLock true (lk_owner lk) (lk_wchan lk ++ [t]))) \/
  (is_busy lk = false /\ lock_try t lk = (true, mkLock true (Some t) (lk_wchan lk))).
Proof. unfold lock_try. destruct (is_busy lk) eqn:E; auto. Qed.

Lemma lock_release_inv t lk woken lk' :
  lock_release t lk = Done (woken, lk') ->
  lk_owner lk = Some t /\ woken = head (lk_wchan lk) /\ lk' = mkLock false None (tail (lk_wchan lk)).
Proof.
  unfold lock_release. intros H. inv_done.
  match goal with H : lock_do_i_hold _ _ = true |- _ => apply bool_decide_eq_true in H end. by injection H as <- <-.
Qed.

Lemma lk_round_inv s s' : lk_inv s -> lk_round s s' -> lk_inv s'.
Proof.
  intros Hi Hs. destruct Hs as [t lk lk' tr ins Ht HP|t lk lk' tr ins Ht HP]; destruct Hi as [Hin Hb Hnd Hap Hout Haw]; cbn in *;
    destruct (lock_try_cases t lk) as [(Hbusy&E)|(Hbusy&E)]; rewrite E in HP; try discriminate; injection HP as <-;
    rewrite Hbusy in Hb; symmetry in Hb; constructor; cbn.
  - apply bool_decide_eq_false in Hb. destruct (lk_owner lk); [by destruct Hb|]. cbn in Hin. subst ins. set_solver.
  - done.
  - done.
  - set_solver.
  - intros t' [= <-]. set_solver.
  - auto.
  - done.
  - apply bool_decide_eq_true in Hb. by rewrite bool_decide_true.
  - apply NoDup_app. split; [done|]. split; [|apply NoDup_singleton]. set_solver.
  - set_solver.
  - intros t' Ht'. specialize (Hout t' Ht'). set_solver.
  - auto.
Qed.

Lemma lk_release_inv s t woken lk' :
  lk_inv s -> lock_release t (ls_lock s) = Done (woken, lk') ->
  lk_inv (mkLkSys lk' (ls_trying s ∪ woken_set woken) (ls_inside s ∖ {[t]})).
Proof.
  intros [Hin Hb Hnd Hap Hout Haw] Hrel. destruct s as [lk tr ins]. cbn in *.
  apply lock_release_inv in Hrel as (Ho&->&->). rewrite Ho in Hin. cbn in Hin. subst ins.
  destruct (lk_wchan lk) as [|w wc]; constructor; cbn in *; try done; try set_solver.
  - by apply NoDup_cons in Hnd as (?&?).
  - apply NoDup_cons in Hnd as (?&?). set_solver.
Qed.

Lemma lk_step_inv s s' : lk_inv s -> lk_step s s' -> lk_inv s'.
Proof.
  intros Hi Hs. destruct Hs as [t lk tr ins Ht Hw Hh|? ? Hstep|t lk woken lk' tr ins Ht Hw Hrel];
    [|by eapply lk_round_inv|by apply (lk_release_inv (mkLkSys lk tr ins))].
  destruct Hi as [Hin Hb Hnd Hap Hout Haw]. apply bool_decide_eq_false in Hh.
  constructor; cbn in *; try done.
  - set_solver.
  - intros t' Ht'. specialize (Hout t' Ht'). assert (t' <> t) by congruence. set_solver.
  - right. set_solver.
Qed.

Lemma lk_start_inv : lk_inv lk_start.
Proof. constructor; cbn; first [done | set_solver | constructor]. Qed.

Lemma lk_reachable_inv s : rtc lk_step lk_start s -> lk_inv s.
Proof.
  intros Hs. pose proof lk_start_inv as Hi. remember lk_start as s0 eqn:E. clear E.
  induction Hs; eauto using lk_step_inv.
Qed.

Lemma lk_round_progress s : nf lk_round s -> ls_trying s = ∅.
Proof.
  intros Hnf. apply leibniz_equiv, elem_of_equiv_empty. intros t Ht. apply Hnf. destruct s as [lk tr ins].
  destruct (lock_try_cases t lk) as [(_&E)|(_&E)]; [eexists; by eapply lk_sleep|eexists; by eapply lk_got].
Qed.

Lemma lk_round_terminates s : Acc (flip lk_round) s.
Proof.
  remember (size (ls_trying s)) as k eqn:Hk. revert s Hk.
  induction (lt_wf k) as [k _ IH]. intros s ->. constructor. intros s' Hs. eapply IH; [|reflexivity].
  destruct Hs as [t lk lk' tr ins Ht _|t lk lk' tr ins Ht _]; cbn; pose proof (size_remove _ _ Ht); lia.
Qed.

Lemma lk_rounds s s' : rtc lk_round s s' -> rtc lk_step s s'.
Proof. apply rtc_subrel. intros ? ?. apply lk_loop. Qed.

(** ** Condition variables

    A condition variable with its lock.  In [cv_wait] a thread is in [cs_releasing]
    after it has released the lock and before it sleeps, with the spinlock; then on
    the wait channel; in [cs_woken] when it has been woken; then it is one of the
    [ls_trying] of the lock.  [cs_waiting] are the threads that have released the lock
    in [cv_wait] and have not been woken since. *)
Record cv_sys := mkCvSys {
  cs_cv : cv; cs_lk : lk_sys; cs_releasing : gset Z; cs_woken : gset Z; cs_waiting : gset Z }.

Definition cv_start : cv_sys := mkCvSys (mkCv None []) lk_start ∅ ∅ ∅.

(** The threads in [cv_wait] that are not at the lock. *)
Definition in_wait (s : cv_sys) (t : Z) : Prop :=
  t ∈ cs_releasing s \/ t ∈ cs_woken s \/ t ∈ cv_wchan (cs_cv s).
Definition at_lock (s : cv_sys) (t : Z) : Prop :=
  t ∈ ls_trying (cs_lk s) \/ t ∈ lk_wchan (ls_lock (cs_lk s)).

Inductive cv_step : cv_sys -> cv_sys -> Prop :=
  | cv_acquire t c lk tr ins rel wok wait :
      let s := mkCvSys c (mkLkSys lk tr ins) rel wok wait in
      ~ at_lock s t -> ~ in_wait s t -> lock_do_i_hold t lk = false ->
      cv_step s (mkCvSys c (mkLkSys lk ({[t]} ∪ tr) ins) rel wok wait)
  | cv_round c l l' rel wok wait :
      lk_round l l' -> cv_step (mkCvSys c l rel wok wait) (mkCvSys c l' rel wok wait)
  | cv_release t c lk lk' w tr ins rel wok wait :
      let s := mkCvSys c (mkLkSys lk tr ins) rel wok wait in
      ~ at_lock s t -> ~ in_wait s t -> lock_release t lk = Done (w, lk') ->
      cv_step s (mkCvSys c (mkLkSys lk' (tr ∪ woken_set w) (ins ∖ {[t]})) rel wok wait)
  | cv_wait1 t c c' lk lk' w tr ins rel wok wait :
      let s := mkCvSys c (mkLkSys lk tr ins) rel wok wait in
      ~ at_lock s t -> ~ in_wait s t -> cv_wait_release t c lk = Done (w, c', lk') ->
      cv_step s (mkCvSys c' (mkLkSys lk' (tr ∪ woken_set w) (ins ∖ {[t]})) (rel ∪ {[t]}) wok (wait ∪ {[t]}))
  | cv_wait2 t c c' l rel wok wait :
      t ∈ rel -> cv_wait_sleep t c = Done c' ->
      cv_step (mkCvSys c l rel wok wait) (mkCvSys c' l (rel ∖ {[t]}) wok wait)
  | cv_wait3 t c c' lk tr ins rel wok wait :
      t ∈ wok -> cv_wait_woken t c = Done c' ->
      cv_step (mkCvSys c (mkLkSys lk tr ins) rel wok wait)
        (mkCvSys c' (mkLkSys lk ({[t]} ∪ tr) ins) rel (wok ∖ {[t]}) wait)
  | cv_signals t c c' l w rel wok wait :
      let s := mkCvSys c l rel wok wait in
      ~ at_lock s t -> ~ in_wait s t -> cv_signal t c (ls_lock l) = Done (w, c') ->
      cv_step s (mkCvSys c' l rel (wok ∪ woken_set w) (wait ∖ woken_set w))
  | cv_broadcasts t c c' l ws rel wok wait :
      let s := mkCvSys c l rel wok wait in
      ~ at_lock s t -> ~ in_wait s t -> cv_broadcast t c (ls_lock l) = Done (ws, c') ->
      cv_step s (mkCvSys c' l rel (wok ∪ list_to_set ws) (wait ∖ list_to_set ws)).

(** The threads that wait for the lock or have it. *)
Definition uses (l : lk_sys) (t : Z) : Prop :=
  t ∈ ls_trying l \/ t ∈ lk_wchan (ls_lock l) \/ lk_owner (ls_lock l) = Some t.

Record cv_inv (s : cv_sys) : Prop := mkCvInv {
  cv_lk : lk_inv (cs_lk s);
  cv_rel : cs_releasing s = woken_set (cv_spinlock (cs_cv s));
  cv_nodup : NoDup (cv_wchan (cs_cv s));
  cv_waits : cs_waiting s = cs_releasing s ∪ list_to_set (cv_wchan (cs_cv s));
  cv_disj : forall t, t ∈ cs_releasing s -> t ∉ cv_wchan (cs_cv s);
  cv_wok : forall t, t ∈ cs_woken s -> t ∉ cs_waiting s;
  cv_apart : forall t, in_wait s t -> ~ uses (cs_lk s) t }.

Lemma cv_spin_inv t c c' : cv_spin t c = Done c' -> cv_spinlock c = None /\ c' = mkCv (Some t) (cv_wchan c).
Proof. unfold cv_spin. destruct (cv_spinlock c) as [u|]; [by destruct (u =? t)|]. by intros [= <-]. Qed.

Lemma cv_wait_release_inv t c lk w c' lk' :
  cv_wait_release t c lk = Done (w, c', lk') ->
  cv_spinlock c = None /\ c' = mkCv (Some t) (cv_wchan c) /\ lock_release t lk = Done (w, lk').
Proof.
  unfold cv_wait_release. intros H. inv_done.
  match goal with H : cv_spin _ _ = _ |- _ => apply cv_spin_inv in H as (?&->) end.
  match goal with H : lock_release _ _ = Done ?x |- _ => destruct x end. cbn in H. by injection H as <- <- <-.
Qed.

Lemma cv_wait_sleep_inv t c c' :
  cv_wait_sleep t c = Done c' -> cv_spinlock c = Some t /\ c' = mkCv None (cv_wchan c ++ [t]).
Proof.
  unfold cv_wait_sleep, cv_unspin. intros H. inv_done.
  match goal with H : bool_decide (cv_spinlock c = _) = true |- _ => apply bool_decide_eq_true in H end. done.
Qed.

Lemma cv_wait_woken_inv t c c' : cv_wait_woken t c = Done c' -> cv_spinlock c = None /\ c' = c.
Proof.
  unfold cv_wait_woken, cv_unspin. intros H. inv_done.
  match goal with H : cv_spin _ _ = _ |- _ => apply cv_spin_inv in H as (E&->) end.
  split; [done|]. destruct c. cbn in *. by subst.
Qed.

Lemma cv_signal_inv t c lk w c' :
  cv_signal t c lk = Done (w, c') ->
  lk_owner lk = Some t /\ cv_spinlock c = None /\ w = head (cv_wchan c) /\ c' = mkCv None (tail (cv_wchan c)).
Proof.
  unfold cv_signal, cv_unspin, wchan_wakeone. intros H. inv_done.
  match goal with H : lock_do_i_hold _ _ = true |- _ => apply bool_decide_eq_true in H end.
  match goal with H : cv_spin _ _ = _ |- _ => apply cv_spin_inv in H as (?&->) end.
  done.
Qed.

Lemma cv_broadcast_inv t c lk ws c' :
  cv_broadcast t c lk = Done (ws, c') ->
  lk_owner lk = Some t /\ cv_spinlock c = None /\ ws = cv_wchan c /\ c' = mkCv None [].
Proof.
  unfold cv_broadcast, cv_unspin, wchan_wakeall. intros H. inv_done.
  match goal with H : lock_do_i_hold _ _ = true |- _ => apply bool_decide_eq_true in H end.
  match goal with H : cv_spin _ _ = _ |- _ => apply cv_spin_inv in H as (?&->) end.
  done.
Qed.

Lemma uses_round l l' t : lk_round l l' -> uses l' t -> uses l t.
Proof.
  intros Hr. destruct Hr as [u lk lk' tr ins Hu HP|u lk lk' tr ins Hu HP]; unfold uses; cbn;
    destruct (lock_try_cases u lk) as [(_&E)|(_&E)]; rewrite E in HP; try discriminate; injection HP as <-; cbn.
  - intros [H|[H|[= ->]]]; set_solver.
  - rewrite elem_of_app, list_elem_of_singleton. intros [H|[[H| ->]|H]]; set_solver.
Qed.

Lemma uses_release u lk w lk' tr ins ins' t :
  lock_release u lk = Done (w, lk') ->
  uses (mkLkSys lk' (tr ∪ woken_set w) ins') t -> uses (mkLkSys lk tr ins) t.
Proof.
  intros Hr. apply lock_release_inv in Hr as (Ho&->&->). unfold uses. cbn. rewrite elem_of_union.
  destruct (lk_wchan lk) as [|x wc]; cbn; set_solver.
Qed.

Lemma uses_released u lk w lk' tr ins ins' :
  lk_inv (mkLkSys lk tr ins) -> lock_release u lk = Done (w, lk') -> ~ uses (mkLkSys lk' (tr ∪ woken_set w) ins') u.
Proof.
  intros [_ _ _ _ Hout _] Hr. apply lock_release_inv in Hr as (Ho&->&->). cbn in Hout. specialize (Hout u Ho).
  unfold uses. cbn. destruct (lk_wchan lk) as [|x wc]; cbn; set_solver.
Qed.

Lemma cv_step_inv s s' : cv_inv s -> cv_step s s' -> cv_inv s'.
Proof.
  intros Hi Hs.
  destruct Hs as [t c lk tr ins rel wok wait s Hl Hw Hh|c l l' rel wok wait Hr|t c lk lk' w tr ins rel wok wait s Hl Hw Hr
    |t c c' lk lk' w tr ins rel wok wait s Hl Hw Hr|t c c' l rel wok wait Ht Hr|t c c' lk tr ins rel wok wait Ht Hr
    |t c c' l w rel wok wait s Hl Hw Hr|t c c' l ws rel wok wait s Hl Hw Hr]; try subst s;
    destruct Hi as [Hlk Hrel Hnd Hwaits Hdisj Hwok Hap]; unfold in_wait, at_lock in *; cbn in *.
  - constructor; cbn; try done.
    + eapply lk_step_inv; [exact Hlk|]. apply lk_call; [tauto|tauto|done].
    + intros u Hu Huse. apply (Hap u Hu). unfold uses in *. cbn in *.
      rewrite elem_of_union, elem_of_singleton in Huse. destruct Huse as [[->|?]|?]; tauto.
  - constructor; cbn; try done; [by eapply lk_round_inv|]. intros u Hu Huse. eapply Hap, uses_round; eauto.
  - constructor; cbn; try done; [by eapply (lk_release_inv (mkLkSys lk tr ins))|].
    intros u Hu Huse. eapply Hap, uses_release; eauto.
  - apply cv_wait_release_inv in Hr as (Hfree&->&Hr). rewrite Hfree in Hrel. cbn in Hrel. subst rel.
    constructor; cbn; try done.
    + by eapply (lk_release_inv (mkLkSys lk tr ins)).
    + set_solver.
    + subst wait. set_solver.
    + set_solver.
    + set_solver.
    + intros u Hu. destruct (decide (u = t)) as [->|Hne]; [by eapply uses_released|].
      intros Huse. eapply Hap, uses_release; [|exact Hr|exact Huse]. unfold in_wait in Hu. cbn in Hu. set_solver.
  - apply cv_wait_sleep_inv in Hr as (Hspin&->). rewrite Hspin in Hrel. cbn in Hrel. subst rel wait.
    apply elem_of_singleton in Ht as _. constructor; cbn; try done.
    + set_solver.
    + apply NoDup_app. split; [done|]. split; [|apply NoDup_singleton]. set_solver.
    + rewrite list_to_set_app_L. set_solver.
    + set_solver.
    + intros u Hu. apply Hap. unfold in_wait in Hu. cbn in Hu. set_solver.
  - apply cv_wait_woken_inv in Hr as (Hfree&->). constructor; cbn; try done.
    + assert (Hno : ~ uses (mkLkSys lk tr ins) t) by (apply Hap; unfold in_wait; cbn; tauto).
      unfold uses in Hno. cbn in Hno. eapply lk_step_inv; [exact Hlk|]. apply lk_call; [tauto|tauto|].
      apply bool_decide_eq_false. tauto.
    + set_solver.
    + intros u Hu Huse. specialize (Hwok t Ht) as Hwt. subst wait.
      assert (u <> t) by (unfold in_wait in Hu; cbn in Hu; set_solver).
      apply (Hap u); [unfold in_wait in *; cbn in *; set_solver|]. unfold uses in *. cbn in *. set_solver.
  - apply cv_signal_inv in Hr as (Ho&Hfree&->&->). rewrite Hfree in Hrel. cbn in Hrel. subst rel.
    destruct (cv_wchan c) as [|x wc] eqn:Hc; cbn; constructor; cbn; try done.
    + set_solver.
    + set_solver.
    + intros u Hu. apply Hap. unfold in_wait in Hu. cbn in Hu. set_solver.
    + by apply NoDup_cons in Hnd as (?&?).
    + apply NoDup_cons in Hnd as (?&?). subst wait. cbn. set_solver.
    + set_solver.
    + intros u Hu. apply Hap. unfold in_wait in Hu. cbn in Hu. set_solver.
  - apply cv_broadcast_inv in Hr as (Ho&Hfree&->&->). rewrite Hfree in Hrel. cbn in Hrel. subst rel.
    constructor; cbn; try done.
    + constructor.
    + subst wait. rewrite !union_empty_l_L. apply difference_diag_L.
    + intros u [Hu|Hu]%elem_of_union; rewrite elem_of_difference; [intros (Hu'&_); by apply (Hwok u)|tauto].
    + intros u Hu. apply Hap. unfold in_wait in Hu. cbn in Hu.
      rewrite elem_of_union, elem_of_list_to_set, elem_of_nil in Hu. tauto.
Qed.

Lemma cv_reachable_inv s : rtc cv_step cv_start s -> cv_inv s.
Proof.
  intros Hs. assert (Hi : cv_inv cv_start).
  { constructor; cbn; try done; [apply lk_start_inv|constructor|].
    intros t [Ht|[Ht|Ht]]; cbn in Ht; set_solver. }
  remember cv_start as s0 eqn:E. clear E. induction Hs; eauto using cv_step_inv.
Qed.

(** ** The properties *)

(** C6. Semaphores, for any number of threads and any order of their steps: the
    count is always the initial count and the calls of [V] less the calls of [P]
    that have returned, and never negative; and no wake-up is lost: if the threads
    that are awake in [P] just go on, they stop going on after finitely many rounds,
    and then nobody is asleep on the semaphore unless its count is zero. *)
Theorem semaphore_live n s :
  0 <= n < 2 ^ 32 -> rtc sem_step (sem_start n) s ->
  sem_count (ss_sem s) = n + ss_ups s - ss_downs s /\ 0 <= sem_count (ss_sem s) /\
  Acc (flip sem_round) s /\
  (forall s', rtc sem_round s s' -> nf sem_round s' -> sem_wchan (ss_sem s') = [] \/ sem_count (ss_sem s') = 0).
Proof.
  intros Hn Hs. pose proof (sem_reachable_inv n s Hn Hs) as [Hc Hr _ _ _].
  split; [done|]. split; [lia|]. split; [apply sem_round_terminates|].
  intros s' Hrounds Hnf.
  destruct (sem_reachable_inv n s' Hn) as [_ Hr' _ _ Haw]; [by etrans; [|apply sem_rounds]|].
  rewrite (sem_round_progress _ Hnf), size_empty in Haw.
  destruct (sem_wchan (ss_sem s')); [by left|right]. specialize (Haw ltac:(done)). lia.
Qed.

(** C5. Locks, for any number of threads and any order of their steps: at most one
    thread is between [lock_acquire] and [lock_release], it is the lock's owner, its
    release succeeds and nobody else's does; and when the threads that are awake in
    [lock_acquire] have gone on as far as they can, nobody sleeps on a lock that is
    free. *)
Theorem lock_exclusion s :
  rtc lk_step lk_start s ->
  (forall t u, t ∈ ls_inside s -> u ∈ ls_inside s -> t = u) /\
  (forall t, t ∈ ls_inside s <-> is_Some (match lock_release t (ls_lock s) with Done r => Some r | _ => None end)) /\
  Acc (flip lk_round) s /\
  (forall s', rtc lk_round s s' -> nf lk_round s' -> lk_wchan (ls_lock s') = [] \/ exists t, ls_inside s' = {[t]}).
Proof.
  intros Hs. pose proof (lk_reachable_inv s Hs) as [Hin Hb _ _ _ _]. rewrite Hin.
  split; [destruct (lk_owner (ls_lock s)); cbn; set_solver|]. split; [|split; [apply lk_round_terminates|]].
  - intros t. unfold lock_release, lock_do_i_hold. rewrite Hb.
    destruct (lk_owner (ls_lock s)) as [o|]; cbn.
    + destruct (decide (o = t)) as [->|Hne].
      * rewrite bool_decide_true by done. cbn. split; [eauto|set_solver].
      * rewrite bool_decide_false by congruence. cbn. split; [set_solver|by intros []].
    + split; [set_solver|by intros []].
  - intros s' Hrounds Hnf.
    destruct (lk_reachable_inv s') as [Hin' Hb' _ _ _ Haw]; [by etrans; [|apply lk_rounds]|].
    rewrite (lk_round_progress _ Hnf) in Haw. destruct (lk_wchan (ls_lock s')); [by left|right].
    destruct Haw as [Haw|Haw]; [done| |done]. rewrite Haw in Hb'. rewrite Hin'.
    destruct (lk_owner (ls_lock s')) as [o|]; [by exists o|done].
Qed.

(** C4. No signal is lost: [cv_wait] releases the lock and goes to sleep as one step
    for whoever signals with the lock held.  Whenever a signal or broadcast takes
    effect, every thread that has released the lock in [cv_wait] and has not been
    woken since is on the wait channel; a signal wakes one of them if there is any
    and a broadcast wakes them all; and the thread that is between the release and
    the sleep can always take the next step. *)
Theorem cv_no_lost_signal s t :
  rtc cv_step cv_start s ->
  (forall w c', cv_signal t (cs_cv s) (ls_lock (cs_lk s)) = Done (w, c') ->
    match w with Some u => u ∈ cs_waiting s | None => cs_waiting s = ∅ end) /\
  (forall ws c', cv_broadcast t (cs_cv s) (ls_lock (cs_lk s)) = Done (ws, c') -> list_to_set ws = cs_waiting s) /\
  (forall u, u ∈ cs_releasing s -> exists c', cv_wait_sleep u (cs_cv s) = Done c').
Proof.
  intros Hs. destruct (cv_reachable_inv s Hs) as [_ Hrel _ Hwaits _ _ _]. rewrite Hwaits.
  split; [|split].
  - intros w c' Hr. apply cv_signal_inv in Hr as (_&Hfree&->&_). rewrite Hrel, Hfree.
    destruct (cv_wchan (cs_cv s)); cbn; set_solver.
  - intros ws c' Hr. apply cv_broadcast_inv in Hr as (_&Hfree&->&_). rewrite Hrel, Hfree. cbn. set_solver.
  - intros u Hu. rewrite Hrel in Hu. destruct (cv_spinlock (cs_cv s)) as [o|] eqn:Ho; cbn in Hu; [|set_solver].
    apply elem_of_singleton in Hu as ->. unfold cv_wait_sleep, cv_unspin. cbn. rewrite Ho.
    rewrite bool_decide_true by done. kred. by eexists.
Qed.

(** Two threads compete for one unit: the second sleeps until the first gives it back. *)
Lemma semaphore_live_witness :
  exists s, rtc sem_step (sem_start 1) s /\ sem_wchan (ss_sem s) = [2] /\
    sem_count (ss_sem s) = 1 + ss_ups s - ss_downs s /\ 0 <= sem_count (ss_sem s) /\
    Acc (flip sem_round) s /\
    (forall s', rtc sem_round s s' -> nf sem_round s' -> sem_wchan (ss_sem s') = [] \/ sem_count (ss_sem s') = 0).
Proof.
  pose (s := mkSemSys (mkSem 0 [2]) ((({[2]} ∪ ({[1]} ∪ ∅)) ∖ {[1]}) ∖ {[2]}) 0 1).
  assert (H : rtc sem_step (sem_start 1) s).
  { eapply rtc_l; [apply (sem_call 1); [set_solver|apply not_elem_of_nil]|].
    eapply rtc_l; [apply (sem_call 2); [set_solver|apply not_elem_of_nil]|].
    eapply rtc_l; [apply sem_loop, (sem_through 1); [set_solver|reflexivity]|].
    eapply rtc_l; [apply sem_loop, (sem_sleep 2); [set_solver|reflexivity]|]. apply rtc_refl. }
  exists s. split; [exact H|]. split; [reflexivity|]. apply (semaphore_live 1); [lia|exact H].
Defined.

Lemma lock_exclusion_witness :
  exists s, rtc lk_step lk_start s /\ lk_wchan (ls_lock s) = [2] /\
    (forall t u, t ∈ ls_inside s -> u ∈ ls_inside s -> t = u) /\
    (forall t, t ∈ ls_inside s <-> is_Some (match lock_release t (ls_lock s) with Done r => Some r | _ => None end)) /\
    Acc (flip lk_round) s /\
    (forall s', rtc lk_round s s' -> nf lk_round s' -> lk_wchan (ls_lock s') = [] \/ exists t, ls_inside s' = {[t]}).
Proof.
  pose (s := mkLkSys (mkLock true (Some 1) [2]) ((({[2]} ∪ ({[1]} ∪ ∅)) ∖ {[1]}) ∖ {[2]}) (∅ ∪ {[1]})).
  assert (H : rtc lk_step lk_start s).
  { eapply rtc_l; [apply (lk_call 1); [set_solver|apply not_elem_of_nil|reflexivity]|].
    eapply rtc_l; [apply (lk_call 2); [set_solver|apply not_elem_of_nil|reflexivity]|].
    eapply rtc_l; [apply lk_loop, (lk_got 1); [set_solver|reflexivity]|].
    eapply rtc_l; [apply lk_loop, (lk_sleep 2); [set_solver|reflexivity]|]. apply rtc_refl. }
  exists s. split; [exact H|]. split; [reflexivity|]. apply lock_exclusion. exact H.
Defined.

(** Thread 1 takes the lock and is between releasing it and going to sleep. *)
Lemma cv_no_lost_signal_witness :
  exists s, rtc cv_step cv_start s /\ cs_releasing s = {[1]} /\
    (forall w c', cv_signal 2 (cs_cv s) (ls_lock (cs_lk s)) = Done (w, c') ->
      match w with Some u => u ∈ cs_waiting s | None => cs_waiting s = ∅ end) /\
    (forall ws c', cv_broadcast 2 (cs_cv s) (ls_lock (cs_lk s)) = Done (ws, c') -> list_to_set ws = cs_waiting s) /\
    (forall u, u ∈ cs_releasing s -> exists c', cv_wait_sleep u (cs_cv s) = Done c').
Proof.
  pose (s := mkCvSys (mkCv (Some 1) []) (mkLkSys new_lock ((({[1]} ∪ ∅) ∖ {[1]}) ∪ ∅) ((∅ ∪ {[1]}) ∖ {[1]})) (∅ ∪ {[1]}) ∅ (∅ ∪ {[1]})).
  assert (H : rtc cv_step cv_start s).
  { eapply rtc_l; [apply (cv_acquire 1); [unfold at_lock; cbn; set_solver|unfold in_wait; cbn; set_solver|reflexivity]|].
    eapply rtc_l; [apply cv_round, (lk_got 1); [set_solver|reflexivity]|].
    eapply rtc_l; [eapply (cv_wait1 1); [unfold at_lock; cbn; set_solver|unfold in_wait; cbn; set_solver|reflexivity]|].
    apply rtc_refl. }
  exists s. split; [exact H|]. split; [cbn; set_solver|]. apply cv_no_lost_signal. exact H.
Defined.
