(* ===== verification/Hangman.v ===== *)
(** * The deadlock detector

    [thread/hangman.c] and the calls of it in [lock_acquire] and [lock_release]
    (synch.c); the kernel is built with it when its configuration has
    [options hangman].  An actor (a thread or a processor) and a lockable (a lock or a
    spinlock) are their addresses; [a_waiting] and [l_holding] hold the pointers that
    are not null.  Each operation runs under [hangman_lock], so it is one step. *)

From stdpp Require Import relations.
From S2P Require Import Prelude Events Synch.

#[local] Set Warnings "-clear-no-such-hyp".

Record hangman := mkHangman { a_waiting : gmap Z Z; l_holding : gmap Z Z }.

Section detector.
(** The address of the detector's own spinlock, which it does not watch. *)
Variable hangman_lock : Z.

(** The loop of [hangman_check], from [cur]: whether it gets to [target]. [None]: it
    has not ended within the fuel. *)
Fixpoint check_from (fuel : nat) (g : hangman) (cur : option Z) (target : Z) : option bool :=
  match fuel with
  | O => None
  | S fuel =>
      match cur with
      | None => Some false
      | Some c =>
          if c =? target then Some true else
          match a_waiting g !! c with
          | None => Some false
          | Some l => check_from fuel g (l_holding g !! l) target
          end
      end
  end.

(** A check that does not end is [Blocked]. *)
Definition hangman_check (g : hangman) (start target : Z) : outcome unit :=
  match check_from (S (S (size (a_waiting g)))) g (l_holding g !! start) target with
  | Some true => Panic
  | Some false => Done ()
  | None => Blocked
  end.

Definition hangman_wait (a l : Z) (g : hangman) : outcome hangman :=
  if l =? hangman_lock then Done g else
  if a_waiting g !! a is Some _ then Panic else
  _ ← hangman_check g l a; Done (mkHangman (<[a := l]> (a_waiting g)) (l_holding g)).

Definition hangman_acquire (a l : Z) (g : hangman) : outcome hangman :=
  if l =? hangman_lock then Done g else
  if negb (bool_decide (a_waiting g !! a = Some l)) then Panic else
  if l_holding g !! l is Some _ then Panic else
  Done (mkHangman (delete a (a_waiting g)) (<[l := a]> (l_holding g))).

Definition hangman_release (a l : Z) (g : hangman) : outcome hangman :=
  if l =? hangman_lock then Done g else
  if a_waiting g !! a is Some _ then Panic else
  if negb (bool_decide (l_holding g !! l = Some a)) then Panic else
  Done (mkHangman (a_waiting g) (delete l (l_holding g))).

(** ** Who waits for whom *)

(** The first actor waits for a lockable that the second one has. *)
Definition waits_for (g : hangman) (a b : Z) : Prop :=
  exists l, a_waiting g !! a = Some l /\ l_holding g !! l = Some b.

Definition deadlocked (g : hangman) : Prop := exists a, tc (waits_for g) a a.

Inductive hm_step : hangman -> hangman -> Prop :=
  | hm_wait a l g g' : hangman_wait a l g = Done g' -> hm_step g g'
  | hm_acquire a l g g' : hangman_acquire a l g = Done g' -> hm_step g g'
  | hm_release a l g g' : hangman_release a l g = Done g' -> hm_step g g'.

Definition hm_start : hangman := mkHangman ∅ ∅.

Lemma waits_for_fun g a b c : waits_for g a b -> waits_for g a c -> b = c.
Proof. intros (l&E&Eb) (l'&E'&Ec). congruence. Qed.

(** The first step of a path of at least one step. *)
Lemma tc_first {A} (R : A -> A -> Prop) x y : tc R x y -> exists z, R x z /\ rtc R z y.
Proof. intros H. destruct H as [x y H|x y z H Ht]; [by exists y; split; [|constructor]|]. exists y. split; [done|by apply tc_rtc]. Qed.

Lemma no_path_from g a b : a_waiting g !! a = None -> rtc (waits_for g) a b -> a = b.
Proof. intros Ha Hp. inversion Hp as [|? c ? (l&E&_)]; [done|]. by rewrite Ha in E. Qed.

Lemma tc_mono {A} (R R' : A -> A -> Prop) x y : (forall u v, R u v -> R' u v) -> tc R x y -> tc R' x y.
Proof. intros HR. induction 1; [constructor; auto|eapply tc_l; eauto]. Qed.

(** On a cycle every point has a step to go on with. *)
Lemma cycle_inner {A} (R R' : A -> A -> Prop) x :
  (forall u v w, R u v -> R v w -> R' u v) -> tc R x x -> tc R' x x.
Proof.
  intros HR Hx.
  assert (forall y z, tc R y z -> (exists w, R z w) -> tc R' y z) as Hgo.
  { induction 1 as [y z H|y u z H Ht IH]; intros Hw.
    - destruct Hw as [w Hw]. constructor. by eapply HR.
    - pose proof Ht as Hu. apply tc_first in Hu as (v&Hu&_). eapply tc_l; [by eapply HR|by apply IH]. }
  apply Hgo; [done|]. apply tc_first in Hx as (w&Hw&_). by exists w.
Qed.

(** Edges that all leave from one point: a cycle either does without them or has a
    path back to that point which does. *)
Lemma cycle_new_source (R R' : Z -> Z -> Prop) a x :
  (forall u v, R' u v -> R u v \/ u = a) -> tc R' x x -> tc R x x \/ exists b, R' a b /\ rtc R b a.
Proof.
  intros HR.
  assert (forall y z, rtc R' y z -> z = a -> rtc R y a) as Hto.
  { induction 1 as [y|y u z Hyu _ IH]; intros Hz; [subst; constructor|].
    destruct (HR _ _ Hyu) as [H| ->]; [eapply rtc_l; [exact H|by apply IH]|constructor]. }
  assert (forall y z, tc R' y z -> tc R y z \/ (rtc R' y a /\ tc R' a z)) as Hsplit.
  { induction 1 as [y z H|y u z H Ht IH]; destruct (HR _ _ H) as [Hr| ->].
    - left. by constructor.
    - right. split; [constructor|by constructor].
    - destruct IH as [?|[? ?]]; [left; by eapply tc_l|right]. split; [by eapply rtc_l|done].
    - right. split; [constructor|by eapply tc_l]. }
  intros Hx. destruct (Hsplit _ _ Hx) as [?|[Hxa Hax]]; [by left|right].
  assert (tc R' a a) as Hc by (by eapply tc_rtc_r). apply tc_first in Hc as (b&?&?). exists b. split; [done|by eapply Hto].
Qed.

(** Edges that all lead to a point from which none leaves close no cycle. *)
Lemma cycle_new_target (R R' : Z -> Z -> Prop) a x :
  (forall u v, R' u v -> R u v \/ v = a) -> (forall v, ~ R' a v) -> tc R' x x -> tc R x x.
Proof.
  intros HR Ha.
  assert (forall v, ~ tc R' a v) as Hno by (intros v Hv; apply tc_first in Hv as (z&Hz&_); by apply (Ha z)).
  assert (forall y z, tc R' y z -> tc R y z \/ z = a) as Hsplit.
  { induction 1 as [y z H|y u z H Ht IH]; destruct (HR _ _ H) as [Hr| ->].
    - left. by constructor.
    - by right.
    - destruct IH as [?|?]; [left; by eapply tc_l|by right].
    - by apply Hno in Ht. }
  intros Hx. destruct (Hsplit _ _ Hx) as [?| ->]; [done|]. by apply Hno in Hx.
Qed.

(** ** The check *)

Lemma check_path n g cur target :
  match check_from n g (Some cur) target with
  | Some true => rtc (waits_for g) cur target
  | Some false => ~ rtc (waits_for g) cur target
  | None => True
  end.
Proof.
  revert cur. induction n as [|n IH]; intros cur; [done|]. cbn. destruct (Z.eqb_spec cur target) as [->|Hne]; [constructor|].
  destruct (a_waiting g !! cur) as [l|] eqn:E; [|intros H; by apply no_path_from in H].
  destruct (l_holding g !! l) as [b|] eqn:Eb.
  - assert (waits_for g cur b) as Hw by (by exists l). specialize (IH b).
    destruct (check_from n g (Some b) target) as [[]|]; [by eapply rtc_l| |done].
    intros H. inversion H as [|? c ? Hc]; [done|]. subst. by rewrite (waits_for_fun _ _ _ _ Hw Hc) in IH.
  - destruct n; [done|]. cbn. intros H. inversion H as [|? c ? (l'&E'&Ec)]; [done|]. subst. congruence.
Qed.

(** Without a cycle the loop meets each waiting actor at most once. *)
Lemma check_ends n g cur target (seen : gset Z) :
  ~ deadlocked g -> (forall a, a ∈ seen -> tc (waits_for g) a cur) ->
  seen ⊆ dom (a_waiting g) -> (size (dom (a_waiting g)) < size seen + n)%nat ->
  check_from (S n) g (Some cur) target <> None.
Proof.
  intros Hno. revert cur seen. induction n as [|n IH]; intros cur seen Hs Hd Hn; cbn.
  - apply subseteq_size in Hd. lia.
  - destruct (cur =? target); [done|]. destruct (a_waiting g !! cur) as [l|] eqn:E; [|done].
    destruct (l_holding g !! l) as [b|] eqn:Eb; [|done].
    assert (waits_for g cur b) as Hw by (by exists l).
    assert (cur ∉ seen) as Hcur by (intros Hc; apply Hno; exists cur; by apply Hs).
    apply (IH b ({[cur]} ∪ seen)).
    + intros a Ha. apply elem_of_union in Ha as [->%elem_of_singleton|Ha]; [by constructor|].
      eapply tc_r; [by apply Hs|done].
    + apply union_subseteq. split; [|done]. apply singleton_subseteq_l. by apply elem_of_dom_2 in E.
    + rewrite size_union, size_singleton by set_solver. lia.
Qed.

Lemma hangman_check_exact g l target :
  ~ deadlocked g ->
  (hangman_check g l target = Panic <-> exists b, l_holding g !! l = Some b /\ rtc (waits_for g) b target) /\
  (hangman_check g l target = Panic \/ hangman_check g l target = Done ()).
Proof.
  intros Hno. unfold hangman_check. destruct (l_holding g !! l) as [b|].
  - assert (check_from (S (S (size (a_waiting g)))) g (Some b) target <> None) as Hend.
    { apply (check_ends _ _ _ _ ∅); [done|set_solver|set_solver|]. rewrite size_dom, size_empty. lia. }
    pose proof (check_path (S (S (size (a_waiting g)))) g b target) as Hp.
    destruct (check_from _ g (Some b) target) as [[]|]; [| |done].
    + split; [|by left]. split; [|done]. intros _. by exists b.
    + split; [|by right]. split; [done|]. by intros (b'&[= <-]&Hb).
  - cbn. split; [|by right]. split; [done|]. by intros (b&[=]&_).
Qed.

(** ** No step closes a cycle *)

Lemma wait_edges a l w h u v :
  waits_for (mkHangman (<[a := l]> w) h) u v -> waits_for (mkHangman w h) u v \/ u = a.
Proof.
  intros (l'&E&Ev). cbn in *. apply lookup_insert_Some in E as [(->&_)|(_&E)]; [by right|]. left. by exists l'.
Qed.

(** A new wait closes a cycle exactly when a path leads from the lockable back. *)
Lemma wait_deadlock a l w h :
  ~ deadlocked (mkHangman w h) -> w !! a = None ->
  deadlocked (mkHangman (<[a := l]> w) h) <-> exists b, h !! l = Some b /\ rtc (waits_for (mkHangman w h)) b a.
Proof.
  intros Hno Ha. split.
  - intros (x&Hx). eapply cycle_new_source in Hx as [Hx|(b&(l'&E&Eb)&Hp)]; [| |apply (wait_edges a l w h)].
    + destruct Hno. by exists x.
    + cbn in *. rewrite lookup_insert_eq in E. injection E as <-. by exists b.
  - intros (b&Eb&Hp). exists a. eapply tc_rtc_r.
    + constructor. exists l. cbn. split; [apply lookup_insert_eq|exact Eb].
    + eapply rtc_subrel; [|exact Hp]. intros u v (l'&E&Ev). exists l'. cbn in *. split; [|done].
      by rewrite lookup_insert_ne by (intros ->; congruence).
Qed.

Lemma acquire_no_deadlock a l w h :
  ~ deadlocked (mkHangman w h) -> ~ deadlocked (mkHangman (delete a w) (<[l := a]> h)).
Proof.
  intros Hno (x&Hx). apply Hno. exists x. eapply (cycle_new_target _ _ a); [| |exact Hx].
  - intros u v (l'&E&Ev). cbn in *. apply lookup_delete_Some in E as (_&E).
    apply lookup_insert_Some in Ev as [(_&<-)|(_&Ev)]; [by right|left]. by exists l'.
  - intros v (l'&E&_). cbn in E. by rewrite lookup_delete_eq in E.
Qed.

Lemma release_no_deadlock l w h : ~ deadlocked (mkHangman w h) -> ~ deadlocked (mkHangman w (delete l h)).
Proof.
  intros Hno (x&Hx). apply Hno. exists x. eapply tc_mono; [|exact Hx].
  intros u v (l'&E&Ev). cbn in *. apply lookup_delete_Some in Ev as (_&Ev). by exists l'.
Qed.

Lemma hangman_wait_exact a l g :
  ~ deadlocked g -> a_waiting g !! a = None -> l <> hangman_lock ->
  let g' := mkHangman (<[a := l]> (a_waiting g)) (l_holding g) in
  (deadlocked g' /\ hangman_wait a l g = Panic) \/ (~ deadlocked g' /\ hangman_wait a l g = Done g').
Proof.
  intros Hno Ha Hl g'. destruct g as [w h]. pose proof (wait_deadlock a l w h Hno Ha) as Hd.
  destruct (hangman_check_exact (mkHangman w h) l a Hno) as [Hex Hends]. unfold hangman_wait.
  apply Z.eqb_neq in Hl. rewrite Hl, Ha. cbn -[hangman_check].
  destruct Hends as [E|E]; rewrite E; [left|right]; (split; [|done]).
  - apply Hd. by apply Hex.
  - intros Hdl. apply Hd, Hex in Hdl. by rewrite E in Hdl.
Qed.

Lemma hm_step_no_deadlock g g' : ~ deadlocked g -> hm_step g g' -> ~ deadlocked g'.
Proof.
  intros Hno Hs. destruct Hs as [a l g g' H|a l g g' H|a l g g' H].
  - destruct (decide (l = hangman_lock)) as [->|Hl]; [unfold hangman_wait in H; rewrite Z.eqb_refl in H; by injection H as <-|].
    destruct (a_waiting g !! a) eqn:Ha.
    + unfold hangman_wait in H. apply Z.eqb_neq in Hl. by rewrite Hl, Ha in H.
    + destruct (hangman_wait_exact a l g Hno Ha Hl) as [[_ E]|[Hd E]]; rewrite E in H; [done|]. by injection H as <-.
  - unfold hangman_acquire in H. destruct (l =? hangman_lock); [by injection H as <-|].
    case_bool_decide; [|done]. cbn in H. destruct (l_holding g !! l); [done|]. injection H as <-.
    destruct g. by apply acquire_no_deadlock.
  - unfold hangman_release in H. destruct (l =? hangman_lock); [by injection H as <-|].
    destruct (a_waiting g !! a); [done|]. case_bool_decide; [|done]. injection H as <-.
    destruct g. by apply release_no_deadlock.
Qed.

Lemma start_no_deadlock : ~ deadlocked hm_start.
Proof. intros (a&Ha). apply tc_first in Ha as (b&(l&E&_)&_). cbn in E. by rewrite lookup_empty in E. Qed.

Lemma hm_no_deadlock g : rtc hm_step hm_start g -> ~ deadlocked g.
Proof.
  intros Hs. pose proof start_no_deadlock as Hno. revert Hno. generalize hm_start Hs. clear. intros g0 Hs.
  induction Hs; [done|]. eauto using hm_step_no_deadlock.
Qed.

(** In every state the detector gets into nobody is deadlocked, and its check ends;
    when an actor reports that it will wait, the detector panics exactly when the wait
    would close a cycle of actors each waiting for the next one's lockable. *)
Theorem hangman_exact g (a l : Z) :
  rtc hm_step hm_start g -> l <> hangman_lock -> a_waiting g !! a = None ->
  let g' := mkHangman (<[a := l]> (a_waiting g)) (l_holding g) in
  ~ deadlocked g /\ (hangman_wait a l g = Panic <-> deadlocked g') /\ (hangman_wait a l g = Done g' <-> ~ deadlocked g').
Proof.
  intros Hs Hl Ha g'. pose proof (hm_no_deadlock g Hs) as Hno. split; [done|].
  destruct (hangman_wait_exact a l g Hno Ha Hl) as [[Hd E]|[Hd E]]; rewrite E; repeat split; try done.
Qed.

(** ** Locks with the detector

    [lock_acquire] is a call of [hangman_wait] and then rounds at the spinlock of the
    lock, the last one with [hangman_acquire] in it; [lock_release] is a section of the
    spinlock, then a call of [hangman_release] after it.  [hl_leaving] are the threads
    between the two parts of [lock_release]. *)
Record hl_sys := mkHl { hl_locks : gmap Z lock; hl_hm : hangman; hl_leaving : gmap Z Z }.

Inductive hl_event := Acquire_wait (t l : Z) | Acquire_round (t l : Z) | Release_section (t l : Z) | Release_report (t l : Z).

Definition hl_exec (e : hl_event) (s : hl_sys) : outcome hl_sys :=
  match e with
  | Acquire_wait t l =>
      lk ← deref (hl_locks s !! l); _ ← KASSERT (negb (lock_do_i_hold t lk));
      g ← hangman_wait t l (hl_hm s); Done (mkHl (hl_locks s) g (hl_leaving s))
  | Acquire_round t l =>
      lk ← deref (hl_locks s !! l);
      let '(got, lk) := lock_try t lk in
      g ← (if (got : bool) then hangman_acquire t l (hl_hm s) else Done (hl_hm s));
      Done (mkHl (<[l := lk]> (hl_locks s)) g (hl_leaving s))
  | Release_section t l =>
      lk ← deref (hl_locks s !! l); '(_, lk) ← lock_release t lk;
      Done (mkHl (<[l := lk]> (hl_locks s)) (hl_hm s) (<[t := l]> (hl_leaving s)))
  | Release_report t l =>
      g ← hangman_release t l (hl_hm s); Done (mkHl (hl_locks s) g (delete t (hl_leaving s)))
  end.

(** A thread is outside of both, in the rounds of [lock_acquire] and awake, or between
    the parts of [lock_release]. *)
Definition hl_outside (t : Z) (s : hl_sys) : Prop := a_waiting (hl_hm s) !! t = None /\ hl_leaving s !! t = None.

Definition hl_allowed (e : hl_event) (s : hl_sys) : Prop :=
  match e with
  | Acquire_wait t l | Release_section t l => hl_outside t s /\ is_Some (hl_locks s !! l)
  | Acquire_round t l => a_waiting (hl_hm s) !! t = Some l /\ exists lk, hl_locks s !! l = Some lk /\ (t ∉ lk_wchan lk)
  | Release_report t l => hl_leaving s !! t = Some l
  end.

#[export] Instance hl_allowed_dec e s : Decision (hl_allowed e s).
Proof. destruct e; cbn; unfold hl_outside; apply _. Defined.

Definition hl_start (L : gset Z) : hl_sys := mkHl (gset_to_gmap new_lock L) hm_start ∅.

Definition hl_reachable (s : hl_sys) : Prop := exists L, (hangman_lock ∉ L) /\ rtc (event_step hl_allowed hl_exec) (hl_start L) s.

(** A thread waits in [lock_acquire] for a lock that another one owns. *)
Definition stuck_behind (s : hl_sys) (a b : Z) : Prop :=
  exists l lk, a_waiting (hl_hm s) !! a = Some l /\ hl_locks s !! l = Some lk /\ lk_owner lk = Some b.

Record hl_inv (s : hl_sys) : Prop := mkHlInv {
  hl_free : ~ deadlocked (hl_hm s);
  hl_own : hl_locks s !! hangman_lock = None;
  hl_holder : forall l lk a, hl_locks s !! l = Some lk ->
    (l_holding (hl_hm s) !! l = Some a <-> lk_owner lk = Some a \/ hl_leaving s !! a = Some l);
  hl_busy : forall l lk, hl_locks s !! l = Some lk -> is_busy lk = bool_decide (is_Some (lk_owner lk));
  hl_known : forall a l, a_waiting (hl_hm s) !! a = Some l \/ hl_leaving s !! a = Some l -> is_Some (hl_locks s !! l);
  hl_quiet : forall a l, hl_leaving s !! a = Some l -> a_waiting (hl_hm s) !! a = None;
  hl_gone : forall a l lk, hl_leaving s !! a = Some l -> hl_locks s !! l = Some lk -> lk_owner lk = None }.

Lemma hl_start_inv L : hangman_lock ∉ L -> hl_inv (hl_start L).
Proof.
  intros HL. constructor; cbn.
  - apply start_no_deadlock.
  - by apply lookup_gset_to_gmap_None.
  - intros l lk a E. apply lookup_gset_to_gmap_Some in E as (_&<-). rewrite !lookup_empty. cbn. naive_solver.
  - intros l lk E. by apply lookup_gset_to_gmap_Some in E as (_&<-).
  - intros a l. rewrite !lookup_empty. naive_solver.
  - intros a l. by rewrite lookup_empty.
  - intros a l lk. by rewrite lookup_empty.
Qed.

Lemma watched s l lk : hl_inv s -> hl_locks s !! l = Some lk -> l <> hangman_lock.
Proof. intros Hi E ->. by rewrite (hl_own _ Hi) in E. Qed.

Definition after_wait (t l : Z) (s : hl_sys) : hl_sys :=
  mkHl (hl_locks s) (mkHangman (<[t := l]> (a_waiting (hl_hm s))) (l_holding (hl_hm s))) (hl_leaving s).

(** The cycles the detector sees are those of the owners of the locks: a thread it
    still takes for the holder of a lock that is free waits for nothing. *)
Lemma deadlock_real t l s :
  hl_inv s -> hl_outside t s -> is_Some (hl_locks s !! l) ->
  deadlocked (hl_hm (after_wait t l s)) <-> exists a, tc (stuck_behind (after_wait t l s)) a a.
Proof.
  intros Hi (Hw&Hlv) Hl. unfold deadlocked. cbn.
  assert (forall a l', <[t := l]> (a_waiting (hl_hm s)) !! a = Some l' -> is_Some (hl_locks s !! l')) as Hknown.
  { intros a l' Ha. apply lookup_insert_Some in Ha as [(_&<-)|(_&Ha)]; [done|]. apply (hl_known _ Hi a). by left. }
  split; intros (a&Ha); exists a.
  - eapply (cycle_inner (waits_for (hl_hm (after_wait t l s)))); [|exact Ha].
    intros u v z (l'&Hu&Hv) (l2&Hv2&_). cbn in *. destruct (Hknown _ _ Hu) as [lk El]. exists l', lk.
    split; [done|]. split; [done|]. apply (hl_holder _ Hi _ _ _ El) in Hv as [?|Hv]; [done|].
    apply lookup_insert_Some in Hv2 as [(<-&_)|(_&Hv2)]; [congruence|].
    by rewrite (hl_quiet _ Hi _ _ Hv) in Hv2.
  - eapply tc_mono; [|exact Ha]. intros u v (l'&lk&Hu&El&Ho). exists l'. split; [done|].
    apply (hl_holder _ Hi _ _ _ El). by left.
Qed.

(** What goes wrong in an event. *)
Definition hl_wrong (e : hl_event) (s : hl_sys) : Prop :=
  match e with
  | Acquire_wait t l =>
      (exists lk, hl_locks s !! l = Some lk /\ lk_owner lk = Some t) \/
      exists a, tc (stuck_behind (after_wait t l s)) a a
  | Acquire_round t l => (exists lk, hl_locks s !! l = Some lk /\ lk_owner lk = None) /\ exists a, hl_leaving s !! a = Some l
  | Release_section t l => exists lk, hl_locks s !! l = Some lk /\ lk_owner lk <> Some t
  | Release_report t l => False
  end.

Abbreviation hl_goes := (event_goes hl_exec hl_wrong hl_inv) (only parsing).

Lemma hl_wait_goes t l s : hl_inv s -> hl_allowed (Acquire_wait t l) s -> hl_goes (Acquire_wait t l) s.
Proof.
  intros Hi ((Hw&Hlv)&lk&El). unfold event_goes. cbn. rewrite El. cbn.
  destruct (decide (lk_owner lk = Some t)) as [Ho|Ho].
  { left. split; [left; by exists lk|]. unfold lock_do_i_hold. by rewrite bool_decide_true. }
  unfold lock_do_i_hold. rewrite bool_decide_false by done. cbn.
  pose proof (deadlock_real t l s Hi (conj Hw Hlv) (mk_is_Some _ _ El)) as Hreal. cbn in Hreal.
  destruct (hangman_wait_exact t l (hl_hm s) (hl_free _ Hi) Hw (watched _ _ _ Hi El)) as [[Hd E]|[Hd E]]; rewrite E.
  - left. split; [right; by apply Hreal|done].
  - right. split; [intros [(lk'&?&?)|?]; [by simplify_eq|by apply Hd, Hreal]|]. eexists. split; [reflexivity|].
    destruct Hi as [Hf Hown Hh Hb Hk Hq Hg]. constructor; cbn; try done.
    + intros a l' [Ha|Ha]; [|by eapply Hk; right]. apply lookup_insert_Some in Ha as [(_&<-)|(_&Ha)]; [done|by eapply Hk; left].
    + intros a l' Ha. rewrite lookup_insert_ne by (intros ->; congruence). by eapply Hq.
Qed.

(** A lock whose owner stays, or of which the detector hears. *)
Lemma hl_inv_put s l lk lk' g lv :
  hl_inv s -> hl_locks s !! l = Some lk -> ~ deadlocked g -> is_busy lk' = bool_decide (is_Some (lk_owner lk')) ->
  (forall a, l_holding g !! l = Some a <-> lk_owner lk' = Some a \/ lv !! a = Some l) ->
  (forall l', l' <> l -> l_holding g !! l' = l_holding (hl_hm s) !! l') ->
  (forall a l', l' <> l -> lv !! a = Some l' <-> hl_leaving s !! a = Some l') ->
  (forall a l', a_waiting g !! a = Some l' -> a_waiting (hl_hm s) !! a = Some l') ->
  (forall a l', lv !! a = Some l' -> a_waiting g !! a = None) ->
  (forall a, lv !! a = Some l -> lk_owner lk' = None) ->
  hl_inv (mkHl (<[l := lk']> (hl_locks s)) g lv).
Proof.
  intros [Hf Hown Hh Hb Hk Hq Hg] El Hno Hbusy Hl Hother Hlv Hw Hquiet Hgone.
  assert (l <> hangman_lock) by (intros ->; by rewrite Hown in El). constructor; cbn; try done.
  - by rewrite lookup_insert_ne.
  - intros l1 lk1 a E. apply lookup_insert_Some in E as [(<-&<-)|(Hne&E)]; [apply Hl|].
    rewrite Hother, Hlv by done. by apply Hh.
  - intros l1 lk1 E. apply lookup_insert_Some in E as [(<-&<-)|(Hne&E)]; [done|by eapply Hb].
  - intros a l1 Ha. destruct (decide (l = l1)) as [<-|Hne]; [rewrite lookup_insert_eq; by eexists|].
    rewrite lookup_insert_ne by done. apply (Hk a). destruct Ha as [Ha|Ha]; [left; auto|right; by apply Hlv].
  - intros a l1 lk1 Ha E. apply lookup_insert_Some in E as [(<-&<-)|(Hne&E)]; [by eapply Hgone|].
    apply (Hg a l1); [by apply Hlv|done].
Qed.

Lemma hl_round_goes t l s : hl_inv s -> hl_allowed (Acquire_round t l) s -> hl_goes (Acquire_round t l) s.
Proof.
  intros Hi (Hw&lk&El&_). pose proof (watched _ _ _ Hi El) as Hl. apply Z.eqb_neq in Hl.
  pose proof (hl_busy _ Hi _ _ El) as Hb.
  unfold event_goes. cbn. rewrite El. cbn. unfold lock_try. rewrite Hb.
  destruct (lk_owner lk) as [o|] eqn:Eo; cbn.
  - right. split; [intros ((lk1&?&?)&_); by simplify_eq|]. eexists. split; [reflexivity|].
    eapply hl_inv_put; try done; try apply Hi; cbn; rewrite <- Eo; [intros a; by apply (hl_holder _ Hi)|].
    intros a Ha. by eapply (hl_gone _ Hi).
  - unfold hangman_acquire. rewrite Hl, bool_decide_true by done. cbn.
    destruct (l_holding (hl_hm s) !! l) as [b|] eqn:Eb.
    + left. split; [|done]. split; [by exists lk|]. exists b.
      by apply (hl_holder _ Hi _ _ _ El) in Eb as [?|?]; [congruence|].
    + right. assert (forall a, hl_leaving s !! a <> Some l) as Hnone.
      { intros a Ha. by rewrite (proj2 (hl_holder _ Hi _ _ a El) (or_intror Ha)) in Eb. }
      split; [intros (_&a&Ha); by apply (Hnone a)|]. eexists. split; [reflexivity|].
      eapply hl_inv_put; try done; cbn.
      * destruct (hl_hm s) as [w h] eqn:Eg. apply acquire_no_deadlock. rewrite <- Eg. apply Hi.
      * intros a. rewrite lookup_insert_eq. specialize (Hnone a). naive_solver.
      * intros l' Hne. by rewrite lookup_insert_ne.
      * intros a l' Ha. by apply lookup_delete_Some in Ha as (_&?).
      * intros a l' Ha. apply lookup_delete_None. right. by eapply (hl_quiet _ Hi).
      * intros a Ha. by destruct (Hnone a).
Qed.

Lemma hl_section_goes t l s : hl_inv s -> hl_allowed (Release_section t l) s -> hl_goes (Release_section t l) s.
Proof.
  intros Hi ((Hw&Hlv)&lk&El). unfold event_goes. cbn. rewrite El. cbn. unfold lock_release, lock_do_i_hold.
  destruct (decide (lk_owner lk = Some t)) as [Ho|Ho].
  2: { left. split; [by exists lk|]. by rewrite bool_decide_false. }
  right. split; [intros (lk1&?&?); by simplify_eq|]. rewrite (bool_decide_true _ Ho), (hl_busy _ Hi _ _ El), Ho. cbn.
  eexists. split; [reflexivity|]. eapply hl_inv_put; try done; try apply Hi; cbn.
  - intros a. rewrite (hl_holder _ Hi _ _ a El), Ho. split.
    + intros [[= <-]|Ha]; right; [apply lookup_insert_eq|]. rewrite lookup_insert_ne; [done|intros ->; congruence].
    + intros [?|Ha]; [done|]. apply lookup_insert_Some in Ha as [(<-&_)|(_&?)]; auto.
  - intros a l' Hne. destruct (decide (t = a)) as [<-|]; [rewrite lookup_insert_eq|by rewrite lookup_insert_ne].
    split; [by intros [= ->]|congruence].
  - intros a l' Ha. apply lookup_insert_Some in Ha as [(<-&_)|(_&?)]; [done|by eapply (hl_quiet _ Hi)].
Qed.

Lemma hl_report_goes t l s : hl_inv s -> hl_allowed (Release_report t l) s -> hl_goes (Release_report t l) s.
Proof.
  intros Hi Hlv. cbn in Hlv. destruct (hl_known _ Hi t l (or_intror Hlv)) as [lk El].
  pose proof (watched _ _ _ Hi El) as Hl. apply Z.eqb_neq in Hl.
  assert (l_holding (hl_hm s) !! l = Some t) as Ht by (apply (hl_holder _ Hi _ _ t El); by right).
  right. split; [by intros []|]. cbn. unfold hangman_release.
  rewrite Hl, (hl_quiet _ Hi _ _ Hlv), bool_decide_true by done. cbn. eexists. split; [reflexivity|].
  rewrite <- (insert_id (hl_locks s) l lk) by done.
  assert (forall a, hl_leaving s !! a = Some l -> a = t) as Honly.
  { intros a Ha. apply (or_intror (A := lk_owner lk = Some a)), (hl_holder _ Hi _ _ a El) in Ha. congruence. }
  eapply hl_inv_put; try done; cbn.
  - destruct (hl_hm s) as [w h] eqn:Eg. apply release_no_deadlock. cbn. change (~ deadlocked (mkHangman w h)).
    rewrite <- Eg. apply Hi.
  - by eapply (hl_busy _ Hi).
  - intros a. rewrite lookup_delete_eq, (hl_gone _ Hi _ _ _ Hlv El). split; [done|].
    intros [?|Ha]; [done|]. apply lookup_delete_Some in Ha as (Hne&Ha). by destruct Hne; rewrite (Honly a Ha).
  - intros l' Hne. by rewrite lookup_delete_ne.
  - intros a l' Hne. rewrite lookup_delete_Some. split; [by intros (_&?)|]. intros Ha. split; [|done].
    intros <-. congruence.
  - intros a l' Ha. apply lookup_delete_Some in Ha as (_&Ha). by eapply (hl_quiet _ Hi).
  - intros a Ha. apply lookup_delete_Some in Ha as (_&Ha). by eapply (hl_gone _ Hi).
Qed.

Lemma hl_goes_all e s : hl_inv s -> hl_allowed e s -> hl_goes e s.
Proof. destruct e; eauto using hl_wait_goes, hl_round_goes, hl_section_goes, hl_report_goes. Qed.

Lemma hl_reachable_inv s : hl_reachable s -> hl_inv s.
Proof. intros (L&HL&Hs). eapply steps_invariant; [apply hl_goes_all|by apply hl_start_inv|exact Hs]. Qed.

(** C8. In a kernel with the detector, whatever the order of events: [lock_acquire]
    panics before it waits exactly when the thread has the lock already or its wait
    would close a cycle of threads each behind the owner of a lock; and a thread that
    has got the lock panics exactly when the lock's last owner has given it up and not
    yet told the detector, which it does after it let go of the spinlock: a panic
    without a deadlock. *)
Theorem hangman_locks e s :
  hl_reachable s -> hl_allowed e s ->
  (hl_exec e s = Panic <-> hl_wrong e s) /\ (hl_wrong e s \/ exists s', hl_exec e s = Done s') /\
  ~ (exists a, tc (stuck_behind s) a a).
Proof.
  intros Hr Ha. apply hl_reachable_inv in Hr as Hi.
  destruct (goes_panics _ _ _ _ _ (hl_goes_all e s Hi Ha)) as [Hp Hd]. split; [done|]. split; [done|].
  intros (a&Hc). apply (hl_free _ Hi). exists a. eapply tc_mono; [|exact Hc].
    intros u v (l'&lk&Hu&El&Ho). exists l'. split; [done|]. apply (hl_holder _ Hi _ _ _ El). by left.
Qed.

End detector.

(** ** Two threads and one lock *)

(** Thread 1 takes lock 10, thread 2 waits for it, and thread 1 is inside
    [lock_release]. *)
Definition late_run : list hl_event :=
  [Acquire_wait 1 10; Acquire_round 1 10; Acquire_wait 2 10; Release_section 1 10].

Definition late_report : hl_sys :=
  mkHl {[10 := mkLock false None []]} (mkHangman {[2 := 10]} {[10 := 1]}) {[1 := 10]}.

Lemma late_report_reachable : hl_reachable 99 late_report.
Proof.
  exists {[10]}. split; [set_solver|]. apply (run_events_steps _ _ late_run). vm_compute. reflexivity.
Qed.

Lemma hangman_locks_witness : hl_exec 99 (Acquire_round 2 10) late_report = Panic.
Proof.
  apply (hangman_locks 99 (Acquire_round 2 10) late_report); [exact late_report_reachable| |].
  - split; [reflexivity|]. exists (mkLock false None []). split; [reflexivity|]. apply not_elem_of_nil.
  - split; [exists (mkLock false None []); split; reflexivity|]. exists 1. reflexivity.
Defined.

(** Actor 1 has lockable 10 and waits for 20, which actor 2 has. *)
Definition two_waits : hangman := mkHangman {[1 := 20]} (<[10 := 1]> {[20 := 2]}).

Lemma two_waits_reached : rtc (hm_step 99) hm_start two_waits.
Proof.
  assert (exists g, hangman_wait 99 1 10 hm_start = Done g /\ exists g', hangman_acquire 99 1 10 g = Done g' /\
    exists g2, hangman_wait 99 2 20 g' = Done g2 /\ exists g3, hangman_acquire 99 2 20 g2 = Done g3 /\
    hangman_wait 99 1 20 g3 = Done two_waits) as (g1&E1&g2&E2&g3&E3&g4&E4&E5).
  { repeat (eexists; split; [vm_compute; reflexivity|]). vm_compute. reflexivity. }
  do 2 (eapply rtc_l; [by econstructor|]; eapply rtc_l; [by eapply hm_acquire|]). apply rtc_once. by econstructor.
Qed.

Lemma hangman_exact_witness : hangman_wait 99 2 10 two_waits = Panic.
Proof.
  apply (hangman_exact 99 two_waits 2 10); [exact two_waits_reached|lia|reflexivity|].
  exists 1. eapply tc_l; [exists 20; split; reflexivity|]. constructor. exists 10. split; reflexivity.
Defined.
