(* ===== verification/LinkedList.v ===== *)
(** * concurrent_list/linked_list.c: the sorted, doubly linked list

    The nodes live in a heap of their own, by address; 0 is [NULL].  A pointer
    that is not the address of a live node may not be dereferenced: the operations
    panic there, so a theorem that an operation returns says that it only touches
    live nodes.  The state also holds the addresses [kmalloc] answers with next (0
    when there is no memory; none left counts as no memory).  The list may be one of
    several in the same heap: the theorems say that the rest of the heap keeps. *)

From Stdlib Require Import Sorted.
From stdpp Require Import sorting.
From S2P Require Import Prelude Synch.

Record Linked_List_Node := mkNode { prev : Z; next : Z; key : Z; data : Z }.

(** [ll_lock] is null when [lock_create] failed, which nothing checks. *)
Record Linked_List := mkList { first : Z; last_ : Z; length_ : Z; ll_lock : option lock }.

Record llst := mkLL { the_list : Linked_List; heap : gmap Z Linked_List_Node; answers : list Z }.

(** ** Memory *)

Definition on_list (f : Linked_List -> Linked_List) : K llst unit :=
  modify (fun s => mkLL (f (the_list s)) (heap s) (answers s)).
Definition set_first (p : Z) : K llst unit := on_list (fun l => mkList p (last_ l) (length_ l) (ll_lock l)).
Definition set_last (p : Z) : K llst unit := on_list (fun l => mkList (first l) p (length_ l) (ll_lock l)).
Definition set_length (n : Z) : K llst unit := on_list (fun l => mkList (first l) (last_ l) (s32 n) (ll_lock l)).
Definition set_lock (lk : lock) : K llst unit := on_list (fun l => mkList (first l) (last_ l) (length_ l) (Some lk)).

Definition load (p : Z) : K llst Linked_List_Node := fun s =>
  match heap s !! p with Some n => Done (n, s) | None => Panic end.
Definition update (p : Z) (f : Linked_List_Node -> Linked_List_Node) : K llst unit := fun s =>
  match heap s !! p with
  | Some n => Done ((), mkLL (the_list s) (<[p := f n]> (heap s)) (answers s))
  | None => Panic
  end.
Definition set_prev (p q : Z) : K llst unit := update p (fun n => mkNode q (next n) (key n) (data n)).
Definition set_next (p q : Z) : K llst unit := update p (fun n => mkNode (prev n) q (key n) (data n)).
Definition set_key (p k : Z) : K llst unit := update p (fun n => mkNode (prev n) (next n) k (data n)).
Definition set_data (p d : Z) : K llst unit := update p (fun n => mkNode (prev n) (next n) (key n) d).

(** New memory holds whatever was there; here zeros, all of it is written before
    it is read. *)
Definition kmalloc_node : K llst Z := fun s =>
  match answers s with
  | [] => Done (0, s)
  | a :: r => Done (a, mkLL (the_list s) (if a =? 0 then heap s else <[a := mkNode 0 0 0 0]> (heap s)) r)
  end.
Definition kfree_node (p : Z) : K llst unit := fun s =>
  if p =? 0 then Done ((), s) else
  match heap s !! p with
  | Some _ => Done ((), mkLL (the_list s) (delete p (heap s)) (answers s))
  | None => Panic
  end.

Definition acquire (t : Z) : K llst unit :=
  lk ← gets (fun s => ll_lock (the_list s));
  lk ← lift (lk ← deref lk; lock_acquire t lk);
  set_lock lk.
Definition release (t : Z) : K llst unit :=
  lk ← gets (fun s => ll_lock (the_list s));
  r ← lift (lk ← deref lk; lock_release t lk);
  set_lock (snd r).

(** Loops take at most as many rounds as there are nodes. *)
Definition rounds : K llst nat := gets (fun s => S (size (heap s))).

(** ** The operations

    The calling thread is [t].  [test_mode], which makes some operations yield the
    processor while they hold the list's lock, is a debugging aid and left out. *)

Definition linked_list_create (mem : list bool) : outcome (Linked_List * list bool) :=
  let '(ok, mem) := kalloc mem in
  KASSERT ok;;
  let '(lk, mem) := lock_create mem in
  mret (mkList 0 0 0 lk, mem).

Fixpoint destroy_loop (fuel : nat) : K llst unit :=
  match fuel with
  | O => lift Blocked
  | S fuel =>
    to_remove ← gets (fun s => first (the_list s));
    if to_remove =? 0 then mret () else
    n ← load to_remove;
    set_first (next n);;
    (if negb (next n =? 0) then set_prev (next n) 0 else mret ());;
    set_next to_remove 0;;
    f ← gets (fun s => first (the_list s));
    (if f =? 0 then set_last 0 else mret ());;
    len ← gets (fun s => length_ (the_list s));
    set_length (len - 1);;
    kfree_node to_remove;;
    destroy_loop fuel
  end.

(** The list object itself is not freed. *)
Definition linked_list_destroy (t : Z) : K llst unit :=
  acquire t;;
  fuel ← rounds;
  destroy_loop fuel;;
  release t;;
  lk ← gets (fun s => ll_lock (the_list s));
  lift (lk ← deref lk; lock_destroy t lk).

Definition linked_list_create_node (k d : Z) : K llst Z :=
  newnode ← kmalloc_node;
  set_prev newnode 0;;
  set_next newnode 0;;
  set_key newnode k;;
  set_data newnode d;;
  mret newnode.

Definition linked_list_prepend (t : Z) (d : Z) : K llst unit :=
  acquire t;;
  f ← gets (fun s => first (the_list s));
  (if f =? 0 then
     newnode ← linked_list_create_node 0 d;
     set_first newnode;;
     set_last newnode
   else
     n ← load f;
     newnode ← linked_list_create_node (s32 (key n - 1)) d;
     f' ← gets (fun s => first (the_list s));
     set_next newnode f';;
     set_prev f newnode;;
     set_first newnode);;
  len ← gets (fun s => length_ (the_list s));
  set_length (len + 1);;
  release t.

(** The loop's condition: is there a next node, with a smaller key? *)
Definition goes_on (n : Linked_List_Node) (k : Z) : K llst bool :=
  if next n =? 0 then mret false else
  m ← load (next n);
  mret (key m <? k).

Fixpoint find_loop (fuel : nat) (k runner : Z) : K llst Z :=
  match fuel with
  | O => lift Blocked
  | S fuel =>
    n ← load runner;
    more ← goes_on n k;
    if (more : bool) then find_loop fuel k (next n) else mret runner
  end.

(** Last element, or somewhere in the middle. *)
Definition link_after (newnode runner : Z) : K llst unit :=
  n ← load runner;
  if next n =? 0 then
    set_prev newnode runner;;
    set_next runner newnode;;
    set_last newnode
  else
    set_next newnode (next n);;
    set_prev newnode runner;;
    nn ← load newnode;
    set_prev (next nn) newnode;;
    nn ← load newnode;
    set_next (prev nn) newnode.

Definition linked_list_insert (t : Z) (k d : Z) : K llst unit :=
  acquire t;;
  f ← gets (fun s => first (the_list s));
  (if f =? 0 then
     newnode ← linked_list_create_node k d;
     set_first newnode;;
     set_last newnode
   else
     n ← load f;
     if key n >? k then
       newnode ← linked_list_create_node k d;
       f ← gets (fun s => first (the_list s));
       set_next newnode f;;
       set_prev f newnode;;
       set_first newnode
     else
       newnode ← linked_list_create_node k d;
       fuel ← rounds;
       runner ← find_loop fuel k f;
       link_after newnode runner);;
  len ← gets (fun s => length_ (the_list s));
  set_length (len + 1);;
  release t.

(** The data of the removed node (0 if there was none) and its key, if [key] was
    written. *)
Definition linked_list_remove_head (t : Z) : K llst (Z * option Z) :=
  acquire t;;
  f ← gets (fun s => first (the_list s));
  if f =? 0 then release t;; mret (0, None) else
  n ← load f;
  set_first (next n);;
  (if negb (next n =? 0) then set_prev (next n) 0 else mret ());;
  set_next f 0;;
  n ← load f;
  first' ← gets (fun s => first (the_list s));
  (if first' =? 0 then set_last 0 else mret ());;
  len ← gets (fun s => length_ (the_list s));
  set_length (len - 1);;
  kfree_node f;;
  release t;;
  mret (data n, Some (key n)).

Fixpoint renumber (fuel : nat) (runner : Z) : K llst unit :=
  match fuel with
  | O => lift Blocked
  | S fuel =>
    if runner =? 0 then mret () else
    n ← load runner;
    set_key runner (s32 (key n - 1));;
    renumber fuel (next n)
  end.

(** [q] becomes what follows [p], or the first node if there is no [p]. *)
Definition link_next (p q : Z) : K llst unit := if negb (p =? 0) then set_next p q else set_first q.
Definition link_prev (p q : Z) : K llst unit := if negb (p =? 0) then set_prev p q else set_last q.

Definition linked_list_remove (t : Z) (node : Z) : K llst unit :=
  acquire t;;
  if node =? 0 then release t else
  n ← load node;
  link_next (prev n) (next n);;
  n ← load node;
  link_prev (next n) (prev n);;
  f ← gets (fun s => first (the_list s));
  fuel ← rounds;
  renumber fuel f;;
  len ← gets (fun s => length_ (the_list s));
  set_length (len - 1);;
  kfree_node node;;
  release t.

(** What [linked_list_printlist] prints: keys and data (through the data pointers),
    then the length. *)
Fixpoint print_loop (fuel : nat) (runner : Z) : K llst (list (Z * Z)) :=
  match fuel with
  | O => lift Blocked
  | S fuel =>
    if runner =? 0 then mret [] else
    n ← load runner;
    r ← print_loop fuel (next n);
    mret ((key n, data n) :: r)
  end.

Definition linked_list_printlist (t : Z) : K llst (list (Z * Z) * Z) :=
  acquire t;;
  f ← gets (fun s => first (the_list s));
  fuel ← rounds;
  l ← print_loop fuel f;
  len ← gets (fun s => length_ (the_list s));
  release t;;
  mret (l, len).

(** ** The list as its items

    An item is a node's address with its key and data; [dseg h p xs n] says that the
    nodes of [xs] are live in [h], linked in order in both directions, between [p]
    and [n]. *)

Abbreviation item := (Z * (Z * Z))%type (only parsing).
Abbreviation addr x := (fst x) (only parsing).
Definition ikey (x : item) : Z := fst (snd x).
Definition idata (x : item) : Z := snd (snd x).

Definition head_addr (xs : list item) (n : Z) : Z := match xs with [] => n | x :: _ => addr x end.
Fixpoint last_addr (p : Z) (xs : list item) : Z :=
  match xs with [] => p | x :: r => last_addr (addr x) r end.

Fixpoint dseg (h : gmap Z Linked_List_Node) (p : Z) (xs : list item) (n : Z) : Prop :=
  match xs with
  | [] => True
  | x :: r => addr x <> 0 /\ h !! addr x = Some (mkNode p (head_addr r n) (ikey x) (idata x)) /\ dseg h (addr x) r n
  end.

Record repr (s : llst) (xs : list item) (lk : lock) : Prop := mkRepr {
  repr_first : first (the_list s) = head_addr xs 0;
  repr_last : last_ (the_list s) = last_addr 0 xs;
  repr_length : length_ (the_list s) = s32 (Z.of_nat (length xs));
  repr_lock : ll_lock (the_list s) = Some lk;
  repr_nodup : NoDup xs.*1;
  repr_nodes : dseg (heap s) 0 xs 0 }.

Lemma head_addr_app xs ys n : head_addr (xs ++ ys) n = head_addr xs (head_addr ys n).
Proof. by destruct xs. Qed.

Lemma last_addr_app p xs ys : last_addr p (xs ++ ys) = last_addr (last_addr p xs) ys.
Proof. revert p. induction xs as [|x xs IH]; intros p; [done|]. apply IH. Qed.

Lemma dseg_app h p xs ys n :
  dseg h p (xs ++ ys) n <-> dseg h p xs (head_addr ys n) /\ dseg h (last_addr p xs) ys n.
Proof.
  revert p. induction xs as [|x xs IH]; intros p; cbn; [tauto|].
  rewrite IH, head_addr_app. tauto.
Qed.

Lemma dseg_frame h h' p xs n :
  (forall a, a ∈ xs.*1 -> h' !! a = h !! a) -> dseg h p xs n -> dseg h' p xs n.
Proof.
  revert p. induction xs as [|x xs IH]; intros p Hf; cbn; [done|]. intros (?&?&?).
  split; [done|]. split; [rewrite Hf; [done|left]|]. apply IH; [|done]. intros. apply Hf. by right.
Qed.

Lemma dseg_insert h p xs n a v : a ∉ xs.*1 -> dseg h p xs n -> dseg (<[a := v]> h) p xs n.
Proof.
  intros Ha Hd. apply (dseg_frame h); [|done]. intros b Hb. apply lookup_insert_ne. intros ->. contradiction.
Qed.

Lemma dseg_delete h p xs n a : a ∉ xs.*1 -> dseg h p xs n -> dseg (delete a h) p xs n.
Proof.
  intros Ha Hd. apply (dseg_frame h); [|done]. intros b Hb. apply lookup_delete_ne. intros ->. contradiction.
Qed.

Lemma dseg_lookup h p xs n a : dseg h p xs n -> a ∈ xs.*1 -> a <> 0 /\ is_Some (h !! a).
Proof.
  revert p. induction xs as [|x xs IH]; intros p; [set_solver|]. cbn. intros (?&?&?) Ha.
  apply elem_of_cons in Ha as [->|]; [eauto|]. by eapply IH.
Qed.

Lemma dseg_fresh h p xs n a : dseg h p xs n -> h !! a = None -> a ∉ xs.*1.
Proof. intros Hd Ha Hin. destruct (dseg_lookup _ _ _ _ _ Hd Hin) as (_&v&?). congruence. Qed.

Lemma dseg_size h p xs n : dseg h p xs n -> NoDup xs.*1 -> (length xs <= size h)%nat.
Proof.
  intros Hd Hn. rewrite <- (length_fmap fst), <- (size_list_to_set (C := gset Z)), <- size_dom by done.
  apply subseteq_size. intros a Ha. apply elem_of_list_to_set in Ha.
  apply elem_of_dom. by eapply dseg_lookup.
Qed.

Lemma head_addr_0 h p xs n : dseg h p xs n -> xs <> [] -> head_addr xs n <> 0.
Proof. destruct xs; cbn; [done|tauto]. Qed.

(** ** Running the operations *)

Lemma load_eq l h a p n : h !! p = Some n -> load p (mkLL l h a) = Done (n, mkLL l h a).
Proof. intros Hp. unfold load. cbn. by rewrite Hp. Qed.

Lemma set_prev_eq l h a p q n :
  h !! p = Some n -> set_prev p q (mkLL l h a) = Done ((), mkLL l (<[p := mkNode q (next n) (key n) (data n)]> h) a).
Proof. intros Hp. unfold set_prev, update. cbn. by rewrite Hp. Qed.

Lemma set_next_eq l h a p q n :
  h !! p = Some n -> set_next p q (mkLL l h a) = Done ((), mkLL l (<[p := mkNode (prev n) q (key n) (data n)]> h) a).
Proof. intros Hp. unfold set_next, update. cbn. by rewrite Hp. Qed.

Lemma set_key_eq l h a p k n :
  h !! p = Some n -> set_key p k (mkLL l h a) = Done ((), mkLL l (<[p := mkNode (prev n) (next n) k (data n)]> h) a).
Proof. intros Hp. unfold set_key, update. cbn. by rewrite Hp. Qed.

Lemma kfree_node_eq l h a p n :
  p <> 0 -> h !! p = Some n -> kfree_node p (mkLL l h a) = Done ((), mkLL l (delete p h) a).
Proof. intros H0 Hp. unfold kfree_node. cbn. rewrite Hp. destruct (Z.eqb_spec p 0); done. Qed.

Lemma create_node_eq l h a ans k d :
  a <> 0 -> linked_list_create_node k d (mkLL l h (a :: ans)) = Done (a, mkLL l (<[a := mkNode 0 0 k d]> h) ans).
Proof.
  intros H0. unfold linked_list_create_node, kmalloc_node. krun. cbn [answers the_list heap].
  rewrite (proj2 (Z.eqb_neq a 0)) by done. krun.
  erewrite set_prev_eq by apply lookup_insert_eq. krun.
  erewrite set_next_eq by apply lookup_insert_eq. krun.
  erewrite set_key_eq by apply lookup_insert_eq. krun.
  unfold set_data, update. cbn [heap]. rewrite lookup_insert_eq. krun.
  cbn [prev next key data the_list answers]. by rewrite !insert_insert_eq.
Qed.

Lemma create_node_nomem l h ans k d :
  head ans = Some 0 \/ ans = [] -> h !! 0 = None -> linked_list_create_node k d (mkLL l h ans) = Panic.
Proof.
  intros Ha H0. unfold linked_list_create_node, kmalloc_node. krun.
  destruct Ha as [Ha| ->]; [destruct ans; [done|injection Ha as ->]|]; cbn; krun;
    unfold set_prev, update; cbn; by rewrite H0.
Qed.

Lemma acquire_eq t f l n lk h a :
  idle lk -> acquire t (mkLL (mkList f l n (Some lk)) h a) = Done ((), mkLL (mkList f l n (Some (held_by t lk))) h a).
Proof.
  intros (Hb&Ho). unfold acquire. krun. cbn [the_list ll_lock]. kred.
  by rewrite lock_acquire_free by done.
Qed.

Lemma release_eq t f l n lk h a :
  release t (mkLL (mkList f l n (Some (held_by t lk))) h a) = Done ((), mkLL (mkList f l n (Some (freed lk))) h a).
Proof.
  unfold release. krun. cbn [the_list ll_lock]. kred. by rewrite lock_release_held.
Qed.

(** Runs an operation; lookups in the heap are solved by [lookup_solve]. *)
Ltac lookup_solve := simplify_map_eq; done.
Ltac llstep :=
  krun;
  first
    [ match goal with H : ?p <> 0 |- context [?p =? 0] => rewrite (proj2 (Z.eqb_neq p 0) H) end
    | rewrite release_eq
    | rewrite acquire_eq by assumption
    | erewrite load_eq by lookup_solve
    | erewrite set_prev_eq by lookup_solve
    | erewrite set_next_eq by lookup_solve
    | erewrite set_key_eq by lookup_solve
    | erewrite kfree_node_eq by lookup_solve
    | rewrite create_node_eq by assumption
    | progress unfold set_first, set_last, set_length, on_list, rounds
    | progress cbn [the_list heap answers first last_ length_ ll_lock prev next key data head_addr last_addr] ];
  krun.
Ltac llrun := repeat llstep.

(** Relinking the end of a segment, as the operations do it. *)
Lemma dseg_next h p l y n n' :
  NoDup (l ++ [y]).*1 -> dseg h p (l ++ [y]) n ->
  dseg (<[addr y := mkNode (last_addr p l) n' (ikey y) (idata y)]> h) p (l ++ [y]) n'.
Proof.
  rewrite fmap_app, NoDup_app, !dseg_app. cbn. intros (_&Hnd&_) (Hl&Hy0&_&_).
  split; [|by rewrite lookup_insert_eq].
  apply dseg_insert; [|done]. intros Hin. by apply (Hnd _ Hin), list_elem_of_singleton.
Qed.

Lemma dseg_prev h p p' y l n :
  NoDup (y :: l).*1 -> dseg h p (y :: l) n ->
  dseg (<[addr y := mkNode p' (head_addr l n) (ikey y) (idata y)]> h) p' (y :: l) n.
Proof.
  cbn. rewrite NoDup_cons. intros (Hnd&_) (Hy0&_&Hl). rewrite lookup_insert_eq.
  split; [done|]. split; [done|]. by apply dseg_insert.
Qed.

Lemma link_next_eq f l len k h ans l1 q n :
  dseg h 0 l1 n -> NoDup l1.*1 -> f = head_addr l1 n ->
  exists h',
    link_next (last_addr 0 l1) q (mkLL (mkList f l len k) h ans) = Done ((), mkLL (mkList (head_addr l1 q) l len k) h' ans) /\
    dseg h' 0 l1 q /\ (forall b, b ∉ l1.*1 -> h' !! b = h !! b).
Proof.
  intros Hd Hnd ->. unfold link_next. destruct l1 as [|y l1 _] using rev_ind.
  - exists h. done.
  - rewrite last_addr_app. cbn [last_addr]. pose proof Hd as Hd'. apply dseg_app in Hd' as (Hl&Hy0&Hy&_).
    rewrite (proj2 (Z.eqb_neq (addr y) 0)) by done. cbn [negb].
    erewrite set_next_eq by exact Hy. cbn [prev next key data]. rewrite !head_addr_app. cbn [head_addr].
    eexists. split; [reflexivity|]. split; [by eapply dseg_next|].
    intros b Hb. apply lookup_insert_ne. intros <-. apply Hb. rewrite fmap_app. set_solver.
Qed.

Lemma link_prev_eq f l len k h ans l2 p q :
  dseg h p l2 0 -> NoDup l2.*1 -> l = last_addr p l2 ->
  exists h',
    link_prev (head_addr l2 0) q (mkLL (mkList f l len k) h ans) = Done ((), mkLL (mkList f (last_addr q l2) len k) h' ans) /\
    dseg h' q l2 0 /\ (forall b, b ∉ l2.*1 -> h' !! b = h !! b).
Proof.
  intros Hd Hnd ->. unfold link_prev. destruct l2 as [|y l2]; [by exists h|]. cbn [head_addr last_addr].
  destruct Hd as (Hy0&Hy&Hl). rewrite (proj2 (Z.eqb_neq (addr y) 0)) by done. cbn [negb].
  erewrite set_prev_eq by exact Hy. cbn [prev next key data].
  eexists. split; [reflexivity|]. split; [by eapply dseg_prev|].
  intros b Hb. apply lookup_insert_ne. set_solver.
Qed.

Definition decr (x : item) : item := (addr x, (s32 (ikey x - 1), idata x)).

Lemma addrs_decr xs : (decr <$> xs).*1 = xs.*1.
Proof. rewrite <- list_fmap_compose. reflexivity. Qed.

Lemma head_addr_decr xs n : head_addr (decr <$> xs) n = head_addr xs n.
Proof. by destruct xs. Qed.

Lemma last_addr_decr p xs : last_addr p (decr <$> xs) = last_addr p xs.
Proof. revert p. induction xs; intros; cbn; auto. Qed.

Lemma renumber_eq fuel l h ans p xs :
  dseg h p xs 0 -> NoDup xs.*1 -> (length xs < fuel)%nat ->
  exists h', renumber fuel (head_addr xs 0) (mkLL l h ans) = Done ((), mkLL l h' ans) /\
    dseg h' p (decr <$> xs) 0 /\ (forall b, b ∉ xs.*1 -> h' !! b = h !! b).
Proof.
  revert fuel h p. induction xs as [|x xs IH]; intros [|fuel] h p Hd Hnd Hf; cbn in Hf; try lia.
  - exists h. done.
  - cbn in Hd, Hnd. destruct Hd as (Hx0&Hx&Hd). apply NoDup_cons in Hnd as (Hnin&Hnd).
    cbn [renumber head_addr]. llrun.
    destruct (IH fuel (<[addr x := mkNode p (head_addr xs 0) (s32 (ikey x - 1)) (idata x)]> h) (addr x)) as (h'&->&Hd'&Hfr);
      [by apply dseg_insert|done|lia|].
    exists h'. split; [done|]. cbn. rewrite head_addr_decr. split.
    + split; [done|]. split; [|done]. rewrite Hfr by done. by rewrite lookup_insert_eq.
    + intros b Hb. apply not_elem_of_cons in Hb as (?&?). rewrite Hfr by done. by apply lookup_insert_ne.
Qed.

Lemma print_loop_eq fuel s p xs :
  dseg (heap s) p xs 0 -> (length xs < fuel)%nat ->
  print_loop fuel (head_addr xs 0) s = Done (xs.*2, s).
Proof.
  destruct s as [l h a]. revert fuel p.
  induction xs as [|x xs IH]; intros [|fuel] p Hd Hf; cbn in Hf; try lia; [done|].
  destruct Hd as (Hx0&Hx&Hd). cbn [print_loop head_addr heap] in *. llrun.
  rewrite (IH fuel (addr x)) by (done || lia). krun. by destruct x as [? [? ?]].
Qed.

(** [find_loop] stops at the last of the items with smaller keys. *)
Lemma find_loop_eq fuel s p k x l1 l2 :
  dseg (heap s) p (x :: l1 ++ l2) 0 -> (length l1 < fuel)%nat ->
  Forall (fun y => ikey y < k) l1 -> (forall y, head l2 = Some y -> k <= ikey y) ->
  find_loop fuel k (addr x) s = Done (last_addr (addr x) l1, s).
Proof.
  destruct s as [l h a]. revert fuel p x.
  induction l1 as [|y l1 IH]; intros [|fuel] p x Hd Hf Hk Hh; cbn in Hf; try lia;
    cbn in Hd; destruct Hd as (Hx0&Hx&Hd); cbn [find_loop]; unfold goes_on; llrun.
  - destruct l2 as [|y l2]; cbn in Hd |- *; [by llrun|]. destruct Hd as (Hy0&Hy&_). llrun.
    specialize (Hh y eq_refl). rewrite (proj2 (Z.ltb_ge _ _)) by lia. by llrun.
  - pose proof Hd as (Hy0&Hy&_). apply Forall_cons in Hk as (Hky&Hk). cbn [app head_addr] in *. llrun.
    rewrite (proj2 (Z.ltb_lt _ _)) by lia. eapply IH; try done. lia.
Qed.

(** ** What the operations do to the items *)

(** The operation returns [r], the items are [xs'] then, nobody holds the list's
    lock, the nodes other than those in [mine] are untouched, and those of [mine]
    that are no longer in the list have been freed. *)
Definition runs_to {A} (m : K llst A) (s : llst) (r : A) (xs' : list item) (lk : lock) (mine ans : list Z) : Prop :=
  exists s', m s = Done (r, s') /\ repr s' xs' (freed lk) /\ answers s' = ans /\
    (forall b, b ∉ mine -> heap s' !! b = heap s !! b) /\
    (forall b, b ∈ mine -> b ∉ xs'.*1 -> heap s' !! b = None).

Lemma not_elem_of_addrs_app b (l1 l2 : list item) : b ∉ (l1 ++ l2).*1 <-> (b ∉ l1.*1) /\ (b ∉ l2.*1).
Proof. rewrite fmap_app. apply not_elem_of_app. Qed.

Ltac unchanged :=
  repeat match goal with
  | H : _ ∉ _ :: _ |- _ => apply not_elem_of_cons in H as (?&?)
  | H : _ ∉ _ ++ _ |- _ => apply not_elem_of_app in H as (?&?)
  | H : forall c, c ∉ _ -> _ !! c = _ |- _ => rewrite H by assumption
  end;
  repeat first [rewrite lookup_insert_ne by (done || congruence) | rewrite lookup_delete_ne by (done || congruence)];
  try done.
Ltac framed := let b := fresh "b" in let Hb := fresh "Hb" in cbn; intros b Hb; unchanged.

Ltac gone :=
  let b := fresh "b" in let H1 := fresh in let H2 := fresh in
  intros b H1 H2; exfalso; apply H2; exact H1.

Ltac head_gone :=
  let b := fresh "b" in let H1 := fresh in let H2 := fresh in
  cbn; intros b H1 H2; apply elem_of_cons in H1 as [->|H1]; [apply lookup_delete_eq|contradiction].

Ltac nodes :=
  repeat first
    [ done
    | apply dseg_insert; [assumption|]
    | apply dseg_delete; [assumption|]
    | rewrite lookup_insert_eq
    | rewrite lookup_insert_ne by (done || congruence)
    | split ].

Section Operations.
Variable t : Z.

Lemma s32_S n : s32 (s32 (Z.of_nat n) + 1) = s32 (Z.of_nat (S n)).
Proof. rewrite s32_add. f_equal. lia. Qed.

Lemma s32_pred n : s32 (s32 (Z.of_nat (S n)) - 1) = s32 (Z.of_nat n).
Proof. rewrite s32_sub. f_equal. lia. Qed.

Definition prepended (a d : Z) (xs : list item) : list item :=
  (a, (match xs with [] => 0 | x :: _ => s32 (ikey x - 1) end, d)) :: xs.

Lemma prepend_eq s xs lk a ans d :
  repr s xs lk -> idle lk -> answers s = a :: ans -> a <> 0 -> heap s !! a = None ->
  runs_to (linked_list_prepend t d) s () (prepended a d xs) lk (a :: xs.*1) ans.
Proof.
  intros [Hf Hl Hn Hk Hnd Hd] Hi Ha Ha0 Hfresh.
  destruct s as [[f l n k] h aa]; cbn in *; subst.
  pose proof (dseg_fresh _ _ _ _ _ Hd Hfresh) as Hnot.
  unfold runs_to, linked_list_prepend. destruct xs as [|x xs]; cbn in *.
  - llrun. eexists. split; [reflexivity|]. split; [|split; [done|split; [framed|gone]]].
    constructor; cbn; try done; [apply NoDup_singleton|nodes].
  - destruct Hd as (Hx0&Hx&Hd). pose proof (proj1 (not_elem_of_cons _ _ _) Hnot) as (Hne&Hnot').
    pose proof (proj1 (NoDup_cons _ _) Hnd) as (Hxn&_).
    llrun. eexists. split; [reflexivity|]. split; [|split; [done|split; [framed|gone]]].
    constructor; cbn; try done; [apply s32_S|by apply NoDup_cons|nodes; tauto].
Qed.

Lemma remove_head_eq s xs lk :
  repr s xs lk -> idle lk ->
  runs_to (linked_list_remove_head t) s
    (match xs with [] => (0, None) | x :: _ => (idata x, Some (ikey x)) end) (tail xs) lk xs.*1 (answers s).
Proof.
  intros [Hf Hl Hn Hk Hnd Hd] Hi. destruct s as [[f l n k] h ans]; cbn in *; subst.
  unfold runs_to, linked_list_remove_head. destruct xs as [|x xs]; cbn in *.
  - llrun. eexists. split; [reflexivity|]. split; [done|]. split; [done|]. split; [framed|gone].
  - destruct Hd as (Hx0&Hx&Hd). apply NoDup_cons in Hnd as (Hnin&Hnd). llrun.
    destruct xs as [|y xs]; cbn in *.
    + llrun. eexists. split; [reflexivity|]. split; [|split; [done|split; [framed|head_gone]]].
      constructor; cbn; done.
    + destruct Hd as (Hy0&Hy&Hd). apply not_elem_of_cons in Hnin as (Hxy&Hnin).
      apply NoDup_cons in Hnd as (Hnin'&Hnd). llrun.
      eexists. split; [reflexivity|]. split; [|split; [done|split; [framed|head_gone]]].
      constructor; cbn; try done; [by rewrite s32_pred|by apply NoDup_cons|].
      rewrite lookup_delete_ne by done. nodes.
Qed.

(** Where an item goes: after the items with smaller keys, and after the first item
    whatever happens if that one's key is the same. *)
Fixpoint ins_after (x : item) (xs : list item) : list item :=
  match xs with
  | [] => [x]
  | y :: r => if ikey y <? ikey x then y :: ins_after x r else x :: xs
  end.
Definition ins (x : item) (xs : list item) : list item :=
  match xs with
  | [] => [x]
  | y :: r => if ikey y >? ikey x then x :: xs else y :: ins_after x r
  end.

Lemma ins_after_split x xs :
  exists l1 l2, xs = l1 ++ l2 /\ ins_after x xs = l1 ++ x :: l2 /\
    Forall (fun y => ikey y < ikey x) l1 /\ (forall y, head l2 = Some y -> ikey x <= ikey y).
Proof.
  induction xs as [|y xs (l1&l2&->&Hi&Hl1&Hl2)]; cbn; [by exists [], []|].
  destruct (Z.ltb_spec (ikey y) (ikey x)).
  - exists (y :: l1), l2. rewrite Hi. auto using Forall_cons_2.
  - exists [], (y :: l1 ++ l2). split; [done|]. split; [done|]. split; [constructor|]. by intros ? [= <-].
Qed.

Lemma ins_perm x xs : ins x xs ≡ₚ x :: xs.
Proof.
  destruct xs as [|y xs]; cbn; [done|]. destruct (_ >? _); [done|].
  destruct (ins_after_split x xs) as (l1&l2&->&->&_). rewrite <- Permutation_middle. by constructor.
Qed.

(** The new node after a nonempty segment [l0 ++ [r]] and before [l2]. *)
Lemma link_after_eq f n lk h ans l0 r l2 a k d :
  NoDup (l0 ++ r :: l2).*1 -> a ∉ (l0 ++ r :: l2).*1 -> a <> 0 ->
  h !! a = Some (mkNode 0 0 k d) -> dseg h 0 (l0 ++ r :: l2) 0 ->
  exists h',
    link_after a (addr r) (mkLL (mkList f (last_addr (addr r) l2) n lk) h ans) =
      Done ((), mkLL (mkList f (last_addr a l2) n lk) h' ans) /\
    dseg h' 0 (l0 ++ r :: (a, (k, d)) :: l2) 0 /\
    (forall b, b ∉ a :: (l0 ++ r :: l2).*1 -> h' !! b = h !! b).
Proof.
  rewrite fmap_app, NoDup_app. cbn [fmap list_fmap]. rewrite !dseg_app. cbn [dseg head_addr].
  intros (_&Hl0&Hnd) Ha Ha0 Hnew (Hd0&Hr0&Hr&Hd2).
  apply not_elem_of_app in Ha as (Ha&Har). apply not_elem_of_cons in Har as (Har&Ha2).
  apply NoDup_cons in Hnd as (Hr2&Hnd2).
  assert (addr r ∉ l0.*1) by (intros Hin; apply (Hl0 _ Hin); left).
  unfold link_after. llrun. destruct l2 as [|y l2]; cbn [head_addr] in *.
  - llrun. eexists. split; [reflexivity|]. split; [apply dseg_app; cbn; nodes|framed].
  - cbn [dseg] in Hd2. destruct Hd2 as (Hy0&Hy&Hd2).
    cbn [fmap list_fmap] in *. apply not_elem_of_cons in Ha2 as (Hay&Ha2). apply not_elem_of_cons in Hr2 as (Hry&Hr2).
    apply NoDup_cons in Hnd2 as (Hy2&_).
    assert (addr y ∉ l0.*1) by (intros Hin; apply (Hl0 _ Hin); right; left).
    llrun. eexists. split; [reflexivity|]. split; [apply dseg_app; cbn; nodes|framed].
Qed.

Lemma last_item x (l : list item) : exists l0 r, x :: l = l0 ++ [r] /\ last_addr (addr x) l = addr r.
Proof.
  destruct l as [|y l _] using rev_ind; [by exists [], x|].
  exists (x :: l), y. by rewrite last_addr_app.
Qed.

Lemma insert_eq s xs lk a ans k d :
  repr s xs lk -> idle lk -> answers s = a :: ans -> a <> 0 -> heap s !! a = None ->
  runs_to (linked_list_insert t k d) s () (ins (a, (k, d)) xs) lk (a :: xs.*1) ans.
Proof.
  intros Hr Hi Ha Ha0 Hfresh.
  pose proof (dseg_size _ _ _ _ (repr_nodes _ _ _ Hr) (repr_nodup _ _ _ Hr)) as Hsize.
  destruct Hr as [Hf Hl Hn Hk Hnd Hd].
  destruct s as [[f l n lk'] h aa]; cbn in *; subst.
  pose proof (dseg_fresh _ _ _ _ _ Hd Hfresh) as Hnot.
  unfold runs_to, linked_list_insert. destruct xs as [|x xs]; cbn in *.
  { llrun. eexists. split; [reflexivity|]. split; [|split; [done|split; [framed|gone]]].
    constructor; cbn; try done; [apply NoDup_singleton|nodes]. }
  pose proof Hd as (Hx0&Hx&Hd').
  pose proof (proj1 (not_elem_of_cons _ _ _) Hnot) as (Hne&Hnot').
  pose proof (proj1 (NoDup_cons _ _) Hnd) as (Hxn&_).
  llrun. destruct (ikey x >? k) eqn:Hxk.
  - llrun. eexists. split; [reflexivity|]. split; [|split; [done|split; [framed|gone]]].
    constructor; cbn; try done; [apply s32_S|by apply NoDup_cons|nodes].
  - destruct (ins_after_split (a, (k, d)) xs) as (l1&l2&->&->&Hl1&Hl2). cbn in Hl1, Hl2. change (ikey (a, (k, d))) with k in *.
    llrun. rewrite (find_loop_eq _ _ 0 k x l1 l2); cbn [heap].
    2: by apply (dseg_insert h 0 (x :: l1 ++ l2)).
    2: { rewrite map_size_insert_None by done. rewrite length_app in Hsize. lia. }
    2-3: done.
    destruct (last_item x l1) as (l0&r&Hsplit&Hlast). rewrite last_addr_app, Hlast.
    change (dseg h 0 ((x :: l1) ++ l2) 0) in Hd. change (addr x :: (l1 ++ l2).*1) with ((x :: l1) ++ l2).*1 in *.
    rewrite Hsplit, <- app_assoc in *. cbn [app] in *.
    destruct (link_after_eq (addr x) (s32 (Z.of_nat (S (length (l1 ++ l2))))) (Some (held_by t lk))
      (<[a := mkNode 0 0 k d]> h) ans l0 r l2 a k d) as (h'&Hrun&Hd''&Hfr); try done.
    { apply lookup_insert_eq. }
    { by apply dseg_insert. }
    krun. rewrite Hrun. llrun. eexists. split; [reflexivity|].
    assert (E : x :: l1 ++ (a, (k, d)) :: l2 = l0 ++ r :: (a, (k, d)) :: l2).
    { change (x :: l1 ++ (a, (k, d)) :: l2) with ((x :: l1) ++ (a, (k, d)) :: l2).
      by rewrite Hsplit, <- app_assoc. }
    assert (Hp : l0 ++ r :: (a, (k, d)) :: l2 ≡ₚ (a, (k, d)) :: l0 ++ r :: l2).
    { rewrite <- !Permutation_middle. apply Permutation_swap. }
    rewrite E. split; [|split; [done|split]].
    + constructor; cbn.
      * rewrite head_addr_app. cbn. apply (f_equal (fun l => head_addr l 0)) in Hsplit.
        rewrite head_addr_app in Hsplit. exact Hsplit.
      * rewrite last_addr_app. reflexivity.
      * rewrite s32_S, Hp. cbn. rewrite !length_app in *. cbn.
        apply (f_equal length) in Hsplit. rewrite length_app in Hsplit. cbn in Hsplit. do 2 f_equal. lia.
      * done.
      * rewrite Hp. cbn. by apply NoDup_cons.
      * done.
    + intros b Hb. cbn. rewrite Hfr by exact Hb.
      apply lookup_insert_ne. intros <-. apply Hb. left.
    + intros b Hb Hnb. exfalso. apply Hnb. rewrite Hp. exact Hb.
Qed.

Lemma remove_eq s l1 x l2 lk :
  repr s (l1 ++ x :: l2) lk -> idle lk ->
  runs_to (linked_list_remove t (addr x)) s () (decr <$> l1 ++ l2) lk (l1 ++ x :: l2).*1 (answers s).
Proof.
  intros Hr Hi.
  pose proof (dseg_size _ _ _ _ (repr_nodes _ _ _ Hr) (repr_nodup _ _ _ Hr)) as Hsize.
  destruct Hr as [Hf Hl Hn Hk Hnd Hd].
  destruct s as [[f l n lk'] h ans]; cbn in *; subst.
  rewrite fmap_app in Hnd. cbn in Hnd. rewrite NoDup_app in Hnd. destruct Hnd as (Hnd1&Hdisj&Hnd2).
  apply NoDup_cons in Hnd2 as (Hx2&Hnd2).
  assert (Hx1 : addr x ∉ l1.*1) by (intros Hin; apply (Hdisj _ Hin); left).
  apply dseg_app in Hd as (Hd1&Hx0&Hx&Hd2). cbn [head_addr] in *.
  unfold runs_to, linked_list_remove. llrun.
  destruct (link_next_eq (head_addr (l1 ++ x :: l2) 0) (last_addr 0 (l1 ++ x :: l2)) (s32 (Z.of_nat (length (l1 ++ x :: l2))))
    (Some (held_by t lk)) h ans l1 (head_addr l2 0) (addr x)) as (h1&->&Hd1'&Hfr1); [done|done|by rewrite head_addr_app|].
  assert (Hx' : h1 !! addr x = Some (mkNode (last_addr 0 l1) (head_addr l2 0) (ikey x) (idata x))) by (by rewrite Hfr1).
  llrun.
  destruct (link_prev_eq (head_addr l1 (head_addr l2 0)) (last_addr 0 (l1 ++ x :: l2)) (s32 (Z.of_nat (length (l1 ++ x :: l2))))
    (Some (held_by t lk)) h1 ans l2 (addr x) (last_addr 0 l1)) as (h2&->&Hd2'&Hfr2).
  { apply (dseg_frame h); [|done]. intros b Hb. apply Hfr1. intros Hb'. apply (Hdisj _ Hb'). by right. }
  { done. }
  { by rewrite last_addr_app. }
  llrun.
  assert (Hd : dseg h2 0 (l1 ++ l2) 0).
  { apply dseg_app. split; [|done]. apply (dseg_frame h1); [|done].
    intros b Hb. apply Hfr2. intros Hb'. apply (Hdisj _ Hb). by right. }
  assert (Hnd : NoDup (l1 ++ l2).*1).
  { rewrite fmap_app, NoDup_app. split; [done|]. split; [|done]. intros b Hb Hb'. apply (Hdisj _ Hb). by right. }
  assert (Hx12 : addr x ∉ (l1 ++ l2).*1) by (by apply not_elem_of_addrs_app).
  destruct (renumber_eq (S (size h2)) (mkList (head_addr l1 (head_addr l2 0)) (last_addr (last_addr 0 l1) l2)
    (s32 (Z.of_nat (length (l1 ++ x :: l2)))) (Some (held_by t lk))) h2 ans 0 (l1 ++ l2) Hd Hnd) as (h3&Hren&Hd3&Hfr3).
  { pose proof (dseg_size _ _ _ _ Hd Hnd). lia. }
  rewrite head_addr_app in Hren. rewrite Hren.
  assert (Hx3 : h3 !! addr x = Some (mkNode (last_addr 0 l1) (head_addr l2 0) (ikey x) (idata x)))
    by (by rewrite Hfr3, Hfr2).
  llrun. eexists. split; [reflexivity|]. split; [|split; [done|split]].
  - constructor; cbn.
    + by rewrite head_addr_decr, head_addr_app.
    + by rewrite last_addr_decr, last_addr_app.
    + rewrite length_fmap, !length_app. cbn. rewrite Nat.add_succ_r. apply s32_pred.
    + done.
    + by rewrite addrs_decr.
    + apply dseg_delete; [by rewrite addrs_decr|done].
  - intros b. rewrite not_elem_of_addrs_app. cbn. rewrite not_elem_of_cons. intros (?&?&?).
    rewrite lookup_delete_ne by done. rewrite Hfr3 by (by apply not_elem_of_addrs_app). by rewrite Hfr2, Hfr1.
  - intros b. rewrite addrs_decr, fmap_app, fmap_app. cbn. rewrite !elem_of_app, elem_of_cons.
    intros Hb Hnb. assert (b = addr x) as -> by tauto. apply lookup_delete_eq.
Qed.

Lemma remove_null_eq s xs lk :
  repr s xs lk -> idle lk -> runs_to (linked_list_remove t 0) s () xs lk xs.*1 (answers s).
Proof.
  intros [Hf Hl Hn Hk Hnd Hd] Hi. destruct s as [[f l n k] h ans]; cbn in *; subst.
  unfold runs_to, linked_list_remove. llrun.
  eexists. split; [reflexivity|]. split; [done|]. split; [done|]. split; [framed|gone].
Qed.

Lemma print_eq s xs lk :
  repr s xs lk -> idle lk ->
  runs_to (linked_list_printlist t) s (xs.*2, s32 (Z.of_nat (length xs))) xs lk xs.*1 (answers s).
Proof.
  intros Hr Hi.
  pose proof (dseg_size _ _ _ _ (repr_nodes _ _ _ Hr) (repr_nodup _ _ _ Hr)) as Hsize.
  destruct Hr as [Hf Hl Hn Hk Hnd Hd]. destruct s as [[f l n k] h ans]; cbn in *; subst.
  unfold runs_to, linked_list_printlist. llrun. rewrite (print_loop_eq _ _ 0) by (done || cbn; lia). llrun.
  eexists. split; [reflexivity|]. split; [done|]. split; [done|]. split; [framed|gone].
Qed.

Lemma destroy_loop_eq fuel k h ans xs :
  dseg h 0 xs 0 -> NoDup xs.*1 -> (length xs < fuel)%nat ->
  exists h',
    destroy_loop fuel (mkLL (mkList (head_addr xs 0) (last_addr 0 xs) (s32 (Z.of_nat (length xs))) k) h ans) =
      Done ((), mkLL (mkList 0 0 0 k) h' ans) /\
    (forall b, b ∉ xs.*1 -> h' !! b = h !! b) /\ (forall b, b ∈ xs.*1 -> h' !! b = None).
Proof.
  revert fuel h. induction xs as [|x xs IH]; intros [|fuel] h Hd Hnd Hf; cbn in Hf; try lia.
  { exists h. split; [done|]. split; [done|]. intros b Hb. by apply elem_of_nil in Hb. }
  destruct Hd as (Hx0&Hx&Hd). cbn in Hnd. apply NoDup_cons in Hnd as (Hxn&Hnd).
  cbn [destroy_loop head_addr last_addr length]. llrun.
  destruct xs as [|y xs].
  - llrun. destruct (IH fuel (delete (addr x) h)) as (h'&Hrun&Hfr&_); [done|done|cbn in *; lia|].
    cbn in Hrun |- *. rewrite delete_insert_eq. exists h'. split; [exact Hrun|]. split.
    + intros b Hb. apply not_elem_of_cons in Hb as (?&?). rewrite Hfr by done. by apply lookup_delete_ne.
    + intros b Hb. apply list_elem_of_singleton in Hb as ->. rewrite Hfr; [apply lookup_delete_eq|done].
  - pose proof Hd as (Hy0&Hy&Hd'). cbn in Hxn. pose proof (proj1 (not_elem_of_cons _ _ _) Hxn) as (Hxy&Hxn').
    pose proof (proj1 (NoDup_cons _ _) Hnd) as (Hyn&_). llrun.
    set (h1 := delete (addr x) _).
    destruct (IH fuel h1) as (h'&Hrun&Hfr&Hgone); [|done|cbn in *; lia|].
    { subst h1. cbn. rewrite lookup_delete_ne by done. nodes. }
    cbn in Hrun |- *. rewrite s32_pred. exists h'. split; [exact Hrun|]. split.
    + intros b Hb. apply not_elem_of_cons in Hb as (?&Hb). rewrite Hfr by done.
      apply not_elem_of_cons in Hb as (?&?). subst h1. unchanged.
    + intros b Hb. apply elem_of_cons in Hb as [->|Hb]; [|by apply Hgone].
      rewrite Hfr by done. apply lookup_delete_eq.
Qed.

Lemma destroy_eq s xs lk :
  repr s xs lk -> idle lk -> lk_wchan lk = [] ->
  exists s', linked_list_destroy t s = Done ((), s') /\
    (forall b, heap s' !! b = if decide (b ∈ xs.*1) then None else heap s !! b).
Proof.
  intros Hr Hi Hw.
  pose proof (dseg_size _ _ _ _ (repr_nodes _ _ _ Hr) (repr_nodup _ _ _ Hr)) as Hsize.
  destruct Hr as [Hf Hl Hn Hk Hnd Hd]. destruct s as [[f l n k] h ans]; cbn in *; subst.
  unfold linked_list_destroy. llrun.
  destruct (destroy_loop_eq (S (size h)) (Some (held_by t lk)) h ans xs Hd Hnd) as (h'&Hrun&Hfr&Hgone); [lia|].
  rewrite Hrun. llrun. unfold lock_destroy, lock_do_i_hold. cbn [lk_owner freed lk_wchan]. rewrite Hw.
  rewrite bool_decide_false by done. kred. eexists. split; [reflexivity|].
  intros b. cbn. case_decide; auto.
Qed.
End Operations.

(** ** The abstract list

    The operations on the items alone, given the addresses [kmalloc] answers with.
    [base] is the rest of the heap. *)
Inductive ll_op : Type :=
  | Prepend (d : Z)
  | Insert (k d : Z)
  | RemoveHead
  | Remove (node : Z)
  | Printlist.

Inductive ll_ret : Type :=
  | RNone
  | RHead (d : Z) (k : option Z)
  | RList (l : list (Z * Z)) (n : Z).

Definition run_op (t : Z) (op : ll_op) : K llst ll_ret :=
  match op with
  | Prepend d => linked_list_prepend t d;; mret RNone
  | Insert k d => linked_list_insert t k d;; mret RNone
  | RemoveHead => '(d, k) ← linked_list_remove_head t; mret (RHead d k)
  | Remove node => linked_list_remove t node;; mret RNone
  | Printlist => '(l, n) ← linked_list_printlist t; mret (RList l n)
  end.

Fixpoint run_ops (ops : list (Z * ll_op)) : K llst (list ll_ret) :=
  match ops with
  | [] => mret []
  | (t, op) :: ops => r ← run_op t op; rs ← run_ops ops; mret (r :: rs)
  end.

Section Abstract.
Variable base : gmap Z Linked_List_Node.

(** [kmalloc] gives out memory that nobody uses. *)
Definition free_for (a : Z) (xs : list item) : Prop := a <> 0 /\ (a ∉ xs.*1) /\ base !! a = None.

Inductive abs_step : ll_op -> list item * list Z -> ll_ret -> list item * list Z -> Prop :=
  | abs_prepend d xs a ans :
      free_for a xs -> abs_step (Prepend d) (xs, a :: ans) RNone (prepended a d xs, ans)
  | abs_insert k d xs a ans :
      free_for a xs -> abs_step (Insert k d) (xs, a :: ans) RNone (ins (a, (k, d)) xs, ans)
  | abs_remove_head_nil ans : abs_step RemoveHead ([], ans) (RHead 0 None) ([], ans)
  | abs_remove_head x xs ans :
      abs_step RemoveHead (x :: xs, ans) (RHead (idata x) (Some (ikey x))) (xs, ans)
  | abs_remove_null xs ans : abs_step (Remove 0) (xs, ans) RNone (xs, ans)
  | abs_remove l1 x l2 ans :
      addr x <> 0 -> abs_step (Remove (addr x)) (l1 ++ x :: l2, ans) RNone (decr <$> l1 ++ l2, ans)
  | abs_print xs ans : abs_step Printlist (xs, ans) (RList xs.*2 (s32 (Z.of_nat (length xs)))) (xs, ans).

(** Operations one after the other, each of which satisfies [ok] when it starts. *)
Inductive abs_run (ok : ll_op -> list item -> Prop) :
    list (Z * ll_op) -> list item * list Z -> list ll_ret -> list item * list Z -> Prop :=
  | abs_done c : abs_run ok [] c [] c
  | abs_cons t op ops c r c' rs c'' :
      ok op (fst c) -> abs_step op c r c' -> abs_run ok ops c' rs c'' -> abs_run ok ((t, op) :: ops) c (r :: rs) c''.

(** The concrete state stands for the items, and owns no other node. *)
Definition sim (s : llst) (c : list item * list Z) : Prop :=
  (exists lk, repr s (fst c) lk /\ idle lk /\ lk_wchan lk = []) /\ answers s = snd c /\
  (forall a, a ∈ (fst c).*1 -> base !! a = None) /\
  (forall a, a ∉ (fst c).*1 -> heap s !! a = base !! a).

Lemma sim_runs {A} (m : K llst A) s xs ans ans' r xs' lk mine :
  sim s (xs, ans) -> runs_to m s r xs' lk mine ans' -> lk_wchan lk = [] ->
  (forall a, a ∈ xs.*1 -> a ∈ mine) -> (forall a, a ∈ mine -> base !! a = None) -> (forall a, a ∈ xs'.*1 -> a ∈ mine) ->
  exists s', m s = Done (r, s') /\ sim s' (xs', ans').
Proof.
  intros (_&_&Hb&Ho) (s'&Hm&Hr&Ha&Hfr&Hgone) Hw Hold Hmine Hnew. exists s'. split; [done|].
  split; [exists (freed lk); split; [done|]; split; [done|]; cbn; by rewrite Hw|]. split; [done|]. cbn in *. split; [auto|].
  intros a Hn. destruct (decide (a ∈ mine)); [rewrite Hgone, Hmine by done; done|].
  rewrite Hfr by done. apply Ho. auto.
Qed.

Ltac mine :=
  first
    [ solve [auto]
    | let a := fresh "a" in let H := fresh in
      intros a; cbn; rewrite ?elem_of_cons; intros H;
      first [assumption | right; assumption | destruct H as [->|H]; solve [auto]] ].

Lemma step_refines t op s c r c' :
  sim s c -> abs_step op c r c' -> exists s', run_op t op s = Done (r, s') /\ sim s' c'.
Proof.
  intros Hsim Hstep. pose proof Hsim as ((lk&Hr&Hi&Hw)&Ha&Hb&Ho).
  destruct Hstep as [d xs a ans (Ha0&Han&Hab)|k d xs a ans (Ha0&Han&Hab)| | | |l1 x l2 ans Hx0| ]; cbn [fst snd run_op] in *.
  - assert (heap s !! a = None) by (by rewrite Ho by assumption).
    edestruct (sim_runs (linked_list_prepend t d)) as (s'&Hrun&Hs'); [exact Hsim|by eapply prepend_eq|exact Hw|mine..|].
    krun. rewrite Hrun. eauto.
  - assert (heap s !! a = None) by (by rewrite Ho by assumption).
    edestruct (sim_runs (linked_list_insert t k d)) as (s'&Hrun&Hs'); [exact Hsim|by eapply insert_eq|exact Hw|mine..| |].
    { intros b Hin. rewrite ins_perm in Hin. exact Hin. }
    krun. rewrite Hrun. eauto.
  - edestruct (sim_runs (linked_list_remove_head t)) as (s'&Hrun&Hs'); [exact Hsim|by eapply remove_head_eq|exact Hw|mine..|].
    krun. rewrite Hrun, <- Ha. eauto.
  - edestruct (sim_runs (linked_list_remove_head t)) as (s'&Hrun&Hs'); [exact Hsim|by eapply remove_head_eq|exact Hw|mine..|].
    krun. rewrite Hrun, <- Ha. eauto.
  - edestruct (sim_runs (linked_list_remove t 0)) as (s'&Hrun&Hs'); [exact Hsim|by eapply remove_null_eq|exact Hw|mine..|].
    krun. rewrite Hrun, <- Ha. eauto.
  - edestruct (sim_runs (linked_list_remove t (addr x))) as (s'&Hrun&Hs'); [exact Hsim|by eapply remove_eq|exact Hw|mine..| |].
    { rewrite addrs_decr. intros a. rewrite !fmap_app, !elem_of_app. cbn. rewrite elem_of_cons. tauto. }
    krun. rewrite Hrun, <- Ha. eauto.
  - edestruct (sim_runs (linked_list_printlist t)) as (s'&Hrun&Hs'); [exact Hsim|by eapply print_eq|exact Hw|mine..|].
    krun. rewrite Hrun, <- Ha. eauto.
Qed.

Lemma run_refines ok ops s c rs c' :
  sim s c -> abs_run ok ops c rs c' -> exists s', run_ops ops s = Done (rs, s') /\ sim s' c'.
Proof.
  intros Hsim Hrun. revert s Hsim. induction Hrun as [c|t op ops c r c1 rs c' _ Hstep _ IH]; intros s Hsim; [eauto|].
  destruct (step_refines t op s c r c1 Hsim Hstep) as (s1&Hop&Hs1). destruct (IH s1 Hs1) as (s2&Hops&Hs2).
  exists s2. split; [|done]. cbn [run_ops]. krun. rewrite Hop. krun. rewrite Hops. done.
Qed.

Lemma sim_create mem l mem' ans :
  linked_list_create mem = Done (l, mem') -> ll_lock l <> None -> sim (mkLL l base ans) ([], ans).
Proof.
  unfold linked_list_create. destruct (kalloc mem) as [[|] mem1]; [|discriminate]. kred.
  unfold lock_create. destruct (kalloc3 mem1) as [[|] mem2]; intros [= <- _] Hl; [|done].
  split; [exists new_lock; split; [constructor; cbn; try done; apply NoDup_nil_2|by split]|].
  split; [done|]. split; [intros a Ha; by apply elem_of_nil in Ha|done].
Qed.

Lemma sim_destroy t s c :
  sim s c -> exists s', linked_list_destroy t s = Done ((), s') /\ heap s' = base.
Proof.
  intros ((lk&Hr&Hi&Hw)&_&Hb&Ho). destruct (destroy_eq t s _ lk Hr Hi Hw) as (s'&Hrun&Hh).
  exists s'. split; [done|]. apply map_eq. intros a. rewrite Hh.
  case_decide; [by rewrite Hb|by apply Ho].
Qed.

(** ** Keys in order *)

(** No key the operation computes goes beyond the range of [int]. *)
Definition no_wrap (op : ll_op) (xs : list item) : Prop :=
  match op with
  | Prepend _ => forall x, head xs = Some x -> - 2 ^ 31 < ikey x
  | Insert k _ => - 2 ^ 31 <= k < 2 ^ 31
  | Remove node => node <> 0 -> Forall (fun x => - 2 ^ 31 < ikey x) xs
  | _ => True
  end.

Definition in_order (xs : list item) : Prop :=
  Forall (fun x => - 2 ^ 31 <= ikey x < 2 ^ 31) xs /\ StronglySorted Z.le (ikey <$> xs).

Lemma in_order_cons x xs :
  in_order (x :: xs) <->
  in_order xs /\ - 2 ^ 31 <= ikey x < 2 ^ 31 /\ Forall (fun y => ikey x <= ikey y) xs.
Proof.
  unfold in_order. rewrite Forall_cons. cbn. rewrite StronglySorted_cons, Forall_fmap. unfold compose. tauto.
Qed.

Lemma in_order_one x : - 2 ^ 31 <= ikey x < 2 ^ 31 -> in_order [x].
Proof. intros. apply in_order_cons. split; [split; constructor|]. split; [done|constructor]. Qed.

Lemma in_order_ins_after x y xs :
  in_order (y :: xs) -> - 2 ^ 31 <= ikey x < 2 ^ 31 -> ikey y <= ikey x -> in_order (y :: ins_after x xs).
Proof.
  revert y. induction xs as [|z xs IH]; intros y Hy Hx Hle; cbn.
  - apply in_order_cons in Hy as (?&?&_). apply in_order_cons. split; [by apply in_order_one|]. split; [done|by repeat constructor].
  - apply in_order_cons in Hy as (Hz&Hy&Hall). pose proof Hall as Hyz. apply Forall_cons in Hyz as (Hyz&_).
    destruct (Z.ltb_spec (ikey z) (ikey x)).
    + apply in_order_cons. split; [apply IH; [done|done|lia]|]. split; [done|]. constructor; [done|].
      destruct (ins_after_split x xs) as (l1&l2&->&->&_). apply Forall_cons in Hall as (_&Hall).
      apply Forall_app in Hall as (?&?). apply Forall_app. split; [done|]. by constructor.
    + apply in_order_cons. split; [|split; [done|by constructor]].
      apply in_order_cons. split; [done|]. split; [done|].
      apply in_order_cons in Hz as (_&_&Hz). constructor; [lia|]. eapply Forall_impl; [exact Hz|]. cbn. lia.
Qed.

Lemma in_order_decr xs :
  in_order xs -> Forall (fun x => - 2 ^ 31 < ikey x) xs -> in_order (decr <$> xs).
Proof.
  induction xs as [|x xs IH]; [done|]. rewrite in_order_cons, Forall_cons. intros (Hxs&Hr&Hle) (Hx&Hall).
  cbn. apply in_order_cons. split; [by apply IH|]. change (ikey (decr x)) with (s32 (ikey x - 1)).
  rewrite s32_small by lia. split; [lia|]. apply Forall_fmap. apply Forall_forall. intros y Hy. cbn.
  rewrite Forall_forall in Hle, Hall. specialize (Hle y Hy). specialize (Hall y Hy).
  destruct Hxs as (Hrange&_). rewrite Forall_forall in Hrange. specialize (Hrange y Hy).
  unfold compose, decr, ikey in *. cbn. rewrite s32_small by lia. lia.
Qed.

Lemma in_order_remove l1 x l2 : in_order (l1 ++ x :: l2) -> in_order (l1 ++ l2).
Proof.
  induction l1 as [|y l1 IH]; cbn; rewrite !in_order_cons; [tauto|].
  rewrite !Forall_app, Forall_cons. intuition.
Qed.

Lemma step_in_order op c r c' :
  abs_step op c r c' -> no_wrap op (fst c) -> in_order (fst c) -> in_order (fst c').
Proof.
  destruct 1 as [d [|x xs] a ans Hfree|k d xs a ans Hfree| |x xs ans| |l1 x l2 ans Hx0|]; cbn [fst no_wrap]; intros Hw Ho; try done.
  - by apply in_order_one.
  - specialize (Hw x eq_refl). apply in_order_cons. split; [done|]. apply in_order_cons in Ho as (_&Hx&Hall).
    assert (Hk : ikey (a, (s32 (ikey x - 1), d)) = ikey x - 1) by (apply s32_small; lia).
    rewrite Hk. split; [lia|]. constructor; [lia|]. eapply Forall_impl; [exact Hall|]. cbn. lia.
  - destruct xs as [|x xs]; cbn; [by apply in_order_one|].
    change (ikey (a, (k, d))) with k. destruct (Z.gtb_spec (ikey x) k).
    + apply in_order_cons. split; [done|]. split; [done|]. cbn. apply in_order_cons in Ho as (_&_&Hall).
      constructor; [cbn; lia|]. eapply Forall_impl; [exact Hall|]. cbn. lia.
    + apply in_order_ins_after; [done|exact Hw|]. change (ikey x <= k). lia.
  - by apply in_order_cons in Ho as (?&_).
  - specialize (Hw Hx0). apply Forall_app in Hw as (Hw1&Hw2). apply Forall_cons in Hw2 as (_&Hw2).
    apply in_order_decr; [by eapply in_order_remove|]. by apply Forall_app.
Qed.

Lemma run_in_order ops c rs c' :
  abs_run no_wrap ops c rs c' -> in_order (fst c) -> in_order (fst c').
Proof. induction 1; eauto using step_in_order. Qed.

End Abstract.

(** ** The properties *)

(** C15. The linked list implements a list of (key, data) items with ascending keys
    at the front of equal ones: whatever operations are run one after the other on
    a freshly created list, as long as [kmalloc] has memory for the new nodes, they
    all return (no pointer that is null, freed or never allocated is followed), with
    the results the operations on the items give; the nodes' links in both
    directions, [first], [last] and [length] stand for the items; no memory of
    anybody else is touched, and destroying the list gives back every node. *)
Theorem linked_list_refines base mem l mem' ans ops rs xs ans' t :
  linked_list_create mem = Done (l, mem') -> ll_lock l <> None ->
  abs_run base (fun _ _ => True) ops ([], ans) rs (xs, ans') ->
  exists s', run_ops ops (mkLL l base ans) = Done (rs, s') /\ sim base s' (xs, ans') /\
    exists s'', linked_list_destroy t s' = Done ((), s'') /\ heap s'' = base.
Proof.
  intros Hc Hl Hrun. pose proof (sim_create base mem l mem' ans Hc Hl) as Hsim.
  destruct (run_refines base _ _ _ _ _ _ Hsim Hrun) as (s'&Hops&Hsim'). exists s'.
  split; [done|]. split; [done|]. by eapply sim_destroy.
Qed.

(** The list is kept in the order of its keys: after any operations from
    creation on, none of which computes a key outside the range of [int] (prepending
    before, or removing from, a list with the smallest [int] as a key), printing the
    list shows ascending keys, and the right length. *)
Theorem linked_list_sorted base mem l mem' ans ops rs xs ans' t :
  linked_list_create mem = Done (l, mem') -> ll_lock l <> None ->
  abs_run base no_wrap ops ([], ans) rs (xs, ans') ->
  exists s' s'' shown, run_ops ops (mkLL l base ans) = Done (rs, s') /\
    linked_list_printlist t s' = Done (shown, s'') /\
    StronglySorted Z.le (fst <$> fst shown) /\ snd shown = s32 (Z.of_nat (length (fst shown))).
Proof.
  intros Hc Hl Hrun. pose proof (sim_create base mem l mem' ans Hc Hl) as Hsim.
  destruct (run_refines base _ _ _ _ _ _ Hsim Hrun) as (s'&Hops&((lk&Hr&Hi&_)&_)).
  destruct (print_eq t s' xs lk Hr Hi) as (s''&Hp&_).
  exists s', s'', (xs.*2, s32 (Z.of_nat (length xs))). split; [done|]. split; [done|]. cbn.
  rewrite length_fmap, <- list_fmap_compose. split; [|done].
  apply (run_in_order base _ _ _ _ Hrun). split; constructor.
Qed.

(** Two threads share a list. *)
Definition sample_ops : list (Z * ll_op) :=
  [(1, Insert 5 50); (1, Insert 3 30); (2, Insert 5 51); (1, Prepend 7); (2, RemoveHead); (1, Remove 16); (2, Insert 9 90)].

Definition sample_rets : list ll_ret := [RNone; RNone; RNone; RNone; RHead 7 (Some 2); RNone; RNone].
Definition sample_end : list item := [(32, (2, 30)); (48, (4, 51)); (64, (9, 90))].

Lemma sample_run (ok : ll_op -> list item -> Prop) :
  (forall op xs, no_wrap op xs -> ok op xs) ->
  abs_run ∅ ok sample_ops ([], [16; 32; 48; 64; 64]) sample_rets (sample_end, []).
Proof.
  intros Hok. assert (Hfree : forall a xs, bool_decide (a <> 0 /\ a ∉ xs.*1) = true -> free_for ∅ a xs).
  { intros a xs H. apply bool_decide_eq_true in H as (?&?). split; [done|]. split; [done|]. apply lookup_empty. }
  unfold sample_ops.
  eapply abs_cons; [apply Hok; cbn; lia|apply abs_insert, Hfree; reflexivity|].
  eapply abs_cons; [apply Hok; cbn; lia|apply abs_insert, Hfree; reflexivity|].
  eapply abs_cons; [apply Hok; cbn; lia|apply abs_insert, Hfree; reflexivity|].
  eapply abs_cons; [apply Hok; cbn; intros ? [= <-]; cbn; lia|apply abs_prepend, Hfree; reflexivity|].
  eapply abs_cons; [apply Hok; exact I|apply abs_remove_head|].
  eapply abs_cons; [apply Hok; cbn; intros _; repeat constructor|apply (abs_remove _ [(32, (3, 30)); (48, (5, 51))] (16, (5, 50)) []); done|].
  eapply abs_cons; [apply Hok; cbn; lia|apply abs_insert, Hfree; reflexivity|].
  apply abs_done.
Qed.

Lemma linked_list_refines_witness :
  exists s', run_ops sample_ops (mkLL (mkList 0 0 0 (Some new_lock)) ∅ [16; 32; 48; 64; 64]) = Done (sample_rets, s') /\
    sim ∅ s' (sample_end, []) /\
    exists s'', linked_list_destroy 1 s' = Done ((), s'') /\ heap s'' = ∅.
Proof.
  apply (linked_list_refines ∅ [] (mkList 0 0 0 (Some new_lock)) [] [16; 32; 48; 64; 64] sample_ops sample_rets sample_end [] 1);
    [reflexivity|discriminate|]. apply (sample_run (fun _ _ => True)). done.
Defined.

Lemma linked_list_sorted_witness :
  exists s' s'' shown,
    run_ops sample_ops (mkLL (mkList 0 0 0 (Some new_lock)) ∅ [16; 32; 48; 64; 64]) = Done (sample_rets, s') /\
    linked_list_printlist 1 s' = Done (shown, s'') /\
    StronglySorted Z.le (fst <$> fst shown) /\ snd shown = s32 (Z.of_nat (length (fst shown))).
Proof.
  apply (linked_list_sorted ∅ [] (mkList 0 0 0 (Some new_lock)) [] [16; 32; 48; 64; 64] sample_ops sample_rets sample_end [] 1);
    [reflexivity|discriminate|]. apply (sample_run no_wrap). done.
Defined.
