(* ===== verification/SharedBuffer.v ===== *)
(** * shared_buffer/shared_buffer.c: a bounded buffer as a monitor

    Producers and consumers share a linked list under one lock, and wait on two
    condition variables.  A round is what a thread does between getting the lock and
    giving it up: at the end of the operation, or in [cv_wait].  [lock_exclusion]
    and [cv_no_lost_signal] (SynchSteps) are why rounds can be taken as steps: nobody
    else has the lock in between, and giving it up and going to sleep is one step
    for whoever signals.  A thread that has been woken starts another round. *)

From stdpp Require Import relations.
From S2P Require Import Prelude Synch SynchSteps LinkedList.

#[local] Set Warnings "-clear-no-such-hyp".

(** Pointers that are null, or were never set, are [None]. *)
Record Shared_Buffer := mkSb {
  buffer_ll : llst; count : Z; BUFFER_SIZE : Z; sb_lock : option lock; producer_cv : option cv; consumer_cv : option cv }.

Definition on_ll {A} (m : K llst A) : K Shared_Buffer A :=
  zoom buffer_ll (fun l b => mkSb l (count b) (BUFFER_SIZE b) (sb_lock b) (producer_cv b) (consumer_cv b)) m.
Definition set_count (n : Z) : K Shared_Buffer unit := modify (fun b =>
  mkSb (buffer_ll b) (s32 n) (BUFFER_SIZE b) (sb_lock b) (producer_cv b) (consumer_cv b)).
Definition set_sb_lock (lk : lock) : K Shared_Buffer unit := modify (fun b =>
  mkSb (buffer_ll b) (count b) (BUFFER_SIZE b) (Some lk) (producer_cv b) (consumer_cv b)).
Definition set_producer_cv (c : cv) : K Shared_Buffer unit := modify (fun b =>
  mkSb (buffer_ll b) (count b) (BUFFER_SIZE b) (sb_lock b) (Some c) (consumer_cv b)).
Definition set_consumer_cv (c : cv) : K Shared_Buffer unit := modify (fun b =>
  mkSb (buffer_ll b) (count b) (BUFFER_SIZE b) (sb_lock b) (producer_cv b) (Some c)).

Definition get_lock : K Shared_Buffer lock := fun b => lk ← deref (sb_lock b); Done (lk, b).
Definition get_producer_cv : K Shared_Buffer cv := fun b => c ← deref (producer_cv b); Done (c, b).
Definition get_consumer_cv : K Shared_Buffer cv := fun b => c ← deref (consumer_cv b); Done (c, b).

Definition sb_acquire (t : Z) : K Shared_Buffer unit :=
  lk ← get_lock; lk ← lift (lock_acquire t lk); set_sb_lock lk.
Definition sb_release (t : Z) : K Shared_Buffer unit :=
  lk ← get_lock; r ← lift (lock_release t lk); set_sb_lock (snd r).

(** [cv_wait] until the thread sleeps. *)
Definition sb_wait (t : Z) (get : K Shared_Buffer cv) (set : cv -> K Shared_Buffer unit) : K Shared_Buffer unit :=
  lk ← get_lock;
  c ← get;
  r ← lift (cv_wait_release t c lk);
  let '(_, c, lk) := r in
  set_sb_lock lk;;
  c ← lift (cv_wait_sleep t c);
  set c.

Definition sb_signal (t : Z) (get : K Shared_Buffer cv) (set : cv -> K Shared_Buffer unit) : K Shared_Buffer (option Z) :=
  lk ← get_lock;
  c ← get;
  r ← lift (cv_signal t c lk);
  set (snd r);;
  mret (fst r).

(** ** Operations *)

(** Five allocations; when one after the list's fails, what has been made so far is
    destroyed, and [shared_buffer_destroy] starts with the lock, which is not there
    yet. *)
Definition shared_buffer_destroy (t : Z) : K Shared_Buffer unit :=
  lk ← get_lock;
  lift (lock_destroy t lk);;
  c ← get_producer_cv;
  lift (cv_destroy c);;
  c ← get_consumer_cv;
  lift (cv_destroy c);;
  on_ll (linked_list_destroy t).

Definition shared_buffer_create (t : Z) (mem : list bool) (h : gmap Z Linked_List_Node) (ans : list Z) (SIZE : Z) :
    outcome (option Shared_Buffer * list bool) :=
  let '(ok, mem) := kalloc mem in
  if negb ok then mret (None, mem) else
  '(l, mem) ← linked_list_create mem;
  let '(pcv, mem) := cv_create mem in
  if pcv is None then
    linked_list_destroy t (mkLL l h ans);;
    shared_buffer_destroy t (mkSb (mkLL l h ans) 0 SIZE None None None);;
    mret (None, mem)
  else
  let '(ccv, mem) := cv_create mem in
  if ccv is None then
    (c ← deref pcv; cv_destroy c);;
    linked_list_destroy t (mkLL l h ans);;
    shared_buffer_destroy t (mkSb (mkLL l h ans) 0 SIZE None pcv None);;
    mret (None, mem)
  else
  let '(lk, mem) := lock_create mem in
  mret (Some (mkSb (mkLL l h ans) 0 SIZE lk pcv ccv), mem).

(** [false] if the thread went to sleep, else [true] and the thread it woke. *)
Definition produce_round (t c : Z) : K Shared_Buffer (bool * option Z) :=
  sb_acquire t;;
  n ← gets count;
  size ← gets BUFFER_SIZE;
  if n =? size then sb_wait t get_producer_cv set_producer_cv;; mret (false, None) else
  kassert (n <? size);;
  on_ll (linked_list_prepend t c);;
  n ← gets count;
  set_count (n + 1);;
  woken ← sb_signal t get_consumer_cv set_consumer_cv;
  sb_release t;;
  mret (true, woken).

(** The same with what was consumed.  [key] is the memory for a key: when there is
    none the key is written through a null pointer. *)
Definition consume_round (t : Z) (key : bool) : K Shared_Buffer (option Z * option Z) :=
  sb_acquire t;;
  n ← gets count;
  if n =? 0 then sb_wait t get_consumer_cv set_consumer_cv;; mret (None, None) else
  kassert (n >? 0);;
  r ← on_ll (linked_list_remove_head t);
  (if snd r is Some _ then kassert key else mret ());;
  n ← gets count;
  set_count (n - 1);;
  woken ← sb_signal t get_producer_cv set_producer_cv;
  sb_release t;;
  mret (Some (fst r), woken).

Definition shared_buffer_printbuffer (t : Z) : K Shared_Buffer (list (Z * Z) * Z) :=
  sb_acquire t;;
  r ← on_ll (linked_list_printlist t);
  sb_release t;;
  mret r.

(** ** Threads

    [sy_producing] holds the argument of each thread that is in [shared_buffer_produce]
    and awake, [sy_asleep] that of those asleep there; [sy_consuming] are the threads
    that are in [shared_buffer_consume] and awake; [sy_log] is what has been done,
    the last first. *)
Inductive event : Type := Produced (c : Z) | Consumed (c : Z).

Record system := mkSystem {
  sy_buffer : Shared_Buffer; sy_producing : gmap Z Z; sy_asleep : gmap Z Z; sy_consuming : gset Z; sy_log : list event }.

(** Moves the woken producer back to those that are awake. *)
Definition wake_producer (w : option Z) (sy : gmap Z Z * gmap Z Z) : gmap Z Z * gmap Z Z :=
  match w with
  | Some u => (match snd sy !! u with Some c => <[u := c]> (fst sy) | None => fst sy end, delete u (snd sy))
  | None => sy
  end.

(** [kmalloc] has memory, and does not give out any that is in use.  Without it
    producing panics, and there is no step. *)
Definition memory_left (l : llst) : Prop := exists a r, answers l = a :: r /\ a <> 0 /\ heap l !! a = None.

Inductive round : system -> system -> Prop :=
  | produced t c b b' w pr sl co log :
      pr !! t = Some c -> memory_left (buffer_ll b) -> produce_round t c b = Done ((true, w), b') ->
      round (mkSystem b pr sl co log) (mkSystem b' (delete t pr) sl (co ∪ woken_set w) (Produced c :: log))
  | producer_sleeps t c b b' w pr sl co log :
      pr !! t = Some c -> produce_round t c b = Done ((false, w), b') ->
      round (mkSystem b pr sl co log) (mkSystem b' (delete t pr) (<[t := c]> sl) co log)
  | consumed t key b b' d w pr sl co log :
      t ∈ co -> consume_round t key b = Done ((Some d, w), b') ->
      round (mkSystem b pr sl co log)
        (mkSystem b' (fst (wake_producer w (pr, sl))) (snd (wake_producer w (pr, sl))) (co ∖ {[t]}) (Consumed d :: log))
  | consumer_sleeps t key b b' w pr sl co log :
      t ∈ co -> consume_round t key b = Done ((None, w), b') ->
      round (mkSystem b pr sl co log) (mkSystem b' pr sl (co ∖ {[t]}) log).

(** Is the thread in one of the operations? *)
Definition inside (sy : system) (t : Z) : Prop :=
  is_Some (sy_producing sy !! t) \/ is_Some (sy_asleep sy !! t) \/ t ∈ sy_consuming sy \/
  (exists c, consumer_cv (sy_buffer sy) = Some c /\ t ∈ cv_wchan c).

Inductive step : system -> system -> Prop :=
  | call_produce t c b pr sl co log :
      let sy := mkSystem b pr sl co log in
      ~ inside sy t -> step sy (mkSystem b (<[t := c]> pr) sl co log)
  | call_consume t b pr sl co log :
      let sy := mkSystem b pr sl co log in
      ~ inside sy t -> step sy (mkSystem b pr sl ({[t]} ∪ co) log)
  | go sy sy' : round sy sy' -> step sy sy'.

(** What is in the buffer after some events. *)
Fixpoint replay (log : list event) : option (list Z) :=
  match log with
  | [] => Some []
  | Produced c :: log => s ← replay log; Some (c :: s)
  | Consumed c :: log => s ← replay log; match s with x :: s => if x =? c then Some s else None | [] => None end
  end.

(** ** What a round does *)

Section Rounds.
Variable base : gmap Z Linked_List_Node.
Variable sz : Z.
Hypothesis Hsz : sz < 2 ^ 31.

(** The buffer between rounds: the items [xs], the producers asleep and the consumers
    asleep. *)
Record buf_inv (b : Shared_Buffer) (xs : list item) (wp wc : list Z) : Prop := mkBuf {
  buf_list : sim base (buffer_ll b) (xs, answers (buffer_ll b));
  buf_count : count b = Z.of_nat (length xs);
  buf_size : BUFFER_SIZE b = sz;
  buf_bound : Z.of_nat (length xs) <= sz;
  buf_lock : exists lk, sb_lock b = Some lk /\ idle lk;
  buf_pcv : producer_cv b = Some (mkCv None wp);
  buf_ccv : consumer_cv b = Some (mkCv None wc) }.

Lemma on_ll_eq {A} (m : K llst A) b r l' :
  m (buffer_ll b) = Done (r, l') ->
  on_ll m b = Done (r, mkSb l' (count b) (BUFFER_SIZE b) (sb_lock b) (producer_cv b) (consumer_cv b)).
Proof. intros Hm. unfold on_ll, zoom. by rewrite Hm. Qed.

Lemma sb_acquire_eq t b lk :
  sb_lock b = Some lk -> idle lk ->
  sb_acquire t b = Done ((), mkSb (buffer_ll b) (count b) (BUFFER_SIZE b) (Some (held_by t lk)) (producer_cv b) (consumer_cv b)).
Proof.
  intros Hk (Hb&Ho). unfold sb_acquire, get_lock. rewrite K_bind_eq, Hk. cbn [deref]. kred.
  krun. rewrite lock_acquire_free by done. done.
Qed.

Lemma sb_release_eq t l n s lk p c :
  sb_release t (mkSb l n s (Some (held_by t lk)) p c) = Done ((), mkSb l n s (Some (freed lk)) p c).
Proof.
  unfold sb_release, get_lock. rewrite K_bind_eq. cbn [sb_lock deref]. kred. krun. rewrite lock_release_held. done.
Qed.

Lemma cv_signal_eq t lk wc : cv_signal t (mkCv None wc) (held_by t lk) = Done (head wc, mkCv None (tail wc)).
Proof.
  unfold cv_signal, lock_do_i_hold, cv_spin, cv_unspin. cbn.
  by rewrite !bool_decide_true by done.
Qed.

Lemma cv_wait_eq t lk wc :
  cv_wait_release t (mkCv None wc) (held_by t lk) = Done (head (lk_wchan lk), mkCv (Some t) wc, freed lk) /\
  cv_wait_sleep t (mkCv (Some t) wc) = Done (mkCv None (wc ++ [t])).
Proof.
  split.
  - unfold cv_wait_release, lock_do_i_hold, cv_spin. cbn [held_by lk_owner]. rewrite bool_decide_true by done. kred.
    cbn [cv_spinlock]. kred. fold (held_by t lk). by rewrite lock_release_held.
  - unfold cv_wait_sleep, cv_unspin. cbn. by rewrite !bool_decide_true by done.
Qed.

Ltac sbrun :=
  repeat progress (krun; unfold set_count; cbn [buffer_ll count BUFFER_SIZE sb_lock producer_cv consumer_cv deref]; kred).

Lemma sb_wait_producer t l n s lk wp cc :
  sb_wait t get_producer_cv set_producer_cv (mkSb l n s (Some (held_by t lk)) (Some (mkCv None wp)) cc) =
    Done ((), mkSb l n s (Some (freed lk)) (Some (mkCv None (wp ++ [t]))) cc).
Proof.
  destruct (cv_wait_eq t lk wp) as (Hrel&Hsleep).
  unfold sb_wait, get_lock, get_producer_cv. sbrun.
  rewrite Hrel. sbrun. by rewrite Hsleep.
Qed.

Lemma sb_wait_consumer t l n s lk wc pc :
  sb_wait t get_consumer_cv set_consumer_cv (mkSb l n s (Some (held_by t lk)) pc (Some (mkCv None wc))) =
    Done ((), mkSb l n s (Some (freed lk)) pc (Some (mkCv None (wc ++ [t])))).
Proof.
  destruct (cv_wait_eq t lk wc) as (Hrel&Hsleep).
  unfold sb_wait, get_lock, get_consumer_cv. sbrun.
  rewrite Hrel. sbrun. by rewrite Hsleep.
Qed.

Lemma sb_signal_producer t l n s lk wp cc :
  sb_signal t get_producer_cv set_producer_cv (mkSb l n s (Some (held_by t lk)) (Some (mkCv None wp)) cc) =
    Done (head wp, mkSb l n s (Some (held_by t lk)) (Some (mkCv None (tail wp))) cc).
Proof.
  unfold sb_signal, get_lock, get_producer_cv. sbrun.
  by rewrite cv_signal_eq.
Qed.

Lemma sb_signal_consumer t l n s lk wc pc :
  sb_signal t get_consumer_cv set_consumer_cv (mkSb l n s (Some (held_by t lk)) pc (Some (mkCv None wc))) =
    Done (head wc, mkSb l n s (Some (held_by t lk)) pc (Some (mkCv None (tail wc)))).
Proof.
  unfold sb_signal, get_lock, get_consumer_cv. sbrun.
  by rewrite cv_signal_eq.
Qed.

Ltac buf_destruct :=
  match goal with H : buf_inv ?b _ _ _ |- _ =>
    destruct b as [l n size lk pc cc]; destruct H as [Hl Hc Hs Hle (k&Hk&Hi) Hp Hcc]; cbn in *; subst
  end.

Lemma produce_full t c b xs wp wc :
  buf_inv b xs wp wc -> Z.of_nat (length xs) = sz ->
  exists b', produce_round t c b = Done ((false, None), b') /\ buf_inv b' xs (wp ++ [t]) wc.
Proof.
  intros Hb Hfull. buf_destruct. unfold produce_round. krun.
  erewrite sb_acquire_eq by done. sbrun. rewrite Hfull, Z.eqb_refl.
  krun. rewrite sb_wait_producer. krun. eexists. split; [reflexivity|]. by constructor; eauto using idle_freed.
Qed.

Lemma produce_room t c b xs wp wc :
  buf_inv b xs wp wc -> memory_left (buffer_ll b) -> Z.of_nat (length xs) < sz ->
  exists x b', idata x = c /\ produce_round t c b = Done ((true, head wc), b') /\ buf_inv b' (x :: xs) wp (tail wc).
Proof.
  intros Hb (a&ans&Ha&Ha0&Hfresh) Hroom. buf_destruct. unfold produce_round. krun.
  erewrite sb_acquire_eq by done. sbrun.
  rewrite (proj2 (Z.eqb_neq _ _)) by lia. unfold kassert. sbrun. rewrite (proj2 (Z.ltb_lt _ _)) by lia. sbrun.
  pose proof Hl as (_&_&_&Ho). cbn in Ho.
  assert (Hnin : a ∉ xs.*1).
  { destruct Hl as ((lk'&[_ _ _ _ _ Hd]&_)&_). by eapply dseg_fresh. }
  destruct (step_refines base t (Prepend c) l (xs, a :: ans) RNone (prepended a c xs, ans)) as (l'&Hrun&Hl').
  { by rewrite <- Ha. }
  { apply abs_prepend. split; [done|]. split; [done|]. by rewrite <- Ho. }
  cbn in Hrun. apply K_bind_inv in Hrun as ([]&l1&Hrun&[= ->]).
  erewrite on_ll_eq by exact Hrun. sbrun.
  rewrite sb_signal_consumer. krun. rewrite sb_release_eq. krun.
  eexists (a, (_, c)), _. split; [reflexivity|]. split; [reflexivity|].
  constructor; cbn; eauto using idle_freed.
  - destruct Hl' as (?&Ha'&?). cbn in Ha'. split; [done|]. by rewrite Ha'.
  - rewrite s32_small by lia. lia.
  - lia.
Qed.

(** A producer goes to sleep only when the buffer is full. *)
Lemma produce_sleeps t c b xs wp wc w b' :
  buf_inv b xs wp wc -> produce_round t c b = Done ((false, w), b') -> Z.of_nat (length xs) = sz.
Proof.
  intros Hb. buf_destruct. unfold produce_round. krun.
  erewrite sb_acquire_eq by done. sbrun. destruct (Z.eqb_spec (Z.of_nat (length xs)) sz); [done|].
  intros Hrun. repeat (apply K_bind_inv in Hrun as (?&?&_&Hrun)). discriminate.
Qed.

Lemma consume_empty t key b wp wc :
  buf_inv b [] wp wc ->
  exists b', consume_round t key b = Done ((None, None), b') /\ buf_inv b' [] wp (wc ++ [t]).
Proof.
  intros Hb. buf_destruct. unfold consume_round. krun.
  erewrite sb_acquire_eq by done. sbrun.
  change (Z.of_nat 0 =? 0) with true. sbrun. rewrite sb_wait_consumer. krun.
  eexists. split; [reflexivity|]. by constructor; eauto using idle_freed.
Qed.

Lemma consume_some t (key : bool) b x xs wp wc :
  buf_inv b (x :: xs) wp wc ->
  if key then
    exists b', consume_round t key b = Done ((Some (idata x), head wp), b') /\ buf_inv b' xs (tail wp) wc
  else consume_round t key b = Panic.
Proof.
  intros Hb. buf_destruct. unfold consume_round. krun.
  erewrite sb_acquire_eq by done. sbrun. rewrite (proj2 (Z.eqb_neq _ _)) by lia. unfold kassert. sbrun.
  rewrite (proj2 (Z.gtb_lt _ _)) by lia. sbrun.
  destruct (step_refines base t RemoveHead l (x :: xs, answers l) (RHead (idata x) (Some (ikey x))) (xs, answers l)) as (l'&Hrun&Hl');
    [done|apply abs_remove_head|].
  cbn in Hrun. apply K_bind_inv in Hrun as ([d ko]&l1&Hrun&E). injection E as -> -> ->.
  erewrite on_ll_eq by exact Hrun. sbrun. destruct key; sbrun; [|done].
  rewrite sb_signal_producer. sbrun. rewrite sb_release_eq. krun.
  eexists. split; [reflexivity|]. constructor; cbn; eauto using idle_freed.
  - destruct Hl' as (?&Ha'&?). cbn in Ha'. split; [done|]. by rewrite Ha'.
  - rewrite s32_small by lia. lia.
  - lia.
Qed.
End Rounds.

(** ** The invariant of the system *)

Section System.
Variable base : gmap Z Linked_List_Node.
Variable sz : Z.
Hypothesis Hsz : sz < 2 ^ 31.

Record sys_inv (s : system) (xs : list item) (wp wc : list Z) : Prop := mkSys {
  sys_buf : buf_inv base sz (sy_buffer s) xs wp wc;
  sys_log : replay (sy_log s) = Some (idata <$> xs);
  sys_wp : NoDup wp;
  sys_wc : NoDup wc;
  sys_asleep : forall t, t ∈ wp <-> is_Some (sy_asleep s !! t);
  sys_awake : forall t, is_Some (sy_producing s !! t) -> sy_asleep s !! t = None;
  sys_apart : forall t, t ∈ wc -> t ∉ sy_consuming s;
  sys_live_c : wc <> [] -> Z.of_nat (length xs) <= Z.of_nat (size (sy_consuming s));
  sys_live_p : wp <> [] -> sz - Z.of_nat (length xs) <= Z.of_nat (size (sy_producing s)) }.

(** Threads awake and threads altogether; every round lessens
    [total * total + awake]. *)
Definition awake (s : system) : Z := Z.of_nat (size (sy_producing s)) + Z.of_nat (size (sy_consuming s)).
Definition total (s : system) (wc : list Z) : Z :=
  awake s + Z.of_nat (size (sy_asleep s)) + Z.of_nat (length wc).

Lemma size_delete {A} (m : gmap Z A) t c : m !! t = Some c -> Z.of_nat (size (delete t m)) = Z.of_nat (size m) - 1.
Proof.
  intros Ht. pose proof (map_size_delete t m) as H. rewrite Ht in H.
  assert (size m <> 0)%nat. { intros H0. apply map_size_empty_inv in H0. subst. by rewrite lookup_empty in Ht. }
  lia.
Qed.

Lemma size_insert {A} (m : gmap Z A) t c : m !! t = None -> Z.of_nat (size (<[t := c]> m)) = Z.of_nat (size m) + 1.
Proof. intros Ht. rewrite map_size_insert_None by done. lia. Qed.

Lemma produced_inv t c b b' w pr sl co log xs wp wc :
  sys_inv (mkSystem b pr sl co log) xs wp wc -> pr !! t = Some c -> memory_left (buffer_ll b) ->
  produce_round t c b = Done ((true, w), b') ->
  let s' := mkSystem b' (delete t pr) sl (co ∪ woken_set w) (Produced c :: log) in
  exists x, sys_inv s' (x :: xs) wp (tail wc) /\
    total s' (tail wc) = total (mkSystem b pr sl co log) wc - 1.
Proof.
  intros [Hb Hlog Hwp Hwc Hsl Haw Hap Hlc Hlp] Ht Hmem Hrun s'. cbn in *.
  destruct (decide (Z.of_nat (length xs) = sz)) as [Hfull|Hroom].
  { destruct (produce_full base sz t c b xs wp wc Hb Hfull) as (b1&E&_). congruence. }
  destruct (produce_room base sz Hsz t c b xs wp wc Hb Hmem) as (x&b1&Hx&E&Hb').
  { destruct Hb. lia. }
  rewrite E in Hrun. injection Hrun as <- <-. exists x. subst s'. split.
  - constructor; cbn; try done.
    + by rewrite Hlog, Hx.
    + destruct wc; [done|]. by apply NoDup_cons in Hwc as (?&?).
    + intros u Hu. apply Haw. destruct Hu as (?&Hu). apply lookup_delete_Some in Hu as (_&?). eauto.
    + destruct wc as [|u wc]; cbn; [intros u Hu; by apply elem_of_nil in Hu|].
      apply NoDup_cons in Hwc as (?&?). set_solver.
    + destruct wc as [|u wc]; cbn; [done|]. intros _. rewrite union_comm_L, size_add by (apply Hap; left).
      specialize (Hlc ltac:(done)). lia.
    + intros Hne. rewrite (size_delete pr t c) by done. specialize (Hlp Hne). lia.
  - unfold total, awake. cbn. rewrite (size_delete pr t c) by done.
    destruct wc as [|u wc]; cbn; [rewrite union_empty_r_L; lia|].
    rewrite union_comm_L, size_add by (apply Hap; left). lia.
Qed.

Lemma producer_sleeps_inv t c b b' w pr sl co log xs wp wc :
  sys_inv (mkSystem b pr sl co log) xs wp wc -> pr !! t = Some c -> produce_round t c b = Done ((false, w), b') ->
  let s' := mkSystem b' (delete t pr) (<[t := c]> sl) co log in
  sys_inv s' xs (wp ++ [t]) wc /\ total s' wc = total (mkSystem b pr sl co log) wc /\
    awake s' = awake (mkSystem b pr sl co log) - 1.
Proof.
  intros [Hb Hlog Hwp Hwc Hsl Haw Hap Hlc Hlp] Ht Hrun s'. cbn in *.
  assert (Hts : sl !! t = None) by (apply Haw; eauto).
  pose proof (produce_sleeps base sz t c b xs wp wc w b' Hb Hrun) as Hfull.
  destruct (produce_full base sz t c b xs wp wc Hb Hfull) as (b1&E&Hb').
  rewrite E in Hrun. injection Hrun as <- <-. subst s'. split; [|split].
  - constructor; cbn; try done.
    + apply NoDup_app. split; [done|]. split; [|apply NoDup_singleton].
      intros u Hu Hu'. apply list_elem_of_singleton in Hu' as ->. apply Hsl in Hu as [??]. congruence.
    + intros u. rewrite elem_of_app, list_elem_of_singleton, Hsl, lookup_insert_is_Some'.
      split; intros [H|H]; subst; auto.
    + intros u Hu. rewrite lookup_insert_ne; [apply Haw|]; destruct Hu as (?&Hu); apply lookup_delete_Some in Hu as (?&?); eauto.
    + lia.
  - unfold total, awake. cbn. rewrite (size_delete pr t c), size_insert by done. lia.
  - unfold awake. cbn. rewrite (size_delete pr t c) by done. lia.
Qed.

Lemma wake_producer_spec w wp pr sl :
  NoDup wp -> (forall t, t ∈ wp <-> is_Some (sl !! t)) -> (forall t, is_Some (pr !! t) -> sl !! t = None) -> w = head wp ->
  let m := wake_producer w (pr, sl) in
  (forall t, t ∈ tail wp <-> is_Some (snd m !! t)) /\ (forall t, is_Some (fst m !! t) -> snd m !! t = None) /\
  Z.of_nat (size (fst m)) + Z.of_nat (size (snd m)) = Z.of_nat (size pr) + Z.of_nat (size sl) /\
  (wp <> [] -> Z.of_nat (size (fst m)) = Z.of_nat (size pr) + 1).
Proof.
  intros Hnd Hsl Haw -> m. subst m. destruct wp as [|u wp]; cbn; [done|].
  apply NoDup_cons in Hnd as (Hu&Hnd). destruct (proj1 (Hsl u)) as [c Hc]; [left|]. rewrite Hc.
  assert (Hpr : pr !! u = None).
  { destruct (pr !! u) eqn:E; [|done]. rewrite (Haw u) in Hc by eauto. done. }
  rewrite size_insert, (size_delete sl u c) by done. split; [|split; [|lia]].
  - intros t. rewrite lookup_delete_is_Some, <- Hsl, elem_of_cons. split.
    + intros Ht. split; [|by right]. by intros ->.
    + intros (Hne&[->|Ht]); [by destruct Hne|done].
  - intros t. rewrite lookup_insert_is_Some'. intros [->|Ht]; [apply lookup_delete_eq|].
    destruct (decide (u = t)) as [->|]; [apply lookup_delete_eq|]. rewrite lookup_delete_ne by done. by apply Haw.
Qed.

Lemma consumed_inv t key b b' d w pr sl co log xs wp wc :
  sys_inv (mkSystem b pr sl co log) xs wp wc -> t ∈ co -> consume_round t key b = Done ((Some d, w), b') ->
  let s' := mkSystem b' (fst (wake_producer w (pr, sl))) (snd (wake_producer w (pr, sl))) (co ∖ {[t]}) (Consumed d :: log) in
  sys_inv s' (tail xs) (tail wp) wc /\ total s' wc = total (mkSystem b pr sl co log) wc - 1.
Proof.
  intros [Hb Hlog Hwp Hwc Hsl Haw Hap Hlc Hlp] Ht Hrun s'. cbn in *.
  destruct xs as [|x xs].
  { destruct (consume_empty base sz t key b wp wc Hb) as (b1&E&_). congruence. }
  pose proof (consume_some base sz Hsz t key b x xs wp wc Hb) as Hc. destruct key; [|congruence].
  destruct Hc as (b1&E&Hb'). rewrite E in Hrun. injection Hrun as <- <- <-. subst s'.
  destruct (wake_producer_spec _ wp pr sl Hwp Hsl Haw eq_refl) as (Hsl'&Haw'&Hsize&Hone). split.
  - constructor; cbn; try done.
    + rewrite Hlog. cbn. by rewrite Z.eqb_refl.
    + destruct wp; [done|]. by apply NoDup_cons in Hwp as (?&?).
    + set_solver.
    + intros Hne. rewrite size_remove by done. specialize (Hlc Hne). cbn in Hlc. lia.
    + intros Hne. rewrite Hone by (by destruct wp). specialize (Hlp ltac:(by destruct wp)). cbn in Hlp. lia.
  - unfold total, awake. cbn. rewrite size_remove by done. lia.
Qed.

Lemma consumer_sleeps_inv t key b b' w pr sl co log xs wp wc :
  sys_inv (mkSystem b pr sl co log) xs wp wc -> t ∈ co -> consume_round t key b = Done ((None, w), b') ->
  let s' := mkSystem b' pr sl (co ∖ {[t]}) log in
  sys_inv s' xs wp (wc ++ [t]) /\ total s' (wc ++ [t]) = total (mkSystem b pr sl co log) wc /\
    awake s' = awake (mkSystem b pr sl co log) - 1.
Proof.
  intros [Hb Hlog Hwp Hwc Hsl Haw Hap Hlc Hlp] Ht Hrun s'. cbn in *.
  destruct xs as [|x xs].
  2: { pose proof (consume_some base sz Hsz t key b x xs wp wc Hb) as Hc. destruct key; [|congruence].
       destruct Hc as (b1&E&_). congruence. }
  destruct (consume_empty base sz t key b wp wc Hb) as (b1&E&Hb'). rewrite E in Hrun. injection Hrun as <- <-. subst s'.
  split; [|split].
  - constructor; cbn; try done.
    + apply NoDup_app. split; [done|]. split; [|apply NoDup_singleton]. set_solver.
    + set_solver.
    + lia.
  - unfold total, awake. cbn. rewrite size_remove, length_app by done. cbn. lia.
  - unfold awake. cbn. rewrite size_remove by done. lia.
Qed.

Definition sys_ok (s : system) : Prop := exists xs wp wc, sys_inv s xs wp wc.

(** A round keeps the invariant and brings the end nearer. *)
Lemma round_inv s s' xs wp wc :
  sys_inv s xs wp wc -> round s s' -> exists xs' wp' wc', sys_inv s' xs' wp' wc' /\
    (total s' wc' = total s wc - 1 \/ (total s' wc' = total s wc /\ awake s' = awake s - 1)).
Proof.
  intros Hi Hr.
  destruct Hr as [t c b b' w pr sl co log Ht Hm Hrun|t c b b' w pr sl co log Ht Hrun|t key b b' d w pr sl co log Ht Hrun
    |t key b b' w pr sl co log Ht Hrun].
  - destruct (produced_inv t c b b' w pr sl co log xs wp wc Hi Ht Hm Hrun) as (x&?&?). eauto 10.
  - destruct (producer_sleeps_inv t c b b' w pr sl co log xs wp wc Hi Ht Hrun) as (?&?&?). eauto 10.
  - destruct (consumed_inv t key b b' d w pr sl co log xs wp wc Hi Ht Hrun) as (?&?). eauto 10.
  - destruct (consumer_sleeps_inv t key b b' w pr sl co log xs wp wc Hi Ht Hrun) as (?&?&?). eauto 10.
Qed.

Lemma round_ok s s' : sys_ok s -> round s s' -> sys_ok s'.
Proof.
  intros (xs&wp&wc&Hi) Hr. destruct (round_inv _ _ _ _ _ Hi Hr) as (xs'&wp'&wc'&Hi'&_). by exists xs', wp', wc'.
Qed.

Lemma rounds_terminate s : sys_ok s -> Acc (flip round) s.
Proof.
  intros (xs&wp&wc&Hi).
  remember (Z.to_nat (total s wc * total s wc + awake s)) as k eqn:Hk. revert s xs wp wc Hi Hk.
  induction (lt_wf k) as [k _ IH]. intros s xs wp wc Hi ->. constructor. intros s' Hr.
  destruct (round_inv _ _ _ _ _ Hi Hr) as (xs'&wp'&wc'&Hi'&Hm).
  eapply IH; [|exact Hi'|reflexivity].
  assert (0 <= awake s /\ 0 <= awake s' <= total s' wc' /\ awake s <= total s wc) as (?&?&?)
    by (unfold total, awake; lia).
  destruct Hm as [Hm|(Hm&Ha)]; rewrite Hm in *; nia.
Qed.

Lemma step_ok s s' : sys_ok s -> step s s' -> sys_ok s'.
Proof.
  intros (xs&wp&wc&[Hb Hlog Hwp Hwc Hsl Haw Hap Hlc Hlp]) Hs.
  destruct Hs as [t c b pr sl co log sy Hin|t b pr sl co log sy Hin|s s' Hr];
    [| |eapply round_ok; [|exact Hr]; exists xs, wp, wc; by constructor]; try subst sy; exists xs, wp, wc; cbn in *.
  - assert (Hpr : pr !! t = None) by (apply eq_None_not_Some; unfold inside in Hin; cbn in Hin; tauto).
    constructor; cbn; try done.
    + intros u Hu. apply lookup_insert_is_Some' in Hu as [<-|Hu]; [|by apply Haw].
      apply eq_None_not_Some. unfold inside in Hin. cbn in Hin. tauto.
    + intros Hne. rewrite size_insert by done. specialize (Hlp Hne). lia.
  - constructor; cbn; try done.
    + intros u Hu. destruct Hb as [_ _ _ _ _ _ Hc].
      assert (u <> t). { intros ->. apply Hin. unfold inside. cbn. right. right. right. eexists. split; [exact Hc|done]. }
      set_solver.
    + intros Hne. rewrite size_add; [specialize (Hlc Hne); lia|]. unfold inside in Hin. cbn in Hin. tauto.
Qed.

Lemma steps_ok s s' : sys_ok s -> rtc step s s' -> sys_ok s'.
Proof. intros Hi Hs. induction Hs; eauto using step_ok. Qed.

Lemma rounds_ok s s' : sys_ok s -> rtc round s s' -> sys_ok s'.
Proof. intros Hi Hs. induction Hs; eauto using round_ok. Qed.

(** When nothing is left to do, nobody is awake, unless memory has run out. *)
Lemma settled s xs wp wc :
  sys_inv s xs wp wc -> nf round s ->
  sy_consuming s = ∅ /\ (memory_left (buffer_ll (sy_buffer s)) -> sy_producing s = ∅).
Proof.
  intros [Hb _ _ _ _ _ _ _ _] Hnf. destruct s as [b pr sl co log]. cbn in *. split.
  - apply leibniz_equiv, elem_of_equiv_empty. intros t Ht. apply Hnf. destruct xs as [|x xs].
    + destruct (consume_empty base sz t true b wp wc Hb) as (b'&E&_). eexists. by eapply consumer_sleeps.
    + destruct (consume_some base sz Hsz t true b x xs wp wc Hb) as (b'&E&_). eexists. by eapply consumed.
  - intros Hm. apply map_eq. intros t. rewrite lookup_empty. destruct (pr !! t) as [c|] eqn:Ht; [|done].
    exfalso. apply Hnf. destruct (decide (Z.of_nat (length xs) = sz)).
    + destruct (produce_full base sz t c b xs wp wc Hb) as (b'&E&_); [done|]. eexists. by eapply producer_sleeps.
    + destruct (produce_room base sz Hsz t c b xs wp wc Hb Hm) as (x&b'&_&E&_); [destruct Hb; lia|].
      eexists. by eapply produced.
Qed.
End System.

Lemma create_ok base sz t mem ans b mem' :
  0 <= sz < 2 ^ 31 -> shared_buffer_create t mem base ans sz = Done (Some b, mem') ->
  sb_lock b <> None -> ll_lock (the_list (buffer_ll b)) <> None -> sys_ok base sz (mkSystem b ∅ ∅ ∅ []).
Proof.
  intros Hsz Hc Hlk Hll. unfold shared_buffer_create in Hc. destruct (kalloc mem) as [[|] mem1]; [|discriminate]. kred.
  apply bind_Done_inv in Hc as ([l mem2]&Hl&Hc).
  unfold cv_create in Hc. destruct (kalloc3 mem2) as [[|] mem3]; [|cbn in Hc; inv_done; discriminate].
  destruct (kalloc3 mem3) as [[|] mem4]; [|cbn in Hc; inv_done; discriminate].
  unfold lock_create in Hc. destruct (kalloc3 mem4) as [[|] mem5]; injection Hc as <- <-; [|done].
  pose proof (sim_create base _ _ _ ans Hl Hll) as Hsim.
  exists [], [], []. constructor; cbn in *; try done; [|apply NoDup_nil_2|apply NoDup_nil_2|].
  - constructor; cbn; try done; [lia|by exists new_lock].
  - intros t'. rewrite lookup_empty, elem_of_nil. split; [done|by intros []].
Qed.

(** C7. The shared buffer, for any number of producing and consuming threads and any
    order of their rounds: what is in it is what the operations that have been done
    leave on a stack (the last character produced is the first consumed), each
    consumer got the top of that stack, the count is the number of items and never
    exceeds the size; and there is no deadlock: however the threads that are awake
    go on, they come to an end, and then a consumer sleeps only if the buffer is
    empty, and a producer, as long as there is memory, only if it is full. *)
Theorem shared_buffer_correct base sz t mem ans b mem' s :
  0 <= sz < 2 ^ 31 -> shared_buffer_create t mem base ans sz = Done (Some b, mem') ->
  sb_lock b <> None -> ll_lock (the_list (buffer_ll b)) <> None ->
  rtc step (mkSystem b ∅ ∅ ∅ []) s ->
  (exists stack, replay (sy_log s) = Some stack /\ count (sy_buffer s) = Z.of_nat (length stack) /\
    Z.of_nat (length stack) <= sz) /\
  Acc (flip round) s /\
  (forall s' stack c, rtc round s s' -> nf round s' -> replay (sy_log s') = Some stack -> consumer_cv (sy_buffer s') = Some c ->
    (cv_wchan c <> [] -> stack = []) /\
    (memory_left (buffer_ll (sy_buffer s')) -> sy_asleep s' <> ∅ -> Z.of_nat (length stack) = sz)).
Proof.
  intros Hsz Hc Hlk Hll Hs. pose proof (create_ok base sz t mem ans b mem' Hsz Hc Hlk Hll) as Hok.
  apply (steps_ok base sz ltac:(lia) _ s) in Hok; [|done]. split; [|split].
  - destruct Hok as (xs&wp&wc&[[_ Hn _ Hle _ _ _] Hlog _ _ _ _ _ _ _]).
    exists (idata <$> xs). rewrite length_fmap. done.
  - apply (rounds_terminate base sz); [lia|done].
  - intros s' stack c Hr Hnf Hst Hcv.
    destruct (rounds_ok base sz ltac:(lia) s s' Hok Hr) as (xs&wp&wc&Hi).
    destruct (settled base sz ltac:(lia) s' xs wp wc Hi Hnf) as (Hco&Hpr).
    destruct Hi as [[_ _ _ Hle _ _ Hccv] Hlog _ _ Hsl _ _ Hlc Hlp].
    rewrite Hlog in Hst. injection Hst as <-. rewrite Hccv in Hcv. injection Hcv as <-. cbn. rewrite length_fmap. split.
    + intros Hne. specialize (Hlc Hne). rewrite Hco, size_empty in Hlc. destruct xs; [done|cbn in Hlc; lia].
    + intros Hm Hne. assert (wp <> []) as Hwp.
      { intros ->. apply Hne, map_eq. intros u. rewrite lookup_empty. apply eq_None_not_Some. rewrite <- Hsl.
        apply not_elem_of_nil. }
      specialize (Hlp Hwp). rewrite (Hpr Hm), map_size_empty in Hlp. lia.
Qed.

(** A buffer for one character: the second producer sleeps until the consumer has
    been there. *)
Definition empty_buffer : Shared_Buffer :=
  mkSb (mkLL (mkList 0 0 0 (Some new_lock)) ∅ [16; 32]) 0 1 (Some new_lock) (Some (mkCv None [])) (Some (mkCv None [])).

Lemma sample_steps :
  exists s, rtc step (mkSystem empty_buffer ∅ ∅ ∅ []) s /\
    sy_log s = [Consumed 97; Produced 97] /\ sy_producing s = {[2 := 98]}.
Proof.
  eexists. split; [|split].
  - eapply rtc_l; [apply (call_produce 1 97)|].
    { unfold inside. cbn. intros [[? H]|[[? H]|[H|(c&[= <-]&H)]]]; [done|done|set_solver|by apply elem_of_nil in H]. }
    eapply rtc_l; [apply go; eapply (produced 1 97); [reflexivity|by exists 16, [32]|vm_compute; reflexivity]|].
    eapply rtc_l; [apply (call_produce 2 98)|].
    { unfold inside. cbn. intros [[? H]|[[? H]|[H|(c&[= <-]&H)]]]; [done|done|set_solver|by apply elem_of_nil in H]. }
    eapply rtc_l; [apply go; eapply (producer_sleeps 2 98); [reflexivity|vm_compute; reflexivity]|].
    eapply rtc_l; [apply (call_consume 3)|].
    { unfold inside. cbn. intros [[? H]|[[? H]|[H|(c&[= <-]&H)]]]; [done|done|set_solver|by apply elem_of_nil in H]. }
    eapply rtc_l; [apply go; eapply (consumed 3 true); [set_solver|vm_compute; reflexivity]|].
    apply rtc_refl.
  - reflexivity.
  - vm_compute. reflexivity.
Qed.

Lemma shared_buffer_correct_witness :
  exists s, rtc step (mkSystem empty_buffer ∅ ∅ ∅ []) s /\ sy_log s = [Consumed 97; Produced 97] /\
  (exists stack, replay (sy_log s) = Some stack /\ count (sy_buffer s) = Z.of_nat (length stack) /\
    Z.of_nat (length stack) <= 1) /\
  Acc (flip round) s /\
  (forall s' stack c, rtc round s s' -> nf round s' -> replay (sy_log s') = Some stack -> consumer_cv (sy_buffer s') = Some c ->
    (cv_wchan c <> [] -> stack = []) /\
    (memory_left (buffer_ll (sy_buffer s')) -> sy_asleep s' <> ∅ -> Z.of_nat (length stack) = 1)).
Proof.
  destruct sample_steps as (s&Hs&Hlog&_). exists s. split; [exact Hs|]. split; [exact Hlog|].
  apply (shared_buffer_correct ∅ 1 1 [] [16; 32] empty_buffer [] s); [lia|reflexivity|discriminate|discriminate|exact Hs].
Defined.
