(* ===== verification/Console.v ===== *)
(** * dev/generic/console.c and dev/lamebus/lser.c: the console and the serial port

    The input buffer and the output of the console are shared between threads and
    interrupt handlers.  Two systems interleave them, one access to the buffer at a
    time: characters that arrive with threads that read, and threads that print, by
    waiting for interrupts or by polling, with the interrupts of the port.  What runs
    under the spinlock of the port is one event (see [Spinlock]), and so is a round of
    [P] and a call of [V].

    The port is outside of the repository.  A read of a register is answered by a
    number; what the driver relies on is a condition on the events: the port reports
    that it is ready, when it is polled, in the end, and by an interrupt once for a character that [lser_write] has given it. *)

From stdpp Require Import relations.
From Stdlib Require Import ZifyNat.
From S2P Require Import Prelude Events Synch SynchSteps.

#[local] Set Warnings "-clear-no-such-hyp".

(** ** dev/lamebus/lser.c *)

Definition LSER_REG_CHAR : Z := 0.
Definition LSER_REG_WIRQ : Z := 4.
Definition LSER_REG_RIRQ : Z := 8.
Definition LSER_IRQ_ENABLE : Z := 1.
Definition LSER_IRQ_ACTIVE : Z := 2.
Definition LSER_IRQ_FORCE : Z := 4.

(** [ls_bus] are the writes to the registers, the last one first. *)
Record lser_softc := mkLser { ls_wbusy : bool; ls_bus : list (Z * Z) }.

Definition bus_write_register (reg val : Z) (sc : lser_softc) : lser_softc := mkLser (ls_wbusy sc) ((reg, val) :: ls_bus sc).
Definition set_wbusy (b : bool) (sc : lser_softc) : lser_softc := mkLser b (ls_bus sc).

Definition active (x : Z) : bool := negb (Z.land x LSER_IRQ_ACTIVE =? 0).

(** The section of [lser_irq] under the lock, given what is read from the three
    registers: whether [ls_start] is to be called, and the character for [ls_input]. *)
Definition lser_irq (wirq rirq char : Z) (sc : lser_softc) : bool * option Z * lser_softc :=
  let '(clear_to_write, sc) :=
    (if active wirq then (true, bus_write_register LSER_REG_WIRQ LSER_IRQ_ENABLE (set_wbusy false sc)) else (false, sc)) in
  let '(got_a_read, sc) :=
    (if active rirq then (Some char, bus_write_register LSER_REG_RIRQ LSER_IRQ_ENABLE sc) else (None, sc)) in
  (clear_to_write, got_a_read, sc).

Definition lser_write (ch : Z) (sc : lser_softc) : outcome lser_softc :=
  if ls_wbusy sc then Panic else mret (bus_write_register LSER_REG_CHAR ch (set_wbusy true sc)).

(** Reads [LSER_REG_WIRQ] until it is active; [reads] is what it reads, and the loop
    does not end if none of it is. *)
Fixpoint lser_poll_until_write (reads : list Z) : outcome (list Z) :=
  match reads with
  | [] => Blocked
  | val :: reads => if active val then mret reads else lser_poll_until_write reads
  end.

Definition lser_writepolled (ch : Z) (reads : list Z) (sc : lser_softc) : outcome lser_softc :=
  '(irqpending, reads, sc) ←
    (if ls_wbusy sc then
       reads ← lser_poll_until_write reads;
       mret (true, reads, bus_write_register LSER_REG_WIRQ (Z.lor LSER_IRQ_FORCE LSER_IRQ_ENABLE) sc)
     else mret (false, reads, bus_write_register LSER_REG_WIRQ 0 sc));
  let sc := bus_write_register LSER_REG_CHAR ch sc in
  _ ← lser_poll_until_write reads;
  mret (if negb irqpending then bus_write_register LSER_REG_WIRQ LSER_IRQ_ENABLE sc else sc).

Definition config_lser (sc : lser_softc) : lser_softc :=
  bus_write_register LSER_REG_WIRQ LSER_IRQ_ENABLE (bus_write_register LSER_REG_RIRQ LSER_IRQ_ENABLE (set_wbusy false sc)).

(** The characters given to the port, in order. *)
Definition chars_out (l : list (Z * Z)) : list Z := rev (map snd (filter (fun p => p.1 = LSER_REG_CHAR) l)).
Arguments chars_out : simpl never.

(** ** The input buffer *)

Definition CONSOLE_INPUT_BUFFER_SIZE : Z := 32.

Record con_buf := mkBuf { cs_gotchars : list Z; cs_gotchars_head : Z; cs_gotchars_tail : Z }.

Definition next_slot (i : Z) : Z := u32 (i + 1) mod CONSOLE_INPUT_BUFFER_SIZE.

(** [con_input] in its accesses: the test, the character, the head; then [V]. *)
Definition con_input_test (b : con_buf) : option Z :=
  let nexthead := next_slot (cs_gotchars_head b) in
  if nexthead =? cs_gotchars_tail b then None else Some nexthead.
Definition con_input_store (ch : Z) (b : con_buf) : con_buf :=
  mkBuf (<[Z.to_nat (cs_gotchars_head b) := ch]> (cs_gotchars b)) (cs_gotchars_head b) (cs_gotchars_tail b).
Definition con_input_head (nexthead : Z) (b : con_buf) : con_buf := mkBuf (cs_gotchars b) nexthead (cs_gotchars_tail b).

(** [getch_intr] after [P]: the character, then the tail. *)
Definition getch_char (b : con_buf) : outcome Z := deref (cs_gotchars b !! Z.to_nat (cs_gotchars_tail b)).
Definition getch_tail (b : con_buf) : con_buf := mkBuf (cs_gotchars b) (cs_gotchars_head b) (next_slot (cs_gotchars_tail b)).

(** A thread in [getch]: in the loop of [P], through it, with its character. *)
Inductive reader := InP | Through | Have (ret : Z).
(** The interrupt handler in [con_input]. *)
Inductive handler := Quiet | Arrived (ch : Z) | Storing (ch nexthead : Z) | Stored (ch nexthead : Z) | Signalling.

(** [in_accepted]: the characters put into the buffer; [in_got]: those that readers
    got, with the last at the end of the list. *)
Record insys := mkIn {
  in_sem : sem_sys; in_buf : con_buf; in_irq : handler; in_readers : gmap Z reader;
  in_accepted : list Z; in_got : list Z }.

Definition in_start : insys := mkIn (sem_start 0) (mkBuf (replicate 32 0) 0 0) Quiet ∅ [] [].

Inductive in_event := Arrive (ch : Z) | Handle | Getch (t : Z) | Go (t : Z).

Section Input.
(** Do readers exclude each other, as those in [con_io] do with [con_userlock_read]? *)
Variable exclusive : bool.

Definition in_allowed (e : in_event) (s : insys) : Prop :=
  match e with
  | Arrive ch => in_irq s = Quiet /\ 0 <= ch < 256
  | Handle => in_irq s <> Quiet
  | Getch t => in_readers s !! t = None /\ (exclusive = true -> in_readers s = ∅)
  | Go t => is_Some (in_readers s !! t) /\ (in_readers s !! t = Some InP -> t ∈ ss_trying (in_sem s))
  end.

Definition set_irq (h : handler) (s : insys) : insys := mkIn (in_sem s) (in_buf s) h (in_readers s) (in_accepted s) (in_got s).
Definition set_buf (b : con_buf) (s : insys) : insys := mkIn (in_sem s) b (in_irq s) (in_readers s) (in_accepted s) (in_got s).
Definition set_sem (x : sem_sys) (s : insys) : insys := mkIn x (in_buf s) (in_irq s) (in_readers s) (in_accepted s) (in_got s).
Definition set_reader (t : Z) (r : reader) (s : insys) : insys :=
  mkIn (in_sem s) (in_buf s) (in_irq s) (<[t := r]> (in_readers s)) (in_accepted s) (in_got s).

(** One round of [P], and [V], in a system of threads. *)
Definition sys_P (t : Z) (x : sem_sys) : bool * sem_sys :=
  let '(through, sem) := P t (ss_sem x) in
  (through, mkSemSys sem (ss_trying x ∖ {[t]}) (ss_ups x) (if through : bool then ss_downs x + 1 else ss_downs x)).
Definition sys_V (x : sem_sys) : outcome sem_sys :=
  '(woken, sem) ← V (ss_sem x); mret (mkSemSys sem (ss_trying x ∪ woken_set woken) (ss_ups x + 1) (ss_downs x)).
Definition sys_call (t : Z) (x : sem_sys) : sem_sys := mkSemSys (ss_sem x) ({[t]} ∪ ss_trying x) (ss_ups x) (ss_downs x).

Definition in_exec (e : in_event) (s : insys) : outcome insys :=
  match e with
  | Arrive ch => mret (set_irq (Arrived ch) s)
  | Handle =>
      match in_irq s with
      | Quiet => Blocked
      | Arrived ch => mret (set_irq (match con_input_test (in_buf s) with None => Quiet | Some nexthead => Storing ch nexthead end) s)
      | Storing ch nexthead => mret (set_irq (Stored ch nexthead) (set_buf (con_input_store ch (in_buf s)) s))
      | Stored ch nexthead =>
          mret (mkIn (in_sem s) (con_input_head nexthead (in_buf s)) Signalling (in_readers s) (in_accepted s ++ [ch]) (in_got s))
      | Signalling => x ← sys_V (in_sem s); mret (set_irq Quiet (set_sem x s))
      end
  | Getch t => mret (set_reader t InP (set_sem (sys_call t (in_sem s)) s))
  | Go t =>
      r ← deref (in_readers s !! t);
      match r with
      | InP => let '(through, x) := sys_P t (in_sem s) in mret (set_reader t (if through : bool then Through else InP) (set_sem x s))
      | Through => ret ← getch_char (in_buf s); mret (set_reader t (Have ret) s)
      | Have ret =>
          mret (mkIn (in_sem s) (getch_tail (in_buf s)) (in_irq s) (delete t (in_readers s)) (in_accepted s) (in_got s ++ [ret]))
      end
  end.
End Input.

(** ** Output *)

(** A thread in [putch_intr] has [ch] to print: in the loop of [P], or through it. *)
Record outsys := mkOut {
  out_sem : sem_sys; out_lser : lser_softc; out_in_P : gmap Z Z; out_through : gmap Z Z;
  out_starts : nat;            (* handlers that are about to call con_start *)
  out_owed : bool;             (* the port has a character to report on *)
  out_done : list Z }.         (* the characters printed *)

Definition out_start : outsys := mkOut (sem_start 1) (config_lser (mkLser false [])) ∅ ∅ 0 false [].

Inductive out_event :=
  | Putch (t ch : Z) | Print (t : Z) | Interrupt (wirq rirq char : Z) | Start | Polled (ch : Z) (reads : list Z).

Definition out_allowed (e : out_event) (s : outsys) : Prop :=
  match e with
  | Putch t ch => out_in_P s !! t = None /\ out_through s !! t = None
  | Print t => t ∈ ss_trying (out_sem s) \/ is_Some (out_through s !! t)
  | Interrupt wirq _ _ => active wirq = true -> out_owed s = true
  | Start => (0 < out_starts s)%nat
  | Polled _ reads => (2 <= length (filter (fun x => active x = true) reads))%nat
  end.

Definition out_exec (e : out_event) (s : outsys) : outcome outsys :=
  match e with
  | Putch t ch => mret (mkOut (sys_call t (out_sem s)) (out_lser s) (<[t := ch]> (out_in_P s)) (out_through s) (out_starts s) (out_owed s) (out_done s))
  | Print t =>
      match out_through s !! t with
      | Some ch =>
          sc ← lser_write ch (out_lser s);
          mret (mkOut (out_sem s) sc (out_in_P s) (delete t (out_through s)) (out_starts s) true (out_done s ++ [ch]))
      | None =>
          ch ← deref (out_in_P s !! t);
          let '(through, x) := sys_P t (out_sem s) in
          mret (if through : bool
                then mkOut x (out_lser s) (delete t (out_in_P s)) (<[t := ch]> (out_through s)) (out_starts s) (out_owed s) (out_done s)
                else mkOut x (out_lser s) (out_in_P s) (out_through s) (out_starts s) (out_owed s) (out_done s))
      end
  | Interrupt wirq rirq char =>
      let '(clear_to_write, _, sc) := lser_irq wirq rirq char (out_lser s) in
      mret (mkOut (out_sem s) sc (out_in_P s) (out_through s) (if clear_to_write : bool then S (out_starts s) else out_starts s)
              (if clear_to_write : bool then false else out_owed s) (out_done s))
  | Start =>
      x ← sys_V (out_sem s);
      mret (mkOut x (out_lser s) (out_in_P s) (out_through s) (pred (out_starts s)) (out_owed s) (out_done s))
  | Polled ch reads =>
      sc ← lser_writepolled ch reads (out_lser s);
      mret (mkOut (out_sem s) sc (out_in_P s) (out_through s) (out_starts s) (out_owed s) (out_done s ++ [ch]))
  end.

(** ** Semaphores in the systems *)

Lemma sys_P_step t x : t ∈ ss_trying x -> sem_step x (snd (sys_P t x)).
Proof.
  intros Ht. apply sem_loop. destruct x as [sem tr u d]. unfold sys_P. cbn [ss_sem ss_trying ss_ups ss_downs] in *.
  destruct (P t sem) as [[] sem'] eqn:HP; cbn [snd]; by constructor.
Qed.

Lemma sys_V_step x x' : sys_V x = Done x' -> sem_step x x'.
Proof.
  intros H. destruct x as [sem tr u d]. unfold sys_V in H. cbn [ss_sem ss_trying ss_ups ss_downs] in *.
  apply bind_Done_inv in H as ([w sem']&HV&[= <-]). by constructor.
Qed.

Lemma sys_call_step t x : t ∉ ss_trying x -> t ∉ sem_wchan (ss_sem x) -> sem_step x (sys_call t x).
Proof. intros H1 H2. destruct x as [sem tr u d]. by constructor. Qed.

(** What the events do to a semaphore of the invariant. *)
Lemma sys_P_eq n t x :
  sem_inv n x ->
  if sem_count (ss_sem x) =? 0 then sys_P t x = (false, mkSemSys (mkSem 0 (sem_wchan (ss_sem x) ++ [t])) (ss_trying x ∖ {[t]}) (ss_ups x) (ss_downs x))
  else sys_P t x = (true, mkSemSys (mkSem (sem_count (ss_sem x) - 1) (sem_wchan (ss_sem x))) (ss_trying x ∖ {[t]}) (ss_ups x) (ss_downs x + 1)).
Proof.
  intros H. unfold sys_P. destruct (P_cases t (ss_sem x)) as [(E&->)|(E&->)].
  - by rewrite E.
  - by rewrite (proj2 (Z.eqb_neq _ _)).
Qed.

Lemma sys_V_eq x :
  0 <= sem_count (ss_sem x) < 2 ^ 32 - 1 ->
  sys_V x = Done (mkSemSys (mkSem (sem_count (ss_sem x) + 1) (tail (sem_wchan (ss_sem x))))
    (ss_trying x ∪ woken_set (head (sem_wchan (ss_sem x)))) (ss_ups x + 1) (ss_downs x)).
Proof.
  intros H. unfold sys_V, V. rewrite u32_small by lia. rewrite Z.gtb_ltb, (proj2 (Z.ltb_lt _ _)) by lia. kred. done.
Qed.

(** ** The ring *)

Lemma next_slot_eq i : 0 <= i < 32 -> next_slot i = (i + 1) mod 32.
Proof. intros. unfold next_slot. by rewrite u32_small by lia. Qed.

(** The buffer holds the characters [q]. *)
Record ring (b : con_buf) (q : list Z) : Prop := {
  rg_len : length (cs_gotchars b) = 32%nat;
  rg_tail : 0 <= cs_gotchars_tail b < 32;
  rg_head : cs_gotchars_head b = (cs_gotchars_tail b + Z.of_nat (length q)) mod 32;
  rg_room : (length q <= 31)%nat;
  rg_slots : forall i c, q !! i = Some c -> cs_gotchars b !! Z.to_nat ((cs_gotchars_tail b + Z.of_nat i) mod 32) = Some c }.

Lemma ring_test b q : ring b q -> con_input_test b = if (length q =? 31)%nat then None else Some (next_slot (cs_gotchars_head b)).
Proof.
  intros [R1 R2 R3 R4 R5]. unfold con_input_test. rewrite next_slot_eq by lia.
  destruct (Nat.eqb_spec (length q) 31), (Z.eqb_spec ((cs_gotchars_head b + 1) mod 32) (cs_gotchars_tail b)); try done; lia.
Qed.

Lemma ring_store b q ch :
  ring b q -> (length q <= 30)%nat -> ring (con_input_store ch b) q /\ cs_gotchars (con_input_store ch b) !! Z.to_nat (cs_gotchars_head b) = Some ch.
Proof.
  intros [R1 R2 R3 R4 R5] Hq. split; [split|]; cbn; try done.
  - by rewrite length_insert.
  - intros i c Hi. rewrite list_lookup_insert_ne; [by apply R5|]. apply lookup_lt_Some in Hi. lia.
  - apply list_lookup_insert_eq. lia.
Qed.

Lemma ring_put b q ch :
  ring b q -> (length q <= 30)%nat -> cs_gotchars b !! Z.to_nat (cs_gotchars_head b) = Some ch ->
  ring (con_input_head (next_slot (cs_gotchars_head b)) b) (q ++ [ch]).
Proof.
  intros [R1 R2 R3 R4 R5] Hq Hc. split; cbn; try done.
  - rewrite next_slot_eq, length_app by lia. cbn. lia.
  - rewrite length_app. cbn. lia.
  - intros i c Hi. apply lookup_snoc_Some in Hi as [[Hl Hi]|[-> <-]]; [by apply R5|]. by rewrite <- R3.
Qed.

Lemma ring_take b c q : ring b (c :: q) -> getch_char b = Done c /\ ring (getch_tail b) q.
Proof.
  intros [R1 R2 R3 R4 R5]. cbn [length] in *. split.
  - unfold getch_char. specialize (R5 0%nat c eq_refl). replace ((cs_gotchars_tail b + Z.of_nat 0) mod 32) with (cs_gotchars_tail b) in R5 by lia.
    by rewrite R5.
  - split; cbn; try done; rewrite ?next_slot_eq by lia; try lia.
    intros i d Hi. specialize (R5 (S i) d Hi). rewrite <- R5. do 2 f_equal. lia.
Qed.

(** ** Input *)

Definition the_reader (r : option (Z * reader)) : gmap Z reader := match r with None => ∅ | Some (t, r) => {[t := r]} end.
(** Has it a unit of the semaphore? *)
Definition units (r : option (Z * reader)) : Z := match r with None | Some (_, InP) => 0 | _ => 1 end.

(** The reader's place in the semaphore. *)
Definition placed (r : option (Z * reader)) (x : sem_sys) : Prop :=
  match r with
  | Some (t, InP) => (ss_trying x = {[t]} /\ sem_wchan (ss_sem x) = []) \/ (ss_trying x = ∅ /\ sem_wchan (ss_sem x) = [t])
  | _ => ss_trying x = ∅ /\ sem_wchan (ss_sem x) = []
  end.

Definition handler_ok (h : handler) (b : con_buf) (q : list Z) : Prop :=
  match h with
  | Storing ch nexthead => nexthead = next_slot (cs_gotchars_head b) /\ (length q <= 30)%nat
  | Stored ch nexthead => nexthead = next_slot (cs_gotchars_head b) /\ (length q <= 30)%nat /\
      cs_gotchars b !! Z.to_nat (cs_gotchars_head b) = Some ch
  | _ => True
  end.

Record in_inv (s : insys) (q : list Z) (r : option (Z * reader)) : Prop := mkInInv {
  ii_sem : sem_inv 0 (in_sem s);
  ii_ring : ring (in_buf s) q;
  ii_acc : in_accepted s = in_got s ++ q;
  ii_count : sem_count (ss_sem (in_sem s)) + units r + (match in_irq s with Signalling => 1 | _ => 0 end) = Z.of_nat (length q);
  ii_readers : in_readers s = the_reader r;
  ii_placed : placed r (in_sem s);
  ii_have : match r with Some (_, Have ret) => head q = Some ret | _ => True end;
  ii_irq : handler_ok (in_irq s) (in_buf s) q }.

Definition in_good (s : insys) : Prop := exists q r, in_inv s q r.

Definition never (e : in_event) (s : insys) : Prop := False.

(** The handler's turn. *)
Lemma in_handle s : in_good s -> in_irq s <> Quiet -> event_goes in_exec never in_good Handle s.
Proof.
  intros (q & r & H) Hq. destruct s as [x b h rd ac gt]. destruct H as [I1 I2 I3 I4 I5 I6 I7 I8]. cbn in *.
  apply (goes_on _ never in_good Handle _ (match h with
    | Arrived ch => mkIn x b (match con_input_test b with None => Quiet | Some nexthead => Storing ch nexthead end) rd ac gt
    | Storing ch nexthead => mkIn x (con_input_store ch b) (Stored ch nexthead) rd ac gt
    | Stored ch nexthead => mkIn x (con_input_head nexthead b) Signalling rd (ac ++ [ch]) gt
    | _ => mkIn (mkSemSys (mkSem (sem_count (ss_sem x) + 1) (tail (sem_wchan (ss_sem x)))) (ss_trying x ∪ woken_set (head (sem_wchan (ss_sem x)))) (ss_ups x + 1) (ss_downs x))
             b Quiet rd ac gt end)); [by intros []|..].
  - cbn. destruct h; try done. rewrite sys_V_eq; [done|]. pose proof (sem_count_range _ _ I1). pose proof (rg_room _ _ I2).
    destruct r as [[t []]|]; cbn in I4; lia.
  - destruct h as [|ch|ch nh|ch nh|]; [done|..].
    + exists q, r. constructor; cbn; try done; rewrite (ring_test _ _ I2); destruct (Nat.eqb_spec (length q) 31); try done.
      pose proof (rg_room _ _ I2). split; [done|lia].
    + destruct I8 as [-> Hl]. destruct (ring_store b q ch I2 Hl) as [Hr Hc]. exists q, r. constructor; cbn; try done.
    + destruct I8 as (-> & Hl & Hc). pose proof (ring_put b q ch I2 Hl Hc) as Hr. exists (q ++ [ch]), r. constructor; cbn; try done.
      * by rewrite I3, app_assoc.
      * rewrite length_app. cbn. lia.
      * destruct r as [[t [| |ret]]|]; try done. by destruct q.
    + assert (Hc : 0 <= sem_count (ss_sem x) < 2 ^ 32 - 1).
      { pose proof (sem_count_range _ _ I1). pose proof (rg_room _ _ I2). destruct r as [[t []]|]; cbn in I4; lia. }
      exists q, r. constructor; cbn; try done.
      * eapply sem_step_inv; [exact I1|]. apply sys_V_step. by apply sys_V_eq.
      * lia.
      * destruct r as [[t [| |ret]]|]; cbn in *; destruct I6 as [[E1 E2]|[E1 E2]] || destruct I6 as [E1 E2];
          rewrite E1, E2; cbn; first [split; [set_solver|done] | left; split; [set_solver|done]].
Qed.

(** A reader's turn. *)
Lemma in_go t s : in_good s -> in_allowed true (Go t) s -> event_goes in_exec never in_good (Go t) s.
Proof.
  intros (q & r & H) [Hs Ht]. destruct s as [x b h rd ac gt]. destruct H as [I1 I2 I3 I4 I5 I6 I7 I8]. cbn in *. subst rd.
  destruct r as [[t' r]|]; cbn in Hs; [|by rewrite lookup_empty in Hs; destruct Hs].
  destruct (decide (t' = t)) as [->|Hne]; [|rewrite lookup_singleton_ne in Hs by done; by destruct Hs].
  cbn [the_reader] in Ht. rewrite lookup_singleton_eq in Ht.
  assert (He : forall x' b' r' ac' gt' q', in_inv (mkIn x' b' h (<[t := r']> {[t := r]}) ac' gt') q' (Some (t, r')) ->
    in_good (mkIn x' b' h (<[t := r']> {[t := r]}) ac' gt')) by (intros; by eexists _, _).
  destruct r as [| |ret].
  - specialize (Ht eq_refl). destruct I6 as [[E1 E2]|[E1 E2]]; [|rewrite E1 in Ht; by apply elem_of_empty in Ht].
    pose proof (sys_P_eq 0 t x I1) as HP. pose proof (sys_P_step t x Ht) as Hst.
    destruct (Z.eqb_spec (sem_count (ss_sem x)) 0) as [Hc|Hc]; rewrite HP in Hst; cbn [snd] in Hst.
    + eapply (goes_on _ never in_good); [by intros []| |].
      { cbn. rewrite lookup_singleton_eq. cbn. rewrite HP. reflexivity. }
      eapply He with (q' := q). constructor; cbn; try done.
      * by eapply sem_step_inv.
      * rewrite Hc in I4. cbn in I4. lia.
      * by rewrite insert_singleton_eq.
      * right. rewrite E1, E2. split; [set_solver|done].
    + eapply (goes_on _ never in_good); [by intros []| |].
      { cbn. rewrite lookup_singleton_eq. cbn. rewrite HP. reflexivity. }
      eapply He with (q' := q). constructor; cbn; try done.
      * by eapply sem_step_inv.
      * cbn in I4. lia.
      * by rewrite insert_singleton_eq.
      * rewrite E1, E2. split; [set_solver|done].
  - destruct q as [|c q].
    { pose proof (sem_count_range _ _ I1). cbn in I4. destruct h; lia. }
    destruct (ring_take b c q I2) as [Hc _]. eapply (goes_on _ never in_good); [by intros []| |].
    { cbn. rewrite lookup_singleton_eq. cbn. rewrite Hc. reflexivity. }
    eapply He with (q' := c :: q). constructor; cbn; try done. by rewrite insert_singleton_eq.
  - destruct q as [|c q]; [done|]. injection I7 as ->. destruct (ring_take b ret q I2) as [_ Hr].
    eapply (goes_on _ never in_good); [by intros []| |].
    { cbn. rewrite lookup_singleton_eq. reflexivity. }
    exists q, None. constructor; cbn; try done.
    + by rewrite I3, <- app_assoc.
    + cbn in I4. lia.
    + apply delete_singleton_eq.
    + destruct h as [|ch|ch nh|ch nh|]; cbn in *; try done; [destruct I8|destruct I8 as (? & ? & ?)]; split_and?; try done; lia.
Qed.

Lemma in_event_good e s : in_good s -> in_allowed true e s -> event_goes in_exec never in_good e s.
Proof.
  intros Hg Ha. destruct e as [ch| |t|t]; [|by apply in_handle| |by apply in_go].
  - destruct Hg as (q & r & [I1 I2 I3 I4 I5 I6 I7 I8]). destruct Ha as [Hq Hch]. rewrite Hq in *.
    eapply (goes_on _ never in_good); [by intros []|reflexivity|]. exists q, r. by constructor.
  - destruct Hg as (q & r & [I1 I2 I3 I4 I5 I6 I7 I8]). destruct Ha as [_ He]. specialize (He eq_refl). rewrite I5 in He.
    destruct r as [[t' r]|]; [cbn in He; by apply map_non_empty_singleton in He|]. destruct I6 as [E1 E2].
    eapply (goes_on _ never in_good); [by intros []|reflexivity|]. exists q, (Some (t, InP)). constructor; cbn; try done.
    + eapply sem_step_inv; [exact I1|]. apply sys_call_step; rewrite ?E1, ?E2; set_solver.
    + by rewrite I5.
    + left. rewrite E1, E2. split; [set_solver|done].
Qed.

Lemma in_start_good : in_good in_start.
Proof.
  exists [], None. constructor; cbn; try done.
  - apply (sem_reachable_inv 0); [lia|constructor].
  - split; cbn; try done; lia.
Qed.

(** ** Output *)

Record out_inv (s : outsys) : Prop := mkOutInv {
  oi_sem : sem_inv 1 (out_sem s);
  oi_one : sem_count (ss_sem (out_sem s)) + Z.of_nat (size (out_through s)) + (if ls_wbusy (out_lser s) then 1 else 0)
    + Z.of_nat (out_starts s) = 1;
  oi_owed : out_owed s = ls_wbusy (out_lser s);
  oi_waiting : forall t, is_Some (out_in_P s !! t) <-> t ∈ ss_trying (out_sem s) \/ t ∈ sem_wchan (ss_sem (out_sem s));
  oi_apart : forall t, is_Some (out_in_P s !! t) -> out_through s !! t = None;
  oi_done : chars_out (ls_bus (out_lser s)) = out_done s }.

Lemma chars_out_char ch l : chars_out ((LSER_REG_CHAR, ch) :: l) = chars_out l ++ [ch].
Proof. unfold chars_out. rewrite filter_cons_True by done. done. Qed.
Lemma chars_out_other reg val l : reg <> LSER_REG_CHAR -> chars_out ((reg, val) :: l) = chars_out l.
Proof. intros H. unfold chars_out. by rewrite filter_cons_False. Qed.

Lemma poll_ok reads n :
  (S n <= length (filter (fun x => active x = true) reads))%nat ->
  exists rest, lser_poll_until_write reads = Done rest /\ (n <= length (filter (fun x => active x = true) rest))%nat.
Proof.
  induction reads as [|x reads IH]; [cbn; lia|]. intros H. cbn [lser_poll_until_write]. destruct (active x) eqn:Hx.
  - rewrite filter_cons_True in H by done. cbn in H. exists reads. split; [done|lia].
  - rewrite filter_cons_False in H by congruence. by apply IH.
Qed.

Lemma writepolled_ok ch reads sc :
  (2 <= length (filter (fun x => active x = true) reads))%nat ->
  exists sc', lser_writepolled ch reads sc = Done sc' /\ ls_wbusy sc' = ls_wbusy sc /\ chars_out (ls_bus sc') = chars_out (ls_bus sc) ++ [ch].
Proof.
  intros H. unfold lser_writepolled. destruct sc as [wb bus]. cbn [ls_wbusy].
  assert (Hone : forall l, (1 <= length (filter (fun x => active x = true) l))%nat -> exists r, lser_poll_until_write l = Done r).
  { intros l Hl. destruct (poll_ok l 0 Hl) as (r & Hr & _). by exists r. }
  destruct wb.
  - destruct (poll_ok reads 1 H) as (rest & -> & Hrest). kred. destruct (Hone rest Hrest) as (r & ->). kred.
    eexists. split; [done|]. split; [done|]. unfold bus_write_register. cbn [ls_bus ls_wbusy].
    by rewrite chars_out_char, chars_out_other.
  - kred. destruct (Hone reads) as (r & ->); [lia|]. kred. eexists. split; [done|]. split; [done|].
    unfold bus_write_register. cbn [ls_bus ls_wbusy].
    by rewrite chars_out_other, chars_out_char, chars_out_other.
Qed.

Lemma irq_eq w r c sc :
  exists sc', lser_irq w r c sc = (active w, if active r then Some c else None, sc') /\
    ls_wbusy sc' = (if active w then false else ls_wbusy sc) /\ chars_out (ls_bus sc') = chars_out (ls_bus sc).
Proof.
  unfold lser_irq. destruct (active w), (active r); eexists; (split; [done|]); (split; [done|]);
    unfold bus_write_register; cbn [ls_bus]; by rewrite ?chars_out_other.
Qed.

Definition nowhere (e : out_event) (s : outsys) : Prop := False.

(** A turn of a thread that prints. *)
Lemma out_print t s : out_inv s -> out_allowed (Print t) s -> event_goes out_exec nowhere out_inv (Print t) s.
Proof.
  intros [O1 O2 O3 O4 O5 O6] Ha. destruct s as [x sc wp th st ow dn]. cbn in *. destruct (th !! t) as [ch|] eqn:Hth.
  - assert (Hb : ls_wbusy sc = false).
    { pose proof (sem_count_range _ _ O1). destruct (ls_wbusy sc); [|done]. pose proof (map_size_non_empty_iff th).
      assert (size th <> 0%nat) by (apply H0; intros ->; by rewrite lookup_empty in Hth). lia. }
    eapply (goes_on _ nowhere out_inv); [by intros []| |].
    { cbn. rewrite Hth. unfold lser_write. rewrite Hb. kred. reflexivity. }
    constructor; cbn; try done.
    + rewrite map_size_delete_Some by done. rewrite Hb in O2. destruct (size th) eqn:Hz; [|cbn; lia].
      apply map_size_empty_inv in Hz. subst th. by rewrite lookup_empty in Hth.
    + intros t' Hw. destruct (decide (t = t')) as [->|]; [apply lookup_delete_eq|rewrite lookup_delete_ne by done; by apply O5].
    + by rewrite chars_out_char, O6.
  - destruct Ha as [Ht|Ht]; [|by destruct Ht]. destruct (proj2 (O4 t) (or_introl Ht)) as [ch Hch].
    pose proof (sys_P_eq 1 t x O1) as HP. pose proof (sys_P_step t x Ht) as Hst.
    assert (Hap : t ∉ sem_wchan (ss_sem x)) by (intros Hw; by apply (sem_apart _ _ O1 t Hw)).
    destruct (Z.eqb_spec (sem_count (ss_sem x)) 0) as [Hc|Hc]; rewrite HP in Hst; cbn [snd] in Hst;
      (eapply (goes_on _ nowhere out_inv); [by intros []|cbn; rewrite Hth, Hch; cbn; rewrite HP; reflexivity|]); constructor; cbn; try done.
    + by eapply sem_step_inv.
    + lia.
    + intros t'. rewrite O4. rewrite elem_of_app, list_elem_of_singleton. destruct (decide (t' = t)) as [->|]; set_solver.
    + by eapply sem_step_inv.
    + rewrite map_size_insert_None by done. lia.
    + intros t'. destruct (decide (t = t')) as [<-|].
      * rewrite lookup_delete_eq. split; [by intros []|]. intros [?|?]; set_solver.
      * rewrite lookup_delete_ne, O4 by done. set_solver.
    + intros t'. destruct (decide (t = t')) as [<-|]; [rewrite lookup_delete_eq; by intros []|].
      rewrite lookup_delete_ne, lookup_insert_ne by done. apply O5.
Qed.

Lemma out_event_good e s : out_inv s -> out_allowed e s -> event_goes out_exec nowhere out_inv e s.
Proof.
  intros H Ha. destruct e as [t ch|t|w r c| |ch reads]; [|by apply out_print|..];
    destruct H as [O1 O2 O3 O4 O5 O6]; destruct s as [x sc wp th st ow dn]; cbn in *.
  - destruct Ha as [H1 H2]. assert (Hnot : ~ (t ∈ ss_trying x \/ t ∈ sem_wchan (ss_sem x))) by (rewrite <- O4, H1; by intros []).
    eapply (goes_on _ nowhere out_inv); [by intros []|reflexivity|]. constructor; cbn; try done.
    + eapply sem_step_inv; [exact O1|]. apply sys_call_step; tauto.
    + intros t'. destruct (decide (t = t')) as [<-|].
      * rewrite lookup_insert_eq. split; [set_solver|by eexists].
      * rewrite lookup_insert_ne, O4 by done. set_solver.
    + intros t'. destruct (decide (t = t')) as [<-|]; [done|]. rewrite lookup_insert_ne by done. apply O5.
  - destruct (irq_eq w r c sc) as (sc' & He & Hb & Hc). eapply (goes_on _ nowhere out_inv); [by intros []|cbn; rewrite He; reflexivity|].
    constructor; cbn -[Z.of_nat]; try done; [..|by rewrite Hc].
    + rewrite Hb. destruct (active w); [|done]. rewrite <- O3, Ha in O2 by done. lia.
    + rewrite Hb. by destruct (active w).
  - assert (Hr : 0 <= sem_count (ss_sem x) < 2 ^ 32 - 1) by (pose proof (sem_count_range _ _ O1); destruct (ls_wbusy sc); lia).
    eapply (goes_on _ nowhere out_inv); [by intros []|cbn; rewrite sys_V_eq by done; reflexivity|]. constructor; cbn; try done.
    + eapply sem_step_inv; [exact O1|]. apply sys_V_step. by apply sys_V_eq.
    + lia.
    + intros t. rewrite O4. destruct (sem_wchan (ss_sem x)) as [|w wc]; cbn; [set_solver|]. rewrite elem_of_cons. set_solver.
  - destruct (writepolled_ok ch reads sc Ha) as (sc' & He & Hb & Hc).
    eapply (goes_on _ nowhere out_inv); [by intros []|cbn; rewrite He; reflexivity|]. constructor; cbn; try done.
    + by rewrite Hb.
    + by rewrite Hb.
    + by rewrite Hc, O6.
Qed.

Lemma out_start_inv : out_inv out_start.
Proof.
  constructor; cbn; try done.
  - apply (sem_reachable_inv 1); [lia|constructor].
  - intros t. rewrite lookup_empty. split; [by intros []|set_solver].
Qed.

(** ** The theorems *)

(** The console's input buffer is a queue.  Characters arrive one after the other,
    one thread at a time reads, and the accesses of the two sides to the buffer come in
    any order.  What readers have got, followed by what is in the buffer, is what was
    accepted, in the order in which it came; at most 31 characters are in the buffer,
    and the handler drops one exactly when there are that many.  Nothing panics, and a
    reader that sleeps does so because there is no character for it, or the handler is
    about to wake it. *)
Theorem con_input_queue s :
  rtc (event_step (in_allowed true) in_exec) in_start s ->
  exists q, in_accepted s = in_got s ++ q /\ (length q <= 31)%nat /\
    (forall e, in_allowed true e s -> exists s', in_exec e s = Done s') /\
    (forall ch, in_irq s = Arrived ch -> exists s', in_exec Handle s = Done s' /\ (in_irq s' = Quiet <-> length q = 31%nat)) /\
    (forall t, in_readers s !! t = Some InP -> t ∉ ss_trying (in_sem s) -> q = [] \/ in_irq s = Signalling).
Proof.
  intros Hs. assert (Hg : in_good s).
  { eapply (steps_invariant (in_allowed true) in_exec never); [|apply in_start_good|exact Hs]. intros; by apply in_event_good. }
  pose proof Hg as (q & r & [I1 I2 I3 I4 I5 I6 I7 I8]). exists q. split; [done|]. split; [apply I2|]. split_and!.
  - intros e He. destruct (in_event_good e s Hg He) as [[[] _]|(_ & s' & E & _)]. by exists s'.
  - intros ch Hch. eexists. cbn [in_exec]. rewrite Hch. split; [done|]. cbn. rewrite (ring_test _ _ I2).
    destruct (Nat.eqb_spec (length q) 31); split; done || congruence.
  - intros t Ht Hn. rewrite I5 in Ht. destruct r as [[t' r]|]; cbn in Ht; [|by rewrite lookup_empty in Ht].
    apply lookup_singleton_Some in Ht as [-> ->]. destruct I6 as [[E1 E2]|[E1 E2]]; [set_solver|].
    pose proof (sem_awake _ _ I1) as Hw. rewrite E1, E2, size_empty in Hw. pose proof (sem_count_range _ _ I1). specialize (Hw ltac:(done)).
    cbn in I4. destruct (in_irq s); try (left; destruct q; [done|cbn in I4; lia]). by right.
Qed.

(** The console's output.  Any number of threads print, waiting for the port by the
    semaphore or polling it, and the port interrupts.  [lser_write] is never called
    while the port is busy, so that it does not panic, and nothing else does; at most
    one of the threads in [putch_intr] is between [P] and [lser_write]; the port gets
    the characters in the order in which the threads get through, each once; and
    when a thread waits and none is on its way to the port, the port is busy, and will
    interrupt, or a handler is about to call [con_start]. *)
Theorem con_output s :
  rtc (event_step out_allowed out_exec) out_start s ->
  (forall e, out_allowed e s -> exists s', out_exec e s = Done s') /\
  (size (out_through s) <= 1)%nat /\
  chars_out (ls_bus (out_lser s)) = out_done s /\
  (out_in_P s <> ∅ -> ss_trying (out_sem s) = ∅ -> out_through s = ∅ -> ls_wbusy (out_lser s) = true \/ (0 < out_starts s)%nat).
Proof.
  intros Hs. assert (Hg : out_inv s).
  { eapply (steps_invariant out_allowed out_exec nowhere); [|apply out_start_inv|exact Hs]. intros; by apply out_event_good. }
  pose proof Hg as [O1 O2 O3 O4 O5 O6]. pose proof (sem_count_range _ _ O1). split_and!; try done.
  - intros e He. destruct (out_event_good e s Hg He) as [[[] _]|(_ & s' & E & _)]. by exists s'.
  - destruct (ls_wbusy (out_lser s)); lia.
  - intros Hw Ht Hth. apply map_choose in Hw as (t & ch & Htc). destruct (proj1 (O4 t)) as [Ht'|Ht']; [by eexists|set_solver|].
    pose proof (sem_awake _ _ O1) as Ha. rewrite Ht, size_empty in Ha. rewrite Hth, map_size_empty in O2.
    destruct (ls_wbusy (out_lser s)); [by left|right]. assert (sem_wchan (ss_sem (out_sem s)) <> []) as Hne by (intros E; rewrite E in Ht'; by apply elem_of_nil in Ht').
    specialize (Ha Hne). lia.
Qed.

(** ** Runs *)

#[export] Instance handler_eq_dec : EqDecision handler.
Proof. solve_decision. Defined.
#[export] Instance reader_eq_dec : EqDecision reader.
Proof. solve_decision. Defined.
#[export] Instance in_allowed_dec exclusive e s : Decision (in_allowed exclusive e s).
Proof. destruct e; cbn; apply _. Defined.
#[export] Instance out_allowed_dec e s : Decision (out_allowed e s).
Proof. destruct e; cbn; apply _. Defined.

(** A character comes in, all the way. *)
Definition arrives (ch : Z) : list in_event := [Arrive ch; Handle; Handle; Handle; Handle].

(** "ab" comes in, and two threads call [getch] at the same time. *)
Definition two_getch : list in_event :=
  arrives 97 ++ arrives 98 ++ [Getch 1; Getch 2; Go 1; Go 2; Go 1; Go 2; Go 1; Go 2].

(** The semaphore alone does not keep readers apart.  [con_io] has a lock for that, but
    [kgets] calls [getch] without it: two threads that read at the same time can both
    get the first character, and the second is lost. *)
Theorem con_readers_race :
  exists s, rtc (event_step (in_allowed false) in_exec) in_start s /\
    in_accepted s = [97; 98] /\ in_got s = [97; 97] /\ in_readers s = ∅ /\ cs_gotchars_head (in_buf s) = cs_gotchars_tail (in_buf s).
Proof.
  destruct (run_events (in_allowed false) in_exec two_getch in_start) as [s| |] eqn:E; [|vm_compute in E; discriminate E..].
  exists s. split; [by eapply run_events_steps|]. vm_compute in E. injection E as <-. by vm_compute.
Qed.

(** A reader comes first and sleeps; two characters arrive, and it has the first. *)
Definition one_getch : list in_event := [Getch 1; Go 1] ++ arrives 97 ++ arrives 98 ++ [Go 1; Go 1].

Lemma con_input_queue_witness : exists s q, run_events (in_allowed true) in_exec one_getch in_start = Done s /\
  in_accepted s = in_got s ++ q /\ (length q <= 31)%nat.
Proof.
  destruct (run_events (in_allowed true) in_exec one_getch in_start) as [s| |] eqn:E; [|vm_compute in E; discriminate E..].
  destruct (con_input_queue s (run_events_steps _ _ _ _ _ E)) as (q & H1 & H2 & _).
  exists s, q. split; [reflexivity|]. exact (conj H1 H2).
Defined.

(** Two threads print, one polls while the port is busy, and the port interrupts. *)
Definition printing : list out_event :=
  [Putch 1 97; Putch 2 98; Print 1; Print 2; Print 1; Polled 33 [0; 2; 0; 2]; Interrupt 6 0 0; Start; Print 2; Print 2].

Lemma con_output_witness : exists s, run_events out_allowed out_exec printing out_start = Done s /\
  chars_out (ls_bus (out_lser s)) = [97; 33; 98].
Proof.
  destruct (run_events out_allowed out_exec printing out_start) as [s| |] eqn:E; [|vm_compute in E; discriminate E..].
  destruct (con_output s (run_events_steps _ _ _ _ _ E)) as (_ & _ & H & _). exists s. split; [reflexivity|]. rewrite H.
  vm_compute in E. injection E as <-. reflexivity.
Defined.
