(* ===== verification/ThreadList.v ===== *)
(** * thread/threadlist.c and the scheduler's pass (thread.c)

    Lists of threads, doubly linked through a node in each thread, between two
    bookend nodes in the list itself.  The nodes live in a heap, by address; a
    pointer to no node (null, in particular) may not be followed.  [DEBUGASSERT] is
    off in this kernel (lib.h). *)

From Stdlib Require Import Sorted.
From stdpp Require Import sorting.
From S2P Require Import Prelude Synch LinkedList.

#[local] Set Warnings "-clear-no-such-hyp".

Record threadlistnode := mkTln { tln_prev : Z; tln_next : Z; tln_self : Z; priority : Z }.

(** [tl_count] by the address of the list. *)
Record tlst := mkTl { nodes : gmap Z threadlistnode; tl_count : gmap Z Z }.

Section ThreadList.

(** The address of the node in a thread ([&t->t_listnode]), for a null pointer too. *)
Variable t_listnode : Z -> Z.

(** [&tl->tl_head] and [&tl->tl_tail]. *)
Definition tl_head (tl : Z) : Z := tl.
Definition tl_tail (tl : Z) : Z := tl + 16.

Definition loadn (p : Z) : K tlst threadlistnode := fun s =>
  match nodes s !! p with Some n => Done (n, s) | None => Panic end.
Definition updaten (p : Z) (f : threadlistnode -> threadlistnode) : K tlst unit := fun s =>
  match nodes s !! p with
  | Some n => Done ((), mkTl (<[p := f n]> (nodes s)) (tl_count s))
  | None => Panic
  end.
Definition set_tprev (p q : Z) := updaten p (fun n => mkTln q (tln_next n) (tln_self n) (priority n)).
Definition set_tnext (p q : Z) := updaten p (fun n => mkTln (tln_prev n) q (tln_self n) (priority n)).
Definition set_tself (p t : Z) := updaten p (fun n => mkTln (tln_prev n) (tln_next n) t (priority n)).
Definition set_priority (p x : Z) := updaten p (fun n => mkTln (tln_prev n) (tln_next n) (tln_self n) x).
Definition get_count (tl : Z) : K tlst Z := fun s => n ← deref (tl_count s !! tl); Done (n, s).
Definition put_count (tl n : Z) : K tlst unit := modify (fun s => mkTl (nodes s) (<[tl := u32 n]> (tl_count s))).

(** ** Nodes and lists *)

Definition threadlistnode_init (tln t : Z) : K tlst unit :=
  kassert (negb (t =? 0));;
  set_tnext tln 0;;
  set_tprev tln 0;;
  set_tself tln t;;
  set_priority tln 0.

Definition threadlistnode_cleanup (tln : Z) : K tlst unit :=
  n ← loadn tln;
  kassert (tln_next n =? 0);;
  kassert (tln_prev n =? 0);;
  kassert (negb (tln_self n =? 0)).

(** The priorities of the bookends are not set. *)
Definition threadlist_init (tl : Z) : K tlst unit :=
  set_tnext (tl_head tl) (tl_tail tl);;
  set_tprev (tl_head tl) 0;;
  set_tnext (tl_tail tl) 0;;
  set_tprev (tl_tail tl) (tl_head tl);;
  set_tself (tl_head tl) 0;;
  set_tself (tl_tail tl) 0;;
  put_count tl 0.

Definition threadlist_isempty (tl : Z) : K tlst bool := n ← get_count tl; mret (n =? 0).

Definition threadlist_cleanup (tl : Z) : K tlst unit :=
  e ← threadlist_isempty tl;
  kassert e;;
  n ← get_count tl;
  kassert (n =? 0).

Definition threadlist_insertafternode (onlist t : Z) : K tlst unit :=
  let addee := t_listnode t in
  set_tprev addee onlist;;
  o ← loadn onlist;
  set_tnext addee (tln_next o);;
  a ← loadn addee;
  set_tnext (tln_prev a) addee;;
  a ← loadn addee;
  set_tprev (tln_next a) addee.

Definition threadlist_insertbeforenode (t onlist : Z) : K tlst unit :=
  let addee := t_listnode t in
  o ← loadn onlist;
  set_tprev addee (tln_prev o);;
  set_tnext addee onlist;;
  a ← loadn addee;
  set_tnext (tln_prev a) addee;;
  a ← loadn addee;
  set_tprev (tln_next a) addee.

Definition threadlist_removenode (tln : Z) : K tlst unit :=
  n ← loadn tln;
  set_tnext (tln_prev n) (tln_next n);;
  n ← loadn tln;
  set_tprev (tln_next n) (tln_prev n);;
  set_tprev tln 0;;
  set_tnext tln 0.

Definition add_count (tl k : Z) : K tlst unit := n ← get_count tl; put_count tl (n + k).

Definition threadlist_addhead (tl t : Z) : K tlst unit :=
  threadlist_insertafternode (tl_head tl) t;;
  add_count tl 1.

Definition threadlist_addtail (tl t : Z) : K tlst unit :=
  threadlist_insertbeforenode t (tl_tail tl);;
  add_count tl 1.

Definition threadlist_remhead (tl : Z) : K tlst Z :=
  h ← loadn (tl_head tl);
  let tln := tln_next h in
  n ← loadn tln;
  if tln_next n =? 0 then mret 0 else
  threadlist_removenode tln;;
  add_count tl (-1);;
  n ← loadn tln;
  mret (tln_self n).

Definition threadlist_remtail (tl : Z) : K tlst Z :=
  h ← loadn (tl_tail tl);
  let tln := tln_prev h in
  n ← loadn tln;
  if tln_prev n =? 0 then mret 0 else
  threadlist_removenode tln;;
  add_count tl (-1);;
  n ← loadn tln;
  mret (tln_self n).

Definition threadlist_insertafter (tl onlist addee : Z) : K tlst unit :=
  threadlist_insertafternode (t_listnode onlist) addee;;
  add_count tl 1.

Definition threadlist_insertbefore (tl addee onlist : Z) : K tlst unit :=
  threadlist_insertbeforenode addee (t_listnode onlist);;
  add_count tl 1.

Definition threadlist_remove (tl t : Z) : K tlst unit :=
  threadlist_removenode (t_listnode t);;
  add_count tl (-1).

(** ** schedule (thread.c)

    Both loops start at the bookend in front.  A round for every node is enough. *)
Definition tl_rounds : K tlst nat := gets (fun s => S (size (nodes s))).

Fixpoint age_loop (fuel : nat) (tln : Z) : K tlst unit :=
  match fuel with
  | O => lift Blocked
  | S fuel =>
    n ← loadn tln;
    if tln_next n =? 0 then mret () else
    set_priority tln (s32 (priority n + 1));;
    n ← loadn tln;
    age_loop fuel (tln_next n)
  end.

Fixpoint swap_loop (fuel : nat) (tl tln : Z) : K tlst unit :=
  match fuel with
  | O => lift Blocked
  | S fuel =>
    n ← loadn tln;
    if tln_next n =? 0 then mret () else
    m ← loadn (tln_next n);
    (if priority m >? priority n then
       threadlist_remove tl (tln_self m);;
       threadlist_insertbefore tl (tln_self m) (tln_self n)
     else mret ());;
    n ← loadn tln;
    swap_loop fuel tl (tln_next n)
  end.

Definition schedule (tl : Z) : K tlst unit :=
  fuel ← tl_rounds;
  age_loop fuel (tl_head tl);;
  swap_loop fuel tl (tl_head tl).

(** ** Chains of nodes

    A node of a chain is its address with its thread and priority. *)
Abbreviation tnode := (Z * (Z * Z))%type (only parsing).
Definition tself (x : tnode) : Z := fst (snd x).
Definition tprio (x : tnode) : Z := snd (snd x).

Fixpoint chain (h : gmap Z threadlistnode) (p : Z) (xs : list tnode) (n : Z) : Prop :=
  match xs with
  | [] => True
  | x :: r => fst x <> 0 /\ h !! fst x = Some (mkTln p (head_addr r n) (tself x) (tprio x)) /\ chain h (fst x) r n
  end.

Lemma chain_app h p xs ys n :
  chain h p (xs ++ ys) n <-> chain h p xs (head_addr ys n) /\ chain h (last_addr p xs) ys n.
Proof.
  revert p. induction xs as [|x xs IH]; intros p; cbn; [tauto|].
  rewrite IH, head_addr_app. tauto.
Qed.

Lemma chain_frame h h' p xs n :
  (forall a, a ∈ xs.*1 -> h' !! a = h !! a) -> chain h p xs n -> chain h' p xs n.
Proof.
  revert p. induction xs as [|x xs IH]; intros p Hf; cbn; [done|]. intros (?&?&?).
  split; [done|]. split; [rewrite Hf; [done|left]|]. apply IH; [|done]. intros. apply Hf. by right.
Qed.

Lemma chain_insert h p xs n a v : a ∉ xs.*1 -> chain h p xs n -> chain (<[a := v]> h) p xs n.
Proof.
  intros Ha Hd. apply (chain_frame h); [|done]. intros b Hb. apply lookup_insert_ne. intros ->. contradiction.
Qed.

Lemma chain_lookup h p xs n a : chain h p xs n -> a ∈ xs.*1 -> a <> 0 /\ is_Some (h !! a).
Proof.
  revert p. induction xs as [|x xs IH]; intros p; [intros _ Ha; by apply elem_of_nil in Ha|]. cbn. intros (?&?&?) Ha.
  apply elem_of_cons in Ha as [->|]; [eauto|]. by eapply IH.
Qed.

Lemma chain_size h p xs n : chain h p xs n -> NoDup xs.*1 -> (length xs <= size h)%nat.
Proof.
  intros Hd Hn. rewrite <- (length_fmap fst), <- (size_list_to_set (C := gset Z)), <- size_dom by done.
  apply subseteq_size. intros a Ha. apply elem_of_list_to_set in Ha.
  apply elem_of_dom. by eapply chain_lookup.
Qed.

Lemma loadn_eq h c p n : h !! p = Some n -> loadn p (mkTl h c) = Done (n, mkTl h c).
Proof. intros Hp. unfold loadn. cbn. by rewrite Hp. Qed.

Lemma set_tprev_eq h c p q n :
  h !! p = Some n -> set_tprev p q (mkTl h c) = Done ((), mkTl (<[p := mkTln q (tln_next n) (tln_self n) (priority n)]> h) c).
Proof. intros Hp. unfold set_tprev, updaten. cbn. by rewrite Hp. Qed.

Lemma set_tnext_eq h c p q n :
  h !! p = Some n -> set_tnext p q (mkTl h c) = Done ((), mkTl (<[p := mkTln (tln_prev n) q (tln_self n) (priority n)]> h) c).
Proof. intros Hp. unfold set_tnext, updaten. cbn. by rewrite Hp. Qed.

Lemma set_tself_eq h c p t n :
  h !! p = Some n -> set_tself p t (mkTl h c) = Done ((), mkTl (<[p := mkTln (tln_prev n) (tln_next n) t (priority n)]> h) c).
Proof. intros Hp. unfold set_tself, updaten. cbn. by rewrite Hp. Qed.

Lemma set_priority_eq h c p x n :
  h !! p = Some n -> set_priority p x (mkTl h c) = Done ((), mkTl (<[p := mkTln (tln_prev n) (tln_next n) (tln_self n) x]> h) c).
Proof. intros Hp. unfold set_priority, updaten. cbn. by rewrite Hp. Qed.

Ltac tlookup := simplify_map_eq; done.
Ltac tlstep :=
  krun;
  first
    [ match goal with H : ?p <> 0 |- context [?p =? 0] => rewrite (proj2 (Z.eqb_neq p 0) H) end
    | erewrite loadn_eq by tlookup
    | erewrite set_tprev_eq by tlookup
    | erewrite set_tnext_eq by tlookup
    | erewrite set_tself_eq by tlookup
    | erewrite set_priority_eq by tlookup
    | progress cbn [nodes tl_count tln_prev tln_next tln_self priority head_addr last_addr] ];
  krun.
Ltac tlrun := repeat tlstep.

(** A chain with its ends, no node in it twice. *)
Definition chained (h : gmap Z threadlistnode) (xs : list tnode) : Prop := chain h 0 xs 0 /\ NoDup xs.*1.

(** What [NoDup] says of a chain cut in the middle, and of a new node. *)
Lemma nodup_cut (L R : list tnode) x y :
  NoDup (L ++ x :: y :: R).*1 ->
  (fst x ∉ L.*1) /\ (fst y ∉ L.*1) /\ fst x <> fst y /\ (fst x ∉ R.*1) /\ (fst y ∉ R.*1).
Proof.
  rewrite fmap_app, NoDup_app. cbn. intros (_&Hl&Hr).
  apply NoDup_cons in Hr as (Hx&Hr). apply NoDup_cons in Hr as (Hy&_). apply not_elem_of_cons in Hx as (?&?).
  split; [intros Hi; apply (Hl _ Hi); left|]. split; [intros Hi; apply (Hl _ Hi); right; left|]. done.
Qed.

Lemma nodup_new (L R : list tnode) x n :
  NoDup (L ++ x :: R).*1 -> fst n ∉ (L ++ x :: R).*1 -> NoDup (L ++ x :: n :: R).*1.
Proof.
  intros Hnd Hn. assert (Hp : L ++ x :: n :: R ≡ₚ n :: L ++ x :: R).
  { rewrite <- !Permutation_middle. apply Permutation_swap. }
  rewrite Hp. cbn. by apply NoDup_cons.
Qed.

Lemma not_elem_cut a (L R : list tnode) x y :
  a ∉ (L ++ x :: y :: R).*1 -> (a ∉ L.*1) /\ a <> fst x /\ a <> fst y /\ (a ∉ R.*1).
Proof.
  rewrite fmap_app. cbn. rewrite not_elem_of_app, !not_elem_of_cons. tauto.
Qed.

(** Linking a node in between two nodes of a chain. *)
Lemma chain_link h L x y R a t q v :
  chained h (L ++ x :: y :: R) -> a ∉ (L ++ x :: y :: R).*1 -> a <> 0 -> v = mkTln (fst x) (fst y) t q ->
  chained (<[fst y := mkTln a (head_addr R 0) (tself y) (tprio y)]>
    (<[fst x := mkTln (last_addr 0 L) a (tself x) (tprio x)]> (<[a := v]> h))) (L ++ x :: (a, (t, q)) :: y :: R).
Proof.
  intros (Hc&Hnd) Ha Ha0 ->. split; [|by apply nodup_new].
  apply nodup_cut in Hnd as (HxL&HyL&Hxy&HxR&HyR). apply not_elem_cut in Ha as (HaL&Hax&Hay&HaR).
  apply chain_app in Hc as (HL&Hx0&Hx&Hy0&Hy&HR). apply chain_app. cbn [head_addr] in *.
  split; [by repeat apply chain_insert|]. cbn [chain head_addr].
  split; [done|]. split; [by rewrite lookup_insert_ne, lookup_insert_eq by done|].
  split; [done|]. split; [by rewrite !lookup_insert_ne, lookup_insert_eq by done|].
  split; [done|]. split; [by rewrite lookup_insert_eq|]. by repeat apply chain_insert.
Qed.

Lemma insertafternode_eq h c L x y R t n :
  chained h (L ++ x :: y :: R) -> t_listnode t ∉ (L ++ x :: y :: R).*1 -> t_listnode t <> 0 -> h !! t_listnode t = Some n ->
  exists h', threadlist_insertafternode (fst x) t (mkTl h c) = Done ((), mkTl h' c) /\
    chained h' (L ++ x :: (t_listnode t, (tln_self n, priority n)) :: y :: R) /\
    (forall b, b ∉ t_listnode t :: (L ++ x :: y :: R).*1 -> h' !! b = h !! b).
Proof.
  intros Hch Ha Ha0 Hn. pose proof Hch as (Hc&Hnd).
  apply nodup_cut in Hnd as (HxL&HyL&Hxy&HxR&HyR). pose proof Ha as Ha'. apply not_elem_cut in Ha' as (HaL&Hax&Hay&HaR).
  apply chain_app in Hc as (HL&Hx0&Hx&Hy0&Hy&HR). cbn [head_addr] in *.
  unfold threadlist_insertafternode. tlrun.
  eexists. split; [reflexivity|]. split.
  - rewrite insert_insert_eq. by apply chain_link.
  - intros b Hb. apply not_elem_of_cons in Hb as (?&Hb). apply not_elem_cut in Hb as (?&?&?&?).
    by rewrite !lookup_insert_ne by done.
Qed.

Lemma insertbeforenode_eq h c L x y R t n :
  chained h (L ++ x :: y :: R) -> t_listnode t ∉ (L ++ x :: y :: R).*1 -> t_listnode t <> 0 -> h !! t_listnode t = Some n ->
  exists h', threadlist_insertbeforenode t (fst y) (mkTl h c) = Done ((), mkTl h' c) /\
    chained h' (L ++ x :: (t_listnode t, (tln_self n, priority n)) :: y :: R) /\
    (forall b, b ∉ t_listnode t :: (L ++ x :: y :: R).*1 -> h' !! b = h !! b).
Proof.
  intros Hch Ha Ha0 Hn. pose proof Hch as (Hc&Hnd).
  apply nodup_cut in Hnd as (HxL&HyL&Hxy&HxR&HyR). pose proof Ha as Ha'. apply not_elem_cut in Ha' as (HaL&Hax&Hay&HaR).
  apply chain_app in Hc as (HL&Hx0&Hx&Hy0&Hy&HR). cbn [head_addr] in *.
  unfold threadlist_insertbeforenode. tlrun.
  eexists. split; [reflexivity|]. split.
  - rewrite insert_insert_eq. by apply chain_link.
  - intros b Hb. apply not_elem_of_cons in Hb as (?&Hb). apply not_elem_cut in Hb as (?&?&?&?).
    by rewrite !lookup_insert_ne by done.
Qed.

Lemma removenode_eq h c L x z y R :
  chained h (L ++ x :: z :: y :: R) ->
  exists h', threadlist_removenode (fst z) (mkTl h c) = Done ((), mkTl h' c) /\
    chained h' (L ++ x :: y :: R) /\ h' !! fst z = Some (mkTln 0 0 (tself z) (tprio z)) /\
    (forall b, b ∉ (L ++ x :: z :: y :: R).*1 -> h' !! b = h !! b).
Proof.
  intros (Hc&Hnd). pose proof Hnd as Hnd'. apply nodup_cut in Hnd' as (HxL&HzL&Hxz&HxR&HzR).
  change (L ++ x :: z :: y :: R) with (L ++ [x] ++ z :: y :: R) in Hnd. rewrite app_assoc in Hnd.
  pose proof Hnd as Hnd'. apply nodup_cut in Hnd' as (_&HyLx&Hzy&_&HyR).
  rewrite fmap_app, not_elem_of_app in HyLx. cbn in HyLx. destruct HyLx as (HyL&Hxy). apply not_elem_of_cons in Hxy as (Hyx&_).
  cbn in HxR, HzR. apply not_elem_of_cons in HxR as (_&HxR). apply not_elem_of_cons in HzR as (_&HzR).
  apply chain_app in Hc as (HL&Hx0&Hx&Hz0&Hz&Hy0&Hy&HR). cbn [head_addr] in *.
  unfold threadlist_removenode. tlrun. eexists. split; [reflexivity|]. split; [|split].
  - rewrite insert_insert_eq. split.
    + apply chain_app. split; [by repeat apply chain_insert|]. cbn [chain head_addr].
      split; [done|]. split; [by rewrite !lookup_insert_ne, lookup_insert_eq by done|].
      split; [done|]. split; [by rewrite lookup_insert_ne, lookup_insert_eq by done|]. by repeat apply chain_insert.
    + rewrite fmap_app, fmap_app in Hnd. cbn in Hnd. rewrite fmap_app. cbn. rewrite <- app_assoc in Hnd. cbn in Hnd.
      apply NoDup_app in Hnd as (H1&H2&H3). apply NoDup_cons in H3 as (H4&H5). apply NoDup_cons in H5 as (H6&H7).
      apply NoDup_app. split; [done|]. split; [|apply NoDup_cons; split; [|done]].
      * intros b Hb Hb'. apply (H2 b Hb). set_solver.
      * set_solver.
  - by rewrite lookup_insert_eq.
  - intros b Hb. rewrite fmap_app in Hb. cbn in Hb. rewrite not_elem_of_app, !not_elem_of_cons in Hb.
    destruct Hb as (?&?&?&?&?). by rewrite !lookup_insert_ne by done.
Qed.

(** ** Lists of threads

    The threads of a list with their priorities; [ph] and [pt] are the priorities of
    the bookends. *)
Definition tnode_of (x : Z * Z) : tnode := (t_listnode (fst x), x).
Definition full (tl ph : Z) (ths : list (Z * Z)) (pt : Z) : list tnode :=
  (tl_head tl, (0, ph)) :: (tnode_of <$> ths) ++ [(tl_tail tl, (0, pt))].

#[local] Arguments full : simpl never.

Record tlist (s : tlst) (tl ph : Z) (ths : list (Z * Z)) (pt : Z) : Prop := mkTlist {
  tlist_chain : chained (nodes s) (full tl ph ths pt);
  tlist_threads : Forall (fun x => fst x <> 0) ths;
  tlist_count : tl_count s !! tl = Some (u32 (Z.of_nat (length ths))) }.

(** A thread that is on no list. *)
Definition loose (s : tlst) (x : Z * Z) : Prop :=
  fst x <> 0 /\ t_listnode (fst x) <> 0 /\ nodes s !! t_listnode (fst x) = Some (mkTln 0 0 (fst x) (snd x)).

Inductive tl_op : Type :=
  | AddHead (t : Z) | AddTail (t : Z) | RemHead | RemTail
  | InsertAfter (onlist t : Z) | InsertBefore (t onlist : Z) | RemoveThread (t : Z) | IsEmpty.

Definition run_tl (tl : Z) (op : tl_op) : K tlst Z :=
  match op with
  | AddHead t => threadlist_addhead tl t;; mret 0
  | AddTail t => threadlist_addtail tl t;; mret 0
  | RemHead => threadlist_remhead tl
  | RemTail => threadlist_remtail tl
  | InsertAfter onlist t => threadlist_insertafter tl onlist t;; mret 0
  | InsertBefore t onlist => threadlist_insertbefore tl t onlist;; mret 0
  | RemoveThread t => threadlist_remove tl t;; mret 0
  | IsEmpty => e ← threadlist_isempty tl; mret (if (e : bool) then 1 else 0)
  end.

(** The operations on the list of threads: what they return, the thread put on the
    list and the thread taken off. *)
Inductive tl_abs : tl_op -> list (Z * Z) -> option (Z * Z) -> Z -> list (Z * Z) -> option (Z * Z) -> Prop :=
  | tl_addhead x l : tl_abs (AddHead (fst x)) l (Some x) 0 (x :: l) None
  | tl_addtail x l : tl_abs (AddTail (fst x)) l (Some x) 0 (l ++ [x]) None
  | tl_remhead_nil : tl_abs RemHead [] None 0 [] None
  | tl_remhead x l : tl_abs RemHead (x :: l) None (fst x) l (Some x)
  | tl_remtail_nil : tl_abs RemTail [] None 0 [] None
  | tl_remtail x l : tl_abs RemTail (l ++ [x]) None (fst x) l (Some x)
  | tl_insertafter l1 y l2 x : tl_abs (InsertAfter (fst y) (fst x)) (l1 ++ y :: l2) (Some x) 0 (l1 ++ y :: x :: l2) None
  | tl_insertbefore l1 y l2 x : tl_abs (InsertBefore (fst x) (fst y)) (l1 ++ y :: l2) (Some x) 0 (l1 ++ x :: y :: l2) None
  | tl_remove l1 x l2 : tl_abs (RemoveThread (fst x)) (l1 ++ x :: l2) None 0 (l1 ++ l2) (Some x)
  | tl_isempty l : Z.of_nat (length l) < 2 ^ 32 ->
      tl_abs IsEmpty l None (if bool_decide (l = []) then 1 else 0) l None.

(** A chain cut around any of the places an operation works at. *)
Lemma full_cut tl ph l1 l2 pt :
  exists L x y R, (forall mid, full tl ph (l1 ++ mid ++ l2) pt = L ++ x :: (tnode_of <$> mid) ++ y :: R) /\
    (l1 = [] -> L = [] /\ fst x = tl_head tl) /\ (forall l0 z, l1 = l0 ++ [z] -> x = tnode_of z) /\
    (l2 = [] -> y = (tl_tail tl, (0, pt)) /\ R = []) /\ (forall z r, l2 = z :: r -> y = tnode_of z).
Proof.
  assert (Hf : exists L x, (tl_head tl, (0, ph)) :: (tnode_of <$> l1) = L ++ [x] /\
    (l1 = [] -> L = [] /\ fst x = tl_head tl) /\ (forall l0 z, l1 = l0 ++ [z] -> x = tnode_of z)).
  { destruct l1 as [|z l1 _] using rev_ind.
    - exists [], (tl_head tl, (0, ph)). split; [done|]. split; [done|]. intros l0 z Hl. by destruct l0.
    - exists ((tl_head tl, (0, ph)) :: (tnode_of <$> l1)), (tnode_of z). split; [by rewrite fmap_app|].
      split; [intros Hl; by destruct l1|]. intros l0 z' Hl. by apply app_inj_tail in Hl as (_&->). }
  assert (Hb : exists y R, (tnode_of <$> l2) ++ [(tl_tail tl, (0, pt))] = y :: R /\
    (l2 = [] -> y = (tl_tail tl, (0, pt)) /\ R = []) /\ (forall z r, l2 = z :: r -> y = tnode_of z)).
  { destruct l2 as [|z l2]; [by exists (tl_tail tl, (0, pt)), []|]. eexists _, _. split; [reflexivity|].
    split; [done|]. by intros ?? [= <- <-]. }
  destruct Hf as (L&x&HL&Hx1&Hx2). destruct Hb as (y&R&HR&Hy1&Hy2). exists L, x, y, R.
  split; [|done]. intros mid. unfold full. rewrite !fmap_app, <- app_assoc, <- app_assoc, HR.
  rewrite app_comm_cons, HL, <- app_assoc. done.
Qed.

Lemma add_count_eq s tl n k :
  tl_count s !! tl = Some n -> add_count tl k s = Done ((), mkTl (nodes s) (<[tl := u32 (n + k)]> (tl_count s))).
Proof. intros Hn. unfold add_count, get_count, put_count. krun. cbn [deref]. rewrite Hn. cbn [deref]. krun. done. Qed.

Lemma u32_add x k : u32 (u32 x + k) = u32 (x + k).
Proof. unfold u32. by rewrite Zplus_mod_idemp_l. Qed.

(** The operation returns [r]; the list holds [l'] then; nothing but the list and the
    nodes [mine] has changed. *)
Definition tl_runs {A} (m : K tlst A) (s : tlst) (r : A) (tl ph : Z) (l' : list (Z * Z)) (pt : Z) (mine : list Z)
    (out : option (Z * Z)) : Prop :=
  exists s', m s = Done (r, s') /\ tlist s' tl ph l' pt /\
    (forall b, b ∉ mine -> nodes s' !! b = nodes s !! b) /\
    (forall tl', tl' <> tl -> tl_count s' !! tl' = tl_count s !! tl') /\
    (forall x, out = Some x -> loose s' x).

(** Putting thread [x] between [l1] and [l2]. *)
Lemma put_between (m : K tlst unit) s tl ph l1 l2 pt x :
  tlist s tl ph (l1 ++ l2) pt -> loose s x -> t_listnode (fst x) ∉ (full tl ph (l1 ++ l2) pt).*1 ->
  (forall L a b R, full tl ph (l1 ++ l2) pt = L ++ a :: b :: R ->
    (l1 = [] -> fst a = tl_head tl) -> (forall l0 z, l1 = l0 ++ [z] -> a = tnode_of z) ->
    (l2 = [] -> b = (tl_tail tl, (0, pt))) -> (forall z r, l2 = z :: r -> b = tnode_of z) ->
    exists h', m s = Done ((), mkTl h' (tl_count s)) /\
      chained h' (L ++ a :: tnode_of x :: b :: R) /\
      (forall c, c ∉ t_listnode (fst x) :: (L ++ a :: b :: R).*1 -> h' !! c = nodes s !! c)) ->
  tl_runs (m;; add_count tl 1;; mret 0) s 0 tl ph (l1 ++ x :: l2) pt
    (t_listnode (fst x) :: (full tl ph (l1 ++ l2) pt).*1) None.
Proof.
  intros [Hch Hth Hcnt] (Hx0&Hn0&Hn) Hnot Hm.
  destruct (full_cut tl ph l1 l2 pt) as (L&a&b&R&Hfull&Ha1&Ha2&Hb1&Hb2).
  pose proof (Hfull []) as E. cbn in E. pose proof (Hfull [x]) as E'. cbn in E'.
  destruct (Hm L a b R E) as (h'&Hrun&Hch'&Hfr).
  { intros Hl. by apply Ha1. } { done. } { intros Hl. by apply Hb1. } { done. }
  unfold tl_runs. krun. rewrite Hrun. krun. erewrite add_count_eq by exact Hcnt. krun.
  eexists. split; [reflexivity|]. split; [|split; [|split; [|done]]].
  - constructor; cbn.
    + by rewrite E'.
    + apply Forall_app in Hth as (?&?). apply Forall_app. split; [done|]. by constructor.
    + rewrite lookup_insert_eq, u32_add, !length_app. cbn. do 2 f_equal. lia.
  - rewrite E. exact Hfr.
  - intros tl' Hne. cbn. by apply lookup_insert_ne.
Qed.

(** Taking thread [x] off from between [l1] and [l2]. *)
Lemma take_between {A} (k : K tlst A) s tl ph l1 x l2 pt r :
  tlist s tl ph (l1 ++ x :: l2) pt ->
  (forall s', nodes s' !! t_listnode (fst x) = Some (mkTln 0 0 (fst x) (snd x)) -> k s' = Done (r, s')) ->
  tl_runs (threadlist_removenode (t_listnode (fst x));; add_count tl (-1);; k) s r tl ph (l1 ++ l2) pt
    (full tl ph (l1 ++ x :: l2) pt).*1 (Some x).
Proof.
  intros [Hch Hth Hcnt] Hk.
  destruct (full_cut tl ph l1 l2 pt) as (L&a&b&R&Hfull&_).
  pose proof (Hfull []) as E. cbn in E. pose proof (Hfull [x]) as E'. cbn in E'. rewrite E' in *.
  destruct s as [h c]. cbn in *.
  destruct (removenode_eq h c L a (tnode_of x) b R Hch) as (h'&Hrun&Hch'&Hx&Hfr). cbn in Hrun, Hx.
  unfold tl_runs. krun. rewrite Hrun. krun. erewrite add_count_eq by exact Hcnt. krun. cbn [nodes tl_count].
  rewrite Hk by exact Hx. apply Forall_app in Hth as (Hth1&Hth2). apply Forall_cons in Hth2 as (Hx0&Hth2).
  eexists. split; [reflexivity|]. split; [|split; [|split]].
  - constructor; cbn.
    + by rewrite E.
    + by apply Forall_app.
    + rewrite lookup_insert_eq, u32_add, !length_app. cbn. do 2 f_equal. lia.
  - exact Hfr.
  - intros tl' Hne. cbn. by apply lookup_insert_ne.
  - intros ? [= <-]. split; [done|]. split; [|exact Hx].
    destruct Hch as (Hch&_). eapply (chain_lookup _ _ _ _ (t_listnode (fst x))) in Hch; [apply Hch|].
    rewrite fmap_app. cbn. set_solver.
Qed.

Lemma tl_runs_same {A} (m : K tlst A) s r tl ph l pt mine :
  tlist s tl ph l pt -> m s = Done (r, s) -> tl_runs m s r tl ph l pt mine None.
Proof. intros Hl Hm. exists s. done. Qed.

Lemma tl_runs_ret {A} (m : K tlst A) s (r : A) tl ph l pt mine out :
  tl_runs m s r tl ph l pt mine out ->
  forall k : K tlst A, k s = m s -> tl_runs k s r tl ph l pt mine out.
Proof. intros (s'&Hm&H) k E. exists s'. by rewrite E. Qed.

(** The first and the last node as the list's bookends see them. *)
Lemma first_node s tl ph l pt :
  tlist s tl ph l pt ->
  exists n, nodes s !! tl_head tl = Some n /\
    tln_next n = match l with [] => tl_tail tl | x :: _ => t_listnode (fst x) end.
Proof.
  intros [((Hh0&Hh&_)&_) _ _]. eexists. split; [exact Hh|]. by destruct l.
Qed.

Lemma last_node s tl ph l pt :
  tlist s tl ph l pt ->
  exists n, nodes s !! tl_tail tl = Some n /\ tln_next n = 0 /\ tln_self n = 0 /\ priority n = pt /\
    tln_prev n = match last l with None => tl_head tl | Some x => t_listnode (fst x) end.
Proof.
  intros [(Hc&_) _ _]. destruct l as [|x l _] using rev_ind.
  - destruct Hc as (_&_&_&Ht&_). eexists. split; [exact Ht|]. done.
  - unfold full in Hc. rewrite fmap_app, <- app_assoc, app_comm_cons, chain_app in Hc.
    destruct Hc as (_&_&_&_&Ht&_). eexists. split; [exact Ht|]. by rewrite last_snoc.
Qed.

(** The nodes of threads in the middle. *)
Lemma thread_node s tl ph l1 x l2 pt :
  tlist s tl ph (l1 ++ x :: l2) pt ->
  exists n, nodes s !! t_listnode (fst x) = Some n /\ tln_self n = fst x /\ priority n = snd x /\
    tln_next n = match l2 with [] => tl_tail tl | z :: _ => t_listnode (fst z) end /\
    tln_next n <> 0 /\ tln_prev n <> 0.
Proof.
  intros [(Hc&_) _ _]. destruct (full_cut tl ph l1 l2 pt) as (L&a&b&R&Hfull&_&_&Hb1&Hb2).
  change (l1 ++ x :: l2) with (l1 ++ [x] ++ l2) in Hc. rewrite (Hfull [x]) in Hc. cbn in Hc.
  apply chain_app in Hc as (_&Ha0&Ha&Hx0&Hx&Hb0&_). cbn in *.
  eexists. split; [exact Hx|]. cbn. split; [done|]. split; [done|]. split; [|done].
  destruct l2 as [|z l2]; [by destruct (Hb1 eq_refl) as (->&_)|by rewrite (Hb2 z l2 eq_refl)].
Qed.

Lemma tail_not_0 s tl ph l pt : tlist s tl ph l pt -> tl_tail tl <> 0 /\ tl_head tl <> 0.
Proof.
  intros [(Hc&_) _ _]. split; eapply (chain_lookup _ _ _ _ _ Hc); unfold full; cbn; rewrite ?fmap_app; cbn; set_solver.
Qed.

Lemma K_assoc {Σ A B C} (m : K Σ A) (f : A -> K Σ B) (g : B -> K Σ C) s :
  ((m ≫= f) ≫= g) s = (m ≫= (fun a => f a ≫= g)) s.
Proof. rewrite !K_bind_eq. by destruct (m s) as [[a s']| |]. Qed.

Lemma tl_op_runs s tl ph l pt op inn r l' out :
  tlist s tl ph l pt -> tl_abs op l inn r l' out ->
  (forall x, inn = Some x -> loose s x /\ t_listnode (fst x) ∉ (full tl ph l pt).*1) ->
  tl_runs (run_tl tl op) s r tl ph l' pt
    (option_list ((fun x => t_listnode (fst x)) <$> inn) ++ (full tl ph l pt).*1) out.
Proof.
  intros Hl Habs Hinn. destruct s as [h c].
  destruct Habs as [x l|x l| |x l| |x l|l1 y l2 x|l1 y l2 x|l1 x l2|l Hlen]; cbn [option_list fmap option_fmap option_map app run_tl] in *;
    try (destruct (Hinn x eq_refl) as (Hx&Hnot); pose proof Hx as (Hx0&Hn0&Hn)).
  - eapply tl_runs_ret; [apply (put_between (threadlist_insertafternode (tl_head tl) (fst x)) _ tl ph [] l pt x Hl Hx Hnot)|].
    + intros L a b R E Ha _ _ _. rewrite <- (Ha eq_refl). change ([] ++ l) with l in E. rewrite E in Hnot.
      pose proof (tlist_chain _ _ _ _ _ Hl) as Hch. cbn [nodes] in Hch. rewrite E in Hch.
      destruct (insertafternode_eq h c L a b R (fst x) _ Hch Hnot Hn0 Hn) as (h'&?&Hc'&?). exists h'.
      destruct x. done.
    + apply K_assoc.
  - pose proof (put_between (threadlist_insertbeforenode (fst x) (tl_tail tl)) (mkTl h c) tl ph l [] pt x) as Hput.
    rewrite !app_nil_r in Hput. eapply tl_runs_ret; [apply Hput; try done|apply K_assoc].
    intros L a b R E _ _ Hb _. rewrite E in Hnot. specialize (Hb eq_refl). subst b.
    pose proof (tlist_chain _ _ _ _ _ Hl) as Hch. cbn [nodes] in Hch. rewrite E in Hch.
    destruct (insertbeforenode_eq h c L a (tl_tail tl, (0, pt)) R (fst x) _ Hch Hnot Hn0 Hn) as (h'&?&Hc'&?). exists h'.
    destruct x. done.
  - apply tl_runs_same; [done|]. unfold threadlist_remhead.
    destruct (first_node _ _ _ _ _ Hl) as (n&Hn&Hnext). destruct (last_node _ _ _ _ _ Hl) as (m&Hm&Hm0&_). cbn in *.
    krun. erewrite loadn_eq by exact Hn. krun. rewrite Hnext. erewrite loadn_eq by exact Hm. krun. by rewrite Hm0.
  - destruct (first_node _ _ _ _ _ Hl) as (n&Hn&Hnext). destruct (thread_node _ _ _ [] _ _ _ Hl) as (m&Hm&Hself&_&_&Hm0&_). cbn in *.
    eapply tl_runs_ret; [apply (take_between (n ← loadn (t_listnode (fst x)); mret (tln_self n)) _ tl ph [] x l pt (fst x) Hl)|].
    + intros s' Hs'. unfold loadn. krun. by rewrite Hs'.
    + unfold threadlist_remhead. krun. erewrite loadn_eq by exact Hn. krun. rewrite Hnext.
      erewrite loadn_eq by exact Hm. krun. rewrite (proj2 (Z.eqb_neq _ _) Hm0). done.
  - apply tl_runs_same; [done|]. unfold threadlist_remtail.
    destruct (last_node _ _ _ _ _ Hl) as (n&Hn&_&_&_&Hprev). destruct Hl as [((_&Hm&_)&_) _ _]. cbn in *.
    krun. erewrite loadn_eq by exact Hn. krun. rewrite Hprev. erewrite loadn_eq by exact Hm. krun. done.
  - destruct (last_node _ _ _ _ _ Hl) as (n&Hn&_&_&_&Hprev). destruct (thread_node _ _ _ _ _ _ _ Hl) as (m&Hm&Hself&_&_&_&Hm0).
    rewrite last_snoc in Hprev. cbn in *.
    pose proof (take_between (n ← loadn (t_listnode (fst x)); mret (tln_self n)) _ tl ph l x [] pt (fst x) Hl) as Htake.
    rewrite app_nil_r in Htake. eapply tl_runs_ret; [apply Htake|].
    + intros s' Hs'. unfold loadn. krun. by rewrite Hs'.
    + unfold threadlist_remtail. krun. erewrite loadn_eq by exact Hn. krun. rewrite Hprev.
      erewrite loadn_eq by exact Hm. krun. rewrite (proj2 (Z.eqb_neq _ _) Hm0). done.
  - pose proof (put_between (threadlist_insertafternode (t_listnode (fst y)) (fst x)) (mkTl h c) tl ph (l1 ++ [y]) l2 pt x) as Hput.
    rewrite <- !app_assoc in Hput. cbn [app] in Hput. eapply tl_runs_ret; [apply Hput; try done|apply K_assoc].
    intros L a b R E _ Ha _ _. rewrite E in Hnot. specialize (Ha l1 y eq_refl). subst a.
    pose proof (tlist_chain _ _ _ _ _ Hl) as Hch. cbn [nodes] in Hch. rewrite E in Hch.
    destruct (insertafternode_eq h c L (tnode_of y) b R (fst x) _ Hch Hnot Hn0 Hn) as (h'&?&Hc'&?). exists h'.
    destruct x. done.
  - pose proof (put_between (threadlist_insertbeforenode (fst x) (t_listnode (fst y))) (mkTl h c) tl ph l1 (y :: l2) pt x) as Hput.
    eapply tl_runs_ret; [apply Hput; try done|apply K_assoc].
    intros L a b R E _ _ _ Hb. rewrite E in Hnot. specialize (Hb y l2 eq_refl). subst b.
    pose proof (tlist_chain _ _ _ _ _ Hl) as Hch. cbn [nodes] in Hch. rewrite E in Hch.
    destruct (insertbeforenode_eq h c L a (tnode_of y) R (fst x) _ Hch Hnot Hn0 Hn) as (h'&?&Hc'&?). exists h'.
    destruct x. done.
  - eapply tl_runs_ret; [apply (take_between (mret 0) _ tl ph l1 x l2 pt 0 Hl); done|apply K_assoc].
  - apply tl_runs_same; [done|]. unfold threadlist_isempty, get_count. krun. cbn [tl_count deref].
    pose proof (tlist_count _ _ _ _ _ Hl) as Hcnt. cbn in Hcnt. rewrite Hcnt. cbn [deref]. krun.
    rewrite u32_small by lia. destruct l as [|x l]; [done|]. rewrite bool_decide_false by done.
    by rewrite (proj2 (Z.eqb_neq _ _)) by (cbn; lia).
Qed.

(** ** What the scheduler does to a queue *)

Definition older (x : Z * Z) : Z * Z := (fst x, s32 (snd x + 1)).

(** One pass: a thread with a smaller priority than the next one changes places with
    it, and the pass goes on behind both. *)
Fixpoint pass (l : list (Z * Z)) : list (Z * Z) :=
  match l with
  | x :: l' =>
    match l' with
    | y :: r => if snd y >? snd x then y :: x :: pass r else x :: pass l'
    | [] => [x]
    end
  | [] => []
  end.

(** Does one pass leave the bookends, of the priorities [ph] and [pt], where they are: the
    first thread is not to go before [tl_head], nor [tl_tail] before the last one, if the
    pass compares the two? *)
Fixpoint tail_holds (pt : Z) (l : list (Z * Z)) : bool :=
  match l with
  | [] => true
  | x :: l' => match l' with [] => pt <=? snd x | y :: r => if snd y >? snd x then tail_holds pt r else tail_holds pt l' end
  end.
Definition stays_between (ph pt : Z) (l : list (Z * Z)) : bool :=
  (match l with [] => pt | x :: _ => snd x end <=? ph) && tail_holds pt l.

Lemma tail_holds_all pt l : Forall (fun x => pt <= snd x) l -> tail_holds pt l = true.
Proof.
  clear t_listnode. induction l as [l IH] using (induction_ltof1 _ (@length (Z * Z))). intros Hall. destruct l as [|x [|y r]]; [done|..].
  - apply Forall_cons in Hall as (Hx&_). cbn. by apply Z.leb_le.
  - change (tail_holds pt (x :: y :: r)) with (if snd y >? snd x then tail_holds pt r else tail_holds pt (y :: r)).
    apply Forall_cons in Hall as (_&Hall). destruct (snd y >? snd x); apply IH; try (unfold ltof; cbn; lia); [by apply Forall_cons in Hall as (_&?)|done].
Qed.

Definition older_node (x : tnode) : tnode := (fst x, (tself x, s32 (tprio x + 1))).

Lemma head_addr_older xs n : head_addr (older_node <$> xs) n = head_addr xs n.
Proof. by destruct xs. Qed.

Lemma age_loop_eq fuel h c p xs e :
  chain h p (xs ++ [e]) 0 -> NoDup (xs ++ [e]).*1 -> (length xs < fuel)%nat ->
  exists h', age_loop fuel (head_addr (xs ++ [e]) 0) (mkTl h c) = Done ((), mkTl h' c) /\
    chain h' p ((older_node <$> xs) ++ [e]) 0 /\ (forall b, b ∉ xs.*1 -> h' !! b = h !! b).
Proof.
  revert fuel h p. induction xs as [|x xs IH]; intros [|fuel] h p Hc Hnd Hf; cbn in Hf; try lia.
  - destruct Hc as (He0&He&_). cbn [app head_addr age_loop] in *. tlrun. by exists h.
  - destruct Hc as (Hx0&Hx&Hc). cbn [app] in *. cbn in Hnd. apply NoDup_cons in Hnd as (Hxn&Hnd).
    assert (Hne : head_addr (xs ++ [e]) 0 <> 0) by (destruct xs; apply Hc).
    cbn [head_addr age_loop]. tlrun.
    destruct (IH fuel (<[fst x := mkTln p (head_addr (xs ++ [e]) 0) (tself x) (s32 (tprio x + 1))]> h) (fst x))
      as (h'&->&Hc'&Hfr); [by apply chain_insert|done|lia|].
    exists h'. split; [done|]. rewrite fmap_app in Hxn. apply not_elem_of_app in Hxn as (Hxn&_). split.
    + cbn. split; [done|]. split; [|done]. rewrite Hfr, lookup_insert_eq by done.
      do 2 f_equal. rewrite !head_addr_app. by rewrite head_addr_older.
    + intros b Hb. apply not_elem_of_cons in Hb as (?&?). rewrite Hfr by done. by apply lookup_insert_ne.
Qed.

Lemma age_full tl ph ths pt :
  full tl (s32 (ph + 1)) (older <$> ths) pt =
    (older_node <$> (tl_head tl, (0, ph)) :: (tnode_of <$> ths)) ++ [(tl_tail tl, (0, pt))].
Proof. unfold full. cbn. rewrite <- !list_fmap_compose. reflexivity. Qed.

Lemma full_addrs_older tl ph ph' ths pt : (full tl ph' (older <$> ths) pt).*1 = (full tl ph ths pt).*1.
Proof. unfold full. cbn. by rewrite !fmap_app, <- !list_fmap_compose. Qed.

Lemma full_length tl ph ths pt : length (full tl ph ths pt) = S (S (length ths)).
Proof. unfold full. cbn. rewrite length_app, length_fmap. cbn. lia. Qed.

Lemma tlist_size s tl ph ths pt : tlist s tl ph ths pt -> (S (S (length ths)) <= size (nodes s))%nat.
Proof. intros [(Hc&Hnd) _ _]. rewrite <- (full_length tl ph ths pt). by eapply chain_size. Qed.

Lemma age_eq fuel s tl ph ths pt :
  tlist s tl ph ths pt -> (S (length ths) < fuel)%nat ->
  exists s', age_loop fuel (tl_head tl) s = Done ((), s') /\ tlist s' tl (s32 (ph + 1)) (older <$> ths) pt /\
    (forall b, b ∉ (full tl ph ths pt).*1 -> nodes s' !! b = nodes s !! b) /\ tl_count s' = tl_count s.
Proof.
  intros [(Hc&Hnd) Hth Hcnt] Hf. destruct s as [h c]. cbn in *.
  destruct (age_loop_eq fuel h c 0 ((tl_head tl, (0, ph)) :: (tnode_of <$> ths)) (tl_tail tl, (0, pt)) Hc Hnd) as (h'&Hrun&Hc'&Hfr).
  { cbn. rewrite length_fmap. lia. }
  eexists. split; [exact Hrun|]. split; [constructor; cbn|split; [|done]].
  - split; [by rewrite age_full|]. by rewrite (full_addrs_older tl ph).
  - by apply Forall_fmap.
  - by rewrite length_fmap.
  - intros b Hb. apply Hfr. unfold full in Hb. cbn in Hb. rewrite fmap_app, app_comm_cons in Hb. apply not_elem_of_app in Hb as (Hb&_).
    exact Hb.
Qed.

Lemma thread_not_in s tl ph l1 x l2 pt :
  tlist s tl ph (l1 ++ x :: l2) pt -> t_listnode (fst x) ∉ (full tl ph (l1 ++ l2) pt).*1.
Proof.
  intros [(_&Hnd) _ _]. destruct (full_cut tl ph l1 l2 pt) as (L&a&b&R&Hfull&_).
  pose proof (Hfull []) as E. pose proof (Hfull [x]) as E'. cbn [app fmap list_fmap] in E, E'. rewrite E' in Hnd. rewrite E.
  change (L ++ a :: tnode_of x :: b :: R) with (L ++ [a] ++ tnode_of x :: b :: R) in Hnd.
  rewrite app_assoc, fmap_app in Hnd. cbn in Hnd. apply NoDup_app in Hnd as (_&Hd&Hnd). apply NoDup_cons in Hnd as (Hn&_).
  change (L ++ a :: b :: R) with (L ++ [a] ++ b :: R). rewrite app_assoc, fmap_app, not_elem_of_app. split; [|done].
  intros Hi. apply (Hd _ Hi). left.
Qed.

Lemma full_perm tl ph l l' pt : l ≡ₚ l' -> full tl ph l pt ≡ₚ full tl ph l' pt.
Proof. intros H. unfold full. by rewrite H. Qed.

(** A thread changes places with the one before it. *)
Lemma swap_eq s tl ph l1 x y l2 pt :
  tlist s tl ph (l1 ++ x :: y :: l2) pt ->
  exists s', (threadlist_remove tl (fst y);; threadlist_insertbefore tl (fst y) (fst x)) s = Done ((), s') /\
    tlist s' tl ph (l1 ++ y :: x :: l2) pt /\
    (forall b, b ∉ (full tl ph (l1 ++ x :: y :: l2) pt).*1 -> nodes s' !! b = nodes s !! b) /\
    (forall tl', tl' <> tl -> tl_count s' !! tl' = tl_count s !! tl').
Proof.
  intros Hl. pose proof Hl as Hl0. change (l1 ++ x :: y :: l2) with (l1 ++ [x] ++ y :: l2) in Hl0. rewrite app_assoc in Hl0.
  destruct (tl_op_runs s tl ph _ pt (RemoveThread (fst y)) None 0 _ _ Hl0 (tl_remove (l1 ++ [x]) y l2)) as (s1&H1&Hl1&Hfr1&Hc1&Hy);
    [done|].
  pose proof (thread_not_in _ _ _ _ _ _ _ Hl0) as Hnot. rewrite <- app_assoc in Hl1, Hnot. cbn [app] in Hl1, Hnot.
  destruct (tl_op_runs s1 tl ph _ pt (InsertBefore (fst y) (fst x)) (Some y) 0 _ _ Hl1 (tl_insertbefore l1 x l2 y)) as (s2&H2&Hl2&Hfr2&Hc2&_).
  { intros ? [= <-]. split; [by apply Hy|done]. }
  cbn [run_tl] in H1, H2. apply K_bind_inv in H1 as ([]&?&H1&[= ->]). apply K_bind_inv in H2 as ([]&?&H2&[= ->]).
  exists s2. krun. rewrite H1. split; [done|]. split; [done|]. split.
  - intros b Hb. rewrite <- app_assoc in Hfr1. cbn [app option_list fmap option_fmap option_map] in *.
    rewrite Hfr2, Hfr1; [done|exact Hb|]. apply not_elem_of_cons.
    assert (Hp : (full tl ph (l1 ++ x :: y :: l2) pt).*1 ≡ₚ t_listnode (fst y) :: (full tl ph (l1 ++ x :: l2) pt).*1).
    { rewrite (full_perm tl ph (l1 ++ x :: y :: l2) (y :: l1 ++ x :: l2)) by (rewrite <- !Permutation_middle; apply Permutation_swap).
      unfold full. cbn. apply Permutation_swap. }
    rewrite Hp in Hb. by apply not_elem_of_cons in Hb.
  - intros tl' Hne. by rewrite Hc2, Hc1.
Qed.

(** No node of a list is the one [t_listnode] finds for a null thread. *)
Lemma null_not_in s tl ph l pt :
  tlist s tl ph l pt -> nodes s !! t_listnode 0 = None -> t_listnode 0 ∉ (full tl ph l pt).*1.
Proof. intros [(Hc&_) _ _] Hnull Hi. destruct (chain_lookup _ _ _ _ _ Hc Hi) as (_&[? ?]). congruence. Qed.

(** A bookend has no thread: the code takes the node of a null one. *)
Lemma remove_null tl s : nodes s !! t_listnode 0 = None -> threadlist_remove tl 0 s = Panic.
Proof. intros Hn. unfold threadlist_remove, threadlist_removenode. krun. unfold loadn. by rewrite Hn. Qed.

Lemma swap_loop_eq fuel s tl ph l1 x l2 pt :
  tlist s tl ph (l1 ++ x :: l2) pt -> (S (length l2) < fuel)%nat -> nodes s !! t_listnode 0 = None ->
  if tail_holds pt (x :: l2) then
    exists s', swap_loop fuel tl (t_listnode (fst x)) s = Done ((), s') /\ tlist s' tl ph (l1 ++ pass (x :: l2)) pt /\
      (forall b, b ∉ (full tl ph (l1 ++ x :: l2) pt).*1 -> nodes s' !! b = nodes s !! b) /\
      (forall tl', tl' <> tl -> tl_count s' !! tl' = tl_count s !! tl')
  else swap_loop fuel tl (t_listnode (fst x)) s = Panic.
Proof.
  remember (length l2) as k eqn:Hk. revert fuel s l1 x l2 Hk.
  induction (lt_wf k) as [k _ IH]. intros [|fuel] s l1 x l2 -> Hl Hf Hnull; [lia|].
  destruct (thread_node _ _ _ _ _ _ _ Hl) as (n&Hn&Hself&Hprio&Hnext&Hn0&_). cbn [swap_loop].
  destruct s as [h c]. cbn [nodes] in Hn, Hnull. krun. erewrite loadn_eq by exact Hn. krun.
  rewrite (proj2 (Z.eqb_neq _ _) Hn0). krun. destruct l2 as [|y l2].
  - destruct (last_node _ _ _ _ _ Hl) as (m&Hm&Hm0&Hms&Hmp&_). cbn [nodes] in Hm. rewrite Hnext.
    erewrite loadn_eq by exact Hm. krun. rewrite Hmp, Hprio, Z.gtb_ltb, Z.ltb_antisym. cbn [tail_holds].
    destruct (Z.leb_spec pt (snd x)); cbn [negb].
    + krun. erewrite loadn_eq by exact Hn. krun. rewrite Hnext. destruct fuel as [|fuel]; [cbn in Hf; lia|]. cbn [swap_loop].
      krun. erewrite loadn_eq by exact Hm. krun. rewrite Hm0. cbn. eauto.
    + rewrite Hms. krun. by rewrite remove_null.
  - pose proof Hl as Hl0. change (l1 ++ x :: y :: l2) with (l1 ++ [x] ++ y :: l2) in Hl0. rewrite app_assoc in Hl0.
    destruct (thread_node _ _ _ _ _ _ _ Hl0) as (m&Hm&Hmself&Hmprio&_). cbn [nodes] in Hm. rewrite Hnext.
    erewrite loadn_eq by exact Hm. krun. rewrite Hmprio, Hprio, Hmself, Hself.
    change (tail_holds pt (x :: y :: l2)) with (if snd y >? snd x then tail_holds pt l2 else tail_holds pt (y :: l2)).
    cbn [pass]. destruct (snd y >? snd x) eqn:Hgt.
    + destruct (swap_eq (mkTl h c) tl ph l1 x y l2 pt Hl) as (s1&H1&Hl1&Hfr1&Hc1). rewrite H1.
      pose proof (Hfr1 _ (null_not_in _ _ _ _ _ Hl Hnull)) as Hnull1. cbn [nodes] in Hnull1. rewrite Hnull in Hnull1.
      assert (Hfull : (full tl ph (l1 ++ y :: x :: l2) pt).*1 ≡ₚ (full tl ph (l1 ++ x :: y :: l2) pt).*1).
      { rewrite (full_perm tl ph (l1 ++ y :: x :: l2) (l1 ++ x :: y :: l2)); [done|]. apply Permutation_app_head, Permutation_swap. }
      pose proof Hl1 as Hl2. change (l1 ++ y :: x :: l2) with (l1 ++ [y] ++ x :: l2) in Hl2. rewrite app_assoc in Hl2.
      destruct (thread_node _ _ _ _ _ _ _ Hl2) as (n1&Hn1&_&_&Hnext1&_).
      destruct s1 as [h1 c1]. cbn [nodes tl_count] in *. krun. erewrite loadn_eq by exact Hn1. krun. rewrite Hnext1.
      destruct l2 as [|z l2].
      * destruct (last_node _ _ _ _ _ Hl1) as (e&He&He0&_). cbn [nodes] in He.
        destruct fuel as [|fuel]; [cbn in Hf; lia|]. cbn [swap_loop tail_holds]. krun. erewrite loadn_eq by exact He. krun.
        rewrite He0. cbn [Z.eqb]. krun. eauto.
      * change (l1 ++ y :: x :: z :: l2) with (l1 ++ [y; x] ++ z :: l2) in Hl1. rewrite app_assoc in Hl1.
        pose proof (IH (length l2) ltac:(cbn; lia) fuel (mkTl h1 c1) (l1 ++ [y; x]) z l2 eq_refl Hl1 ltac:(cbn in Hf |- *; lia) Hnull1) as Hz.
        destruct (tail_holds pt (z :: l2)); [|exact Hz]. destruct Hz as (s'&Hrun&Hl'&Hfr'&Hc').
        exists s'. split; [exact Hrun|]. split; [by rewrite <- app_assoc in Hl'|]. split.
        -- intros b Hb. rewrite Hfr', Hfr1; [done|done|]. rewrite <- app_assoc. cbn [app]. by rewrite Hfull.
        -- intros tl' Hne. by rewrite Hc', Hc1.
    + krun. erewrite loadn_eq by exact Hn. krun. rewrite Hnext.
      pose proof (IH (length l2) ltac:(cbn; lia) fuel (mkTl h c) (l1 ++ [x]) y l2 eq_refl Hl0 ltac:(cbn in Hf |- *; lia) Hnull) as Hy.
      destruct (tail_holds pt (y :: l2)); [|exact Hy]. destruct Hy as (s'&Hrun&Hl'&Hfr'&Hc').
      exists s'. rewrite <- app_assoc in Hl', Hfr'. done.
Qed.

(** What a call leaves: the priorities one up, one pass, nothing else touched. *)
Definition scheduled (s s' : tlst) (tl ph : Z) (ths : list (Z * Z)) (pt : Z) : Prop :=
  tlist s' tl (s32 (ph + 1)) (pass (older <$> ths)) pt /\
  (forall b, b ∉ (full tl ph ths pt).*1 -> nodes s' !! b = nodes s !! b) /\
  (forall tl', tl' <> tl -> tl_count s' !! tl' = tl_count s !! tl').

(** The first comparison is that of the bookend in front. *)
Lemma swap_front fuel s tl ph l pt :
  tlist s tl ph l pt -> (S (length l) < fuel)%nat -> nodes s !! t_listnode 0 = None ->
  if stays_between ph pt l then
    exists s', swap_loop (S fuel) tl (tl_head tl) s = Done ((), s') /\ tlist s' tl ph (pass l) pt /\
      (forall b, b ∉ (full tl ph l pt).*1 -> nodes s' !! b = nodes s !! b) /\
      (forall tl', tl' <> tl -> tl_count s' !! tl' = tl_count s !! tl')
  else swap_loop (S fuel) tl (tl_head tl) s = Panic.
Proof.
  intros Hl Hf Hnull. destruct (tail_not_0 _ _ _ _ _ Hl) as (Ht0&_).
  pose proof (tlist_chain _ _ _ _ _ Hl) as ((_&Hh&_)&_). cbn in Hh.
  unfold stays_between. cbn [swap_loop]. destruct s as [h c]. cbn [nodes tl_count] in *.
  krun. erewrite loadn_eq by exact Hh. krun. cbn [tln_next priority tln_self].
  destruct l as [|x l]; cbn [fmap list_fmap app head_addr fst tnode_of] in *.
  - destruct (last_node _ _ _ _ _ Hl) as (e&He&He0&Hes&Hep&_). cbn [nodes] in He.
    rewrite (proj2 (Z.eqb_neq _ _) Ht0). krun. erewrite loadn_eq by exact He. krun. rewrite Hep, Hes, Z.gtb_ltb, Z.ltb_antisym.
    cbn [tail_holds]. rewrite andb_true_r. destruct (pt <=? ph); cbn [negb].
    + krun. erewrite loadn_eq by exact Hh. krun. cbn [tln_next].
      destruct fuel as [|fuel]; [cbn in Hf; lia|]. cbn [swap_loop]. krun. erewrite loadn_eq by exact He. krun. rewrite He0.
      cbn [Z.eqb]. krun. eauto.
    + krun. by rewrite remove_null.
  - destruct (thread_node _ _ _ [] _ _ _ Hl) as (m&Hm&Hmself&Hmp&_). cbn [nodes] in Hm.
    assert (Hx0 : t_listnode (fst x) <> 0).
    { destruct Hl as [(Hc&_) _ _]. eapply (chain_lookup _ _ _ _ _ Hc). unfold full. cbn. right. left. }
    rewrite (proj2 (Z.eqb_neq _ _) Hx0). krun. erewrite loadn_eq by exact Hm. krun.
    rewrite Hmp, Hmself, Z.gtb_ltb, Z.ltb_antisym. destruct (snd x <=? ph); cbn [negb andb].
    + krun. erewrite loadn_eq by exact Hh. krun. cbn [tln_next].
      exact (swap_loop_eq fuel (mkTl h c) tl ph [] x l pt Hl ltac:(cbn in Hf |- *; lia) Hnull).
    + destruct (tl_op_runs (mkTl h c) tl ph _ pt (RemoveThread (fst x)) None 0 _ _ Hl (tl_remove [] x l)) as (s2&H2&Hl2&Hfr2&_); [done|].
      cbn [run_tl] in H2. apply K_bind_inv in H2 as ([]&?&H2&[= ->]). krun. rewrite H2. krun.
      unfold threadlist_insertbefore, threadlist_insertbeforenode. krun. unfold loadn.
      rewrite Hfr2; cbn [nodes]; [by rewrite Hnull|]. cbn [option_list fmap option_fmap option_map app].
      exact (null_not_in _ _ _ _ _ Hl Hnull).
Qed.

(** One call, whatever the priorities of the bookends and of the threads. *)
Lemma schedule_eq s tl ph ths pt :
  tlist s tl ph ths pt -> nodes s !! t_listnode 0 = None ->
  if stays_between (s32 (ph + 1)) pt (older <$> ths) then exists s', schedule tl s = Done ((), s') /\ scheduled s s' tl ph ths pt
  else schedule tl s = Panic.
Proof.
  intros Hl Hnull. pose proof (tlist_size _ _ _ _ _ Hl) as Hsize.
  destruct (age_eq (S (size (nodes s))) s tl ph ths pt Hl) as (s1&H1&Hl1&Hfr1&Hc1); [lia|].
  assert (Hrun : schedule tl s = swap_loop (S (size (nodes s))) tl (tl_head tl) s1).
  { unfold schedule, tl_rounds. krun. by rewrite H1. }
  rewrite Hrun. unfold scheduled.
  pose proof (swap_front (size (nodes s)) s1 tl (s32 (ph + 1)) (older <$> ths) pt Hl1) as Hs.
  destruct (stays_between _ _ _); [|apply Hs].
  - destruct Hs as (s'&Hrun'&Hl'&Hfr'&Hc'). { rewrite length_fmap. lia. } { by rewrite Hfr1 by exact (null_not_in _ _ _ _ _ Hl Hnull). }
    exists s'. split; [exact Hrun'|]. split; [exact Hl'|]. split; [|by rewrite Hc1 in Hc'].
    intros b Hb. rewrite Hfr'; [by apply Hfr1|]. by rewrite (full_addrs_older tl ph).
  - rewrite length_fmap. lia.
  - by rewrite Hfr1 by exact (null_not_in _ _ _ _ _ Hl Hnull).
Qed.

(** ** Sequences of operations

    [free] are the threads that are on no list. *)
Inductive tl_trace : list tl_op -> list (Z * Z) * list (Z * Z) -> list Z -> list (Z * Z) * list (Z * Z) -> Prop :=
  | tl_trace_nil c : tl_trace [] c [] c
  | tl_trace_cons op ops l free inn r l' out rest rs c :
      tl_abs op l inn r l' out -> free ≡ₚ option_list inn ++ rest ->
      tl_trace ops (l', option_list out ++ rest) rs c ->
      tl_trace (op :: ops) (l, free) (r :: rs) c.

Fixpoint run_tls (tl : Z) (ops : list tl_op) : K tlst (list Z) :=
  match ops with
  | [] => mret []
  | op :: ops => r ← run_tl tl op; rs ← run_tls tl ops; mret (r :: rs)
  end.

Definition naddr (x : Z * Z) : Z := t_listnode (fst x).

Definition tl_sim (s : tlst) (tl ph pt : Z) (c : list (Z * Z) * list (Z * Z)) : Prop :=
  tlist s tl ph (fst c) pt /\ Forall (loose s) (snd c) /\ NoDup ((full tl ph (fst c) pt).*1 ++ (naddr <$> snd c)).

Lemma tl_abs_perm op l inn r l' out : tl_abs op l inn r l' out -> l' ++ option_list out ≡ₚ l ++ option_list inn.
Proof.
  destruct 1; cbn; rewrite ?app_nil_r; try done.
  - apply Permutation_cons_append.
  - symmetry. apply Permutation_cons_append.
  - rewrite <- !app_assoc. cbn. apply Permutation_app_head. constructor. apply Permutation_cons_append.
  - rewrite <- !app_assoc. cbn. apply Permutation_app_head.
    rewrite Permutation_swap. constructor. apply Permutation_cons_append.
  - rewrite <- app_assoc. apply Permutation_app_head. symmetry. apply Permutation_cons_append.
Qed.

Lemma full_addrs tl ph l pt : (full tl ph l pt).*1 ≡ₚ [tl_head tl; tl_tail tl] ++ (naddr <$> l).
Proof.
  unfold full. cbn. rewrite fmap_app. cbn. rewrite <- list_fmap_compose. constructor.
  symmetry. apply Permutation_cons_append.
Qed.

Lemma tl_sim_step s tl ph pt op l free inn r l' out rest :
  tl_sim s tl ph pt (l, free) -> tl_abs op l inn r l' out -> free ≡ₚ option_list inn ++ rest ->
  exists s', run_tl tl op s = Done (r, s') /\ tl_sim s' tl ph pt (l', option_list out ++ rest).
Proof.
  intros (Hl&Hloose&Hnd) Habs Hfree. cbn in *. rewrite Hfree in Hnd, Hloose. apply Forall_app in Hloose as (Hin&Hrest).
  rewrite full_addrs, !fmap_app in Hnd.
  destruct (tl_op_runs s tl ph l pt op inn r l' out Hl Habs) as (s'&Hrun&Hl'&Hfr&_&Hout).
  { intros x ->. cbn in Hin. apply Forall_cons in Hin as (Hx&_). split; [exact Hx|].
    rewrite full_addrs. intros Hi. apply NoDup_app in Hnd as (_&Hd&_). apply (Hd _ Hi). left. }
  exists s'. split; [exact Hrun|]. split; [exact Hl'|]. cbn. split.
  - apply Forall_app. split; [destruct out; cbn; [constructor; [by apply Hout|constructor]|constructor]|].
    apply Forall_forall. intros x Hx. rewrite Forall_forall in Hrest. destruct (Hrest x Hx) as (?&?&Hn).
    split; [done|]. split; [done|]. rewrite Hfr; [done|].
    assert (Hxr : naddr x ∈ naddr <$> rest) by (apply list_elem_of_fmap; by exists x).
    rewrite app_assoc in Hnd. apply NoDup_app in Hnd as (_&Hd&_).
    rewrite not_elem_of_app, full_addrs. split.
    + intros Hi. apply (Hd (naddr x)); [|exact Hxr]. apply elem_of_app. right.
      destruct inn; cbn in *; exact Hi.
    + intros Hi. apply (Hd (naddr x)); [|exact Hxr]. by apply elem_of_app; left.
  - rewrite full_addrs, fmap_app.
    assert (Hp : naddr <$> l' ++ option_list out ≡ₚ naddr <$> l ++ option_list inn) by (by rewrite tl_abs_perm).
    rewrite !fmap_app in Hp. rewrite <- app_assoc, (app_assoc (naddr <$> l')), Hp. by rewrite <- !app_assoc in *.
Qed.

Lemma tl_trace_runs tl ph pt ops c rs c' s :
  tl_trace ops c rs c' -> tl_sim s tl ph pt c -> exists s', run_tls tl ops s = Done (rs, s') /\ tl_sim s' tl ph pt c'.
Proof.
  intros Ht. revert s. induction Ht as [c|op ops l free inn r l' out rest rs c Habs Hfree _ IH]; intros s Hs; [by exists s|].
  destruct (tl_sim_step s tl ph pt op l free inn r l' out rest Hs Habs Hfree) as (s1&H1&Hs1).
  destruct (IH s1 Hs1) as (s2&H2&Hs2). exists s2. split; [|done]. cbn [run_tls]. krun. rewrite H1. krun. by rewrite H2.
Qed.

Lemma threadlist_init_sim s tl nh nt free :
  tl <> 0 -> tl_tail tl <> 0 -> nodes s !! tl_head tl = Some nh -> nodes s !! tl_tail tl = Some nt ->
  Forall (loose s) free -> NoDup ([tl_head tl; tl_tail tl] ++ (naddr <$> free)) ->
  exists s', threadlist_init tl s = Done ((), s') /\ tl_sim s' tl (priority nh) (priority nt) ([], free).
Proof.
  intros H0 H1 Hh Ht Hf Hnd. destruct s as [h c]. cbn in *.
  assert (Hne : tl_head tl <> tl_tail tl) by (unfold tl_head, tl_tail; lia).
  unfold threadlist_init. tlrun. unfold put_count. krun. cbn [nodes tl_count].
  eexists. split; [reflexivity|]. split; [constructor; cbn|split; cbn].
  - split; [|by apply (NoDup_app [tl_head tl; tl_tail tl]) in Hnd as (?&_)]. cbn.
    split; [done|]. split; [rewrite lookup_insert_ne, lookup_insert_eq by done; reflexivity|].
    split; [done|]. split; [by rewrite lookup_insert_eq|done].
  - constructor.
  - by rewrite lookup_insert_eq.
  - apply Forall_forall. intros x Hx. rewrite Forall_forall in Hf. destruct (Hf x Hx) as (?&?&Hn).
    split; [done|]. split; [done|]. cbn.
    apply NoDup_cons in Hnd as (Hn1&Hnd). apply NoDup_cons in Hnd as (Hn2&_).
    assert (Hxr : naddr x ∈ naddr <$> free) by (apply list_elem_of_fmap; by exists x).
    assert (tl_tail tl <> t_listnode (fst x)) by (intros E; apply Hn2; rewrite E; exact Hxr).
    assert (tl_head tl <> t_listnode (fst x)) by (intros E; apply Hn1; right; rewrite E; exact Hxr).
    by rewrite !lookup_insert_ne by done.
  - exact Hnd.
Qed.

End ThreadList.

(** ** Repeated passes *)

Definition later (k : Z) (x : Z * Z) : Z * Z := (fst x, snd x + k).

(** How many threads further back have a higher priority, over all threads. *)
Fixpoint inversions (l : list (Z * Z)) : nat :=
  match l with
  | [] => 0
  | x :: r => length (filter (fun y => snd x < snd y) r) + inversions r
  end.

Lemma pass_cons x y r :
  pass (x :: y :: r) = if snd y >? snd x then y :: x :: pass r else x :: pass (y :: r).
Proof. reflexivity. Qed.

Lemma pass_perm l : pass l ≡ₚ l.
Proof.
  induction l as [l IH] using (induction_ltof1 _ (@length (Z * Z))). unfold ltof in IH.
  destruct l as [|x [|y r]]; [done|done|]. rewrite pass_cons. destruct (_ >? _).
  - rewrite (IH r) by (cbn; lia). apply Permutation_swap.
  - constructor. apply (IH (y :: r)). cbn. lia.
Qed.

Lemma inversions_cons_perm (x : Z * Z) (l l' : list (Z * Z)) : l ≡ₚ l' ->
  length (filter (fun y => snd x < snd y) l) = length (filter (fun y => snd x < snd y) l').
Proof. intros H. by rewrite H. Qed.

Lemma pass_inversions l : pass l = l \/ (inversions (pass l) < inversions l)%nat.
Proof.
  induction l as [l IH] using (induction_ltof1 _ (@length (Z * Z))). unfold ltof in IH.
  destruct l as [|x [|y r]]; [by left|by left|]. rewrite pass_cons. destruct (Z.gtb_spec (snd y) (snd x)).
  - right. cbn [inversions]. rewrite !filter_cons, (decide_False (P := snd y < snd x)) by lia.
    rewrite (decide_True (P := snd x < snd y)) by lia. cbn.
    rewrite !(inversions_cons_perm _ (pass r) r) by apply pass_perm.
    destruct (IH r ltac:(cbn; lia)) as [->|]; lia.
  - destruct (IH (y :: r) ltac:(cbn; lia)) as [E|Hlt]; [left; by rewrite E|right].
    cbn [inversions]. rewrite (inversions_cons_perm x (pass (y :: r)) (y :: r)) by apply pass_perm. cbn [inversions] in Hlt. lia.
Qed.

Lemma pass_sorted l : pass l = l -> StronglySorted Z.ge (snd <$> l).
Proof.
  intros H. apply Sorted_StronglySorted; [intros a b c; lia|].
  induction l as [|x l IH]; [constructor|]. destruct l as [|y r]; [by repeat constructor|].
  rewrite pass_cons in H. destruct (Z.gtb_spec (snd y) (snd x)) as [Hgt|Hle]; [injection H as -> ?; lia|].
  injection H as H. constructor; [by apply IH|]. constructor. lia.
Qed.

Lemma inversions_bound l : (inversions l <= length l * length l)%nat.
Proof.
  induction l as [|x l IH]; cbn; [lia|].
  pose proof (length_filter (fun y => snd x < snd y) l). nia.
Qed.

Lemma pass_later k l : pass (later k <$> l) = later k <$> pass l.
Proof.
  induction l as [l IH] using (induction_ltof1 _ (@length (Z * Z))). unfold ltof in IH.
  destruct l as [|x [|y r]]; [done|done|]. rewrite !fmap_cons, !pass_cons. cbn [later snd].
  replace (snd y + k >? snd x + k) with (snd y >? snd x)
    by (destruct (Z.gtb_spec (snd y) (snd x)), (Z.gtb_spec (snd y + k) (snd x + k)); (done || lia)).
  destruct (_ >? _); cbn.
  - do 2 f_equal. apply (IH r). cbn. lia.
  - f_equal. apply (IH (y :: r)). cbn. lia.
Qed.

Lemma iter_pass_perm k l : Nat.iter k pass l ≡ₚ l.
Proof. induction k as [|k IH]; [done|]. cbn. by rewrite pass_perm. Qed.

Lemma iter_pass_fixed k l : (inversions l <= k)%nat -> pass (Nat.iter k pass l) = Nat.iter k pass l.
Proof.
  revert l. induction k as [|k IH]; intros l Hk.
  - cbn. destruct (pass_inversions l); [done|lia].
  - rewrite Nat.iter_succ_r. destruct (pass_inversions l) as [E|Hlt]; [|apply IH; lia]. rewrite E.
    assert (Hi : Nat.iter k pass l = l) by (clear -E; induction k as [|k IH]; [done|by rewrite Nat.iter_succ, IH]).
    by rewrite Hi.
Qed.

Section Schedules.
Variable t_listnode : Z -> Z.

Fixpoint run_schedules (k : nat) (tl : Z) : K tlst unit :=
  match k with O => mret () | S k => schedule t_listnode tl;; run_schedules k tl end.

(** Bookends that bound the threads hold. *)
Lemma between_stays ph pt (l : list (Z * Z)) :
  - 2 ^ 31 <= pt <= ph -> ph < 2 ^ 31 - 1 -> Forall (fun x => pt <= snd x <= ph) l ->
  stays_between (s32 (ph + 1)) pt (older <$> l) = true.
Proof.
  intros Hpt Hph Hall. unfold stays_between. rewrite s32_small by lia. apply andb_true_iff. split.
  - apply Z.leb_le. destruct l as [|x l]; cbn; [lia|]. apply Forall_cons in Hall as (Hx&_). rewrite s32_small; lia.
  - apply tail_holds_all, Forall_forall. intros y (x&->&Hx)%list_elem_of_fmap. rewrite Forall_forall in Hall.
    specialize (Hall x Hx). cbn. rewrite s32_small; lia.
Qed.

Lemma later_later k j (l : list (Z * Z)) : later k <$> (later j <$> l) = later (j + k) <$> l.
Proof. rewrite <- list_fmap_compose. apply list_fmap_ext. intros _ x _. unfold later. cbn. f_equal. lia. Qed.

Lemma schedules_eq k s tl ph ths pt :
  tlist t_listnode s tl ph ths pt -> - 2 ^ 31 <= pt <= ph -> Forall (fun x => pt <= snd x <= ph) ths ->
  ph + Z.of_nat k < 2 ^ 31 -> nodes s !! t_listnode 0 = None ->
  exists s', run_schedules k tl s = Done ((), s') /\
    tlist t_listnode s' tl (ph + Z.of_nat k) (later (Z.of_nat k) <$> Nat.iter k pass ths) pt.
Proof.
  revert s ph ths. induction k as [|k IH]; intros s ph ths Hl Hpt Hall Hk Hnull.
  - exists s. split; [done|]. cbn [Z.of_nat Nat.iter]. rewrite Z.add_0_r.
    rewrite (list_fmap_ext (later 0) id), list_fmap_id; [done|]. intros _ x _. unfold later. destruct x. cbn. by rewrite Z.add_0_r.
  - assert (Hold : older <$> ths = later 1 <$> ths).
    { apply list_fmap_ext. intros i x Hx. rewrite Forall_lookup in Hall. specialize (Hall i x Hx).
      unfold older, later. rewrite s32_small by lia. done. }
    assert (Hph : s32 (ph + 1) = ph + 1) by (apply s32_small; lia).
    pose proof (schedule_eq t_listnode s tl ph ths pt Hl Hnull) as Hs.
    rewrite (between_stays ph pt ths) in Hs by (done || lia). destruct Hs as (s1&H1&Hl1&Hfr1&_).
    rewrite Hph, Hold, pass_later in Hl1.
    destruct (IH s1 (ph + 1) (later 1 <$> pass ths) Hl1) as (s2&H2&Hl2); [lia| |lia| |].
    { apply Forall_fmap, Forall_forall. intros x Hx. rewrite pass_perm in Hx. rewrite Forall_forall in Hall.
      specialize (Hall x Hx). cbn. lia. }
    { rewrite Hfr1; [done|]. exact (null_not_in t_listnode _ _ _ _ _ Hl Hnull). }
    exists s2. split; [cbn [run_schedules]; krun; rewrite H1; exact H2|].
    assert (Hiter : Nat.iter k pass (later 1 <$> pass ths) = later 1 <$> Nat.iter (S k) pass ths).
    { rewrite Nat.iter_succ_r. clear. generalize (pass ths). intros l. induction k as [|k IH]; [done|].
      by rewrite !Nat.iter_succ, IH, pass_later. }
    rewrite Hiter, later_later in Hl2. replace (ph + Z.of_nat (S k)) with (ph + 1 + Z.of_nat k) by lia.
    by replace (Z.of_nat (S k)) with (1 + Z.of_nat k) by lia.
Qed.
End Schedules.

(** ** The properties *)

(** C16. Lists of threads: whatever sequence of the operations is run on a list that has
    just been initialised, where a thread is put on the list only when it is on no
    list and only taken off when it is on it, every operation returns (no null, no
    freed, no foreign node is followed), with the thread the operation promises: at
    the head, at the tail, after or before a given thread; the links in both
    directions and the count stand for the list; and the threads taken off are clean,
    as [threadlistnode_cleanup] and the next list want them. *)
Theorem threadlist_refines t_listnode s tl nh nt free ops rs l free' :
  tl <> 0 -> tl_tail tl <> 0 -> nodes s !! tl_head tl = Some nh -> nodes s !! tl_tail tl = Some nt ->
  Forall (loose t_listnode s) free -> NoDup ([tl_head tl; tl_tail tl] ++ (naddr t_listnode <$> free)) ->
  tl_trace ops ([], free) rs (l, free') ->
  exists s', (threadlist_init tl;; run_tls t_listnode tl ops) s = Done (rs, s') /\
    tl_sim t_listnode s' tl (priority nh) (priority nt) (l, free') /\
    Forall (fun x => threadlistnode_cleanup (t_listnode (fst x)) s' = Done ((), s')) free'.
Proof.
  intros H0 H1 Hh Ht Hf Hnd Htr.
  destruct (threadlist_init_sim t_listnode s tl nh nt free H0 H1 Hh Ht Hf Hnd) as (s1&Hrun1&Hs1).
  destruct (tl_trace_runs t_listnode tl _ _ ops _ _ _ s1 Htr Hs1) as (s2&Hrun2&Hs2).
  exists s2. split; [krun; by rewrite Hrun1|]. split; [exact Hs2|]. destruct Hs2 as (_&Hloose&_). cbn in Hloose.
  eapply Forall_impl; [exact Hloose|]. intros x (Hx0&_&Hn). destruct s2 as [h c].
  unfold threadlistnode_cleanup. krun. erewrite loadn_eq by exact Hn. unfold kassert. krun. cbn [tln_next tln_prev tln_self]. krun.
  by rewrite (proj2 (Z.eqb_neq _ _) Hx0).
Qed.

(** C24. [schedule] on any well-formed run queue.  One call counts every priority up and
    makes one pass over the queue, and returns with a well-formed list of the same
    threads, exactly when the pass leaves the bookends where they are
    ([stays_between]: with the priorities counted up, the first thread's is not above
    that of the bookend in front, and that of the bookend at the end is not above the
    last one's, if they are compared); otherwise it panics, on a bookend's null thread.  The code never gives
    the bookends a priority (they are what [threadlist_init] found in the memory), so
    both happen.  When the bookends' priorities bound those of the threads, and no
    priority overflows, every one of [k] calls in a row returns with the same threads
    on the queue, and once there are as many calls as pairs of threads the queue is in
    the order of the priorities, the highest in front. *)
Theorem schedule_sorts t_listnode s tl ph ths pt :
  tlist t_listnode s tl ph ths pt -> nodes s !! t_listnode 0 = None ->
  (if stays_between (s32 (ph + 1)) pt (older <$> ths)
   then exists s', schedule t_listnode tl s = Done ((), s') /\ scheduled t_listnode s s' tl ph ths pt
   else schedule t_listnode tl s = Panic) /\
  (forall k, - 2 ^ 31 <= pt <= ph -> Forall (fun x => pt <= snd x <= ph) ths -> ph + Z.of_nat k < 2 ^ 31 ->
   exists s' ths', run_schedules t_listnode k tl s = Done ((), s') /\
     tlist t_listnode s' tl (ph + Z.of_nat k) ths' pt /\
     ths' ≡ₚ later (Z.of_nat k) <$> ths /\
     ((length ths * length ths <= k)%nat -> StronglySorted Z.ge (snd <$> ths'))).
Proof.
  intros Hl Hnull. split; [by apply schedule_eq|]. intros k Hpt Hall Hk.
  destruct (schedules_eq t_listnode k s tl ph ths pt Hl Hpt Hall Hk Hnull) as (s'&Hrun&Hl').
  eexists s', _. split; [exact Hrun|]. split; [exact Hl'|]. split; [by rewrite iter_pass_perm|].
  intros Hlen. apply pass_sorted. rewrite pass_later. f_equal. apply iter_pass_fixed.
  pose proof (inversions_bound ths). lia.
Qed.

(** A list at address 1000 and three threads whose nodes are 80 bytes in. *)
Definition node_at (t : Z) : Z := t + 80.
Definition sample_nodes : tlst :=
  mkTl {[1000 := mkTln 0 0 0 7; 1016 := mkTln 0 0 0 (-3); 2080 := mkTln 0 0 2000 0; 3080 := mkTln 0 0 3000 0; 4080 := mkTln 0 0 4000 0]} ∅.
Definition sample_free : list (Z * Z) := [(2000, 0); (3000, 0); (4000, 0)].
Definition sample_tl_ops : list tl_op :=
  [AddTail 2000; AddHead 3000; InsertBefore 4000 2000; RemHead; RemTail; IsEmpty; RemoveThread 4000; RemHead].

Lemma sample_trace : tl_trace sample_tl_ops ([], sample_free) [0; 0; 0; 3000; 2000; 0; 0; 0] ([], [(4000, 0); (2000, 0); (3000, 0)]).
Proof.
  unfold sample_tl_ops, sample_free.
  eapply (tl_trace_cons _ _ _ _ (Some (2000, 0)) 0 [(2000, 0)] None [(3000, 0); (4000, 0)]); [apply (tl_addtail (2000, 0) [])|reflexivity|].
  eapply (tl_trace_cons _ _ _ _ (Some (3000, 0)) 0 _ None [(4000, 0)]); [apply (tl_addhead (3000, 0))|reflexivity|].
  eapply (tl_trace_cons _ _ _ _ (Some (4000, 0)) 0 _ None []); [apply (tl_insertbefore [(3000, 0)] (2000, 0) [] (4000, 0))|reflexivity|].
  eapply (tl_trace_cons _ _ _ _ None 3000 _ (Some (3000, 0)) []); [apply (tl_remhead (3000, 0))|reflexivity|].
  eapply (tl_trace_cons _ _ _ _ None 2000 [(4000, 0)] (Some (2000, 0)) [(3000, 0)]);
    [apply (tl_remtail (2000, 0) [(4000, 0)])|reflexivity|].
  eapply (tl_trace_cons _ _ _ _ None 0 _ None [(2000, 0); (3000, 0)]); [apply (tl_isempty [(4000, 0)]); cbn; lia|reflexivity|].
  eapply (tl_trace_cons _ _ _ _ None 0 [] (Some (4000, 0)) [(2000, 0); (3000, 0)]); [apply (tl_remove [] (4000, 0) [])|reflexivity|].
  eapply (tl_trace_cons _ _ _ _ None 0 _ None [(4000, 0); (2000, 0); (3000, 0)]); [apply tl_remhead_nil|reflexivity|].
  apply tl_trace_nil.
Qed.

Lemma threadlist_refines_witness :
  exists s', (threadlist_init 1000;; run_tls node_at 1000 sample_tl_ops) sample_nodes = Done ([0; 0; 0; 3000; 2000; 0; 0; 0], s') /\
    tl_sim node_at s' 1000 7 (-3) ([], [(4000, 0); (2000, 0); (3000, 0)]) /\
    Forall (fun x => threadlistnode_cleanup (node_at (fst x)) s' = Done ((), s')) [(4000, 0); (2000, 0); (3000, 0)].
Proof.
  apply (threadlist_refines node_at sample_nodes 1000 (mkTln 0 0 0 7) (mkTln 0 0 0 (-3)) sample_free sample_tl_ops
    [0; 0; 0; 3000; 2000; 0; 0; 0] [] [(4000, 0); (2000, 0); (3000, 0)]).
  - discriminate.
  - discriminate.
  - reflexivity.
  - reflexivity.
  - repeat constructor; discriminate.
  - apply (bool_decide_unpack _). vm_compute. exact I.
  - apply sample_trace.
Defined.

(** A queue whose oldest thread is in the middle, with the bookends at 5 and 0; and the
    same queue when the memory of the bookend in front held a 0. *)
Definition sample_queue : tlst :=
  mkTl {[1000 := mkTln 0 2080 0 5; 2080 := mkTln 1000 3080 2000 1; 3080 := mkTln 2080 4080 3000 3;
         4080 := mkTln 3080 1016 4000 2; 1016 := mkTln 4080 0 0 0]} {[1000 := 3]}.
Definition sample_threads : list (Z * Z) := [(2000, 1); (3000, 3); (4000, 2)].

Lemma sample_queue_ok : tlist node_at sample_queue 1000 5 sample_threads 0.
Proof.
  constructor; [split; [repeat split; discriminate|]|repeat constructor; discriminate|reflexivity].
  apply (bool_decide_unpack _). vm_compute. exact I.
Qed.

Lemma schedule_sorts_witness :
  (exists s', schedule node_at 1000 sample_queue = Done ((), s') /\ scheduled node_at sample_queue s' 1000 5 sample_threads 0) /\
  exists s' ths', run_schedules node_at 9 1000 sample_queue = Done ((), s') /\
    tlist node_at s' 1000 14 ths' 0 /\ ths' ≡ₚ later 9 <$> sample_threads /\ StronglySorted Z.ge (snd <$> ths').
Proof.
  destruct (schedule_sorts node_at sample_queue 1000 5 sample_threads 0 sample_queue_ok eq_refl) as (Hone&Hmany).
  split; [exact Hone|]. destruct (Hmany 9%nat) as (s'&ths'&H1&H2&H3&H4).
  - lia.
  - repeat constructor; cbn; lia.
  - lia.
  - exists s', ths'. split; [exact H1|]. split; [exact H2|]. split; [exact H3|]. apply H4. cbn. lia.
Defined.

Example schedule_panics :
  schedule node_at 1000 (mkTl (<[1000 := mkTln 0 2080 0 0]> (nodes sample_queue)) (tl_count sample_queue)) = Panic.
Proof. vm_compute. reflexivity. Qed.
