(* ===== verification/Thread.v ===== *)
(** * thread/thread.c, thread/clock.c: threads, processors and wait channels

    Lists of threads are lists of (thread, priority of its list node) here; that the
    linked lists of threadlist.c implement them, and what [schedule] does to a run queue,
    is in ThreadList.  Processors are numbered by their place in [allcpus].  A definition
    is what happens under one run queue lock or one wait channel's lock; context switching
    (switchframe_switch) is the change of [c_curthread], and the calls of [cpu_idle] in
    [thread_switch] are what separates the calls of [pick_next].  The process structures
    are reached through the interface [ProcThreads].  Names, stacks and address spaces are
    not kept. *)

From S2P Require Import Prelude Synch LinkedList ThreadList.

#[local] Set Warnings "-clear-no-such-hyp".

Inductive threadstate := S_RUN | S_READY | S_SLEEP | S_ZOMBIE.
#[export] Instance threadstate_eq_dec : EqDecision threadstate.
Proof. solve_decision. Defined.

(** How a call of [thread_switch] goes on: back in its caller at once, in the idle loop,
    or in the thread from the head of the run queue. *)
Inductive switch := Stayed | Idling | Switched.

(** [t_proc] is 0 for a null pointer. *)
Record thread := mkThread { t_state : threadstate; t_cpu : option nat; t_proc : Z }.

Abbreviation tlist_ := (list (Z * Z)) (only parsing).

(** [c_bookends] are the priorities of [tl_head] and [tl_tail] of the run queue. *)
Record cpu := mkCpu {
  c_curthread : Z * Z; c_zombies : tlist_; c_hardclocks : Z; c_isidle : bool; c_runqueue : tlist_;
  c_ipi_pending : Z; c_shootdown : list Z; c_bookends : Z * Z }.

(** What thread.c needs from the process structures [P]: [proc_addthread] and
    [proc_remthread] (proc/proc.c) but for the thread's own field [t_proc], the latter on
    a processor by its current thread, which is the one that leaves the process; and
    where the kernel's process is, for the first thread of a processor. *)
Class ProcThreads (P : Type) := {
  proc_add : Z -> K P Z;
  proc_rem : nat -> Z -> Z -> K P unit;
  the_kproc : P -> Z }.

(** [P] is the type of the process structures.  [wchans] are the wait channels. *)
Record ksys {P : Type} := mkSys_ {
  allcpus : list cpu; threads : gmap Z thread; wchans : list tlist_; thread_count : Z; procs : P }.
Arguments ksys P : clear implicits.
Arguments mkSys_ {P}.

(** The channel [thread_count_wchan]. *)
Definition thread_count_wchan : nat := 0.
Definition IPI_PANIC : Z := 0.
Definition IPI_OFFLINE : Z := 1.
Definition IPI_UNIDLE : Z := 2.
Definition IPI_TLBSHOOTDOWN : Z := 3.
Definition TLBSHOOTDOWN_MAX : Z := 16.
Definition MAX_NAME_LENGTH : Z := 64.
Definition SCHEDULE_HARDCLOCKS : Z := 4.
Definition MIGRATE_HARDCLOCKS : Z := 16.

Definition set_cur (t : Z * Z) (c : cpu) := mkCpu t (c_zombies c) (c_hardclocks c) (c_isidle c) (c_runqueue c) (c_ipi_pending c) (c_shootdown c) (c_bookends c).
Definition set_zombies (l : tlist_) (c : cpu) := mkCpu (c_curthread c) l (c_hardclocks c) (c_isidle c) (c_runqueue c) (c_ipi_pending c) (c_shootdown c) (c_bookends c).
Definition set_hardclocks (n : Z) (c : cpu) := mkCpu (c_curthread c) (c_zombies c) (u32 n) (c_isidle c) (c_runqueue c) (c_ipi_pending c) (c_shootdown c) (c_bookends c).
Definition set_idle (b : bool) (c : cpu) := mkCpu (c_curthread c) (c_zombies c) (c_hardclocks c) b (c_runqueue c) (c_ipi_pending c) (c_shootdown c) (c_bookends c).
Definition set_runqueue (l : tlist_) (c : cpu) := mkCpu (c_curthread c) (c_zombies c) (c_hardclocks c) (c_isidle c) l (c_ipi_pending c) (c_shootdown c) (c_bookends c).
Definition set_ipi (n : Z) (c : cpu) := mkCpu (c_curthread c) (c_zombies c) (c_hardclocks c) (c_isidle c) (c_runqueue c) n (c_shootdown c) (c_bookends c).
Definition set_shootdown (l : list Z) (c : cpu) := mkCpu (c_curthread c) (c_zombies c) (c_hardclocks c) (c_isidle c) (c_runqueue c) (c_ipi_pending c) l (c_bookends c).

Definition set_bookends (b : Z * Z) (c : cpu) := mkCpu (c_curthread c) (c_zombies c) (c_hardclocks c) (c_isidle c) (c_runqueue c) (c_ipi_pending c) (c_shootdown c) b.

Definition with_state (st : threadstate) (th : thread) : thread := mkThread st (t_cpu th) (t_proc th).
Definition with_cpu (i : nat) (th : thread) : thread := mkThread (t_state th) (Some i) (t_proc th).
Definition with_proc (p : Z) (th : thread) : thread := mkThread (t_state th) (t_cpu th) p.

Section Threads.

Context {P : Type} `{!ProcThreads P}.
Abbreviation S_ := (ksys P).
Implicit Types s : S_.

(** ** Access *)

Definition with_cpus (l : list cpu) s : S_ := mkSys_ l (threads s) (wchans s) (thread_count s) (procs s).
Definition with_threads (m : gmap Z thread) s : S_ := mkSys_ (allcpus s) m (wchans s) (thread_count s) (procs s).
Definition with_wchans (l : list tlist_) s : S_ := mkSys_ (allcpus s) (threads s) l (thread_count s) (procs s).
Definition with_count (n : Z) s : S_ := mkSys_ (allcpus s) (threads s) (wchans s) (u32 n) (procs s).
Definition with_procs (p : P) s : S_ := mkSys_ (allcpus s) (threads s) (wchans s) (thread_count s) p.

Definition get_cpu (i : nat) : K S_ cpu := fun s => c ← deref (allcpus s !! i); Done (c, s).
Definition on_cpu (i : nat) (f : cpu -> cpu) : K S_ unit := c ← get_cpu i; modify (fun s => with_cpus (<[i := f c]> (allcpus s)) s).
Definition get_thread (t : Z) : K S_ thread := fun s => th ← deref (threads s !! t); Done (th, s).
Definition put_thread (t : Z) (th : thread) : K S_ unit := modify (fun s => with_threads (<[t := th]> (threads s)) s).
Definition get_wchan (w : nat) : K S_ tlist_ := fun s => l ← deref (wchans s !! w); Done (l, s).
Definition put_wchan (w : nat) (l : tlist_) : K S_ unit := modify (fun s => with_wchans (<[w := l]> (wchans s)) s).
Definition on_procs {A} (m : K P A) : K S_ A := zoom procs with_procs m.

(** ** Operations

    [self] is the processor the code runs on. *)

Definition ipi_send (target : nat) (code : Z) : K S_ unit :=
  kassert ((0 <=? code) && (code <? 32));;
  on_cpu target (fun c => set_ipi (Z.lor (c_ipi_pending c) (Z.shiftl 1 code)) c).

Fixpoint broadcast_loop (self : nat) (targets : list nat) (code : Z) : K S_ unit :=
  match targets with
  | [] => mret ()
  | i :: targets => (if bool_decide (i = self) then mret () else ipi_send i code);; broadcast_loop self targets code
  end.
Definition ipi_broadcast (self : nat) (code : Z) : K S_ unit :=
  n ← gets (fun s => length (allcpus s));
  broadcast_loop self (seq 0 n) code.
Definition thread_shutdown (self : nat) : K S_ unit := ipi_broadcast self IPI_OFFLINE.

Definition ipi_tlbshootdown (target : nat) (mapping : Z) : K S_ unit :=
  c ← get_cpu target;
  kassert (negb (Z.of_nat (length (c_shootdown c)) =? TLBSHOOTDOWN_MAX));;
  on_cpu target (set_shootdown (c_shootdown c ++ [mapping]));;
  on_cpu target (fun c => set_ipi (Z.lor (c_ipi_pending c) (Z.shiftl 1 IPI_TLBSHOOTDOWN)) c).

(** [true]: the processor halts.  [vm_tlbshootdown] is the machine's. *)
Definition interprocessor_interrupt (vm_tlbshootdown : Z -> outcome unit) (self : nat) : K S_ bool :=
  c ← get_cpu self;
  let bits := c_ipi_pending c in
  if Z.testbit bits IPI_PANIC then mret true else
  if Z.testbit bits IPI_OFFLINE then mret true else
  (if Z.testbit bits IPI_TLBSHOOTDOWN then
     lift (foldl (fun m x => m ;; vm_tlbshootdown x) (mret ()) (c_shootdown c));;
     on_cpu self (set_shootdown [])
   else mret ());;
  on_cpu self (set_ipi 0);;
  mret false.

(** On a panic the run queue is emptied by hand. *)
Definition thread_panic (self : nat) : K S_ unit :=
  ipi_broadcast self IPI_PANIC;;
  on_cpu self (set_runqueue []).

(** [held] are the processors whose run queue locks the caller holds: without
    [already_have_lock] the lock is acquired, which panics if this processor has it. *)
Definition thread_make_runnable (self : nat) (held : list nat) (target : Z * Z) (already_have_lock : bool) : K S_ unit :=
  th ← get_thread (fst target);
  targetcpu ← lift (deref (t_cpu th));
  (if already_have_lock then kassert (bool_decide (targetcpu ∈ held))
   else kassert (negb (bool_decide (targetcpu ∈ held))));;
  c ← get_cpu targetcpu;
  put_thread (fst target) (with_state S_READY th);;
  on_cpu targetcpu (set_runqueue (c_runqueue c ++ [target]));;
  if c_isidle c && negb (bool_decide (targetcpu = self)) then ipi_send targetcpu IPI_UNIDLE else mret ().

(** [namelen] is the length of the name, [mem] how [kmalloc] answers, [t] the
    address of the thread. *)
Definition thread_create (namelen : Z) (mem : bool) (t : Z) : K S_ bool :=
  if MAX_NAME_LENGTH <? namelen then mret false else
  if negb mem then mret false else
  put_thread t (mkThread S_READY None 0);;
  mret true.

Definition thread_destroy (self : nat) (t : Z) : K S_ unit :=
  c ← get_cpu self;
  kassert (negb (t =? fst (c_curthread c)));;
  th ← get_thread t;
  kassert (negb (bool_decide (t_state th = S_RUN)));;
  kassert (t_proc th =? 0);;
  modify (fun s => with_threads (delete t (threads s)) s).

Fixpoint exorcise_list (self : nat) (zs : tlist_) : K S_ unit :=
  match zs with
  | [] => mret ()
  | z :: zs =>
    on_cpu self (set_zombies zs);;
    c ← get_cpu self;
    kassert (negb (fst z =? fst (c_curthread c)));;
    th ← get_thread (fst z);
    kassert (bool_decide (t_state th = S_ZOMBIE));;
    thread_destroy self (fst z);;
    exorcise_list self zs
  end.
Definition exorcise (self : nat) : K S_ unit := c ← get_cpu self; exorcise_list self (c_zombies c).

(** The loop of [thread_switch] on an idle processor, and what the next thread does when
    it gets there ([thread_startup] does the same): [false] if there is nothing to run. *)
Definition pick_next (self : nat) : K S_ bool :=
  c ← get_cpu self;
  match c_runqueue c with
  | [] => mret false
  | next :: q =>
    on_cpu self (fun c => set_cur next (set_idle false (set_runqueue q c)));;
    th ← get_thread (fst next);
    put_thread (fst next) (with_state S_RUN th);;
    exorcise self;;
    mret true
  end.

(** [wc] is the wait channel. *)
Definition thread_switch (self : nat) (newstate : threadstate) (wc : nat) : K S_ switch :=
  c ← get_cpu self;
  if c_isidle c then mret Stayed else
  if bool_decide (newstate = S_READY) && bool_decide (c_runqueue c = []) then mret Stayed else
  let cur := c_curthread c in
  match newstate with
  | S_RUN => lift Panic
  | S_READY => thread_make_runnable self [self] cur true
  | S_SLEEP => l ← get_wchan wc; put_wchan wc (l ++ [cur])
  | S_ZOMBIE => on_cpu self (fun c => set_zombies (c_zombies c ++ [cur]) c)
  end;;
  th ← get_thread (fst cur);
  put_thread (fst cur) (with_state newstate th);;
  on_cpu self (set_idle true);;
  next ← pick_next self;
  mret (if next : bool then Switched else Idling).

Definition thread_yield (self : nat) : K S_ switch := thread_switch self S_READY 0.
Definition wchan_sleep (self wc : nat) : K S_ switch := thread_switch self S_SLEEP wc.

Definition wchan_wakeone (self wc : nat) : K S_ unit :=
  l ← get_wchan wc;
  match l with
  | [] => mret ()
  | target :: l => put_wchan wc l;; thread_make_runnable self [] target false
  end.

Fixpoint make_all_runnable (self : nat) (l : tlist_) : K S_ unit :=
  match l with
  | [] => mret ()
  | target :: l => thread_make_runnable self [] target false;; make_all_runnable self l
  end.
Definition wchan_wakeall (self wc : nat) : K S_ unit :=
  l ← get_wchan wc;
  put_wchan wc [];;
  make_all_runnable self l.

Definition wchan_isempty (wc : nat) : K S_ bool := l ← get_wchan wc; mret (bool_decide (l = [])).

(** [proc_addthread] and [proc_remthread] with the thread's side. *)
Definition proc_addthread (proc t : Z) : K S_ Z :=
  th ← get_thread t;
  kassert (t_proc th =? 0);;
  result ← on_procs (proc_add proc);
  when_ok result (
  put_thread t (with_proc proc th);;
  mret 0).

Definition proc_remthread (self : nat) (t : Z) : K S_ unit :=
  th ← get_thread t;
  kassert (negb (t_proc th =? 0));;
  on_procs (proc_rem self t (t_proc th));;
  put_thread t (with_proc 0 th).

(** [proc] is 0 for the caller's process; [t] is the new thread, [mem] and [stack] say
    whether there is memory for it and for its stack. *)
Definition thread_fork (self : nat) (namelen : Z) (mem stack : bool) (t proc : Z) : K S_ Z :=
  c ← get_cpu self;
  ok ← thread_create namelen mem t;
  if negb ok then mret ENOMEM else
  if negb stack then thread_destroy self t;; mret ENOMEM else
  me ← get_thread (fst (c_curthread c));
  th ← get_thread t;
  put_thread t (mkThread (t_state th) (t_cpu me) (t_proc th));;
  result ← proc_addthread (if proc =? 0 then t_proc me else proc) t;
  if negb (result =? 0) then thread_destroy self t;; mret result else
  modify (fun s => with_count (thread_count s + 1) s);;
  wchan_wakeall self thread_count_wchan;;
  thread_make_runnable self [] (t, 0) false;;
  mret 0.

(** The current thread exits.  It is a zombie in [thread_switch], and nothing takes it from
    there to a run queue, so that control comes back only when [thread_switch] returns
    before it has done anything. *)
Definition thread_exit (self : nat) : K S_ switch :=
  c ← get_cpu self;
  let cur := fst (c_curthread c) in
  proc_remthread self cur;;
  th ← get_thread cur;
  kassert (t_proc th =? 0);;
  count ← gets thread_count;
  (if negb (count =? 0) then
     modify (fun s => with_count (count - 1) s);;
     wchan_wakeall self thread_count_wchan
   else mret ());;
  next ← thread_switch self S_ZOMBIE 0;
  match next with Stayed => lift Panic | _ => mret next end.

(** The new processor's first thread [t] is its current thread; there is memory.
    [bookends] is what the memory held: threadlist_init does not set the priorities. *)
Definition cpu_create (t : Z) (bookends : Z * Z) : K S_ unit :=
  n ← gets (fun s => length (allcpus s));
  ok ← thread_create 15 true t;
  kassert ok;;
  modify (fun s => with_cpus (allcpus s ++ [mkCpu (t, 0) [] 0 false [] 0 [] bookends]) s);;
  th ← get_thread t;
  put_thread t (with_cpu n th);;
  kproc ← gets (fun s => the_kproc (procs s));
  result ← proc_addthread kproc t;
  kassert (result =? 0).

(** *** The scheduler and migration *)

(** [schedule] (ThreadList has it on the linked list): one pass over the run queue of
    the current thread's processor.  A thread that is to go before [tl_head], or before
    which [tl_tail] is to go, makes it panic. *)
Fixpoint pass_to (pt : Z) (l : tlist_) : outcome tlist_ :=
  match l with
  | [] => mret []
  | x :: l' =>
    match l' with
    | [] => if pt >? snd x then Panic else mret [x]
    | y :: r =>
      if snd y >? snd x then
        r' ← pass_to pt r; mret (y :: x :: r')
      else r' ← pass_to pt l'; mret (x :: r')
    end
  end.
Definition pass_between (ph pt : Z) (l : tlist_) : outcome tlist_ :=
  KASSERT (negb (match l with [] => pt | x :: _ => snd x end >? ph));;
  pass_to pt l.

Definition schedule_cpu (self : nat) : K S_ unit :=
  me ← get_cpu self;
  th ← get_thread (fst (c_curthread me));
  i ← lift (deref (t_cpu th));
  c ← get_cpu i;
  let '(ph, pt) := c_bookends c in
  q ← lift (pass_between (s32 (ph + 1)) pt (older <$> c_runqueue c));
  on_cpu i (fun c => set_bookends (s32 (ph + 1), pt) (set_runqueue q c)).

(** Moving [n] threads from the tail of [q] to the head of [victims]. *)
Fixpoint take_tail (n : nat) (q victims : tlist_) : outcome (tlist_ * tlist_) :=
  match n with
  | O => mret (q, victims)
  | S n =>
    match last q with
    | Some t => take_tail n (removelast q) (t :: victims)
    | None => Panic
    end
  end.

(** The [while] loop for one processor. *)
Fixpoint send_to (self target : nat) (one_share : Z) (to_send : nat) (victims : tlist_) : K S_ (nat * tlist_) :=
  match to_send with
  | O => mret (O, victims)
  | S to_send =>
    c ← get_cpu target;
    if negb (u32 (Z.of_nat (length (c_runqueue c))) <? one_share) then mret (S to_send, victims) else
    me ← get_cpu self;
    match victims with
    | [] => lift Panic
    | t :: victims =>
      if fst t =? fst (c_curthread me) then send_to self target one_share to_send (victims ++ [t]) else
      th ← get_thread (fst t);
      put_thread (fst t) (with_cpu target th);;
      on_cpu target (set_runqueue (c_runqueue c ++ [t]));;
      (if c_isidle c then ipi_send target IPI_UNIDLE else mret ());;
      send_to self target one_share to_send victims
    end
  end.

Fixpoint send_all (self : nat) (targets : list nat) (one_share : Z) (to_send : nat) (victims : tlist_) : K S_ tlist_ :=
  match targets with
  | [] => mret victims
  | i :: targets =>
    if bool_decide (to_send = O) then mret victims else
    if bool_decide (i = self) then send_all self targets one_share to_send victims else
    '(to_send, victims) ← send_to self i one_share to_send victims;
    send_all self targets one_share to_send victims
  end.

(** [thread_consider_migration] once the run queues have been counted. *)
Definition migrate (self : nat) (my_count total_count : Z) : K S_ unit :=
  numcpus ← gets (fun s => length (allcpus s));
  let one_share := DIVROUNDUP total_count (Z.of_nat numcpus) in
  if my_count <? one_share then mret () else
  let to_send := Z.to_nat (my_count - one_share) in
  c ← get_cpu self;
  '(q, victims) ← lift (take_tail to_send (c_runqueue c) []);
  on_cpu self (set_runqueue q);;
  victims ← send_all self (seq 0 numcpus) one_share to_send victims;
  on_cpu self (fun c => set_runqueue (c_runqueue c ++ victims) c).

Definition total_length (l : list cpu) : Z :=
  u32 (fold_right (fun c n => Z.of_nat (length (c_runqueue c)) + n) 0 l).

Definition thread_consider_migration (self : nat) : K S_ unit :=
  c ← get_cpu self;
  total ← gets (fun s => total_length (allcpus s));
  migrate self (u32 (Z.of_nat (length (c_runqueue c)))) total.

(** *** The clock *)

Definition hardclock (self : nat) : K S_ switch :=
  on_cpu self (fun c => set_hardclocks (c_hardclocks c + 1) c);;
  c ← get_cpu self;
  (if c_hardclocks c mod MIGRATE_HARDCLOCKS =? 0 then thread_consider_migration self else mret ());;
  (if c_hardclocks c mod SCHEDULE_HARDCLOCKS =? 0 then schedule_cpu self else mret ());;
  thread_yield self.

(** [lbolt] is the wait channel of the clock. *)
Definition timerclock (self lbolt : nat) : K S_ unit := wchan_wakeall self lbolt.

(** ** Where a thread is *)

Inductive place : Type := Cur (i : nat) | Queue (i : nat) | Zombie (i : nat) | Wait (w : nat).

(** What the thread structure says in each place; a processor's first thread is S_READY
    until it is switched to again. *)
Definition fits (p : place) (th : thread) : Prop :=
  match p with
  | Cur i => (t_state th = S_RUN \/ t_state th = S_READY) /\ t_cpu th = Some i
  | Queue i => t_state th = S_READY /\ t_cpu th = Some i
  | Zombie i => t_state th = S_ZOMBIE /\ t_cpu th = Some i /\ t_proc th = 0
  | Wait _ => t_state th = S_SLEEP
  end.

Definition tag (p : place) (l : tlist_) : list (Z * place) := (fun x => (fst x, p)) <$> l.

Definition cpu_tags (i : nat) (c : cpu) : list (Z * place) :=
  (if c_isidle c then [] else [(fst (c_curthread c), Cur i)]) ++ tag (Queue i) (c_runqueue c) ++ tag (Zombie i) (c_zombies c).

Definition tagged s : list (Z * place) :=
  concat (imap cpu_tags (allcpus s)) ++ concat (imap (fun w l => tag (Wait w) l) (wchans s)).

#[local] Arguments tagged : simpl never.

(** The current thread of every processor, idle or not, exists and belongs there. *)
Definition current_ok (l : list cpu) (m : gmap Z thread) : Prop :=
  forall i c, l !! i = Some c -> exists th, m !! fst (c_curthread c) = Some th /\ t_cpu th = Some i.

(** Every thread is in exactly one place, or in flight ([extra]), and its structure says
    so. *)
Record inv s (extra : list (Z * place)) : Prop := mkInv {
  inv_once : NoDup (extra ++ tagged s).*1;
  inv_dom : forall t, t ∈ (extra ++ tagged s).*1 <-> is_Some (threads s !! t);
  inv_fits : forall t p, (t, p) ∈ extra ++ tagged s -> exists th, threads s !! t = Some th /\ fits p th;
  inv_cpu : forall t th, threads s !! t = Some th -> exists i, t_cpu th = Some i /\ (i < length (allcpus s))%nat;
  inv_cur : current_ok (allcpus s) (threads s);
  inv_chan : (thread_count_wchan < length (wchans s))%nat }.

(** What the operations that wake threads leave alone. *)
Definition runs_ (c : cpu) : (Z * Z) * bool := (c_curthread c, c_isidle c).
Definition keeps s s' : Prop :=
  runs_ <$> allcpus s' = runs_ <$> allcpus s /\ length (wchans s') = length (wchans s) /\
  t_proc <$> threads s' = t_proc <$> threads s /\ procs s' = procs s.

(** *** The places of a changed state *)

(** Replacing an element of an indexed list. *)
Lemma concat_imap_insert {A B} (f : nat -> A -> list B) (l : list A) i x :
  l !! i = Some x ->
  exists R, concat (imap f l) ≡ₚ f i x ++ R /\ forall y, concat (imap f (<[i := y]> l)) ≡ₚ f i y ++ R.
Proof.
  intros Hx. exists (concat (imap f (take i l)) ++ concat (imap (fun n => f (i + S n)%nat) (drop (S i) l))).
  assert (Hlen : length (take i l) = i) by (rewrite length_take; apply lookup_lt_Some in Hx; lia).
  assert (H : forall y, concat (imap f (take i l ++ y :: drop (S i) l)) ≡ₚ
    f i y ++ concat (imap f (take i l)) ++ concat (imap (fun n => f (i + S n)%nat) (drop (S i) l))).
  { intros y. rewrite imap_app, concat_app. cbn. rewrite Hlen, Nat.add_0_r.
    rewrite !app_assoc. apply Permutation_app_tail, Permutation_app_comm. }
  split.
  - rewrite <- H. by rewrite take_drop_middle.
  - intros y. rewrite <- H. rewrite insert_take_drop; [done|]. by eapply lookup_lt_Some.
Qed.

(** The tags of a state around processor [i], or around wait channel [w]. *)
Lemma tagged_cpu s i c :
  allcpus s !! i = Some c ->
  exists R, tagged s ≡ₚ cpu_tags i c ++ R /\
    forall c' m n p, tagged (mkSys_ (<[i := c']> (allcpus s)) m (wchans s) n p) ≡ₚ cpu_tags i c' ++ R.
Proof.
  intros Hc. destruct (concat_imap_insert cpu_tags _ _ _ Hc) as (R&HR&HR').
  exists (R ++ concat (imap (fun w l => tag (Wait w) l) (wchans s))). unfold tagged. cbn.
  split; [rewrite HR|intros c' m n p; rewrite HR']; by rewrite <- app_assoc.
Qed.

Lemma tagged_wchan s w l :
  wchans s !! w = Some l ->
  exists R, tagged s ≡ₚ tag (Wait w) l ++ R /\
    forall l' m n p, tagged (mkSys_ (allcpus s) m (<[w := l']> (wchans s)) n p) ≡ₚ tag (Wait w) l' ++ R.
Proof.
  intros Hl. destruct (concat_imap_insert (fun w l => tag (Wait w) l) _ _ _ Hl) as (R&HR&HR').
  exists (concat (imap cpu_tags (allcpus s)) ++ R). unfold tagged. cbn.
  split; [rewrite HR|intros l' m n p; rewrite HR']; apply Permutation_app_swap_app.
Qed.

(** The current threads after a change of one processor, or of one thread. *)
Lemma current_ok_cpu l m i c c' :
  l !! i = Some c -> c_curthread c' = c_curthread c -> current_ok l m -> current_ok (<[i := c']> l) m.
Proof.
  intros Hc Hcur H j d Hj. apply list_lookup_insert_Some in Hj as [(<-&<-&_)|(_&Hj)]; [|by apply H].
  rewrite Hcur. by apply H.
Qed.

Lemma current_ok_thread l m t th th' :
  m !! t = Some th -> t_cpu th' = t_cpu th -> current_ok l m -> current_ok l (<[t := th']> m).
Proof.
  intros Ht Hcpu H j d Hj. destruct (H j d Hj) as (u&Hu&Huc). destruct (decide (t = fst (c_curthread d))) as [->|Hne].
  - rewrite lookup_insert_eq. exists th'. split; [done|]. congruence.
  - rewrite lookup_insert_ne by done. by exists u.
Qed.

(** Changing one thread and its place. *)
Lemma inv_move s s' extra extra' t p p' th rest :
  inv s extra -> extra ++ tagged s ≡ₚ (t, p) :: rest -> extra' ++ tagged s' ≡ₚ (t, p') :: rest ->
  threads s' = <[t := th]> (threads s) -> fits p' th -> (exists i, t_cpu th = Some i /\ i < length (allcpus s'))%nat ->
  length (allcpus s') = length (allcpus s) -> length (wchans s') = length (wchans s) ->
  current_ok (allcpus s') (threads s') -> inv s' extra'.
Proof.
  intros [Ho Hd Hf Hc _ Hch] Hp Hp' Hth Hfit Hcpu Hlen Hw Hcur.
  assert (Hnd : NoDup (t :: rest.*1)) by (by rewrite Hp in Ho).
  assert (Hdom : forall u, u ∈ t :: rest.*1 <-> is_Some (threads s !! u)) by (intros u; rewrite <- Hd, Hp; done).
  constructor; [..|exact Hcur|by rewrite Hw].
  - by rewrite Hp'.
  - intros u. rewrite Hp', Hth. cbn. rewrite lookup_insert_is_Some', <- Hdom, !elem_of_cons. naive_solver.
  - intros u q Hu. rewrite Hp' in Hu. rewrite Hth. apply elem_of_cons in Hu as [[= -> ->]|Hu].
    + rewrite lookup_insert_eq. by exists th.
    + rewrite lookup_insert_ne; [apply Hf; rewrite Hp; by right|]. intros <-. apply NoDup_cons in Hnd as (Hn&_). apply Hn.
      apply list_elem_of_fmap. by exists (t, q).
  - intros u th' Hu. rewrite Hth in Hu. destruct (decide (t = u)) as [<-|Hne].
    + rewrite lookup_insert_eq in Hu. by injection Hu as <-.
    + rewrite lookup_insert_ne in Hu by done. rewrite Hlen. eauto.
Qed.

(** The same entries in another order. *)
Lemma inv_perm s s' extra extra' :
  inv s extra -> extra ++ tagged s ≡ₚ extra' ++ tagged s' -> threads s' = threads s ->
  length (allcpus s') = length (allcpus s) -> length (wchans s') = length (wchans s) ->
  current_ok (allcpus s') (threads s) -> inv s' extra'.
Proof.
  intros [Ho Hd Hf Hc _ Hch] Hp Hth Hlen Hw Hcur. constructor; rewrite ?Hth, ?Hlen, ?Hw; [..|exact Hcur|exact Hch].
  - by rewrite <- Hp.
  - intros t. by rewrite <- Hp, Hd.
  - intros t p. rewrite <- Hp. apply Hf.
  - exact Hc.
Qed.

(** *** The operations keep the invariant *)

Lemma on_cpu_eq s i f c : allcpus s !! i = Some c -> on_cpu i f s = Done ((), with_cpus (<[i := f c]> (allcpus s)) s).
Proof. intros H. unfold on_cpu, get_cpu, modify. krun. by rewrite H. Qed.
Lemma get_cpu_eq s i c : allcpus s !! i = Some c -> get_cpu i s = Done (c, s).
Proof. intros H. unfold get_cpu. by rewrite H. Qed.
Lemma get_thread_eq s t th : threads s !! t = Some th -> get_thread t s = Done (th, s).
Proof. intros H. unfold get_thread. by rewrite H. Qed.
Lemma get_wchan_eq s w l : wchans s !! w = Some l -> get_wchan w s = Done (l, s).
Proof. intros H. unfold get_wchan. by rewrite H. Qed.
Lemma put_thread_eq s t th : put_thread t th s = Done ((), with_threads (<[t := th]> (threads s)) s).
Proof. reflexivity. Qed.

Lemma keeps_refl s : keeps s s.
Proof. done. Qed.
Lemma keeps_trans s1 s2 s3 : keeps s1 s2 -> keeps s2 s3 -> keeps s1 s3.
Proof. unfold keeps. intros (?&?&?&?) (?&?&?&?). repeat split; congruence. Qed.
Lemma keeps_cpus s s' : keeps s s' -> length (allcpus s') = length (allcpus s).
Proof. intros (H&_). by rewrite <- (length_fmap runs_ (allcpus s)), <- H, length_fmap. Qed.
Lemma keeps_runs s s' i c : keeps s s' -> allcpus s !! i = Some c ->
  exists c', allcpus s' !! i = Some c' /\ runs_ c' = runs_ c.
Proof.
  intros (H&_) Hc. pose proof (list_lookup_fmap runs_ (allcpus s') i) as E.
  rewrite H, list_lookup_fmap, Hc in E. destruct (allcpus s' !! i) as [c'|]; [|done].
  exists c'. split; [done|]. apply (f_equal (from_option id (runs_ c))) in E. symmetry. exact E.
Qed.
Lemma keeps_cur s s' i c : keeps s s' -> allcpus s !! i = Some c ->
  exists c', allcpus s' !! i = Some c' /\ c_curthread c' = c_curthread c.
Proof. intros H Hc. destruct (keeps_runs s s' i c H Hc) as (c'&?&[= ? ?]). by exists c'. Qed.
Lemma keeps_proc s s' t th : keeps s s' -> threads s !! t = Some th ->
  exists th', threads s' !! t = Some th' /\ t_proc th' = t_proc th.
Proof.
  intros (_&_&H&_) Hc. pose proof (lookup_fmap t_proc (threads s') t) as E.
  rewrite H, lookup_fmap, Hc in E. cbn in E. destruct (threads s' !! t) as [c'|]; [|done].
  exists c'. split; [done|]. by injection E.
Qed.

(** A list with an element replaced by one that looks the same. *)
Lemma fmap_insert_same {A B} (f : A -> B) (l : list A) i x y :
  l !! i = Some x -> f y = f x -> f <$> <[i := y]> l = f <$> l.
Proof.
  intros Hx Hf. rewrite list_fmap_insert, Hf. apply list_insert_id. by rewrite list_lookup_fmap, Hx.
Qed.
Lemma fmap_thread_same (m : gmap Z thread) t x y :
  m !! t = Some x -> t_proc y = t_proc x -> t_proc <$> <[t := y]> m = t_proc <$> m.
Proof. intros Hx Hf. rewrite fmap_insert, Hf. apply insert_id. by rewrite lookup_fmap, Hx. Qed.

(** A change of a processor that moves nothing. *)
Lemma inv_touch s extra i c c' :
  inv s extra -> allcpus s !! i = Some c -> runs_ c' = runs_ c -> cpu_tags i c' ≡ₚ cpu_tags i c ->
  inv (with_cpus (<[i := c']> (allcpus s)) s) extra /\ keeps s (with_cpus (<[i := c']> (allcpus s)) s).
Proof.
  intros Hi Hc Hcur Htags. destruct (tagged_cpu _ _ _ Hc) as (R&HR&HR'). split.
  - eapply inv_perm; [exact Hi|..]; cbn; rewrite ?length_insert; try done.
    + unfold with_cpus. by rewrite HR', HR, Htags.
    + eapply current_ok_cpu; [exact Hc|by apply (f_equal fst) in Hcur|]. by apply inv_cur in Hi.
  - repeat split; cbn. by eapply fmap_insert_same.
Qed.

Lemma ipi_send_inv s extra i c code :
  inv s extra -> allcpus s !! i = Some c -> 0 <= code < 32 ->
  exists s', ipi_send i code s = Done ((), s') /\ inv s' extra /\ keeps s s' /\ wchans s' = wchans s /\
    (forall j, i <> j -> allcpus s' !! j = allcpus s !! j).
Proof.
  intros Hi Hc Hcode. unfold ipi_send, kassert. krun.
  rewrite (proj2 (Z.leb_le _ _)), (proj2 (Z.ltb_lt _ _)) by lia. krun. erewrite on_cpu_eq by exact Hc.
  eexists. split; [done|]. destruct (inv_touch s extra i c (set_ipi (Z.lor (c_ipi_pending c) (Z.shiftl 1 code)) c) Hi Hc) as (?&?); [done..|].
  split; [done|]. split; [done|]. split; [done|]. intros j Hj. cbn. by rewrite list_lookup_insert_ne.
Qed.

Lemma inv_thread s extra t p : inv s extra -> (t, p) ∈ extra ++ tagged s ->
  exists th i c, threads s !! t = Some th /\ fits p th /\ t_cpu th = Some i /\ allcpus s !! i = Some c.
Proof.
  intros Hi Hin. destruct (inv_fits _ _ Hi _ _ Hin) as (th&Hth&Hfit). destruct (inv_cpu _ _ Hi _ _ Hth) as (i&Hi'&Hlt).
  apply lookup_lt_is_Some in Hlt as [c Hc]. by exists th, i, c.
Qed.

(** Putting a thread in flight on the run queue of its processor. *)
Lemma enqueue_inv s extra t pr p th i c st :
  inv s ((t, p) :: extra) -> threads s !! t = Some th -> t_cpu th = Some i -> allcpus s !! i = Some c -> st = S_READY ->
  let s' := mkSys_ (<[i := set_runqueue (c_runqueue c ++ [(t, pr)]) c]> (allcpus s)) (<[t := with_state st th]> (threads s))
    (wchans s) (thread_count s) (procs s) in
  inv s' extra /\ keeps s s'.
Proof.
  intros Hi Hth Hcpu Hc -> s'. destruct (tagged_cpu _ _ _ Hc) as (R&HR&HR'). split.
  - eapply (inv_move s s' _ extra t p (Queue i) (with_state S_READY th)); [exact Hi|cbn [app]; reflexivity|..]; try done; cbn.
    + subst s'. rewrite HR', HR. unfold cpu_tags. cbn. unfold tag. rewrite fmap_app. cbn. solve_Permutation.
    + rewrite length_insert. exists i. split; [done|]. by eapply lookup_lt_Some.
    + by rewrite length_insert.
    + eapply current_ok_cpu; [exact Hc|done|]. eapply current_ok_thread; [exact Hth|done|]. by apply inv_cur in Hi.
  - repeat split; cbn; [by eapply fmap_insert_same|by eapply fmap_thread_same].
Qed.

Lemma make_runnable_inv self tgt s extra p :
  inv s ((fst tgt, p) :: extra) ->
  exists s', thread_make_runnable self [] tgt false s = Done ((), s') /\ inv s' extra /\ keeps s s' /\ wchans s' = wchans s.
Proof.
  intros Hi. destruct tgt as [t pr]. cbn [fst] in *.
  destruct (inv_thread _ _ t p Hi) as (th&i&c&Hth&Hfit&Hcpu&Hc); [by left|].
  unfold thread_make_runnable, kassert. krun. erewrite get_thread_eq by exact Hth. krun. rewrite Hcpu. krun.
  rewrite bool_decide_false by apply not_elem_of_nil. krun.
  erewrite get_cpu_eq by exact Hc. krun. rewrite put_thread_eq. krun. erewrite on_cpu_eq by (cbn; exact Hc). krun.
  destruct (enqueue_inv s extra t pr p th i c S_READY Hi Hth Hcpu Hc eq_refl) as (Hi1&Hk1).
  destruct (c_isidle c && negb (bool_decide (i = self))) as [].
  - eapply (ipi_send_inv _ _ i _ IPI_UNIDLE) in Hi1 as (s2&Hs2&Hi2&Hk2&Hw2&_);
      [|cbn; apply list_lookup_insert_eq; by eapply lookup_lt_Some|done].
    exists s2. split; [exact Hs2|]. split; [done|]. split; [by eapply keeps_trans|done].
  - krun. eexists. split; [reflexivity|]. done.
Qed.

Lemma make_all_runnable_inv self l w s extra :
  inv s (tag (Wait w) l ++ extra) ->
  exists s', make_all_runnable self l s = Done ((), s') /\ inv s' extra /\ keeps s s' /\ wchans s' = wchans s.
Proof.
  revert s. induction l as [|x l IH]; intros s Hi; cbn [make_all_runnable]; krun.
  - by exists s.
  - destruct (make_runnable_inv self x s _ _ Hi) as (s1&->&Hi1&Hk1&Hw1). krun.
    destruct (IH s1 Hi1) as (s2&->&Hi2&Hk2&Hw2). exists s2. split; [done|]. split; [done|]. split; [by eapply keeps_trans|congruence].
Qed.

(** Taking the threads [l1] off a wait channel. *)
Lemma dequeue_inv s extra w l1 l2 :
  inv s extra -> wchans s !! w = Some (l1 ++ l2) ->
  let s' := with_wchans (<[w := l2]> (wchans s)) s in
  inv s' (tag (Wait w) l1 ++ extra) /\ keeps s s'.
Proof.
  intros Hi Hw s'. destruct (tagged_wchan _ _ _ Hw) as (R&HR&HR'). split.
  - eapply inv_perm; [exact Hi|..]; cbn; rewrite ?length_insert; try done.
    + unfold s', with_wchans. rewrite HR', HR. unfold tag. rewrite fmap_app. solve_Permutation.
    + by apply inv_cur in Hi.
  - repeat split; cbn. by rewrite length_insert.
Qed.

Lemma wakeall_inv self w l s extra :
  inv s extra -> wchans s !! w = Some l ->
  exists s', wchan_wakeall self w s = Done ((), s') /\ inv s' extra /\ keeps s s' /\ wchans s' = <[w := []]> (wchans s).
Proof.
  intros Hi Hw. unfold wchan_wakeall. krun. erewrite get_wchan_eq by exact Hw. krun. unfold put_wchan. krun.
  rewrite <- (app_nil_r l) in Hw. destruct (dequeue_inv s extra w l [] Hi Hw) as (Hi1&Hk1).
  destruct (make_all_runnable_inv self l w _ _ Hi1) as (s2&->&Hi2&Hk2&Hw2).
  exists s2. split; [done|]. split; [done|]. split; [by eapply keeps_trans|done].
Qed.

Lemma wakeone_inv self w l s extra :
  inv s extra -> wchans s !! w = Some l ->
  exists s', wchan_wakeone self w s = Done ((), s') /\ inv s' extra /\ keeps s s' /\ wchans s' = <[w := tail l]> (wchans s).
Proof.
  intros Hi Hw. unfold wchan_wakeone. krun. erewrite get_wchan_eq by exact Hw. krun. destruct l as [|x l]; krun.
  - exists s. split; [done|]. split; [done|]. split; [done|]. by rewrite list_insert_id.
  - unfold put_wchan. krun. destruct (dequeue_inv s extra w [x] l Hi Hw) as (Hi1&Hk1).
    destruct (make_runnable_inv self x _ _ _ Hi1) as (s2&->&Hi2&Hk2&Hw2).
    exists s2. split; [done|]. split; [done|]. split; [by eapply keeps_trans|done].
Qed.

Lemma inv_delete s s' extra extra' t p rest :
  inv s extra -> extra ++ tagged s ≡ₚ (t, p) :: rest -> extra' ++ tagged s' ≡ₚ rest ->
  threads s' = delete t (threads s) -> allcpus s' = allcpus s -> length (wchans s') = length (wchans s) ->
  (forall i c, allcpus s !! i = Some c -> fst (c_curthread c) <> t) -> inv s' extra'.
Proof.
  intros [Ho Hd Hf Hc Hcur Hch] Hp Hp' Hth Hcpus Hw Hne.
  assert (Hnd : NoDup (t :: rest.*1)) by (by rewrite Hp in Ho). apply NoDup_cons in Hnd as (Hnt&Hnd).
  assert (Hdom : forall u, u ∈ t :: rest.*1 <-> is_Some (threads s !! u)) by (intros u; rewrite <- Hd, Hp; done).
  constructor.
  - by rewrite Hp'.
  - intros u. rewrite Hp', Hth, lookup_delete_is_Some, <- Hdom, elem_of_cons. split; [|naive_solver].
    intros Hu. split; [by intros ->|by right].
  - intros u q Hu. rewrite Hp' in Hu. rewrite Hth. rewrite lookup_delete_ne; [apply Hf; rewrite Hp; by right|].
    intros <-. apply Hnt. apply list_elem_of_fmap. by exists (t, q).
  - intros u th Hu. rewrite Hth in Hu. apply lookup_delete_Some in Hu as (_&Hu). rewrite Hcpus. eauto.
  - intros i c Hi. rewrite Hcpus in Hi. rewrite Hth, lookup_delete_ne; [by apply Hcur|]. intros E. by apply (Hne i c).
  - by rewrite Hw.
Qed.

(** A thread in one place is not the current thread of a processor, unless it sleeps or
    waits for its own processor. *)
Lemma not_current s extra t p th j d :
  inv s extra -> (t, p) ∈ extra ++ tagged s -> threads s !! t = Some th -> allcpus s !! j = Some d ->
  fst (c_curthread d) = t -> t_cpu th = Some j.
Proof. intros Hi Hin Hth Hd <-. destruct (inv_cur _ _ Hi _ _ Hd) as (u&Hu&Hcpu). congruence. Qed.

(** Two entries of the same thread are the same. *)
Lemma tagged_inj s extra t p q : inv s extra -> (t, p) ∈ extra ++ tagged s -> (t, q) ∈ extra ++ tagged s -> p = q.
Proof.
  intros Hi Hp Hq. apply inv_once in Hi. apply list_elem_of_lookup in Hp as (i&Hp), Hq as (j&Hq).
  assert (i = j) as ->; [|congruence].
  eapply (proj1 (NoDup_alt _) Hi); rewrite list_lookup_fmap; [rewrite Hp|rewrite Hq]; reflexivity.
Qed.

Lemma tagged_elem s i c t p : allcpus s !! i = Some c -> (t, p) ∈ cpu_tags i c -> (t, p) ∈ tagged s.
Proof.
  intros Hc Hin. destruct (tagged_cpu _ _ _ Hc) as (R&HR&_). rewrite HR. apply elem_of_app. by left.
Qed.

Lemma set_zombies_nil c : c_zombies c = [] -> set_zombies [] c = c.
Proof. destruct c. by intros [= ->]. Qed.

(** What destroying the first zombie of a processor leaves. *)
Lemma zombie_gone s self c z pr zs extra :
  inv s extra -> allcpus s !! self = Some c -> c_isidle c = false -> c_zombies c = (z, pr) :: zs ->
  z <> fst (c_curthread c) /\ (exists th, threads s !! z = Some th /\ t_state th = S_ZOMBIE /\ t_proc th = 0) /\
  inv (with_threads (delete z (threads s)) (with_cpus (<[self := set_zombies zs c]> (allcpus s)) s)) extra.
Proof.
  intros Hi Hc Hidle Hz. set (c1 := set_zombies zs c).
  assert (Hin' : (z, Zombie self) ∈ extra ++ tagged s).
  { apply elem_of_app; right. eapply tagged_elem; [exact Hc|]. unfold cpu_tags. rewrite Hz. cbn. rewrite !elem_of_app. right. right. left. }
  assert (Hcur : (fst (c_curthread c), Cur self) ∈ extra ++ tagged s).
  { apply elem_of_app; right. eapply tagged_elem; [exact Hc|]. unfold cpu_tags. rewrite Hidle. by left. }
  destruct (inv_fits _ _ Hi _ _ Hin') as (th&Hth&Hst&Hcpu&Hproc).
  assert (Hne : z <> fst (c_curthread c)) by (intros ->; by pose proof (tagged_inj _ _ _ _ _ Hi Hin' Hcur)).
  split; [done|]. split; [by exists th|]. destruct (tagged_cpu _ _ _ Hc) as (R&HR&HR').
  apply (inv_delete (with_cpus (<[self := c1]> (allcpus s)) s) _ ((z, Zombie self) :: extra) _ z (Zombie self) (extra ++ cpu_tags self c1 ++ R)).
  - eapply inv_perm; [exact Hi|..]; cbn; rewrite ?length_insert; try done.
    + unfold with_cpus. rewrite HR', HR. unfold cpu_tags. rewrite Hz. cbn. solve_Permutation.
    + eapply current_ok_cpu; [exact Hc|done|]. by apply inv_cur in Hi.
  - unfold with_cpus. rewrite HR'. solve_Permutation.
  - unfold with_threads, with_cpus. cbn. by rewrite HR'.
  - done.
  - done.
  - done.
  - cbn. intros j d Hj Hd. apply list_lookup_insert_Some in Hj as [(<-&<-&_)|(Hsj&Hj)]; [by apply Hne|].
    pose proof (not_current _ _ _ _ _ _ _ Hi Hin' Hth Hj Hd). congruence.
Qed.

Lemma exorcise_list_inv self zs s c extra :
  inv s extra -> allcpus s !! self = Some c -> c_isidle c = false -> c_zombies c = zs ->
  exists s', exorcise_list self zs s = Done ((), s') /\ inv s' extra /\
    allcpus s' = <[self := set_zombies [] c]> (allcpus s) /\ wchans s' = wchans s /\ procs s' = procs s.
Proof.
  revert s c. induction zs as [|[z pr] zs IH]; intros s c Hi Hc Hidle Hz; cbn [exorcise_list]; krun.
  { exists s. split; [done|]. split; [done|]. split; [|done]. by rewrite set_zombies_nil, list_insert_id. }
  destruct (zombie_gone s self c z pr zs extra Hi Hc Hidle Hz) as (Hne&(th&Hth&Hst&Hproc)&Hi2).
  assert (Hlt : (self < length (allcpus s))%nat) by (by eapply lookup_lt_Some).
  erewrite on_cpu_eq by exact Hc. krun. unfold thread_destroy, kassert. set (c1 := set_zombies zs c) in *. krun.
  erewrite get_cpu_eq by (cbn; by apply list_lookup_insert_eq). krun.
  change (fst (c_curthread c1)) with (fst (c_curthread c)). rewrite (proj2 (Z.eqb_neq _ _) Hne). krun.
  erewrite get_thread_eq by exact Hth. krun. rewrite Hst. rewrite bool_decide_true by done. krun.
  erewrite get_cpu_eq by (cbn; by apply list_lookup_insert_eq). krun.
  change (fst (c_curthread c1)) with (fst (c_curthread c)). rewrite (proj2 (Z.eqb_neq _ _) Hne). krun.
  erewrite get_thread_eq by exact Hth. krun. rewrite Hst, Hproc. rewrite bool_decide_false by done. krun.
  destruct (IH _ c1 Hi2) as (s3&Hs3&Hi3&Hc3&Hw3&Hp3); [cbn; by apply list_lookup_insert_eq|done..|].
  exists s3. split; [exact Hs3|]. split; [done|]. split; [|done]. rewrite Hc3. cbn. by rewrite list_insert_insert_eq.
Qed.

(** The head of the run queue of an idle processor becomes its current thread. *)
Lemma pick_next_inv self s c extra :
  inv s extra -> allcpus s !! self = Some c -> c_isidle c = true ->
  exists s', pick_next self s = Done (match c_runqueue c with [] => false | _ => true end, s') /\ inv s' extra /\
    allcpus s' = <[self := match c_runqueue c with
                           | [] => c
                           | next :: q => set_zombies [] (set_cur next (set_idle false (set_runqueue q c)))
                           end]> (allcpus s) /\ wchans s' = wchans s /\ procs s' = procs s.
Proof.
  intros Hi Hc Hidle. unfold pick_next. krun. erewrite get_cpu_eq by exact Hc. krun.
  destruct (c_runqueue c) as [|[t pr] q] eqn:Hq; krun.
  { exists s. rewrite list_insert_id by done. done. }
  assert (Hin : (t, Queue self) ∈ extra ++ tagged s).
  { apply elem_of_app; right. eapply tagged_elem; [exact Hc|]. unfold cpu_tags. rewrite Hq. cbn. rewrite !elem_of_app. right. left. }
  destruct (inv_fits _ _ Hi _ _ Hin) as (th&Hth&Hst&Hcpu).
  erewrite on_cpu_eq by exact Hc. krun. cbn [fst]. erewrite get_thread_eq by exact Hth. krun. rewrite put_thread_eq. krun.
  set (c1 := set_cur (t, pr) (set_idle false (set_runqueue q c))).
  assert (Hlt : (self < length (allcpus s))%nat) by (by eapply lookup_lt_Some).
  destruct (tagged_cpu _ _ _ Hc) as (R&HR&HR').
  assert (Hi1 : inv (with_threads (<[t := with_state S_RUN th]> (threads s)) (with_cpus (<[self := c1]> (allcpus s)) s)) extra).
  { eapply (inv_move s _ extra extra t (Queue self) (Cur self)); [exact Hi|..]; try done; cbn.
    - rewrite HR. unfold cpu_tags. rewrite Hidle, Hq. cbn. rewrite <- Permutation_middle. reflexivity.
    - unfold with_threads, with_cpus. cbn. rewrite HR'. unfold cpu_tags. cbn. rewrite <- Permutation_middle. reflexivity.
    - cbn. by split; [left|].
    - rewrite length_insert. eauto.
    - by rewrite length_insert.
    - intros j d Hj. apply list_lookup_insert_Some in Hj as [(<-&<-&_)|(_&Hj)].
      + exists (with_state S_RUN th). split; [by rewrite lookup_insert_eq|done].
      + eapply current_ok_thread; [exact Hth| |by apply inv_cur in Hi|exact Hj]. done. }
  unfold exorcise. krun. erewrite get_cpu_eq by (cbn; by apply list_lookup_insert_eq). krun.
  change (threads (with_cpus (<[self:=c1]> (allcpus s)) s)) with (threads s).
  destruct (exorcise_list_inv self (c_zombies c1) _ c1 extra Hi1) as (s3&->&Hi3&Hc3&Hw3&Hp3); [cbn; by apply list_lookup_insert_eq|done..|].
  krun. exists s3. split; [done|]. split; [done|]. split; [|done]. rewrite Hc3. cbn. by rewrite list_insert_insert_eq.
Qed.

(** The processor and the wait channels when the current thread has been put where its
    new state says. *)
Definition put_away (st : threadstate) (c : cpu) : cpu :=
  set_idle true (match st with
                 | S_READY => set_runqueue (c_runqueue c ++ [c_curthread c]) c
                 | S_ZOMBIE => set_zombies (c_zombies c ++ [c_curthread c]) c
                 | _ => c
                 end).
Definition sleepers (st : threadstate) (wc : nat) (cur : Z * Z) (ws : list tlist_) : list tlist_ :=
  match st, ws !! wc with S_SLEEP, Some l => <[wc := l ++ [cur]]> ws | _, _ => ws end.
Definition switched (self : nat) (st : threadstate) (wc : nat) s (c : cpu) (th : thread) : S_ :=
  mkSys_ (<[self := put_away st c]> (allcpus s)) (<[fst (c_curthread c) := with_state st th]> (threads s))
    (sleepers st wc (c_curthread c) (wchans s)) (thread_count s) (procs s).

Lemma thread_switch_eq self st wc s c th :
  allcpus s !! self = Some c -> threads s !! fst (c_curthread c) = Some th -> t_cpu th = Some self ->
  c_isidle c = false -> ~ (st = S_READY /\ c_runqueue c = []) -> st <> S_RUN ->
  (st = S_SLEEP -> is_Some (wchans s !! wc)) ->
  thread_switch self st wc s = (next ← pick_next self; mret (if next : bool then Switched else Idling)) (switched self st wc s c th).
Proof.
  intros Hc Hth Hcpu Hidle Hq Hrun Hw. assert (Hlt : (self < length (allcpus s))%nat) by (by eapply lookup_lt_Some).
  unfold thread_switch, switched. krun. erewrite get_cpu_eq by exact Hc. krun. rewrite Hidle.
  rewrite <- bool_decide_and, bool_decide_false by done. destruct st; [done|..]; krun.
  - unfold thread_make_runnable, kassert. krun. erewrite get_thread_eq by exact Hth. krun. rewrite Hcpu. krun.
    rewrite bool_decide_true by (by apply list_elem_of_singleton). krun.
    erewrite get_cpu_eq by exact Hc. krun. rewrite put_thread_eq. krun. erewrite on_cpu_eq by exact Hc. rewrite Hidle. krun.
    erewrite get_thread_eq by (cbn; by rewrite lookup_insert_eq). krun. rewrite put_thread_eq. krun.
    erewrite on_cpu_eq by (cbn; by apply list_lookup_insert_eq). cbn. by rewrite list_insert_insert_eq, insert_insert_eq.
  - destruct (Hw eq_refl) as [l Hl]. erewrite get_wchan_eq by exact Hl. krun. unfold put_wchan. krun.
    erewrite get_thread_eq by exact Hth. krun. rewrite put_thread_eq. krun. erewrite on_cpu_eq by exact Hc. cbn.
    by rewrite Hl.
  - erewrite on_cpu_eq by exact Hc. krun. erewrite get_thread_eq by exact Hth. krun. rewrite put_thread_eq. krun.
    erewrite on_cpu_eq by (cbn; by apply list_lookup_insert_eq). cbn. by rewrite list_insert_insert_eq.
Qed.

Lemma switched_inv self st wc s c th extra :
  inv s extra -> allcpus s !! self = Some c -> threads s !! fst (c_curthread c) = Some th -> t_cpu th = Some self ->
  c_isidle c = false -> st <> S_RUN -> (st = S_SLEEP -> is_Some (wchans s !! wc)) -> (st = S_ZOMBIE -> t_proc th = 0) ->
  inv (switched self st wc s c th) extra.
Proof.
  intros Hi Hc Hth Hcpu Hidle Hrun Hw Hz. set (t := fst (c_curthread c)) in *.
  destruct (tagged_cpu _ _ _ Hc) as (R&HR&HR').
  set (p := match st with S_SLEEP => Wait wc | S_ZOMBIE => Zombie self | _ => Queue self end).
  apply (inv_move s _ extra extra t (Cur self) p (with_state st th) (extra ++ tag (Queue self) (c_runqueue c) ++ tag (Zombie self) (c_zombies c) ++ R));
    try done; cbn.
  - rewrite HR. unfold cpu_tags. rewrite Hidle. fold t. solve_Permutation.
  - unfold switched, p. destruct st; [done|..]; cbn.
    + rewrite HR'. unfold cpu_tags. cbn. unfold tag. rewrite fmap_app. cbn. fold t. solve_Permutation.
    + destruct (Hw eq_refl) as [l Hl]. rewrite Hl.
      destruct (tagged_wchan (with_cpus (<[self := set_idle true c]> (allcpus s)) s) wc l Hl) as (R2&HR2&HR2').
      rewrite HR2'. unfold tag. rewrite fmap_app. cbn. fold t. fold (tag (Wait wc) l).
      transitivity ((t, Wait wc) :: extra ++ tag (Wait wc) l ++ R2); [solve_Permutation|].
      rewrite <- HR2. unfold with_cpus. rewrite HR'. unfold cpu_tags. cbn. solve_Permutation.
    + rewrite HR'. unfold cpu_tags. cbn. unfold tag. rewrite fmap_app. cbn. fold t. solve_Permutation.
  - destruct st; cbn; naive_solver.
  - rewrite length_insert. exists self. split; [done|]. by eapply lookup_lt_Some.
  - by rewrite length_insert.
  - destruct st; cbn; try done. destruct (wchans s !! wc); by rewrite ?length_insert.
  - eapply current_ok_cpu; [exact Hc|by destruct st|]. eapply current_ok_thread; [exact Hth|done|]. by apply inv_cur in Hi.
Qed.

(** What [thread_switch] returns. *)
Lemma thread_switch_runs self st wc s c extra :
  inv s extra -> allcpus s !! self = Some c -> st <> S_RUN -> (st = S_SLEEP -> (wc < length (wchans s))%nat) ->
  (st = S_ZOMBIE -> c_isidle c = false -> exists th, threads s !! fst (c_curthread c) = Some th /\ t_proc th = 0) ->
  exists b s', thread_switch self st wc s = Done (b, s') /\ inv s' extra /\ procs s' = procs s /\
    if c_isidle c || (bool_decide (st = S_READY) && bool_decide (c_runqueue c = [])) then b = Stayed /\ s' = s
    else allcpus s' = <[self := match c_runqueue (put_away st c) with
                                | [] => put_away st c
                                | next :: q => set_zombies [] (set_cur next (set_idle false (set_runqueue q (put_away st c))))
                                end]> (allcpus s) /\
      wchans s' = sleepers st wc (c_curthread c) (wchans s) /\
      b = (match c_runqueue (put_away st c) with [] => Idling | _ => Switched end).
Proof.
  intros Hi Hc Hrun Hw Hz. destruct (inv_cur _ _ Hi _ _ Hc) as (th&Hth&Hcpu). destruct (c_isidle c) eqn:Hidle; cbn [orb].
  { exists Stayed, s. split; [|done]. unfold thread_switch. krun. erewrite get_cpu_eq by exact Hc. krun. by rewrite Hidle. }
  rewrite <- bool_decide_and. case_bool_decide as Hq.
  { exists Stayed, s. split; [|done]. unfold thread_switch. krun. erewrite get_cpu_eq by exact Hc. krun.
    rewrite Hidle, <- bool_decide_and, bool_decide_true by done. done. }
  assert (Hw' : st = S_SLEEP -> is_Some (wchans s !! wc)) by (intros E; by apply lookup_lt_is_Some, Hw).
  assert (Hlt : (self < length (allcpus s))%nat) by (by eapply lookup_lt_Some).
  rewrite (thread_switch_eq self st wc s c th) by done.
  destruct (pick_next_inv self (switched self st wc s c th) (put_away st c) extra) as (s2&Hs2&Hi2&Hc2&Hw2&Hp2).
  - apply switched_inv; try done. intros E. destruct (Hz E eq_refl) as (th'&Hth'&?). congruence.
  - cbn. by apply list_lookup_insert_eq.
  - done.
  - krun. rewrite Hs2. krun. eexists _, s2. split; [done|]. split; [done|]. split; [done|]. split.
    + rewrite Hc2. cbn. by rewrite list_insert_insert_eq.
    + split; [done|]. by destruct (c_runqueue (put_away st c)).
Qed.

(** The invariant is about the processors, the threads and the wait channels. *)
Lemma inv_same s s' extra :
  inv s extra -> allcpus s' = allcpus s -> threads s' = threads s -> wchans s' = wchans s -> inv s' extra.
Proof.
  intros Hi Hc Ht Hw. eapply inv_perm; [exact Hi|unfold tagged; by rewrite Hc, Hw|done|by rewrite Hc|by rewrite Hw|].
  rewrite Hc. by apply inv_cur in Hi.
Qed.

(** A new thread. *)
Lemma inv_new s s' extra t p th :
  inv s extra -> threads s !! t = None -> threads s' = <[t := th]> (threads s) -> tagged s' ≡ₚ tagged s -> fits p th ->
  (exists i, t_cpu th = Some i /\ i < length (allcpus s'))%nat -> allcpus s' = allcpus s -> length (wchans s') = length (wchans s) ->
  inv s' ((t, p) :: extra).
Proof.
  intros [Ho Hd Hf Hc Hcur Hch] Hn Hth Htag Hfit Hcpu Hcpus Hw.
  assert (Hnt : t ∉ (extra ++ tagged s).*1) by (intros Hin; apply Hd in Hin; rewrite Hn in Hin; by destruct Hin).
  assert (Hne : forall u th', threads s !! u = Some th' -> t <> u) by (intros u th' Hu <-; congruence).
  constructor; cbn [app fmap list_fmap fst].
  - rewrite Htag. constructor; [|done]. exact Hnt.
  - intros u. rewrite Htag, Hth, lookup_insert_is_Some', elem_of_cons, <- Hd. naive_solver.
  - intros u q Hu. rewrite Htag in Hu. rewrite Hth. apply elem_of_cons in Hu as [[= -> ->]|Hu].
    + exists th. by rewrite lookup_insert_eq.
    + destruct (Hf _ _ Hu) as (th'&Hu'&?). exists th'. by rewrite lookup_insert_ne by eauto.
  - intros u th' Hu. rewrite Hth in Hu. apply lookup_insert_Some in Hu as [(<-&<-)|(_&Hu)]; [done|]. rewrite Hcpus. eauto.
  - intros i c Hi. rewrite Hcpus in Hi. destruct (Hcur i c Hi) as (u&Hu&Huc). exists u. rewrite Hth, lookup_insert_ne by eauto. done.
  - by rewrite Hw.
Qed.

(** A thread that is not counted yet is destroyed without a trace. *)
Lemma thread_destroy_new self s c t th :
  allcpus s !! self = Some c -> fst (c_curthread c) <> t -> threads s !! t = Some th -> t_state th = S_READY -> t_proc th = 0 ->
  thread_destroy self t s = Done ((), with_threads (delete t (threads s)) s).
Proof.
  intros Hc Hne Hth Hst Hp. unfold thread_destroy, kassert. krun. erewrite get_cpu_eq by exact Hc. krun.
  rewrite (proj2 (Z.eqb_neq _ _)) by congruence. krun. erewrite get_thread_eq by exact Hth. krun. by rewrite Hst, Hp.
Qed.

Lemma thread_fork_inv self namelen mem stack t proc s c me r ps :
  inv s [] -> allcpus s !! self = Some c -> threads s !! fst (c_curthread c) = Some me -> threads s !! t = None ->
  proc_add (if proc =? 0 then t_proc me else proc) (procs s) = Done (r, ps) ->
  exists r' s', thread_fork self namelen mem stack t proc s = Done (r', s') /\ inv s' [] /\
    r' = (if (namelen <=? MAX_NAME_LENGTH) && mem && stack then r else ENOMEM) /\
    ((namelen <=? MAX_NAME_LENGTH) && mem && stack = false -> procs s' = procs s /\ threads s' = threads s /\ allcpus s' = allcpus s) /\
    (r' = 0 -> keeps (with_procs ps (with_threads (<[t := mkThread S_READY (t_cpu me) (if proc =? 0 then t_proc me else proc)]> (threads s)) s)) s').
Proof.
  intros Hi Hc Hme Ht Hadd. destruct (inv_cur _ _ Hi _ _ Hc) as (me'&Hme'&Hcpu). assert (me' = me) as -> by congruence.
  assert (Hne : fst (c_curthread c) <> t) by congruence.
  assert (Hlt : (self < length (allcpus s))%nat) by (by eapply lookup_lt_Some).
  unfold thread_fork, thread_create. krun. erewrite get_cpu_eq by exact Hc. krun.
  rewrite Z.ltb_antisym. destruct (namelen <=? MAX_NAME_LENGTH); cbn [negb andb]; krun; [|by exists ENOMEM, s].
  destruct mem; cbn [andb]; krun; [|by exists ENOMEM, s]. rewrite put_thread_eq. krun.
  destruct stack; krun.
  2:{ erewrite thread_destroy_new by (cbn; rewrite ?lookup_insert_eq; done). krun. cbn. rewrite delete_insert_id by done.
      eexists ENOMEM, _. split; [done|]. split; [by eapply inv_same|done]. }
  erewrite get_thread_eq by (cbn; rewrite lookup_insert_ne by done; exact Hme). krun.
  erewrite get_thread_eq by (cbn; by rewrite lookup_insert_eq). krun. rewrite put_thread_eq. krun. cbn [t_state t_proc with_threads threads].
  rewrite insert_insert_eq. unfold proc_addthread, kassert. krun. erewrite get_thread_eq by (cbn; by rewrite lookup_insert_eq). krun. cbn [t_proc].
  krun. unfold on_procs, zoom. cbn [procs with_threads]. rewrite Hadd. krun. unfold when_ok.
  destruct (r =? 0) eqn:Er; cbn [negb]; krun.
  2:{ rewrite Er. krun. erewrite thread_destroy_new by (cbn; rewrite ?lookup_insert_eq; done). krun. cbn. rewrite delete_insert_id by done.
      eexists r, _. split; [done|]. split; [by eapply inv_same|]. split; [done|]. split; [done|]. intros ->. by cbn in Er. }
  rewrite put_thread_eq. krun. unfold with_procs, with_threads, with_proc. cbn [allcpus threads wchans thread_count procs t_state t_cpu].
  rewrite insert_insert_eq. unfold with_count. cbn [allcpus threads wchans thread_count procs].
  set (th := mkThread S_READY (t_cpu me) _).
  edestruct (lookup_lt_is_Some_2 (wchans s) thread_count_wchan) as [l Hl]; [by apply inv_chan in Hi|].
  destruct (wakeall_inv self thread_count_wchan l (mkSys_ (allcpus s) (<[t := th]> (threads s)) (wchans s) (u32 (thread_count s + 1)) ps) [(t, Queue self)])
    as (s2&->&Hi2&Hk2&Hw2); [|exact Hl|].
  { apply (inv_new s _ [] t (Queue self) th); try done. cbn. rewrite Hcpu. by exists self. }
  krun. destruct (make_runnable_inv self (t, 0) s2 [] _ Hi2) as (s3&->&Hi3&Hk3&Hw3). krun.
  eexists 0, s3. split; [done|]. split; [done|]. split; [by apply Z.eqb_eq in Er|]. split; [done|]. intros _. eapply keeps_trans; [|exact Hk3]. exact Hk2.
Qed.

(** A thread that has lost its process is still where it was. *)
Lemma inv_detached s extra t th : inv s extra -> threads s !! t = Some th ->
  inv (with_threads (<[t := with_proc 0 th]> (threads s)) s) extra.
Proof.
  intros Hi Hth.
  pose proof (inv_dom _ _ Hi t) as Hd. rewrite Hth in Hd. apply proj2 in Hd. specialize (Hd ltac:(done)). apply list_elem_of_fmap in Hd as ([t' p]&->&Hin).
  pose proof (proj1 (elem_of_Permutation _ _) Hin) as (rest&Hrest). cbn [fst] in *.
  destruct (inv_fits _ _ Hi _ _ Hin) as (th'&Hth'&Hfit). assert (th' = th) as -> by congruence.
  eapply (inv_move s _ extra extra t' p p (with_proc 0 th)); [exact Hi|exact Hrest|exact Hrest|..]; try done.
  - destruct p; cbn in *; tauto.
  - cbn. destruct (inv_cpu _ _ Hi _ _ Hth) as (i&?&?). by exists i.
  - eapply current_ok_thread; [exact Hth|done|]. by apply inv_cur in Hi.
Qed.

Lemma thread_exit_inv self s c me ps :
  inv s [] -> allcpus s !! self = Some c -> threads s !! fst (c_curthread c) = Some me -> t_proc me <> 0 ->
  proc_rem self (fst (c_curthread c)) (t_proc me) (procs s) = Done ((), ps) ->
  if c_isidle c then thread_exit self s = Panic
  else exists b s', thread_exit self s = Done (b, s') /\ inv s' [] /\ procs s' = ps.
Proof.
  intros Hi Hc Hme Hp Hrem. unfold thread_exit, proc_remthread, kassert. krun. erewrite get_cpu_eq by exact Hc. krun.
  erewrite get_thread_eq by exact Hme. krun. rewrite (proj2 (Z.eqb_neq _ _) Hp). krun. unfold on_procs, zoom. rewrite Hrem. krun.
  rewrite put_thread_eq. krun. erewrite get_thread_eq by (cbn; by rewrite lookup_insert_eq). krun. cbn [t_proc with_proc]. krun.
  set (t := fst (c_curthread c)) in *. set (s1 := with_threads _ _).
  assert (Hi1 : inv s1 []) by (eapply inv_same; [apply (inv_detached s [] t me)|..]; done).
  assert (Hend : forall s2, inv s2 [] -> keeps s1 s2 ->
    let m := (next ← thread_switch self S_ZOMBIE 0; match next with Stayed => lift Panic | _ => mret next end) s2 in
    if c_isidle c then m = Panic else exists b s', m = Done (b, s') /\ inv s' [] /\ procs s' = ps).
  { intros s2 Hi2 Hk2. destruct (keeps_runs s1 s2 self c Hk2) as (c2&Hc2&[= Hcur2 Hid2]); [exact Hc|].
    destruct (keeps_proc s1 s2 t (with_proc 0 me) Hk2) as (me2&Hme2&Hp2); [cbn; by rewrite lookup_insert_eq|].
    destruct (thread_switch_runs self S_ZOMBIE 0 s2 c2 [] Hi2 Hc2) as (b&s3&Hs3&Hi3&Hp3&Hpost); [done..| |].
    { intros _ _. exists me2. rewrite Hcur2. done. }
    krun. rewrite Hs3. rewrite Hid2 in Hpost. destruct (c_isidle c); cbn [orb] in Hpost.
    - by destruct Hpost as (->&_).
    - rewrite bool_decide_false in Hpost by done. destruct Hpost as (_&_&->). exists (match c_runqueue (put_away S_ZOMBIE c2) with [] => Idling | _ => Switched end), s3.
      split; [by destruct (c_runqueue (put_away S_ZOMBIE c2))|]. split; [done|]. rewrite Hp3. by destruct Hk2 as (_&_&_&->). }
  cbv zeta in Hend. revert Hend. krun. intros Hend.
  destruct (negb (thread_count s1 =? 0)); krun; [|by apply Hend].
  edestruct (lookup_lt_is_Some_2 (wchans s) thread_count_wchan) as [l Hl]; [by apply inv_chan in Hi|].
  destruct (wakeall_inv self thread_count_wchan l (with_count (thread_count s1 - 1) s1) []) as (s2&->&Hi2&Hk2&_);
    [by eapply inv_same|exact Hl|]. krun. by apply Hend.
Qed.

(** *** Creating a processor *)
Lemma cpu_create_inv t bk s ps :
  inv s [] -> threads s !! t = None -> proc_add (the_kproc (procs s)) (procs s) = Done (0, ps) ->
  exists s', cpu_create t bk s = Done ((), s') /\ inv s' [] /\ length (allcpus s') = S (length (allcpus s)).
Proof.
  intros [Ho Hd Hf Hcp Hcur Hch] Ht Hadd. unfold cpu_create, thread_create. krun.
  change (MAX_NAME_LENGTH <? 15) with false. krun. rewrite put_thread_eq. krun. unfold kassert. krun.
  erewrite get_thread_eq by (cbn; by rewrite lookup_insert_eq). krun. rewrite put_thread_eq. krun. unfold with_cpus, with_threads.
  cbn [allcpus threads wchans thread_count procs]. rewrite insert_insert_eq.
  unfold proc_addthread, kassert. krun. erewrite get_thread_eq by (cbn; by rewrite lookup_insert_eq). krun. cbn [t_proc with_cpu].
  krun. unfold on_procs, zoom. cbn [procs]. rewrite Hadd. krun. unfold when_ok. krun. rewrite put_thread_eq. krun.
  unfold with_procs, with_threads. cbn [allcpus threads wchans thread_count procs]. rewrite insert_insert_eq.
  unfold with_cpu, with_proc. cbn [t_state t_cpu t_proc].
  set (n := length (allcpus s)). set (th := mkThread S_READY (Some n) (the_kproc (procs s))). set (c := mkCpu _ _ _ _ _ _ _ _).
  eexists. split; [done|]. split; [|cbn; rewrite length_app; cbn; lia].
  set (s' := mkSys_ _ _ _ _ _).
  assert (Htag : tagged s' ≡ₚ (t, Cur n) :: tagged s).
  { unfold tagged, s'. cbn [allcpus wchans]. rewrite imap_app, concat_app. cbn. rewrite Nat.add_0_r. fold n. solve_Permutation. }
  assert (Hne : forall u th', threads s !! u = Some th' -> t <> u) by (intros u th' Hu <-; congruence).
  constructor; cbn [app].
  - rewrite Htag. constructor; [|exact Ho]. intros Hin. apply Hd in Hin. cbn [fst] in Hin. rewrite Ht in Hin. by destruct Hin.
  - intros u. rewrite Htag. cbn. rewrite lookup_insert_is_Some', elem_of_cons, <- Hd. naive_solver.
  - intros u q Hu. rewrite Htag in Hu. cbn. apply elem_of_cons in Hu as [[= -> ->]|Hu].
    + exists th. rewrite lookup_insert_eq. split; [done|]. by split; [right|].
    + destruct (Hf _ _ Hu) as (th'&Hu'&?). exists th'. by rewrite lookup_insert_ne by eauto.
  - intros u th' Hu. cbn in *. rewrite length_app. cbn. apply lookup_insert_Some in Hu as [(<-&<-)|(_&Hu)].
    + exists n. split; [done|]. lia.
    + destruct (Hcp _ _ Hu) as (i&?&?). exists i. split; [done|]. lia.
  - intros i d Hi. cbn in *. apply lookup_app_Some in Hi as [Hi|(Hge&Hi)].
    + destruct (Hcur i d Hi) as (u&Hu&Huc). exists u. by rewrite lookup_insert_ne by eauto.
    + apply list_lookup_singleton_Some in Hi as (Hz&<-). exists th. cbn. rewrite lookup_insert_eq. split; [done|]. cbn. f_equal. fold n in Hge, Hz. lia.
  - done.
Qed.

(** *** Migration *)
Lemma take_tail_eq n q v : (n <= length q)%nat ->
  exists q1 q2, q = q1 ++ q2 /\ length q2 = n /\ take_tail n q v = Done (q1, q2 ++ v).
Proof.
  revert q v. induction n as [|n IH]; intros q v Hn; cbn [take_tail].
  - exists q, []. by rewrite app_nil_r.
  - destruct q as [|x q _] using rev_ind; [cbn in Hn; lia|]. rewrite last_snoc, removelast_last.
    rewrite length_app in Hn. cbn in Hn. destruct (IH q (x :: v)) as (q1&q2&->&Hl&->); [lia|].
    exists q1, (q2 ++ [x]). rewrite <- !app_assoc, length_app. cbn. split; [done|]. split; [lia|done].
Qed.

Lemma victims_inv s self c q1 q2 :
  inv s [] -> allcpus s !! self = Some c -> c_runqueue c = q1 ++ q2 ->
  inv (with_cpus (<[self := set_runqueue q1 c]> (allcpus s)) s) (tag (Queue self) q2).
Proof.
  intros Hi Hc Hq. destruct (tagged_cpu _ _ _ Hc) as (R&HR&HR').
  eapply inv_perm; [exact Hi|..]; cbn; rewrite ?length_insert; try done.
  - unfold with_cpus. rewrite HR', HR. unfold cpu_tags. rewrite Hq. cbn. unfold tag. rewrite fmap_app. solve_Permutation.
  - eapply current_ok_cpu; [exact Hc|done|]. by apply inv_cur in Hi.
Qed.

Lemma return_victims_inv s self c v :
  inv s (tag (Queue self) v) -> allcpus s !! self = Some c ->
  inv (with_cpus (<[self := set_runqueue (c_runqueue c ++ v) c]> (allcpus s)) s) [].
Proof.
  intros Hi Hc. destruct (tagged_cpu _ _ _ Hc) as (R&HR&HR').
  eapply inv_perm; [exact Hi|..]; cbn; rewrite ?length_insert; try done.
  - unfold with_cpus. rewrite HR', HR. unfold cpu_tags. cbn. unfold tag. rewrite fmap_app. solve_Permutation.
  - eapply current_ok_cpu; [exact Hc|done|]. by apply inv_cur in Hi.
Qed.

Lemma sent_inv s self target me c t pr v th :
  inv s ((t, Queue self) :: tag (Queue self) v) -> allcpus s !! self = Some me -> allcpus s !! target = Some c ->
  t <> fst (c_curthread me) -> threads s !! t = Some th ->
  inv (with_cpus (<[target := set_runqueue (c_runqueue c ++ [(t, pr)]) c]> (allcpus s))
    (with_threads (<[t := with_cpu target th]> (threads s)) s)) (tag (Queue self) v).
Proof.
  intros Hi Hme Hc Hne Hth. destruct (tagged_cpu _ _ _ Hc) as (R&HR&HR').
  assert (Hin : (t, Queue self) ∈ ((t, Queue self) :: tag (Queue self) v) ++ tagged s) by (by left).
  destruct (inv_fits _ _ Hi _ _ Hin) as (th'&Hth'&Hst&Hcpu). assert (th' = th) as -> by congruence.
  eapply (inv_move s _ _ _ t (Queue self) (Queue target) (with_cpu target th)); [exact Hi|cbn [app]; reflexivity|..]; try done; cbn.
  - unfold with_cpus. cbn. rewrite HR', HR. unfold cpu_tags. cbn. unfold tag. rewrite fmap_app. cbn. solve_Permutation.
  - rewrite length_insert. exists target. split; [done|]. by eapply lookup_lt_Some.
  - by rewrite length_insert.
  - eapply current_ok_cpu; [exact Hc|done|]. intros j d Hj. destruct (inv_cur _ _ Hi j d Hj) as (u&Hu&Huc).
    destruct (decide (t = fst (c_curthread d))) as [E|E]; [|exists u; by rewrite lookup_insert_ne].
    assert (j = self) as -> by congruence. congruence.
Qed.

Lemma send_to_inv self target one_share n v s me :
  self <> target -> (target < length (allcpus s))%nat -> (n <= length v)%nat ->
  inv s (tag (Queue self) v) -> allcpus s !! self = Some me ->
  exists n' v' s', send_to self target one_share n v s = Done ((n', v'), s') /\ inv s' (tag (Queue self) v') /\
    (n' <= length v')%nat /\ v' ⊆ v /\ allcpus s' !! self = Some me /\ length (allcpus s') = length (allcpus s) /\ procs s' = procs s.
Proof.
  revert v s. induction n as [|n IH]; intros v s Hst Ht Hn Hi Hme; cbn [send_to].
  { exists O, v, s. split; [done|]. split; [done|]. split; [lia|]. done. }
  destruct (lookup_lt_is_Some_2 _ _ Ht) as [c Hc]. krun. erewrite get_cpu_eq by exact Hc. krun.
  destruct (negb _); krun; [by exists (S n), v, s|]. erewrite get_cpu_eq by exact Hme. krun.
  destruct v as [|[t pr] v]; cbn in Hn; [lia|]. cbn [fst]. destruct (Z.eqb_spec t (fst (c_curthread me))) as [Heq|Hne].
  - destruct (IH (v ++ [(t, pr)]) s) as (n'&v'&s'&->&Hi'&Hn'&Hv'&?); [done|done|rewrite length_app; lia| |done|].
    { eapply inv_perm; [exact Hi|..]; try done; [|by apply inv_cur in Hi]. unfold tag. rewrite fmap_app. cbn. solve_Permutation. }
    exists n', v', s'. split; [done|]. split; [done|]. split; [done|]. split; [|done]. set_solver.
  - krun. destruct (inv_thread _ _ t (Queue self) Hi) as (th&_&_&Hth&_); [by left|]. erewrite get_thread_eq by exact Hth. krun.
    rewrite put_thread_eq. krun. erewrite on_cpu_eq by exact Hc. krun.
    pose proof (sent_inv s self target me c t pr v th Hi Hme Hc Hne Hth) as Hi1. cbn [allcpus with_threads] in *.
    assert (Hcont : forall s1, inv s1 (tag (Queue self) v) -> allcpus s1 !! self = Some me -> length (allcpus s1) = length (allcpus s) -> procs s1 = procs s ->
      exists n' v' s', send_to self target one_share n v s1 = Done ((n', v'), s') /\ inv s' (tag (Queue self) v') /\
        (n' <= length v')%nat /\ v' ⊆ (t, pr) :: v /\ allcpus s' !! self = Some me /\ length (allcpus s') = length (allcpus s) /\ procs s' = procs s).
    { intros s1 Hi' Hme' Hl' Hp'. destruct (IH v s1) as (n'&v'&s'&->&?&?&?&?&?&?); [done|lia|lia|done|done|].
      exists n', v', s'. split_and!; try done; [set_solver|congruence|congruence]. }
    destruct (c_isidle c); krun.
    + destruct (ipi_send_inv _ _ target (set_runqueue (c_runqueue c ++ [(t, pr)]) c) IPI_UNIDLE Hi1) as (s2&->&Hi2&Hk2&_&Hoth); [cbn; by apply list_lookup_insert_eq|done|]. krun.
      apply Hcont; [done|..].
      * rewrite Hoth by done. cbn. by rewrite list_lookup_insert_ne.
      * rewrite (keeps_cpus _ _ Hk2). cbn. by rewrite length_insert.
      * by destruct Hk2 as (_&_&_&->).
    + apply Hcont; [done|..]; cbn; [by rewrite list_lookup_insert_ne|by rewrite length_insert|done].
Qed.

Lemma send_all_inv self targets one_share n v s me :
  Forall (fun i => (i < length (allcpus s))%nat) targets -> (n <= length v)%nat ->
  inv s (tag (Queue self) v) -> allcpus s !! self = Some me ->
  exists v' s', send_all self targets one_share n v s = Done (v', s') /\ inv s' (tag (Queue self) v') /\
    v' ⊆ v /\ allcpus s' !! self = Some me /\ length (allcpus s') = length (allcpus s) /\ procs s' = procs s.
Proof.
  revert n v s. induction targets as [|i targets IH]; intros n v s Hall Hn Hi Hme; cbn [send_all]; krun.
  { by exists v, s. }
  apply Forall_cons in Hall as (Hi'&Hall). destruct (bool_decide (n = O)); krun; [by exists v, s|].
  case_bool_decide as Hs; krun; [by apply IH|].
  destruct (send_to_inv self i one_share n v s me) as (n'&v'&s'&->&?&?&?&?&Hl&Hp); [done..|]. krun.
  destruct (IH n' v' s') as (v2&s2&->&?&?&?&?&?); [by rewrite Hl|done..|].
  exists v2, s2. split_and!; try done; [set_solver|congruence|congruence].
Qed.

Lemma migrate_inv self my total s c :
  inv s [] -> allcpus s !! self = Some c -> my <= Z.of_nat (length (c_runqueue c)) -> 0 <= total ->
  exists s', migrate self my total s = Done ((), s') /\ inv s' [] /\ procs s' = procs s /\ length (allcpus s') = length (allcpus s) /\
    exists q, allcpus s' !! self = Some (set_runqueue q c) /\ q ⊆ c_runqueue c.
Proof.
  intros Hi Hc Hmy Htot. assert (Hlt : (self < length (allcpus s))%nat) by (by eapply lookup_lt_Some).
  unfold migrate. krun. set (share := DIVROUNDUP total (Z.of_nat (length (allcpus s)))).
  assert (0 <= share) by (apply Z.div_pos; [apply u32_range|lia]).
  destruct (Z.ltb_spec my share); krun.
  { exists s. split; [done|]. split; [done|]. split; [done|]. split; [done|]. exists (c_runqueue c). split; [|done]. by destruct c. }
  erewrite get_cpu_eq by exact Hc. krun.
  destruct (take_tail_eq (Z.to_nat (my - share)) (c_runqueue c) []) as (q1&q2&Hq&Hl&->); [lia|]. krun. rewrite app_nil_r.
  erewrite on_cpu_eq by exact Hc. krun. pose proof (victims_inv s self c q1 q2 Hi Hc Hq) as Hi1.
  destruct (send_all_inv self (seq 0 (length (allcpus s))) share (Z.to_nat (my - share)) q2 (with_cpus (<[self := set_runqueue q1 c]> (allcpus s)) s) (set_runqueue q1 c)) as (v&s2&->&Hi2&Hv&Hc2&Hl2&Hp2);
    [|lia|exact Hi1|cbn; by apply list_lookup_insert_eq|].
  { cbn. rewrite length_insert. apply Forall_forall. intros i Hin. apply elem_of_seq in Hin. lia. }
  krun. erewrite on_cpu_eq by exact Hc2. pose proof (return_victims_inv s2 self _ v Hi2 Hc2) as Hi3.
  assert (Hl3 : length (allcpus s2) = length (allcpus s)) by (rewrite Hl2; cbn; apply length_insert).
  eexists. split; [done|]. split; [done|]. split; [exact Hp2|]. cbn. rewrite length_insert. split; [done|].
  exists (q1 ++ v). split; [by rewrite list_lookup_insert_eq by lia|]. rewrite Hq. set_solver.
Qed.

(** *** The scheduler and the clock *)

(** The priorities of the threads are between those of the bookends, and counting up
    does not overflow. *)
Definition priorities_ok (c : cpu) : Prop :=
  let '(ph, pt) := c_bookends c in
  - 2 ^ 31 <= pt <= ph /\ ph < 2 ^ 31 - 1 /\ Forall (fun x => pt <= snd x <= ph) (c_runqueue c).

(** The pass of a clock tick on this processor leaves its bookends where they are. *)
Definition between (c : cpu) : bool :=
  let '(ph, pt) := c_bookends c in stays_between (s32 (ph + 1)) pt (older <$> c_runqueue c).

Lemma pass_to_eq pt l : pass_to pt l = if tail_holds pt l then Done (pass l) else Panic.
Proof.
  induction l as [l IH] using (induction_ltof1 _ (@length (Z * Z))). destruct l as [|x [|y r]]; [done|..].
  - cbn. rewrite Z.gtb_ltb, Z.ltb_antisym. by destruct (pt <=? snd x).
  - rewrite pass_cons. change (pass_to pt (x :: y :: r)) with (if snd y >? snd x then r' ← pass_to pt r; mret (y :: x :: r')
      else r' ← pass_to pt (y :: r); mret (x :: r')).
    change (tail_holds pt (x :: y :: r)) with (if snd y >? snd x then tail_holds pt r else tail_holds pt (y :: r)).
    destruct (snd y >? snd x); rewrite IH by (unfold ltof; cbn; lia); by destruct (tail_holds _ _).
Qed.

Lemma pass_between_eq ph pt l : pass_between ph pt l = if stays_between ph pt l then Done (pass l) else Panic.
Proof.
  unfold pass_between, stays_between. rewrite pass_to_eq, Z.gtb_ltb, Z.ltb_antisym, negb_involutive.
  by destruct (_ <=? ph); [rewrite KASSERT_true|].
Qed.

Lemma priorities_between c : priorities_ok c -> between c = true.
Proof.
  unfold priorities_ok, between. destruct (c_bookends c) as [ph pt]. intros (Hpt&Hph&Hall). by apply between_stays.
Qed.

Lemma tag_pass p l : tag p (pass (older <$> l)) ≡ₚ tag p l.
Proof.
  unfold tag. rewrite pass_perm, <- list_fmap_compose. apply Permutation_refl'. apply list_fmap_ext. intros i [t pr] _. done.
Qed.

Lemma schedule_cpu_inv self s c :
  inv s [] -> allcpus s !! self = Some c ->
  if between c then exists s', schedule_cpu self s = Done ((), s') /\ inv s' [] /\ keeps s s' /\ wchans s' = wchans s
  else schedule_cpu self s = Panic.
Proof.
  intros Hi Hc. destruct (inv_cur _ _ Hi _ _ Hc) as (th&Hth&Hcpu). unfold schedule_cpu, between. krun.
  erewrite get_cpu_eq by exact Hc. krun. erewrite get_thread_eq by exact Hth. krun. rewrite Hcpu. krun.
  erewrite get_cpu_eq by exact Hc. krun. destruct (c_bookends c) as [ph pt] eqn:Hbk. rewrite pass_between_eq.
  destruct (stays_between _ _ _); krun; [|done]. erewrite on_cpu_eq by exact Hc. eexists. split; [done|].
  destruct (inv_touch s [] self c (set_bookends (s32 (ph + 1), pt) (set_runqueue (pass (older <$> c_runqueue c)) c)) Hi Hc)
    as (?&?); [done| |done]. unfold cpu_tags. cbn [set_bookends set_runqueue c_isidle c_curthread c_runqueue c_zombies]. by rewrite tag_pass.
Qed.

(** The first part of [hardclock]: the count of the processor's ticks, and migration when
    it is due. *)
Definition hardclock_counts (self : nat) : K S_ unit :=
  on_cpu self (fun c => set_hardclocks (c_hardclocks c + 1) c);;
  c ← get_cpu self;
  if c_hardclocks c mod MIGRATE_HARDCLOCKS =? 0 then thread_consider_migration self else mret ().

Lemma hardclock_counts_inv self s c :
  inv s [] -> allcpus s !! self = Some c ->
  exists s1 q, hardclock_counts self s = Done ((), s1) /\ inv s1 [] /\ procs s1 = procs s /\ q ⊆ c_runqueue c /\
    allcpus s1 !! self = Some (set_runqueue q (set_hardclocks (c_hardclocks c + 1) c)) /\
    hardclock self s = ((if u32 (c_hardclocks c + 1) mod SCHEDULE_HARDCLOCKS =? 0 then schedule_cpu self else mret ()) ≫= (fun _ => thread_yield self)) s1.
Proof.
  intros Hi Hc. assert (Hlt : (self < length (allcpus s))%nat) by (by eapply lookup_lt_Some). unfold hardclock, hardclock_counts. krun.
  erewrite on_cpu_eq by exact Hc. krun. set (c1 := set_hardclocks (c_hardclocks c + 1) c).
  destruct (inv_touch s [] self c c1 Hi Hc) as (Hi1&Hk1); [done..|]. set (s1 := with_cpus _ s) in *.
  assert (Hc1 : allcpus s1 !! self = Some c1) by (cbn; by apply list_lookup_insert_eq).
  erewrite get_cpu_eq by exact Hc1. krun. change (u32 (c_hardclocks c + 1)) with (c_hardclocks c1).
  destruct (c_hardclocks c1 mod MIGRATE_HARDCLOCKS =? 0); krun.
  2:{ exists s1, (c_runqueue c1). split; [done|]. split; [done|]. split; [done|]. split; [done|]. split; [|done]. rewrite Hc1. by destruct c1. }
  unfold thread_consider_migration. krun. erewrite get_cpu_eq by exact Hc1. krun.
  destruct (migrate_inv self (u32 (Z.of_nat (length (c_runqueue c1)))) (total_length (allcpus s1)) s1 c1 Hi1 Hc1)
    as (s2&->&Hi2&Hp2&Hl2&q&Hc2&Hq).
  { unfold u32. apply Z.mod_le; lia. }
  { apply u32_range. }
  krun. by exists s2, q.
Qed.

Lemma hardclock_inv self s c s1 c1 :
  inv s [] -> allcpus s !! self = Some c -> hardclock_counts self s = Done ((), s1) -> allcpus s1 !! self = Some c1 ->
  if (c_hardclocks c1 mod SCHEDULE_HARDCLOCKS =? 0) && negb (between c1) then hardclock self s = Panic
  else exists b s', hardclock self s = Done (b, s') /\ inv s' [] /\ procs s' = procs s.
Proof.
  intros Hi Hc Hrun Hc1. destruct (hardclock_counts_inv self s c Hi Hc) as (s2&q&Hrun2&Hi1&Hp1&_&Hc2&->).
  assert (s2 = s1) as -> by congruence. rewrite Hc1 in Hc2. injection Hc2 as Hc2. assert (Hh : u32 (c_hardclocks c + 1) = c_hardclocks c1) by (by rewrite Hc2).
  rewrite Hh. clear Hc2 Hh.
  assert (Hend : forall s3 c3, inv s3 [] -> procs s3 = procs s -> allcpus s3 !! self = Some c3 ->
    exists b s', thread_yield self s3 = Done (b, s') /\ inv s' [] /\ procs s' = procs s).
  { intros s3 c3 Hi3 Hp3 Hc3. destruct (thread_switch_runs self S_READY 0 s3 c3 [] Hi3 Hc3) as (b&s4&Hs4&Hi4&Hp4&_); [done..|].
    exists b, s4. split; [exact Hs4|]. split; [done|]. by rewrite Hp4. }
  destruct (Z.eqb_spec (c_hardclocks c1 mod SCHEDULE_HARDCLOCKS) 0) as [E|]; cbn [andb]; krun; [|by eapply Hend].
  pose proof (schedule_cpu_inv self s1 c1 Hi1 Hc1) as Hs. destruct (between c1); cbn [negb].
  - destruct Hs as (s3&->&Hi3&Hk3&Hw3). krun. destruct (keeps_cur s1 s3 self c1 Hk3 Hc1) as (c3&Hc3&_).
    eapply Hend; [done| |exact Hc3]. destruct Hk3 as (_&_&_&->). done.
  - by rewrite Hs.
Qed.

(** ** The thread system *)

(** What the kernel does with threads, [self] being a processor. *)
Inductive kop : Type :=
  | OpHardclock (self : nat) | OpYield (self : nat) | OpSleep (self wc : nat) | OpNext (self : nat)
  | OpWakeone (self wc : nat) | OpWakeall (self wc : nat) | OpExit (self : nat)
  | OpFork (self : nat) (namelen : Z) (mem stack : bool) (t proc : Z)
  | OpMigrate (self : nat) (my_count total_count : Z) | OpCpu (t : Z) (bookends : Z * Z).

Definition done_ {A} (m : K S_ A) : K S_ unit := m ≫= fun _ => mret ().
Definition kexec (op : kop) : K S_ unit :=
  match op with
  | OpHardclock self => done_ (hardclock self)
  | OpYield self => done_ (thread_yield self)
  | OpSleep self wc => done_ (wchan_sleep self wc)
  | OpNext self => done_ (pick_next self)
  | OpWakeone self wc => wchan_wakeone self wc
  | OpWakeall self wc => wchan_wakeall self wc
  | OpExit self => done_ (thread_exit self)
  | OpFork self namelen mem stack t proc => done_ (thread_fork self namelen mem stack t proc)
  | OpMigrate self my total => migrate self my total
  | OpCpu t bookends => cpu_create t bookends
  end.

(** When they may happen: the processors and channels exist, memory for a new thread is
    not in use, the process structures answer, and the counts of a migration are no larger
    than the queue. *)
Definition kallowed s (op : kop) : Prop :=
  match op with
  | OpHardclock self | OpYield self => (self < length (allcpus s))%nat
  | OpSleep self wc => (self < length (allcpus s))%nat /\ (wc < length (wchans s))%nat
  | OpNext self => exists c, allcpus s !! self = Some c /\ c_isidle c = true
  | OpWakeone _ wc | OpWakeall _ wc => (wc < length (wchans s))%nat
  | OpExit self => (self < length (allcpus s))%nat /\ forall t p, proc_rem self t p (procs s) <> Blocked
  | OpFork self _ _ _ t _ => (self < length (allcpus s))%nat /\ threads s !! t = None /\ forall p, proc_add p (procs s) <> Blocked
  | OpMigrate self my total => exists c, allcpus s !! self = Some c /\ my <= Z.of_nat (length (c_runqueue c)) /\ 0 <= total
  | OpCpu t _ => threads s !! t = None /\ forall p, proc_add p (procs s) <> Blocked
  end.

(** When they panic: the timer, when [schedule] is due and, after the migration if that is
    due too, its pass would move a bookend; the end of a thread that has no process or
    that its process does not let go, or on a processor that is in the idle loop; the
    start of a thread that [proc_addthread] panics for; and that of a processor whose
    first thread the kernel's process does not take. *)
Definition kpanics s (op : kop) : Prop :=
  match op with
  | OpHardclock self => exists s1 c1, hardclock_counts self s = Done ((), s1) /\ allcpus s1 !! self = Some c1 /\
      c_hardclocks c1 mod SCHEDULE_HARDCLOCKS = 0 /\ between c1 = false
  | OpExit self => exists c me, allcpus s !! self = Some c /\ threads s !! fst (c_curthread c) = Some me /\
      (c_isidle c = true \/ t_proc me = 0 \/ proc_rem self (fst (c_curthread c)) (t_proc me) (procs s) = Panic)
  | OpFork self namelen mem stack _ proc => exists c me, allcpus s !! self = Some c /\ threads s !! fst (c_curthread c) = Some me /\
      (namelen <=? MAX_NAME_LENGTH) && mem && stack = true /\ proc_add (if proc =? 0 then t_proc me else proc) (procs s) = Panic
  | OpCpu _ _ => forall ps, proc_add (the_kproc (procs s)) (procs s) <> Done (0, ps)
  | _ => False
  end.

(** An operation panics, or returns and keeps the invariant. *)
Definition decided s (op : kop) : Prop :=
  (kpanics s op /\ kexec op s = Panic) \/ (~ kpanics s op /\ exists s', kexec op s = Done ((), s') /\ inv s' []).

Lemma hardclock_decided self s : inv s [] -> (self < length (allcpus s))%nat -> decided s (OpHardclock self).
Proof.
  intros Hi [c Hc]%lookup_lt_is_Some. destruct (hardclock_counts_inv self s c Hi Hc) as (s1&q&Hrun&_&_&_&Hc1&_).
  pose proof (hardclock_inv self s c s1 _ Hi Hc Hrun Hc1) as H. unfold decided. cbn [kexec kpanics]. unfold done_. krun.
  destruct ((_ =? 0) && negb _) eqn:E.
  - left. rewrite H. split; [|done]. apply andb_true_iff in E as (E1&E2). eexists s1, _. split; [exact Hrun|]. split; [exact Hc1|].
    split; [by apply Z.eqb_eq|by apply negb_true_iff].
  - right. split; [|destruct H as (b&s'&->&?&_); krun; by exists s'].
    intros (s2&c2&Hrun2&Hc2&E1&E2). assert (s2 = s1) as -> by congruence. rewrite Hc1 in Hc2. injection Hc2 as <-.
    rewrite E1, E2 in E. discriminate E.
Qed.

Lemma exit_decided self s : inv s [] -> kallowed s (OpExit self) -> decided s (OpExit self).
Proof.
  intros Hi ([c Hc]%lookup_lt_is_Some&Hblk). destruct (inv_cur _ _ Hi _ _ Hc) as (me&Hme&_).
  assert (Hpan : (c_isidle c = true \/ t_proc me = 0 \/ proc_rem self (fst (c_curthread c)) (t_proc me) (procs s) = Panic) ->
    thread_exit self s = Panic -> kpanics s (OpExit self) /\ kexec (OpExit self) s = Panic).
  { intros H E. split; [by exists c, me|]. cbn [kexec]. unfold done_. krun. by rewrite E. }
  destruct (Z.eq_dec (t_proc me) 0) as [E0|E0].
  { left. apply Hpan; [by right; left|]. unfold thread_exit, proc_remthread, kassert. krun. erewrite get_cpu_eq by exact Hc. krun.
    erewrite get_thread_eq by exact Hme. krun. by rewrite E0. }
  destruct (proc_rem self (fst (c_curthread c)) (t_proc me) (procs s)) as [[[] ps]| |] eqn:Hrem; [| |by edestruct Hblk].
  - pose proof (thread_exit_inv self s c me ps Hi Hc Hme E0 Hrem) as H. destruct (c_isidle c) eqn:Hid.
    + left. apply Hpan; [by left|done].
    + right. split.
      * intros (c'&me'&Hc'&Hme'&Hor). rewrite Hc in Hc'. injection Hc' as <-. rewrite Hme in Hme'. injection Hme' as <-.
        rewrite Hrem, Hid in Hor. naive_solver.
      * destruct H as (b&s'&Hrun&Hi'&_). exists s'. split; [|done]. cbn [kexec]. unfold done_. krun. by rewrite Hrun.
  - left. apply Hpan; [by right; right|]. unfold thread_exit, proc_remthread, kassert. krun. erewrite get_cpu_eq by exact Hc. krun.
    erewrite get_thread_eq by exact Hme. krun. rewrite (proj2 (Z.eqb_neq _ _) E0). krun. unfold on_procs, zoom. by rewrite Hrem.
Qed.

(** [proc_addthread] is only called when there is memory for the thread and its stack. *)
Lemma thread_fork_unadded self namelen mem stack t proc s c me :
  inv s [] -> allcpus s !! self = Some c -> threads s !! fst (c_curthread c) = Some me -> threads s !! t = None ->
  proc_add (if proc =? 0 then t_proc me else proc) (procs s) = Panic ->
  if (namelen <=? MAX_NAME_LENGTH) && mem && stack then thread_fork self namelen mem stack t proc s = Panic
  else exists s', thread_fork self namelen mem stack t proc s = Done (ENOMEM, s') /\ inv s' [].
Proof.
  intros Hi Hc Hme Ht Hadd. assert (Hne : fst (c_curthread c) <> t) by congruence. unfold thread_fork, thread_create. krun.
  erewrite get_cpu_eq by exact Hc. krun. rewrite Z.ltb_antisym. destruct (namelen <=? MAX_NAME_LENGTH); cbn [negb andb]; krun; [|by exists s].
  destruct mem; cbn [andb]; krun; [|by exists s]. rewrite put_thread_eq. krun. destruct stack; krun.
  - erewrite get_thread_eq by (cbn; rewrite lookup_insert_ne by done; exact Hme). krun.
    erewrite get_thread_eq by (cbn; by rewrite lookup_insert_eq). krun. rewrite put_thread_eq. krun. cbn [t_state t_proc with_threads threads].
    unfold proc_addthread, kassert. krun. erewrite get_thread_eq by (cbn; by rewrite lookup_insert_eq). krun. cbn [t_proc].
    krun. unfold on_procs, zoom. cbn [procs with_threads]. by rewrite Hadd.
  - erewrite thread_destroy_new by (cbn; rewrite ?lookup_insert_eq; done). krun. cbn. rewrite delete_insert_id by done.
    eexists. split; [done|]. by eapply inv_same.
Qed.

Lemma fork_decided self namelen mem stack t proc s :
  inv s [] -> kallowed s (OpFork self namelen mem stack t proc) -> decided s (OpFork self namelen mem stack t proc).
Proof.
  intros Hi ([c Hc]%lookup_lt_is_Some&Ht&Hblk). destruct (inv_cur _ _ Hi _ _ Hc) as (me&Hme&_).
  assert (Hnot : (proc_add (if proc =? 0 then t_proc me else proc) (procs s) <> Panic \/ (namelen <=? MAX_NAME_LENGTH) && mem && stack = false) ->
    ~ kpanics s (OpFork self namelen mem stack t proc)).
  { intros H (c'&me'&Hc'&Hme'&E1&E2). rewrite Hc in Hc'. injection Hc' as <-. rewrite Hme in Hme'. injection Hme' as <-.
    destruct H; congruence. }
  destruct (proc_add (if proc =? 0 then t_proc me else proc) (procs s)) as [[r ps]| |] eqn:Hadd; [| |by edestruct Hblk].
  - right. split; [apply Hnot; by left|]. destruct (thread_fork_inv self namelen mem stack t proc s c me r ps) as (r'&s'&Hrun&?&_); [done..|].
    exists s'. split; [|done]. cbn [kexec]. unfold done_. krun. by rewrite Hrun.
  - pose proof (thread_fork_unadded self namelen mem stack t proc s c me Hi Hc Hme Ht Hadd) as H.
    destruct ((namelen <=? MAX_NAME_LENGTH) && mem && stack) eqn:E.
    + left. split; [by exists c, me|]. cbn [kexec]. unfold done_. krun. by rewrite H.
    + right. split; [apply Hnot; by right|]. destruct H as (s'&Hrun&?). exists s'. split; [|done]. cbn [kexec]. unfold done_. krun. by rewrite Hrun.
Qed.

Lemma cpu_decided t bk s : inv s [] -> kallowed s (OpCpu t bk) -> decided s (OpCpu t bk).
Proof.
  intros Hi (Ht&Hblk). destruct (proc_add (the_kproc (procs s)) (procs s)) as [[r ps]| |] eqn:Hadd; [| |by edestruct Hblk].
  1: destruct (Z.eq_dec r 0) as [->|Hr].
  - right. split; [intros H; cbn in H; congruence|]. destruct (cpu_create_inv t bk s ps) as (s'&?&?&_); [done..|]. by exists s'.
  - left. split; [intros ?; congruence|]. cbn [kexec]. unfold cpu_create, thread_create. krun.
    change (MAX_NAME_LENGTH <? 15) with false. krun. rewrite put_thread_eq. krun. unfold kassert. krun.
    erewrite get_thread_eq by (cbn; by rewrite lookup_insert_eq). krun. rewrite put_thread_eq. krun.
    unfold proc_addthread, kassert. krun. erewrite get_thread_eq by (cbn; by rewrite lookup_insert_eq). krun. cbn [t_proc with_cpu].
    krun. unfold on_procs, zoom. cbn [procs with_cpus with_threads]. rewrite Hadd. krun. unfold when_ok.
    rewrite (proj2 (Z.eqb_neq _ _) Hr). krun. by rewrite (proj2 (Z.eqb_neq _ _) Hr).
  - left. split; [intros ?; congruence|]. cbn [kexec]. unfold cpu_create, thread_create. krun.
    change (MAX_NAME_LENGTH <? 15) with false. krun. rewrite put_thread_eq. krun. unfold kassert. krun.
    erewrite get_thread_eq by (cbn; by rewrite lookup_insert_eq). krun. rewrite put_thread_eq. krun.
    unfold proc_addthread, kassert. krun. erewrite get_thread_eq by (cbn; by rewrite lookup_insert_eq). krun. cbn [t_proc with_cpu].
    krun. unfold on_procs, zoom. cbn [procs with_cpus with_threads]. by rewrite Hadd.
Qed.

Lemma kexec_decided s op : inv s [] -> kallowed s op -> decided s op.
Proof.
  intros Hi. assert (Hsw : forall self st wc, (self < length (allcpus s))%nat -> st <> S_RUN -> st <> S_ZOMBIE ->
    (st = S_SLEEP -> (wc < length (wchans s))%nat) -> exists s', done_ (thread_switch self st wc) s = Done ((), s') /\ inv s' []).
  { intros self st wc [c Hc]%lookup_lt_is_Some Hr Hz Hw. unfold done_. krun.
    destruct (thread_switch_runs self st wc s c [] Hi Hc) as (b&s'&->&?&_); [done..|]. krun. by exists s'. }
  destruct op.
  - by apply hardclock_decided.
  - intros Hs. right. split; [intros []|]. by apply Hsw.
  - intros (Hs&Hw). right. split; [intros []|]. by apply Hsw.
  - intros (c&Hc&Hidle). right. split; [intros []|]. cbn [kexec]. unfold done_. krun.
    destruct (pick_next_inv self s c []) as (s'&->&?&_); [done..|]. krun. by exists s'.
  - intros [l Hl]%lookup_lt_is_Some. right. split; [intros []|]. destruct (wakeone_inv self wc l s [] Hi Hl) as (s'&?&?&_). by exists s'.
  - intros [l Hl]%lookup_lt_is_Some. right. split; [intros []|]. destruct (wakeall_inv self wc l s [] Hi Hl) as (s'&?&?&_). by exists s'.
  - by apply exit_decided.
  - by apply fork_decided.
  - intros (c&Hc&Hmy&Htot). right. split; [intros []|]. destruct (migrate_inv self my_count total_count s c) as (s'&?&?&_); [done..|]. by exists s'.
  - by apply cpu_decided.
Qed.

(** The states the kernel gets to from the start of [thread_bootstrap]. *)
Inductive kreached : S_ -> Prop :=
  | kreached_boot n ps : kreached (mkSys_ [] ∅ (replicate (S n) []) 0 ps)
  | kreached_step s op s' : kreached s -> kallowed s op -> kexec op s = Done ((), s') -> kreached s'.

Lemma kreached_inv s : kreached s -> inv s [].
Proof.
  induction 1 as [n ps|s op s' _ IH Hop Hrun].
  - assert (Htag : tagged (mkSys_ [] ∅ (replicate (S n) []) 0 ps) = []).
    { unfold tagged. cbn [allcpus wchans imap concat app]. generalize (S n). intros m.
      assert (H : forall (f : nat -> nat), concat (imap (fun w l => tag (Wait (f w)) l) (replicate m ([] : tlist_))) = []).
      { induction m as [|m IHm]; intros f; [done|]. cbn. apply (IHm (fun w => f (S w))). }
      apply (H (fun w => w)). }
    constructor; cbn [app allcpus threads wchans]; rewrite ?Htag; cbn.
    + by apply NoDup_nil_2.
    + intros t. rewrite lookup_empty. split; [by intros ?%not_elem_of_nil|by intros []].
    + by intros t p ?%not_elem_of_nil.
    + done.
    + done.
    + rewrite length_replicate. unfold thread_count_wchan. lia.
  - destruct (kexec_decided s op IH Hop) as [(_&E)|(_&s2&Hs2&?)]; congruence.
Qed.

(** *** Turns *)

(** [n] calls of [thread_yield] on one processor, by whatever thread runs there. *)
Fixpoint yields (n : nat) (self : nat) : K S_ unit :=
  match n with O => mret () | S n => thread_yield self;; yields n self end.

Lemma yields_eq n self s c l1 l2 :
  inv s [] -> allcpus s !! self = Some c -> c_isidle c = false -> c_runqueue c = l1 ++ l2 -> length l1 = n -> (0 < n)%nat ->
  exists s' c', yields n self s = Done ((), s') /\ inv s' [] /\ allcpus s' !! self = Some c' /\ c_isidle c' = false /\
    last l1 = Some (c_curthread c') /\ c_runqueue c' = l2 ++ c_curthread c :: removelast l1.
Proof.
  revert s c l1 l2. induction n as [|n IH]; intros s c l1 l2 Hi Hc Hidle Hq Hl Hn; [lia|]. cbn [yields]. krun.
  destruct l1 as [|x l1]; [done|]. injection Hl as Hl.
  assert (Hlt : (self < length (allcpus s))%nat) by (by eapply lookup_lt_Some).
  destruct (thread_switch_runs self S_READY 0 s c [] Hi Hc) as (b&s1&Hs1&Hi1&_&Hpost); [done..|].
  unfold thread_yield at 1. rewrite Hs1. krun. rewrite Hidle, (bool_decide_false (c_runqueue c = [])), andb_false_r in Hpost by (by rewrite Hq).
  cbn [orb] in Hpost. destruct Hpost as (Hcpus&_&_). cbn in Hcpus. rewrite Hq in Hcpus. cbn in Hcpus.
  set (c1 := set_zombies [] _) in Hcpus. assert (Hc1 : allcpus s1 !! self = Some c1) by (by rewrite Hcpus, list_lookup_insert_eq).
  destruct l1 as [|y l1]; cbn in Hl.
  { subst n. cbn. exists s1, c1. split; [done|]. split; [done|]. done. }
  destruct (IH s1 c1 (y :: l1) (l2 ++ [c_curthread c]) Hi1 Hc1) as (s2&c2&Hs2&Hi2&Hc2&Hid2&Hlast&Hq2); [done| |done|lia|].
  { cbn. by rewrite <- app_assoc. }
  exists s2, c2. split; [exact Hs2|]. split; [done|]. split; [done|]. split; [done|]. split; [exact Hlast|].
  rewrite Hq2, <- app_assoc. cbn [app removelast]. done.
Qed.

End Threads.


(** C25. Every thread on a run queue gets its turn: if nothing else changes the queue, the
    thread at place [length l1] is the current thread after as many calls of
    [thread_yield], and those that were before it have had theirs and wait in their order
    behind the ones that come after it and the thread that ran first. *)
Theorem yield_round_robin {P} `{!ProcThreads P} (s : ksys P) self c l1 x l2 :
  kreached s -> allcpus s !! self = Some c -> c_isidle c = false -> c_runqueue c = l1 ++ x :: l2 ->
  exists s' c', yields (S (length l1)) self s = Done ((), s') /\ allcpus s' !! self = Some c' /\
    c_curthread c' = x /\ c_isidle c' = false /\ c_runqueue c' = l2 ++ c_curthread c :: l1.
Proof.
  intros Hs Hc Hidle Hq. pose proof (kreached_inv s Hs) as Hi.
  destruct (yields_eq (S (length l1)) self s c (l1 ++ [x]) l2 Hi Hc Hidle) as (s'&c'&Hrun&_&Hc'&Hid&Hlast&Hq').
  - by rewrite Hq, <- app_assoc.
  - rewrite length_app. cbn. lia.
  - lia.
  - exists s', c'. split; [exact Hrun|]. rewrite last_snoc in Hlast. rewrite removelast_last in Hq'. injection Hlast as <-. done.
Qed.

(** ** A small system: the process structures are a count of threads. *)
#[local] Instance counted : ProcThreads Z := {
  proc_add := fun _ n => Done (0, n + 1);
  proc_rem := fun _ _ _ n => if n >? 0 then Done ((), n - 1) else Panic;
  the_kproc := fun _ => 1 }.

Definition boot_ops : list kop :=
  [OpCpu 1000 (9, 0); OpCpu 2000 (9, 0); OpFork 0 5 true true 3000 0; OpFork 0 5 true true 4000 0; OpFork 0 5 true true 5000 7].
Fixpoint run_ops (ops : list kop) : K (ksys Z) unit :=
  match ops with [] => mret () | op :: ops => kexec op;; run_ops ops end.
Definition booted : ksys Z :=
  match run_ops boot_ops (mkSys_ [] ∅ (replicate 3 []) 0 0) with Done (_, s) => s | _ => mkSys_ [] ∅ [] 0 0 end.

Ltac cpu_allowed := split; [vm_compute; reflexivity|intros p; discriminate].
Ltac fork_allowed := split; [apply Nat.ltb_lt; vm_compute; reflexivity|split; [vm_compute; reflexivity|intros p; discriminate]].

Lemma booted_reached : kreached booted.
Proof.
  pose proof (kreached_boot (P := Z) 2 0) as H0.
  eapply (kreached_step _ (OpCpu 1000 (9, 0))) in H0; [|cpu_allowed|vm_compute; reflexivity].
  eapply (kreached_step _ (OpCpu 2000 (9, 0))) in H0; [|cpu_allowed|vm_compute; reflexivity].
  eapply (kreached_step _ (OpFork 0 5 true true 3000 0)) in H0; [|fork_allowed|vm_compute; reflexivity].
  eapply (kreached_step _ (OpFork 0 5 true true 4000 0)) in H0; [|fork_allowed|vm_compute; reflexivity].
  eapply (kreached_step _ (OpFork 0 5 true true 5000 7)) in H0; [|fork_allowed|vm_compute; reflexivity].
  exact H0.
Qed.


(** Both cases occur: the first processor's thread may go; a process structure that lets
    nobody go makes it panic, and so does a thread whose priority is above the bookend's
    when the fourth tick comes. *)
Example booted_exits : exists s', kexec (OpExit 0) booted = Done ((), s') /\ kexec (OpExit 0) (with_procs 0 booted) = Panic.
Proof. eexists. split; vm_compute; reflexivity. Qed.
Example booted_ticks :
  kexec (OpHardclock 0) (with_cpus [mkCpu (1000, 0) [] 3 false [(3000, 8)] 0 [] (7, 0)] booted) = Panic /\
  exists s', kexec (OpHardclock 0) (with_cpus [mkCpu (1000, 0) [] 3 false [(3000, 7)] 0 [] (7, 0)] booted) = Done ((), s').
Proof. split; [vm_compute; reflexivity|]. eexists. vm_compute. reflexivity. Qed.

Lemma yield_round_robin_witness :
  exists s' c', yields 3 0 booted = Done ((), s') /\ allcpus s' !! 0%nat = Some c' /\ c_curthread c' = (5000, 0) /\
    c_isidle c' = false /\ c_runqueue c' = [(1000, 0); (3000, 0); (4000, 0)].
Proof.
  pose proof (yield_round_robin booted 0 (mkCpu (1000, 0) [] 0 false [(3000, 0); (4000, 0); (5000, 0)] 0 [] (9, 0))
    [(3000, 0); (4000, 0)] (5000, 0) [] booted_reached) as H.
  apply H; [vm_compute; reflexivity|reflexivity|reflexivity].
Defined.
