(* ===== verification/Cstring.v ===== *)
(** * common/libc/string: C strings and blocks of memory

    A pointer to a string is the list of the bytes from there to the end of the
    object it points into; running off that end is a [Panic].  A [char] is its
    unsigned value.  Blocks of memory are moved inside one list of bytes, whose
    index is the address. *)

From S2P Require Import Prelude.

(** ** Strings *)

Fixpoint strlen (s : list Z) : outcome Z :=
  match s with
  | [] => Panic
  | c :: s => if c =? 0 then mret 0 else n ← strlen s; mret (n + 1)
  end.

Fixpoint strcmp (a b : list Z) : outcome Z :=
  match a, b with
  | x :: a, y :: b =>
      if negb (x =? 0) && (x =? y) then strcmp a b
      else mret (if x >? y then 1 else if x =? y then 0 else -1)
  | _, _ => Panic
  end.

Fixpoint strcpy (dest src : list Z) : outcome (list Z) :=
  match src, dest with
  | c :: src, _ :: dest =>
      if c =? 0 then mret (0 :: dest)
      else dest ← strcpy dest src; mret (c :: dest)
  | _, _ => Panic
  end.

Definition strcat (dest src : list Z) : outcome (list Z) :=
  offset ← strlen dest;
  tail ← strcpy (drop (Z.to_nat offset) dest) src;
  mret (take (Z.to_nat offset) dest ++ tail).

(** The result of a search is the offset of the character found. *)
Fixpoint strchr (s : list Z) (ch : Z) : outcome (option Z) :=
  match s with
  | [] => Panic
  | c :: s =>
      if c =? 0 then mret (if c =? ch then Some 0 else None)
      else if c =? ch then mret (Some 0)
      else r ← strchr s ch; mret (match r with Some i => Some (i + 1) | None => None end)
  end.

(** The loop of [strrchr], [i] characters from the start. *)
Fixpoint strrchr_from (i : nat) (s : list Z) (ch : Z) : outcome (option Z) :=
  match i with
  | O => mret None
  | S i =>
      c ← deref (s !! i);
      if c =? ch then mret (Some (Z.of_nat i)) else strrchr_from i s ch
  end.

Definition strrchr (s : list Z) (ch : Z) : outcome (option Z) :=
  n ← strlen s;
  strrchr_from (Z.to_nat (n + 1)) s ch.

(** [block n] is the memory [kmalloc(n)] returns, if any. *)
Definition kstrdup (block : Z -> option (list Z)) (s : list Z) : outcome (option (list Z)) :=
  n ← strlen s;
  match block (n + 1) with
  | None => mret None
  | Some z => z ← strcpy z s; mret (Some z)
  end.

(** ** Blocks *)

Definition sizeof_long : Z := 4.

(** One assignment [d[i] = s[i]] of [w] bytes. *)
Definition copy1 (m : list Z) (dst src w : Z) : outcome (list Z) :=
  if (0 <=? dst) && (0 <=? src) && (dst + w <=? Z.of_nat (length m)) && (src + w <=? Z.of_nat (length m))
  then mret (splice (Z.to_nat dst) (take (Z.to_nat w) (drop (Z.to_nat src) m)) m)
  else Panic.

Fixpoint copy_up (k : nat) (i : Z) (m : list Z) (dst src w : Z) : outcome (list Z) :=
  match k with
  | O => mret m
  | S k =>
      m ← copy1 m (dst + i * w) (src + i * w) w;
      copy_up k (i + 1) m dst src w
  end.

Fixpoint copy_down (i : nat) (m : list Z) (dst src w : Z) : outcome (list Z) :=
  match i with
  | O => mret m
  | S i =>
      m ← copy1 m (dst + Z.of_nat i * w) (src + Z.of_nat i * w) w;
      copy_down i m dst src w
  end.

Definition aligned (dst src len : Z) : bool :=
  (dst mod sizeof_long =? 0) && (src mod sizeof_long =? 0) && (len mod sizeof_long =? 0).

Definition memcpy (m : list Z) (dst src len : Z) : outcome (list Z) :=
  if aligned dst src len then copy_up (Z.to_nat (len / sizeof_long)) 0 m dst src sizeof_long
  else copy_up (Z.to_nat len) 0 m dst src 1.

Definition memmove (m : list Z) (dst src len : Z) : outcome (list Z) :=
  if dst <? src then memcpy m dst src len
  else if aligned dst src len then copy_down (Z.to_nat (len / sizeof_long)) m dst src sizeof_long
  else copy_down (Z.to_nat len) m dst src 1.

(** ** The characters of a string *)

Fixpoint cstr (s : list Z) : list Z :=
  match s with [] => [] | c :: s => if c =? 0 then [] else c :: cstr s end.

(** [s] holds a terminated string. *)
Definition is_str (s : list Z) : Prop := 0 ∈ s.

Lemma is_str_cons c s : is_str (c :: s) -> c = 0 \/ (c <> 0 /\ is_str s).
Proof.
  unfold is_str. rewrite elem_of_cons. destruct (decide (c = 0)); [by left|].
  intros [?|?]; [congruence|by right].
Qed.

Lemma is_str_split s : is_str s -> exists r, s = cstr s ++ 0 :: r.
Proof.
  induction s as [|c s IH]; [by intros ?%not_elem_of_nil|].
  intros [->|[Hc Hs]]%is_str_cons; [by exists s|].
  destruct (IH Hs) as [r Hr]. exists r. cbn. rewrite (proj2 (Z.eqb_neq _ _)) by done. cbn. congruence.
Qed.

Lemma cstr_nonzero s c : c ∈ cstr s -> c <> 0.
Proof.
  induction s as [|x s IH]; cbn; [by intros ?%not_elem_of_nil|].
  destruct (Z.eqb_spec x 0); [by intros ?%not_elem_of_nil|]. intros [->|?]%elem_of_cons; auto.
Qed.

Lemma cstr_app l r : Forall (fun c => c <> 0) l -> cstr (l ++ 0 :: r) = l.
Proof. induction 1 as [|c l Hc _ IH]; cbn; [done|]. by rewrite (proj2 (Z.eqb_neq _ _)), IH. Qed.

Lemma Forall_cstr s : Forall (fun c => c <> 0) (cstr s).
Proof. apply Forall_forall. intros c. apply cstr_nonzero. Qed.

Lemma length_cstr_str s : is_str s -> (length (cstr s) < length s)%nat.
Proof. intros [r ->]%is_str_split. rewrite cstr_app by apply Forall_cstr. rewrite length_app. cbn. lia. Qed.

Lemma strlen_ok s : is_str s -> strlen s = Done (Z.of_nat (length (cstr s))).
Proof.
  induction s as [|c s IH]; [by intros ?%not_elem_of_nil|].
  intros [->|[Hc Hs]]%is_str_cons; [done|]. cbn [strlen cstr]. rewrite (proj2 (Z.eqb_neq _ _)), IH by done.
  cbn. do 2 f_equal. lia.
Qed.

Lemma strcpy_ok dest src :
  is_str src -> (length (cstr src) < length dest)%nat ->
  strcpy dest src = Done (cstr src ++ 0 :: drop (S (length (cstr src))) dest).
Proof.
  revert dest. induction src as [|c src IH]; intros dest; [by intros ?%not_elem_of_nil|].
  intros [->|[Hc Hs]]%is_str_cons Hl; destruct dest as [|d dest]; cbn in Hl; try lia; [done|].
  cbn [strcpy cstr] in *. rewrite (proj2 (Z.eqb_neq c 0)) in * by done. cbn [length] in Hl.
  rewrite IH by (done || lia). done.
Qed.

(** Lexicographic comparison, the shorter string first. *)
Fixpoint lexcmp (a b : list Z) : Z :=
  match a, b with
  | [], [] => 0
  | [], _ => -1
  | _, [] => 1
  | x :: a, y :: b => if x <? y then -1 else if y <? x then 1 else lexcmp a b
  end.

Lemma lexcmp_eq a b : lexcmp a b = 0 <-> a = b.
Proof.
  revert b. induction a as [|x a IH]; intros [|y b]; cbn; try done.
  destruct (Z.ltb_spec x y); [split; [lia|intros [= ? _]; lia]|].
  destruct (Z.ltb_spec y x); [split; [lia|intros [= ? _]; lia]|].
  rewrite IH. split; [intros ->; f_equal; lia|by intros [= _ ?]].
Qed.

Lemma strcmp_ok a b :
  is_str a -> is_str b -> bytes a -> bytes b -> strcmp a b = Done (lexcmp (cstr a) (cstr b)).
Proof.
  revert b. induction a as [|x a IH]; intros b; [by intros ?%not_elem_of_nil|].
  intros Ha Hb Ba Bb. destruct b as [|y b]; [by apply not_elem_of_nil in Hb|].
  apply Forall_cons in Ba as [Bx Ba], Bb as [By Bb]. unfold is_byte in *.
  cbn [strcmp cstr]. apply is_str_cons in Ha as [->|[Hx Ha]], Hb as [->|[Hy Hb]]; cbn [Z.eqb negb andb].
  - done.
  - rewrite (proj2 (Z.eqb_neq y 0)) by done. rewrite Z.gtb_ltb, (proj2 (Z.ltb_ge _ _)) by lia. by destruct y.
  - rewrite (proj2 (Z.eqb_neq x 0)) by done. cbn [negb andb]. rewrite Z.gtb_ltb, (proj2 (Z.ltb_lt _ _)) by lia. done.
  - rewrite (proj2 (Z.eqb_neq x 0)), (proj2 (Z.eqb_neq y 0)) by done. cbn [negb andb lexcmp].
    destruct (Z.eqb_spec x y) as [->|Hne].
    + rewrite Z.ltb_irrefl. by apply IH.
    + rewrite Z.gtb_ltb. destruct (Z.ltb_spec x y), (Z.ltb_spec y x); try done; lia.
Qed.

(** ** Searching *)

(** Offset [i] holds [ch] within the string or is its terminator. *)
Definition found_at (s : list Z) (ch i : Z) : Prop :=
  0 <= i <= Z.of_nat (length (cstr s)) /\ s !! Z.to_nat i = Some ch.

Lemma strchr_ok s ch :
  is_str s ->
  exists r, strchr s ch = Done r /\
    match r with
    | Some i => found_at s ch i /\ forall j, found_at s ch j -> i <= j
    | None => forall j, ~ found_at s ch j
    end.
Proof.
  unfold found_at. induction s as [|c s IH]; [by intros ?%not_elem_of_nil|].
  intros Hs. cbn [strchr cstr]. apply is_str_cons in Hs as [->|[Hc Hs]].
  - rewrite Z.eqb_refl. destruct (Z.eqb_spec 0 ch) as [<-|Hne].
    + exists (Some 0). split; [done|]. split; [split; [cbn; lia|done]|intros j [? _]; lia].
    + exists None. split; [done|]. cbn. intros j [Hj Hl]. replace (Z.to_nat j) with 0%nat in Hl by lia.
      change (Some 0 = Some ch) in Hl. congruence.
  - rewrite (proj2 (Z.eqb_neq c 0)) by done. cbn [length]. destruct (Z.eqb_spec c ch) as [->|Hne].
    + exists (Some 0). split; [done|]. split; [split; [lia|done]|intros j [? _]; lia].
    + destruct (IH Hs) as (r & -> & Hr). kred. eexists; split; [done|].
      assert (Hback : forall j, 0 <= j <= Z.of_nat (S (length (cstr s))) -> (c :: s) !! Z.to_nat j = Some ch ->
        0 <= j - 1 <= Z.of_nat (length (cstr s)) /\ s !! Z.to_nat (j - 1) = Some ch).
      { intros j Hj Hl. destruct (decide (j = 0)) as [->|]; [change (Some c = Some ch) in Hl; congruence|].
        replace (Z.to_nat j) with (S (Z.to_nat (j - 1))) in Hl by lia. split; [lia|exact Hl]. }
      destruct r as [i|].
      * destruct Hr as [[Hi Hl] Hmin]. split.
        -- split; [lia|]. by replace (Z.to_nat (i + 1)) with (S (Z.to_nat i)) by lia.
        -- intros j [Hj Hlj]. pose proof (Hmin (j - 1) (Hback j Hj Hlj)). lia.
      * intros j [Hj Hlj]. by apply (Hr (j - 1)), Hback.
Qed.

Lemma strrchr_from_ok i s ch :
  (i <= length s)%nat ->
  exists r, strrchr_from i s ch = Done r /\
    match r with
    | Some k => 0 <= k < Z.of_nat i /\ s !! Z.to_nat k = Some ch /\
        forall j, k < j < Z.of_nat i -> s !! Z.to_nat j <> Some ch
    | None => forall j, 0 <= j < Z.of_nat i -> s !! Z.to_nat j <> Some ch
    end.
Proof.
  induction i as [|i IH]; intros Hi; cbn [strrchr_from]; [exists None; split; [done|lia]|].
  destruct (lookup_lt_is_Some_2 s i) as [c Hc]; [lia|]. rewrite Hc. kred.
  destruct (Z.eqb_spec c ch) as [->|Hne].
  - exists (Some (Z.of_nat i)). split; [done|]. rewrite Nat2Z.id. split_and!; [lia|lia|done|lia].
  - destruct IH as (r & -> & Hr); [lia|]. exists r. split; [done|].
    assert (Hlast : forall j, Z.of_nat i <= j < Z.of_nat (S i) -> s !! Z.to_nat j <> Some ch).
    { intros j Hj. replace (Z.to_nat j) with i by lia. rewrite Hc. congruence. }
    destruct r as [k|]; [destruct Hr as (Hk & Hl & Hr); split_and!; [lia|lia|done|]|]; intros j Hj;
      (destruct (decide (j < Z.of_nat i)); [apply Hr; lia|apply Hlast; lia]).
Qed.

(** ** Copying blocks *)

(** Bytes outside the part written read as before. *)
Lemma segment_splice p a (l : list Z) q n :
  (p + length a <= length l)%nat -> (q + n <= p \/ p + length a <= q)%nat ->
  take n (drop q (splice p a l)) = take n (drop q l).
Proof.
  intros Hl Hq. apply list_eq. intros i. destruct (decide (i < n)%nat).
  - rewrite !lookup_take_lt, !lookup_drop, lookup_splice_old by lia. done.
  - rewrite !lookup_take_ge by lia. done.
Qed.

Section Copying.
Context (m : list Z) (dst src : nat) (w : nat).

Lemma copy1_ok m1 d s :
  (d + w <= length m1)%nat -> (s + w <= length m1)%nat ->
  copy1 m1 (Z.of_nat d) (Z.of_nat s) (Z.of_nat w) = Done (splice d (take w (drop s m1)) m1).
Proof.
  intros Hd Hs. unfold copy1.
  replace ((0 <=? Z.of_nat d) && (0 <=? Z.of_nat s) && (Z.of_nat d + Z.of_nat w <=? Z.of_nat (length m1))
    && (Z.of_nat s + Z.of_nat w <=? Z.of_nat (length m1))) with true by lia.
  by rewrite !Nat2Z.id.
Qed.

Lemma take_next n (l : list Z) : take (n + w) l = take n l ++ take w (drop n l).
Proof. by rewrite take_take_drop. Qed.

Lemma copy_up_ok k i :
  (dst <= src)%nat -> (src + (i + k) * w <= length m)%nat ->
  copy_up k (Z.of_nat i) (splice dst (take (i * w) (drop src m)) m) (Z.of_nat dst) (Z.of_nat src) (Z.of_nat w) =
    Done (splice dst (take ((i + k) * w) (drop src m)) m).
Proof.
  intros Hds. revert i. induction k as [|k IH]; intros i Hl; cbn [copy_up].
  - by rewrite Nat.add_0_r.
  - set (a := take (i * w) (drop src m)).
    assert (Ha : length a = (i * w)%nat) by (unfold a; rewrite length_take, length_drop; lia).
    assert (Hlen : length (splice dst a m) = length m) by (apply length_splice; lia).
    rewrite <- !Nat2Z.inj_mul, <- !Nat2Z.inj_add, copy1_ok by lia. kred.
    rewrite (segment_splice dst a m (src + i * w) w) by lia.
    assert (Hn : splice (dst + i * w) (take w (drop (src + i * w) m)) (splice dst a m) =
                 splice dst (take (S i * w) (drop src m)) m).
    { replace (S i * w)%nat with (i * w + w)%nat by lia. rewrite take_next, drop_drop.
      rewrite <- Ha at 1. apply splice_splice. rewrite !length_take, !length_drop. lia. }
    rewrite Hn. replace (Z.of_nat i + 1) with (Z.of_nat (S i)) by lia.
    rewrite IH by lia. do 3 f_equal. lia.
Qed.

Lemma copy_down_ok i k :
  (src <= dst)%nat -> (dst + (i + k) * w <= length m)%nat ->
  copy_down i (splice (dst + i * w) (take (k * w) (drop (src + i * w) m)) m) (Z.of_nat dst) (Z.of_nat src) (Z.of_nat w) =
    Done (splice dst (take ((i + k) * w) (drop src m)) m).
Proof.
  intros Hds. revert k. induction i as [|i IH]; intros k Hl; cbn [copy_down].
  - by rewrite !Nat.add_0_r.
  - set (b := take (k * w) (drop (src + S i * w) m)).
    assert (Hb : length b = (k * w)%nat) by (unfold b; rewrite length_take, length_drop; lia).
    assert (Hlen : length (splice (dst + S i * w) b m) = length m) by (apply length_splice; lia).
    rewrite <- !Nat2Z.inj_mul, <- !Nat2Z.inj_add, copy1_ok by lia. kred.
    rewrite (segment_splice (dst + S i * w) b m (src + i * w) w) by lia.
    set (a := take w (drop (src + i * w) m)).
    assert (Ha : length a = w) by (unfold a; rewrite length_take, length_drop; lia).
    assert (Hn : splice (dst + i * w) a (splice (dst + S i * w) b m) =
                 splice (dst + i * w) (take (S k * w) (drop (src + i * w) m)) m).
    { replace (dst + S i * w)%nat with (dst + i * w + length a)%nat by lia. rewrite splice_before by lia.
      f_equal. unfold a, b. replace (S k * w)%nat with (w + k * w)%nat by lia.
      rewrite <- (take_take_drop (drop _ m) w (k * w)), drop_drop. do 3 f_equal. lia. }
    rewrite Hn, IH by lia. do 3 f_equal. lia.
Qed.
End Copying.

Lemma aligned_div dst src len : aligned dst src len = true -> len = len / sizeof_long * sizeof_long.
Proof. unfold aligned, sizeof_long. lia. Qed.

Lemma memcpy_up m dst src len :
  0 <= dst <= src -> 0 <= len -> src + len <= Z.of_nat (length m) ->
  memcpy m dst src len = Done (splice (Z.to_nat dst) (take (Z.to_nat len) (drop (Z.to_nat src) m)) m).
Proof.
  intros Hd Hl Hs. unfold memcpy.
  assert (Hw : forall k w : nat, (Z.to_nat src + k * w <= length m)%nat ->
    copy_up k 0 m dst src (Z.of_nat w) = Done (splice (Z.to_nat dst) (take (k * w) (drop (Z.to_nat src) m)) m)).
  { intros k w Hk. pose proof (copy_up_ok m (Z.to_nat dst) (Z.to_nat src) w k 0 ltac:(lia) ltac:(lia)) as Hc.
    cbn [Nat.mul] in Hc. rewrite take_0, splice_nil, !Z2Nat.id in Hc by lia. exact Hc. }
  destruct (aligned dst src len) eqn:Ha.
  - apply aligned_div in Ha. unfold sizeof_long in *. change 4 with (Z.of_nat 4) at 2.
    rewrite Hw by lia. do 3 f_equal. lia.
  - change 1 with (Z.of_nat 1). rewrite Hw by lia. do 3 f_equal. lia.
Qed.

(** ** The theorems *)

(** [memmove] copies correctly between overlapping blocks: whatever the order
    of the two addresses and whether it moves words or bytes, the destination ends
    up with the bytes the source had before the call and no other byte changes. *)
Theorem memmove_correct m dst src len :
  0 <= dst -> 0 <= src -> 0 <= len ->
  dst + len <= Z.of_nat (length m) -> src + len <= Z.of_nat (length m) ->
  memmove m dst src len = Done (splice (Z.to_nat dst) (take (Z.to_nat len) (drop (Z.to_nat src) m)) m).
Proof.
  intros Hd Hs Hl Hdl Hsl. unfold memmove. destruct (Z.ltb_spec dst src); [apply memcpy_up; lia|].
  assert (Hw : forall k w : nat, (Z.to_nat dst + k * w <= length m)%nat ->
    copy_down k m dst src (Z.of_nat w) = Done (splice (Z.to_nat dst) (take (k * w) (drop (Z.to_nat src) m)) m)).
  { intros k w Hk. pose proof (copy_down_ok m (Z.to_nat dst) (Z.to_nat src) w k 0 ltac:(lia) ltac:(lia)) as Hc.
    cbn [Nat.mul] in Hc. rewrite take_0, splice_nil, Nat.add_0_r, !Z2Nat.id in Hc by lia. exact Hc. }
  destruct (aligned dst src len) eqn:Ha.
  - apply aligned_div in Ha. unfold sizeof_long in *. change 4 with (Z.of_nat 4) at 2.
    rewrite Hw by lia. do 3 f_equal. lia.
  - change 1 with (Z.of_nat 1). rewrite Hw by lia. do 3 f_equal. lia.
Qed.

(** The string functions on terminated strings, which never run off the end:
    [strcmp] orders strings lexicographically by unsigned characters and is 0
    exactly for equal ones; [strcat] appends in a buffer large enough; [strrchr]
    finds the last occurrence, the terminator included, or none. *)
Theorem string_functions a b ch :
  is_str a -> is_str b -> bytes a -> bytes b ->
  (exists r, strcmp a b = Done r /\ r = lexcmp (cstr a) (cstr b) /\ (r = 0 <-> cstr a = cstr b)) /\
  ((length (cstr a) + length (cstr b) < length a)%nat ->
     exists d, strcat a b = Done d /\ cstr d = cstr a ++ cstr b /\ length d = length a) /\
  (exists r, strrchr a ch = Done r /\
     match r with
     | Some i => found_at a ch i /\ forall j, found_at a ch j -> j <= i
     | None => forall j, ~ found_at a ch j
     end).
Proof.
  intros Ha Hb Ba Bb. split; [|split].
  - exists (lexcmp (cstr a) (cstr b)). split; [by apply strcmp_ok|]. split; [done|apply lexcmp_eq].
  - intros Hl. unfold strcat. rewrite strlen_ok by done. kred. rewrite Nat2Z.id.
    rewrite strcpy_ok by (done || (rewrite length_drop; lia)). kred.
    destruct (is_str_split a Ha) as [r Hr].
    assert (Hta : take (length (cstr a)) a = cstr a) by (rewrite Hr at 2; apply take_app_length).
    rewrite Hta. eexists. split; [done|]. split.
    + rewrite app_assoc. apply cstr_app, Forall_app. split; apply Forall_cstr.
    + rewrite !length_app. cbn [length]. rewrite !length_drop. lia.
  - unfold strrchr. rewrite strlen_ok by done. kred. pose proof (length_cstr_str a Ha) as Hl.
    destruct (strrchr_from_ok (Z.to_nat (Z.of_nat (length (cstr a)) + 1)) a ch) as (r & -> & Hr); [lia|].
    exists r. split; [done|]. unfold found_at. destruct r as [k|].
    + destruct Hr as (Hk & Hs & Hmax). split; [split; [lia|done]|]. intros j [Hj Hsj].
      destruct (decide (j <= k)); [done|]. destruct (Hmax j); [lia|done].
    + intros j [Hj Hsj]. apply (Hr j); [lia|done].
Qed.

Lemma memmove_correct_witness :
  memmove [1; 2; 3; 4; 5; 6; 7; 8; 9; 10; 11; 12] 4 0 8 = Done [1; 2; 3; 4; 1; 2; 3; 4; 5; 6; 7; 8].
Proof.
  rewrite (memmove_correct [1; 2; 3; 4; 5; 6; 7; 8; 9; 10; 11; 12] 4 0 8
    ltac:(lia) ltac:(lia) ltac:(lia) ltac:(cbn; lia) ltac:(cbn; lia)). reflexivity.
Defined.

Lemma string_functions_witness :
  (exists r, strcmp [97; 47; 98; 0; 9; 9] [99; 0] = Done r /\ r = -1) /\
  (exists d, strcat [97; 47; 98; 0; 9; 9] [99; 0] = Done d /\ cstr d = [97; 47; 98; 99]).
Proof.
  destruct (string_functions [97; 47; 98; 0; 9; 9] [99; 0] 47) as [(r & H1 & H2 & _) [(d & H3 & H4 & _) _]].
  - unfold is_str. repeat constructor.
  - unfold is_str. repeat constructor.
  - repeat constructor; unfold is_byte; lia.
  - repeat constructor; unfold is_byte; lia.
  - cbn. lia.
  - split; [exists r; split; [exact H1|exact H2]|exists d; split; [exact H3|exact H4]].
Defined.
