(* ===== verification/Strtok.v ===== *)
(** * common/libc/string: strtok_r, memset and bzero

    As in Cstring a block of memory is a list whose index is the address; the string
    that is being cut up, and the pointer kept between calls, are addresses in it.
    A null pointer is [None]. *)

From S2P Require Import Prelude Cstring.

#[local] Set Warnings "-clear-no-such-hyp".

(** ** Filling memory *)

(** One assignment of [w] bytes. *)
Definition put1 (m : list Z) (dst w b : Z) : outcome (list Z) :=
  if (0 <=? dst) && (dst + w <=? Z.of_nat (length m)) then mret (splice (Z.to_nat dst) (replicate (Z.to_nat w) b) m) else Panic.

Fixpoint fill (k : nat) (i : Z) (m : list Z) (ptr w b : Z) : outcome (list Z) :=
  match k with
  | O => mret m
  | S k => m ← put1 m (ptr + i * w) w b; fill k (i + 1) m ptr w b
  end.

(** [p[i] = ch] keeps the low byte. *)
Definition memset (m : list Z) (ptr ch len : Z) : outcome (list Z) := fill (Z.to_nat len) 0 m ptr 1 (ch mod 256).

Definition bzero (m : list Z) (vblock len : Z) : outcome (list Z) :=
  if (vblock mod sizeof_long =? 0) && (len mod sizeof_long =? 0) then fill (Z.to_nat (len / sizeof_long)) 0 m vblock sizeof_long 0
  else fill (Z.to_nat len) 0 m vblock 1 0.

(** ** Words *)

(** The loop over leading separators: how far it goes. *)
Fixpoint skip_seps (s seps : list Z) : outcome Z :=
  match s with
  | [] => Panic
  | c :: s =>
      if c =? 0 then mret 0 else
      r ← strchr seps c;
      match r with Some _ => n ← skip_seps s seps; mret (n + 1) | None => mret 0 end
  end.

(** The loop over a word. *)
Fixpoint skip_word (s seps : list Z) : outcome Z :=
  match s with
  | [] => Panic
  | c :: s =>
      if c =? 0 then mret 0 else
      r ← strchr seps c;
      match r with Some _ => mret 0 | None => n ← skip_word s seps; mret (n + 1) end
  end.

(** The word, the memory and [*context]. *)
Definition strtok_r (m : list Z) (string : option Z) (seps : list Z) (context : option Z) : outcome (option Z * list Z * option Z) :=
  let context := match string with Some _ => string | None => context end in
  match context with
  | None => mret (None, m, context)
  | Some head =>
      n ← skip_seps (drop (Z.to_nat head) m) seps;
      let head := head + n in
      c ← deref (m !! Z.to_nat head);
      if c =? 0 then mret (None, m, None) else
      n ← skip_word (drop (Z.to_nat head) m) seps;
      let tail := head + n in
      c ← deref (m !! Z.to_nat tail);
      if c =? 0 then mret (Some head, m, None)
      else mret (Some head, <[Z.to_nat tail := 0]> m, Some (tail + 1))
  end.

(** All the words, as a caller goes through them: the first call has the string, the
    others have null. *)
Fixpoint strtok_all (fuel : nat) (m : list Z) (string : option Z) (seps : list Z) (context : option Z) : outcome (list (list Z) * list Z) :=
  match fuel with
  | O => Blocked
  | S fuel =>
      '(word, m, context) ← strtok_r m string seps context;
      match word with
      | None => mret ([], m)
      | Some h =>
          '(words, m') ← strtok_all fuel m None seps context;
          mret (cstr (drop (Z.to_nat h) m) :: words, m')
      end
  end.

(** ** The words of a string *)

Section Words.
Variable sep : Z -> bool.

(** The longest stretches without separators. *)
Fixpoint tokens (s : list Z) : list (list Z) :=
  match s with
  | [] => []
  | c :: s =>
      if sep c then tokens s else
      match s with
      | d :: _ => if sep d then [c] :: tokens s else match tokens s with w :: ws => (c :: w) :: ws | [] => [[c]] end
      | [] => [[c]]
      end
  end.

(** [s] starts after a word: it is empty or starts with a separator. *)
Definition at_end (s : list Z) : Prop := match s with [] => True | c :: _ => sep c = true end.

Lemma tokens_skip a s : Forall (fun c => sep c = true) a -> tokens (a ++ s) = tokens s.
Proof. induction 1 as [|c a Hc _ IH]; cbn [app tokens]; [done|]. by rewrite Hc. Qed.

Lemma tokens_word w s : w <> [] -> Forall (fun c => sep c = false) w -> at_end s -> tokens (w ++ s) = w :: tokens s.
Proof.
  intros Hne Hw Hs. induction Hw as [|c w Hc Hw IH]; [done|]. cbn [app tokens]. rewrite Hc. destruct w as [|d w].
  - destruct s as [|d s]; [done|]. cbn [app]. cbn in Hs. by rewrite Hs.
  - cbn [app]. rewrite (Forall_inv Hw). change (d :: w ++ s) with ((d :: w) ++ s). by rewrite IH.
Qed.
End Words.

Definition is_sep (seps : list Z) (c : Z) : bool := bool_decide (c ∈ cstr seps).

Lemma strchr_sep seps c :
  is_str seps -> c <> 0 -> exists r, strchr seps c = Done r /\ is_sep seps c = match r with Some _ => true | None => false end.
Proof.
  intros Hs Hc. unfold is_sep. induction seps as [|x seps IH]; [by apply not_elem_of_nil in Hs|]. cbn [strchr cstr].
  apply is_str_cons in Hs as [->|[Hx Hs]].
  - rewrite Z.eqb_refl, (proj2 (Z.eqb_neq 0 c)) by auto. by exists None.
  - rewrite (proj2 (Z.eqb_neq x 0)) by done. destruct (Z.eqb_spec x c) as [->|Hne].
    + exists (Some 0). split; [done|]. apply bool_decide_true. left.
    + destruct (IH Hs) as (r & -> & Hr). kred. eexists. split; [done|].
      rewrite (bool_decide_ext _ (c ∈ cstr seps)) by (rewrite elem_of_cons; naive_solver). rewrite Hr. by destruct r.
Qed.

(** Where the two loops stop. *)
Lemma skip_seps_ok s seps :
  is_str s -> is_str seps -> exists a b, skip_seps s seps = Done (Z.of_nat (length a)) /\ cstr s = a ++ b /\
    cstr (drop (length a) s) = b /\ is_str (drop (length a) s) /\ Forall (fun c => is_sep seps c = true) a /\
    match b with [] => True | c :: _ => is_sep seps c = false end.
Proof.
  intros Hs Hseps. induction s as [|c s IH]; [by apply not_elem_of_nil in Hs|]. cbn [skip_seps cstr].
  pose proof Hs as Hs'. apply is_str_cons in Hs' as [->|[Hc Hs']]; [by exists [], []|].
  rewrite (proj2 (Z.eqb_neq c 0)) by done. destruct (strchr_sep seps c Hseps Hc) as (r & -> & Hr). kred. destruct r as [i|].
  - destruct (IH Hs') as (a & b & -> & Ha & Hb & Hd & Hall & Hend). kred. exists (c :: a), b. cbn [length drop].
    split; [f_equal; lia|]. split; [by rewrite Ha|]. split_and!; try done. by constructor.
  - exists [], (c :: cstr s). cbn. rewrite (proj2 (Z.eqb_neq c 0)) by done. by split_and!.
Qed.

Lemma skip_word_ok s seps :
  is_str s -> is_str seps -> exists a b, skip_word s seps = Done (Z.of_nat (length a)) /\ cstr s = a ++ b /\
    cstr (drop (length a) s) = b /\ is_str (drop (length a) s) /\ Forall (fun c => is_sep seps c = false) a /\
    at_end (is_sep seps) b.
Proof.
  intros Hs Hseps. induction s as [|c s IH]; [by apply not_elem_of_nil in Hs|]. cbn [skip_word cstr].
  pose proof Hs as Hs'. apply is_str_cons in Hs' as [->|[Hc Hs']]; [by exists [], []|].
  rewrite (proj2 (Z.eqb_neq c 0)) by done. destruct (strchr_sep seps c Hseps Hc) as (r & -> & Hr). kred. destruct r as [i|].
  - exists [], (c :: cstr s). cbn. rewrite (proj2 (Z.eqb_neq c 0)) by done. by split_and!.
  - destruct (IH Hs') as (a & b & -> & Ha & Hb & Hd & Hall & Hend). kred. exists (c :: a), b. cbn [length drop].
    split; [f_equal; lia|]. split; [by rewrite Ha|]. split_and!; try done. by constructor.
Qed.

(** The character at the start of a string. *)
Lemma first_char p m :
  is_str (drop p m) -> exists c, m !! p = Some c /\
    match cstr (drop p m) with
    | [] => c = 0
    | x :: b => c = x /\ c <> 0 /\ cstr (drop (S p) m) = b /\ is_str (drop (S p) m)
    end.
Proof.
  intros Hs. destruct (m !! p) as [c|] eqn:Hc.
  - exists c. split; [done|]. rewrite (drop_S m c p Hc) in Hs |- *. cbn [cstr].
    apply is_str_cons in Hs as [->|[Hn Hs]]; [done|]. by rewrite (proj2 (Z.eqb_neq c 0)).
  - exfalso. apply lookup_ge_None_1 in Hc. rewrite drop_ge in Hs by done. by apply not_elem_of_nil in Hs.
Qed.

(** Ending a word with a null. *)
Lemma word_cut h w m b :
  (h + length w < length m)%nat -> cstr (drop h m) = w ++ b -> cstr (drop h (<[(h + length w)%nat := 0]> m)) = w.
Proof.
  intros Hl Hw. assert (Hz : Forall (fun c => c <> 0) w).
  { pose proof (Forall_cstr (drop h m)) as Hall. rewrite Hw in Hall. by apply Forall_app in Hall as [? _]. }
  assert (Hsplit : drop h (<[(h + length w)%nat := 0]> m) = w ++ 0 :: drop (S (h + length w)) m); [|by rewrite Hsplit, cstr_app].
  apply list_eq. intros i. rewrite lookup_drop. destruct (decide (i < length w)%nat) as [Hi|Hi].
  - rewrite list_lookup_insert_ne, lookup_app_l by lia. rewrite <- lookup_drop.
    assert (Hpre : forall (s : list Z) w b i, cstr s = w ++ b -> (i < length w)%nat -> s !! i = w !! i).
    { clear. induction s as [|c s IH]; intros [|x w] b [|i] Hs Hi; cbn in *; try lia; try done;
        destruct (c =? 0); try done; injection Hs as -> Hs; [done|]. apply (IH w b); [done|lia]. }
    by apply (Hpre _ _ b).
  - rewrite lookup_app_r by lia. destruct (decide (i = length w)) as [->|Hne].
    + rewrite Nat.sub_diag, list_lookup_insert_eq by lia. done.
    + rewrite list_lookup_insert_ne by lia. destruct (i - length w)%nat as [|k] eqn:Hk; [lia|].
      etrans; [|symmetry; apply (lookup_drop m (S (h + length w)) k)]. f_equal. lia.
Qed.

Definition cuts (m seps : list Z) (p : Z) (r : option Z * list Z * option Z) : Prop :=
  match tokens (is_sep seps) (cstr (drop (Z.to_nat p) m)) with
  | [] => r = (None, m, None)
  | w :: ws => exists h m' context, r = (Some h, m', context) /\ p <= h /\ cstr (drop (Z.to_nat h) m') = w /\ length m' = length m /\
      match context with
      | None => ws = []
      | Some q => p < q /\ is_str (drop (Z.to_nat q) m') /\ tokens (is_sep seps) (cstr (drop (Z.to_nat q) m')) = ws
      end
  end.

Lemma strtok_r_ok m p seps string context :
  0 <= p -> is_str (drop (Z.to_nat p) m) -> is_str seps -> (string = Some p \/ (string = None /\ context = Some p)) ->
  exists r, strtok_r m string seps context = Done r /\ cuts m seps p r.
Proof.
  intros Hp Hs Hseps Hstr. unfold strtok_r. replace (match string with Some _ => string | None => context end) with (Some p)
    by (by destruct Hstr as [->|[-> ->]]).
  destruct (skip_seps_ok _ _ Hs Hseps) as (a & b & -> & Ha & Hb & Hd & Hall & Hend). kred.
  rewrite drop_drop in Hb, Hd. set (h := (Z.to_nat p + length a)%nat) in *.
  replace (Z.to_nat (p + Z.of_nat (length a))) with h by lia.
  destruct (first_char h m Hd) as (c & Hc & Hcb). rewrite Hc, Hb in *. kred. unfold cuts. rewrite Ha, tokens_skip by done.
  destruct b as [|x b]; [subst c; by eexists|]. destruct Hcb as (-> & Hx & _). rewrite (proj2 (Z.eqb_neq x 0)) by done.
  destruct (skip_word_ok _ _ Hd Hseps) as (w & b2 & -> & Hw & Hb2 & Hd2 & Hwall & Hwend). kred.
  rewrite drop_drop in Hb2, Hd2. replace (Z.to_nat (p + Z.of_nat (length a) + Z.of_nat (length w))) with (h + length w)%nat by lia.
  destruct (first_char _ m Hd2) as (d & Hdd & Hdb). rewrite Hdd, Hb2 in *. kred.
  assert (Hne : w <> []). { intros ->. rewrite Hb in Hw. cbn in Hw. rewrite <- Hw in Hwend. cbn [at_end] in Hwend. congruence. }
  rewrite <- Hb, Hw, (tokens_word _ w b2) by done. pose proof (lookup_lt_Some _ _ _ Hdd) as Hlt.
  destruct b2 as [|y b2].
  - subst d. eexists. split; [done|]. exists (p + Z.of_nat (length a)), m, None. split_and!; [done|lia| |done|done].
    replace (Z.to_nat (p + Z.of_nat (length a))) with h by lia. by rewrite Hw, app_nil_r.
  - destruct Hdb as (-> & Hy & Hrest & Hrs). rewrite (proj2 (Z.eqb_neq y 0)) by done. eexists. split; [done|].
    eexists _, _, _. split; [done|]. split; [lia|]. replace (Z.to_nat (p + Z.of_nat (length a))) with h by lia.
    split; [by eapply word_cut|]. split; [apply length_insert|]. split; [lia|].
    replace (Z.to_nat (p + Z.of_nat (length a) + Z.of_nat (length w) + 1)) with (S (h + length w)) by lia.
    rewrite drop_insert_lt by lia. rewrite Hrest. split; [done|]. cbn [tokens]. cbn [at_end] in Hwend. by rewrite Hwend.
Qed.

Lemma strtok_all_ok fuel m p seps string context :
  0 <= p -> is_str (drop (Z.to_nat p) m) -> is_str seps -> (string = Some p \/ (string = None /\ context = Some p)) ->
  (length m < fuel + Z.to_nat p)%nat ->
  exists m', strtok_all fuel m string seps context = Done (tokens (is_sep seps) (cstr (drop (Z.to_nat p) m)), m').
Proof.
  revert m p string context. induction fuel as [|fuel IH]; intros m p string context Hp Hs Hseps Hstr Hf.
  { exfalso. rewrite drop_ge in Hs by lia. by apply not_elem_of_nil in Hs. }
  cbn [strtok_all]. destruct (strtok_r_ok m p seps string context Hp Hs Hseps Hstr) as (r & -> & Hr). unfold cuts in Hr.
  destruct (tokens _ _) as [|w ws]; [subst r; kred; by eexists|].
  destruct Hr as (h & m1 & ctx & -> & Hph & Hw & Hlen & Hctx). kred. destruct ctx as [q|].
  - destruct Hctx as (Hq & Hqs & Hqt). destruct (IH m1 q None (Some q)) as (m' & ->); [lia|done|done|by right|lia|].
    rewrite Hqt. kred. exists m'. by rewrite Hw.
  - subst ws. destruct fuel as [|fuel].
    { exfalso. rewrite drop_ge in Hs by lia. by apply not_elem_of_nil in Hs. }
    cbn [strtok_all strtok_r]. kred. exists m1. by rewrite Hw.
Qed.

(** ** Filling *)

(** The products in the bounds, spelled out. *)
Lemma fill_bounds k i w :
  0 <= i -> 0 <= w -> 0 <= i * w /\ 0 <= Z.of_nat k * w /\ (i + Z.of_nat (S k)) * w = i * w + w + Z.of_nat k * w /\
  (i + 1) * w = i * w + w /\ (i + 1 + Z.of_nat k) * w = i * w + w + Z.of_nat k * w.
Proof. intros Hi Hw. split_and!; nia. Qed.

Lemma fill_ok k i m ptr w b :
  0 <= ptr -> 0 <= i -> 0 <= w -> ptr + (i + Z.of_nat k) * w <= Z.of_nat (length m) ->
  fill k i m ptr w b = Done (splice (Z.to_nat (ptr + i * w)) (replicate (k * Z.to_nat w) b) m).
Proof.
  revert i m. induction k as [|k IH]; intros i m Hp Hi Hw Hl; cbn [fill]; [by rewrite splice_nil|].
  destruct (fill_bounds k i w Hi Hw) as (B1 & B2 & B3 & B4 & B5). rewrite B3 in Hl.
  unfold put1. rewrite (proj2 (Z.leb_le 0 _)), (proj2 (Z.leb_le _ (Z.of_nat (length m)))) by lia. kred.
  assert (Hlen : length (splice (Z.to_nat (ptr + i * w)) (replicate (Z.to_nat w) b) m) = length m)
    by (apply length_splice; rewrite length_replicate; lia).
  rewrite IH by (rewrite ?Hlen; lia). f_equal. rewrite B4.
  replace (Z.to_nat (ptr + (i * w + w))) with (Z.to_nat (ptr + i * w) + length (replicate (Z.to_nat w) b))%nat
    by (rewrite length_replicate; lia).
  assert (Hk : Z.of_nat (k * Z.to_nat w) = Z.of_nat k * w) by (rewrite Nat2Z.inj_mul, Z2Nat.id; lia).
  rewrite splice_splice by (rewrite !length_replicate; lia). by rewrite <- replicate_add.
Qed.

Lemma fill_over k i m ptr w b :
  0 <= ptr -> 0 <= i -> 0 < w -> (0 < k)%nat -> Z.of_nat (length m) < ptr + (i + Z.of_nat k) * w -> fill k i m ptr w b = Panic.
Proof.
  revert i m. induction k as [|k IH]; intros i m Hp Hi Hw Hk Hl; cbn [fill]; [lia|].
  destruct (fill_bounds k i w Hi ltac:(lia)) as (B1 & B2 & B3 & B4 & B5). rewrite B3 in Hl. unfold put1.
  destruct (Z.leb_spec (ptr + i * w + w) (Z.of_nat (length m))) as [Hle|Hgt]; [|by rewrite andb_false_r].
  rewrite (proj2 (Z.leb_le 0 _)) by lia. kred. destruct k as [|k]; [lia|].
  apply IH; try lia. rewrite length_splice, B5 by (rewrite length_replicate; lia). lia.
Qed.

(** ** The theorems *)

(** Cutting up a string.  Called as [strtok_r] is meant to be, first with the string
    and then with null until it answers null, it gives the words of the string, the
    longest stretches without separators, in order, each a string of its own; and
    it comes to an end. *)
Theorem strtok_words m seps context :
  is_str m -> is_str seps ->
  exists m', strtok_all (S (length m)) m (Some 0) seps context = Done (tokens (is_sep seps) (cstr m), m').
Proof.
  intros Hm Hs. destruct (strtok_all_ok (S (length m)) m 0 seps (Some 0) context) as (m' & Hr); try done; [by left|lia|].
  exists m'. exact Hr.
Qed.

(** [memset] writes the low byte of [ch], and [bzero] null bytes, by words or by bytes,
    to the block and nowhere else; a block that goes past the end of the object is an
    error. *)
Theorem memset_spec m ptr ch len :
  0 <= ptr -> 0 <= len ->
  let block b := if decide (ptr + len <= Z.of_nat (length m)) then Done (splice (Z.to_nat ptr) (replicate (Z.to_nat len) b) m)
                 else if decide (len = 0) then Done m else Panic in
  memset m ptr ch len = block (ch mod 256) /\ bzero m ptr len = block 0.
Proof.
  intros Hp Hl block.
  assert (Hfill : forall k w b, 0 < w -> Z.of_nat k * w = len -> fill k 0 m ptr w b = block b).
  { intros k w b Hw Hk. subst block. cbn beta. repeat case_decide.
    - rewrite fill_ok by lia. f_equal. f_equal; [lia|f_equal; nia].
    - assert (k = 0%nat) by nia. by subst k.
    - apply fill_over; try lia; nia. }
  split; [apply Hfill; lia|]. unfold bzero. destruct ((ptr mod sizeof_long =? 0) && (len mod sizeof_long =? 0)) eqn:Ha.
  - apply andb_true_iff in Ha as [_ Ha%Z.eqb_eq]. unfold sizeof_long in *. apply Hfill; lia.
  - apply Hfill; lia.
Qed.

(** ** Witnesses *)

(** "  ls -l" and what is left of it. *)
Lemma strtok_words_witness : exists m',
  strtok_all 9 [32; 32; 108; 115; 32; 45; 108; 0] (Some 0) [32; 9; 0] None = Done ([[108; 115]; [45; 108]], m').
Proof.
  apply (strtok_words [32; 32; 108; 115; 32; 45; 108; 0] [32; 9; 0] None); unfold is_str; repeat constructor.
Defined.

Lemma memset_spec_witness : memset [1; 2; 3; 4] 1 257 2 = Done [1; 1; 1; 4] /\ bzero [1; 2; 3; 4] 0 4 = Done [0; 0; 0; 0].
Proof.
  destruct (memset_spec [1; 2; 3; 4] 1 257 2) as [-> _]; [lia|lia|].
  destruct (memset_spec [1; 2; 3; 4] 0 0 4) as [_ ->]; [lia|lia|]. done.
Defined.
