(* ===== verification/Printf.v ===== *)
(** * Formatted output

    [common/libc/printf/__printf.c] and [snprintf.c], and [atoi] of
    [common/libc/stdlib/atoi.c], which the kernel and the C library share.  A character
    is its code; a C string is memory with a terminator in it, as in [Cstring].  [va_list]
    is the list of the arguments that are left: on this machine [int], [long], [size_t]
    and pointers are one word.  Fetching an argument of another kind than the caller
    passed, and memory outside of a buffer, is [Panic].

    The state machine of [__pf_send], which looks at one character of the format at a
    time, is proved equal to a reading of the whole format as literals and conversions. *)

From Stdlib Require Import String Ascii.
From S2P Require Import Prelude Cstring.

#[local] Set Warnings "-clear-no-such-hyp".

(** The characters of a literal. *)
Definition code (a : ascii) : Z := Z.of_nat (nat_of_ascii a).
Definition codes (s : string) : list Z := code <$> list_ascii_of_string s.
(** A string literal of the source, with its terminator. *)
Definition lit (s : string) : list Z := codes s ++ [0].

(** ** The state *)

Inductive intsz := INTSZ | LONGSZ | LLONGSZ | SIZETSZ.

Inductive va_item := Word (w : Z) | Dword (w : Z) | Str (s : option (list Z)).

Definition va_word (ap : list va_item) : outcome (Z * list va_item) :=
  match ap with Word w :: ap => Done (w, ap) | _ => Panic end.
Definition va_dword (ap : list va_item) : outcome (Z * list va_item) :=
  match ap with Dword w :: ap => Done (w, ap) | _ => Panic end.
Definition va_str (ap : list va_item) : outcome (option (list Z) * list va_item) :=
  match ap with Str s :: ap => Done (s, ap) | _ => Panic end.

(** The fields of [PF] that [__pf_endfield] resets. *)
Record field := mkField {
  in_pct : bool; size : intsz; pnum : Z; sign : Z; spacing : Z; rightspc : bool; fillchar : Z;
  base : Z; baseprefix : bool; altformat : bool }.

Record PF {C : Type} := mkPF { clientdata : C; ap : list va_item; charcount : Z; fld : field }.
Arguments PF : clear implicits.
Arguments mkPF {C}.

Definition ch_space : Z := 32.
Definition ch_0 : Z := 48.
Definition ch_9 : Z := 57.
Definition ch_pct : Z := 37.

Definition __pf_endfield : field := mkField false INTSZ 0 0 0 false ch_space 0 false false.

Definition with_in_pct f := mkField true (size f) (pnum f) (sign f) (spacing f) (rightspc f) (fillchar f) (base f) (baseprefix f) (altformat f).
Definition with_size s f := mkField (in_pct f) s (pnum f) (sign f) (spacing f) (rightspc f) (fillchar f) (base f) (baseprefix f) (altformat f).
Definition with_num n s f := mkField (in_pct f) (size f) n s (spacing f) (rightspc f) (fillchar f) (base f) (baseprefix f) (altformat f).
Definition with_spacing n f := mkField (in_pct f) (size f) (pnum f) (sign f) n (rightspc f) (fillchar f) (base f) (baseprefix f) (altformat f).
Definition with_rightspc f := mkField (in_pct f) (size f) (pnum f) (sign f) (spacing f) true (fillchar f) (base f) (baseprefix f) (altformat f).
Definition with_fillchar c f := mkField (in_pct f) (size f) (pnum f) (sign f) (spacing f) (rightspc f) c (base f) (baseprefix f) (altformat f).
Definition with_base b p f := mkField (in_pct f) (size f) (pnum f) (sign f) (spacing f) (rightspc f) (fillchar f) b p (altformat f).
Definition with_altformat f := mkField (in_pct f) (size f) (pnum f) (sign f) (spacing f) (rightspc f) (fillchar f) (base f) (baseprefix f) true.

(** [strchr(set, ch)] for a character that is not the terminator. *)
Definition in_set (set : string) (ch : Z) : bool := bool_decide (ch ∈ codes set).

(** ** One field *)

Definition __pf_modifier (f : field) (ch : Z) : outcome field :=
  if ch =? code "#" then Done (with_altformat f)
  else if ch =? code "-" then Done (with_rightspc f)
  else if ch =? code "l" then Done (with_size (match size f with LONGSZ => LLONGSZ | _ => LONGSZ end) f)
  else if ch =? code "z" then Done (with_size SIZETSZ f)
  else if ch =? ch_0 then
    if 0 <? spacing f then Done (with_spacing (s32 (spacing f * 10)) f) else Done (with_fillchar ch_0 f)
  else
    _ ← KASSERT ((ch_0 <? ch) && (ch <=? ch_9));
    Done (with_spacing (s32 (s32 (spacing f * 10) + (ch - ch_0))) f).

Definition s64 (x : Z) : Z := (x + 2 ^ 63) mod 2 ^ 64 - 2 ^ 63.
Definition u64 (x : Z) : Z := x mod 2 ^ 64.

Definition __pf_getnum (f : field) (ch : Z) (ap : list va_item) : outcome (field * list va_item) :=
  if ch =? code "p" then '(w, ap) ← va_word ap; Done (with_num w (sign f) f, ap)
  else if ch =? code "d" then
    '(signednum, ap) ←
      match size f with
      | LLONGSZ => '(w, ap) ← va_dword ap; Done (s64 w, ap)
      | _ => '(w, ap) ← va_word ap; Done (s32 w, ap)
      end;
    if signednum <? 0 then Done (with_num (u64 (- signednum)) (-1) f, ap) else Done (with_num signednum (sign f) f, ap)
  else
    '(w, ap) ← match size f with LLONGSZ => va_dword ap | _ => va_word ap end;
    Done (with_num w (sign f) f, ap).

Definition __pf_setbase (f : field) (ch : Z) : field :=
  let b :=
    if (ch =? code "d") || (ch =? code "u") then 10
    else if (ch =? code "x") || (ch =? code "p") then 16
    else if ch =? code "o" then 8 else base f in
  with_base b (altformat f || (ch =? code "p") || baseprefix f) f.

(** The buffer of [__pf_printnum]. *)
Definition NUMBER_BUF_SIZE : Z := 8 * 8 / 3 + 2.

Definition digits : list Z := lit "0123456789abcdef".

(** The loop, from slot [x] down. *)
Fixpoint convert (fuel : nat) (buf : list Z) (x xnum b : Z) : outcome (list Z * Z) :=
  match fuel with
  | O => Blocked
  | S fuel =>
      if x <? 0 then Panic else
      d ← deref (digits !! Z.to_nat (xnum mod b));
      let buf := <[Z.to_nat x := d]> buf in
      let x := x - 1 in
      let xnum := xnum / b in
      if 0 <? xnum then convert fuel buf x xnum b else Done (buf, x)
  end.

Section printf.
Context {C : Type} (sendfunc : C -> list Z -> outcome C).

Definition __pf_print (pf : PF C) (txt : list Z) (len : Z) : outcome (PF C) :=
  c ← sendfunc (clientdata pf) (take (Z.to_nat len) txt);
  Done (mkPF c (ap pf) (s32 (charcount pf + len)) (fld pf)).

Fixpoint fill_loop (n : nat) (pf : PF C) : outcome (PF C) :=
  match n with
  | O => Done pf
  | S n => pf ← __pf_print pf [fillchar (fld pf)] 1; fill_loop n pf
  end.

Definition __pf_fill (pf : PF C) (spc : Z) : outcome (PF C) := fill_loop (Z.to_nat spc) pf.

Definition __pf_printstuff (pf : PF C) (prefix prefix2 stuff : list Z) : outcome (PF C) :=
  l1 ← strlen prefix; l2 ← strlen prefix2; l3 ← strlen stuff;
  let len := l1 + l2 + l3 in
  let f := fld pf in
  let spc := if len <? spacing f then spacing f - len else 0 in
  pf ← (if (0 <? spc) && negb (rightspc f) && negb (fillchar f =? ch_0) then __pf_fill pf spc else Done pf);
  pf ← __pf_print pf prefix l1;
  pf ← __pf_print pf prefix2 l2;
  pf ← (if (0 <? spc) && negb (rightspc f) && (fillchar f =? ch_0) then __pf_fill pf spc else Done pf);
  pf ← __pf_print pf stuff l3;
  if (0 <? spc) && rightspc f then __pf_fill pf spc else Done pf.

(** What is in the buffer before is not known. *)
Definition __pf_printnum (stack : list Z) (pf : PF C) : outcome (PF C) :=
  let f := fld pf in
  let x := NUMBER_BUF_SIZE - 1 in
  let buf := <[Z.to_nat x := 0]> stack in
  '(buf, x) ← convert (Z.to_nat NUMBER_BUF_SIZE) buf (x - 1) (pnum f) (base f);
  let x := x + 1 in
  let bprefix :=
    if baseprefix f && (base f =? 16) then lit "0x" else if baseprefix f && (base f =? 8) then lit "0" else lit "" in
  let sprefix := if negb (sign f =? 0) then lit "-" else lit "" in
  __pf_printstuff pf sprefix bprefix (drop (Z.to_nat x) buf).

Definition with_fld (f : field) (pf : PF C) : PF C := mkPF (clientdata pf) (ap pf) (charcount pf) f.

Definition __pf_send (stack : list Z) (pf : PF C) (ch : Z) : outcome (PF C) :=
  _ ← KASSERT (negb (ch =? 0));
  if negb (in_pct (fld pf)) && negb (ch =? ch_pct) then __pf_print pf [ch] 1
  else if negb (in_pct (fld pf)) then Done (with_fld (with_in_pct (fld pf)) pf)
  else if in_set "#-lz0123456789" ch then f ← __pf_modifier (fld pf) ch; Done (with_fld f pf)
  else if in_set "doupx" ch then
    '(f, args) ← __pf_getnum (fld pf) ch (ap pf);
    let f := __pf_setbase f ch in
    pf ← __pf_printnum stack (mkPF (clientdata pf) args (charcount pf) f);
    Done (with_fld __pf_endfield pf)
  else if ch =? code "s" then
    '(s, args) ← va_str (ap pf);
    let str := match s with Some str => str | None => lit "(null)" end in
    pf ← __pf_printstuff (mkPF (clientdata pf) args (charcount pf) (fld pf)) (lit "") (lit "") str;
    Done (with_fld __pf_endfield pf)
  else
    '(x0, args) ← (if ch =? code "c" then '(w, args) ← va_word (ap pf); Done (w mod 256, args) else Done (ch, ap pf));
    pf ← __pf_printstuff (mkPF (clientdata pf) args (charcount pf) (fld pf)) (lit "") (lit "") [x0; 0];
    Done (with_fld __pf_endfield pf).

(** The loop of [__vprintf] over the format, up to its terminator. *)
Fixpoint send_all (stack : list Z) (pf : PF C) (format : list Z) : outcome (PF C) :=
  match format with
  | [] => Panic
  | c :: format => if c =? 0 then Done pf else pf ← __pf_send stack pf c; send_all stack pf format
  end.

Definition __vprintf (stack : list Z) (client : C) (format : list Z) (args : list va_item) : outcome (Z * C) :=
  pf ← send_all stack (mkPF client args 0 __pf_endfield) format;
  Done (charcount pf, clientdata pf).
End printf.

(** ** snprintf *)

Record SNP := mkSNP { snp_buf : list Z; snp_buflen : Z; snp_bufpos : Z }.

Fixpoint __snprintf_send (snp : SNP) (data : list Z) : outcome SNP :=
  match data with
  | [] => Done snp
  | d :: data =>
      if snp_bufpos snp <? snp_buflen snp then
        if snp_bufpos snp <? Z.of_nat (length (snp_buf snp)) then
          __snprintf_send (mkSNP (<[Z.to_nat (snp_bufpos snp) := d]> (snp_buf snp)) (snp_buflen snp) (snp_bufpos snp + 1)) data
        else Panic
      else __snprintf_send snp data
  end.

Definition vsnprintf (stack buf : list Z) (len : Z) (fmt : list Z) (args : list va_item) : outcome (Z * list Z) :=
  let snp := mkSNP buf (if len =? 0 then 0 else len - 1) 0 in
  '(chars, snp) ← __vprintf __snprintf_send stack snp fmt args;
  if 0 <? len then
    if snp_bufpos snp <? Z.of_nat (length (snp_buf snp))
    then Done (chars, <[Z.to_nat (snp_bufpos snp) := 0]> (snp_buf snp)) else Panic
  else Done (chars, snp_buf snp).

Definition snprintf := vsnprintf.

(** ** atoi *)

Fixpoint skip_space (s : list Z) : outcome (list Z) :=
  match s with [] => Panic | c :: r => if (c =? ch_space) || (c =? 9) then skip_space r else Done s end.

Fixpoint atoi_digits (s : list Z) (val : Z) : outcome Z :=
  match s with
  | [] => Panic
  | c :: r =>
      if c =? 0 then Done val else
      match list_find (eq c) (codes "0123456789") with
      | None => Done val
      | Some (digit, _) => atoi_digits r (u32 (u32 (val * 10) + Z.of_nat digit))
      end
  end.

Definition atoi (s : list Z) : outcome Z :=
  s ← skip_space s;
  c ← deref (head s);
  let neg := c =? code "-" in
  let s := if neg || (c =? code "+") then tail s else s in
  val ← atoi_digits s 0;
  Done (s32 (if neg then u32 (- val) else val)).

(** ** What a format means *)

(** A numeral, most significant digit first. *)
Fixpoint numeral_rev (fuel : nat) (b n : Z) : list Z :=
  match fuel with
  | O => []
  | S fuel => n mod b :: if 0 <? n / b then numeral_rev fuel b (n / b) else []
  end.
Definition digit_char (d : Z) : Z := if d <? 10 then ch_0 + d else code "a" + (d - 10).
Definition numeral (b n : Z) : list Z := digit_char <$> rev (numeral_rev 22 b n).

Definition value (b : Z) (ds : list Z) : Z := fold_left (fun v d => v * b + d) ds 0.

(** [prefix] and [body] in a field. *)
Definition pad (f : field) (prefix body : list Z) : list Z :=
  let spc := replicate (Z.to_nat (spacing f - Z.of_nat (length (prefix ++ body)))) (fillchar f) in
  if rightspc f then prefix ++ body ++ spc
  else if fillchar f =? ch_0 then prefix ++ spc ++ body else spc ++ prefix ++ body.

(** The number that a conversion prints: its size and whether it is negative. *)
Definition signed_of (z : Z) : Z * bool := (Z.abs z, z <? 0).
Definition conv_number (sz : intsz) (c : Z) (args : list va_item) : option (Z * bool * list va_item) :=
  match args with
  | Word w :: args =>
      if c =? code "p" then Some (w, false, args)
      else match sz with LLONGSZ => None | _ => Some (if c =? code "d" then signed_of (s32 w) else (w, false), args) end
  | Dword w :: args =>
      if c =? code "p" then None
      else match sz with LLONGSZ => Some (if c =? code "d" then signed_of (s64 w) else (w, false), args) | _ => None end
  | _ => None
  end.

Definition conv_base (c : Z) : Z := if (c =? code "d") || (c =? code "u") then 10 else if c =? code "o" then 8 else 16.
Definition conv_prefix (f : field) (c : Z) : list Z :=
  if altformat f || (c =? code "p") then
    if conv_base c =? 16 then codes "0x" else if conv_base c =? 8 then codes "0" else []
  else [].

(** What one conversion prints, with the modifiers read into [f]. *)
Definition render (f : field) (c : Z) (args : list va_item) : option (list Z * list va_item) :=
  if in_set "doupx" c then
    '(n, neg, args) ← conv_number (size f) c args;
    Some (pad f ((if neg : bool then codes "-" else []) ++ conv_prefix f c) (numeral (conv_base c) n), args)
  else if c =? code "s" then
    match args with
    | Str (Some s) :: args => if bool_decide (is_str s) then Some (pad f [] (cstr s), args) else None
    | Str None :: args => Some (pad f [] (codes "(null)"), args)
    | _ => None
    end
  else if c =? code "c" then
    match args with Word w :: args => Some (pad f [] (cstr [w mod 256; 0]), args) | _ => None end
  else Some (pad f [] [c], args).

(** A format is literal characters and conversions: [%], modifiers, a character. *)
Fixpoint modifiers (f : field) (ms : list Z) : outcome field :=
  match ms with [] => Done f | m :: ms => f ← __pf_modifier f m; modifiers f ms end.

Inductive item := Literal (c : Z) | Conversion (ms : list Z) (c : Z).

(** [pending]: the modifiers since the last [%]. *)
Fixpoint items (pending : option (list Z)) (fmt : list Z) : list item :=
  match fmt with
  | [] => []
  | c :: fmt =>
      match pending with
      | None => if c =? ch_pct then items (Some []) fmt else Literal c :: items None fmt
      | Some ms => if in_set "#-lz0123456789" c then items (Some (ms ++ [c])) fmt else Conversion ms c :: items None fmt
      end
  end.

Fixpoint render_all (its : list item) (args : list va_item) : option (list Z) :=
  match its with
  | [] => Some []
  | Literal c :: its => text ← render_all its args; Some (c :: text)
  | Conversion ms c :: its =>
      match modifiers (with_in_pct __pf_endfield) ms with
      | Done f => '(t, args) ← render f c args; text ← render_all its args; Some (t ++ text)
      | _ => None
      end
  end.

(** The text of a format, when the arguments are those it asks for. *)
Definition formatted (fmt : list Z) (args : list va_item) : option (list Z) := render_all (items None fmt) args.

(** ** Numerals *)

Lemma numeral_rev_pos k b n : (0 < k)%nat -> exists ds, numeral_rev k b n = n mod b :: ds.
Proof. destruct k; [lia|]. intros _. cbn. by eexists. Qed.

Lemma length_numeral_rev k b n : (length (numeral_rev k b n) <= k)%nat.
Proof. revert n. induction k as [|k IH]; intros n; cbn; [lia|]. destruct (0 <? n / b); cbn; [specialize (IH (n / b))|]; lia. Qed.

(** More fuel than digits changes nothing. *)
Lemma numeral_rev_enough k k' b n :
  2 <= b -> 0 <= n < b ^ Z.of_nat k -> (0 < k <= k')%nat -> numeral_rev k' b n = numeral_rev k b n.
Proof.
  intros Hb. revert k' n. induction k as [|k IH]; intros k' n Hn Hk; [lia|]. destruct k' as [|k']; [lia|]. cbn.
  destruct (Z.ltb_spec 0 (n / b)) as [Hpos|]; [|done]. f_equal.
  assert (n / b < b ^ Z.of_nat k) as Hq.
  { apply Z.div_lt_upper_bound; [lia|]. rewrite <- Z.pow_succ_r, <- Nat2Z.inj_succ by lia. lia. }
  assert (0 < k)%nat by (destruct k; [cbn in Hq; lia|lia]). apply IH; [split; [apply Z.div_pos; lia|lia]|lia].
Qed.

Lemma digit_of_value d : 0 <= d < 16 -> digits !! Z.to_nat d = Some (digit_char d).
Proof.
  intros Hd.
  assert (d = 0 \/ d = 1 \/ d = 2 \/ d = 3 \/ d = 4 \/ d = 5 \/ d = 6 \/ d = 7 \/ d = 8 \/ d = 9 \/ d = 10 \/ d = 11 \/ d = 12 \/ d = 13 \/ d = 14 \/ d = 15) as Hc by lia.
  by repeat (destruct Hc as [->|Hc]; [done|]); subst.
Qed.

Definition numeral_of (k : nat) (b n : Z) : list Z := digit_char <$> rev (numeral_rev k b n).

Lemma length_numeral_of k b n : length (numeral_of k b n) = length (numeral_rev k b n).
Proof. unfold numeral_of. by rewrite length_fmap, length_rev. Qed.

(** The loop of [__pf_printnum] leaves the numeral in the slots up to [x]. *)
Lemma convert_ok fuel k buf (x : nat) n b :
  2 <= b <= 16 -> 0 <= n < b ^ Z.of_nat k -> (0 < k <= fuel)%nat -> (k <= S x)%nat -> (x < length buf)%nat ->
  let len := length (numeral_rev k b n) in
  convert fuel buf (Z.of_nat x) n b =
  Done (take (S x - len) buf ++ numeral_of k b n ++ drop (S x) buf, Z.of_nat x - Z.of_nat len).
Proof.
  intros Hb. revert k buf x n. induction fuel as [|fuel IH]; intros k buf x n Hn Hk Hx Hl; [lia|].
  destruct k as [|k]; [lia|]. cbn [convert]. rewrite (proj2 (Z.ltb_ge _ _)) by lia.
  pose proof (Z.mod_pos_bound n b ltac:(lia)) as Hm. rewrite digit_of_value by lia. cbn [deref mbind outcome_bind].
  rewrite Nat2Z.id. cbn [numeral_rev]. unfold numeral_of. cbn [numeral_rev].
  assert (n / b < b ^ Z.of_nat k) as Hq.
  { apply Z.div_lt_upper_bound; [lia|]. rewrite <- Z.pow_succ_r, <- Nat2Z.inj_succ by lia. lia. }
  assert (0 <= n / b) as Hq0 by (apply Z.div_pos; lia).
  destruct (Z.ltb_spec 0 (n / b)) as [Hpos|Hz].
  - assert (0 < k)%nat by (destruct k; [cbn in Hq; lia|lia]). destruct x as [|x]; [lia|].
    replace (Z.of_nat (S x) - 1) with (Z.of_nat x) by lia.
    rewrite (IH k _ x) by (rewrite ?length_insert; lia). pose proof (length_numeral_rev k b (n / b)) as Hlen.
    unfold numeral_of. cbn [rev length]. rewrite fmap_app. cbn [fmap list_fmap].
    rewrite (drop_S _ (digit_char (n mod b))) by (apply list_lookup_insert_eq; lia).
    rewrite drop_insert_lt, take_insert_ge by lia. rewrite <- !app_assoc. cbn [app]. do 2 f_equal. lia.
  - cbn [rev fmap list_fmap app length]. do 2 f_equal. rewrite insert_take_drop by lia.
    by replace (S x - 1)%nat with x by lia.
Qed.

Lemma numeral_rev_digits k b n : 0 < b -> Forall (fun d => 0 <= d < b) (numeral_rev k b n).
Proof.
  intros Hb. revert n. induction k as [|k IH]; intros n; cbn; [constructor|]. constructor; [by apply Z.mod_pos_bound|].
  destruct (0 <? n / b); [apply IH|constructor].
Qed.

Lemma digit_char_range d : 0 <= d < 16 -> ch_0 <= digit_char d < 128.
Proof. intros Hd. unfold digit_char. change (code "a") with 97. destruct (d <? 10); unfold ch_0; lia. Qed.

Lemma numeral_chars k b n : 0 < b <= 16 -> Forall (fun c => c <> 0) (numeral_of k b n).
Proof.
  intros Hb. unfold numeral_of. apply Forall_fmap, Forall_rev. eapply Forall_impl; [apply (numeral_rev_digits k b n); lia|].
  intros d Hd. cbn in Hd |- *. pose proof (digit_char_range d ltac:(lia)). unfold ch_0 in *. lia.
Qed.

Lemma value_snoc b ds d : value b (ds ++ [d]) = value b ds * b + d.
Proof. unfold value. by rewrite fold_left_app. Qed.

Lemma numeral_rev_value k b n : 2 <= b -> 0 <= n < b ^ Z.of_nat k -> (0 < k)%nat -> value b (rev (numeral_rev k b n)) = n.
Proof.
  intros Hb. revert n. induction k as [|k IH]; intros n Hn Hk; [lia|]. cbn [numeral_rev rev]. rewrite value_snoc.
  assert (n / b < b ^ Z.of_nat k) as Hq.
  { apply Z.div_lt_upper_bound; [lia|]. rewrite <- Z.pow_succ_r, <- Nat2Z.inj_succ by lia. lia. }
  pose proof (Z.div_pos n b ltac:(lia) ltac:(lia)) as Hq0. pose proof (Z.div_mod n b ltac:(lia)) as Hdm.
  destruct (Z.ltb_spec 0 (n / b)).
  - rewrite IH; [lia|lia|]. destruct k; [cbn in Hq; lia|lia].
  - cbn. lia.
Qed.

(** No leading zero. *)
Lemma numeral_rev_last k b n :
  2 <= b -> 0 <= n < b ^ Z.of_nat k -> (0 < k)%nat -> 0 < n -> exists d ds, rev (numeral_rev k b n) = d :: ds /\ d <> 0.
Proof.
  intros Hb. revert n. induction k as [|k IH]; intros n Hn Hk Hpos; [lia|]. cbn [numeral_rev rev].
  pose proof (Z.div_mod n b ltac:(lia)) as Hdm. pose proof (Z.div_pos n b ltac:(lia) ltac:(lia)) as Hq0.
  destruct (Z.ltb_spec 0 (n / b)).
  - assert (n / b < b ^ Z.of_nat k) as Hq.
    { apply Z.div_lt_upper_bound; [lia|]. rewrite <- Z.pow_succ_r, <- Nat2Z.inj_succ by lia. lia. }
    destruct (IH (n / b)) as (d&ds&E&Hd); [lia| |lia|]; [destruct k; [cbn in Hq; lia|lia]|]. rewrite E. by exists d, (ds ++ [n mod b]).
  - exists (n mod b), []. split; [done|]. intros E. rewrite E in Hdm. assert (n / b = 0) by lia. lia.
Qed.

(** Every 64-bit number fits in 22 digits, in the three bases. *)
Lemma fits_22 b n : (b = 8 \/ b = 10 \/ b = 16) -> 0 <= n < 2 ^ 64 -> 2 <= b <= 16 /\ 0 <= n < b ^ Z.of_nat 22.
Proof.
  intros Hb Hn. change (Z.of_nat 22) with 22.
  destruct Hb as [-> |[-> | ->]]; split; lia.
Qed.

(** ** Sending the text *)

(** What [__vprintf] may ask of a [sendfunc]: how the text is cut makes no difference. *)
Class Stream {C} (send : C -> list Z -> outcome C) : Prop := {
  stream_nil c : send c [] = Done c;
  stream_app c a b : send c (a ++ b) = send c a ≫= fun c => send c b }.

Lemma cstr_codes (s : string) : Forall (fun c => c <> 0) (codes s) -> is_str (lit s) /\ cstr (lit s) = codes s.
Proof.
  intros Hs. unfold lit, is_str. split; [apply elem_of_app; right; by apply list_elem_of_singleton|]. by apply cstr_app.
Qed.

Section stream.
Context {C : Type} (send : C -> list Z -> outcome C) `{!Stream send}.

(** All that a sequence of prints does. *)
Definition emit (pf : PF C) (t : list Z) : outcome (PF C) :=
  c ← send (clientdata pf) t; Done (mkPF c (ap pf) (s32 (charcount pf + Z.of_nat (length t))) (fld pf)).

Definition ranged (pf : PF C) : Prop := - 2 ^ 31 <= charcount pf < 2 ^ 31.

Lemma emit_nil pf : ranged pf -> emit pf [] = Done pf.
Proof.
  intros Hr. unfold emit. rewrite stream_nil. cbn. rewrite Z.add_0_r, s32_small by exact Hr. by destruct pf.
Qed.

Lemma emit_app pf a b : emit pf (a ++ b) = emit pf a ≫= fun pf => emit pf b.
Proof.
  unfold emit. rewrite stream_app. destruct (send (clientdata pf) a) as [c| |]; [|done|done]. cbn.
  rewrite s32_add, length_app. destruct (send c b); [|done|done]. cbn. do 3 f_equal. lia.
Qed.

Lemma s32_range x : - 2 ^ 31 <= s32 x < 2 ^ 31.
Proof. unfold s32. pose proof (Z.mod_pos_bound (x + 2 ^ 31) (2 ^ 32)). lia. Qed.

Lemma emit_keeps pf t pf' : emit pf t = Done pf' -> ap pf' = ap pf /\ fld pf' = fld pf /\ ranged pf'.
Proof. unfold emit. intros H. destruct (send _ _); [|done|done]. injection H as <-. split; [done|]. split; [done|]. apply s32_range. Qed.

Lemma print_emit pf txt len : 0 <= len <= Z.of_nat (length txt) -> __pf_print send pf txt len = emit pf (take (Z.to_nat len) txt).
Proof.
  intros Hl. unfold __pf_print, emit. destruct (send _ _); [|done|done]. cbn. rewrite length_take. do 3 f_equal. lia.
Qed.

Lemma print_str pf s : is_str s -> __pf_print send pf s (Z.of_nat (length (cstr s))) = emit pf (cstr s).
Proof.
  intros Hs. rewrite print_emit by (pose proof (length_cstr_str s Hs); lia). f_equal. rewrite Nat2Z.id.
  destruct (is_str_split s Hs) as [r Hr]. rewrite Hr at 2. by rewrite take_app_length.
Qed.

Lemma fill_emit n pf : ranged pf -> fill_loop send n pf = emit pf (replicate n (fillchar (fld pf))).
Proof.
  revert pf. induction n as [|n IH]; intros pf Hr; [by rewrite emit_nil|].
  cbn [fill_loop replicate]. rewrite (print_emit pf [_] 1) by (cbn; lia). change (take (Z.to_nat 1) [fillchar (fld pf)]) with [fillchar (fld pf)].
  change (fillchar (fld pf) :: replicate n (fillchar (fld pf))) with ([fillchar (fld pf)] ++ replicate n (fillchar (fld pf))).
  rewrite emit_app. destruct (emit pf [_]) as [pf'| |] eqn:E; [|done|done]. cbn.
  apply emit_keeps in E as (_&Ef&Hr'). by rewrite IH, Ef.
Qed.

(** Padding, when it is asked for at this place. *)
Lemma fill_if (cond : bool) pf spc f :
  ranged pf -> fld pf = f -> (if cond && (0 <? spc) then __pf_fill send pf spc else Done pf) =
  emit pf (if cond then replicate (Z.to_nat spc) (fillchar f) else []).
Proof.
  intros Hr <-. destruct cond; cbn [andb]; [|by rewrite emit_nil]. destruct (Z.ltb_spec 0 spc).
  - unfold __pf_fill. by rewrite fill_emit.
  - replace (Z.to_nat spc) with 0%nat by lia. by rewrite emit_nil.
Qed.

Lemma emit_bind pf a (k : PF C -> outcome (PF C)) b :
  ranged pf -> (forall pf', fld pf' = fld pf -> ranged pf' -> k pf' = emit pf' b) -> (emit pf a ≫= k) = emit pf (a ++ b).
Proof.
  intros Hr Hk. rewrite emit_app. destruct (emit pf a) as [pf'| |] eqn:E; [|done|done]. cbn.
  apply emit_keeps in E as (_&?&?). by apply Hk.
Qed.

Lemma printstuff_emit pf p1 p2 s :
  ranged pf -> is_str p1 -> is_str p2 -> is_str s ->
  __pf_printstuff send pf p1 p2 s = emit pf (pad (fld pf) (cstr p1 ++ cstr p2) (cstr s)).
Proof.
  intros Hr H1 H2 H3. unfold __pf_printstuff. rewrite !strlen_ok by done. cbn [mbind outcome_bind].
  set (len := Z.of_nat _ + _ + _). set (spc := if len <? _ then _ else 0). unfold pad.
  assert (Z.to_nat (spacing (fld pf) - Z.of_nat (length ((cstr p1 ++ cstr p2) ++ cstr s))) = Z.to_nat spc) as ->.
  { rewrite !length_app. subst spc. destruct (Z.ltb_spec len (spacing (fld pf))); subst len; lia. }
  set (f := fld pf). set (l := replicate (Z.to_nat spc) (fillchar f)).
  assert ((if rightspc f then (cstr p1 ++ cstr p2) ++ cstr s ++ l
           else if fillchar f =? ch_0 then (cstr p1 ++ cstr p2) ++ l ++ cstr s else l ++ (cstr p1 ++ cstr p2) ++ cstr s) =
    (if negb (rightspc f) && negb (fillchar f =? ch_0) then l else []) ++ cstr p1 ++ cstr p2 ++
    (if negb (rightspc f) && (fillchar f =? ch_0) then l else []) ++ cstr s ++ (if rightspc f then l else [])) as ->.
  { destruct (rightspc f), (fillchar f =? ch_0); cbn; rewrite <- ?app_assoc, ?app_nil_r; done. }
  rewrite <- !andb_assoc, !(andb_comm (0 <? spc)), (fill_if _ pf spc f) by done. fold l.
  apply emit_bind; [done|]. intros pf1 Ef1 Hr1. rewrite print_str by done.
  apply emit_bind; [done|]. intros pf2 Ef2 Hr2. rewrite print_str by done.
  apply emit_bind; [done|]. intros pf3 Ef3 Hr3. rewrite (fill_if _ pf3 spc f) by (done || (subst f; congruence)). fold l.
  apply emit_bind; [done|]. intros pf4 Ef4 Hr4. rewrite print_str by done.
  apply emit_bind; [done|]. intros pf5 Ef5 Hr5. by rewrite (fill_if _ pf5 spc f) by (done || (subst f; congruence)).
Qed.

Definition sign_text (s : Z) : list Z := if negb (s =? 0) then codes "-" else [].
Definition base_text (p : bool) (b : Z) : list Z :=
  if p && (b =? 16) then codes "0x" else if p && (b =? 8) then codes "0" else [].

Lemma printnum_emit stack pf :
  let f := fld pf in
  ranged pf -> length stack = 23%nat -> (base f = 8 \/ base f = 10 \/ base f = 16) -> 0 <= pnum f < 2 ^ 64 ->
  __pf_printnum send stack pf = emit pf (pad f (sign_text (sign f) ++ base_text (baseprefix f) (base f)) (numeral (base f) (pnum f))).
Proof.
  intros f Hr Hs Hb Hn. destruct (fits_22 _ _ Hb Hn) as [Hb' Hn'].
  unfold __pf_printnum. fold f. change (NUMBER_BUF_SIZE - 1 - 1) with (Z.of_nat 21). change (Z.to_nat (NUMBER_BUF_SIZE - 1)) with 22%nat.
  change (Z.to_nat NUMBER_BUF_SIZE) with 23%nat.
  rewrite (convert_ok 23 22 _ 21 (pnum f) (base f)) by (rewrite ?length_insert; lia). cbn [mbind outcome_bind].
  pose proof (length_numeral_rev 22 (base f) (pnum f)) as Hlen. set (len := length (numeral_rev 22 (base f) (pnum f))) in *.
  assert (drop (Z.to_nat (Z.of_nat 21 - Z.of_nat len + 1))
    (take (22 - len) (<[22%nat := 0]> stack) ++ numeral_of 22 (base f) (pnum f) ++ drop 22 (<[22%nat := 0]> stack)) =
    numeral_of 22 (base f) (pnum f) ++ [0]) as ->.
  { replace (Z.to_nat (Z.of_nat 21 - Z.of_nat len + 1)) with (22 - len)%nat by lia.
    rewrite drop_app_length' by (rewrite length_take, length_insert; lia). f_equal.
    rewrite (drop_S _ 0) by (apply list_lookup_insert_eq; lia). by rewrite drop_ge by (rewrite length_insert; lia). }
  assert (is_str (numeral_of 22 (base f) (pnum f) ++ [0])) as Hstr
    by (apply elem_of_app; right; by apply list_elem_of_singleton).
  assert (cstr (numeral_of 22 (base f) (pnum f) ++ [0]) = numeral (base f) (pnum f)) as Hnum
    by (rewrite cstr_app by (apply numeral_chars; lia); done).
  assert (forall s, s = "0x"%string \/ s = "0"%string \/ s = "-"%string \/ s = ""%string -> is_str (lit s) /\ cstr (lit s) = codes s) as Hlit.
  { intros s Hsn. apply cstr_codes. destruct Hsn as [-> |[-> |[-> | ->]]]; by repeat constructor. }
  unfold sign_text, base_text.
  destruct (negb (sign f =? 0)), (baseprefix f && (base f =? 16)), (baseprefix f && (base f =? 8));
    rewrite printstuff_emit by (done || (apply Hlit; auto)); fold f; rewrite Hnum;
    repeat match goal with |- context [cstr (lit ?s)] => rewrite (proj2 (Hlit s ltac:(auto))) end; done.
Qed.
End stream.

(** ** One conversion *)

(** The arguments are what the machine can hold. *)
Definition va_ok (v : va_item) : Prop :=
  match v with Word w => 0 <= w < 2 ^ 32 | Dword w => 0 <= w < 2 ^ 64 | Str _ => True end.

(** A field of which only modifiers have been read. *)
Definition fresh (f : field) : Prop := in_pct f = true /\ sign f = 0 /\ baseprefix f = false.

Lemma in_doupx c : in_set "doupx" c = true -> c = 100 \/ c = 111 \/ c = 117 \/ c = 112 \/ c = 120.
Proof.
  intros H. apply bool_decide_eq_true in H.
  change (codes "doupx") with [100; 111; 117; 112; 120] in H. rewrite !elem_of_cons, elem_of_nil in H. tauto.
Qed.

Lemma in_modifiers c : in_set "#-lz0123456789" c = true -> c = 35 \/ c = 45 \/ c = 108 \/ c = 122 \/ 48 <= c <= 57.
Proof.
  intros H. apply bool_decide_eq_true in H.
  change (codes "#-lz0123456789") with [35; 45; 108; 122; 48; 49; 50; 51; 52; 53; 54; 55; 56; 57] in H.
  rewrite !elem_of_cons, elem_of_nil in H. lia.
Qed.

Lemma modifier_ok f c : in_set "#-lz0123456789" c = true -> fresh f -> exists f', __pf_modifier f c = Done f' /\ fresh f'.
Proof.
  unfold fresh. intros Hc Hf. apply in_modifiers in Hc. unfold __pf_modifier.
  change (code "#") with 35. change (code "-") with 45. change (code "l") with 108. change (code "z") with 122. unfold ch_0, ch_9.
  repeat match goal with |- context [c =? ?k] => destruct (Z.eqb_spec c k);
    [try destruct (0 <? spacing f); eexists; (split; [reflexivity|]); destruct Hf as (?&?&?); done|] end.
  assert ((48 <? c) && (c <=? 57) = true) as -> by (apply andb_true_iff; split; [apply Z.ltb_lt|apply Z.leb_le]; lia).
  eexists. split; [reflexivity|]. by destruct Hf as (?&?&?).
Qed.

Lemma s64_range x : - 2 ^ 63 <= s64 x < 2 ^ 63.
Proof. unfold s64. pose proof (Z.mod_pos_bound (x + 2 ^ 63) (2 ^ 64)). lia. Qed.

Lemma u64_small x : 0 <= x < 2 ^ 64 -> u64 x = x.
Proof. apply Z.mod_small. Qed.

(** The sign and the size of a signed number. *)
Lemma signed_ok z f (args : list va_item) : - 2 ^ 63 <= z < 2 ^ 63 -> fresh f ->
  (if z <? 0 then Done (with_num (u64 (- z)) (-1) f, args) else Done (with_num z (sign f) f, args)) =
  Done (with_num (signed_of z).1 (if (signed_of z).2 then -1 else 0) f, args) /\ 0 <= (signed_of z).1 < 2 ^ 64.
Proof.
  intros Hz (_&Hs&_). unfold signed_of. cbn [fst snd]. split; [|lia]. destruct (Z.ltb_spec z 0).
  - rewrite u64_small by lia. do 3 f_equal. lia.
  - rewrite Hs. do 3 f_equal. lia.
Qed.

Lemma getnum_ok f c args n neg args' :
  in_set "doupx" c = true -> fresh f -> Forall va_ok args -> conv_number (size f) c args = Some (n, neg, args') ->
  __pf_getnum f c args = Done (with_num n (if (neg : bool) then -1 else 0) f, args') /\ 0 <= n < 2 ^ 64 /\ Forall va_ok args'.
Proof.
  intros Hc Hf Hargs Hn. destruct args as [|v args]; [done|]. apply Forall_cons in Hargs as [Hv Hargs]. pose proof Hf as (_&Hsg&_).
  unfold __pf_getnum, conv_number in *. change (code "p") with 112 in *. change (code "d") with 100 in *.
  assert (forall z, Some (signed_of z, args) = Some (n, neg, args') -> n = (signed_of z).1 /\ neg = (signed_of z).2 /\ args' = args)
    as Hinj by (unfold signed_of; by intros z [= <- <- <-]).
  destruct v as [w|w|s]; [| |done]; cbn in Hv;
    destruct (Z.eqb_spec c 112) as [->|Hp]; try done; cbn [va_word va_dword mbind outcome_bind].
  - injection Hn as <- <- <-. rewrite Hsg. split; [done|]. split; [lia|done].
  - pose proof (signed_ok (s32 w) f args ltac:(pose proof (s32_range w); lia) Hf) as [Eq Hrg].
    destruct (size f); try done; destruct (c =? 100); cbn [mbind outcome_bind];
      try (apply Hinj in Hn as (->&->&->); rewrite Eq; done); injection Hn as <- <- <-; rewrite Hsg; (split; [done|split; [lia|done]]).
  - pose proof (signed_ok (s64 w) f args ltac:(pose proof (s64_range w); lia) Hf) as [Eq Hrg].
    destruct (size f); try done; destruct (c =? 100); cbn [mbind outcome_bind];
      try (apply Hinj in Hn as (->&->&->); rewrite Eq; done); injection Hn as <- <- <-; rewrite Hsg; (split; [done|split; [lia|done]]).
Qed.

Section vprintf.
Context {C : Type} (send : C -> list Z -> outcome C) `{!Stream send}.
Context (stack : list Z) (stack_size : length stack = 23%nat).

(** The end of a conversion that prints [t]. *)
Definition finish (c : C) (count : Z) (t : list Z) (args : list va_item) : outcome (PF C) :=
  c ← send c t; Done (mkPF c args (s32 (count + Z.of_nat (length t))) __pf_endfield).

Lemma emit_finish c args count f t :
  (pf ← emit send (mkPF c args count f) t; Done (with_fld __pf_endfield pf)) = finish c count t args.
Proof. unfold emit, finish. cbn. by destruct (send c t). Qed.

Lemma lit_ok s : Forall (fun c => c <> 0) (codes s) -> is_str (lit s) /\ cstr (lit s) = codes s.
Proof. apply cstr_codes. Qed.

Lemma send_number c args count f ch t args' :
  in_set "doupx" ch = true -> fresh f -> Forall va_ok args -> - 2 ^ 31 <= count < 2 ^ 31 ->
  render f ch args = Some (t, args') -> in_set "#-lz0123456789" ch = false ->
  __pf_send send stack (mkPF c args count f) ch = finish c count t args' /\ Forall va_ok args'.
Proof.
  intros Hch Hf Hargs Hct Hren Hnm. unfold render in Hren. rewrite Hch in Hren.
  destruct (conv_number (size f) ch args) as [[[n neg] args1]|] eqn:En; [|done]. cbn in Hren. injection Hren as <- <-.
  destruct (getnum_ok _ _ _ _ _ _ Hch Hf Hargs En) as (Eg&Hn&Hargs').
  split; [|done]. unfold __pf_send. cbn [fld ap clientdata charcount]. destruct (Hf) as (Hin&_&Hbp). rewrite Hin, Hnm, Hch, Eg.
  apply in_doupx in Hch.
  assert (negb (ch =? 0) = true) as -> by (apply negb_true_iff, Z.eqb_neq; lia). cbn [KASSERT mbind outcome_bind negb andb].
  set (g := __pf_setbase (with_num n (if neg then -1 else 0) f) ch).
  assert (base g = conv_base ch /\ pnum g = n /\ base_text (baseprefix g) (base g) = conv_prefix f ch /\
    sign_text (sign g) = (if neg then codes "-" else []) /\ (conv_base ch = 8 \/ conv_base ch = 10 \/ conv_base ch = 16))
    as (Eb&En'&Et&Es&Hb).
  { unfold g, base_text, conv_prefix, sign_text, conv_base, __pf_setbase. cbn. rewrite Hbp, orb_false_r.
    destruct Hch as [->|[->|[->|[->| ->]]]]; cbn; destruct (altformat f), neg; cbn; auto 10. }
  rewrite printnum_emit by (cbn [fld]; try done; rewrite ?Eb, ?En'; done || exact Hct). cbn [fld].
  rewrite Et, Es, Eb, En', emit_finish. done.
Qed.

Lemma send_conv c args count f ch t args' :
  fresh f -> Forall va_ok args -> - 2 ^ 31 <= count < 2 ^ 31 -> ch <> 0 -> in_set "#-lz0123456789" ch = false ->
  render f ch args = Some (t, args') ->
  __pf_send send stack (mkPF c args count f) ch = finish c count t args' /\ Forall va_ok args'.
Proof.
  intros Hf Hargs Hct H0 Hnm Hren. destruct (in_set "doupx" ch) eqn:Hch; [by apply (send_number c args count f ch t args')|].
  unfold render in Hren. rewrite Hch in Hren. destruct (Hf) as (Hin&_&_).
  unfold __pf_send. cbn [fld ap clientdata charcount]. rewrite Hin, Hnm, Hch, (proj2 (Z.eqb_neq ch 0)) by done.
  cbn [KASSERT mbind outcome_bind negb andb]. destruct (lit_ok ""%string) as [Hs0 Hc0]; [constructor|].
  assert (forall args s, is_str s -> (pf ← __pf_printstuff send (mkPF c args count f) (lit "") (lit "") s; Done (with_fld __pf_endfield pf)) =
    finish c count (pad f [] (cstr s)) args) as Hstuff.
  { intros a s Hs. rewrite printstuff_emit by (done || exact Hct). rewrite Hc0. cbn [fld]. by rewrite emit_finish. }
  destruct (ch =? code "s") eqn:Es.
  - destruct args as [|[w|w|[s|]] args]; try done; apply Forall_cons in Hargs as [_ Hargs]; cbn [va_str mbind outcome_bind].
    + case_bool_decide; [|done]. injection Hren as <- <-. split; [by apply Hstuff|done].
    + injection Hren as <- <-. destruct (lit_ok "(null)"%string) as [Hs Hc]; [by repeat constructor|]. rewrite Hstuff, Hc by done. done.
  - destruct (ch =? code "c").
    + destruct args as [|[w|w|s] args]; try done. apply Forall_cons in Hargs as [_ Hargs]. injection Hren as <- <-.
      cbn [va_word mbind outcome_bind]. split; [|done]. apply Hstuff. apply elem_of_cons. right. by apply list_elem_of_singleton.
    + injection Hren as <- <-. cbn [mbind outcome_bind]. split; [|done]. rewrite Hstuff.
      * cbn [cstr]. by rewrite (proj2 (Z.eqb_neq ch 0)).
      * apply elem_of_cons. right. by apply list_elem_of_singleton.
Qed.

Lemma modifiers_snoc f ms m : modifiers f (ms ++ [m]) = f ← modifiers f ms; __pf_modifier f m.
Proof.
  revert f. induction ms as [|x ms IH]; intros f; cbn; [by destruct (__pf_modifier f m)|].
  destruct (__pf_modifier f x); cbn; [apply IH|done|done].
Qed.

Definition field_at (pending : option (list Z)) : outcome field :=
  match pending with None => Done __pf_endfield | Some ms => modifiers (with_in_pct __pf_endfield) ms end.

(** The rest of the format, from inside or outside of a conversion. *)
Lemma send_all_ok fmt r pending f c args count text :
  Forall (fun ch => ch <> 0) fmt -> Forall va_ok args -> - 2 ^ 31 <= count < 2 ^ 31 ->
  field_at pending = Done f -> (pending <> None -> fresh f) -> render_all (items pending fmt) args = Some text ->
  (pf ← send_all send stack (mkPF c args count f) (fmt ++ 0 :: r); Done (charcount pf, clientdata pf)) =
  (c ← send c text; Done (s32 (count + Z.of_nat (length text)), c)).
Proof.
  revert pending f c args count text. induction fmt as [|ch fmt IH]; intros pending f c args count text Hz Hargs Hct Hfa Hfr Hren.
  { cbn in Hren. assert (text = []) as -> by (by destruct pending; injection Hren as <-).
    cbn. rewrite stream_nil. cbn. by rewrite Z.add_0_r, s32_small. }
  apply Forall_cons in Hz as [Hch Hz]. cbn [app send_all]. rewrite (proj2 (Z.eqb_neq ch 0)) by done.
  destruct pending as [ms|]; cbn [items] in Hren.
  - specialize (Hfr ltac:(done)). destruct (in_set "#-lz0123456789" ch) eqn:Hm.
    + destruct (modifier_ok f ch Hm Hfr) as (f'&Ef&Hf'). unfold __pf_send. cbn [fld]. destruct (Hfr) as (Hin&_).
      rewrite Hin, Hm, (proj2 (Z.eqb_neq ch 0)), Ef by done. cbn [KASSERT mbind outcome_bind negb andb with_fld].
      apply (IH (Some (ms ++ [ch]))); try done. cbn in Hfa |- *. by rewrite modifiers_snoc, Hfa.
    + cbn [render_all] in Hren. cbn in Hfa. rewrite Hfa in Hren.
      destruct (render f ch args) as [[t args']|] eqn:Et; [|done]. cbn in Hren.
      destruct (render_all (items None fmt) args') as [text'|] eqn:Er; [|done]. injection Hren as <-.
      destruct (send_conv c args count f ch t args') as [E Hargs']; try done. rewrite E. unfold finish.
      rewrite stream_app. destruct (send c t) as [c1| |]; [|done|done]. cbn [mbind outcome_bind].
      rewrite (IH None __pf_endfield c1 args' _ text') by (done || apply s32_range). rewrite s32_add, length_app.
      destruct (send c1 text'); [|done|done]. cbn. do 3 f_equal. lia.
  - cbn in Hfa. injection Hfa as <-. unfold __pf_send. cbn [fld in_pct __pf_endfield].
    rewrite (proj2 (Z.eqb_neq ch 0)) by done. cbn [KASSERT mbind outcome_bind negb andb].
    destruct (Z.eqb_spec ch ch_pct) as [->|Hp]; cbn [negb].
    + apply (IH (Some [])); done.
    + cbn [render_all] in Hren. destruct (render_all (items None fmt) args) as [text'|] eqn:Er; [|done]. injection Hren as <-.
      rewrite print_emit by (cbn; lia). change (take (Z.to_nat 1) [ch]) with [ch]. unfold emit. cbn [clientdata].
      change (ch :: text') with ([ch] ++ text'). rewrite stream_app. destruct (send c [ch]) as [c1| |]; [|done|done]. cbn [mbind outcome_bind ap charcount fld].
      rewrite (IH None __pf_endfield c1 args _ text') by (done || apply s32_range). rewrite s32_add, length_app.
      destruct (send c1 text'); [|done|done]. cbn. do 3 f_equal. lia.
Qed.

Lemma vprintf_ok c fmt r args text :
  Forall (fun ch => ch <> 0) fmt -> Forall va_ok args -> formatted fmt args = Some text ->
  __vprintf send stack c (fmt ++ 0 :: r) args = (c ← send c text; Done (s32 (Z.of_nat (length text)), c)).
Proof. intros Hz Hargs Ht. unfold __vprintf. rewrite (send_all_ok fmt r None __pf_endfield c args 0 text) by done. done. Qed.
End vprintf.

(** ** The buffer of snprintf *)

#[export] Instance snprintf_stream : Stream __snprintf_send.
Proof.
  split; [done|]. intros c a. revert c. induction a as [|x a IH]; intros c b; [done|]. cbn.
  destruct (_ <? snp_buflen c); [|apply IH]. destruct (_ <? Z.of_nat _); [apply IH|done].
Qed.

(** What there is room for is written, one character after the other. *)
Lemma snprintf_send_ok t buf (n pos : nat) :
  (pos <= n <= length buf)%nat ->
  let w := take (n - pos) t in
  __snprintf_send (mkSNP buf (Z.of_nat n) (Z.of_nat pos)) t =
  Done (mkSNP (splice pos w buf) (Z.of_nat n) (Z.of_nat (pos + length w))).
Proof.
  revert buf pos. induction t as [|x t IH]; intros buf pos Hp; cbn [__snprintf_send].
  - rewrite take_nil. unfold splice. cbn. by rewrite Nat.add_0_r, take_drop.
  - cbn [snp_bufpos snp_buflen snp_buf]. destruct (Z.ltb_spec (Z.of_nat pos) (Z.of_nat n)) as [Hlt|Hge].
    + rewrite (proj2 (Z.ltb_lt _ _)) by lia. rewrite Nat2Z.id. replace (Z.of_nat pos + 1) with (Z.of_nat (S pos)) by lia.
      rewrite (IH _ (S pos)) by (rewrite length_insert; lia). replace (n - pos)%nat with (S (n - S pos)) by lia.
      cbn [take length]. set (w := take (n - S pos) t). rewrite <- Nat.add_succ_comm. do 2 f_equal.
      unfold splice. cbn [length]. rewrite <- Nat.add_succ_comm, drop_insert_lt by lia.
      rewrite insert_take_drop by lia. rewrite (cons_middle x (take pos buf) (drop (S pos) buf)), (app_assoc (take pos buf) [x]).
      rewrite take_app_length' by (rewrite length_app, length_take; cbn; lia). by rewrite <- app_assoc.
    + rewrite IH by lia. replace (n - pos)%nat with 0%nat by lia. done.
Qed.

(** ** Numbers read back *)

Lemma find_digit d : 0 <= d < 10 -> exists x, list_find (eq (digit_char d)) (codes "0123456789") = Some (Z.to_nat d, x).
Proof.
  intros Hd. assert (d = 0 \/ d = 1 \/ d = 2 \/ d = 3 \/ d = 4 \/ d = 5 \/ d = 6 \/ d = 7 \/ d = 8 \/ d = 9) as Hc by lia.
  repeat (destruct Hc as [->|Hc]; [by eexists|]). subst. by eexists.
Qed.

Lemma atoi_digits_ok ds r v :
  Forall (fun d => 0 <= d < 10) ds -> v = u32 v ->
  atoi_digits ((digit_char <$> ds) ++ 0 :: r) v = Done (u32 (fold_left (fun v d => v * 10 + d) ds v)).
Proof.
  intros Hds. revert v. induction Hds as [|d ds Hd _ IH]; intros v Hv; cbn [fmap list_fmap app atoi_digits fold_left]; [by rewrite <- Hv|].
  pose proof (digit_char_range d ltac:(lia)) as Hr. rewrite (proj2 (Z.eqb_neq _ _)) by (unfold ch_0 in Hr; lia).
  destruct (find_digit d Hd) as [x ->]. rewrite IH by (by rewrite u32_idemp).
  rewrite Z2Nat.id by lia. f_equal.
  assert (forall ds v v', u32 v = u32 v' -> u32 (fold_left (fun v d => v * 10 + d) ds v) = u32 (fold_left (fun v d => v * 10 + d) ds v'))
    as Hcong.
  { clear. induction ds as [|d ds IH]; intros v v' E; [done|]. cbn. apply IH. unfold u32 in *.
    rewrite <- (Zplus_mod_idemp_l (v * 10)), <- (Zplus_mod_idemp_l (v' * 10)), <- (Zmult_mod_idemp_l v), <- (Zmult_mod_idemp_l v'), E. done. }
  apply Hcong. rewrite u32_idemp. unfold u32. by rewrite Zplus_mod_idemp_l.
Qed.

(** A numeral, with its sign. *)
Definition decimal (z : Z) : list Z := (if z <? 0 then codes "-" else []) ++ numeral 10 (Z.abs z).

Lemma atoi_decimal z r : - 2 ^ 31 <= z < 2 ^ 31 -> atoi (decimal z ++ 0 :: r) = Done z.
Proof.
  intros Hz. unfold decimal, numeral.
  assert (0 <= Z.abs z < 10 ^ Z.of_nat 22) as Hab by (change (10 ^ Z.of_nat 22) with (10 ^ 22); lia).
  set (ds := rev (numeral_rev 22 10 (Z.abs z))).
  assert (Forall (fun d => 0 <= d < 10) ds) as Hds by (apply Forall_rev, numeral_rev_digits; lia).
  assert (fold_left (fun v d => v * 10 + d) ds 0 = Z.abs z) as Hval by (apply (numeral_rev_value 22 10); lia).
  destruct ds as [|d ds'] eqn:Eds.
  { apply (f_equal length) in Eds. unfold ds in Eds. rewrite length_rev in Eds.
    destruct (numeral_rev_pos 22 10 (Z.abs z)) as [x Ex]; [lia|]. by rewrite Ex in Eds. }
  pose proof (atoi_digits_ok (d :: ds') r 0 Hds eq_refl) as Hd. rewrite Hval in Hd.
  pose proof (Forall_inv Hds) as Hd0. cbn in Hd0. pose proof (digit_char_range d ltac:(lia)) as Hr. unfold ch_0 in Hr.
  rewrite <- app_assoc. unfold atoi. change (code "-") with 45. change (code "+") with 43. destruct (Z.ltb_spec z 0).
  - change (codes "-") with [45]. cbn [app skip_space ch_space]. cbn [fmap list_fmap app] in *. cbn -[atoi_digits u32 s32 digit_char].
    rewrite Hd. cbn -[u32 s32]. rewrite (u32_small (Z.abs z)) by lia. f_equal.
    destruct (decide (z = - 2 ^ 31)) as [->|]; [done|]. unfold u32, s32.
    rewrite <- (Z.mod_add (- Z.abs z) 1) by lia. rewrite (Z.mod_small (- Z.abs z + 1 * 2 ^ 32)) by lia.
    replace (- Z.abs z + 1 * 2 ^ 32 + 2 ^ 31) with (z + 2 ^ 31 + 1 * 2 ^ 32) by lia.
    rewrite Z.mod_add by lia. rewrite Z.mod_small; lia.
  - cbn [app fmap list_fmap] in *. cbn [skip_space]. rewrite !(proj2 (Z.eqb_neq (digit_char d) _)) by (unfold ch_space; lia).
    assert (digit_char d <= 57) as Hr9 by (unfold digit_char; rewrite (proj2 (Z.ltb_lt _ _)) by lia; unfold ch_0; lia).
    cbn -[atoi_digits u32 s32 digit_char Z.eqb]. rewrite !(proj2 (Z.eqb_neq (digit_char d) _)) by lia. cbn -[atoi_digits u32 s32 digit_char].
    rewrite Hd. cbn -[u32 s32]. f_equal. rewrite u32_small, s32_small by lia. lia.
Qed.

(** The buffer after the call. *)
Definition in_buffer (text buf : list Z) (len : Z) : list Z :=
  let w := take (Z.to_nat (len - 1)) text in
  if len =? 0 then buf else w ++ 0 :: drop (S (length w)) buf.

Lemma snprintf_ok stack buf len fmt r args text :
  length stack = 23%nat -> Forall (fun ch => ch <> 0) fmt -> Forall va_ok args ->
  formatted fmt args = Some text -> 0 <= len <= Z.of_nat (length buf) ->
  snprintf stack buf len (fmt ++ 0 :: r) args = Done (s32 (Z.of_nat (length text)), in_buffer text buf len).
Proof.
  intros Hst Hz Hargs Ht Hlen. unfold in_buffer. set (w := take _ text).
  unfold snprintf, vsnprintf. rewrite (vprintf_ok _ stack Hst _ fmt r args text) by done.
  assert ((if len =? 0 then 0 else len - 1) = Z.of_nat (Z.to_nat (len - 1))) as -> by (destruct (Z.eqb_spec len 0); lia).
  pose proof (snprintf_send_ok text buf (Z.to_nat (len - 1)) 0 ltac:(lia)) as E. rewrite Nat.sub_0_r in E. fold w in E.
  change (Z.of_nat 0) with 0 in E. cbv zeta in E. rewrite E. cbn [mbind outcome_bind snp_bufpos snp_buf snp_buflen].
  assert (length w <= Z.to_nat (len - 1))%nat by (unfold w; rewrite length_take; lia).
  destruct (Z.eqb_spec len 0) as [->|Hne].
  - change (w) with (@nil Z). cbn. unfold splice. by rewrite drop_0.
  - rewrite (proj2 (Z.ltb_lt 0 len)) by lia. rewrite (proj2 (Z.ltb_lt _ _)) by (rewrite length_splice; lia).
    do 2 f_equal. rewrite Nat.add_0_l, Nat2Z.id, insert_take_drop by (rewrite length_splice; lia).
    unfold splice. rewrite Nat.add_0_l, take_0. cbn [app]. rewrite take_app_length. do 2 f_equal.
    rewrite drop_app_ge by lia. rewrite drop_drop. f_equal. lia.
Qed.

Lemma length_numeral_10 n : 0 <= n < 2 ^ 32 -> (length (numeral 10 n) <= 10)%nat.
Proof.
  intros Hn. unfold numeral. rewrite length_fmap, length_rev, (numeral_rev_enough 10 22) by (cbn; lia). apply length_numeral_rev.
Qed.

Lemma length_decimal z : - 2 ^ 31 <= z < 2 ^ 31 -> (length (decimal z) <= 11)%nat.
Proof.
  intros Hz. unfold decimal. rewrite length_app. pose proof (length_numeral_10 (Z.abs z) ltac:(lia)).
  change (codes "-") with [45]. destruct (z <? 0); cbn [length]; lia.
Qed.

Lemma formatted_decimal z : - 2 ^ 31 <= z < 2 ^ 31 -> formatted (codes "%d") [Word (u32 z)] = Some (decimal z).
Proof.
  intros Hz. assert (s32 (u32 z) = z) as Hs by (unfold s32, u32; rewrite Zplus_mod_idemp_l, Z.mod_small; lia).
  unfold formatted. change (items None (codes "%d")) with [Conversion [] 100]. cbn [render_all modifiers].
  unfold render. change (in_set "doupx" 100) with true. unfold conv_number.
  change (100 =? code "p") with false. change (100 =? code "d") with true.
  cbn [size with_in_pct __pf_endfield mbind option_bind]. rewrite Hs. unfold signed_of. unfold pad, decimal.
  change (conv_prefix (with_in_pct __pf_endfield) 100) with (@nil Z). change (conv_base 100) with 10.
  cbn [spacing with_in_pct __pf_endfield rightspc fillchar mbind option_bind].
  replace (Z.to_nat (0 - _)) with 0%nat by lia. change (ch_space =? ch_0) with false. cbn [replicate app]. by rewrite !app_nil_r.
Qed.

(** ** The properties *)

(** C21. [snprintf] is the reading of the format as a whole: with the text [t] of its
    literals and conversions, it returns the length of [t] and leaves in the buffer as
    much of [t] as there is room for, a terminator, and what was there before; with no
    room at all it touches nothing. *)
Theorem snprintf_spec stack buf len fmt r args text :
  length stack = 23%nat -> Forall (fun ch => ch <> 0) fmt -> Forall va_ok args ->
  formatted fmt args = Some text -> 0 <= len <= Z.of_nat (length buf) ->
  snprintf stack buf len (fmt ++ 0 :: r) args = Done (s32 (Z.of_nat (length text)), in_buffer text buf len).
Proof. apply snprintf_ok. Qed.

(** C23. Every [int] printed with [%d] into twelve bytes is what [atoi] reads back. *)
Theorem decimal_roundtrip stack buf len z :
  length stack = 23%nat -> 12 <= len <= Z.of_nat (length buf) -> - 2 ^ 31 <= z < 2 ^ 31 ->
  exists buf', snprintf stack buf len (lit "%d") [Word (u32 z)] = Done (Z.of_nat (length (decimal z)), buf') /\
    atoi buf' = Done z.
Proof.
  intros Hst Hlen Hz. pose proof (length_decimal z Hz) as Hl.
  change (lit "%d") with (codes "%d" ++ 0 :: []). eexists. split.
  - rewrite (snprintf_ok stack buf len (codes "%d") [] _ (decimal z)); [|done|by repeat constructor| | |lia].
    + by rewrite s32_small by lia.
    + constructor; [apply u32_range|constructor].
    + by apply formatted_decimal.
  - unfold in_buffer. rewrite (proj2 (Z.eqb_neq len 0)), take_ge by lia. by apply atoi_decimal.
Qed.

(** C22. The buffer of [__pf_printnum] is large enough, and not larger than it has to be:
    the loop stays inside for every 64-bit number in the three bases and leaves the
    numeral (the digits of the number, without leading zeros) before the terminator; the
    longest, the largest number in octal, takes it from the first byte on. *)
Theorem printnum_buffer stack b n :
  length stack = Z.to_nat NUMBER_BUF_SIZE -> (b = 8 \/ b = 10 \/ b = 16) -> 0 <= n < 2 ^ 64 ->
  (exists buf x, convert (Z.to_nat NUMBER_BUF_SIZE) stack (NUMBER_BUF_SIZE - 2) n b = Done (buf, x) /\ -1 <= x /\
     drop (Z.to_nat (x + 1)) buf = numeral b n ++ drop 22 stack) /\
  (exists ds, numeral b n = digit_char <$> ds /\ Forall (fun d => 0 <= d < b) ds /\ value b ds = n /\
     (n <> 0 -> head ds <> Some 0)) /\
  (exists buf, convert (Z.to_nat NUMBER_BUF_SIZE) stack (NUMBER_BUF_SIZE - 2) (2 ^ 64 - 1) 8 = Done (buf, -1)).
Proof.
  change (Z.to_nat NUMBER_BUF_SIZE) with 23%nat. change (NUMBER_BUF_SIZE - 2) with (Z.of_nat 21).
  intros Hst Hb Hn. destruct (fits_22 _ _ Hb Hn) as [Hb' Hn']. split; [|split].
  - rewrite (convert_ok 23 22 _ 21) by lia. pose proof (length_numeral_rev 22 b n) as Hlen. eexists _, _. split; [reflexivity|].
    split; [lia|]. rewrite drop_app_length' by (rewrite length_take; lia). done.
  - exists (rev (numeral_rev 22 b n)). split; [done|]. split; [apply Forall_rev, numeral_rev_digits; lia|].
    split; [apply numeral_rev_value; lia|]. intros Hne. destruct (numeral_rev_last 22 b n) as (d&ds&E&Hd); [lia..|].
    rewrite E. cbn. congruence.
  - rewrite (convert_ok 23 22 _ 21) by lia. eexists. change (length (numeral_rev 22 8 (2 ^ 64 - 1))) with 22%nat. reflexivity.
Qed.

(** ** Examples *)

Lemma snprintf_spec_witness :
  snprintf (zeros 23) (replicate 20 1) 8 (codes "%s=%#x;" ++ [0]) [Str (Some (lit "pid")); Word 4660] =
  Done (11, codes "pid=0x1" ++ 0 :: replicate 12 1).
Proof. apply (snprintf_spec (zeros 23) (replicate 20 1) 8 (codes "%s=%#x;") [] _ (codes "pid=0x1234;")); [reflexivity| | |reflexivity|vm_compute; split; discriminate].
  - by repeat constructor.
  - repeat constructor; discriminate.
Defined.

Lemma decimal_roundtrip_witness :
  exists buf', snprintf (zeros 23) (zeros 12) 12 (lit "%d") [Word (u32 (- 2 ^ 31))] = Done (11, buf') /\ atoi buf' = Done (- 2 ^ 31).
Proof. apply (decimal_roundtrip (zeros 23) (zeros 12) 12 (- 2 ^ 31)); [reflexivity|vm_compute; split; discriminate|lia]. Defined.

Lemma printnum_buffer_witness :
  exists buf, convert 23 (zeros 23) 21 (2 ^ 64 - 1) 8 = Done (buf, -1).
Proof. apply (printnum_buffer (zeros 23) 8 0); [reflexivity|auto|lia]. Defined.

(** The flag [-] does not put the flag [0] out: the zeros go behind the number. *)
Lemma left_zero_pad : formatted (codes "%-05d") [Word 42] = Some (codes "42000").
Proof. reflexivity. Qed.

(** [%c] goes through a C string, so the null character prints nothing. *)
Lemma null_char : formatted (codes "a%cb") [Word 0] = Some (codes "ab").
Proof. reflexivity. Qed.
