(* ===== verification/Bitmap.v ===== *)
(** * lib/bitmap.c: the fixed-size array of bits

    SFS keeps its free-block map in one of these.  A bit is 1 when the block is
    in use.  The data words are the bytes of the on-disk map. *)

From S2P Require Import Prelude.

Definition BITS_PER_WORD : Z := 8.
Definition WORD_ALLBITS : Z := 255.

Record bitmap := mkBitmap { nbits : Z; v : list Z }.

(** [b->v[ix]]: reading or writing outside the kmalloc'ed block is an error. *)
Definition word (b : bitmap) (ix : Z) : outcome Z := deref (v b !! Z.to_nat ix).
Definition set_word (b : bitmap) (ix w : Z) : bitmap :=
  mkBitmap (nbits b) (<[Z.to_nat ix := w]> (v b)).

(** The loop that marks the bits left over at the end as in use. *)
Fixpoint mark_over (b : bitmap) (ix j : Z) (k : nat) : outcome bitmap :=
  match k with
  | O => mret b
  | S k => w ← word b ix;
           mark_over (set_word b ix (Z.lor w (Z.shiftl 1 j))) ix (j + 1) k
  end.

(** [ok_b] and [ok_v] say whether the two calls of [kmalloc] succeed. *)
Definition bitmap_create (ok_b ok_v : bool) (n : Z) : outcome (option bitmap) :=
  let words := DIVROUNDUP n BITS_PER_WORD in
  if negb ok_b then mret None else
  if negb ok_v then mret None else
  let b := mkBitmap n (zeros (Z.to_nat words)) in
  if words >? n / BITS_PER_WORD then
    let ix := u32 (words - 1) in
    let overbits := u32 (n - ix * BITS_PER_WORD) in
    KASSERT (n / BITS_PER_WORD =? u32 (words - 1));;
    KASSERT ((overbits >? 0) && (overbits <? BITS_PER_WORD));;
    b ← mark_over b ix overbits (Z.to_nat (BITS_PER_WORD - overbits));
    mret (Some b)
  else mret (Some b).

Definition bitmap_getdata (b : bitmap) : list Z := v b.

(** The inner loop of [bitmap_alloc]: the first clear bit of a word. *)
Fixpoint clear_offset (w offset : Z) (k : nat) : option Z :=
  match k with
  | O => None
  | S k => if Z.land w (Z.shiftl 1 offset) =? 0 then Some offset
           else clear_offset w (offset + 1) k
  end.

Fixpoint alloc_from (b : bitmap) (ix : Z) (k : nat) : outcome (res (Z * bitmap)) :=
  match k with
  | O => mret (Err ENOSPC)
  | S k =>
      w ← word b ix;
      if w =? WORD_ALLBITS then alloc_from b (ix + 1) k else
      match clear_offset w 0 8 with
      | Some offset =>
          let b := set_word b ix (Z.lor w (Z.shiftl 1 offset)) in
          let index := ix * BITS_PER_WORD + offset in
          KASSERT (index <? nbits b);;
          mret (Ok (index, b))
      | None => Panic (* KASSERT(0) *)
      end
  end.

Definition bitmap_alloc (b : bitmap) : outcome (res (Z * bitmap)) :=
  alloc_from b 0 (Z.to_nat (DIVROUNDUP (nbits b) BITS_PER_WORD)).

Definition bitmap_translate (bitno : Z) : Z * Z :=
  (bitno / BITS_PER_WORD, Z.shiftl 1 (bitno mod BITS_PER_WORD)).

Definition bitmap_mark (b : bitmap) (index : Z) : outcome bitmap :=
  KASSERT (index <? nbits b);;
  let '(ix, mask) := bitmap_translate index in
  w ← word b ix;
  KASSERT (Z.land w mask =? 0);;
  mret (set_word b ix (Z.lor w mask)).

Definition bitmap_unmark (b : bitmap) (index : Z) : outcome bitmap :=
  KASSERT (index <? nbits b);;
  let '(ix, mask) := bitmap_translate index in
  w ← word b ix;
  KASSERT (negb (Z.land w mask =? 0));;
  mret (set_word b ix (Z.land w (Z.lnot mask))).

Definition bitmap_isset (b : bitmap) (index : Z) : outcome Z :=
  let '(ix, mask) := bitmap_translate index in
  w ← word b ix;
  mret (Z.land w mask).

(** ** The abstract view: which bits are set *)

Definition bit (b : bitmap) (i : Z) : bool :=
  Z.testbit (default 0 (v b !! Z.to_nat (i / 8))) (i mod 8).

(** A bitmap as [bitmap_create] makes it: enough words, each a byte, and the
    bits past the end marked as used. *)
Record bitmap_wf (b : bitmap) : Prop := {
  wf_nbits : 0 <= nbits b /\ nbits b + 8 < 2 ^ 32;
  wf_words : Z.of_nat (length (v b)) = (nbits b + 7) / 8;
  wf_bytes : bytes (v b);
  wf_over : forall i, nbits b <= i < 8 * Z.of_nat (length (v b)) -> bit b i = true }.

(** [b'] is [b] with bit [i] changed to [x]. *)
Definition bit_updated (b : bitmap) (i : Z) (x : bool) (b' : bitmap) : Prop :=
  bitmap_wf b' /\ nbits b' = nbits b /\
  forall j, 0 <= j -> bit b' j = if j =? i then x else bit b j.

(** ** Bits of a byte *)

Lemma is_byte_bits w : is_byte w <-> 0 <= w /\ forall j, 8 <= j -> Z.testbit w j = false.
Proof. apply (below_bits 8). lia. Qed.

Lemma is_byte_lor w j : is_byte w -> 0 <= j < 8 -> is_byte (Z.lor w (Z.shiftl 1 j)).
Proof.
  rewrite !is_byte_bits. intros [H0 Hb] Hj. split.
  - apply Z.lor_nonneg. split; [done|]. rewrite Z.shiftl_1_l. lia.
  - intros k Hk. rewrite Z.lor_spec, Hb, Z.shiftl_1_l, Z.pow2_bits_false by lia. done.
Qed.

Lemma is_byte_clear w j : is_byte w -> 0 <= j < 8 -> is_byte (Z.land w (Z.lnot (Z.shiftl 1 j))).
Proof.
  rewrite !is_byte_bits. intros [H0 Hb] Hj. split.
  - apply Z.land_nonneg. by left.
  - intros k Hk. by rewrite Z.land_spec, Hb.
Qed.

Lemma testbit_clear w j k :
  0 <= j -> 0 <= k ->
  Z.testbit (Z.land w (Z.lnot (Z.shiftl 1 j))) k = if k =? j then false else Z.testbit w k.
Proof.
  intros. rewrite Z.land_spec, Z.lnot_spec, Z.shiftl_1_l, Z.pow2_bits_eqb by done.
  rewrite (Z.eqb_sym j). destruct (k =? j); cbn; auto using andb_true_r, andb_false_r.
Qed.

Lemma clear_offset_spec w o k :
  0 <= o ->
  match clear_offset w o k with
  | Some j => o <= j < o + Z.of_nat k /\ Z.testbit w j = false /\
              forall i, o <= i < j -> Z.testbit w i = true
  | None => forall i, o <= i < o + Z.of_nat k -> Z.testbit w i = true
  end.
Proof.
  revert o. induction k as [|k IH]; intros o Ho; cbn [clear_offset].
  - intros i Hi. lia.
  - rewrite land_shiftl_bit by done. destruct (Z.testbit w o) eqn:E; cbn [negb].
    + specialize (IH (o + 1) ltac:(lia)).
      destruct (clear_offset w (o + 1) k) as [j|].
      * destruct IH as (Hj & Hc & Hl). split; [lia|]. split; [done|].
        intros i Hi. destruct (decide (i = o)) as [->|]; [done|]. apply Hl. lia.
      * intros i Hi. destruct (decide (i = o)) as [->|]; [done|]. apply IH. lia.
    + split; [lia|]. split; [done|]. intros i Hi. lia.
Qed.

Lemma all_bits_byte w :
  is_byte w -> (forall i, 0 <= i < 8 -> Z.testbit w i = true) -> w = WORD_ALLBITS.
Proof.
  rewrite is_byte_bits. intros [H0 Hb] Hall. apply Z.bits_inj'. intros n Hn.
  change WORD_ALLBITS with (Z.ones 8). rewrite Z.testbit_ones_nonneg by lia.
  destruct (Z.ltb_spec n 8); auto.
Qed.

Lemma testbit_allbits i : 0 <= i < 8 -> Z.testbit WORD_ALLBITS i = true.
Proof.
  intros. change WORD_ALLBITS with (Z.ones 8). rewrite Z.testbit_ones_nonneg by lia.
  apply Z.ltb_lt. lia.
Qed.

(** ** Words and bits *)

Lemma word_wf b ix :
  bitmap_wf b -> 0 <= ix < Z.of_nat (length (v b)) ->
  exists w, word b ix = Done w /\ v b !! Z.to_nat ix = Some w /\ is_byte w.
Proof.
  intros Hwf Hix. destruct (lookup_lt_is_Some_2 (v b) (Z.to_nat ix)) as [w Hw]; [lia|].
  exists w. unfold word. rewrite Hw. split_and!; [done..|].
  eapply Forall_lookup_1; [apply (wf_bytes _ Hwf)|done].
Qed.

Lemma bit_of_word b ix w i :
  v b !! Z.to_nat ix = Some w -> 0 <= ix -> 0 <= i < 8 -> bit b (ix * 8 + i) = Z.testbit w i.
Proof.
  intros Hw Hix Hi. unfold bit.
  replace ((ix * 8 + i) / 8) with ix by lia.
  replace ((ix * 8 + i) mod 8) with i by lia. by rewrite Hw.
Qed.

Lemma bit_of_word' b i w :
  v b !! Z.to_nat (i / 8) = Some w -> bit b i = Z.testbit w (i mod 8).
Proof. intros Hw. unfold bit. by rewrite Hw. Qed.

Lemma bit_set_word b ix w j :
  0 <= ix < Z.of_nat (length (v b)) -> 0 <= j ->
  bit (set_word b ix w) j = if j / 8 =? ix then Z.testbit w (j mod 8) else bit b j.
Proof.
  intros Hix Hj. unfold bit, set_word; cbn.
  destruct (Z.eqb_spec (j / 8) ix) as [->|Hne].
  - by rewrite list_lookup_insert_eq by lia.
  - rewrite list_lookup_insert_ne; [done|]. pose proof (Z.div_pos j 8). lia.
Qed.

(** Replacing the word of bit [i] by one that differs in that bit only. *)
Lemma set_word_updated b i w w' x :
  bitmap_wf b -> 0 <= i < nbits b ->
  v b !! Z.to_nat (i / 8) = Some w -> is_byte w' ->
  (forall k, 0 <= k -> Z.testbit w' k = if k =? i mod 8 then x else Z.testbit w k) ->
  bit_updated b i x (set_word b (i / 8) w').
Proof.
  intros Hwf Hi Hw Hb Hbits.
  assert (Hlt : i / 8 < Z.of_nat (length (v b))) by (apply lookup_lt_Some in Hw; lia).
  assert (Hupd : forall j, 0 <= j ->
            bit (set_word b (i / 8) w') j = if j =? i then x else bit b j).
  { intros j Hj. rewrite bit_set_word by lia.
    destruct (Z.eqb_spec (j / 8) (i / 8)) as [He|Hne].
    - rewrite Hbits by lia. rewrite (bit_of_word' b j w) by by rewrite He.
      destruct (Z.eqb_spec (j mod 8) (i mod 8)), (Z.eqb_spec j i); try done; lia.
    - destruct (Z.eqb_spec j i); [congruence|done]. }
  split; [|done]. destruct Hwf as [Hn Hl Hby Ho]. split; cbn.
  - done.
  - by rewrite length_insert.
  - by apply Forall_insert.
  - intros j Hj. rewrite length_insert in Hj.
    rewrite Hupd by lia. destruct (Z.eqb_spec j i); [lia|]. apply Ho. lia.
Qed.

Lemma index_in_words b i :
  bitmap_wf b -> 0 <= i < nbits b -> 0 <= i / 8 < Z.of_nat (length (v b)).
Proof. intros [Hn Hl _ _] Hi. lia. Qed.

Lemma bitmap_mark_ok b i :
  bitmap_wf b -> 0 <= i < nbits b -> bit b i = false ->
  exists b', bitmap_mark b i = Done b' /\ bit_updated b i true b'.
Proof.
  intros Hwf Hi Hc. unfold bitmap_mark, bitmap_translate, BITS_PER_WORD.
  destruct (word_wf b (i / 8) Hwf (index_in_words b i Hwf Hi)) as (w & Hw & Hl & Hb).
  rewrite (proj2 (Z.ltb_lt i (nbits b))) by lia. cbn [KASSERT mbind outcome_bind].
  rewrite Hw. cbn [mbind outcome_bind]. rewrite land_shiftl_bit by lia.
  rewrite <- (bit_of_word' b i w Hl), Hc. cbn.
  eexists; split; [done|]. apply set_word_updated with w; [done..| |].
  - apply is_byte_lor; [done|lia].
  - intros. apply testbit_lor; lia.
Qed.

Lemma bitmap_unmark_ok b i :
  bitmap_wf b -> 0 <= i < nbits b -> bit b i = true ->
  exists b', bitmap_unmark b i = Done b' /\ bit_updated b i false b'.
Proof.
  intros Hwf Hi Hc. unfold bitmap_unmark, bitmap_translate, BITS_PER_WORD.
  destruct (word_wf b (i / 8) Hwf (index_in_words b i Hwf Hi)) as (w & Hw & Hl & Hb).
  rewrite (proj2 (Z.ltb_lt i (nbits b))) by lia. cbn [KASSERT mbind outcome_bind].
  rewrite Hw. cbn [mbind outcome_bind]. rewrite land_shiftl_bit by lia.
  rewrite <- (bit_of_word' b i w Hl), Hc. cbn [negb mbind outcome_bind].
  eexists; split; [done|]. apply set_word_updated with w; [done..| |].
  - apply is_byte_clear; [done|lia].
  - intros. apply testbit_clear; lia.
Qed.

Lemma bitmap_isset_ok b i :
  bitmap_wf b -> 0 <= i < nbits b ->
  exists r, bitmap_isset b i = Done r /\ (r =? 0) = negb (bit b i).
Proof.
  intros Hwf Hi. unfold bitmap_isset, bitmap_translate, BITS_PER_WORD.
  destruct (word_wf b (i / 8) Hwf (index_in_words b i Hwf Hi)) as (w & Hw & Hl & Hb).
  rewrite Hw. eexists; split; [done|].
  rewrite land_shiftl_bit by lia. by rewrite <- (bit_of_word' b i w Hl).
Qed.

(** ** Allocation *)

Lemma alloc_from_ok b ix k :
  bitmap_wf b -> 0 <= ix -> ix + Z.of_nat k = Z.of_nat (length (v b)) ->
  (forall j, 0 <= j < ix * 8 -> bit b j = true) ->
  (exists i b', alloc_from b ix k = Done (Ok (i, b')) /\ 0 <= i < nbits b /\
     bit b i = false /\ (forall j, 0 <= j < i -> bit b j = true) /\ bit_updated b i true b') \/
  (alloc_from b ix k = Done (Err ENOSPC) /\ forall j, 0 <= j < nbits b -> bit b j = true).
Proof.
  intros Hwf. revert ix. induction k as [|k IH]; intros ix Hix Hk Hall; cbn [alloc_from].
  - right. split; [done|]. intros j Hj. apply Hall. pose proof (wf_words _ Hwf). lia.
  - destruct (word_wf b ix Hwf) as (w & Hw & Hl & Hb); [lia|].
    rewrite Hw. cbn [mbind outcome_bind].
    assert (Hbits : forall o, 0 <= o < 8 -> bit b (ix * 8 + o) = Z.testbit w o)
      by (intros; by apply bit_of_word).
    destruct (Z.eqb_spec w WORD_ALLBITS) as [Hfull|Hne].
    + apply IH; [lia..|]. intros j Hj.
      destruct (decide (j < ix * 8)); [apply Hall; lia|].
      replace j with (ix * 8 + (j - ix * 8)) by lia.
      rewrite Hbits, Hfull by lia. apply testbit_allbits. lia.
    + pose proof (clear_offset_spec w 0 8 ltac:(lia)) as Hc.
      destruct (clear_offset w 0 8) as [o|].
      * left. destruct Hc as (Ho & Hclr & Hlow).
        assert (Hlt : ix * 8 + o < nbits b).
        { destruct (decide (ix * 8 + o < nbits b)); [done|].
          pose proof (wf_over _ Hwf (ix * 8 + o)) as Hov.
          rewrite Hbits, Hclr in Hov by lia. discriminate Hov; lia. }
        unfold BITS_PER_WORD. rewrite (proj2 (Z.ltb_lt _ (nbits (set_word b ix _)))) by done.
        exists (ix * 8 + o), (set_word b ix (Z.lor w (Z.shiftl 1 o))).
        split_and!; [done|lia|done|by rewrite Hbits by lia| |].
        -- intros j Hj. destruct (decide (j < ix * 8)); [apply Hall; lia|].
           replace j with (ix * 8 + (j - ix * 8)) by lia.
           rewrite Hbits by lia. apply Hlow. lia.
        -- replace ix with ((ix * 8 + o) / 8) at 2 by lia.
           assert (Hm : (ix * 8 + o) mod 8 = o) by lia.
           apply set_word_updated with w; [done|lia| | |].
           ++ by replace ((ix * 8 + o) / 8) with ix by lia.
           ++ apply is_byte_lor; [done|lia].
           ++ intros k' Hk'. rewrite Hm. apply testbit_lor; lia.
      * exfalso. apply Hne. apply all_bits_byte; [done|]. intros i Hi. apply Hc. lia.
Qed.

Lemma bitmap_words_eq b :
  bitmap_wf b -> DIVROUNDUP (nbits b) BITS_PER_WORD = Z.of_nat (length (v b)).
Proof.
  intros [Hn Hl _ _]. unfold BITS_PER_WORD. rewrite DIVROUNDUP_eq, Hl by lia. f_equal. lia.
Qed.

Lemma bitmap_alloc_ok b :
  bitmap_wf b ->
  (exists i b', bitmap_alloc b = Done (Ok (i, b')) /\ 0 <= i < nbits b /\
     bit b i = false /\ (forall j, 0 <= j < i -> bit b j = true) /\ bit_updated b i true b') \/
  (bitmap_alloc b = Done (Err ENOSPC) /\ forall j, 0 <= j < nbits b -> bit b j = true).
Proof.
  intros Hwf. unfold bitmap_alloc. rewrite bitmap_words_eq, Nat2Z.id by done.
  apply alloc_from_ok; [done|lia|lia|]. lia.
Qed.

(** ** Creation *)

Lemma bit_zeros n k j : 0 <= j -> bit (mkBitmap n (zeros k)) j = false.
Proof.
  intros Hj. unfold bit; cbn. unfold zeros.
  destruct (replicate k 0 !! Z.to_nat (j / 8)) as [x|] eqn:E; cbn; [|apply Z.bits_0].
  apply lookup_replicate in E as [-> _]. apply Z.bits_0.
Qed.

(** The loop sets bits [j .. 7] of the last word and no other. *)
Lemma mark_over_spec b ix j k :
  0 <= ix < Z.of_nat (length (v b)) -> bytes (v b) -> 0 <= j -> j + Z.of_nat k = 8 ->
  exists b', mark_over b ix j k = Done b' /\ nbits b' = nbits b /\
    length (v b') = length (v b) /\ bytes (v b') /\
    forall i, 0 <= i -> bit b' i = if (ix * 8 + j <=? i) && (i <? ix * 8 + 8) then true else bit b i.
Proof.
  revert b j. induction k as [|k IH]; intros b j Hix Hb Hj Hk; cbn [mark_over].
  - exists b. split_and!; [done..|]. intros i Hi.
    destruct (Z.leb_spec (ix * 8 + j) i), (Z.ltb_spec i (ix * 8 + 8)); cbn; done || lia.
  - destruct (lookup_lt_is_Some_2 (v b) (Z.to_nat ix)) as [w Hw]; [lia|].
    assert (Hwb : is_byte w) by (eapply Forall_lookup_1; [apply Hb|done]).
    unfold word at 1. rewrite Hw. cbn [deref mbind outcome_bind].
    destruct (IH (set_word b ix (Z.lor w (Z.shiftl 1 j))) (j + 1))
      as (b' & He & Hn & Hlen & Hb' & Hbit); cbn.
    + by rewrite length_insert.
    + apply Forall_insert; [done|]. apply is_byte_lor; [done|lia].
    + lia.
    + lia.
    + exists b'. cbn in Hlen. rewrite length_insert in Hlen. split_and!; [done..|].
      intros i Hi. rewrite Hbit by done. rewrite bit_set_word by lia.
      destruct (Z.eqb_spec (i / 8) ix) as [Hd|Hd].
      * rewrite testbit_lor by lia.
        rewrite <- (bit_of_word' b i w) by by rewrite Hd.
        destruct (Z.leb_spec (ix * 8 + (j + 1)) i), (Z.ltb_spec i (ix * 8 + 8)),
          (Z.leb_spec (ix * 8 + j) i), (Z.eqb_spec (i mod 8) j); cbn; done || lia.
      * destruct (Z.leb_spec (ix * 8 + (j + 1)) i), (Z.ltb_spec i (ix * 8 + 8)),
          (Z.leb_spec (ix * 8 + j) i); cbn; done || lia.
Qed.

Lemma bitmap_create_ok n :
  0 <= n -> n + 8 < 2 ^ 32 ->
  exists b, bitmap_create true true n = Done (Some b) /\ bitmap_wf b /\ nbits b = n /\
    forall i, 0 <= i < n -> bit b i = false.
Proof.
  intros H0 Hn. unfold bitmap_create, BITS_PER_WORD. cbn [negb].
  rewrite DIVROUNDUP_eq by lia. set (words := (n + 8 - 1) / 8).
  assert (Hw : words = n / 8 + (if n mod 8 =? 0 then 0 else 1)).
  { subst words. destruct (Z.eqb_spec (n mod 8) 0); lia. }
  set (b0 := mkBitmap n (zeros (Z.to_nat words))).
  assert (Hl0 : Z.of_nat (length (v b0)) = words) by (cbn; rewrite length_zeros; lia).
  destruct (Z.eqb_spec (n mod 8) 0) as [Hz|Hnz].
  - rewrite Z.gtb_ltb, (proj2 (Z.ltb_ge _ _)) by lia.
    exists b0. split_and!; [done| |done|].
    + split; cbn; [lia|rewrite length_zeros; lia|apply bytes_zeros|].
      intros i Hi. rewrite length_zeros in Hi. lia.
    + intros i Hi. apply bit_zeros. lia.
  - rewrite Z.gtb_ltb, (proj2 (Z.ltb_lt _ _)) by lia.
    assert (Hix : u32 (words - 1) = n / 8) by (rewrite u32_small; lia).
    rewrite Hix, (u32_small (n - n / 8 * 8)) by lia.
    rewrite Z.eqb_refl. cbn [KASSERT mbind outcome_bind].
    rewrite Z.gtb_ltb, (proj2 (Z.ltb_lt 0 _)), (proj2 (Z.ltb_lt _ 8)) by lia.
    cbn [andb KASSERT mbind outcome_bind].
    destruct (mark_over_spec b0 (n / 8) (n - n / 8 * 8) (Z.to_nat (8 - (n - n / 8 * 8))))
      as (b & He & Hnb & Hlen & Hby & Hbit); [lia|apply bytes_zeros|lia|lia|].
    rewrite He. exists b. split_and!; [done| |done|].
    + split; rewrite ?Hnb; [cbn; lia|cbn; lia|done|].
      intros i Hi. cbn in Hi. rewrite Hbit by lia.
      rewrite (proj2 (Z.leb_le _ _)), (proj2 (Z.ltb_lt _ _)) by lia. done.
    + intros i Hi. rewrite Hbit by lia. rewrite (proj2 (Z.leb_gt _ _)) by lia.
      apply bit_zeros. lia.
Qed.

(** [bit] determines a well-formed bitmap. *)
Lemma bitmap_ext b1 b2 :
  bitmap_wf b1 -> bitmap_wf b2 -> nbits b1 = nbits b2 ->
  (forall i, 0 <= i -> bit b1 i = bit b2 i) -> b1 = b2.
Proof.
  intros W1 W2 Hn Hb. destruct b1 as [n1 v1], b2 as [n2 v2]. cbn in Hn. subst n2. f_equal.
  assert (Hl : length v1 = length v2).
  { pose proof (wf_words _ W1). pose proof (wf_words _ W2). cbn in *. lia. }
  apply list_eq. intros k. destruct (decide (k < length v1)%nat) as [Hk|Hk].
  - destruct (lookup_lt_is_Some_2 v1 k Hk) as [x Hx].
    destruct (lookup_lt_is_Some_2 v2 k ltac:(lia)) as [y Hy]. rewrite Hx, Hy. f_equal.
    pose proof (Forall_lookup_1 _ _ _ _ (wf_bytes _ W1) Hx) as [Hx0 Hxb]%is_byte_bits.
    pose proof (Forall_lookup_1 _ _ _ _ (wf_bytes _ W2) Hy) as [Hy0 Hyb]%is_byte_bits.
    apply Z.bits_inj'. intros j Hj. destruct (decide (8 <= j)).
    + by rewrite Hxb, Hyb.
    + specialize (Hb (Z.of_nat k * 8 + j) ltac:(lia)).
      rewrite (bit_of_word (mkBitmap n1 v1) _ x), (bit_of_word (mkBitmap n1 v2) _ y) in Hb;
        cbn; rewrite ?Nat2Z.id; done || lia.
  - by rewrite !lookup_ge_None_2 by lia.
Qed.

(** ** The theorems *)

(** [bitmap_alloc] never fails an assertion on a bitmap made by
    [bitmap_create] and changed by these operations.  It returns [ENOSPC] exactly
    when every bit is in use; otherwise it returns the lowest clear bit, which is
    within the bitmap, sets that bit, leaves every other bit alone and keeps the
    representation well formed. *)
Theorem bitmap_alloc_least b :
  bitmap_wf b ->
  exists r, bitmap_alloc b = Done r /\
  match r with
  | Err e => e = ENOSPC /\ forall j, 0 <= j < nbits b -> bit b j = true
  | Ok (i, b') => 0 <= i < nbits b /\ bit b i = false /\
      (forall j, 0 <= j < i -> bit b j = true) /\ bit_updated b i true b'
  end.
Proof.
  intros Hwf. destruct (bitmap_alloc_ok b Hwf) as [(i & b' & -> & H)|[-> H]].
  - by exists (Ok (i, b')).
  - by exists (Err ENOSPC).
Qed.

(** A bitmap just created has every bit below its size clear and is well
    formed; marking a clear bit and unmarking it again gives back the very same
    data words, and between the two [bitmap_isset] says the bit is set. *)
Theorem bitmap_mark_roundtrip n i :
  0 <= i < n -> n + 8 < 2 ^ 32 ->
  exists b b' r, bitmap_create true true n = Done (Some b) /\ bitmap_wf b /\
    bitmap_mark b i = Done b' /\ bitmap_isset b' i = Done r /\ r <> 0 /\
    bitmap_unmark b' i = Done b.
Proof.
  intros Hi Hn. destruct (bitmap_create_ok n) as (b & Hc & Hwf & Hnb & Hclr); [lia..|].
  destruct (bitmap_mark_ok b i) as (b' & Hm & Hwf' & Hnb' & Hb'); [done|lia|by apply Hclr|].
  assert (Hset : bit b' i = true) by (rewrite Hb', Z.eqb_refl by lia; done).
  destruct (bitmap_isset_ok b' i) as (r & Hr & Hr0); [done|lia|].
  destruct (bitmap_unmark_ok b' i) as (b'' & Hu & Hwf'' & Hnb'' & Hb''); [done|lia|done|].
  exists b, b', r. split_and!; [done..| |].
  - intros ->. by rewrite Hset in Hr0.
  - rewrite Hu. f_equal. apply bitmap_ext; [done..|congruence|].
    intros j Hj. rewrite Hb'', Hb' by done. destruct (Z.eqb_spec j i); [|done].
    subst. symmetry. by apply Hclr.
Qed.

(** A bitmap of 10 bits with bits 0-2 in use. *)
Definition example_bitmap : bitmap := mkBitmap 10 [7; 252].

Lemma example_bitmap_wf : bitmap_wf example_bitmap.
Proof.
  split; cbn; [lia|reflexivity|repeat constructor; unfold is_byte; lia|].
  intros i Hi. assert (Hc : i = 10 \/ i = 11 \/ i = 12 \/ i = 13 \/ i = 14 \/ i = 15) by lia.
  destruct Hc as [?|[?|[?|[?|[?|?]]]]]; by subst.
Defined.

Lemma bitmap_alloc_least_witness :
  exists r, bitmap_alloc example_bitmap = Done r /\
  match r with
  | Err e => e = ENOSPC /\ forall j, 0 <= j < 10 -> bit example_bitmap j = true
  | Ok (i, b') => 0 <= i < 10 /\ bit example_bitmap i = false /\
      (forall j, 0 <= j < i -> bit example_bitmap j = true) /\
      bit_updated example_bitmap i true b'
  end.
Proof. exact (bitmap_alloc_least example_bitmap example_bitmap_wf). Defined.

Example bitmap_alloc_example : bitmap_alloc example_bitmap = Done (Ok (3, mkBitmap 10 [15; 252])).
Proof. reflexivity. Qed.

Lemma bitmap_mark_roundtrip_witness :
  exists b b' r, bitmap_create true true 10 = Done (Some b) /\ bitmap_wf b /\
    bitmap_mark b 3 = Done b' /\ bitmap_isset b' 3 = Done r /\ r <> 0 /\
    bitmap_unmark b' 3 = Done b.
Proof. apply (bitmap_mark_roundtrip 10 3); lia. Defined.
