(* ===== verification/Array.v ===== *)
(** * Resizable arrays

    [lib/array.c] and the inline functions of [include/array.h], which the typed arrays
    of the kernel (processors, devices, threads of a process, vnodes of a file system)
    are wrappers of.  The elements are pointers, of four bytes; [v] is the block the
    array has from [kmalloc], as its cells.  Memory written outside of it is [Panic].
    Elsewhere in the development these arrays are lists: this file is why. *)

From S2P Require Import Prelude.

#[local] Set Warnings "-clear-no-such-hyp".

Record array := mkArray { v : list Z; num : Z; max : Z }.

Definition sizeof_ptr : Z := 4.

Definition array_init : array := mkArray [] 0 0.

(** [array_create] allocates the structure itself. *)
Definition array_create (mem : list bool) : option array * list bool :=
  let '(ok, mem) := kalloc mem in (if ok then Some array_init else None, mem).

Definition array_cleanup (a : array) : outcome array := _ ← KASSERT (num a =? 0); Done (mkArray [] (num a) (max a)).

Definition array_destroy (a : array) : outcome unit := _ ← array_cleanup a; Done ().

Definition array_num (a : array) : Z := num a.

Definition array_get (a : array) (index : Z) : outcome Z :=
  _ ← KASSERT (index <? num a); deref (v a !! Z.to_nat index).

(** [a->v[index] = val]. *)
Definition store (a : array) (index val : Z) : outcome array :=
  if index <? Z.of_nat (length (v a)) then Done (mkArray (<[Z.to_nat index := val]> (v a)) (num a) (max a)) else Panic.

Definition array_set (a : array) (index val : Z) : outcome array :=
  _ ← KASSERT (index <? num a); store a index val.

(** The loop of [array_preallocate]; [None]: not ended within the fuel. *)
Fixpoint grow (fuel : nat) (newmax num : Z) : option Z :=
  match fuel with
  | O => None
  | S fuel => if newmax <? num then grow fuel (if newmax =? 0 then 4 else u32 (newmax * 2)) num else Some newmax
  end.

Definition GROW_FUEL : nat := 32.

(** [memcpy] of [n] bytes of [src] to the start of another block. *)
Definition memcpy_cells (dst src : list Z) (n : Z) : outcome (list Z) :=
  let k := Z.to_nat (n / sizeof_ptr) in
  if (k <=? length dst)%nat && (k <=? length src)%nat then Done (take k src ++ drop k dst) else Panic.

(** [memmove] of [n] bytes inside the block, from cell [src] to cell [dst]. *)
Definition memmove_cells (m : list Z) (dst src n : Z) : outcome (list Z) :=
  let k := n / sizeof_ptr in
  if (dst + k <=? Z.of_nat (length m)) && (src + k <=? Z.of_nat (length m))
  then Done (splice (Z.to_nat dst) (take (Z.to_nat k) (drop (Z.to_nat src) m)) m) else Panic.

Section arrays.
(** [block n]: the cells of the memory [kmalloc(n)] returns, if any. *)
Context (block : Z -> option (list Z)).

(** A loop that does not end is [Blocked]. *)
Definition array_preallocate (a : array) (n : Z) : outcome (Z * array) :=
  if max a <? n then
    match grow GROW_FUEL (max a) n with
    | None => Blocked
    | Some newmax =>
        match block (u32 (newmax * sizeof_ptr)) with
        | None => Done (ENOMEM, a)
        | Some newptr => newptr ← memcpy_cells newptr (v a) (u32 (num a * sizeof_ptr)); Done (0, mkArray newptr (num a) newmax)
        end
    end
  else Done (0, a).

Definition array_setsize (a : array) (n : Z) : outcome (Z * array) :=
  '(result, a) ← array_preallocate a n;
  if negb (result =? 0) then Done (result, a) else Done (0, mkArray (v a) n (max a)).

(** The result and the index of the new element. *)
Definition array_add (a : array) (val : Z) : outcome (res Z * array) :=
  let index := num a in
  '(ret, a) ← array_setsize a (u32 (index + 1));
  if negb (ret =? 0) then Done (Err ret, a) else a ← store a index val; Done (Ok index, a).

Definition array_remove (a : array) (index : Z) : outcome array :=
  _ ← KASSERT (num a <=? max a); _ ← KASSERT (index <? num a);
  let num_to_move := u32 (num a - (index + 1)) in
  m ← memmove_cells (v a) index (index + 1) (u32 (num_to_move * sizeof_ptr));
  Done (mkArray m (u32 (num a - 1)) (max a)).

(** ** Arrays as lists *)

(** [kmalloc] returns at least what was asked for. *)
Hypothesis block_size : forall n b, 0 <= n -> block n = Some b -> Z.of_nat (length b) = n / sizeof_ptr.

(** The sizes of blocks: none, or a power of two from 4 on. *)
Definition capacity (top : nat) (m : Z) : Prop := m = 0 \/ exists k, (k <= top)%nat /\ m = 4 * 2 ^ Z.of_nat k.

Record array_is (a : array) (l : list Z) : Prop := mkArrayIs {
  ar_num : num a = Z.of_nat (length l);
  ar_cells : exists spare, v a = l ++ spare;
  ar_max : max a = Z.of_nat (length (v a));
  ar_cap : capacity 27 (max a) }.

Lemma array_init_is : array_is array_init [].
Proof. constructor; cbn; [done|by exists []|done|by left]. Qed.

Lemma pow2_range k top : (k <= top)%nat -> 0 < 4 * 2 ^ Z.of_nat k <= 4 * 2 ^ Z.of_nat top.
Proof.
  intros Hk. assert (2 ^ Z.of_nat k <= 2 ^ Z.of_nat top) by (apply Z.pow_le_mono_r; lia).
  pose proof (Z.pow_pos_nonneg 2 (Z.of_nat k)). lia.
Qed.

(** One turn of the loop. *)
Lemma grow_turn k : (k <= 29)%nat ->
  (if 4 * 2 ^ Z.of_nat k =? 0 then 4 else u32 (4 * 2 ^ Z.of_nat k * 2)) =
  if decide (k = 29%nat) then 0 else 4 * 2 ^ Z.of_nat (S k).
Proof.
  intros Hk. pose proof (pow2_range k 29 Hk) as Hr. rewrite (proj2 (Z.eqb_neq _ _)) by lia.
  case_decide as Hd; [by subst k|]. pose proof (pow2_range (S k) 29 ltac:(lia)) as Hr'. change (4 * 2 ^ Z.of_nat 29) with (2 ^ 31) in *.
  rewrite Nat2Z.inj_succ, Z.pow_succ_r in * by lia. rewrite u32_small by lia. lia.
Qed.

(** The loop doubles from 4, so it ends at the first such size that is enough. *)
Lemma grow_from k n fuel :
  (k <= 29)%nat -> n <= 2 ^ 31 -> (29 - k < fuel)%nat ->
  exists j, (k <= j <= 29)%nat /\ grow fuel (4 * 2 ^ Z.of_nat k) n = Some (4 * 2 ^ Z.of_nat j) /\ n <= 4 * 2 ^ Z.of_nat j /\
    (j = k \/ 4 * 2 ^ Z.of_nat j < 2 * n).
Proof.
  revert k. induction fuel as [|fuel IH]; intros k Hk Hn Hf; [lia|]. cbn [grow].
  destruct (Z.ltb_spec (4 * 2 ^ Z.of_nat k) n) as [Hlt|Hge].
  - rewrite grow_turn by done.
    case_decide as Hd; [subst k; change (4 * 2 ^ Z.of_nat 29) with (2 ^ 31) in Hlt; lia|].
    destruct (IH (S k)) as (j&Hj&E&Hle&Hc); [lia..|]. exists j. split; [lia|]. split; [done|]. split; [done|].
    right. destruct Hc as [-> |?]; [rewrite Nat2Z.inj_succ, Z.pow_succ_r; lia|lia].
  - exists k. split; [lia|]. split; [done|]. split; [lia|by left].
Qed.

Lemma grow_S fuel m n :
  grow (S fuel) m n = if m <? n then grow fuel (if m =? 0 then 4 else u32 (m * 2)) n else Some m.
Proof. reflexivity. Qed.

Lemma grow_enough m n :
  capacity 29 m -> m < n -> n <= 2 ^ 31 ->
  exists j, (j <= 29)%nat /\ grow GROW_FUEL m n = Some (4 * 2 ^ Z.of_nat j) /\ n <= 4 * 2 ^ Z.of_nat j /\
    (j = 0%nat \/ 4 * 2 ^ Z.of_nat j < 2 * n).
Proof.
  intros Hm Hlt Hn. unfold GROW_FUEL. destruct Hm as [-> |(k&Hk&->)].
  - rewrite grow_S, (proj2 (Z.ltb_lt 0 n)) by lia. change (if 0 =? 0 then 4 else u32 (0 * 2)) with (4 * 2 ^ Z.of_nat 0).
    destruct (grow_from 0 n 31) as (j&Hj&E&Hle&Hc); [lia..|]. exists j. split; [lia|]. split; [done|]. split; [done|].
    done.
  - destruct (grow_from k n 32) as (j&Hj&E&Hle&Hc); [lia..|]. exists j. split; [lia|]. split; [done|]. split; [done|].
    destruct Hc as [-> |?]; lia.
Qed.

(** Above [2^31] the size goes around for ever. *)
Lemma grow_never fuel m n : capacity 29 m -> 2 ^ 31 < n -> grow fuel m n = None.
Proof.
  revert m. induction fuel as [|fuel IH]; intros m Hm Hn; [done|]. cbn [grow].
  assert (m < n) as Hlt.
  { destruct Hm as [-> |(k&Hk&->)]; [lia|]. pose proof (pow2_range k 29 Hk) as Hr.
    change (4 * 2 ^ Z.of_nat 29) with (2 ^ 31) in Hr. lia. }
  rewrite (proj2 (Z.ltb_lt _ _) Hlt). apply IH; [|done]. destruct Hm as [-> |(k&Hk&->)]; [right; by exists 0%nat; split; [lia|]|].
  rewrite grow_turn by done. case_decide; [by left|]. right. exists (S k). split; [lia|done].
Qed.

(** ** The operations on the list *)

Lemma preallocate_is a l n :
  array_is a l -> 0 <= n <= 2 ^ 29 ->
  (max a < n /\ array_preallocate a n = Done (ENOMEM, a)) \/
  exists a', array_preallocate a n = Done (0, a') /\ array_is a' l /\ n <= max a' /\ max a' <= Z.max (max a) (Z.max 4 (2 * n)).
Proof.
  intros Ha Hn. destruct (Ha) as [Hnum (spare&Hv) Hmax Hcap]. unfold array_preallocate.
  destruct (Z.ltb_spec (max a) n) as [Hlt|Hge]; [|right; exists a; split; [done|]; split; [done|]; lia].
  assert (capacity 29 (max a)) as Hcap' by (destruct Hcap as [?|(k&?&?)]; [by left|right; exists k; split; [lia|done]]).
  destruct (grow_enough (max a) n Hcap' Hlt) as (j&Hj&E&Hle&Hc); [lia|]. rewrite E.
  destruct (block _) as [b|] eqn:Eb; [|by left]. right. apply block_size in Eb; [|apply u32_range].
  assert (j <= 27)%nat as Hj27.
  { destruct Hc as [-> |Hc]; [lia|]. destruct (decide (j <= 27)%nat) as [|Hgt]; [done|]. assert (2 ^ 28 <= 2 ^ Z.of_nat j) by (apply Z.pow_le_mono_r; lia). lia. }
  pose proof (pow2_range j 27 Hj27) as Hr. change (4 * 2 ^ Z.of_nat 27) with (2 ^ 29) in Hr. unfold sizeof_ptr in *.
  rewrite u32_small, Z.div_mul in Eb by lia. assert (length l <= length (v a))%nat by (rewrite Hv, length_app; lia).
  unfold memcpy_cells, sizeof_ptr. rewrite u32_small, Z.div_mul by lia. rewrite Hnum, Nat2Z.id.
  rewrite !(proj2 (Nat.leb_le _ _)) by lia. cbn. eexists. split; [reflexivity|]. split; [constructor; cbn|cbn [max]; split; [done|]; destruct Hc as [-> |?]; [change (4 * 2 ^ Z.of_nat 0) with 4|]; lia].
  - done.
  - rewrite Hv, take_app_length. by eexists.
  - rewrite length_app, length_take, length_drop. lia.
  - right. by exists j.
Qed.

Lemma setsize_is a l n :
  array_is a l -> 0 <= n <= 2 ^ 29 ->
  (max a < n /\ array_setsize a n = Done (ENOMEM, a)) \/
  exists a' extra, array_setsize a n = Done (0, a') /\ array_is a' (take (Z.to_nat n) (l ++ extra)) /\
    n <= Z.of_nat (length (l ++ extra)) /\ v a' = l ++ extra.
Proof.
  intros Ha Hn. unfold array_setsize. destruct (preallocate_is a l n Ha Hn) as [[Hlt E]|(a'&E&Ha'&Hle&_)]; rewrite E; [by left|].
  right. cbn. destruct Ha' as [Hnum (spare&Hv) Hmax Hcap]. exists (mkArray (v a') n (max a')), spare.
  split; [done|]. rewrite <- Hv. split; [|split; [cbn; lia|done]].
  constructor; cbn; [rewrite length_take; lia| |done|done]. exists (drop (Z.to_nat n) (v a')). by rewrite take_drop.
Qed.

Lemma store_is a l i x :
  array_is a l -> 0 <= i < Z.of_nat (length l) ->
  exists a', store a i x = Done a' /\ array_is a' (<[Z.to_nat i := x]> l) /\ max a' = max a.
Proof.
  intros [Hnum (spare&Hv) Hmax Hcap] Hi. unfold store.
  assert (length (v a) = length l + length spare)%nat as Hlen by (by rewrite Hv, length_app).
  rewrite (proj2 (Z.ltb_lt _ _)) by lia. eexists. split; [reflexivity|]. split; [|done].
  constructor; cbn; rewrite ?length_insert; [done| |done|done].
  exists spare. rewrite Hv, insert_app_l by lia. done.
Qed.

Lemma add_is a l x :
  array_is a l -> Z.of_nat (length l) < 2 ^ 29 ->
  (max a = Z.of_nat (length l) /\ array_add a x = Done (Err ENOMEM, a)) \/
  exists a', array_add a x = Done (Ok (Z.of_nat (length l)), a') /\ array_is a' (l ++ [x]).
Proof.
  intros Ha Hn. pose proof (ar_num _ _ Ha) as Hnum. pose proof (ar_cells _ _ Ha) as (sp&Hsp). pose proof (ar_max _ _ Ha) as Hm.
  rewrite Hsp, length_app in Hm. unfold array_add. rewrite Hnum, u32_small by lia.
  destruct (setsize_is a l (Z.of_nat (length l) + 1) Ha) as [[Hlt E]|(a'&extra&E&Ha'&Hlen&Hv)]; [lia|rewrite E..]; [left|right].
  - split; [lia|done].
  - cbn. replace (Z.to_nat (Z.of_nat (length l) + 1)) with (S (length l)) in * by lia.
    rewrite length_app in Hlen. destruct extra as [|y extra]; [cbn in Hlen; lia|].
    replace (take (S (length l)) (l ++ y :: extra)) with (l ++ [y]) in Ha'.
    2: { rewrite (cons_middle y l extra), app_assoc, take_app_length'; [done|rewrite length_app; cbn; lia]. }
    destruct (store_is a' (l ++ [y]) (Z.of_nat (length l)) x Ha') as (a2&E2&Ha2&_); [rewrite length_app; cbn; lia|].
    rewrite E2. exists a2. split; [done|]. rewrite Nat2Z.id, insert_app_r_alt, Nat.sub_diag in Ha2 by lia. exact Ha2.
Qed.

Lemma remove_is a l i :
  array_is a l -> 0 <= i < Z.of_nat (length l) ->
  exists a', array_remove a i = Done a' /\ array_is a' (delete (Z.to_nat i) l).
Proof.
  intros [Hnum (spare&Hv) Hmax Hcap] Hi.
  assert (length (v a) = length l + length spare)%nat as Hlen by (by rewrite Hv, length_app).
  assert (max a <= 2 ^ 29) as Hsmall.
  { destruct Hcap as [-> |(k&Hk&->)]; [lia|]. apply (pow2_range k 27 Hk). }
  unfold array_remove. rewrite (proj2 (Z.leb_le _ _)), (proj2 (Z.ltb_lt _ _)) by lia. cbn [KASSERT]. cbn -[memmove_cells u32].
  unfold memmove_cells, sizeof_ptr. rewrite (u32_small (num a - (i + 1))), (u32_small ((num a - (i + 1)) * 4)), Z.div_mul by lia.
  rewrite !(proj2 (Z.leb_le _ _)) by lia. cbn -[u32]. eexists. split; [reflexivity|].
  set (j := Z.to_nat i). replace (Z.to_nat (num a - (i + 1))) with (length l - S j)%nat by lia.
  replace (Z.to_nat (i + 1)) with (S j) by lia.
  assert (length (take (length l - S j) (drop (S j) (v a))) = length l - S j)%nat as Hk by (rewrite length_take, length_drop; lia).
  constructor; cbn -[u32].
  - rewrite u32_small by lia. rewrite length_delete by (apply lookup_lt_is_Some; lia). lia.
  - exists (drop (length l - 1) (v a)). unfold splice. rewrite Hk, delete_take_drop, Hv.
    rewrite take_app_le by lia. rewrite drop_app_le by lia. rewrite take_app_le by (rewrite length_drop; lia).
    rewrite (take_ge (drop (S j) l)) by (rewrite length_drop; lia). rewrite <- app_assoc. do 3 f_equal. lia.
  - rewrite length_splice by (rewrite Hk; lia). done.
  - done.
Qed.

(** ** The properties *)

Inductive array_op :=
  | Op_get (i : Z) | Op_set (i x : Z) | Op_preallocate (n : Z) | Op_setsize (n : Z) | Op_add (x : Z) | Op_remove (i : Z).

Definition as_res (r : Z) : res Z := if r =? 0 then Ok 0 else Err r.

Definition array_exec (op : array_op) (a : array) : outcome (res Z * array) :=
  match op with
  | Op_get i => x ← array_get a i; Done (Ok x, a)
  | Op_set i x => a ← array_set a i x; Done (Ok 0, a)
  | Op_preallocate n => '(r, a) ← array_preallocate a n; Done (as_res r, a)
  | Op_setsize n => '(r, a) ← array_setsize a n; Done (as_res r, a)
  | Op_add x => array_add a x
  | Op_remove i => a ← array_remove a i; Done (Ok 0, a)
  end.

(** What the operations promise, on the list of the elements. *)
Definition list_defined (op : array_op) (l : list Z) : Prop :=
  match op with Op_get i | Op_set i _ | Op_remove i => i < Z.of_nat (length l) | _ => True end.

Definition list_step (op : array_op) (l : list Z) (r : res Z) (l' : list Z) : Prop :=
  match op with
  | Op_get i => l' = l /\ exists x, l !! Z.to_nat i = Some x /\ r = Ok x
  | Op_set i x => l' = <[Z.to_nat i := x]> l /\ r = Ok 0
  | Op_preallocate n => l' = l /\ (r = Ok 0 \/ r = Err ENOMEM)
  | Op_setsize n =>
      (r = Err ENOMEM /\ l' = l) \/
      (r = Ok 0 /\ Z.of_nat (length l') = n /\ exists extra, l' = take (Z.to_nat n) (l ++ extra))
  | Op_add x => (r = Err ENOMEM /\ l' = l) \/ (r = Ok (Z.of_nat (length l)) /\ l' = l ++ [x])
  | Op_remove i => l' = delete (Z.to_nat i) l /\ r = Ok 0
  end.

(** Indices and sizes are unsigned; an array has at most [2^29] elements, which is all
    of the memory the processor addresses directly. *)
Definition in_range (op : array_op) (l : list Z) : Prop :=
  match op with
  | Op_get i | Op_set i _ | Op_remove i => 0 <= i
  | Op_preallocate n | Op_setsize n => 0 <= n <= 2 ^ 29
  | Op_add _ => Z.of_nat (length l) < 2 ^ 29
  end.

(** C17. Every operation of an array does to it what it should do to the list of its
    elements: it reads, writes, appends, removes or resizes, keeps the other elements in
    order, and fails with ENOMEM and the array as it was, or, for an index outside, in the
    assertion. *)
Theorem array_refines a l op :
  array_is a l -> in_range op l ->
  (list_defined op l -> exists r a' l', array_exec op a = Done (r, a') /\ array_is a' l' /\ list_step op l r l') /\
  (~ list_defined op l -> array_exec op a = Panic).
Proof.
  intros Ha Hr. pose proof (ar_num _ _ Ha) as Hnum. pose proof (ar_cells _ _ Ha) as (spare&Hv).
  split; intros Hd.
  - destruct op as [i|i x|n|n|x|i]; cbn in Hr, Hd; cbn -[array_preallocate array_setsize array_add array_remove].
    + unfold array_get. rewrite (proj2 (Z.ltb_lt _ _)) by lia. cbn. destruct (lookup_lt_is_Some_2 l (Z.to_nat i)) as [x Hx]; [lia|].
      rewrite Hv, lookup_app_l, Hx by lia. cbn. eexists _, a, l. split; [done|]. split; [done|]. eauto.
    + unfold array_set. rewrite (proj2 (Z.ltb_lt _ _)) by lia. cbn -[store].
      destruct (store_is a l i x Ha) as (a'&E&Ha'&_); [lia|]. rewrite E. cbn. eauto 8.
    + destruct (preallocate_is a l n Ha) as [[_ E]|(a'&E&Ha'&_)]; [lia|rewrite E..]; cbn; eauto 10.
    + destruct (setsize_is a l n Ha) as [[_ E]|(a'&extra&E&Ha'&Hlen&_)]; [lia|rewrite E..]; cbn; [eauto 10|].
      eexists _, _, _. split; [done|]. split; [exact Ha'|]. right. split; [done|]. split; [rewrite length_take; lia|eauto].
    + destruct (add_is a l x Ha) as [[_ E]|(a'&E&Ha')]; [lia|rewrite E..]; eauto 10.
    + destruct (remove_is a l i Ha) as (a'&E&Ha'); [lia|]. rewrite E. cbn. eauto 8.
  - destruct op as [i|i x|n|n|x|i]; cbn in Hd; try done; cbn.
    + unfold array_get. by rewrite (proj2 (Z.ltb_ge _ _)) by lia.
    + unfold array_set. by rewrite (proj2 (Z.ltb_ge _ _)) by lia.
    + unfold array_remove. destruct (KASSERT (num a <=? max a)) as [[]| |] eqn:E; [|done|by destruct (num a <=? max a)].
      cbn. by rewrite (proj2 (Z.ltb_ge _ _)) by lia.
Qed.

(** The sizes the loop and the product of [array_preallocate] do not survive: asked
    for more than [2^31] elements it never returns; for more than [2^29] it asks
    [kmalloc] for [2^32] bytes or a multiple, which is 0 in 32 bits, so that
    [array_setsize] succeeds and the first store is outside of the block. *)
Theorem array_limits a l n b :
  array_is a l -> block 0 = Some b ->
  (2 ^ 31 < n < 2 ^ 32 -> array_setsize a n = Blocked /\ forall fuel, grow fuel (max a) n = None) /\
  (2 ^ 29 < n <= 2 ^ 31 ->
     exists a', array_setsize array_init n = Done (0, a') /\ array_num a' = n /\ forall x, array_set a' 0 x = Panic).
Proof.
  intros Ha Hb. split; intros Hn.
  - assert (capacity 29 (max a)) as Hcap by (destruct (ar_cap _ _ Ha) as [?|(k&?&?)]; [by left|right; exists k; split; [lia|done]]).
    split; [|intros fuel; apply grow_never; [done|lia]]. unfold array_setsize, array_preallocate.
    rewrite (grow_never _ _ n Hcap) by lia. rewrite (proj2 (Z.ltb_lt _ _)); [done|].
    destruct (ar_cap _ _ Ha) as [-> |(k&Hk&->)]; [lia|]. pose proof (pow2_range k 27 Hk) as Hr.
    change (4 * 2 ^ Z.of_nat 27) with (2 ^ 29) in Hr. lia.
  - destruct (grow_enough 0 n) as (j&Hj&E&Hle&_); [by left|lia|lia|].
    assert (28 <= j)%nat as Hj'.
    { destruct (decide (28 <= j)%nat) as [|Hlt]; [done|]. pose proof (pow2_range j 27 ltac:(lia)) as Hr.
      change (4 * 2 ^ Z.of_nat 27) with (2 ^ 29) in Hr. lia. }
    assert (u32 (4 * 2 ^ Z.of_nat j * sizeof_ptr) = 0) as H0 by (assert (j = 28%nat \/ j = 29%nat) as [-> | ->] by lia; done).
    assert (b = []) as ->.
    { apply block_size in Hb; [|lia]. change (0 / sizeof_ptr) with 0 in Hb. destruct b; [done|cbn in Hb; lia]. }
    unfold array_setsize, array_preallocate. cbn [max array_init]. rewrite (proj2 (Z.ltb_lt 0 n)) by lia. rewrite E, H0, Hb.
    eexists. split; [reflexivity|]. split; [done|]. intros x. unfold array_set. cbn.
    by rewrite (proj2 (Z.ltb_lt 0 n)) by lia.
Qed.

End arrays.

(** ** A kernel with 4096 bytes *)

Definition small_heap (n : Z) : option (list Z) := if n <=? 4096 then Some (replicate (Z.to_nat (n / sizeof_ptr)) 0) else None.

Lemma small_heap_size n b : 0 <= n -> small_heap n = Some b -> Z.of_nat (length b) = n / sizeof_ptr.
Proof.
  intros Hn. unfold small_heap. destruct (n <=? 4096); [|done]. intros [= <-]. rewrite length_replicate.
  pose proof (Z.div_pos n sizeof_ptr Hn). unfold sizeof_ptr in *. lia.
Qed.

Definition one_element : array := mkArray [5; 0; 0; 0] 1 4.

Lemma one_element_is : array_is one_element [5].
Proof. constructor; cbn; [done|by exists [0; 0; 0]|done|]. right. exists 0%nat. split; [lia|done]. Qed.

Lemma array_refines_witness :
  exists r a' l', array_exec small_heap (Op_add 6) one_element = Done (r, a') /\ array_is a' l' /\
    list_step (Op_add 6) [5] r l'.
Proof. apply (array_refines small_heap small_heap_size one_element [5] (Op_add 6)); [exact one_element_is|cbn; lia|exact I]. Defined.

Lemma array_limits_witness :
  exists a', array_setsize small_heap array_init (2 ^ 30) = Done (0, a') /\ array_num a' = 2 ^ 30 /\
    forall x, array_set a' 0 x = Panic.
Proof. apply (array_limits small_heap small_heap_size array_init [] (2 ^ 30) []); [exact array_init_is|reflexivity|lia]. Defined.
