(* ===== verification/ByteOrder.v ===== *)
(** * lib/bswap.c: swapping and splitting bytes

    Unsigned integers of 16, 32 and 64 bits; the machine is big-endian. *)

From S2P Require Import Prelude.

Definition u64 (x : Z) : Z := x mod 2 ^ 64.
Arguments u64 : simpl never.

Definition bswap16 (val : Z) : Z := u16 (Z.lor (Z.shiftl (Z.land val 0x00ff) 8) (Z.shiftr (Z.land val 0xff00) 8)).

Definition bswap32 (val : Z) : Z :=
  u32 (Z.lor (Z.lor (Z.lor
    (Z.shiftl (Z.land val 0x000000ff) 24)
    (Z.shiftl (Z.land val 0x0000ff00) 8))
    (Z.shiftr (Z.land val 0x00ff0000) 8))
    (Z.shiftr (Z.land val 0xff000000) 24)).

Definition bswap64 (val : Z) : Z :=
  u64 (Z.lor (Z.lor (Z.lor (Z.lor (Z.lor (Z.lor (Z.lor
    (Z.shiftl (Z.land val 0x00000000000000ff) 56)
    (Z.shiftl (Z.land val 0x000000000000ff00) 40))
    (Z.shiftl (Z.land val 0x0000000000ff0000) 24))
    (Z.shiftl (Z.land val 0x00000000ff000000) 8))
    (Z.shiftl (Z.land val 0x000000ff00000000) 8))
    (Z.shiftl (Z.land val 0x0000ff0000000000) 24))
    (Z.shiftr (Z.land val 0x00ff000000000000) 40))
    (Z.shiftr (Z.land val 0xff00000000000000) 56)).

(** The conversions to and from network byte order: [TO] on a big-endian machine. *)
Definition ntohs (val : Z) : Z := val.
Definition htons (val : Z) : Z := val.
Definition ntohl (val : Z) : Z := val.
Definition htonl (val : Z) : Z := val.
Definition ntohll (val : Z) : Z := val.
Definition htonll (val : Z) : Z := val.

Definition join32to64 (x1 x2 : Z) : Z := u64 (Z.lor (u64 (Z.shiftl x1 32)) x2).
Definition split64to32 (x : Z) : Z * Z := (u32 (Z.shiftr x 32), u32 (Z.land x 0xffffffff)).

(** ** Bytes *)

(** Byte [k] of a number, from the least significant one. *)
Definition byte (k x : Z) : Z := Z.shiftr x (8 * k) mod 256.

Lemma byte_bit k x i : 0 <= k -> 0 <= i < 8 -> Z.testbit (byte k x) i = Z.testbit x (i + 8 * k).
Proof. intros Hk Hi. unfold byte. change 256 with (2 ^ 8). rewrite Z.mod_pow2_bits_low, Z.shiftr_spec by lia. done. Qed.

Lemma byte_high k x i : 8 <= i -> Z.testbit (byte k x) i = false.
Proof. intros Hi. unfold byte. change 256 with (2 ^ 8). by apply Z.mod_pow2_bits_high. Qed.

(** A byte of one number equals a byte of another if the bits do. *)
Lemma byte_eq k x k' x' :
  0 <= k -> 0 <= k' -> (forall i, 0 <= i < 8 -> Z.testbit x (i + 8 * k) = Z.testbit x' (i + 8 * k')) -> byte k x = byte k' x'.
Proof.
  intros Hk Hk' H. apply Z.bits_inj'. intros i Hi. destruct (decide (i < 8)).
  - rewrite !byte_bit by lia. apply H. lia.
  - by rewrite !byte_high by lia.
Qed.

(** The bytes of a number of [n] bytes determine it. *)
Lemma bytes_eq n x y :
  0 <= n -> 0 <= x < 2 ^ (8 * n) -> 0 <= y < 2 ^ (8 * n) -> (forall k, 0 <= k < n -> byte k x = byte k y) -> x = y.
Proof.
  intros Hn Hx%below_bits Hy%below_bits H; [|lia..]. apply Z.bits_inj'. intros i Hi. destruct (decide (i < 8 * n)).
  - replace i with (i mod 8 + 8 * (i / 8)) by lia. rewrite <- !byte_bit by lia. by rewrite H by lia.
  - rewrite (proj2 Hx i), (proj2 Hy i) by lia. done.
Qed.

Definition in8 (a n : Z) : bool := (a <=? n) && (n <? a + 8).

Lemma mask_bit a n : 0 <= a -> 0 <= n -> Z.testbit (Z.shiftl 255 a) n = in8 a n.
Proof.
  intros Ha Hn. rewrite Z.shiftl_spec by lia. change 255 with (Z.ones 8). unfold in8.
  destruct (Z.leb_spec a n), (Z.ltb_spec n (a + 8)); cbn [andb].
  - apply Z.ones_spec_low. lia.
  - apply Z.ones_spec_high. lia.
  - apply Z.testbit_neg_r. lia.
  - lia.
Qed.

(** One term of a swap. *)
Lemma move_up x a s n : 0 <= a -> 0 <= s -> 0 <= n ->
  Z.testbit (Z.shiftl (Z.land x (Z.shiftl 255 a)) s) n = in8 (a + s) n && Z.testbit x (n - s).
Proof.
  intros. rewrite Z.shiftl_spec by lia. destruct (decide (s <= n)).
  - rewrite Z.land_spec, mask_bit, andb_comm by lia. f_equal. unfold in8. f_equal; lia.
  - rewrite Z.testbit_neg_r by lia. unfold in8. destruct (Z.leb_spec (a + s) n); [lia|done].
Qed.

Lemma move_down x a s n : 0 <= s <= a -> 0 <= n ->
  Z.testbit (Z.shiftr (Z.land x (Z.shiftl 255 a)) s) n = in8 (a - s) n && Z.testbit x (n + s).
Proof.
  intros. rewrite Z.shiftr_spec, Z.land_spec, mask_bit, andb_comm by lia. f_equal. unfold in8. f_equal; lia.
Qed.


(** Bit [n] of a swap is bit [f n] of the argument, where [f] moves whole bytes. *)
Ltac swap_bit :=
  repeat first
    [ rewrite Z.lor_spec
    | match goal with |- context [Z.shiftl (Z.land ?x ?m) ?s] =>
        let a := eval vm_compute in (Z.log2 (m / 255)) in
        change (Z.land x m) with (Z.land x (Z.shiftl 255 a)); rewrite (move_up x a s) by lia end
    | match goal with |- context [Z.shiftr (Z.land ?x ?m) ?s] =>
        let a := eval vm_compute in (Z.log2 (m / 255)) in
        change (Z.land x m) with (Z.land x (Z.shiftl 255 a)); rewrite (move_down x a s) by lia end ].

Lemma in8_true a n : a <= n < a + 8 -> in8 a n = true.
Proof. intros H. unfold in8. apply andb_true_intro. split; [apply Z.leb_le|apply Z.ltb_lt]; lia. Qed.
Lemma in8_false a n : n < a \/ a + 8 <= n -> in8 a n = false.
Proof. intros H. unfold in8. apply andb_false_iff. rewrite Z.leb_gt, Z.ltb_ge. lia. Qed.

Ltac in8s :=
  repeat match goal with
    | |- context [in8 ?a ?n] => first [rewrite (in8_true a n) by lia | rewrite (in8_false a n) by lia]
    end;
  rewrite ?orb_false_r, ?orb_false_l, ?andb_true_l, ?andb_false_l, ?orb_false_r; cbn [andb orb].

Lemma bswap16_byte x k : 0 <= k < 2 -> byte k (bswap16 x) = byte (1 - k) x.
Proof.
  intros Hk. apply byte_eq; [lia..|]. intros i Hi. unfold bswap16, u16. rewrite Z.mod_pow2_bits_low by lia. swap_bit.
  assert (k = 0 \/ k = 1) as [-> | ->] by lia; in8s; f_equal; lia.
Qed.

Lemma bswap32_byte x k : 0 <= k < 4 -> byte k (bswap32 x) = byte (3 - k) x.
Proof.
  intros Hk. apply byte_eq; [lia..|]. intros i Hi. unfold bswap32, u32. rewrite Z.mod_pow2_bits_low by lia. swap_bit.
  assert (k = 0 \/ k = 1 \/ k = 2 \/ k = 3) as [-> | [-> | [-> | ->]]] by lia; in8s; f_equal; lia.
Qed.

(** What [bswap64] does with byte [k]. *)
Definition bswap64_bytes (x k : Z) : Z :=
  if k =? 0 then byte 7 x else if k =? 1 then byte 6 x else if k =? 2 then 0 else if k =? 3 then 0 else
  if k =? 4 then byte 3 x else if k =? 5 then Z.lor (byte 2 x) (byte 4 x) else if k =? 6 then byte 1 x else byte 0 x.

Lemma byte_eq' k x y :
  0 <= k -> (forall i, 0 <= i < 8 -> Z.testbit x (i + 8 * k) = Z.testbit y i) -> (forall i, 8 <= i -> Z.testbit y i = false) -> byte k x = y.
Proof.
  intros Hk H Hh. apply Z.bits_inj'. intros i Hi. destruct (decide (i < 8)).
  - rewrite byte_bit by lia. apply H. lia.
  - rewrite byte_high, Hh by lia. done.
Qed.

Lemma bswap64_byte x k : 0 <= k < 8 -> byte k (bswap64 x) = bswap64_bytes x k.
Proof.
  intros Hk.
  assert (k = 0 \/ k = 1 \/ k = 2 \/ k = 3 \/ k = 4 \/ k = 5 \/ k = 6 \/ k = 7) as Hc by lia.
  apply byte_eq'; [lia| |].
  - intros i Hi. unfold bswap64, u64. rewrite Z.mod_pow2_bits_low by lia. swap_bit.
    destruct Hc as [-> | [-> | [-> | [-> | [-> | [-> | [-> | ->]]]]]]]; unfold bswap64_bytes; cbn [Z.eqb Pos.eqb];
      in8s; rewrite ?Z.lor_spec, ?byte_bit, ?Z.bits_0 by lia; try done; first [f_equal; lia | f_equal; f_equal; lia].
  - intros i Hi. destruct Hc as [-> | [-> | [-> | [-> | [-> | [-> | [-> | ->]]]]]]]; unfold bswap64_bytes; cbn [Z.eqb Pos.eqb];
      rewrite ?Z.lor_spec, ?byte_high, ?Z.bits_0 by lia; done.
Qed.

Lemma bswap16_range x : 0 <= bswap16 x < 2 ^ (8 * 2).
Proof. unfold bswap16, u16. apply Z.mod_pos_bound. lia. Qed.
Lemma bswap32_range x : 0 <= bswap32 x < 2 ^ (8 * 4).
Proof. apply u32_range. Qed.

(** ** The theorems *)

(** Swapping 16 and 32 bits: byte [k] of the result is byte [k] of the argument from
    the other end, and swapping twice is the identity. *)
Theorem bswap_spec x :
  (forall k, 0 <= k < 2 -> byte k (bswap16 x) = byte (1 - k) x) /\
  (0 <= x < 2 ^ 16 -> bswap16 (bswap16 x) = x) /\
  (forall k, 0 <= k < 4 -> byte k (bswap32 x) = byte (3 - k) x) /\
  (0 <= x < 2 ^ 32 -> bswap32 (bswap32 x) = x).
Proof.
  split; [apply bswap16_byte|]. split; [|split; [apply bswap32_byte|]].
  - intros Hx. apply (bytes_eq 2); [lia|apply bswap16_range|done|]. intros k Hk. rewrite !bswap16_byte by lia. f_equal. lia.
  - intros Hx. apply (bytes_eq 4); [lia|apply bswap32_range|done|]. intros k Hk. rewrite !bswap32_byte by lia. f_equal. lia.
Qed.

(** [bswap64] does not swap 64 bits.  Two of its shifts go the wrong way: the bytes 2
    and 3 of the result are 0, and byte 5 has two bytes of the argument on top of each
    other, so a number with anything in byte 5 cannot be got back. *)
Theorem bswap64_wrong :
  (forall x k, 0 <= k < 8 -> byte k (bswap64 x) = bswap64_bytes x k) /\
  bswap64 0x0000ff0000000000 = 0 /\ bswap64 0x0102030405060708 = 0x0807060500000201.
Proof. split; [apply bswap64_byte|]. by vm_compute. Qed.

(** A 64-bit number is its two halves as they lie in memory. *)
Theorem join_split x1 x2 x :
  (0 <= x1 < 2 ^ 32 -> 0 <= x2 < 2 ^ 32 -> split64to32 (join32to64 x1 x2) = (x1, x2)) /\
  (0 <= x < 2 ^ 64 -> join32to64 (fst (split64to32 x)) (snd (split64to32 x)) = x).
Proof.
  assert (Hj : forall a b, 0 <= a < 2 ^ 32 -> 0 <= b < 2 ^ 32 -> join32to64 a b = a * 2 ^ 32 + b).
  { intros a b Ha Hb. unfold join32to64, u64. rewrite Z.shiftl_mul_pow2 by lia. rewrite (Z.mod_small (a * 2 ^ 32)) by lia.
    rewrite <- Z.shiftl_mul_pow2 by lia.
    assert (Hz : Z.land (Z.shiftl a 32) b = 0).
    { apply Z.bits_inj'. intros i Hi. rewrite Z.land_spec, Z.bits_0. destruct (decide (i < 32)).
      - by rewrite Z.shiftl_spec_low by lia.
      - apply (below_bits 32) in Hb; [|lia]. rewrite (proj2 Hb) by lia. apply andb_false_r. }
    pose proof (Z.add_lor_land (Z.shiftl a 32) b) as Hl. rewrite Hz, Z.shiftl_mul_pow2 in Hl by lia. rewrite Z.shiftl_mul_pow2 by lia. rewrite Z.mod_small; lia. }
  assert (Hs : forall y, 0 <= y < 2 ^ 64 -> split64to32 y = (y / 2 ^ 32, y mod 2 ^ 32)).
  { intros y Hy. unfold split64to32. change 0xffffffff with (Z.ones 32). rewrite Z.land_ones, Z.shiftr_div_pow2 by lia.
    rewrite !u32_small by lia. done. }
  split.
  - intros H1 H2. rewrite Hj, Hs by lia. f_equal; lia.
  - intros Hx. rewrite Hs by done. cbn [fst snd]. rewrite Hj by lia. lia.
Qed.

Lemma join_split_witness : split64to32 (join32to64 5 7) = (5, 7) /\ join32to64 (fst (split64to32 99)) (snd (split64to32 99)) = 99.
Proof. destruct (join_split 5 7 99) as [H1 H2]. split; [apply H1|apply H2]; vm_compute; split; (discriminate || reflexivity). Defined.
Lemma bswap_spec_witness : bswap32 (bswap32 258) = 258.
Proof. destruct (bswap_spec 258) as (_ & _ & _ & H). apply H. vm_compute. split; (discriminate || reflexivity). Defined.
