(* ===== verification/Timekeeping.v ===== *)
(** * Times: lib/time.c, dev/generic/rtclock.c, the clock of dev/lamebus/ltimer.c *)

From S2P Require Import Prelude.

(** [tv_sec] has 64 bits and [tv_nsec] 32, both signed. *)
Record timespec := mkTime { tv_sec : Z; tv_nsec : Z }.

Definition s64 (x : Z) : Z := (x + 2 ^ 63) mod 2 ^ 64 - 2 ^ 63.
Arguments s64 : simpl never.

Lemma s64_small x : - 2 ^ 63 <= x < 2 ^ 63 -> s64 x = x.
Proof. intros. unfold s64. rewrite Z.mod_small; lia. Qed.

(** ** lib/time.c

    The arguments are pointers, and may be equal: the times are in a store. *)

#[local] Abbreviation times := (gmap Z timespec) (only parsing).

Definition get_ts (p : Z) : K times timespec := fun s => t ← deref (s !! p); Done (t, s).
Definition put_sec (p x : Z) : K times unit := fun s =>
  t ← deref (s !! p); Done ((), <[p := mkTime (s64 x) (tv_nsec t)]> s).
Definition put_nsec (p x : Z) : K times unit := fun s =>
  t ← deref (s !! p); Done ((), <[p := mkTime (tv_sec t) (s32 x)]> s).

Definition timespec_add (ts1 ts2 ret : Z) : K times unit :=
  a ← get_ts ts1; b ← get_ts ts2;
  put_nsec ret (tv_nsec a + tv_nsec b);;
  a ← get_ts ts1; b ← get_ts ts2;
  put_sec ret (tv_sec a + tv_sec b);;
  r ← get_ts ret;
  if tv_nsec r >=? 1000000000 then
    put_nsec ret (tv_nsec r - 1000000000);;
    r ← get_ts ret;
    put_sec ret (tv_sec r + 1)
  else mret ().

Definition timespec_sub (ts1 ts2 ret : Z) : K times unit :=
  r ← get_ts ts1;
  b ← get_ts ts2;
  let r := if tv_nsec r <? tv_nsec b then mkTime (s64 (tv_sec r - 1)) (s32 (tv_nsec r + 1000000000)) else r in
  b ← get_ts ts2;
  let r := mkTime (s64 (tv_sec r - tv_sec b)) (s32 (tv_nsec r - tv_nsec b)) in
  _ ← get_ts ret;
  modify (fun s => <[ret := r]> s).

(** ** The clock *)

(** What is known about a clock device is how it tells the time. *)
Definition clock_softc := outcome timespec.

Definition config_rtclock (the_clock : option clock_softc) (rtc : clock_softc) (unit : Z) : outcome (Z * option clock_softc) :=
  if negb (unit =? 0) then mret (ENODEV, the_clock) else
  KASSERT (match the_clock with None => true | Some _ => false end);;
  mret (0, Some rtc).

Definition gettime (the_clock : option clock_softc) : outcome timespec := c ← deref the_clock; c.

(** The time of the ltimer card, from the three registers that are read one after the
    other; the 32-bit values are stored in [tv_nsec] and [tv_sec]. *)
Definition ltimer_gettime (secs1 nsec secs2 : Z) : timespec :=
  let n := s32 nsec in
  if n <? 5000000 then mkTime secs2 n else mkTime secs1 n.

(** ** Times as numbers of nanoseconds *)

Definition normal (t : timespec) : Prop := 0 <= tv_nsec t < 1000000000.
Definition nanos (t : timespec) : Z := tv_sec t * 1000000000 + tv_nsec t.

Lemma nanos_inj a b : normal a -> normal b -> nanos a = nanos b -> a = b.
Proof. unfold normal, nanos. destruct a as [s n], b as [s' n']; cbn. intros. f_equal; lia. Qed.

Lemma get_ts_eq p t s : s !! p = Some t -> get_ts p s = Done (t, s).
Proof. intros H. unfold get_ts. by rewrite H. Qed.

(** Seconds that can be added and subtracted. *)
Definition in_reach (t : timespec) : Prop := - 2 ^ 61 <= tv_sec t < 2 ^ 61.

Lemma sec_kept (s : times) p t ret r0 n :
  s !! p = Some t -> s !! ret = Some r0 ->
  exists t', <[ret := mkTime (tv_sec r0) n]> s !! p = Some t' /\ tv_sec t' = tv_sec t.
Proof.
  intros Hp Hr. destruct (decide (ret = p)) as [->|Hne].
  - eexists. split; [apply lookup_insert_eq|]. cbn. congruence.
  - exists t. by rewrite lookup_insert_ne.
Qed.

Lemma K_step {A B} (m : K times A) (f : A -> K times B) s r s' : m s = Done (r, s') -> (m ≫= f) s = f r s'.
Proof. intros H. by rewrite K_bind_eq, H. Qed.

Lemma put_nsec_eq p x t s : s !! p = Some t -> put_nsec p x s = Done ((), <[p := mkTime (tv_sec t) (s32 x)]> s).
Proof. intros H. unfold put_nsec. by rewrite H. Qed.
Lemma put_sec_eq p x t s : s !! p = Some t -> put_sec p x s = Done ((), <[p := mkTime (s64 x) (tv_nsec t)]> s).
Proof. intros H. unfold put_sec. by rewrite H. Qed.

Ltac tstep := erewrite K_step; [|first [by apply get_ts_eq | by apply put_nsec_eq | by apply put_sec_eq]].

(** Sums and differences of normal times are normal, and are the sum and the
    difference in nanoseconds, whichever of the three pointers are equal; nothing else
    changes. *)
Theorem timespec_spec s ts1 ts2 ret a b :
  s !! ts1 = Some a -> s !! ts2 = Some b -> is_Some (s !! ret) -> normal a -> normal b -> in_reach a -> in_reach b ->
  (exists r, timespec_add ts1 ts2 ret s = Done ((), <[ret := r]> s) /\ normal r /\ nanos r = nanos a + nanos b) /\
  (exists r, timespec_sub ts1 ts2 ret s = Done ((), <[ret := r]> s) /\ normal r /\ nanos r = nanos a - nanos b).
Proof.
  unfold normal, in_reach, nanos. intros Ha Hb [r0 Hr] Na Nb Ra Rb. split.
  - unfold timespec_add. do 3 tstep. rewrite s32_small by lia.
    destruct (sec_kept s ts1 a ret r0 (tv_nsec a + tv_nsec b) Ha Hr) as (a' & Ha' & Ea).
    destruct (sec_kept s ts2 b ret r0 (tv_nsec a + tv_nsec b) Hb Hr) as (b' & Hb' & Eb).
    do 2 tstep. erewrite K_step; [|apply put_sec_eq, lookup_insert_eq]. rewrite insert_insert_eq. cbn [tv_nsec].
    erewrite K_step; [|apply get_ts_eq, lookup_insert_eq]. cbn [tv_nsec]. rewrite Ea, Eb, s64_small by lia.
    rewrite Z.geb_leb. destruct (Z.leb_spec 1000000000 (tv_nsec a + tv_nsec b)).
    + erewrite K_step; [|apply put_nsec_eq, lookup_insert_eq]. rewrite insert_insert_eq. cbn [tv_sec].
      erewrite K_step; [|apply get_ts_eq, lookup_insert_eq]. cbn [tv_sec].
      erewrite put_sec_eq by apply lookup_insert_eq. rewrite insert_insert_eq. cbn [tv_nsec].
      rewrite s32_small, s64_small by lia. eexists. split; [done|]. cbn. lia.
    + eexists. split; [done|]. cbn. lia.
  - unfold timespec_sub. do 4 tstep. unfold modify.
    destruct (Z.ltb_spec (tv_nsec a) (tv_nsec b)); cbn [tv_sec tv_nsec]; eexists; (split; [done|]); cbn [tv_sec tv_nsec].
    + rewrite (s64_small (tv_sec a - 1)), (s32_small (tv_nsec a + 1000000000)), s64_small, s32_small by lia. lia.
    + rewrite s64_small, s32_small by lia. lia.
Qed.

Lemma timespec_spec_witness : exists r, timespec_sub 1 2 2 (<[1 := mkTime 5 3]> {[2 := mkTime 2 7]}) =
  Done ((), <[2 := r]> (<[1 := mkTime 5 3]> {[2 := mkTime 2 7]})) /\ nanos r = 2999999996.
Proof.
  destruct (timespec_spec (<[1 := mkTime 5 3]> {[2 := mkTime 2 7]}) 1 2 2 (mkTime 5 3) (mkTime 2 7)) as [_ (r & H1 & _ & H2)].
  - reflexivity.
  - reflexivity.
  - eexists. reflexivity.
  - unfold normal. cbn. lia.
  - unfold normal. cbn. lia.
  - unfold in_reach. cbn. lia.
  - unfold in_reach. cbn. lia.
  - exists r. split; [exact H1|]. rewrite H2. reflexivity.
Defined.

(** ** Reading the clock while it runs *)

(** The registers when the time is [t], in nanoseconds. *)
Definition sec_reg (t : Z) : Z := t / 1000000000.
Definition nsec_reg (t : Z) : Z := t mod 1000000000.

(** The three registers are read at the times [t1], [t2] and [t3].  If the second
    reading is at most 5 ms after the first, and the third less than 995 ms after
    the second, the result is the time of the second reading, also when the seconds
    turn over in between. *)
Theorem ltimer_gettime_spec t1 t2 t3 :
  0 <= t1 -> t1 <= t2 <= t1 + 5000000 -> t2 <= t3 <= t2 + 995000000 -> t3 < 2 ^ 32 * 1000000000 ->
  let r := ltimer_gettime (sec_reg t1) (nsec_reg t2) (sec_reg t3) in normal r /\ nanos r = t2.
Proof.
  intros H1 H2 H3 H4 r. unfold r, ltimer_gettime, sec_reg, nsec_reg, normal, nanos.
  rewrite s32_small by lia. destruct (Z.ltb_spec (t2 mod 1000000000) 5000000); cbn [tv_sec tv_nsec]; lia.
Qed.

Lemma ltimer_gettime_spec_witness : nanos (ltimer_gettime (sec_reg 999999000) (nsec_reg 1000000500) (sec_reg 1000001000)) = 1000000500.
Proof. apply (ltimer_gettime_spec 999999000 1000000500 1000001000); lia. Defined.

(** Beyond these limits a second can be lost. *)
Example ltimer_too_slow : nanos (ltimer_gettime (sec_reg 994000000) (nsec_reg 1005000000) (sec_reg 1005000000)) = 5000000.
Proof. reflexivity. Qed.
