(* ===== verification/CopyInOut.v ===== *)
(** * vm/copyinout.c: moving data between kernel and user memory

    User memory is a finite map from addresses to bytes: an address that is not
    in the map is not mapped, and touching it makes the VM system fail the access,
    which brings execution back to the [setjmp] of the copy function with
    result 1 (tm_badfaultfunc and copyfail).  The map is page-grained in the
    kernel, so whether [memcpy] moves words or bytes, what was copied before a
    fault is the longest mapped prefix. *)

From S2P Require Import Prelude.

(** [MIPS_KSEG0]. *)
Definition USERSPACETOP : Z := 2 ^ 31.

Abbreviation umem := (gmap Z Z).

(** The result and [*stoplen]. *)
Definition copycheck (userptr len : Z) : Z * Z :=
  let bot := userptr in
  let top := u32 (u32 (bot + len) - 1) in
  if top <? bot then (EFAULT, len) else
  if bot >=? USERSPACETOP then (EFAULT, len) else
  if top >=? USERSPACETOP then (0, USERSPACETOP - bot) else (0, len).

(** [memcpy] out of user memory: the bytes read before the first fault, and
    whether there was none. *)
Fixpoint user_read (m : umem) (a : Z) (n : nat) : list Z * bool :=
  match n with
  | O => ([], true)
  | S n =>
      match m !! a with
      | None => ([], false)
      | Some b => let '(l, ok) := user_read m (a + 1) n in (b :: l, ok)
      end
  end.

(** [memcpy] into user memory. *)
Fixpoint user_write (m : umem) (a : Z) (src : list Z) : umem * bool :=
  match src with
  | [] => (m, true)
  | b :: src =>
      match m !! a with
      | None => (m, false)
      | Some _ => user_write (<[a := b]> m) (a + 1) src
      end
  end.

Definition copyin (m : umem) (usersrc : Z) (dest : list Z) (len : Z) : Z * list Z :=
  let '(result, stoplen) := copycheck usersrc len in
  if negb (result =? 0) then (result, dest) else
  if negb (stoplen =? len) then (EFAULT, dest) else
  let '(got, ok) := user_read m usersrc (Z.to_nat len) in
  (if ok then 0 else EFAULT, splice 0 got dest).

Definition copyout (m : umem) (src : list Z) (userdest len : Z) : Z * umem :=
  let '(result, stoplen) := copycheck userdest len in
  if negb (result =? 0) then (result, m) else
  if negb (stoplen =? len) then (EFAULT, m) else
  let '(m', ok) := user_write m userdest (take (Z.to_nat len) src) in
  (if ok then 0 else EFAULT, m').

(** [copystr] with the accesses to [src] and [dest] as parameters, since one of
    them is in user memory and may fault.  The result is [None] when a fault
    left the function through [longjmp]; the second component is [*gotlen], when
    it was stored. *)
Fixpoint copystr {D : Type} (rd : Z -> option Z) (wr : D -> Z -> Z -> option D)
    (dest : D) (i maxlen stoplen : Z) (k : nat) : option Z * option Z * D :=
  match k with
  | O => (Some (if stoplen <? maxlen then EFAULT else ENAMETOOLONG), None, dest)
  | S k =>
      match rd i with
      | None => (None, None, dest)
      | Some c =>
          match wr dest i c with
          | None => (None, None, dest)
          | Some dest =>
              if c =? 0 then (Some 0, Some (i + 1), dest)
              else copystr rd wr dest (i + 1) maxlen stoplen k
          end
      end
  end.

Definition copyinstr (m : umem) (usersrc : Z) (dest : list Z) (len : Z)
    : Z * option Z * list Z :=
  let '(result, stoplen) := copycheck usersrc len in
  if negb (result =? 0) then (result, None, dest) else
  let '(r, got, dest) :=
    copystr (fun i => m !! (usersrc + i)) (fun d i c => Some (<[Z.to_nat i := c]> d))
      dest 0 len stoplen (Z.to_nat (Z.min len stoplen)) in
  (default EFAULT r, got, dest).

Definition copyoutstr (m : umem) (src : Z -> Z) (userdest len : Z)
    : Z * option Z * umem :=
  let '(result, stoplen) := copycheck userdest len in
  if negb (result =? 0) then (result, None, m) else
  let '(r, got, m) :=
    copystr (fun i => Some (src i))
      (fun m i c => match m !! (userdest + i) with
                    | Some _ => Some (<[userdest + i := c]> m) | None => None end)
      m 0 len stoplen (Z.to_nat (Z.min len stoplen)) in
  (default EFAULT r, got, m).

(** ** The address check *)

(** A non-empty region that starts in user space and does not wrap. *)
Definition in_userspace (a len : Z) : Prop := 0 < len /\ a + len <= USERSPACETOP.

Lemma copycheck_full a len r :
  0 <= a < 2 ^ 32 -> 0 <= len < 2 ^ 32 ->
  copycheck a len = (r, len) -> r = 0 -> in_userspace a len.
Proof.
  unfold copycheck, in_userspace, USERSPACETOP, u32, EFAULT. intros Ha Hl.
  destruct (Z.ltb_spec (((a + len) mod 2 ^ 32 - 1) mod 2 ^ 32) a); [intros [= <-]; done|].
  rewrite !Z.geb_leb.
  destruct (Z.leb_spec (2 ^ 31) a); [intros [= <-]; done|].
  destruct (Z.leb_spec (2 ^ 31) (((a + len) mod 2 ^ 32 - 1) mod 2 ^ 32)).
  - intros [= <- He] _. lia.
  - intros _ _. lia.
Qed.

Lemma copycheck_ok a len :
  0 <= a -> in_userspace a len -> copycheck a len = (0, len).
Proof.
  unfold copycheck, in_userspace, USERSPACETOP, u32, EFAULT. intros Ha [Hl Ht].
  rewrite (Z.mod_small (a + len)) by lia. rewrite Z.mod_small by lia.
  rewrite (proj2 (Z.ltb_ge _ _)) by lia. rewrite !Z.geb_leb.
  rewrite !(proj2 (Z.leb_gt _ _)) by lia. done.
Qed.

Lemma copycheck_cases a len :
  0 <= a < 2 ^ 32 -> 0 <= len < 2 ^ 32 ->
  (copycheck a len = (0, len) /\ in_userspace a len) \/
  (copycheck a len = (EFAULT, len) /\ (USERSPACETOP <= a \/ len = 0 /\ a <> 0 \/ 2 ^ 32 < a + len)) \/
  (copycheck a len = (0, USERSPACETOP - a) /\ a < USERSPACETOP /\
     (USERSPACETOP < a + len <= 2 ^ 32 \/ a = 0 /\ len = 0)).
Proof.
  unfold copycheck, in_userspace, USERSPACETOP, u32, EFAULT. intros Ha Hl.
  destruct (Z.ltb_spec (((a + len) mod 2 ^ 32 - 1) mod 2 ^ 32) a).
  { right; left. split; [done|]. lia. }
  rewrite !Z.geb_leb.
  destruct (Z.leb_spec (2 ^ 31) a).
  { right; left. split; [done|]. lia. }
  destruct (Z.leb_spec (2 ^ 31) (((a + len) mod 2 ^ 32 - 1) mod 2 ^ 32)).
  - right; right. split; [done|]. lia.
  - left. split; [done|]. lia.
Qed.

(** ** Reads and writes of user memory *)

(** The [n] bytes from [a] on are mapped. *)
Definition mapped (m : umem) (a : Z) (n : nat) : Prop :=
  forall i, (i < n)%nat -> is_Some (m !! (a + Z.of_nat i)).

Lemma mapped_cons m a n b :
  m !! a = Some b -> mapped m a (S n) <-> mapped m (a + 1) n.
Proof.
  intros Hb. split; intros H i Hi.
  - replace (a + 1 + Z.of_nat i) with (a + Z.of_nat (S i)) by lia. apply H. lia.
  - destruct i as [|i]; [rewrite Z.add_0_r; by eexists|].
    replace (a + Z.of_nat (S i)) with (a + 1 + Z.of_nat i) by lia. apply H. lia.
Qed.

Lemma user_read_spec m a n l ok :
  user_read m a n = (l, ok) ->
  (length l <= n)%nat /\ (forall i, (i < length l)%nat -> l !! i = m !! (a + Z.of_nat i)) /\
  (ok = true <-> mapped m a n) /\ (ok = true -> length l = n).
Proof.
  revert a l. induction n as [|n IH]; intros a l; cbn [user_read].
  - intros [= <- <-]. split_and!; try done; cbn; try lia. by split; [intros _ i ?; lia|].
  - destruct (m !! a) as [b|] eqn:Hb.
    + destruct (user_read m (a + 1) n) as [l' ok'] eqn:E. intros [= <- <-].
      destruct (IH _ _ E) as (Hl & Hi & Ho & Hlen). cbn. split_and!; [lia| | |lia].
      * intros [|i] Hlt; cbn; [by rewrite Z.add_0_r|].
        rewrite Hi by lia. f_equal. lia.
      * rewrite Ho. symmetry. by apply mapped_cons with b.
    + intros [= <- <-]. cbn. split_and!; [lia|lia| |done].
      split; [done|]. intros Hm. specialize (Hm 0%nat ltac:(lia)).
      rewrite Z.add_0_r, Hb in Hm. by destruct Hm.
Qed.

Lemma mapped_insert m a x b n :
  is_Some (m !! x) -> mapped (<[x := b]> m) a n <-> mapped m a n.
Proof.
  intros Hx. split; intros H i Hi; specialize (H i Hi).
  - rewrite lookup_insert in H. case_decide as He; [by rewrite <- He|done].
  - rewrite lookup_insert. by case_decide.
Qed.

Lemma user_write_spec m a src m' ok :
  user_write m a src = (m', ok) ->
  (forall x, ~ (a <= x < a + Z.of_nat (length src)) -> m' !! x = m !! x) /\
  (forall x, is_Some (m' !! x) <-> is_Some (m !! x)) /\
  (ok = true <-> mapped m a (length src)) /\
  (ok = true -> forall i, (i < length src)%nat -> m' !! (a + Z.of_nat i) = src !! i).
Proof.
  revert m a. induction src as [|b src IH]; intros m a; cbn [user_write].
  - intros [= <- <-]. split_and!; try done; cbn; [|intros; lia].
    by split; [intros _ i ?; lia|].
  - destruct (m !! a) as [c|] eqn:Hc.
    + intros E. destruct (IH _ _ E) as (Hout & Hdom & Hok & Hval). cbn [length].
      assert (Hs : is_Some (m !! a)) by by exists c.
      split_and!.
      * intros x Hx. rewrite Hout by lia. apply lookup_insert_ne. lia.
      * intros x. rewrite Hdom, lookup_insert. case_decide as He; [|done].
        split; [by rewrite <- He|by eexists].
      * rewrite Hok, mapped_insert by done. symmetry. by apply mapped_cons with c.
      * intros Ho [|i] Hi; cbn.
        -- rewrite Z.add_0_r, Hout by lia. apply lookup_insert_eq.
        -- replace (a + Z.of_nat (S i)) with (a + 1 + Z.of_nat i) by lia. apply Hval; [done|lia].
    + intros [= <- <-]. split_and!; try done.
      split; [done|]. intros Hm. specialize (Hm 0%nat ltac:(cbn; lia)).
      rewrite Z.add_0_r, Hc in Hm. by destruct Hm.
Qed.

(** ** Strings *)

(** The first zero byte of the string [rd] reads from [i] on is number [n], and
    every byte before it can be read. *)
Definition str_len (rd : Z -> option Z) (i : Z) (n : nat) : Prop :=
  rd (i + Z.of_nat n) = Some 0 /\
  forall j, (j < n)%nat -> exists c, rd (i + Z.of_nat j) = Some c /\ c <> 0.

(** None of the first [k] bytes is a zero or a fault. *)
Definition no_end (rd : Z -> option Z) (i : Z) (k : nat) : Prop :=
  forall j, (j < k)%nat -> exists c, rd (i + Z.of_nat j) = Some c /\ c <> 0.

Lemma no_end_S rd i k c :
  rd i = Some c -> c <> 0 -> no_end rd (i + 1) k -> no_end rd i (S k).
Proof.
  intros Hc Hnz H [|j] Hj; [rewrite Z.add_0_r; by exists c|].
  destruct (H j) as (c' & Hc' & ?); [lia|]. exists c'. split; [|done]. rewrite <- Hc'. f_equal. lia.
Qed.

Lemma str_len_S rd i n c :
  rd i = Some c -> c <> 0 -> str_len rd (i + 1) n -> str_len rd i (S n).
Proof.
  intros Hc Hnz [Hz H]. split; [rewrite <- Hz; f_equal; lia|]. by apply no_end_S with c.
Qed.

(** What the copy loop does when the destination is a kernel buffer. *)
Lemma copystr_list rd d i maxlen stoplen k r g d' :
  copystr rd (fun (d : list Z) i c => Some (<[Z.to_nat i := c]> d)) d i maxlen stoplen k = (r, g, d') ->
  0 <= i -> (Z.to_nat i + k <= length d)%nat ->
  length d' = length d /\
  (forall j, (j < Z.to_nat i \/ Z.to_nat i + k <= j)%nat -> d' !! j = d !! j) /\
  match r with
  | None => exists n, (n < k)%nat /\ no_end rd i n /\ rd (i + Z.of_nat n) = None
  | Some e =>
      (e = 0 /\ exists n, (n < k)%nat /\ str_len rd i n /\ g = Some (i + Z.of_nat n + 1) /\
         forall j, (j <= n)%nat -> d' !! (Z.to_nat i + j)%nat = rd (i + Z.of_nat j)) \/
      (e = (if stoplen <? maxlen then EFAULT else ENAMETOOLONG) /\ no_end rd i k)
  end.
Proof.
  revert d i. induction k as [|k IH]; intros d i; cbn [copystr].
  { intros [= <- <- <-] Hi Hl. split_and!; try done. right. split; [done|]. intros j Hj. lia. }
  intros E Hi Hl. destruct (rd i) as [c|] eqn:Hc.
  2: { injection E as <- <- <-. split_and!; try done. exists 0%nat. rewrite Z.add_0_r.
       split_and!; [lia| |done]. intros j Hj. lia. }
  destruct (Z.eqb_spec c 0) as [->|Hnz].
  - injection E as <- <- <-. rewrite length_insert. split_and!; [done| |].
    + intros j Hj. apply list_lookup_insert_ne. lia.
    + left. split; [done|]. exists 0%nat. rewrite Z.add_0_r.
      split_and!; [lia| |done|].
      * split; [by rewrite Z.add_0_r|]. intros j Hj. lia.
      * intros j Hj. replace j with 0%nat by lia. rewrite Nat.add_0_r, Z.add_0_r, Hc.
        apply list_lookup_insert_eq. lia.
  - apply IH in E; [|lia|rewrite length_insert; lia].
    rewrite length_insert in E. destruct E as (Hlen & Hout & Hr).
    replace (Z.to_nat (i + 1)) with (S (Z.to_nat i)) in * by lia.
    split_and!; [done| |].
    + intros j Hj. rewrite Hout by lia. apply list_lookup_insert_ne. lia.
    + destruct r as [e|].
      * destruct Hr as [(-> & n & Hn & Hs & -> & Hv)|[-> Hne]].
        -- left. split; [done|]. exists (S n). split_and!; [lia| |f_equal; lia|].
           ++ by apply str_len_S with c.
           ++ intros [|j] Hj.
              ** rewrite Nat.add_0_r, Z.add_0_r, Hc, Hout by lia. apply list_lookup_insert_eq. lia.
              ** replace (Z.to_nat i + S j)%nat with (S (Z.to_nat i) + j)%nat by lia.
                 rewrite Hv by lia. f_equal. lia.
        -- right. split; [done|]. by apply no_end_S with c.
      * destruct Hr as (n & Hn & Hne & Hf). exists (S n). split_and!; [lia| |].
        -- by apply no_end_S with c.
        -- rewrite <- Hf. f_equal. lia.
Qed.

(** ** The theorems *)

(** C32. Whatever address and length a process hands to the kernel, [copyout]
    returns 0 or [EFAULT], touches no address outside the buffer and none at or
    above [USERSPACETOP], maps and unmaps nothing, and when it returns 0 the whole
    source is in the buffer, which lies in user space. *)
Theorem copyout_confined m src userdest len r m' :
  0 <= userdest < 2 ^ 32 -> 0 <= len < 2 ^ 32 -> len <= Z.of_nat (length src) ->
  copyout m src userdest len = (r, m') ->
  (r = 0 \/ r = EFAULT) /\
  (forall x, m' !! x <> m !! x -> userdest <= x < userdest + len /\ x < USERSPACETOP) /\
  (forall x, is_Some (m' !! x) <-> is_Some (m !! x)) /\
  (r = 0 -> in_userspace userdest len /\
     forall i, (i < Z.to_nat len)%nat -> m' !! (userdest + Z.of_nat i) = src !! i).
Proof.
  intros Ha Hl Hs. unfold copyout.
  destruct (copycheck_cases userdest len Ha Hl) as [[-> Hin]|[[-> Hbad]|[-> Hbad]]]; cbn [negb Z.eqb].
  - rewrite Z.eqb_refl. cbn [negb].
    destruct (user_write m userdest (take (Z.to_nat len) src)) as [m1 ok] eqn:E.
    intros [= <- <-]. apply user_write_spec in E as (Hout & Hdom & Hok & Hval).
    rewrite length_take in *. split_and!.
    + destruct ok; auto.
    + intros x Hx. unfold in_userspace in Hin.
      destruct (decide (userdest <= x < userdest + len)); [lia|].
      destruct Hx. apply Hout. lia.
    + done.
    + destruct ok; [|discriminate]. intros _. split; [done|]. intros i Hi.
      rewrite Hval, lookup_take_lt by (done || lia). done.
  - cbn. intros [= <- <-]. split_and!; [by right|done|done|discriminate].
  - destruct (Z.eqb_spec (USERSPACETOP - userdest) len) as [He|Hne]; cbn [negb].
    + unfold USERSPACETOP in *. lia.
    + intros [= <- <-]. split_and!; [by right|done|done|discriminate].
Qed.

(** [copyin] returns 0 exactly when the buffer is not empty, lies in user
    space and is mapped; then the destination starts with the bytes of the
    buffer.  Otherwise it returns [EFAULT]. *)
Theorem copyin_spec m usersrc dest len :
  0 <= usersrc < 2 ^ 32 -> 0 <= len < 2 ^ 32 -> len <= Z.of_nat (length dest) ->
  exists r dest', copyin m usersrc dest len = (r, dest') /\ length dest' = length dest /\
    (forall j, (Z.to_nat len <= j)%nat -> dest' !! j = dest !! j) /\
    ((r = 0 /\ in_userspace usersrc len /\ mapped m usersrc (Z.to_nat len) /\
        forall j, (j < Z.to_nat len)%nat -> dest' !! j = m !! (usersrc + Z.of_nat j)) \/
     (r = EFAULT /\ ~ (in_userspace usersrc len /\ mapped m usersrc (Z.to_nat len)))).
Proof.
  intros Ha Hl Hd. unfold copyin.
  destruct (copycheck_cases usersrc len Ha Hl) as [[-> Hin]|[[-> Hbad]|[-> Hbad]]]; cbn [negb Z.eqb].
  - rewrite Z.eqb_refl. cbn [negb].
    destruct (user_read m usersrc (Z.to_nat len)) as [got ok] eqn:E.
    apply user_read_spec in E as (Hgl & Hv & Hok & Hfull).
    eexists _, _. split; [done|]. rewrite length_splice by lia. split; [done|]. split.
    + intros j Hj. apply lookup_splice_old; lia.
    + destruct ok.
      * left. split; [done|]. specialize (Hfull eq_refl). split_and!; [done|by apply Hok|].
        intros j Hj. rewrite lookup_splice_new by lia. rewrite Nat.sub_0_r. apply Hv. lia.
      * right. split; [done|]. intros [_ Hm]. by apply Hok in Hm.
  - cbn. eexists _, _. split; [done|]. split_and!; [done..|]. right. split; [done|].
    unfold in_userspace, USERSPACETOP in *. lia.
  - destruct (Z.eqb_spec (USERSPACETOP - usersrc) len) as [He|Hne]; cbn [negb].
    + unfold USERSPACETOP in *. lia.
    + eexists _, _. split; [done|]. split_and!; [done..|]. right. split; [done|].
      unfold in_userspace, USERSPACETOP in *. lia.
Qed.

(** [copyinstr] on a buffer of [len] bytes: it returns 0 exactly when a
    terminated string is found in the first [len] bytes that are in user space,
    and then the destination holds the string with its terminator and [*actual]
    is the length with the terminator; [ENAMETOOLONG] only when all [len] bytes
    are mapped user bytes and none is zero; otherwise [EFAULT].  It never writes
    past [len] bytes of the destination. *)
Theorem copyinstr_spec m usersrc dest len r actual dest' :
  0 <= usersrc < 2 ^ 32 -> 0 <= len < 2 ^ 32 -> len <= Z.of_nat (length dest) ->
  copyinstr m usersrc dest len = (r, actual, dest') ->
  let rd := fun i => m !! (usersrc + i) in
  length dest' = length dest /\
  (forall j, (Z.to_nat len <= j)%nat -> dest' !! j = dest !! j) /\
  ((r = 0 /\ exists n, str_len rd 0 n /\ Z.of_nat n < len /\
      usersrc + Z.of_nat n < USERSPACETOP /\ actual = Some (Z.of_nat n + 1) /\
      forall j, (j <= n)%nat -> dest' !! j = rd (Z.of_nat j)) \/
   (r = ENAMETOOLONG /\ no_end rd 0 (Z.to_nat len) /\ usersrc + len <= USERSPACETOP) \/
   r = EFAULT).
Proof.
  intros Ha Hl Hd. unfold copyinstr.
  assert (Hloop : forall s, 0 <= s <= USERSPACETOP - usersrc \/ s = len /\ in_userspace usersrc len ->
    (let '(r, got, d) := copystr (fun i => m !! (usersrc + i))
        (fun d i c => Some (<[Z.to_nat i := c]> d)) dest 0 len s (Z.to_nat (Z.min len s)) in
     (default EFAULT r, got, d)) = (r, actual, dest') ->
    length dest' = length dest /\
    (forall j, (Z.to_nat len <= j)%nat -> dest' !! j = dest !! j) /\
    ((r = 0 /\ exists n, str_len (fun i => m !! (usersrc + i)) 0 n /\ Z.of_nat n < len /\
        usersrc + Z.of_nat n < USERSPACETOP /\ actual = Some (Z.of_nat n + 1) /\
        forall j, (j <= n)%nat -> dest' !! j = m !! (usersrc + Z.of_nat j)) \/
     (r = ENAMETOOLONG /\ no_end (fun i => m !! (usersrc + i)) 0 (Z.to_nat len) /\ len <= s) \/
     r = EFAULT)).
  { intros s Hs. destruct (copystr _ _ _ _ _ _ _) as [[r0 g0] d0] eqn:E.
    intros [= <- <- <-]. apply copystr_list in E; [|lia|cbn; lia]. cbn in E.
    destruct E as (Hlen & Hout & Hr). unfold in_userspace in Hs. split_and!; [done| |].
    - intros j Hj. apply Hout. lia.
    - destruct r0 as [e|]; cbn; [|by right; right].
      destruct Hr as [(-> & n & Hn & Hs' & -> & Hv)|[-> Hne]].
      + left. split; [done|]. exists n. split_and!; [done|lia|lia|f_equal; lia|done].
      + destruct (Z.ltb_spec s len); [by right; right|]. right; left.
        split_and!; [done| |done]. by replace (Z.min len s) with len in Hne by lia. }
  destruct (copycheck_cases usersrc len Ha Hl) as [[-> Hin]|[[-> Hbad]|[-> Hbad]]]; cbn [negb Z.eqb].
  - intros E. specialize (Hloop len (or_intror (conj eq_refl Hin)) E).
    destruct Hin. destruct Hloop as (? & ? & [?|[(?&?&?)|?]]); split_and!; auto.
  - cbn. intros [= <- <- <-]. split_and!; auto.
  - intros E. specialize (Hloop (USERSPACETOP - usersrc)).
    unfold USERSPACETOP in *. specialize (Hloop ltac:(lia) E).
    destruct Hloop as (? & ? & [?|[(?&?&?)|?]]); split_and!; auto.
    right; left. split_and!; [done..|]. unfold USERSPACETOP. lia.
Qed.

(** What [copyout] wrote, [copyin] reads back. *)
Theorem copy_roundtrip m src a len m' dest :
  0 <= a < 2 ^ 32 -> 0 <= len < 2 ^ 32 ->
  len = Z.of_nat (length src) -> length dest = length src ->
  copyout m src a len = (0, m') -> copyin m' a dest len = (0, src).
Proof.
  intros Ha Hl Hs Hd. unfold copyout, copyin.
  destruct (copycheck_cases a len Ha Hl) as [[-> Hin]|[[-> Hbad]|[-> Hbad]]]; cbn [negb Z.eqb].
  - rewrite Z.eqb_refl. cbn [negb]. subst len. rewrite Nat2Z.id, firstn_all.
    destruct (user_write m a src) as [m1 ok] eqn:E. intros [= Hok0 <-].
    apply user_write_spec in E as (_ & Hdom & Hok & Hval).
    destruct ok; [|discriminate]. specialize (Hval eq_refl).
    destruct (user_read m1 a (length src)) as [got ok'] eqn:E'.
    apply user_read_spec in E' as (_ & Hv & Hok' & Hfull).
    assert (ok' = true) as ->.
    { apply Hok'. intros i Hi. apply Hdom. by apply Hok. }
    specialize (Hfull eq_refl). rewrite splice_all by congruence. f_equal.
    apply list_eq_same_length with (length src); [done..|].
    intros i x y Hi Hx Hy. rewrite Hv, Hval in Hx by lia. congruence.
  - cbn. discriminate.
  - destruct (Z.eqb_spec (USERSPACETOP - a) len) as [He|Hne]; cbn [negb]; [|discriminate].
    unfold USERSPACETOP in *. lia.
Qed.

(** ** Concrete runs *)

(** The last eight bytes of user space hold ["hi"] and zeros. *)
Definition example_umem : umem :=
  list_to_map (zip (seqZ (USERSPACETOP - 8) 8) [104; 105; 0; 0; 0; 0; 0; 0]).

Lemma copyout_confined_witness :
  exists r m', copyout example_umem [1; 2; 3] (USERSPACETOP - 4) 3 = (r, m') /\
  (r = 0 \/ r = EFAULT) /\
  (forall x, m' !! x <> example_umem !! x ->
     USERSPACETOP - 4 <= x < USERSPACETOP - 4 + 3 /\ x < USERSPACETOP) /\
  (forall x, is_Some (m' !! x) <-> is_Some (example_umem !! x)) /\
  (r = 0 -> in_userspace (USERSPACETOP - 4) 3 /\
     forall i, (i < Z.to_nat 3)%nat ->
       m' !! (USERSPACETOP - 4 + Z.of_nat i) = [1; 2; 3] !! i).
Proof.
  destruct (copyout example_umem [1; 2; 3] (USERSPACETOP - 4) 3) as [r m'] eqn:E.
  exists r, m'. split; [done|].
  apply (copyout_confined example_umem [1; 2; 3] (USERSPACETOP - 4) 3 r m');
    [unfold USERSPACETOP; lia|lia|cbn; lia|exact E].
Defined.

Lemma copyin_spec_witness :
  exists r dest', copyin example_umem (USERSPACETOP - 8) [0; 0] 2 = (r, dest') /\
    length dest' = 2%nat /\
    (forall j, (Z.to_nat 2 <= j)%nat -> dest' !! j = [0; 0] !! j) /\
    ((r = 0 /\ in_userspace (USERSPACETOP - 8) 2 /\
        mapped example_umem (USERSPACETOP - 8) (Z.to_nat 2) /\
        forall j, (j < Z.to_nat 2)%nat -> dest' !! j = example_umem !! (USERSPACETOP - 8 + Z.of_nat j)) \/
     (r = EFAULT /\ ~ (in_userspace (USERSPACETOP - 8) 2 /\
        mapped example_umem (USERSPACETOP - 8) (Z.to_nat 2)))).
Proof.
  apply (copyin_spec example_umem (USERSPACETOP - 8) [0; 0] 2);
    [unfold USERSPACETOP; lia|lia|cbn; lia].
Defined.

Example copyin_example : copyin example_umem (USERSPACETOP - 8) [0; 0; 9] 2 = (0, [104; 105; 9]).
Proof. vm_compute. reflexivity. Qed.

(** A copy of no bytes fails: [bot + len - 1] wraps below [bot]. *)
Example copyin_nothing : copyin example_umem (USERSPACETOP - 8) [] 0 = (EFAULT, []).
Proof. vm_compute. reflexivity. Qed.

Lemma copyinstr_spec_witness :
  let rd := fun i => example_umem !! (USERSPACETOP - 8 + i) in
  length [104; 105; 0; 7] = length [7; 7; 7; 7] /\
  (forall j, (Z.to_nat 4 <= j)%nat -> [104; 105; 0; 7] !! j = [7; 7; 7; 7] !! j) /\
  ((0 = 0 /\ exists n, str_len rd 0 n /\ Z.of_nat n < 4 /\
      USERSPACETOP - 8 + Z.of_nat n < USERSPACETOP /\ Some 3 = Some (Z.of_nat n + 1) /\
      forall j, (j <= n)%nat -> [104; 105; 0; 7] !! j = rd (Z.of_nat j)) \/
   (0 = ENAMETOOLONG /\ no_end rd 0 (Z.to_nat 4) /\ USERSPACETOP - 8 + 4 <= USERSPACETOP) \/
   0 = EFAULT).
Proof.
  apply (copyinstr_spec example_umem (USERSPACETOP - 8) [7; 7; 7; 7] 4 0 (Some 3) [104; 105; 0; 7]);
    [unfold USERSPACETOP; lia|lia|cbn; lia|vm_compute; reflexivity].
Defined.

Lemma copy_roundtrip_witness :
  exists m', copyout example_umem [1; 2; 3] (USERSPACETOP - 4) 3 = (0, m') /\
    copyin m' (USERSPACETOP - 4) [0; 0; 0] 3 = (0, [1; 2; 3]).
Proof.
  destruct (copyout example_umem [1; 2; 3] (USERSPACETOP - 4) 3) as [r m'] eqn:E.
  assert (Hr : r = 0) by (change r with (r, m').1; rewrite <- E; vm_compute; reflexivity).
  subst r. exists m'. split; [done|].
  apply (copy_roundtrip example_umem [1; 2; 3] (USERSPACETOP - 4) 3 m' [0; 0; 0]);
    [unfold USERSPACETOP; lia|lia|reflexivity|reflexivity|exact E].
Defined.
