(* ===== verification/Uio.v ===== *)
(** * lib/uio.c: moving data through a uio

    A [uio] describes the memory an I/O request reads or writes.  Kernel memory
    behind an iovec is modelled by its contents: the bytes the cursor has passed
    and the bytes from [iov_kbase] to the end of the object; going past that end is a
    [Panic].  User memory is the address space
    [uio_space] points to.  The buffer on the kernel side of [uiomove] is a list
    that does not overlap the iovecs. *)

From S2P Require Import Prelude CopyInOut.

Inductive uio_rw := UIO_READ | UIO_WRITE.
Inductive uio_seg := UIO_USERISPACE | UIO_USERSPACE | UIO_SYSSPACE.

#[export] Instance uio_rw_eq_dec : EqDecision uio_rw.
Proof. solve_decision. Defined.

(** The union in [struct iovec]. *)
Inductive iobase :=
  | iov_kbase (moved rest : list Z)
  | iov_ubase (a : Z).

Record iovec := mkIovec { iov_base : iobase; iov_len : Z }.

(** [uio_iov] is the array from the element the C pointer points to on;
    [uio_past] are the elements it has left behind. *)
Record uio := mkUio {
  uio_past : list iovec;
  uio_iov : list iovec;
  uio_iovcnt : Z;
  uio_offset : Z;
  uio_resid : Z;
  uio_segflg : uio_seg;
  uio_rwflag : uio_rw;
  uio_space : option umem }.

Definition set_offset_resid (u : uio) (off resid : Z) : uio :=
  mkUio (uio_past u) (uio_iov u) (uio_iovcnt u) off resid (uio_segflg u) (uio_rwflag u) (uio_space u).

(** [uio->uio_iov++; uio->uio_iovcnt--]. *)
Definition next_iov (u : uio) (io : iovec) (rest : list iovec) : uio :=
  mkUio (uio_past u ++ [io]) rest (u32 (uio_iovcnt u - 1)) (uio_offset u) (uio_resid u)
    (uio_segflg u) (uio_rwflag u) (uio_space u).

(** The updates at the end of one round of the loop. *)
Definition advance (u : uio) (io : iovec) (rest : list iovec) (base : iobase)
    (space : option umem) (size : Z) : uio :=
  mkUio (uio_past u) (mkIovec base (u32 (iov_len io - size)) :: rest) (uio_iovcnt u)
    (uio_offset u + size) (u32 (uio_resid u - size)) (uio_segflg u) (uio_rwflag u) space.

(** One data movement of [size] bytes at position [p] of [buf]: the result, the
    buffer, the new base and the address space. *)
Definition move_chunk (u : uio) (io : iovec) (buf : list Z) (p : nat) (size : Z)
    : outcome (Z * list Z * iobase * option umem) :=
  let n := Z.to_nat size in
  match uio_segflg u, iov_base io, uio_space u with
  | UIO_SYSSPACE, iov_kbase moved rest, sp =>
      if (length rest <? n)%nat then Panic else
      match uio_rwflag u with
      | UIO_READ =>
          let rest := splice 0 (take n (drop p buf)) rest in
          mret (0, buf, iov_kbase (moved ++ take n rest) (drop n rest), sp)
      | UIO_WRITE =>
          mret (0, splice p (take n rest) buf, iov_kbase (moved ++ take n rest) (drop n rest), sp)
      end
  | UIO_USERSPACE, iov_ubase a, Some m | UIO_USERISPACE, iov_ubase a, Some m =>
      match uio_rwflag u with
      | UIO_READ =>
          let '(result, m) := copyout m (drop p buf) a size in
          mret (result, buf, iov_ubase (if result =? 0 then u32 (a + size) else a), Some m)
      | UIO_WRITE =>
          let '(result, dest) := copyin m a (drop p buf) size in
          mret (result, take p buf ++ dest, iov_ubase (if result =? 0 then u32 (a + size) else a), Some m)
      end
  | _, _, _ => Panic
  end.

(** The loop of [uiomove].  Every round either moves a byte or steps to the next
    iovec, so [fuel] above the sum of the two counts is never used up. *)
Fixpoint uiomove_loop (fuel : nat) (buf : list Z) (p : nat) (n : Z) (u : uio)
    : outcome (Z * list Z * uio) :=
  match fuel with
  | O => Panic
  | S fuel =>
      if (n >? 0) && (uio_resid u >? 0) then
        match uio_iov u with
        | [] => Panic
        | io :: rest =>
            let size := if iov_len io >? n then n else iov_len io in
            if size =? 0 then
              let u := next_iov u io rest in
              if uio_iovcnt u =? 0 then Panic
              else uiomove_loop fuel buf p n u
            else
              '(result, buf, base, space) ← move_chunk u io buf p size;
              if negb (result =? 0) then
                mret (result, buf, mkUio (uio_past u) (uio_iov u) (uio_iovcnt u) (uio_offset u)
                        (uio_resid u) (uio_segflg u) (uio_rwflag u) space)
              else uiomove_loop fuel buf (p + Z.to_nat size) (n - size)
                     (advance u io rest base space size)
        end
      else mret (0, buf, u)
  end.

(** The checks on [uio_space] before the loop. *)
Definition space_ok (u : uio) : bool :=
  match uio_segflg u with
  | UIO_SYSSPACE => bool_decide (uio_space u = None)
  | _ => bool_decide (is_Some (uio_space u))
  end.

Definition uiomove (buf : list Z) (n : Z) (u : uio) : outcome (Z * list Z * uio) :=
  KASSERT (space_ok u);;
  uiomove_loop (S (Z.to_nat n + length (uio_iov u))) buf 0 n u.

Fixpoint uiomovezeros_loop (fuel : nat) (n : Z) (u : uio) : outcome (Z * uio) :=
  match fuel with
  | O => Panic
  | S fuel =>
      if n >? 0 then
        let amt := if 16 >? n then n else 16 in
        '(result, _, u) ← uiomove (zeros 16) amt u;
        if negb (result =? 0) then mret (result, u)
        else uiomovezeros_loop fuel (n - amt) u
      else mret (0, u)
  end.

Definition uiomovezeros (n : Z) (u : uio) : outcome (Z * uio) :=
  KASSERT (bool_decide (uio_rwflag u = UIO_READ));;
  uiomovezeros_loop (S (Z.to_nat n)) n u.

Definition uio_kinit (kbuf : list Z) (len pos : Z) (rw : uio_rw) : uio :=
  mkUio [] [mkIovec (iov_kbase [] kbuf) len] 1 pos len UIO_SYSSPACE rw None.

(** ** The kernel-space uio: what is still to move and what has moved *)

Definition iov_data (io : iovec) : list Z :=
  match iov_base io with iov_kbase _ rest => take (Z.to_nat (iov_len io)) rest | _ => [] end.
Definition iov_moved (io : iovec) : list Z :=
  match iov_base io with iov_kbase moved _ => moved | _ => [] end.

(** The memory from the cursor on. *)
Definition uio_data (u : uio) : list Z := concat (map iov_data (uio_iov u)).
(** The memory the cursor has passed. *)
Definition uio_moved (u : uio) : list Z := concat (map iov_moved (uio_past u ++ uio_iov u)).

(** The whole kernel memory a uio describes, passed or not. *)
Definition uio_mem (u : uio) : list Z := uio_moved u ++ uio_data u.

Definition iov_wf (io : iovec) : Prop :=
  exists moved rest, iov_base io = iov_kbase moved rest /\
    0 <= iov_len io < 2 ^ 32 /\ iov_len io <= Z.of_nat (length rest).

(** A uio over kernel memory whose residue is backed by its iovecs. *)
Record uio_wf (u : uio) : Prop := {
  uw_seg : uio_segflg u = UIO_SYSSPACE;
  uw_space : uio_space u = None;
  uw_cnt : uio_iovcnt u = Z.of_nat (length (uio_iov u)) /\ uio_iovcnt u < 2 ^ 32;
  uw_iov : Forall iov_wf (uio_iov u);
  uw_fresh : Forall (fun io => iov_moved io = []) (tail (uio_iov u));
  uw_resid : 0 <= uio_resid u < 2 ^ 32 /\ uio_resid u <= Z.of_nat (length (uio_data u)) }.

(** [u'] is [u] after moving [k] bytes, which now are [d] in the memory. *)
Record uio_step (u : uio) (k : nat) (d : list Z) (u' : uio) : Prop := {
  us_wf : uio_wf u';
  us_rw : uio_rwflag u' = uio_rwflag u;
  us_off : uio_offset u' = uio_offset u + Z.of_nat k;
  us_resid : uio_resid u' = uio_resid u - Z.of_nat k;
  us_data : uio_data u' = drop k (uio_data u);
  us_moved : uio_moved u' = uio_moved u ++ d }.

Lemma uio_step_refl u : uio_wf u -> uio_step u 0 [] u.
Proof. intros H. split; try done; rewrite ?app_nil_r; cbn; lia || done. Qed.

Lemma uio_step_trans u k d u1 k1 d1 u2 :
  uio_step u k d u1 -> uio_step u1 k1 d1 u2 -> uio_step u (k + k1) (d ++ d1) u2.
Proof.
  intros [W1 R1 O1 S1 D1 M1] [W2 R2 O2 S2 D2 M2]. split; try done.
  - congruence.
  - lia.
  - lia.
  - by rewrite D2, D1, drop_drop.
  - by rewrite M2, M1, app_assoc.
Qed.

Lemma iov_data_length io : iov_wf io -> Z.of_nat (length (iov_data io)) = iov_len io.
Proof.
  intros (mv & rest & Hb & Hl & Hr). unfold iov_data. rewrite Hb, length_take. lia.
Qed.

(** ** One round of the loop *)

Lemma next_iov_step u io rest :
  uio_wf u -> uio_iov u = io :: rest -> iov_len io = 0 -> rest <> [] ->
  uio_step u 0 [] (next_iov u io rest).
Proof.
  intros [W1 W2 [W3 W3'] W4 W5 W6] Hi Hl Hr. rewrite Hi in *.
  apply Forall_cons in W4 as [Hio W4].
  assert (Hd : iov_data io = []).
  { apply length_zero_iff_nil. pose proof (iov_data_length io Hio). lia. }
  assert (Hdata : uio_data (next_iov u io rest) = uio_data u).
  { unfold uio_data; cbn. by rewrite Hi; cbn; rewrite Hd. }
  assert (Hlen : (0 < length rest)%nat) by (destruct rest; [done|cbn; lia]). cbn [length] in *.
  split; cbn [uio_rwflag uio_offset uio_resid next_iov]; try done; try lia.
  - split; cbn [uio_segflg uio_space uio_iovcnt uio_iov uio_resid next_iov]; try done.
    + rewrite u32_small; lia.
    + cbn [tail] in W5. destruct rest; [constructor|]. by apply Forall_cons in W5 as [_ ?].
    + by rewrite Hdata.
  - unfold uio_moved; cbn [uio_past uio_iov next_iov]. rewrite Hi, <- app_assoc. by rewrite app_nil_r.
Qed.

Lemma advance_step u io rest moved mem mem' s :
  uio_wf u -> uio_iov u = io :: rest -> iov_base io = iov_kbase moved mem ->
  0 <= s <= iov_len io -> s <= uio_resid u ->
  length mem' = length mem -> drop (Z.to_nat s) mem' = drop (Z.to_nat s) mem ->
  uio_step u (Z.to_nat s) (take (Z.to_nat s) mem')
    (advance u io rest
       (iov_kbase (moved ++ take (Z.to_nat s) mem') (drop (Z.to_nat s) mem')) None s).
Proof.
  intros [W1 W2 [W3 W3'] W4 W5 W6] Hi Hb Hs Hr Hlen Hdrop.
  destruct io as [base len]; cbn in Hb, Hs; subst base. rewrite Hi in *.
  apply Forall_cons in W4 as [(mv & mm & [= <- <-] & Hl & Hm) W4]. cbn [iov_len] in *.
  cbn [tail] in W5.
  match goal with |- uio_step _ _ _ ?u1 => set (u' := u1) end.
  assert (Hdata : uio_data u' = drop (Z.to_nat s) (uio_data u)).
  { unfold uio_data, u', advance; cbn [uio_iov]. rewrite Hi; cbn [map concat].
    unfold iov_data at 1 3; cbn [iov_base iov_len]. rewrite u32_small, Hdrop by lia.
    rewrite drop_app_le by (rewrite length_take; lia). f_equal.
    rewrite skipn_firstn_comm. f_equal. lia. }
  assert (Hdl : (Z.to_nat s <= length (uio_data u))%nat) by lia.
  split; try done; cbn [uio_rwflag uio_offset uio_resid advance].
  - split; cbn [uio_segflg uio_space uio_iovcnt uio_iov uio_resid advance]; try done.
    + apply Forall_cons. split; [|done]. eexists _, _; split; [done|].
      cbn [iov_len]. rewrite u32_small, length_drop by lia. lia.
    + rewrite Hdata, length_drop. subst u'. cbn [uio_resid advance]. rewrite u32_small by lia. lia.
  - subst u'. cbn. lia.
  - subst u'. cbn [uio_resid advance]. rewrite u32_small by lia. lia.
  - assert (Hz : concat (map iov_moved rest) = []).
    { clear -W5. induction W5 as [|x l Hx _ IH]; [done|]. cbn. by rewrite Hx, IH. }
    unfold uio_moved, u'; cbn [uio_past uio_iov advance]. rewrite Hi, !map_app, !concat_app.
    cbn [map concat]. rewrite Hz, !app_nil_r.
    unfold iov_moved at 2 4; cbn [iov_base]. by rewrite app_assoc.
Qed.

Lemma drop_splice0 new l :
  (length new <= length l)%nat -> drop (length new) (splice 0 new l) = drop (length new) l.
Proof. intros. unfold splice. by rewrite take_0, app_nil_l, drop_app_length. Qed.

Lemma take_splice0 new l : take (length new) (splice 0 new l) = new.
Proof. unfold splice. by rewrite take_0, app_nil_l, take_app_length. Qed.

Lemma drop_splice0' n new l :
  length new = n -> (n <= length l)%nat -> drop n (splice 0 new l) = drop n l.
Proof. intros <-. apply drop_splice0. Qed.

Lemma take_splice0' n new l : length new = n -> take n (splice 0 new l) = new.
Proof. intros <-. apply take_splice0. Qed.

Lemma uiomove_loop_ok fuel buf p n u :
  uio_wf u -> 0 <= n -> Z.of_nat p + n <= Z.of_nat (length buf) ->
  (n <= uio_resid u \/ uio_resid u = Z.of_nat (length (uio_data u))) ->
  (Z.to_nat n + length (uio_iov u) < fuel)%nat ->
  let k := Z.to_nat (Z.min n (uio_resid u)) in
  let d := match uio_rwflag u with UIO_READ => take k (drop p buf) | UIO_WRITE => take k (uio_data u) end in
  exists u', uiomove_loop fuel buf p n u =
      Done (0, match uio_rwflag u with UIO_READ => buf | UIO_WRITE => splice p d buf end, u') /\
    uio_step u k d u'.
Proof.
  revert buf p n u. induction fuel as [|fuel IH]; intros buf p n u Hwf Hn Hbuf Hres Hfuel; [lia|].
  intros k d. cbn [uiomove_loop]. rewrite !Z.gtb_ltb.
  destruct (Z.ltb_spec 0 n) as [Hn0|Hn0], (Z.ltb_spec 0 (uio_resid u)) as [Hr0|Hr0]; cbn [andb].
  2-4: (assert (k = 0%nat) as Hk0 by (pose proof (uw_resid _ Hwf); lia);
        exists u; subst d; rewrite Hk0, !take_0; split;
        [destruct (uio_rwflag u); [done|];
         unfold splice; cbn [length]; by rewrite app_nil_l, Nat.add_0_r, take_drop
        |destruct (uio_rwflag u); by apply uio_step_refl]).
  pose proof Hwf as [W1 W2 [W3 W3'] W4 W5 [W6 W6']].
  destruct (uio_iov u) as [|io rest] eqn:Hi.
  { unfold uio_data in W6'. rewrite Hi in W6'. cbn in W6'. lia. }
  apply Forall_cons in W4 as [Hio W4]. pose proof Hio as (moved & mem & Hb & Hl & Hm).
  cbn [length] in *. set (size := if iov_len io >? n then n else iov_len io).
  assert (Hsize : 0 <= size <= n /\ size <= iov_len io /\ (size = n \/ size = iov_len io))
    by (subst size; rewrite Z.gtb_ltb; destruct (Z.ltb_spec n (iov_len io)); lia).
  destruct (Z.eqb_spec size 0) as [Hs0|Hs0].
  - assert (Hrest : rest <> []).
    { intros ->. unfold uio_data in W6'. rewrite Hi in W6'. cbn in W6'. rewrite app_nil_r in W6'.
      pose proof (iov_data_length io Hio). lia. }
    pose proof (next_iov_step u io rest Hwf Hi ltac:(lia) Hrest) as Hst.
    assert (Hlen : (0 < length rest)%nat) by (destruct rest; [done|cbn; lia]).
    assert (Hd : uio_data (next_iov u io rest) = uio_data u) by apply (us_data _ _ _ _ Hst).
    rewrite (proj2 (Z.eqb_neq _ _)) by (cbn; rewrite u32_small; lia).
    destruct (IH buf p n (next_iov u io rest)) as (u' & He & Hu'); cbn [uio_resid next_iov uio_iov];
      [apply Hst|done|done|by rewrite Hd|lia|].
    rewrite Hd in Hu', He. cbn [uio_rwflag uio_resid next_iov] in Hu', He.
    exists u'. split; [exact He|].
    apply (uio_step_trans u 0 [] (next_iov u io rest) _ _ u' Hst Hu').
  - assert (Hsr : size <= uio_resid u).
    { destruct Hres as [?|Hres]; [lia|]. rewrite Hres. unfold uio_data. rewrite Hi; cbn.
      rewrite length_app. pose proof (iov_data_length io Hio). lia. }
    unfold move_chunk. rewrite W1, Hb, W2.
    rewrite (proj2 (Nat.ltb_ge (length mem) (Z.to_nat size))) by lia.
    set (s := Z.to_nat size).
    assert (Hsl : length (take s (drop p buf)) = s) by (rewrite length_take, length_drop; lia).
    assert (Hpre : take s mem = take s (uio_data u)).
    { unfold uio_data. rewrite Hi; cbn. unfold iov_data. rewrite Hb.
      rewrite take_app_le by (rewrite length_take; lia). rewrite take_take. f_equal. lia. }
    assert (Hss : Z.of_nat s = size) by lia.
    assert (Hkk : k = (s + Z.to_nat (Z.min (n - size) (uio_resid u - size)))%nat) by lia.
    destruct (uio_rwflag u) eqn:Hrw; cbn [mret outcome_ret mbind outcome_bind Z.eqb negb].
    + pose proof (advance_step u io rest moved mem (splice 0 (take s (drop p buf)) mem) size
        Hwf Hi Hb ltac:(lia) Hsr) as Hst. fold s in Hst.
      specialize (Hst ltac:(apply length_splice; lia) ltac:(apply drop_splice0'; [done|lia])).
      rewrite (take_splice0' s _ _ Hsl) in Hst.
      rewrite (take_splice0' s _ _ Hsl).
      match type of Hst with uio_step _ _ _ ?u1 => set (u1' := u1) in * end.
      destruct (IH buf (p + s)%nat (n - size) u1') as (u' & He & Hu');
        [apply Hst|lia|lia| |cbn; lia|].
      { rewrite (us_data _ _ _ _ Hst), (us_resid _ _ _ _ Hst), length_drop. lia. }
      rewrite (us_rw _ _ _ _ Hst), (us_resid _ _ _ _ Hst), Hss, Hrw in Hu', He.
      exists u'. split; [exact He|]. subst d. rewrite Hkk, <- take_take_drop, drop_drop.
      exact (uio_step_trans _ _ _ _ _ _ _ Hst Hu').
    + pose proof (advance_step u io rest moved mem mem size
        Hwf Hi Hb ltac:(lia) Hsr eq_refl eq_refl) as Hst. fold s in Hst.
      match type of Hst with uio_step _ _ _ ?u1 => set (u1' := u1) in * end.
      assert (Hpl : length (take s mem) = s) by (rewrite length_take; lia).
      destruct (IH (splice p (take s mem) buf) (p + s)%nat (n - size) u1') as (u' & He & Hu');
        [apply Hst|lia|rewrite length_splice; lia| |cbn; lia|].
      { rewrite (us_data _ _ _ _ Hst), (us_resid _ _ _ _ Hst), length_drop. lia. }
      rewrite (us_rw _ _ _ _ Hst), (us_resid _ _ _ _ Hst), (us_data _ _ _ _ Hst), Hss, Hrw in Hu', He.
      exists u'. rewrite Hpre in *. subst d. rewrite Hkk, <- take_take_drop. split.
      * rewrite He. do 3 f_equal. rewrite <- Hpl at 1. apply splice_splice.
        rewrite Hpl, length_take, length_drop. lia.
      * exact (uio_step_trans _ _ _ _ _ _ _ Hst Hu').
Qed.

Lemma space_ok_sys u : uio_wf u -> space_ok u = true.
Proof. intros [W1 W2 _ _ _ _]. unfold space_ok. rewrite W1, W2. by apply bool_decide_eq_true. Qed.

Lemma uiomove_ok buf n u :
  uio_wf u -> 0 <= n <= Z.of_nat (length buf) ->
  (n <= uio_resid u \/ uio_resid u = Z.of_nat (length (uio_data u))) ->
  let k := Z.to_nat (Z.min n (uio_resid u)) in
  let d := match uio_rwflag u with UIO_READ => take k buf | UIO_WRITE => take k (uio_data u) end in
  exists u', uiomove buf n u =
      Done (0, match uio_rwflag u with UIO_READ => buf | UIO_WRITE => splice 0 d buf end, u') /\
    uio_step u k d u'.
Proof.
  intros Hwf Hn Hres. unfold uiomove. rewrite space_ok_sys by done. cbn [KASSERT mbind outcome_bind].
  pose proof (uiomove_loop_ok (S (Z.to_nat n + length (uio_iov u))) buf 0 n u Hwf) as Hl.
  rewrite drop_0 in Hl. apply Hl; done || lia.
Qed.

Lemma uiomovezeros_ok n u :
  uio_wf u -> uio_rwflag u = UIO_READ -> 0 <= n <= uio_resid u ->
  exists u', uiomovezeros n u = Done (0, u') /\ uio_step u (Z.to_nat n) (zeros (Z.to_nat n)) u'.
Proof.
  intros Hwf Hrw Hn. unfold uiomovezeros. rewrite bool_decide_eq_true_2 by done.
  cbn [KASSERT mbind outcome_bind].
  assert (Hloop : forall f n u, uio_wf u -> uio_rwflag u = UIO_READ -> 0 <= n <= uio_resid u ->
    (Z.to_nat n < f)%nat ->
    exists u', uiomovezeros_loop f n u = Done (0, u') /\ uio_step u (Z.to_nat n) (zeros (Z.to_nat n)) u').
  2: { by apply Hloop; [..|lia]. }
  clear. induction f as [|f IH]; intros n u Hwf Hrw Hn Hf; [lia|]. cbn [uiomovezeros_loop].
  rewrite Z.gtb_ltb. destruct (Z.ltb_spec 0 n).
  - set (amt := if 16 >? n then n else 16).
    assert (Hamt : amt = Z.min n 16) by (subst amt; rewrite Z.gtb_ltb; destruct (Z.ltb_spec n 16); lia).
    destruct (uiomove_ok (zeros 16) amt u) as (u1 & He & Hst); [done|rewrite length_zeros; lia|lia|].
    rewrite Hrw in He, Hst. rewrite He. cbn [mbind outcome_bind Z.eqb negb].
    replace (Z.min amt (uio_resid u)) with amt in Hst by lia.
    assert (Hz : take (Z.to_nat amt) (zeros 16) = zeros (Z.to_nat amt)).
    { unfold zeros. rewrite take_replicate. f_equal. lia. }
    rewrite Hz in Hst.
    destruct (IH (n - amt) u1) as (u' & He' & Hst').
    + apply Hst.
    + by rewrite (us_rw _ _ _ _ Hst).
    + rewrite (us_resid _ _ _ _ Hst). lia.
    + lia.
    + exists u'. split; [done|].
      replace (Z.to_nat n) with (Z.to_nat amt + Z.to_nat (n - amt))%nat by lia.
      rewrite zeros_add. by apply uio_step_trans with u1.
  - exists u. split; [done|]. replace (Z.to_nat n) with 0%nat by lia. by apply uio_step_refl.
Qed.

Lemma uio_kinit_wf kbuf pos rw :
  Z.of_nat (length kbuf) < 2 ^ 32 -> uio_wf (uio_kinit kbuf (Z.of_nat (length kbuf)) pos rw).
Proof.
  intros Hl. split; cbn; try done.
  - constructor; [|done]. eexists _, _; split; [done|]. cbn; lia.
  - unfold uio_data; cbn. unfold iov_data; cbn. rewrite app_nil_r, length_take. lia.
Qed.

Lemma uio_kinit_data kbuf pos rw :
  uio_data (uio_kinit kbuf (Z.of_nat (length kbuf)) pos rw) = kbuf.
Proof. unfold uio_data; cbn. unfold iov_data; cbn. rewrite app_nil_r, firstn_all2; [done|lia]. Qed.

(** ** Reading into user memory, through one iovec *)

Lemma uiomove_user_eq buf n m a len off resid seg :
  seg <> UIO_SYSSPACE -> 0 <= n <= resid -> n <= len < 2 ^ 32 -> resid < 2 ^ 32 -> n <= Z.of_nat (length buf) ->
  0 <= a -> (n = 0 \/ in_userspace a n) -> mapped m a (Z.to_nat n) ->
  exists u, uiomove buf n (mkUio [] [mkIovec (iov_ubase a) len] 1 off resid seg UIO_READ (Some m)) = Done (0, buf, u) /\
    uio_resid u = resid - n /\ uio_space u = Some (fst (user_write m a (take (Z.to_nat n) buf))).
Proof.
  intros Hseg Hn Hlen Hres Hbuf Ha Hus Hmap. unfold uiomove.
  assert (Hsp : space_ok (mkUio [] [mkIovec (iov_ubase a) len] 1 off resid seg UIO_READ (Some m)) = true) by (destruct seg; done).
  rewrite Hsp. kred. cbn [uio_iov length].
  destruct (Z.eq_dec n 0) as [->|Hn0]; [cbn; eexists; split; [done|]; cbn; split; [lia|done]|].
  destruct Hus as [?|Hus]; [done|]. replace (S (Z.to_nat n + 1)) with (S (S (Z.to_nat n))) by lia. cbn [uiomove_loop uio_resid uio_iov iov_len].
  rewrite !(proj2 (Z.gtb_lt _ _)) by lia. cbn [andb].
  assert (Hsz : (if len >? n then n else len) = n) by (rewrite Z.gtb_ltb; destruct (Z.ltb_spec n len); lia).
  rewrite Hsz, (proj2 (Z.eqb_neq n 0)) by done.
  destruct (user_write m a (take (Z.to_nat n) buf)) as [m' ok] eqn:Ew.
  pose proof (user_write_spec m a _ m' ok Ew) as (_&_&Hok&_). rewrite length_take_le in Hok by lia. apply Hok in Hmap. subst ok.
  assert (Hmove : move_chunk (mkUio [] [mkIovec (iov_ubase a) len] 1 off resid seg UIO_READ (Some m)) (mkIovec (iov_ubase a) len) buf 0 n =
    Done (0, buf, iov_ubase (u32 (a + n)), Some m')).
  { unfold move_chunk, copyout. cbn [uio_segflg iov_base uio_space uio_rwflag]. rewrite drop_0, copycheck_ok by done. cbn [Z.eqb negb].
    rewrite Z.eqb_refl. cbn [negb]. rewrite Ew. by destruct seg. }
  rewrite Hmove. kred. cbn [Z.eqb negb]. rewrite Z.sub_diag. cbn [advance uio_resid uio_past uio_iov uio_iovcnt uio_offset uio_segflg uio_rwflag]. change (0 >? 0) with false. cbn [andb].
  eexists. split; [done|]. cbn [uio_resid uio_space]. split; [apply u32_small; lia|done].
Qed.

(** ** The theorems *)

(** [uiomove] on kernel memory always returns 0, whatever the number of
    iovecs: it moves [min(n, resid)] bytes, so a writer finds in its buffer the
    bytes at the cursor and a reader's bytes end up in the memory in order; offset
    and residue change by the same count, the cursor moves by it, and the residue
    never wraps. *)
Theorem uiomove_kernel buf n u :
  uio_wf u -> 0 <= n <= Z.of_nat (length buf) ->
  uio_resid u = Z.of_nat (length (uio_data u)) ->
  exists buf' u', uiomove buf n u = Done (0, buf', u') /\
    let k := Z.to_nat (Z.min n (uio_resid u)) in
    uio_wf u' /\ uio_rwflag u' = uio_rwflag u /\
    uio_offset u' = uio_offset u + Z.of_nat k /\ uio_resid u' = uio_resid u - Z.of_nat k /\
    uio_data u' = drop k (uio_data u) /\
    match uio_rwflag u with
    | UIO_READ => buf' = buf /\ uio_moved u' = uio_moved u ++ take k buf
    | UIO_WRITE => buf' = splice 0 (take k (uio_data u)) buf /\
                   uio_moved u' = uio_moved u ++ take k (uio_data u)
    end.
Proof.
  intros Hwf Hn Hres. destruct (uiomove_ok buf n u Hwf Hn (or_intror Hres)) as (u' & He & Hst).
  eexists _, u'. split; [exact He|]. destruct Hst. split_and!; try done.
  by destruct (uio_rwflag u).
Qed.

(** Two iovecs, three bytes moved. *)
Definition example_uio : uio :=
  mkUio [] [mkIovec (iov_kbase [] [1; 2]) 2; mkIovec (iov_kbase [] [3; 4; 9]) 2] 2 100 4
    UIO_SYSSPACE UIO_WRITE None.

Lemma uiomove_kernel_witness :
  exists buf' u', uiomove [0; 0; 0; 7] 3 example_uio = Done (0, buf', u') /\
    let k := Z.to_nat (Z.min 3 4) in
    uio_wf u' /\ uio_rwflag u' = UIO_WRITE /\
    uio_offset u' = 100 + Z.of_nat k /\ uio_resid u' = 4 - Z.of_nat k /\
    uio_data u' = drop k [1; 2; 3; 4] /\
    buf' = splice 0 (take k [1; 2; 3; 4]) [0; 0; 0; 7] /\
    uio_moved u' = [] ++ take k [1; 2; 3; 4].
Proof.
  apply (uiomove_kernel [0; 0; 0; 7] 3 example_uio); [|cbn; lia|reflexivity].
  split; cbn; try done; try (by split; lia).
  - repeat constructor; eexists _, _; (split; [reflexivity|cbn; lia]).
  - repeat constructor.
Defined.
