(* ===== verification/Vop.v ===== *)
(** * vnode.h and fs.h: the interface between the VFS layer and a file system

    [S] is the state of the file systems.  A vnode and a file system are known by
    their keys.  A method that hands back an object answers with [res]; one that
    only reports an error number answers with it, 0 being success.  A path handed
    down is a terminated string. *)

From S2P Require Import Prelude CopyInOut Uio.

Class Vops (S : Type) := {
  vn_fs : S -> Z -> outcome (option Z);
  vn_refcount_of : S -> Z -> outcome Z;
  VNODE_CLEANUP : S -> Z -> outcome S;
  VOP_INCREF : S -> Z -> outcome S;
  VOP_DECREF : S -> Z -> outcome S;
  VOP_EACHOPEN : S -> Z -> Z -> outcome Z;
  VOP_READ : S -> Z -> uio -> outcome (Z * uio * S);
  VOP_READLINK : S -> Z -> uio -> outcome (Z * uio * S);
  VOP_WRITE : S -> Z -> uio -> outcome (Z * uio * S);
  VOP_STAT_SIZE : S -> Z -> outcome (res Z);
  VOP_GETTYPE : S -> Z -> outcome (res Z);
  VOP_ISSEEKABLE : S -> Z -> outcome bool;
  VOP_TRUNCATE : S -> Z -> Z -> outcome (Z * S);
  VOP_NAMEFILE : S -> Z -> uio -> outcome (Z * uio);
  VOP_CREAT : S -> Z -> list Z -> bool -> outcome (res Z * S);
  VOP_SYMLINK : S -> Z -> list Z -> list Z -> outcome (Z * S);
  VOP_MKDIR : S -> Z -> list Z -> outcome (Z * S);
  VOP_LINK : S -> Z -> list Z -> Z -> outcome (Z * S);
  VOP_REMOVE : S -> Z -> list Z -> outcome (Z * S);
  VOP_RMDIR : S -> Z -> list Z -> outcome (Z * S);
  VOP_RENAME : S -> Z -> list Z -> Z -> list Z -> outcome (Z * S);
  VOP_LOOKUP : S -> Z -> list Z -> outcome (res Z * S);
  VOP_LOOKPARENT : S -> Z -> list Z -> list Z -> outcome (res (Z * list Z) * S);
  FSOP_GETVOLNAME : S -> Z -> outcome (option (list Z));
  FSOP_GETROOT : S -> Z -> outcome (res Z * S);
  FSOP_SYNC : S -> Z -> outcome (Z * S);
  FSOP_UNMOUNT : S -> Z -> outcome (Z * S) }.

(** Reference counting, as the layers above rely on it: [vrefs] is the count of a
    vnode that is in memory.  Taking a reference adds one, giving one back that is
    not the last takes one away, and no other count changes. *)
Class VopsRefs (S : Type) `{!Vops S} := {
  vrefs : S -> Z -> option Z;
  refcount_law : forall s v n, vrefs s v = Some n -> vn_refcount_of s v = Done n;
  incref_law : forall s v n, vrefs s v = Some n ->
    exists s', VOP_INCREF s v = Done s' /\ vrefs s' v = Some (n + 1) /\
      forall w, w <> v -> vrefs s' w = vrefs s w;
  decref_law : forall s v n, vrefs s v = Some n -> 1 < n ->
    exists s', VOP_DECREF s v = Done s' /\ vrefs s' v = Some (n - 1) /\
      forall w, w <> v -> vrefs s' w = vrefs s w }.

(** What the loader relies on: vnode [v] is a file that holds [data], and a read moves
    what is there from the offset on, up to what is asked for. *)
Class ReadsFile (S : Type) `{!Vops S} (v : Z) (data : list Z) := {
  file_ready : S -> Prop;
  read_law : forall s u, file_ready s -> 0 <= uio_offset u -> uio_rwflag u = UIO_READ ->
    exists s', VOP_READ s v u = (
        '(r, _, u) ← uiomove (drop (Z.to_nat (uio_offset u)) data) (Z.min (uio_resid u) (Z.of_nat (length data) - uio_offset u)) u;
        mret (r, u, s')) /\ file_ready s' }.

(** device.c's part in vfslist.c's device table. *)
Class Devices (S : Type) := {
  dev_create_vnode : S -> option Z -> outcome (option Z * S);
  dev_uncreate_vnode : S -> Z -> outcome S }.
