(* ===== verification/Device.v ===== *)
(** * vfs/device.c and vfs/devnull.c: devices as vnodes

    Device vnodes beside the vnodes of a file system [S]: the keys of device vnodes
    are negative, those of [S] are not.  [D] is the state of the devices behind
    [DEVOP_IO]; a device is known by its key. *)

From S2P Require Import Prelude CopyInOut Uio Vop Cstring.

(** [struct device]'s size fields, both [uint32_t]. *)
Record device := mkDevice { d_blocks : Z; d_blocksize : Z }.

Class DevOps (D : Type) := {
  dev_of : D -> Z -> option device;
  DEVOP_EACHOPEN : D -> Z -> Z -> outcome Z;
  DEVOP_IO : D -> Z -> uio -> outcome (Z * uio * D) }.

(** A vnode's [vn_data] is a device, or null for [vfs_addfs]. *)
Record devvn := mkDevvn { vn_data : option Z; dv_refcount : Z }.

Record dstate (S D : Type) := mkD {
  ds_fs : S;
  ds_dev : D;
  ds_vnodes : gmap Z devvn;
  ds_next : Z;
  ds_mem : list bool }.
Arguments mkD {S D}. Arguments ds_fs {S D}. Arguments ds_dev {S D}. Arguments ds_vnodes {S D}.
Arguments ds_next {S D}. Arguments ds_mem {S D}.

(** [pos % d_blocksize] and [pos / d_blocksize] are signed 64-bit divisions. *)
Definition dev_tryseek (d : device) (pos : Z) : Z :=
  if d_blocks d >? 0 then
    if negb (Z.rem pos (d_blocksize d) =? 0) then EINVAL else
    if Z.quot pos (d_blocksize d) >=? d_blocks d then EINVAL else 0
  else 0.

Definition dev_size (d : device) : Z := u32 (d_blocks d * d_blocksize d).

Definition dev_gettype (d : device) : Z := if d_blocks d >? 0 then S_IFBLK else S_IFCHR.
Definition dev_isseekable (d : device) : bool := negb (d_blocks d =? 0).

(** The size [dev_stat] reports. *)
Definition dev_stat_size (d : device) : Z := if d_blocks d >? 0 then dev_size d else 0.

Definition dev_truncate (d : device) (len : Z) : Z :=
  if (d_blocks d >? 0) && (dev_size d =? len) then 0 else EINVAL.

Section Devices.
Context {S D : Type} `{!Vops S} `{!DevOps D}.
Implicit Types s : dstate S D.

Definition set_fs (f : S) s : dstate S D := mkD f (ds_dev s) (ds_vnodes s) (ds_next s) (ds_mem s).
Definition set_dev (d : D) s : dstate S D := mkD (ds_fs s) d (ds_vnodes s) (ds_next s) (ds_mem s).
Definition put_vn (v : Z) (x : devvn) s : dstate S D :=
  mkD (ds_fs s) (ds_dev s) (<[v := x]> (ds_vnodes s)) (ds_next s) (ds_mem s).

Definition get_vn s (v : Z) : outcome devvn := deref (ds_vnodes s !! v).
(** [v->vn_data], followed. *)
Definition get_dev s (v : Z) : outcome (Z * device) :=
  x ← get_vn s v; d ← deref (vn_data x); dev ← deref (dev_of (ds_dev s) d); mret (d, dev).

Definition dev_incref s (v : Z) : outcome (dstate S D) :=
  x ← get_vn s v; mret (put_vn v (mkDevvn (vn_data x) (dv_refcount x + 1)) s).

(** [vnode_decref] with [dev_reclaim], which keeps the last reference. *)
Definition dev_reclaim : Z := 0.
Definition dev_decref s (v : Z) : outcome (dstate S D) :=
  x ← get_vn s v;
  KASSERT (dv_refcount x >? 0);;
  if dv_refcount x >? 1 then mret (put_vn v (mkDevvn (vn_data x) (dv_refcount x - 1)) s) else mret s.

Definition dev_eachopen s (v flags : Z) : outcome Z :=
  '(d, _) ← get_dev s v;
  if negb (Z.land flags (Z.lor (Z.lor O_CREAT O_TRUNC) (Z.lor O_EXCL O_APPEND)) =? 0) then mret EINVAL
  else DEVOP_EACHOPEN (ds_dev s) d flags.

Definition dev_read s (v : Z) (u : uio) : outcome (Z * uio * dstate S D) :=
  '(d, dev) ← get_dev s v;
  let result := dev_tryseek dev (uio_offset u) in
  if negb (result =? 0) then mret (result, u, s) else
  KASSERT (bool_decide (uio_rwflag u = UIO_READ));;
  '(result, u, x) ← DEVOP_IO (ds_dev s) d u; mret (result, u, set_dev x s).

Definition dev_write s (v : Z) (u : uio) : outcome (Z * uio * dstate S D) :=
  '(d, dev) ← get_dev s v;
  let result := dev_tryseek dev (uio_offset u) in
  if negb (result =? 0) then mret (result, u, s) else
  KASSERT (bool_decide (uio_rwflag u = UIO_WRITE));;
  '(result, u, x) ← DEVOP_IO (ds_dev s) d u; mret (result, u, set_dev x s).

Definition dev_lookup s (dir : Z) (pathname : list Z) : outcome (res Z * dstate S D) :=
  len ← strlen pathname;
  if len >? 0 then mret (Err ENOENT, s) else
  s ← dev_incref s dir; mret (Ok dir, s).

Definition dev_create_vnode_ s (dev : option Z) : outcome (option Z * dstate S D) :=
  let '(ok, mem) := kalloc (ds_mem s) in
  if negb ok then mret (None, mkD (ds_fs s) (ds_dev s) (ds_vnodes s) (ds_next s) mem) else
  let v := ds_next s in
  mret (Some v, mkD (ds_fs s) (ds_dev s) (<[v := mkDevvn dev 1]> (ds_vnodes s)) (v - 1) mem).

Definition dev_uncreate_vnode_ s (v : Z) : outcome (dstate S D) :=
  x ← get_vn s v;
  KASSERT (dv_refcount x =? 1);;
  mret (mkD (ds_fs s) (ds_dev s) (delete v (ds_vnodes s)) (ds_next s) (ds_mem s)).

(** ** The two kinds of vnodes together *)

Definition isdev (v : Z) : bool := v <? 0.

(** A method of the file system's. *)
Definition on_fs {A} s (m : outcome (A * S)) : outcome (A * dstate S D) :=
  '(a, f) ← m; mret (a, set_fs f s).

(** The vnode's own operation: the device's or the file system's. *)
Definition vdispatch {A} (v : Z) (dev fs : outcome A) : outcome A := if isdev v then dev else fs.
(** vfsfail.c: a device vnode fails. *)
Definition vopfail {A} s (v e : Z) (fs : outcome A) (answer : Z -> A) : outcome A :=
  if isdev v then x ← get_vn s v; mret (answer e) else fs.

#[export] Instance dev_vops : Vops (dstate S D) := {|
  vn_fs s v := if isdev v then x ← get_vn s v; mret None else vn_fs (ds_fs s) v;
  vn_refcount_of s v := vdispatch v (x ← get_vn s v; mret (dv_refcount x)) (vn_refcount_of (ds_fs s) v);
  VNODE_CLEANUP s v := vdispatch v (dev_uncreate_vnode_ s v) (f ← VNODE_CLEANUP (ds_fs s) v; mret (set_fs f s));
  VOP_INCREF s v := vdispatch v (dev_incref s v) (f ← VOP_INCREF (ds_fs s) v; mret (set_fs f s));
  VOP_DECREF s v := vdispatch v (dev_decref s v) (f ← VOP_DECREF (ds_fs s) v; mret (set_fs f s));
  VOP_EACHOPEN s v flags := vdispatch v (dev_eachopen s v flags) (VOP_EACHOPEN (ds_fs s) v flags);
  VOP_READ s v u := vdispatch v (dev_read s v u) ('(r, u, f) ← VOP_READ (ds_fs s) v u; mret (r, u, set_fs f s));
  VOP_READLINK s v u := vopfail s v EINVAL ('(r, u, f) ← VOP_READLINK (ds_fs s) v u; mret (r, u, set_fs f s)) (fun e => (e, u, s));
  VOP_WRITE s v u := vdispatch v (dev_write s v u) ('(r, u, f) ← VOP_WRITE (ds_fs s) v u; mret (r, u, set_fs f s));
  VOP_STAT_SIZE s v := vdispatch v ('(_, d) ← get_dev s v; mret (Ok (dev_stat_size d))) (VOP_STAT_SIZE (ds_fs s) v);
  VOP_GETTYPE s v := vdispatch v ('(_, d) ← get_dev s v; mret (Ok (dev_gettype d))) (VOP_GETTYPE (ds_fs s) v);
  VOP_ISSEEKABLE s v := vdispatch v ('(_, d) ← get_dev s v; mret (dev_isseekable d)) (VOP_ISSEEKABLE (ds_fs s) v);
  VOP_TRUNCATE s v len := vdispatch v ('(_, d) ← get_dev s v; mret (dev_truncate d len, s)) (on_fs s (VOP_TRUNCATE (ds_fs s) v len));
  VOP_NAMEFILE s v u := vdispatch v (x ← get_vn s v; mret (0, u)) (VOP_NAMEFILE (ds_fs s) v u);
  VOP_CREAT s v n e := vopfail s v ENOTDIR (on_fs s (VOP_CREAT (ds_fs s) v n e)) (fun e => (Err e, s));
  VOP_SYMLINK s v n c := vopfail s v ENOTDIR (on_fs s (VOP_SYMLINK (ds_fs s) v n c)) (fun e => (e, s));
  VOP_MKDIR s v n := vopfail s v ENOTDIR (on_fs s (VOP_MKDIR (ds_fs s) v n)) (fun e => (e, s));
  VOP_LINK s v n f := vopfail s v ENOTDIR (on_fs s (VOP_LINK (ds_fs s) v n f)) (fun e => (e, s));
  VOP_REMOVE s v n := vopfail s v ENOTDIR (on_fs s (VOP_REMOVE (ds_fs s) v n)) (fun e => (e, s));
  VOP_RMDIR s v n := vopfail s v ENOTDIR (on_fs s (VOP_RMDIR (ds_fs s) v n)) (fun e => (e, s));
  VOP_RENAME s v n d2 n2 := vopfail s v ENOTDIR (on_fs s (VOP_RENAME (ds_fs s) v n d2 n2)) (fun e => (e, s));
  VOP_LOOKUP s v p := vdispatch v (dev_lookup s v p) (on_fs s (VOP_LOOKUP (ds_fs s) v p));
  VOP_LOOKPARENT s v p b := vopfail s v ENOTDIR (on_fs s (VOP_LOOKPARENT (ds_fs s) v p b)) (fun e => (Err e, s));
  FSOP_GETVOLNAME s f := FSOP_GETVOLNAME (ds_fs s) f;
  FSOP_GETROOT s f := on_fs s (FSOP_GETROOT (ds_fs s) f);
  FSOP_SYNC s f := on_fs s (FSOP_SYNC (ds_fs s) f);
  FSOP_UNMOUNT s f := on_fs s (FSOP_UNMOUNT (ds_fs s) f) |}.

#[export] Instance dev_devices : Devices (dstate S D) := {|
  dev_create_vnode := dev_create_vnode_;
  dev_uncreate_vnode := dev_uncreate_vnode_ |}.
End Devices.

(** ** devnull.c *)

Definition nullopen (openflags : Z) : Z := 0.
Definition nullio (u : uio) : Z * uio :=
  (0, if bool_decide (uio_rwflag u = UIO_WRITE) then set_offset_resid u (uio_offset u) 0 else u).
Definition nullioctl (op : Z) : Z := EINVAL.

(** A machine with the null device only, key 0. *)
#[export] Instance null_devops : DevOps unit := {|
  dev_of _ d := if d =? 0 then Some (mkDevice 0 1) else None;
  DEVOP_EACHOPEN _ _ flags := mret (nullopen flags);
  DEVOP_IO _ _ u := let '(r, u) := nullio u in mret (r, u, ()) |}.

(** ** Theorems *)

Section Refs.
Context {S D : Type} `{!Vops S} `{!VopsRefs S} `{!DevOps D}.

#[export] Instance dev_refs : VopsRefs (dstate S D).
Proof.
  refine {| vrefs := fun s v => if isdev v then dv_refcount <$> ds_vnodes s !! v else vrefs (ds_fs s) v |}.
  - intros s v n. cbn [vn_refcount_of dev_vops]. unfold vdispatch, get_vn. destruct (isdev v); [|apply refcount_law].
    destruct (ds_vnodes s !! v) as [x|]; [|done]. by intros [= <-].
  - intros s v n. cbn [VOP_INCREF dev_vops]. unfold vdispatch. destruct (isdev v) eqn:Ev; intros Hn.
    + unfold dev_incref, get_vn. destruct (ds_vnodes s !! v) as [x|]; [|done]. injection Hn as <-. kred. eexists.
      split; [done|]. cbn [ds_vnodes put_vn]. rewrite lookup_insert_eq. split; [done|].
      intros w Hw. by rewrite lookup_insert_ne.
    + destruct (incref_law (ds_fs s) v n Hn) as (f & -> & Hf & Ho). kred. eexists. split; [done|]. split; [done|].
      intros w Hw. cbn [ds_vnodes set_fs ds_fs]. by rewrite Ho.
  - intros s v n. cbn [VOP_DECREF dev_vops]. unfold vdispatch. destruct (isdev v) eqn:Ev; intros Hn H1.
    + unfold dev_decref, get_vn. destruct (ds_vnodes s !! v) as [x|]; [|done]. injection Hn as Hn. kred.
      rewrite !Z.gtb_ltb, !(proj2 (Z.ltb_lt _ _)) by lia. kred.
      eexists. split; [done|]. cbn [ds_vnodes put_vn]. rewrite lookup_insert_eq. split; [by rewrite <- Hn|].
      intros w Hw. by rewrite lookup_insert_ne.
    + destruct (decref_law (ds_fs s) v n Hn H1) as (f & -> & Hf & Ho). kred. eexists. split; [done|]. split; [done|].
      intros w Hw. cbn [ds_vnodes set_fs ds_fs]. by rewrite Ho.
Defined.

Lemma tryseek_ok d pos :
  0 <= pos -> 0 < d_blocksize d -> 0 <= d_blocks d ->
  dev_tryseek d pos = if decide (d_blocks d = 0 \/ (pos mod d_blocksize d = 0 /\ pos < d_blocks d * d_blocksize d)) then 0 else EINVAL.
Proof.
  intros Hp Hb Hn. unfold dev_tryseek. rewrite Z.rem_mod_nonneg, Z.quot_div_nonneg by lia.
  destruct (Z.gtb_spec (d_blocks d) 0) as [Hpos|Hz]; [|by rewrite decide_True by lia].
  destruct (Z.eqb_spec (pos mod d_blocksize d) 0) as [Ha|Ha]; cbn [negb]; [|rewrite decide_False; [done|intros [|[? _]]; lia]].
  pose proof (Z_div_exact_full_2 pos (d_blocksize d) ltac:(lia) Ha) as Hq.
  destruct (Z.geb_spec (pos / d_blocksize d) (d_blocks d)) as [Hge|Hlt].
  - rewrite decide_False; [done|]. intros [|[_ Hlt]]; [lia|]. nia.
  - rewrite decide_True; [done|]. right. split; [done|]. nia.
Qed.

(** Reads and writes of a device vnode.  They reach the device only at the start
    of one of its blocks, when it is a block device; at any other position the call
    is EINVAL with nothing moved and nothing changed.  A device with no blocks takes
    any position. *)
Theorem dev_io_spec (s : dstate S D) v d dev refs u :
  v < 0 -> ds_vnodes s !! v = Some (mkDevvn (Some d) refs) -> dev_of (ds_dev s) d = Some dev ->
  0 <= uio_offset u -> 0 < d_blocksize dev -> 0 <= d_blocks dev ->
  let here := d_blocks dev = 0 \/ (uio_offset u mod d_blocksize dev = 0 /\ uio_offset u < d_blocks dev * d_blocksize dev) in
  (uio_rwflag u = UIO_READ ->
     (here -> VOP_READ s v u = '(r, u', x) ← DEVOP_IO (ds_dev s) d u; mret (r, u', set_dev x s)) /\
     (~ here -> VOP_READ s v u = Done (EINVAL, u, s))) /\
  (uio_rwflag u = UIO_WRITE ->
     (here -> VOP_WRITE s v u = '(r, u', x) ← DEVOP_IO (ds_dev s) d u; mret (r, u', set_dev x s)) /\
     (~ here -> VOP_WRITE s v u = Done (EINVAL, u, s))).
Proof.
  intros Hv Hx Hd Ho Hb Hn here.
  assert (Hdev : get_dev s v = Done (d, dev)) by (unfold get_dev, get_vn; rewrite Hx; kred; cbn [vn_data]; kred; by rewrite Hd).
  cbn [VOP_READ VOP_WRITE dev_vops]. unfold vdispatch, isdev. rewrite (proj2 (Z.ltb_lt _ _)) by done.
  unfold dev_read, dev_write. rewrite Hdev. kred. rewrite tryseek_ok by done. fold here.
  split; intros Hrw; (split; intros Hh; [rewrite decide_True by done|rewrite decide_False by done]); kred;
    rewrite ?bool_decide_true by done; done.
Qed.
End Refs.
