(* ===== verification/Semfs.v ===== *)
(** * fs/semfs: a file system whose files are semaphores

    Reading a file is [P] and writing it is [V], as often as there are bytes to
    move.  The semaphores, the directory and the vnodes are tables under two locks.
    Semaphores and directory entries are shared by their place in a table, a null
    pointer there being [None]; vnodes by their keys, key 0 being the null pointer.
    [self] is the thread that runs.  What a call does on a semaphore between getting
    its lock and giving it up is a round; [SemfsSem] interleaves the rounds of many
    threads. *)

From S2P Require Import Prelude CopyInOut Uio Vop Cstring Synch.

#[local] Set Warnings "-clear-no-such-hyp".

Definition SEMFS_ROOTDIR : Z := 4294967295.

Record semfs_sem := mkSemfsSem {
  sems_lock : lock; sems_cv : cv; sems_count : Z; sems_hasvnode : bool; sems_linked : bool }.

Record semfs_direntry := mkDent { semd_name : list Z; semd_semnum : Z }.

#[export] Instance lock_eq_dec : EqDecision lock.
Proof. solve_decision. Defined.
#[export] Instance cv_eq_dec : EqDecision cv.
Proof. solve_decision. Defined.
#[export] Instance semfs_sem_eq_dec : EqDecision semfs_sem.
Proof. solve_decision. Defined.
#[export] Instance semfs_direntry_eq_dec : EqDecision semfs_direntry.
Proof. solve_decision. Defined.

(** The two tables of vnode operations. *)
Inductive semfs_ops := semfs_dirops | semfs_semops.

(** [semv_absvn] is the count of references and the operations. *)
Record semfs_vnode := mkSemv { semv_refcount : Z; semv_ops : semfs_ops; semv_semnum : Z }.

Record semfs := mkSemfs {
  semfs_tablelock : lock;
  semfs_vnodes : list Z;
  semfs_sems : list (option semfs_sem);
  semfs_dirlock : lock;
  semfs_dents : list (option semfs_direntry);
  semfs_objs : gmap Z semfs_vnode;
  semfs_nextvn : Z;
  semfs_mem : list bool }.

Definition set_tablelock (lk : lock) (s : semfs) : semfs :=
  mkSemfs lk (semfs_vnodes s) (semfs_sems s) (semfs_dirlock s) (semfs_dents s) (semfs_objs s) (semfs_nextvn s) (semfs_mem s).
Definition set_vnodes (l : list Z) (s : semfs) : semfs :=
  mkSemfs (semfs_tablelock s) l (semfs_sems s) (semfs_dirlock s) (semfs_dents s) (semfs_objs s) (semfs_nextvn s) (semfs_mem s).
Definition set_sems (l : list (option semfs_sem)) (s : semfs) : semfs :=
  mkSemfs (semfs_tablelock s) (semfs_vnodes s) l (semfs_dirlock s) (semfs_dents s) (semfs_objs s) (semfs_nextvn s) (semfs_mem s).
Definition set_dirlock (lk : lock) (s : semfs) : semfs :=
  mkSemfs (semfs_tablelock s) (semfs_vnodes s) (semfs_sems s) lk (semfs_dents s) (semfs_objs s) (semfs_nextvn s) (semfs_mem s).
Definition set_dents (l : list (option semfs_direntry)) (s : semfs) : semfs :=
  mkSemfs (semfs_tablelock s) (semfs_vnodes s) (semfs_sems s) (semfs_dirlock s) l (semfs_objs s) (semfs_nextvn s) (semfs_mem s).
Definition set_objs (m : gmap Z semfs_vnode) (n : Z) (s : semfs) : semfs :=
  mkSemfs (semfs_tablelock s) (semfs_vnodes s) (semfs_sems s) (semfs_dirlock s) (semfs_dents s) m n (semfs_mem s).
Definition set_mem (mem : list bool) (s : semfs) : semfs :=
  mkSemfs (semfs_tablelock s) (semfs_vnodes s) (semfs_sems s) (semfs_dirlock s) (semfs_dents s) (semfs_objs s) (semfs_nextvn s) mem.

(** ** Memory and tables *)

Definition on_mem {A} (f : list bool -> A * list bool) : K semfs A := fun s =>
  let '(a, mem) := f (semfs_mem s) in Done (a, set_mem mem s).
Definition kmalloc : K semfs bool := on_mem kalloc.

Definition set_slot {A} (n : Z) (x : option A) (l : list (option A)) : list (option A) := <[Z.to_nat n := x]> l.
(** The first place with a null pointer. *)
Fixpoint first_null {A} (l : list (option A)) (i : Z) : option Z :=
  match l with
  | [] => None
  | None :: _ => Some i
  | Some _ :: l => first_null l (i + 1)
  end.

(** A semaphore in the table, used through its pointer. *)
Definition the_sem (n : Z) : K semfs semfs_sem := fun s =>
  p ← deref (semfs_sems s !! Z.to_nat n); x ← deref p; Done (x, s).
Definition put_sem (n : Z) (x : option semfs_sem) : K semfs unit := fun s =>
  Done ((), set_sems (set_slot n x (semfs_sems s)) s).
Definition on_sem {A} (n : Z) (m : K semfs_sem A) : K semfs A :=
  x ← the_sem n;
  r ← lift (m x);
  put_sem n (Some (snd r));;
  mret (fst r).

(** A vnode in memory. *)
Definition get_semv (v : Z) : K semfs semfs_vnode := fun s => o ← deref (semfs_objs s !! v); Done (o, s).
Definition put_semv (v : Z) (o : semfs_vnode) : K semfs unit := modify (fun s =>
  set_objs (<[v := o]> (semfs_objs s)) (semfs_nextvn s) s).

Section Thread.
Variable self : Z.

Definition table_acquire : K semfs unit :=
  lk ← gets semfs_tablelock; lk ← lift (lock_acquire self lk); modify (set_tablelock lk).
Definition table_release : K semfs unit :=
  lk ← gets semfs_tablelock; r ← lift (lock_release self lk); modify (set_tablelock (snd r)).
Definition dir_acquire : K semfs unit :=
  lk ← gets semfs_dirlock; lk ← lift (lock_acquire self lk); modify (set_dirlock lk).
Definition dir_release : K semfs unit :=
  lk ← gets semfs_dirlock; r ← lift (lock_release self lk); modify (set_dirlock (snd r)).

(** ** semfs_obj.c *)

Definition semfs_sem_create : K semfs (option semfs_sem) :=
  ok ← kmalloc;
  if negb ok then mret None else
  lk ← on_mem lock_create;
  match lk with
  | None => mret None
  | Some lk =>
      c ← on_mem cv_create;
      match c with
      | None => lift (lock_destroy self lk);; mret None
      | Some c => mret (Some (mkSemfsSem lk c 0 false false))
      end
  end.

Definition semfs_sem_destroy (x : semfs_sem) : outcome unit :=
  cv_destroy (sems_cv x);; lock_destroy self (sems_lock x).

Definition semfs_sem_insert (x : semfs_sem) : K semfs (res Z) :=
  lk ← gets semfs_tablelock;
  kassert (lock_do_i_hold self lk);;
  l ← gets semfs_sems;
  let num := Z.of_nat (length l) in
  if num =? SEMFS_ROOTDIR then mret (Err ENOSPC) else
  match first_null l 0 with
  | Some i => put_sem i (Some x);; mret (Ok i)
  | None =>
      ok ← kmalloc;
      if negb ok then mret (Err ENOMEM) else
      modify (set_sems (l ++ [Some x]));; mret (Ok num)
  end.

Definition semfs_direntry_create (name : list Z) (semnum : Z) : K semfs (option semfs_direntry) :=
  ok ← kmalloc;
  if negb ok then mret None else
  ok ← kmalloc;
  name ← lift (kstrdup (fun n => if ok : bool then Some (zeros (Z.to_nat n)) else None) name);
  match name with
  | None => mret None
  | Some name => mret (Some (mkDent name semnum))
  end.

(** ** Semaphores *)

Definition semfs_getsembynum (n : Z) : K semfs Z :=
  table_acquire;;
  l ← gets semfs_sems;
  kassert (n <? Z.of_nat (length l));;
  table_release;;
  mret n.

Definition semfs_getsem (v : Z) : K semfs Z := o ← get_semv v; semfs_getsembynum (semv_semnum o).

Definition set_sems_lock (lk : lock) : K semfs_sem unit := modify (fun x =>
  mkSemfsSem lk (sems_cv x) (sems_count x) (sems_hasvnode x) (sems_linked x)).
Definition set_sems_cv (c : cv) : K semfs_sem unit := modify (fun x =>
  mkSemfsSem (sems_lock x) c (sems_count x) (sems_hasvnode x) (sems_linked x)).
Definition set_sems_count (n : Z) : K semfs_sem unit := modify (fun x =>
  mkSemfsSem (sems_lock x) (sems_cv x) n (sems_hasvnode x) (sems_linked x)).
Definition set_hasvnode (b : bool) : K semfs_sem unit := modify (fun x =>
  mkSemfsSem (sems_lock x) (sems_cv x) (sems_count x) b (sems_linked x)).
Definition set_linked (b : bool) : K semfs_sem unit := modify (fun x =>
  mkSemfsSem (sems_lock x) (sems_cv x) (sems_count x) (sems_hasvnode x) b).

Definition sem_acquire : K semfs_sem unit :=
  lk ← gets sems_lock; lk ← lift (lock_acquire self lk); set_sems_lock lk.
Definition sem_release : K semfs_sem unit :=
  lk ← gets sems_lock; r ← lift (lock_release self lk); set_sems_lock (snd r).
(** [cv_wait] until the thread sleeps. *)
Definition sem_wait : K semfs_sem unit :=
  lk ← gets sems_lock;
  c ← gets sems_cv;
  r ← lift (cv_wait_release self c lk);
  let '(_, c, lk) := r in
  set_sems_lock lk;;
  c ← lift (cv_wait_sleep self c);
  set_sems_cv c.

(** The threads it wakes. *)
Definition semfs_wakeup (newcount : Z) : K semfs_sem (list Z) :=
  count ← gets sems_count;
  if (count >? 0) || (newcount =? 0) then mret [] else
  lk ← gets sems_lock;
  c ← gets sems_cv;
  if newcount =? 1 then
    r ← lift (cv_signal self c lk);
    set_sems_cv (snd r);; mret (option_list (fst r))
  else
    r ← lift (cv_broadcast self c lk);
    set_sems_cv (snd r);; mret (fst r).

(** The loop of [semfs_read], up to the end or to [cv_wait]: [true] at the end.  A
    turn that neither ends nor waits is not possible, so one turn of fuel is enough. *)
Fixpoint read_loop (fuel : nat) (u : uio) : K semfs_sem (bool * uio) :=
  match fuel with
  | O => fun _ => Blocked
  | S fuel =>
      if negb (uio_resid u >? 0) then mret (true, u) else
      count ← gets sems_count;
      u ← (if count >? 0 then
             let consume := if uio_resid u >? count then count else uio_resid u in
             set_sems_count (u32 (count - consume));;
             mret (set_offset_resid u (uio_offset u + consume) (u32 (uio_resid u - consume)))
           else mret u);
      if uio_resid u =? 0 then mret (true, u) else
      count ← gets sems_count;
      if count =? 0 then sem_wait;; mret (false, u) else read_loop fuel u
  end.

Definition read_round (u : uio) : K semfs_sem (bool * uio) :=
  sem_acquire;;
  r ← read_loop 1 u;
  (if fst r : bool then sem_release else mret ());;
  mret r.

(** The loop of [semfs_write] leaves nothing to move, so it has one turn. *)
Definition write_round (u : uio) : K semfs_sem (Z * uio * list Z) :=
  sem_acquire;;
  if uio_resid u >? 0 then
    count ← gets sems_count;
    let newcount := u32 (count + uio_resid u) in
    if newcount <? count then sem_release;; mret (EFBIG, u, []) else
    woken ← semfs_wakeup newcount;
    set_sems_count newcount;;
    sem_release;;
    mret (0, set_offset_resid u (uio_offset u + uio_resid u) 0, woken)
  else sem_release;; mret (0, u, []).

Definition truncate_round (newcount : Z) : K semfs_sem (list Z) :=
  sem_acquire;;
  woken ← semfs_wakeup newcount;
  set_sems_count newcount;;
  sem_release;;
  mret woken.

(** A thread that has to wait is blocked: only another one can go on. *)
Definition semfs_read (v : Z) (u : uio) : K semfs (Z * uio) :=
  n ← semfs_getsem v;
  r ← on_sem n (read_round u);
  if negb (fst r) then lift Blocked else mret (0, snd r).

Definition semfs_write (v : Z) (u : uio) : K semfs (Z * uio) :=
  n ← semfs_getsem v;
  r ← on_sem n (write_round u);
  mret (fst r).

Definition semfs_truncate (v len : Z) : K semfs Z :=
  let max := 2 ^ 32 - 1 in
  if len <? 0 then mret EINVAL else
  if len >? max then mret EFBIG else
  let newcount := u32 len in
  n ← semfs_getsem v;
  on_sem n (truncate_round newcount);;
  mret 0.

(** Mode, size, number of links and inode number. *)
Definition semfs_semstat (v : Z) : K semfs (Z * Z * Z * Z) :=
  n ← semfs_getsem v;
  r ← on_sem n (sem_acquire;; count ← gets sems_count; linked ← gets sems_linked; sem_release;; mret (count, linked));
  o ← get_semv v;
  mret (Z.lor S_IFREG 438, fst r, if snd r : bool then 1 else 0, semv_semnum o).

(** ** Basic operations *)

Definition semfs_eachopen (v openflags : Z) : K semfs Z :=
  o ← get_semv v;
  if semv_semnum o =? SEMFS_ROOTDIR then
    if negb (Z.land openflags O_ACCMODE =? O_RDONLY) then mret EISDIR else
    if negb (Z.land openflags O_APPEND =? 0) then mret EISDIR else mret 0
  else mret 0.

Definition semfs_ioctl (op : Z) : Z := EINVAL.

Definition semfs_gettype (v : Z) : K semfs Z :=
  o ← get_semv v; mret (if semv_semnum o =? SEMFS_ROOTDIR then S_IFDIR else S_IFREG).

Definition semfs_isseekable (v : Z) : K semfs bool :=
  o ← get_semv v; mret (if negb (semv_semnum o =? SEMFS_ROOTDIR) then false else true).

Definition semfs_fsync (v : Z) : Z := 0.

(** ** Vnodes *)

Definition vnode_incref (v : Z) : K semfs unit :=
  o ← get_semv v; put_semv v (mkSemv (semv_refcount o + 1) (semv_ops o) (semv_semnum o)).

(** [vnode_cleanup] and [kfree]. *)
Definition semfs_vnode_destroy (v : Z) : K semfs unit :=
  o ← get_semv v;
  kassert (semv_refcount o =? 1);;
  modify (fun s => set_objs (delete v (semfs_objs s)) (semfs_nextvn s) s).

Definition semfs_vnode_create (semnum : Z) : K semfs (option Z) :=
  let optable := if semnum =? SEMFS_ROOTDIR then semfs_dirops else semfs_semops in
  ok ← kmalloc;
  if negb ok then mret None else
  v ← gets semfs_nextvn;
  modify (fun s => set_objs (<[v := mkSemv 1 optable semnum]> (semfs_objs s)) (v + 1) s);;
  mret (Some v).

(** The search of the vnode table. *)
Fixpoint find_semv (l : list Z) (semnum : Z) : K semfs (option Z) :=
  match l with
  | [] => mret None
  | v :: l => o ← get_semv v; if semv_semnum o =? semnum then mret (Some v) else find_semv l semnum
  end.

Definition semfs_getvnode (semnum : Z) : K semfs (res Z) :=
  table_acquire;;
  l ← gets semfs_vnodes;
  found ← find_semv l semnum;
  match found with
  | Some v => vnode_incref v;; table_release;; mret (Ok v)
  | None =>
      semv ← semfs_vnode_create semnum;
      match semv with
      | None => table_release;; mret (Err ENOMEM)
      | Some v =>
          ok ← kmalloc;
          if negb ok then semfs_vnode_destroy v;; table_release;; mret (Err ENOMEM) else
          modify (set_vnodes (l ++ [v]));;
          (if negb (semnum =? SEMFS_ROOTDIR) then
             on_sem semnum (b ← gets sems_hasvnode; kassert (negb b);; set_hasvnode true)
           else mret ());;
          table_release;;
          mret (Ok v)
      end
  end.

(** Takes the vnode out of the table, if it is there. *)
Fixpoint remove_vnode (l : list Z) (v : Z) : list Z :=
  match l with
  | [] => []
  | w :: l => if w =? v then l else w :: remove_vnode l v
  end.

Definition semfs_reclaim (v : Z) : K semfs Z :=
  o ← get_semv v;
  table_acquire;;
  if semv_refcount o >? 1 then
    put_semv v (mkSemv (semv_refcount o - 1) (semv_ops o) (semv_semnum o));;
    table_release;;
    mret EBUSY
  else
    modify (fun s => set_vnodes (remove_vnode (semfs_vnodes s) v) s);;
    (if negb (semv_semnum o =? SEMFS_ROOTDIR) then
       linked ← on_sem (semv_semnum o)
         (b ← gets sems_hasvnode; kassert b;; set_hasvnode false;; gets sems_linked);
       if negb linked then
         x ← the_sem (semv_semnum o);
         put_sem (semv_semnum o) None;;
         lift (semfs_sem_destroy x)
       else mret ()
     else mret ());;
    table_release;;
    semfs_vnode_destroy v;;
    mret 0.

Definition vnode_decref (v : Z) : K semfs unit :=
  o ← get_semv v;
  kassert (semv_refcount o >? 0);;
  if semv_refcount o >? 1 then put_semv v (mkSemv (semv_refcount o - 1) (semv_ops o) (semv_semnum o))
  else semfs_reclaim v;; mret ().

(** ** The directory *)

Definition dot : list Z := [46; 0].
Definition dotdot : list Z := [46; 46; 0].

(** [!strcmp(name, ".") || !strcmp(name, "..")]. *)
Definition is_dots (name : list Z) : outcome bool :=
  a ← strcmp name dot;
  if a =? 0 then mret true else b ← strcmp name dotdot; mret (b =? 0).

Definition semfs_getdirentry (dirvn : Z) (u : uio) : K semfs (Z * uio) :=
  _ ← get_semv dirvn;
  kassert (uio_offset u >=? 0);;
  let pos := u32 (uio_offset u) in
  dir_acquire;;
  l ← gets semfs_dents;
  r ← (if pos >=? Z.of_nat (length l) then mret (0, u) else
       p ← lift (deref (l !! Z.to_nat pos));
       dent ← lift (deref p);
       len ← lift (strlen (semd_name dent));
       r ← lift (uiomove (semd_name dent) len u);
       mret (fst (fst r), snd r));
  dir_release;;
  mret r.

(** The mode is [S_IFDIR | 1777], in decimal. *)
Definition semfs_dirstat (v : Z) : K semfs (Z * Z * Z * Z) :=
  _ ← get_semv v;
  dir_acquire;;
  l ← gets semfs_dents;
  dir_release;;
  mret (Z.lor S_IFDIR 1777, Z.of_nat (length l), 2, SEMFS_ROOTDIR).

Definition semfs_namefile (u : uio) : Z := 0.

(** The loop of [semfs_creat]: the entry with the name, or else the first empty place
    ([num], when there is none). *)
Fixpoint creat_scan (name : list Z) (l : list (option semfs_direntry)) (i empty num : Z) : outcome (semfs_direntry + Z) :=
  match l with
  | [] => mret (inr empty)
  | None :: l => creat_scan name l (i + 1) (if empty =? num then i else empty) num
  | Some dent :: l =>
      c ← strcmp (semd_name dent) name;
      if c =? 0 then mret (inl dent) else creat_scan name l (i + 1) empty num
  end.

(** The loop of [semfs_remove] and [semfs_lookup]: the place of the entry, and the
    entry. *)
Fixpoint dents_scan (name : list Z) (l : list (option semfs_direntry)) (i : Z) : outcome (option (Z * semfs_direntry)) :=
  match l with
  | [] => mret None
  | None :: l => dents_scan name l (i + 1)
  | Some dent :: l =>
      c ← strcmp name (semd_name dent);
      if c =? 0 then mret (Some (i, dent)) else dents_scan name l (i + 1)
  end.

(** What [semfs_creat] undoes, from its labels on. *)
Definition fail_unlock (result : res Z) : K semfs (res Z) := dir_release;; mret result.
Definition fail_uncreate (x : semfs_sem) (result : res Z) : K semfs (res Z) :=
  lift (semfs_sem_destroy x);; fail_unlock result.
Definition fail_uninsert (semnum : Z) (result : res Z) : K semfs (res Z) :=
  table_acquire;;
  x ← the_sem semnum;
  put_sem semnum None;;
  table_release;;
  fail_uncreate x result.
Definition fail_undir (empty semnum : Z) (result : res Z) : K semfs (res Z) :=
  modify (fun s => set_dents (set_slot empty None (semfs_dents s)) s);;
  fail_uninsert semnum result.

(** The entry into the first empty place, or at the end. *)
Definition put_dent (l : list (option semfs_direntry)) (empty : Z) (dent : semfs_direntry) : K semfs bool :=
  if empty <? Z.of_nat (length l) then modify (set_dents (set_slot empty (Some dent) l));; mret true else
  ok ← kmalloc;
  if negb ok then mret false else modify (set_dents (l ++ [Some dent]));; mret true.

(** The part of [semfs_creat] that creates.  Without memory for the entry [result] is
    still 0, from [semfs_sem_insert], and [*resultvn] is what the caller had put
    there: null. *)
Definition create_it (l : list (option semfs_direntry)) (empty : Z) (name : list Z) : K semfs (res Z) :=
  sem ← semfs_sem_create;
  match sem with
  | None => fail_unlock (Err ENOMEM)
  | Some x =>
      table_acquire;;
      r ← semfs_sem_insert x;
      table_release;;
      match r with
      | Err e => fail_uncreate x (Err e)
      | Ok semnum =>
          dent ← semfs_direntry_create name semnum;
          match dent with
          | None => fail_uninsert semnum (Ok 0)
          | Some dent =>
              ok ← put_dent l empty dent;
              if negb ok then fail_uninsert semnum (Err ENOMEM) else
              r ← semfs_getvnode semnum;
              match r with
              | Err e => fail_undir empty semnum (Err e)
              | Ok v => on_sem semnum (set_linked true);; dir_release;; mret (Ok v)
              end
          end
      end
  end.

Definition semfs_creat (dirvn : Z) (name : list Z) (excl : bool) : K semfs (res Z) :=
  _ ← get_semv dirvn;
  dots ← lift (is_dots name);
  if dots : bool then mret (Err EEXIST) else
  dir_acquire;;
  l ← gets semfs_dents;
  let num := Z.of_nat (length l) in
  found ← lift (creat_scan name l 0 num num);
  match found with
  | inl dent =>
      if excl then dir_release;; mret (Err EEXIST) else
      result ← semfs_getvnode (semd_semnum dent);
      dir_release;;
      mret result
  | inr empty => create_it l empty name
  end.

Definition semfs_remove (dirvn : Z) (name : list Z) : K semfs Z :=
  _ ← get_semv dirvn;
  dots ← lift (is_dots name);
  if dots : bool then mret EINVAL else
  dir_acquire;;
  l ← gets semfs_dents;
  found ← lift (dents_scan name l 0);
  match found with
  | None => dir_release;; mret ENOENT
  | Some (i, dent) =>
      n ← semfs_getsembynum (semd_semnum dent);
      on_sem n (sem_acquire;; b ← gets sems_linked; kassert b;; set_linked false);;
      x ← the_sem n;
      (if negb (sems_hasvnode x) then
         table_acquire;;
         put_sem (semd_semnum dent) None;;
         table_release;;
         r ← lift (sem_release x);
         lift (semfs_sem_destroy (snd r))
       else on_sem n sem_release);;
      modify (set_dents (set_slot i None l));;
      dir_release;;
      mret 0
  end.

Definition semfs_lookup (dirvn : Z) (path : list Z) : K semfs (res Z) :=
  _ ← get_semv dirvn;
  dots ← lift (is_dots path);
  if dots : bool then vnode_incref dirvn;; mret (Ok dirvn) else
  dir_acquire;;
  l ← gets semfs_dents;
  found ← lift (dents_scan path l 0);
  match found with
  | Some (_, dent) =>
      result ← semfs_getvnode (semd_semnum dent);
      dir_release;;
      mret result
  | None => dir_release;; mret (Err ENOENT)
  end.

(** The length of [namebuf] is [bufmax]. *)
Definition semfs_lookparent (dirvn : Z) (path namebuf : list Z) : K semfs (res (Z * list Z)) :=
  len ← lift (strlen path);
  if len + 1 >? Z.of_nat (length namebuf) then mret (Err ENAMETOOLONG) else
  namebuf ← lift (strcpy namebuf path);
  vnode_incref dirvn;;
  mret (Ok (dirvn, namebuf)).

(** ** semfs_fsops.c *)

Definition semfs_sync : Z := 0.
Definition semfs_getvolname : list Z := [115; 101; 109; 0].
Definition semfs_getroot : K semfs (res Z) := semfs_getvnode SEMFS_ROOTDIR.

(** The loops of [semfs_destroy]: an empty place is a null pointer there too. *)
Fixpoint destroy_sems (l : list (option semfs_sem)) : outcome unit :=
  match l with
  | [] => mret ()
  | p :: l => x ← deref p; semfs_sem_destroy x;; destroy_sems l
  end.
Fixpoint destroy_dents (l : list (option semfs_direntry)) : outcome unit :=
  match l with
  | [] => mret ()
  | p :: l => _ ← deref p; destroy_dents l
  end.

Definition semfs_destroy : K semfs unit :=
  l ← gets semfs_sems;
  lift (destroy_sems l);;
  modify (set_sems []);;
  l ← gets semfs_dents;
  lift (destroy_dents l);;
  modify (set_dents []);;
  lk ← gets semfs_dirlock;
  lift (lock_destroy self lk);;
  l ← gets semfs_vnodes;
  kassert (Z.of_nat (length l) =? 0);;
  lk ← gets semfs_tablelock;
  lift (lock_destroy self lk).

Definition semfs_unmount : K semfs Z :=
  table_acquire;;
  l ← gets semfs_vnodes;
  if Z.of_nat (length l) >? 0 then table_release;; mret EBUSY else
  table_release;;
  semfs_destroy;;
  mret 0.

(** The structure, two locks and three arrays. *)
Definition semfs_create (mem : list bool) : outcome (option semfs * list bool) :=
  let '(ok, mem) := kalloc mem in
  if negb ok then mret (None, mem) else
  let '(tablelock, mem) := lock_create mem in
  match tablelock with
  | None => mret (None, mem)
  | Some tablelock =>
      let '(vnodes, mem) := kalloc mem in
      if negb vnodes then lock_destroy self tablelock;; mret (None, mem) else
      let '(sems, mem) := kalloc mem in
      if negb sems then lock_destroy self tablelock;; mret (None, mem) else
      let '(dirlock, mem) := lock_create mem in
      match dirlock with
      | None => lock_destroy self tablelock;; mret (None, mem)
      | Some dirlock =>
          let '(dents, mem) := kalloc mem in
          if negb dents then lock_destroy self dirlock;; lock_destroy self tablelock;; mret (None, mem) else
          mret (Some (mkSemfs tablelock [] [] dirlock [] ∅ 1 mem), mem)
      end
  end.

(** [addfs] is [vfs_addfs] for ["sem"]. *)
Definition semfs_bootstrap (addfs : semfs -> outcome Z) (mem : list bool) : outcome semfs :=
  '(s, _) ← semfs_create mem;
  match s with
  | None => Panic
  | Some s => result ← addfs s; KASSERT (result =? 0);; mret s
  end.

(** ** semfs behind the interface

    One volume, as for SFS.  What semfs has no operation for is vfsfail.c's. *)

Definition by_ops {A} (v : Z) (dir sem : K semfs A) : K semfs A :=
  o ← get_semv v; match semv_ops o with semfs_dirops => dir | semfs_semops => sem end.
Definition vopfail {A} (v : Z) (dir sem : A) : K semfs A := by_ops v (mret dir) (mret sem).

Definition semfs_vops : Vops semfs := {|
  vn_fs s v := '(_, _) ← get_semv v s; mret (Some 0);
  vn_refcount_of s v := '(o, _) ← get_semv v s; mret (semv_refcount o);
  VNODE_CLEANUP s v := '(_, s) ← semfs_vnode_destroy v s; mret s;
  VOP_INCREF s v := '(_, s) ← vnode_incref v s; mret s;
  VOP_DECREF s v := '(_, s) ← vnode_decref v s; mret s;
  VOP_EACHOPEN s v flags := '(r, _) ← semfs_eachopen v flags s; mret r;
  VOP_READ s v u := by_ops v (mret (EISDIR, u)) (semfs_read v u) s;
  VOP_READLINK s v u := vopfail v (EISDIR, u) (EINVAL, u) s;
  VOP_WRITE s v u := by_ops v (mret (EISDIR, u)) (semfs_write v u) s;
  VOP_STAT_SIZE s v := '(_, size, _, _, _) ← by_ops v (semfs_dirstat v) (semfs_semstat v) s; mret (Ok size);
  VOP_GETTYPE s v := '(t, _) ← semfs_gettype v s; mret (Ok t);
  VOP_ISSEEKABLE s v := '(b, _) ← semfs_isseekable v s; mret b;
  VOP_TRUNCATE s v len := by_ops v (mret EISDIR) (semfs_truncate v len) s;
  VOP_NAMEFILE s v u := '(r, _) ← vopfail v (semfs_namefile u) ENOTDIR s; mret (r, u);
  VOP_CREAT s v name excl := by_ops v (semfs_creat v name excl) (mret (Err ENOTDIR)) s;
  VOP_SYMLINK s v _ _ := vopfail v ENOSYS ENOTDIR s;
  VOP_MKDIR s v _ := vopfail v ENOSYS ENOTDIR s;
  VOP_LINK s v _ _ := vopfail v ENOSYS ENOTDIR s;
  VOP_REMOVE s v name := by_ops v (semfs_remove v name) (mret ENOTDIR) s;
  VOP_RMDIR s v _ := vopfail v ENOSYS ENOTDIR s;
  VOP_RENAME s v _ _ _ := vopfail v ENOSYS ENOTDIR s;
  VOP_LOOKUP s v path := by_ops v (semfs_lookup v path) (mret (Err ENOTDIR)) s;
  VOP_LOOKPARENT s v path buf := by_ops v (semfs_lookparent v path buf) (mret (Err ENOTDIR)) s;
  FSOP_GETVOLNAME s _ := mret (Some semfs_getvolname);
  FSOP_GETROOT s _ := semfs_getroot s;
  FSOP_SYNC s _ := mret (semfs_sync, s);
  FSOP_UNMOUNT s _ := semfs_unmount s |}.

(** ** Slots *)

(** What the table [l] has at place [j], if anything. *)
Definition slot {A} (l : list (option A)) (j : nat) : option A := mjoin (l !! j).

Lemma slot_lt {A} (l : list (option A)) j x : slot l j = Some x -> (j < length l)%nat.
Proof. unfold slot. destruct (l !! j) eqn:Hj; [intros _; by eapply lookup_lt_Some|done]. Qed.

Lemma slot_set {A} (l : list (option A)) n o j :
  (n < length l)%nat -> slot (<[n := o]> l) j = if decide (j = n) then o else slot l j.
Proof.
  intros Hn. unfold slot. case_decide as Hj; [subst j; by rewrite list_lookup_insert_eq|].
  by rewrite list_lookup_insert_ne by done.
Qed.

Lemma slot_snoc {A} (l : list (option A)) o j :
  slot (l ++ [o]) j = if decide (j = length l) then o else slot l j.
Proof.
  unfold slot. case_decide as Hj; [subst j; by rewrite lookup_app_r, Nat.sub_diag by lia|].
  destruct (decide (j < length l)%nat); [by rewrite lookup_app_l|].
  rewrite lookup_app_r, (lookup_ge_None_2 l) by lia. destruct (j - length l)%nat eqn:Hd; [lia|done].
Qed.

Lemma first_null_spec {A} (l : list (option A)) i :
  match first_null l i with
  | Some k => i <= k /\ l !! Z.to_nat (k - i) = Some None
  | None => forall j, l !! j <> Some None
  end.
Proof.
  revert i. induction l as [|[x|] l IH]; intros i; cbn; [done| |by rewrite Z.sub_diag].
  specialize (IH (i + 1)). destruct (first_null l (i + 1)) as [k|].
  - destruct IH as [Hk Hl]. split; [lia|]. replace (Z.to_nat (k - i)) with (S (Z.to_nat (k - (i + 1)))) by lia. done.
  - intros [|j]; [done|apply IH].
Qed.

(** ** Names *)

Lemma strcmp_zero a b :
  is_str a -> is_str b -> exists c, strcmp a b = Done c /\ (c =? 0) = bool_decide (cstr a = cstr b).
Proof.
  revert b. induction a as [|x a IH]; intros b; [by intros ?%not_elem_of_nil|].
  intros Ha Hb. destruct b as [|y b]; [by apply not_elem_of_nil in Hb|]. cbn [strcmp].
  destruct (Z.eqb_spec x y) as [<-|Hne]; [destruct (Z.eqb_spec x 0) as [->|Hx]|]; cbn [negb andb].
  - eexists. split; [done|]. by rewrite bool_decide_true.
  - apply is_str_cons in Ha as [?|[_ Ha]], Hb as [?|[_ Hb]]; try done.
    destruct (IH b Ha Hb) as (c & Hc & He). exists c. split; [done|]. rewrite He. cbn.
    rewrite (proj2 (Z.eqb_neq x 0)) by done. apply bool_decide_ext. split; [congruence|by intros [= ?]].
  - rewrite andb_false_r. eexists. split; [done|]. rewrite bool_decide_false.
    + destruct (x >? y); [done|]. done.
    + cbn. destruct (Z.eqb_spec x 0), (Z.eqb_spec y 0); try done; [congruence|by intros [= ? _]].
Qed.

Definition dots (name : list Z) : Prop := cstr name = [46] \/ cstr name = [46; 46].
#[export] Instance dots_dec name : Decision (dots name).
Proof. unfold dots. apply _. Defined.

Lemma is_dots_eq name : is_str name -> is_dots name = Done (bool_decide (dots name)).
Proof.
  intros Hn. unfold is_dots, dots.
  destruct (strcmp_zero name dot) as (a & -> & Ha); [done|unfold is_str; repeat constructor|].
  destruct (strcmp_zero name dotdot) as (b & -> & Hb); [done|unfold is_str; repeat constructor|].
  kred. rewrite Ha, Hb. change (cstr dot) with [46]. change (cstr dotdot) with [46; 46].
  destruct (bool_decide_reflect (cstr name = [46])) as [H1|H1].
  - rewrite (bool_decide_true (_ \/ _)) by auto. reflexivity.
  - apply (f_equal Done), bool_decide_ext. tauto.
Qed.

Lemma dents_scan_spec name l i :
  is_str name -> (forall j d, slot l j = Some d -> is_str (semd_name d)) ->
  exists r, dents_scan name l i = Done r /\
    match r with
    | Some (k, d) => i <= k /\ slot l (Z.to_nat (k - i)) = Some d /\ cstr (semd_name d) = cstr name
    | None => forall j d, slot l j = Some d -> cstr (semd_name d) <> cstr name
    end.
Proof.
  intros Hn. revert i. induction l as [|p l IH]; intros i Hs; cbn [dents_scan].
  { exists None. split; [done|]. intros j d. unfold slot. by rewrite lookup_nil. }
  destruct (IH (i + 1)) as (r & Hr & Hm); [intros j; apply (Hs (S j))|].
  assert (Hrest : match r with
      | Some (k, d) => i <= k /\ slot (p :: l) (Z.to_nat (k - i)) = Some d /\ cstr (semd_name d) = cstr name
      | None => forall j d, slot l j = Some d -> cstr (semd_name d) <> cstr name
      end).
  { destruct r as [[k d]|]; [|done]. destruct Hm as (Hk & Hl & Hc). split_and!; [lia| |done].
    by replace (Z.to_nat (k - i)) with (S (Z.to_nat (k - (i + 1)))) by lia. }
  destruct p as [d|].
  - destruct (strcmp_zero name (semd_name d)) as (c & -> & Hc); [done|by apply (Hs 0%nat)|]. kred. rewrite Hc.
    case_bool_decide as He.
    + eexists. split; [done|]. cbn. by rewrite Z.sub_diag.
    + exists r. split; [done|]. destruct r as [[k e]|]; [done|]. intros [|j] e; [intros [= <-]; congruence|apply Hrest].
  - exists r. split; [done|]. destruct r as [[k e]|]; [done|]. intros [|j] e; [done|apply Hrest].
Qed.

(** The place [creat_scan] is left with. *)
Definition free_place (l : list (option semfs_direntry)) (i empty num e : Z) : Prop :=
  if empty =? num then e = num \/ (i <= e < num /\ l !! Z.to_nat (e - i) = Some None) else e = empty.

Lemma creat_scan_spec name l i empty num :
  is_str name -> (forall j d, slot l j = Some d -> is_str (semd_name d)) -> num = i + Z.of_nat (length l) ->
  exists r, creat_scan name l i empty num = Done r /\
    match r with
    | inl d => exists j, slot l j = Some d /\ cstr (semd_name d) = cstr name
    | inr e => (forall j d, slot l j = Some d -> cstr (semd_name d) <> cstr name) /\ free_place l i empty num e
    end.
Proof.
  intros Hn. revert i empty. induction l as [|p l IH]; intros i empty Hs Hnum; cbn [creat_scan].
  { exists (inr empty). split; [done|]. split; [intros j d; unfold slot; by rewrite lookup_nil|].
    unfold free_place. destruct (Z.eqb_spec empty num); auto. }
  cbn [length] in Hnum.
  set (empty1 := match p with Some _ => empty | None => if empty =? num then i else empty end).
  destruct (IH (i + 1) empty1) as (r & Hr & Hm); [intros j; apply (Hs (S j))|lia|].
  assert (Hrest : match r with
      | inl d => exists j, slot (p :: l) j = Some d /\ cstr (semd_name d) = cstr name
      | inr e => (forall j d, slot l j = Some d -> cstr (semd_name d) <> cstr name) /\ free_place (p :: l) i empty num e
      end).
  { destruct r as [d|e]; [destruct Hm as (j & Hj & Hc); by exists (S j)|]. destruct Hm as [Ha He]. split; [done|].
    unfold free_place in *. destruct p as [d|]; subst empty1; cbn in He.
    - destruct (empty =? num); [|done]. destruct He as [He|[He Hl]]; [by left|right]. split; [lia|].
      by replace (Z.to_nat (e - i)) with (S (Z.to_nat (e - (i + 1)))) by lia.
    - destruct (Z.eqb_spec empty num) as [->|Hne]; [|by rewrite (proj2 (Z.eqb_neq _ _)) in He].
      rewrite (proj2 (Z.eqb_neq i num)) in He by lia. right. subst e. split; [lia|]. by rewrite Z.sub_diag. }
  destruct p as [d|]; subst empty1; cbn beta iota in Hr.
  - destruct (strcmp_zero (semd_name d) name) as (c & -> & Hc); [by apply (Hs 0%nat)|done|]. kred. rewrite Hc.
    case_bool_decide as He.
    + eexists. split; [done|]. by exists 0%nat.
    + exists r. split; [done|]. destruct r as [e|e]; [done|]. split; [|apply Hrest]. intros [|j] x; [intros [= <-]; congruence|apply Hrest].
  - exists r. split; [done|]. destruct r as [e|e]; [done|]. split; [|apply Hrest]. intros [|j] x; [done|apply Hrest].
Qed.

(** ** The volume as its users see it *)

(** Names, the semaphores they lead to with their counts, and the references to
    vnodes, the directory's being those of [SEMFS_ROOTDIR]. *)
Record files := mkFiles { names : gmap (list Z) Z; counts : gmap Z Z; refs : gmap Z Z }.

Definition named (nm : gmap (list Z) Z) (n : Z) : Prop := n ∈ (map_img nm : gset Z).
#[export] Instance named_dec nm n : Decision (named nm n).
Proof. unfold named. apply _. Defined.

(** A semaphore between rounds, with the threads asleep on it, and one that no thread
    is using. *)
Definition quiet_sem (wc : list Z) (c : Z) (hasvnode linked : bool) : semfs_sem :=
  mkSemfsSem new_lock (mkCv None wc) c hasvnode linked.
Definition idle_sem : Z -> bool -> bool -> semfs_sem := quiet_sem [].

Definition sem_of (a : files) (n : Z) : option semfs_sem :=
  (fun c => idle_sem c (bool_decide (is_Some (refs a !! n))) (bool_decide (named (names a) n))) <$> counts a !! n.

Record files_ok (a : files) : Prop := {
  fo_counts : forall n c, counts a !! n = Some c ->
    0 <= n /\ 0 <= c < 2 ^ 32 /\ (named (names a) n \/ is_Some (refs a !! n));
  fo_names : forall x n, names a !! x = Some n -> is_Some (counts a !! n);
  fo_inj : forall x y n, names a !! x = Some n -> names a !! y = Some n -> x = y;
  fo_refs : forall n k, refs a !! n = Some k -> 1 <= k /\ (n = SEMFS_ROOTDIR \/ is_Some (counts a !! n)) }.

Record directory (l : list (option semfs_direntry)) (nm : gmap (list Z) Z) : Prop := {
  di_str : forall j d, slot l j = Some d -> is_str (semd_name d);
  di_names : forall x n, nm !! x = Some n <-> exists j d, slot l j = Some d /\ cstr (semd_name d) = x /\ semd_semnum d = n;
  di_inj : forall i j d e, slot l i = Some d -> slot l j = Some e -> cstr (semd_name d) = cstr (semd_name e) -> i = j }.

Definition ops_for (n : Z) : semfs_ops := if n =? SEMFS_ROOTDIR then semfs_dirops else semfs_semops.

Record vnodes_of (ob : gmap Z semfs_vnode) (vs : list Z) (nx : Z) (r : gmap Z Z) : Prop := {
  vn_objs : forall v o, ob !! v = Some o ->
    1 <= v < nx /\ r !! semv_semnum o = Some (semv_refcount o) /\ semv_ops o = ops_for (semv_semnum o);
  vn_refs : forall n k, r !! n = Some k -> exists v o, ob !! v = Some o /\ semv_semnum o = n;
  vn_inj : forall v w o p, ob !! v = Some o -> ob !! w = Some p -> semv_semnum o = semv_semnum p -> v = w;
  vn_table : forall v, v ∈ vs <-> is_Some (ob !! v);
  vn_nodup : NoDup vs;
  vn_next : 1 <= nx }.

(** All of it but the lock of the directory. *)
Record tables (s : semfs) (a : files) : Prop := {
  tb_lock : idle (semfs_tablelock s);
  tb_room : Z.of_nat (length (semfs_sems s)) <= SEMFS_ROOTDIR;
  tb_sems : forall j, slot (semfs_sems s) j = sem_of a (Z.of_nat j);
  tb_dents : directory (semfs_dents s) (names a);
  tb_vnodes : vnodes_of (semfs_objs s) (semfs_vnodes s) (semfs_nextvn s) (refs a);
  tb_ok : files_ok a }.

Definition volume (s : semfs) (a : files) : Prop := idle (semfs_dirlock s) /\ tables s a.

(** ** Vnodes in memory *)

Section Vnodes.
Context {ob : gmap Z semfs_vnode} {vs : list Z} {nx : Z} {r : gmap Z Z} (H : vnodes_of ob vs nx r).

Lemma vnodes_count v o k :
  ob !! v = Some o -> vnodes_of (<[v := mkSemv k (semv_ops o) (semv_semnum o)]> ob) vs nx (<[semv_semnum o := k]> r).
Proof.
  intros Ho. destruct (vn_objs _ _ _ _ H v o Ho) as (Hv & Hr & Hops). split.
  - intros w p. rewrite lookup_insert. case_decide as Hw; [intros [= <-]; subst w; cbn|].
    + split_and!; try lia; [by rewrite lookup_insert_eq|done].
    + intros Hp. destruct (vn_objs _ _ _ _ H w p Hp) as (? & Hrp & ?). split; [done|]. split; [|done].
      rewrite lookup_insert_ne; [done|]. intros He. by apply Hw, (vn_inj _ _ _ _ H v w o p).
  - intros n j. rewrite lookup_insert. case_decide as Hn.
    + intros _. exists v. eexists. rewrite lookup_insert_eq. split; [done|]. done.
    + intros (w & p & Hp & Hs)%(vn_refs _ _ _ _ H). exists w, p. split; [|done]. rewrite lookup_insert_ne; [done|].
      intros ->. congruence.
  - intros w x p q. rewrite !lookup_insert. repeat case_decide; subst; try done.
    + intros [= <-] Hq He. by apply (vn_inj _ _ _ _ H _ _ o q).
    + intros Hp [= <-] He. by apply (vn_inj _ _ _ _ H _ _ p o).
    + apply (vn_inj _ _ _ _ H).
  - intros w. rewrite (vn_table _ _ _ _ H), lookup_insert. case_decide; [|done]. subst w. split; [by eauto|by rewrite Ho].
  - apply H.
  - apply H.
Qed.

Lemma vnodes_new n :
  r !! n = None -> vnodes_of (<[nx := mkSemv 1 (ops_for n) n]> ob) (vs ++ [nx]) (nx + 1) (<[n := 1]> r).
Proof.
  intros Hn. pose proof (vn_next _ _ _ _ H) as Hnx.
  assert (Hfresh : forall w p, ob !! w = Some p -> w <> nx /\ semv_semnum p <> n).
  { intros w p Hp. destruct (vn_objs _ _ _ _ H w p Hp) as (? & Hr & _). split; [lia|]. intros He. congruence. }
  split.
  - intros w p. rewrite lookup_insert. case_decide as Hw; [intros [= <-]; subst w; cbn|intros Hp].
    + split_and!; try lia; [by rewrite lookup_insert_eq|done].
    + destruct (vn_objs _ _ _ _ H w p Hp) as (? & ? & ?), (Hfresh w p Hp). split; [lia|]. split; [|done].
      by rewrite lookup_insert_ne.
  - intros m k. rewrite lookup_insert. case_decide as Hm.
    + intros _. exists nx. eexists. by rewrite lookup_insert_eq.
    + intros (w & p & Hp & Hs)%(vn_refs _ _ _ _ H). exists w, p. split; [|done].
      rewrite lookup_insert_ne; [done|]. intros ->. by destruct (Hfresh _ _ Hp).
  - intros w x p q. rewrite !lookup_insert. repeat case_decide; subst; try done.
    + intros [= <-] Hq He. by destruct (Hfresh _ _ Hq).
    + intros Hp [= <-] He. by destruct (Hfresh _ _ Hp).
    + apply (vn_inj _ _ _ _ H).
  - intros w. rewrite elem_of_app, list_elem_of_singleton, (vn_table _ _ _ _ H), lookup_insert. case_decide; [|naive_solver].
    subst w. split; [by eauto|by auto].
  - apply NoDup_app. split; [apply H|]. split; [|apply NoDup_singleton].
    intros w Hw ->%list_elem_of_singleton. apply (vn_table _ _ _ _ H) in Hw as [p Hp]. by destruct (Hfresh _ _ Hp).
  - lia.
Qed.

Lemma remove_vnode_spec v l : NoDup l -> NoDup (remove_vnode l v) /\ forall w, w ∈ remove_vnode l v <-> w ∈ l /\ w <> v.
Proof.
  induction l as [|x l IH]; intros Hl; cbn; [split; [done|]; intros w; rewrite elem_of_nil; tauto|].
  apply NoDup_cons in Hl as [Hx Hl]. destruct (IH Hl) as [IHd IHe].
  destruct (Z.eqb_spec x v) as [->|Hne].
  - split; [done|]. intros w. rewrite elem_of_cons. split; [|naive_solver]. intros Hw. split; [auto|congruence].
  - split; [apply NoDup_cons; split; [rewrite IHe; tauto|done]|]. intros w. rewrite !elem_of_cons, IHe.
    split; [|naive_solver]. intros [->|[? ?]]; auto.
Qed.

Lemma vnodes_gone v o :
  ob !! v = Some o -> vnodes_of (delete v ob) (remove_vnode vs v) nx (delete (semv_semnum o) r).
Proof.
  intros Ho. destruct (remove_vnode_spec v vs (vn_nodup _ _ _ _ H)) as [Hd He]. split.
  - intros w p [Hw Hp]%lookup_delete_Some. destruct (vn_objs _ _ _ _ H w p Hp) as (? & Hr & ?). split; [done|]. split; [|done].
    rewrite lookup_delete_ne; [done|]. intros Hs. by apply Hw, (vn_inj _ _ _ _ H v w o p).
  - intros n k [Hn (w & p & Hp & Hs)%(vn_refs _ _ _ _ H)]%lookup_delete_Some. exists w, p. split; [|done].
    rewrite lookup_delete_ne; [done|]. intros ->. congruence.
  - intros w x p q [_ Hp]%lookup_delete_Some [_ Hq]%lookup_delete_Some. by apply (vn_inj _ _ _ _ H).
  - intros w. rewrite He, (vn_table _ _ _ _ H). destruct (decide (w = v)) as [->|Hw].
    + rewrite lookup_delete_eq. split; [tauto|]. by intros [? ?].
    + rewrite lookup_delete_ne by done. tauto.
  - done.
  - apply H.
Qed.

Lemma find_semv_eq s n :
  semfs_objs s = ob -> exists f, find_semv vs n s = Done (f, s) /\
    match f with Some v => exists o, ob !! v = Some o /\ semv_semnum o = n | None => r !! n = None end.
Proof.
  intros Hs. assert (Hall : forall l, (forall v, v ∈ l -> is_Some (ob !! v)) ->
    exists f, find_semv l n s = Done (f, s) /\
      match f with
      | Some v => exists o, ob !! v = Some o /\ semv_semnum o = n
      | None => forall v o, v ∈ l -> ob !! v = Some o -> semv_semnum o <> n
      end).
  { induction l as [|v l IH]; intros Hl; cbn [find_semv]; [exists None; split; [done|]; by intros v o ?%not_elem_of_nil|].
    destruct (Hl v) as [o Ho]; [by left|]. krun. unfold get_semv. rewrite Hs, Ho. kred.
    destruct (Z.eqb_spec (semv_semnum o) n) as [He|He]; [by exists (Some v); eauto|].
    destruct IH as (f & Hf & Hm); [intros w Hw; apply Hl; by right|]. exists f. split; [done|]. destruct f; [done|].
    intros w p [->|Hw]%elem_of_cons Hp; [congruence|by eapply Hm]. }
  destruct (Hall vs) as (f & Hf & Hm); [intros v; by apply (vn_table _ _ _ _ H)|]. exists f. split; [done|].
  destruct f as [v|]; [done|]. apply eq_None_not_Some. intros [k (w & p & Hp & Hn)%(vn_refs _ _ _ _ H)].
  eapply Hm; [|done|done]. apply (vn_table _ _ _ _ H). by eauto.
Qed.
End Vnodes.

(** ** Steps that operations are made of *)

(** Computes the fields of a state that is written out. *)
Ltac fields :=
  cbv beta iota delta [set_tablelock set_vnodes set_sems set_dirlock set_dents set_objs set_mem];
  cbn [semfs_tablelock semfs_vnodes semfs_sems semfs_dirlock semfs_dents semfs_objs semfs_nextvn semfs_mem].

Ltac run := repeat progress (krun; fields).

Lemma table_acquire_eq tl vs ss dl ds ob nx me :
  idle tl -> table_acquire (mkSemfs tl vs ss dl ds ob nx me) = Done ((), mkSemfs (held_by self tl) vs ss dl ds ob nx me).
Proof. intros [Hb Ho]. unfold table_acquire. krun. cbn [semfs_tablelock]. by rewrite lock_acquire_free. Qed.

Lemma table_release_eq tl vs ss dl ds ob nx me :
  table_release (mkSemfs (held_by self tl) vs ss dl ds ob nx me) = Done ((), mkSemfs (freed tl) vs ss dl ds ob nx me).
Proof. unfold table_release. krun. cbn [semfs_tablelock]. by rewrite lock_release_held. Qed.

Lemma dir_acquire_eq tl vs ss dl ds ob nx me :
  idle dl -> dir_acquire (mkSemfs tl vs ss dl ds ob nx me) = Done ((), mkSemfs tl vs ss (held_by self dl) ds ob nx me).
Proof. intros [Hb Ho]. unfold dir_acquire. krun. cbn [semfs_dirlock]. by rewrite lock_acquire_free. Qed.

Lemma dir_release_eq tl vs ss dl ds ob nx me :
  dir_release (mkSemfs tl vs ss (held_by self dl) ds ob nx me) = Done ((), mkSemfs tl vs ss (freed dl) ds ob nx me).
Proof. unfold dir_release. krun. cbn [semfs_dirlock]. by rewrite lock_release_held. Qed.

Lemma get_semv_eq v o tl vs ss dl ds ob nx me :
  ob !! v = Some o -> get_semv v (mkSemfs tl vs ss dl ds ob nx me) = Done (o, mkSemfs tl vs ss dl ds ob nx me).
Proof. intros Ho. unfold get_semv. cbn [semfs_objs]. by rewrite Ho. Qed.

Lemma put_semv_eq v o tl vs ss dl ds ob nx me :
  put_semv v o (mkSemfs tl vs ss dl ds ob nx me) = Done ((), mkSemfs tl vs ss dl ds (<[v := o]> ob) nx me).
Proof. done. Qed.

Lemma vnode_incref_eq v o tl vs ss dl ds ob nx me :
  ob !! v = Some o -> vnode_incref v (mkSemfs tl vs ss dl ds ob nx me) =
    Done ((), mkSemfs tl vs ss dl ds (<[v := mkSemv (semv_refcount o + 1) (semv_ops o) (semv_semnum o)]> ob) nx me).
Proof. intros Ho. unfold vnode_incref. krun. by rewrite (get_semv_eq v o). Qed.

Lemma vnode_destroy_eq v o tl vs ss dl ds ob nx me :
  ob !! v = Some o -> semv_refcount o = 1 ->
  semfs_vnode_destroy v (mkSemfs tl vs ss dl ds ob nx me) = Done ((), mkSemfs tl vs ss dl ds (delete v ob) nx me).
Proof.
  intros Ho Hr. unfold semfs_vnode_destroy, kassert. krun. rewrite (get_semv_eq v o) by done. krun. by rewrite Hr.
Qed.

Lemma semfs_kmalloc_eq tl vs ss dl ds ob nx me : exists b me',
  kmalloc (mkSemfs tl vs ss dl ds ob nx me) = Done (b, mkSemfs tl vs ss dl ds ob nx me') /\ (me = [] -> b = true /\ me' = []).
Proof. destruct me as [|b me]; [exists true, []|exists b, me]; (split; [done|]); [done|by intros [=]]. Qed.

Lemma kalloc3_fed me : exists b me', kalloc3 me = (b, me') /\ (me = [] -> b = true /\ me' = []).
Proof. destruct (kalloc3 me) as [b me'] eqn:He. do 2 eexists. split; [done|]. intros ->. by injection He as <- <-. Qed.

Lemma the_sem_eq n x tl vs ss dl ds ob nx me :
  slot ss (Z.to_nat n) = Some x ->
  the_sem n (mkSemfs tl vs ss dl ds ob nx me) = Done (x, mkSemfs tl vs ss dl ds ob nx me).
Proof.
  unfold slot, the_sem. cbn [semfs_sems]. destruct (ss !! Z.to_nat n) as [p|]; [|done]. cbn. by intros ->.
Qed.

(** A round on a semaphore. *)
Lemma on_sem_eq {A} (m : K semfs_sem A) n x r y tl vs ss dl ds ob nx me :
  slot ss (Z.to_nat n) = Some x -> m x = Done (r, y) ->
  on_sem n m (mkSemfs tl vs ss dl ds ob nx me) =
    Done (r, mkSemfs tl vs (<[Z.to_nat n := Some y]> ss) dl ds ob nx me).
Proof. intros Hx Hm. unfold on_sem. krun. erewrite the_sem_eq by done. kred. rewrite Hm. done. Qed.

Lemma on_sem_blocked {A} (m : K semfs_sem A) n x tl vs ss dl ds ob nx me :
  slot ss (Z.to_nat n) = Some x -> m x = Blocked -> on_sem n m (mkSemfs tl vs ss dl ds ob nx me) = Blocked.
Proof. intros Hx Hm. unfold on_sem. krun. erewrite the_sem_eq by done. kred. by rewrite Hm. Qed.

Lemma sem_create_eq tl vs ss dl ds ob nx me : exists o me',
  semfs_sem_create (mkSemfs tl vs ss dl ds ob nx me) = Done (o, mkSemfs tl vs ss dl ds ob nx me') /\
  (o = None \/ o = Some (idle_sem 0 false false)) /\ (me = [] -> o <> None /\ me' = []).
Proof.
  unfold semfs_sem_create. rewrite K_bind_eq. destruct (semfs_kmalloc_eq tl vs ss dl ds ob nx me) as (b & m1 & -> & H1).
  destruct b; [|exists None, m1; split_and!; [done|auto|intros ->; by destruct H1]]. kred.
  rewrite K_bind_eq. unfold on_mem at 1, lock_create. cbn [semfs_mem].
  destruct (kalloc3_fed m1) as (b2 & m2 & -> & H2). kred.
  destruct b2; [|exists None, m2; split_and!; [done|auto|intros ->; destruct H1; [done|]; naive_solver]].
  rewrite K_bind_eq. unfold on_mem, cv_create. cbn [semfs_mem set_mem].
  destruct (kalloc3_fed m2) as (b3 & m3 & -> & H3). kred.
  destruct b3; krun; [exists (Some (idle_sem 0 false false)), m3|exists None, m3]; split_and!; auto; naive_solver.
Qed.

(** [l'] is [l] with [x] at the place [n], which was free. *)
Definition placed {A} (l l' : list (option A)) (n : Z) (x : A) : Prop :=
  0 <= n /\ slot l (Z.to_nat n) = None /\ forall j, slot l' j = if decide (Z.of_nat j = n) then Some x else slot l j.

Lemma placed_set {A} (l : list (option A)) n x :
  0 <= n -> l !! Z.to_nat n = Some None -> placed l (set_slot n (Some x) l) n x.
Proof.
  intros Hn Hl. split; [done|]. split; [unfold slot; by rewrite Hl|]. intros j. unfold set_slot.
  rewrite slot_set by (by eapply lookup_lt_Some). by repeat case_decide; try lia.
Qed.

Lemma placed_snoc {A} (l : list (option A)) x : placed l (l ++ [Some x]) (Z.of_nat (length l)) x.
Proof.
  split; [lia|]. split; [unfold slot; by rewrite lookup_ge_None_2 by lia|]. intros j. rewrite slot_snoc.
  by repeat case_decide; try lia.
Qed.

Lemma sem_insert_eq x tl vs ss dl ds ob nx me :
  Z.of_nat (length ss) <= SEMFS_ROOTDIR ->
  exists r ss' me', semfs_sem_insert x (mkSemfs (held_by self tl) vs ss dl ds ob nx me) =
      Done (r, mkSemfs (held_by self tl) vs ss' dl ds ob nx me') /\ (me = [] -> me' = []) /\
    match r with
    | Ok n => placed ss ss' n x /\ n < SEMFS_ROOTDIR /\ Z.of_nat (length ss') <= SEMFS_ROOTDIR
    | Err e => ss' = ss /\ ((e = ENOSPC /\ Z.of_nat (length ss) = SEMFS_ROOTDIR) \/ (e = ENOMEM /\ me <> []))
    end.
Proof.
  intros Hroom. unfold semfs_sem_insert. krun. cbn [semfs_tablelock semfs_sems].
  unfold kassert, lock_do_i_hold. cbn [held_by lk_owner]. rewrite bool_decide_true by done. krun. cbn [semfs_sems].
  destruct (Z.eqb_spec (Z.of_nat (length ss)) SEMFS_ROOTDIR) as [Hf|Hf]; [exists (Err ENOSPC), ss, me; split_and!; try done; by left|].
  pose proof (first_null_spec ss 0) as Hfn. destruct (first_null ss 0) as [k|].
  - rewrite Z.sub_0_r in Hfn. destruct Hfn as [Hk Hl]. krun. unfold put_sem. kred. cbn [semfs_sems].
    pose proof (lookup_lt_Some _ _ _ Hl). eexists (Ok k), _, me. split; [done|]. split; [done|].
    split; [by apply placed_set|]. unfold set_slot. rewrite length_insert. lia.
  - krun. destruct (semfs_kmalloc_eq (held_by self tl) vs ss dl ds ob nx me) as (b & me' & -> & Hb). destruct b; krun.
    + eexists (Ok _), _, me'. split; [done|]. split; [intros ->; by apply Hb|]. split; [apply placed_snoc|].
      rewrite length_app. cbn [length]. lia.
    + exists (Err ENOMEM), ss, me'. split; [done|]. split; [intros ->; by apply Hb|]. split; [done|]. right. split; [done|].
      intros ->. by destruct Hb.
Qed.

Lemma direntry_create_eq name n tl vs ss dl ds ob nx me :
  is_str name -> exists o me', semfs_direntry_create name n (mkSemfs tl vs ss dl ds ob nx me) =
      Done (o, mkSemfs tl vs ss dl ds ob nx me') /\
    (o = None \/ exists d, o = Some d /\ is_str (semd_name d) /\ cstr (semd_name d) = cstr name /\ semd_semnum d = n) /\
    (me = [] -> o <> None /\ me' = []).
Proof.
  intros Hn. unfold semfs_direntry_create. rewrite K_bind_eq.
  destruct (semfs_kmalloc_eq tl vs ss dl ds ob nx me) as (b & m1 & -> & H1).
  destruct b; [|exists None, m1; split_and!; [done|auto|intros ->; by destruct H1]]. kred. rewrite K_bind_eq.
  destruct (semfs_kmalloc_eq tl vs ss dl ds ob nx m1) as (b2 & m2 & -> & H2). krun. unfold kstrdup.
  rewrite strlen_ok by done. kred. destruct b2; kred.
  - rewrite strcpy_ok by (rewrite ?length_zeros; done || lia). krun. eexists (Some _), m2. split; [done|]. split.
    + right. eexists. split; [done|]. cbn. split_and!; [|by rewrite cstr_app by apply Forall_cstr|done].
      unfold is_str. set_solver.
    + naive_solver.
  - exists None, m2. split; [done|]. split; [auto|]. naive_solver.
Qed.

Lemma getsembynum_eq n x tl vs ss dl ds ob nx me :
  idle tl -> 0 <= n -> slot ss (Z.to_nat n) = Some x ->
  semfs_getsembynum n (mkSemfs tl vs ss dl ds ob nx me) = Done (n, mkSemfs (freed tl) vs ss dl ds ob nx me).
Proof.
  intros Ht Hn Hx%slot_lt. unfold semfs_getsembynum. krun. rewrite table_acquire_eq by done. krun. cbn [semfs_sems].
  unfold kassert. rewrite (proj2 (Z.ltb_lt _ _)) by lia. krun. by rewrite table_release_eq.
Qed.

(** Vnodes keep their keys while they are referred to. *)
Definition kept (ob ob' : gmap Z semfs_vnode) (r' : gmap Z Z) : Prop :=
  forall v n, semv_semnum <$> ob !! v = Some n -> is_Some (r' !! n) -> semv_semnum <$> ob' !! v = Some n.

Lemma kept_refl ob r : kept ob ob r.
Proof. by intros v n. Qed.

Lemma kept_count ob v o k r' : ob !! v = Some o -> kept ob (<[v := mkSemv k (semv_ops o) (semv_semnum o)]> ob) r'.
Proof.
  intros Ho w n Hw _. rewrite lookup_insert. case_decide; [|done]. subst w. by rewrite Ho in Hw.
Qed.

Lemma kept_new ob v o r' : ob !! v = None -> kept ob (<[v := o]> ob) r'.
Proof. intros Ho w n Hw _. rewrite lookup_insert_ne; [done|]. intros ->. by rewrite Ho in Hw. Qed.

Definition set_hasv (b : bool) (x : semfs_sem) : semfs_sem :=
  mkSemfsSem (sems_lock x) (sems_cv x) (sems_count x) b (sems_linked x).
Definition set_link (b : bool) (x : semfs_sem) : semfs_sem :=
  mkSemfsSem (sems_lock x) (sems_cv x) (sems_count x) (sems_hasvnode x) b.

Lemma vnodes_fresh ob vs nx r : vnodes_of ob vs nx r -> ob !! nx = None.
Proof. intros H. destruct (ob !! nx) as [o|] eqn:Ho; [|done]. apply (vn_objs _ _ _ _ H) in Ho. lia. Qed.

Lemma vnodes_later ob vs nx r : vnodes_of ob vs nx r -> vnodes_of ob vs (nx + 1) r.
Proof.
  intros [H1 H2 H3 H4 H5 H6]. split; try done; [|lia]. intros v o Ho. destruct (H1 v o Ho) as (? & ? & ?).
  split; [lia|done].
Qed.

Lemma getvnode_eq n r tl vs ss dl ds ob nx me :
  idle tl -> vnodes_of ob vs nx r -> Z.of_nat (length ss) <= SEMFS_ROOTDIR -> 0 <= n ->
  (n <> SEMFS_ROOTDIR -> exists c b, slot ss (Z.to_nat n) = Some (idle_sem c (bool_decide (is_Some (r !! n))) b)) ->
  exists res vs' ss' ob' nx' me',
    semfs_getvnode n (mkSemfs tl vs ss dl ds ob nx me) = Done (res, mkSemfs (freed tl) vs' ss' dl ds ob' nx' me') /\
    (me = [] -> me' = []) /\ length ss' = length ss /\ kept ob ob' (<[n := 1]> r) /\
    match res with
    | Ok v => vnodes_of ob' vs' nx' (<[n := default 0 (r !! n) + 1]> r) /\ semv_semnum <$> ob' !! v = Some n /\
        forall j, slot ss' j = if decide (Z.of_nat j = n) then set_hasv true <$> slot ss j else slot ss j
    | Err e => e = ENOMEM /\ me <> [] /\ r !! n = None /\ vnodes_of ob' vs' nx' r /\ ss' = ss
    end.
Proof.
  intros Ht H Hroom Hn Hsem. unfold semfs_getvnode. rewrite K_bind_eq, table_acquire_eq by done. run.
  destruct (find_semv_eq H (mkSemfs (held_by self tl) vs ss dl ds ob nx me) n eq_refl) as (f & -> & Hf).
  destruct f as [v|].
  - destruct Hf as (o & Ho & <-). destruct (vn_objs _ _ _ _ H v o Ho) as (_ & Hr & _).
    run. erewrite vnode_incref_eq by done. run. rewrite table_release_eq.
    eexists (Ok v), vs, ss, _, nx, me. split; [done|]. split; [done|]. split; [done|]. split; [by eapply kept_count|].
    rewrite Hr. cbn [default from_option id]. split; [by apply vnodes_count|].
    rewrite lookup_insert_eq. split; [done|]. intros j. case_decide as Hj; [|done].
    destruct (decide (semv_semnum o = SEMFS_ROOTDIR)) as [He|He].
    + destruct (slot ss j) as [x|] eqn:Hx; [|done]. apply slot_lt in Hx. lia.
    + destruct (Hsem He) as (c & b & Hs). replace (Z.to_nat (semv_semnum o)) with j in Hs by lia. rewrite Hs, Hr.
      by rewrite bool_decide_true.
  - pose proof (vnodes_fresh _ _ _ _ H) as Hnx. rewrite K_bind_eq. unfold semfs_vnode_create. rewrite K_bind_eq.
    destruct (semfs_kmalloc_eq (held_by self tl) vs ss dl ds ob nx me) as (b1 & m1 & -> & H1). destruct b1; run.
    2: { rewrite table_release_eq. exists (Err ENOMEM), vs, ss, ob, nx, m1. split; [done|]. split; [naive_solver|].
         split; [done|]. split; [apply kept_refl|]. split; [done|]. split; [intros ->; by destruct H1|]. done. }
    run. fold (ops_for n). set (o := mkSemv 1 (ops_for n) n).
    destruct (semfs_kmalloc_eq (held_by self tl) vs ss dl ds (<[nx:=o]> ob) (nx + 1) m1) as (b2 & m2 & -> & H2). destruct b2; run.
    2: { rewrite (vnode_destroy_eq nx o) by (done || apply lookup_insert_eq). run. rewrite delete_insert_id by done.
         rewrite table_release_eq. exists (Err ENOMEM), vs, ss, ob, (nx + 1), m2. split; [done|]. split; [naive_solver|].
         split; [done|]. split; [apply kept_refl|]. split; [done|]. split; [intros ->; destruct H1; [done|]; naive_solver|].
         split; [done|]. split; [by eapply vnodes_later|done]. }
    rewrite Hf. cbn [default from_option id]. change (0 + 1) with 1.
    destruct (Z.eqb_spec n SEMFS_ROOTDIR) as [He|He]; cbn [negb].
    + run. rewrite table_release_eq. eexists (Ok nx), _, ss, _, (nx + 1), m2. split; [done|]. split; [naive_solver|].
      split; [done|]. split; [by apply kept_new|]. split; [by apply vnodes_new|]. rewrite lookup_insert_eq. split; [done|].
      intros j. case_decide as Hj; [|done]. destruct (slot ss j) as [x|] eqn:Hx; [|done]. apply slot_lt in Hx. lia.
    + destruct (Hsem He) as (c & b & Hs). rewrite Hf in Hs. rewrite bool_decide_false in Hs by apply is_Some_None.
      erewrite on_sem_eq; [|exact Hs|done]. run. rewrite table_release_eq.
      eexists (Ok nx), _, _, _, (nx + 1), m2. split; [done|]. split; [naive_solver|].
      split; [apply length_insert|]. split; [by apply kept_new|]. split; [by apply vnodes_new|].
      rewrite lookup_insert_eq. split; [done|]. intros j. rewrite slot_set by (by eapply slot_lt).
      repeat case_decide; try lia; [|done]. subst j. by rewrite Hs.
Qed.

(** ** What the operations do to the volume *)

Inductive semfs_op :=
  | Creat (v : Z) (name : list Z) (excl : bool) | Remove (v : Z) (name : list Z) | Lookup (v : Z) (path : list Z)
  | Lookparent (v : Z) (path buf : list Z) | Getroot | Incref (v : Z) | Decref (v : Z)
  | Read (v : Z) (u : uio) | Write (v : Z) (u : uio) | Truncate (v len : Z) | Size (v : Z).

#[local] Existing Instance semfs_vops.

Definition as_res (r x : Z) : res Z := if r =? 0 then Ok x else Err r.

(** The call, through the interface; the answer to a read or a write is what is left
    to move. *)
Definition exec (op : semfs_op) (s : semfs) : outcome (res Z * semfs) :=
  match op with
  | Creat v name excl => VOP_CREAT s v name excl
  | Remove v name => '(r, s) ← VOP_REMOVE s v name; mret (as_res r 0, s)
  | Lookup v path => VOP_LOOKUP s v path
  | Lookparent v path buf => '(r, s) ← VOP_LOOKPARENT s v path buf; mret (match r with Ok (d, _) => Ok d | Err e => Err e end, s)
  | Getroot => FSOP_GETROOT s 0
  | Incref v => s ← VOP_INCREF s v; mret (Ok 0, s)
  | Decref v => s ← VOP_DECREF s v; mret (Ok 0, s)
  | Read v u => '(r, u, s) ← VOP_READ s v u; mret (as_res r (uio_resid u), s)
  | Write v u => '(r, u, s) ← VOP_WRITE s v u; mret (as_res r (uio_resid u), s)
  | Truncate v len => '(r, s) ← VOP_TRUNCATE s v len; mret (as_res r 0, s)
  | Size v => r ← VOP_STAT_SIZE s v; mret (r, s)
  end.

(** The semaphore number of a vnode. *)
Definition vnum (s : semfs) (v : Z) : option Z := semv_semnum <$> semfs_objs s !! v.

Definition applies (s : semfs) (op : semfs_op) (n : Z) : Prop :=
  match op with
  | Getroot => n = SEMFS_ROOTDIR
  | Creat v _ _ | Remove v _ | Lookup v _ | Lookparent v _ _ | Incref v | Decref v | Read v _ | Write v _
  | Truncate v _ | Size v => vnum s v = Some n
  end.

Definition well_formed (op : semfs_op) : Prop :=
  match op with
  | Creat _ name _ | Remove _ name | Lookup _ name | Lookparent _ name _ => is_str name
  | Read _ u | Write _ u => 0 <= uio_resid u < 2 ^ 32
  | _ => True
  end.

(** [NoVnode] is success with the null pointer for a vnode. *)
Inductive answer := Failed (e : Z) | Vnode (n : Z) | NoVnode | Value (x : Z).

Definition shown (s : semfs) (r : res Z) (ra : answer) : Prop :=
  match ra with
  | Failed e => r = Err e
  | Vnode n => exists v, r = Ok v /\ vnum s v = Some n
  | NoVnode => r = Ok 0
  | Value x => r = Ok x
  end.

Definition with_ref (n : Z) (a : files) : files :=
  mkFiles (names a) (counts a) (<[n := default 0 (refs a !! n) + 1]> (refs a)).
(** The last reference takes a semaphore without a name with it. *)
Definition without_ref (n : Z) (a : files) : files :=
  match refs a !! n with
  | Some k =>
      if decide (1 < k) then mkFiles (names a) (counts a) (<[n := k - 1]> (refs a))
      else mkFiles (names a) (if decide (named (names a) n) then counts a else delete n (counts a)) (delete n (refs a))
  | None => a
  end.
(** The name takes a semaphore without references with it. *)
Definition without_name (x : list Z) (n : Z) (a : files) : files :=
  mkFiles (delete x (names a)) (if decide (is_Some (refs a !! n)) then counts a else delete n (counts a)) (refs a).
Definition with_file (x : list Z) (n : Z) (a : files) : files :=
  mkFiles (<[x := n]> (names a)) (<[n := 0]> (counts a)) (<[n := 1]> (refs a)).
Definition with_count (n c : Z) (a : files) : files := mkFiles (names a) (<[n := c]> (counts a)) (refs a).

Section Spec.
(** Is there memory?  Is the table of semaphores full? *)
Variables fed full : Prop.

(** A vnode for semaphore [n]; memory is needed only when it has none. *)
Definition got (n : Z) (a : files) (ra : answer) (a' : files) : Prop :=
  (ra = Vnode n /\ a' = with_ref n a) \/ (ra = Failed ENOMEM /\ a' = a /\ refs a !! n = None /\ ~ fed).

Definition fails (e : Z) (a : files) (ra : answer) (a' : files) : Prop := ra = Failed e /\ a' = a.

Definition files_step (op : semfs_op) (n : Z) (a : files) (ra : answer) (a' : files) : Prop :=
  let root := n = SEMFS_ROOTDIR in
  match op with
  | Creat _ name excl =>
      if decide (n <> SEMFS_ROOTDIR) then fails ENOTDIR a ra a' else
      if decide (dots name) then fails EEXIST a ra a' else
      match names a !! cstr name with
      | Some m => if excl then fails EEXIST a ra a' else got m a ra a'
      | None =>
          (exists m, counts a !! m = None /\ 0 <= m < SEMFS_ROOTDIR /\ ra = Vnode m /\ a' = with_file (cstr name) m a) \/
          (a' = a /\ ((~ fed /\ (ra = Failed ENOMEM \/ ra = NoVnode)) \/ (full /\ ra = Failed ENOSPC)))
      end
  | Remove _ name =>
      if decide (n <> SEMFS_ROOTDIR) then fails ENOTDIR a ra a' else
      if decide (dots name) then fails EINVAL a ra a' else
      match names a !! cstr name with
      | Some m => ra = Value 0 /\ a' = without_name (cstr name) m a
      | None => fails ENOENT a ra a'
      end
  | Lookup _ path =>
      if decide (n <> SEMFS_ROOTDIR) then fails ENOTDIR a ra a' else
      if decide (dots path) then ra = Vnode n /\ a' = with_ref n a else
      match names a !! cstr path with
      | Some m => got m a ra a'
      | None => fails ENOENT a ra a'
      end
  | Lookparent _ path buf =>
      if decide (n <> SEMFS_ROOTDIR) then fails ENOTDIR a ra a' else
      if decide (Z.of_nat (length buf) < Z.of_nat (length (cstr path)) + 1) then fails ENAMETOOLONG a ra a'
      else ra = Vnode n /\ a' = with_ref n a
  | Getroot => got n a ra a'
  | Incref _ => ra = Value 0 /\ a' = with_ref n a
  | Decref _ => ra = Value 0 /\ a' = without_ref n a
  | Read _ u =>
      if decide (n = SEMFS_ROOTDIR) then fails EISDIR a ra a' else
      exists c, counts a !! n = Some c /\ uio_resid u <= c /\ ra = Value 0 /\ a' = with_count n (c - uio_resid u) a
  | Write _ u =>
      if decide (n = SEMFS_ROOTDIR) then fails EISDIR a ra a' else
      exists c, counts a !! n = Some c /\
        if decide (c + uio_resid u < 2 ^ 32) then ra = Value 0 /\ a' = with_count n (c + uio_resid u) a
        else fails EFBIG a ra a'
  | Truncate _ len =>
      if decide (n = SEMFS_ROOTDIR) then fails EISDIR a ra a' else
      if decide (len < 0) then fails EINVAL a ra a' else
      if decide (2 ^ 32 <= len) then fails EFBIG a ra a'
      else ra = Value 0 /\ a' = with_count n len a
  | Size _ =>
      a' = a /\ if decide (n = SEMFS_ROOTDIR) then exists k, ra = Value k /\ Z.of_nat (size (names a)) <= k
                else exists c, counts a !! n = Some c /\ ra = Value c
  end.
End Spec.

(** The call on [s] is a step of the volume [a]; vnodes that are still referred to
    are where they were. *)
Definition refined (s : semfs) (op : semfs_op) (n : Z) (a : files) : Prop := exists r s' ra a',
  exec op s = Done (r, s') /\
  files_step (semfs_mem s = []) (Z.of_nat (length (semfs_sems s)) = SEMFS_ROOTDIR) op n a ra a' /\
  shown s' r ra /\ volume s' a' /\ kept (semfs_objs s) (semfs_objs s') (refs a').

(** ** The semaphores of a changed volume *)

Lemma sem_of_with_ref a m k n :
  sem_of (mkFiles (names a) (counts a) (<[m := k]> (refs a))) n =
  if decide (n = m) then set_hasv true <$> sem_of a n else sem_of a n.
Proof.
  unfold sem_of. cbn [names counts refs]. case_decide as Hn; [subst m; rewrite lookup_insert_eq|by rewrite lookup_insert_ne].
  by destruct (counts a !! n).
Qed.

Lemma files_ok_ref a m k :
  files_ok a -> 1 <= k -> m = SEMFS_ROOTDIR \/ is_Some (counts a !! m) ->
  files_ok (mkFiles (names a) (counts a) (<[m := k]> (refs a))).
Proof.
  intros [H1 H2 H3 H4] Hk Hm. split; cbn [names counts refs]; try done.
  - intros n c Hc. destruct (H1 n c Hc) as (? & ? & Hn). split; [done|]. split; [done|].
    rewrite lookup_insert. case_decide; [eauto|done].
  - intros n j. rewrite lookup_insert. case_decide as Hn; [intros [= <-]; subst; auto|apply H4].
Qed.

Lemma root_no_sem s a : tables s a -> counts a !! SEMFS_ROOTDIR = None.
Proof.
  intros H. destruct (counts a !! SEMFS_ROOTDIR) as [c|] eqn:Hc; [|done].
  pose proof (tb_sems _ _ H (Z.to_nat SEMFS_ROOTDIR)) as Hs. rewrite Z2Nat.id in Hs by done. unfold sem_of in Hs.
  rewrite Hc in Hs. apply slot_lt in Hs. pose proof (tb_room _ _ H). lia.
Qed.

Lemma sem_slot s a n c :
  tables s a -> counts a !! n = Some c -> 0 <= n < SEMFS_ROOTDIR /\
  slot (semfs_sems s) (Z.to_nat n) =
    Some (idle_sem c (bool_decide (is_Some (refs a !! n))) (bool_decide (named (names a) n))).
Proof.
  intros H Hc. destruct (fo_counts _ (tb_ok _ _ H) n c Hc) as (Hn & _ & _).
  pose proof (tb_sems _ _ H (Z.to_nat n)) as Hs. rewrite Z2Nat.id in Hs by done. unfold sem_of in Hs. rewrite Hc in Hs.
  split; [|done]. pose proof (slot_lt _ _ _ Hs). pose proof (tb_room _ _ H). lia.
Qed.

Lemma kept_dom ob ob' r1 r2 :
  (forall n, is_Some (r2 !! n) -> is_Some (r1 !! n)) -> kept ob ob' r1 -> kept ob ob' r2.
Proof. intros Hd Hk v n Hv Hn. by apply Hk; [|apply Hd]. Qed.

Lemma kept_trans ob ob1 ob2 r1 r2 : (forall n, is_Some (r2 !! n) -> is_Some (r1 !! n)) ->
  kept ob ob1 r1 -> kept ob1 ob2 r2 -> kept ob ob2 r2.
Proof. intros Hd H1 H2 v n Hv Hn. apply H2; [|done]. by apply H1; [|apply Hd]. Qed.

Lemma directory_ext l l' nm : (forall j, slot l' j = slot l j) -> directory l nm -> directory l' nm.
Proof.
  intros He [H1 H2 H3]. split.
  - intros j d. rewrite He. apply H1.
  - intros x n. rewrite H2. setoid_rewrite He. done.
  - intros i j d e. rewrite !He. apply H3.
Qed.

Lemma tables_same tl vs ss dl dl' ds ob nx me me' a :
  tables (mkSemfs tl vs ss dl ds ob nx me) a -> tables (mkSemfs tl vs ss dl' ds ob nx me') a.
Proof. intros []. by split. Qed.

(** ** Getting a vnode *)

Lemma got_eq m s a :
  tables s a -> m = SEMFS_ROOTDIR \/ is_Some (counts a !! m) ->
  exists r s' ra a', semfs_getvnode m s = Done (r, s') /\ got (semfs_mem s = []) m a ra a' /\ shown s' r ra /\
    tables s' a' /\ kept (semfs_objs s) (semfs_objs s') (refs a') /\ semfs_dirlock s' = semfs_dirlock s.
Proof.
  intros H Hm. assert (Hsem : m <> SEMFS_ROOTDIR -> exists c b,
      slot (semfs_sems s) (Z.to_nat m) = Some (idle_sem c (bool_decide (is_Some (refs a !! m))) b)).
  { intros Hr. destruct Hm as [?|[c Hc]]; [done|]. destruct (sem_slot _ _ _ _ H Hc) as [_ Hs]. by eauto. }
  assert (H0 : 0 <= m). { destruct Hm as [->|[c Hc]]; [done|]. apply (fo_counts _ (tb_ok _ _ H) _ _ Hc). }
  destruct s as [tl vs ss dl ds ob nx me]. pose proof H as [T1 T2 T3 T4 T5 T6].
  destruct (getvnode_eq m (refs a) tl vs ss dl ds ob nx me T1 T5 T2 H0 Hsem)
    as (r & vs' & ss' & ob' & nx' & me' & He & Hme & Hlen & Hk & Hr).
  fields. cbn in T3. destruct r as [v|e].
  - destruct Hr as (Hv & Hn & Hss). exists (Ok v). eexists. exists (Vnode m), (with_ref m a). split; [exact He|].
    split; [by left|]. split; [by exists v|]. split.
    + split; fields; try done; [by rewrite Hlen| |].
      * intros j. unfold with_ref. rewrite Hss, T3, sem_of_with_ref. by repeat case_decide; try lia.
      * apply files_ok_ref; [done| |done]. destruct (refs a !! m) as [k|] eqn:Hk'; cbn; [|lia].
        destruct (fo_refs _ T6 _ _ Hk'). lia.
    + split; [|done]. fields. eapply kept_dom; [|exact Hk]. cbn [refs with_ref]. intros n. rewrite !lookup_insert.
      case_decide; [by eauto|done].
  - destruct Hr as (-> & Hmem & Hnone & Hv & ->). exists (Err ENOMEM). eexists. exists (Failed ENOMEM), a. split; [exact He|].
    split; [by right|]. split; [done|]. split; [by split|]. split; [|done]. fields. eapply kept_dom; [|exact Hk].
    intros n Hn. rewrite lookup_insert. case_decide; [by eauto|done].
Qed.

Lemma vnum_obj s a v n :
  tables s a -> vnum s v = Some n -> exists o, semfs_objs s !! v = Some o /\ semv_semnum o = n /\
    refs a !! n = Some (semv_refcount o) /\ semv_ops o = ops_for n.
Proof.
  unfold vnum. intros H Hv. destruct (semfs_objs s !! v) as [o|] eqn:Ho; [|done]. injection Hv as <-.
  destruct (vn_objs _ _ _ _ (tb_vnodes _ _ H) v o Ho) as (_ & ? & ?). by exists o.
Qed.

Lemma by_ops_eq {A} v n (dir sem : K semfs A) s a :
  tables s a -> vnum s v = Some n -> by_ops v dir sem s = if decide (n = SEMFS_ROOTDIR) then dir s else sem s.
Proof.
  intros H Hv. destruct (vnum_obj _ _ _ _ H Hv) as (o & Ho & _ & _ & Hops). unfold by_ops, get_semv. krun. rewrite Ho. kred.
  rewrite Hops. unfold ops_for. destruct (Z.eqb_spec n SEMFS_ROOTDIR); case_decide; done.
Qed.

Lemma incref_eq v n s a :
  volume s a -> vnum s v = Some n -> exists s', vnode_incref v s = Done ((), s') /\ volume s' (with_ref n a) /\
    vnum s' v = Some n /\ kept (semfs_objs s) (semfs_objs s') (refs (with_ref n a)).
Proof.
  intros [Hd H] Hv. destruct (vnum_obj _ _ _ _ H Hv) as (o & Ho & <- & Hr & _).
  destruct s as [tl vs ss dl ds ob nx me]. pose proof H as [T1 T2 T3 T4 T5 T6]. cbn in Ho, Hd, T3.
  eexists. split; [by apply vnode_incref_eq|]. split; [split; [done|]; split; fields; try done|].
  - intros j. unfold with_ref. rewrite T3, sem_of_with_ref. case_decide as Hj; [|done]. unfold sem_of. rewrite Hj, Hr.
    destruct (counts a !! _); [|done]. done.
  - unfold with_ref. rewrite Hr. by apply vnodes_count.
  - unfold with_ref. destruct (fo_refs _ T6 _ _ Hr) as [Hk Hm]. apply files_ok_ref; [done| |done]. rewrite Hr. cbn. lia.
  - split; [|by eapply kept_count]. unfold vnum. fields. by rewrite lookup_insert_eq.
Qed.

(** ** The directory *)

Lemma scan_eq name s a :
  is_str name -> tables s a -> exists r, dents_scan name (semfs_dents s) 0 = Done r /\
    match r with
    | Some (k, d) => 0 <= k /\ slot (semfs_dents s) (Z.to_nat k) = Some d /\ cstr (semd_name d) = cstr name /\
        names a !! cstr name = Some (semd_semnum d)
    | None => names a !! cstr name = None
    end.
Proof.
  intros Hn H. destruct (tb_dents _ _ H) as [D1 D2 D3]. destruct (dents_scan_spec name (semfs_dents s) 0 Hn D1) as (r & Hr & Hm).
  exists r. split; [done|]. destruct r as [[k d]|].
  - rewrite Z.sub_0_r in Hm. destruct Hm as (Hk & Hd & Hc). split_and!; try done. apply D2. by exists (Z.to_nat k), d.
  - apply eq_None_not_Some. intros [n (j & d & Hj & Hc & _)%D2]. by apply (Hm j d).
Qed.

(** Goes through the tests of [files_step]. *)
Ltac tests := cbn [files_step]; repeat (case_decide; try done; try tauto).

Lemma nothing_done s op n a ra r :
  volume s a -> exec op s = Done (r, s) -> shown s r ra ->
  files_step (semfs_mem s = []) (Z.of_nat (length (semfs_sems s)) = SEMFS_ROOTDIR) op n a ra a -> refined s op n a.
Proof. intros Hv He Hs Hf. exists r, s, ra, a. split; [done|]. split; [done|]. split; [done|]. split; [done|]. apply kept_refl. Qed.

Lemma lookup_eq v path n s a :
  volume s a -> is_str path -> vnum s v = Some n -> refined s (Lookup v path) n a.
Proof.
  intros HV Hp Hv. pose proof HV as [Hd H]. destruct (vnum_obj _ _ _ _ H Hv) as (o & Ho & _ & Hr & _).
  assert (He : exec (Lookup v path) s = if decide (n = SEMFS_ROOTDIR) then semfs_lookup v path s else Done (Err ENOTDIR, s)).
  { cbn. by rewrite (by_ops_eq _ _ _ _ _ _ H Hv). }
  case_decide as Hn; [|by apply (nothing_done _ _ _ _ (Failed ENOTDIR) _ HV He); tests].
  unfold semfs_lookup in He. rewrite K_bind_eq in He. unfold get_semv at 1 in He. rewrite Ho in He. revert He. kred.
  rewrite is_dots_eq by done. krun. case_bool_decide as Hdots.
  - krun. destruct (incref_eq v n s a HV Hv) as (s' & Hs' & HV' & Hv' & Hk). rewrite Hs'. krun. intros He.
    exists (Ok v), s', (Vnode n), (with_ref n a). split; [done|]. split; [by tests|]. split; [by exists v|done].
  - destruct s as [tl vs ss dl ds ob nx me]. krun. rewrite dir_acquire_eq by done. run.
    destruct (scan_eq path _ a Hp H) as (f & Hf & Hm). cbn [semfs_dents] in Hf, Hm. rewrite Hf. kred.
    destruct f as [[k d]|].
    + destruct Hm as (_ & _ & _ & Hnm). krun.
      destruct (got_eq (semd_semnum d) (mkSemfs tl vs ss (held_by self dl) ds ob nx me) a)
        as (r & s' & ra & a' & -> & Hg & Hs & Ht & Hk & Hdl); [by eapply tables_same|right; by apply (fo_names _ (tb_ok _ _ H) _ _ Hnm)|].
      destruct s' as [tl' vs' ss' dl' ds' ob' nx' me']. cbn in Hdl. subst dl'. krun. rewrite dir_release_eq. intros He.
      exists r. eexists. exists ra, a'. split; [exact He|]. split; [tests; by rewrite Hnm|]. split; [exact Hs|]. split; [|exact Hk].
      split; [done|]. by eapply tables_same.
    + krun. rewrite dir_release_eq. intros He. exists (Err ENOENT). eexists. exists (Failed ENOENT), a.
      split; [exact He|]. split; [tests; by rewrite Hm|]. split; [done|]. split; [|apply kept_refl]. split; [done|].
      by eapply tables_same.
Qed.

Lemma named_iff nm n : named nm n <-> exists x, nm !! x = Some n.
Proof. unfold named. by rewrite elem_of_map_img. Qed.

Lemma named_delete nm x m n :
  (forall y z k, nm !! y = Some k -> nm !! z = Some k -> y = z) -> nm !! x = Some m ->
  named (delete x nm) n <-> named nm n /\ n <> m.
Proof.
  intros Hinj Hx. rewrite !named_iff. setoid_rewrite lookup_delete_Some. split.
  - intros (y & Hy & Hn). split; [by exists y|]. intros ->. by apply Hy, (Hinj x y m).
  - intros [[y Hy] Hn]. exists y. split; [|done]. intros ->. congruence.
Qed.

Lemma named_insert nm x m n : nm !! x = None -> named (<[x := m]> nm) n <-> n = m \/ named nm n.
Proof.
  intros Hx. rewrite !named_iff. split.
  - intros (y & [[_ Hy]|[_ Hy]]%lookup_insert_Some); [auto|eauto].
  - intros [->|[y Hy]]; [exists x; apply lookup_insert_eq|]. exists y. rewrite lookup_insert_ne; [done|]. congruence.
Qed.

Lemma directory_remove l nm k d :
  directory l nm -> slot l k = Some d -> directory (<[k := None]> l) (delete (cstr (semd_name d)) nm).
Proof.
  intros [H1 H2 H3] Hd. pose proof (slot_lt _ _ _ Hd) as Hlt. split.
  - intros j e. rewrite slot_set by done. case_decide; [done|apply H1].
  - intros x n. rewrite lookup_delete_Some, H2. split.
    + intros (Hx & j & e & Hj & Hc & Hn). exists j, e. rewrite slot_set by done. case_decide; [|done]. congruence.
    + intros (j & e & Hj & Hc & Hn). rewrite slot_set in Hj by done. case_decide as Hjk; [done|]. split; [|by eauto].
      intros Hx. apply Hjk, (H3 j k e d); [done|done|congruence].
  - intros i j e f. rewrite !slot_set by done. repeat case_decide; try done. apply H3.
Qed.

Lemma directory_add l l' nm k d :
  directory l nm -> placed l l' k d -> is_str (semd_name d) -> nm !! cstr (semd_name d) = None ->
  directory l' (<[cstr (semd_name d) := semd_semnum d]> nm).
Proof.
  intros [H1 H2 H3] (Hk & Hfree & Hl) Hs Hnone.
  assert (Hother : forall j e, slot l j = Some e -> cstr (semd_name e) <> cstr (semd_name d)).
  { intros j e He Hc. assert (nm !! cstr (semd_name e) = Some (semd_semnum e)) by (apply H2; eauto). congruence. }
  split.
  - intros j e. rewrite Hl. case_decide; [by intros [= <-]|apply H1].
  - intros x n. rewrite lookup_insert. split.
    + case_decide as Hx; [intros [= <-]|rewrite H2]; [exists (Z.to_nat k), d; rewrite Hl, decide_True by lia; done|].
      intros (j & e & Hj & Hc & Hn). exists j, e. rewrite Hl, decide_False; [done|]. intros <-. rewrite Nat2Z.id in Hfree. congruence.
    + intros (j & e & Hj & Hc & Hn). rewrite Hl in Hj. case_decide as Hjk; [injection Hj as <-; by rewrite decide_True, Hn|].
      rewrite decide_False by (subst x; intros Hx; by apply (Hother j e)). apply H2. eauto.
  - intros i j e f. rewrite !Hl. repeat case_decide; try lia.
    + intros [= <-] Hf Hc. by destruct (Hother _ _ Hf).
    + intros He [= <-] Hc. by destruct (Hother _ _ He).
    + apply H3.
Qed.

Lemma files_ok_remove x m a : files_ok a -> names a !! x = Some m -> files_ok (without_name x m a).
Proof.
  intros [H1 H2 H3 H4] Hx. pose proof (fun n => named_delete _ x m n H3 Hx) as Hnamed.
  unfold without_name. split; cbn [names counts refs].
  - intros n c Hc. assert (Hc' : counts a !! n = Some c /\ (n = m -> is_Some (refs a !! m))).
    { case_decide; [auto|]. apply lookup_delete_Some in Hc as [Hnm Hc]. split; [done|]. intros ->. done. }
    destruct Hc' as [Hc' Hm]. destruct (H1 n c Hc') as (? & ? & [Hn|Hn]); (split; [done|split; [done|]]); [|auto].
    rewrite Hnamed. destruct (decide (n = m)) as [->|]; auto.
  - intros y n [Hy Hn]%lookup_delete_Some. destruct (H2 y n Hn) as [c Hc]. case_decide; [eauto|].
    rewrite lookup_delete_ne; [eauto|]. intros ->. by apply Hy, (H3 x y n).
  - intros y z n [_ Hy]%lookup_delete_Some [_ Hz]%lookup_delete_Some. by apply (H3 y z n).
  - intros n k Hk. destruct (H4 n k Hk) as [? [?|[c Hc]]]; (split; [done|]); [auto|right]. case_decide as Hm; [eauto|].
    rewrite lookup_delete_ne; [eauto|]. intros ->. by apply Hm; eauto.
Qed.

Lemma sem_of_remove x m a n :
  files_ok a -> names a !! x = Some m ->
  sem_of (without_name x m a) n =
    if decide (n = m) then (if decide (is_Some (refs a !! m)) then set_link false <$> sem_of a m else None) else sem_of a n.
Proof.
  intros H Hx. pose proof (named_delete _ x m n (fo_inj _ H) Hx) as Hnamed. unfold sem_of, without_name.
  cbn [names counts refs]. destruct (decide (n = m)) as [->|Hn].
  - case_decide as Hr; [|by rewrite lookup_delete_eq]. destruct (counts a !! m); [|done]. cbn. unfold set_link. cbn.
    rewrite (bool_decide_false (named _ _)); [done|]. rewrite Hnamed. tauto.
  - assert (Hc : (if decide (is_Some (refs a !! m)) then counts a else delete m (counts a)) !! n = counts a !! n)
      by (case_decide; [done|by rewrite lookup_delete_ne]).
    rewrite Hc. destruct (counts a !! n); [|done]. cbn. do 2 f_equal. apply bool_decide_ext. rewrite Hnamed. tauto.
Qed.

(** A semaphore whose lock the thread has. *)
Definition held_sem (wc : list Z) (c : Z) (hasvnode linked : bool) : semfs_sem :=
  mkSemfsSem (held_by self new_lock) (mkCv None wc) c hasvnode linked.

Lemma sem_acquire_eq wc c h l : sem_acquire (quiet_sem wc c h l) = Done ((), held_sem wc c h l).
Proof. done. Qed.

Lemma sem_release_eq wc c h l : sem_release (held_sem wc c h l) = Done ((), quiet_sem wc c h l).
Proof. unfold sem_release. krun. cbn [held_sem sems_lock]. by rewrite lock_release_held. Qed.

Lemma unlink_eq c h :
  (sem_acquire;; b ← gets sems_linked; kassert b;; set_linked false) (idle_sem c h true) = Done ((), held_sem [] c h false).
Proof. done. Qed.

Lemma sem_destroy_eq c h l : semfs_sem_destroy (idle_sem c h l) = Done ().
Proof. done. Qed.

Lemma semfs_remove_eq v name n s a :
  volume s a -> is_str name -> vnum s v = Some n -> refined s (Remove v name) n a.
Proof.
  intros HV Hp Hv. pose proof HV as [Hd H]. destruct (vnum_obj _ _ _ _ H Hv) as (o & Ho & _ & Hr & _).
  assert (He : exec (Remove v name) s =
    if decide (n = SEMFS_ROOTDIR) then '(r, s) ← semfs_remove v name s; mret (as_res r 0, s) else Done (Err ENOTDIR, s)).
  { cbn. rewrite (by_ops_eq _ _ _ _ _ _ H Hv). by case_decide. }
  case_decide as Hn; [|by apply (nothing_done _ _ _ _ (Failed ENOTDIR) _ HV He); tests].
  unfold semfs_remove in He. rewrite K_bind_eq in He. unfold get_semv at 1 in He. rewrite Ho in He. revert He. kred.
  rewrite is_dots_eq by done. krun. case_bool_decide as Hdots.
  { krun. intros He. by apply (nothing_done _ _ _ _ (Failed EINVAL) _ HV He); tests. }
  destruct s as [tl vs ss dl ds ob nx me]. krun. rewrite dir_acquire_eq by done. run.
  destruct (scan_eq name _ a Hp H) as (f & Hf & Hm). cbn [semfs_dents] in Hf, Hm. rewrite Hf. kred.
  destruct f as [[k d]|].
  2: { krun. rewrite dir_release_eq. intros He. exists (Err ENOENT). eexists. exists (Failed ENOENT), a.
       split; [exact He|]. split; [tests; by rewrite Hm|]. split; [done|]. split; [|apply kept_refl]. split; [done|].
       by eapply tables_same. }
  destruct Hm as (Hk & Hdk & Hx & Hnm). set (m := semd_semnum d) in *.
  destruct (fo_names _ (tb_ok _ _ H) _ _ Hnm) as [c Hc]. destruct (sem_slot _ _ _ _ H Hc) as [Hm0 Hs].
  rewrite (bool_decide_true (named _ _)) in Hs by (apply named_iff; eauto). cbn [semfs_sems] in Hs.
  pose proof H as [T1 T2 T3 T4 T5 T6]. cbn in T2, T3, T4.
  krun. erewrite getsembynum_eq; [|done|lia|exact Hs]. krun.
  erewrite (on_sem_eq _ m _ () (held_sem [] c _ false)); [|exact Hs|apply unlink_eq]. krun.
  pose proof (slot_lt _ _ _ Hs) as Hlt.
  erewrite the_sem_eq by (rewrite slot_set by done; by rewrite decide_True). run. cbn [held_sem sems_hasvnode].
  assert (Hend : forall ss', length ss' = length ss -> (forall j, slot ss' j = if decide (Z.of_nat j = m) then
      (if decide (is_Some (refs a !! m)) then Some (idle_sem c true false) else None) else slot ss j) ->
    forall tl', idle tl' -> volume (mkSemfs tl' vs ss' (freed dl) (set_slot k None ds) ob nx me) (without_name (cstr name) m a)).
  { intros ss' Hlen Hss tl' Htl. split; [done|]. split; fields; try done; [by rewrite Hlen| | |].
    - intros j. rewrite Hss, sem_of_remove by done.
      destruct (decide (Z.of_nat j = m)); [|apply T3]. destruct (decide (is_Some _)) as [Hr'|]; [|done].
      unfold sem_of. rewrite Hc. cbn. by rewrite bool_decide_true.
    - cbn. rewrite <- Hx. by apply directory_remove.
    - by apply files_ok_remove. }
  destruct (decide (is_Some (refs a !! m))) as [Href|Href].
  - rewrite bool_decide_true by done. krun.
    erewrite (on_sem_eq _ m _ () (idle_sem c true false)); [|rewrite slot_set by done; by rewrite decide_True|apply sem_release_eq].
    run. rewrite dir_release_eq. krun. intros He. eexists _, _, (Value 0), _. split; [exact He|].
    split; [tests; by rewrite Hnm|]. split; [done|]. split; [|apply kept_refl]. apply Hend; [by rewrite !length_insert| |done].
    intros j. rewrite !slot_set by (by rewrite ?length_insert). by repeat case_decide; try lia.
  - rewrite bool_decide_false by done. krun. rewrite table_acquire_eq by done. krun. unfold put_sem at 1. run.
    rewrite table_release_eq. krun. rewrite sem_release_eq. krun. rewrite sem_destroy_eq. run.
    rewrite dir_release_eq. krun. intros He. eexists _, _, (Value 0), _. split; [exact He|].
    split; [tests; by rewrite Hnm|]. split; [done|]. split; [|apply kept_refl]. apply Hend; [unfold set_slot; by rewrite !length_insert| |done].
    intros j. unfold set_slot. rewrite !slot_set by (by rewrite ?length_insert). by repeat case_decide; try lia.
Qed.

(** ** Creating a semaphore *)

Lemma put_dent_eq empty d tl vs ss dl ds ob nx me :
  (empty = Z.of_nat (length ds) \/ (0 <= empty < Z.of_nat (length ds) /\ ds !! Z.to_nat empty = Some None)) ->
  exists b ds' me', put_dent ds empty d (mkSemfs tl vs ss dl ds ob nx me) = Done (b, mkSemfs tl vs ss dl ds' ob nx me') /\
    (me = [] -> b = true /\ me' = []) /\ if b : bool then placed ds ds' empty d else ds' = ds.
Proof.
  intros He. unfold put_dent. destruct (Z.ltb_spec empty (Z.of_nat (length ds))) as [Hlt|Hge].
  - destruct He as [He|[He Hn]]; [lia|]. krun. eexists true, _, me. split; [done|]. split; [done|]. apply placed_set; [lia|done].
  - destruct He as [->|[He _]]; [|lia]. krun. destruct (semfs_kmalloc_eq tl vs ss dl ds ob nx me) as (b & me' & -> & Hb).
    destruct b; run; [exists true, (ds ++ [Some d]), me'|exists false, ds, me']; (split; [done|]); (split; [done|]); [|done].
    apply placed_snoc.
Qed.

Lemma fail_uninsert_eq c h l m result tl vs ss dl ds ob nx me :
  idle tl -> slot ss (Z.to_nat m) = Some (idle_sem c h l) ->
  fail_uninsert m result (mkSemfs tl vs ss (held_by self dl) ds ob nx me) =
    Done (result, mkSemfs (freed tl) vs (<[Z.to_nat m := None]> ss) (freed dl) ds ob nx me).
Proof.
  intros Ht Hs. unfold fail_uninsert, fail_uncreate, fail_unlock. krun. rewrite table_acquire_eq by done. krun.
  erewrite the_sem_eq by done. krun. unfold put_sem. run. rewrite table_release_eq. krun. rewrite sem_destroy_eq. krun.
  by rewrite dir_release_eq.
Qed.

(** A semaphore that was placed and taken away again leaves the table as it was. *)
Lemma placed_undone {A} (l l' : list (option A)) n x :
  placed l l' n x -> (forall j, slot (<[Z.to_nat n := None]> l') j = slot l j).
Proof.
  intros (Hn & Hfree & Hl) j. assert (Hlt : (Z.to_nat n < length l')%nat).
  { apply (slot_lt l' _ x). rewrite Hl, decide_True by lia. done. }
  rewrite slot_set by done. case_decide as Hj; [by subst|]. by rewrite Hl, decide_False by lia.
Qed.

Lemma fresh_sem s a m :
  tables s a -> 0 <= m -> slot (semfs_sems s) (Z.to_nat m) = None ->
  counts a !! m = None /\ (m < SEMFS_ROOTDIR -> refs a !! m = None) /\ ~ named (names a) m.
Proof.
  intros H Hm Hs. rewrite (tb_sems _ _ H), Z2Nat.id in Hs by done. unfold sem_of in Hs.
  destruct (counts a !! m) as [c|] eqn:Hc; [done|]. split; [done|]. split.
  - intros Hr. destruct (refs a !! m) as [k|] eqn:Hk; [|done].
    destruct (fo_refs _ (tb_ok _ _ H) _ _ Hk) as [_ [?|[c ?]]]; [lia|congruence].
  - rewrite named_iff. intros [x Hx]. destruct (fo_names _ (tb_ok _ _ H) _ _ Hx). congruence.
Qed.

Lemma files_ok_create x m a :
  files_ok a -> names a !! x = None -> counts a !! m = None -> 0 <= m -> files_ok (with_file x m a).
Proof.
  intros [H1 H2 H3 H4] Hx Hm Hm0. unfold with_file. split; cbn [names counts refs].
  - intros n c. rewrite lookup_insert. case_decide as Hn; [intros [= <-]; subst n|intros Hc].
    + split; [done|]. split; [lia|]. right. rewrite lookup_insert_eq. eauto.
    + destruct (H1 n c Hc) as (? & ? & Hr). split; [done|]. split; [done|]. rewrite named_insert by done.
      rewrite lookup_insert_ne by done. tauto.
  - intros y n [[_ <-]|[_ Hy]]%lookup_insert_Some; [rewrite lookup_insert_eq; eauto|]. rewrite lookup_insert.
    case_decide; eauto.
  - intros y z n [[<- <-]|[Hy Hn]]%lookup_insert_Some [[<- Hz]|[Hz Hk]]%lookup_insert_Some; try done.
    + destruct (H2 _ _ Hk). congruence.
    + subst n. destruct (H2 _ _ Hn). congruence.
    + by apply (H3 y z n).
  - intros n k. rewrite !lookup_insert. case_decide; [intros [= <-]; split; [lia|eauto]|apply H4].
Qed.

Lemma tables_create tl' vs' ss' dl' ds' ob' nx' me' s a d m k :
  tables s a -> idle tl' -> Z.of_nat (length ss') <= SEMFS_ROOTDIR ->
  0 <= m < SEMFS_ROOTDIR -> slot (semfs_sems s) (Z.to_nat m) = None ->
  (forall j, slot ss' j = if decide (Z.of_nat j = m) then Some (idle_sem 0 true true) else slot (semfs_sems s) j) ->
  placed (semfs_dents s) ds' k d -> is_str (semd_name d) -> names a !! cstr (semd_name d) = None -> semd_semnum d = m ->
  vnodes_of ob' vs' nx' (<[m := 1]> (refs a)) ->
  tables (mkSemfs tl' vs' ss' dl' ds' ob' nx' me') (with_file (cstr (semd_name d)) m a).
Proof.
  intros H Ht Hl Hm Hs Hss Hds Hstr Hx Hd Hv. destruct (fresh_sem _ _ m H (proj1 Hm) Hs) as (Hc & Hr & Hn).
  split; fields; try done.
  - intros j. rewrite Hss. unfold sem_of, with_file. cbn [names counts refs]. case_decide as Hj.
    + rewrite Hj, !lookup_insert_eq. cbn. by rewrite bool_decide_true by (apply named_insert; auto).
    + rewrite !lookup_insert_ne by done. rewrite (tb_sems _ _ H). unfold sem_of. destruct (counts a !! Z.of_nat j); [|done].
      cbn. do 2 f_equal. apply bool_decide_ext. rewrite named_insert by done. naive_solver.
  - cbn. rewrite <- Hd. by eapply directory_add; [apply (tb_dents _ _ H)| | |].
  - apply files_ok_create; [apply H|done|done|lia].
Qed.

(** What is left after [create_it] gave up. *)
Lemma create_undone s a tl' vs' ss' dl' ds' ob' nx' me' :
  tables s a -> idle tl' -> idle dl' -> Z.of_nat (length ss') <= SEMFS_ROOTDIR ->
  (forall j, slot ss' j = slot (semfs_sems s) j) -> (forall j, slot ds' j = slot (semfs_dents s) j) ->
  vnodes_of ob' vs' nx' (refs a) -> volume (mkSemfs tl' vs' ss' dl' ds' ob' nx' me') a.
Proof.
  intros H Ht Hd Hl Hss Hds Hv. split; [done|]. split; fields; try done; [| |apply H].
  - intros j. rewrite Hss. apply H.
  - eapply directory_ext; [exact Hds|apply H].
Qed.

Definition created (s : semfs) (name : list Z) (a : files) (out : outcome (res Z * semfs)) : Prop := exists r s' ra a',
  out = Done (r, s') /\ shown s' r ra /\ volume s' a' /\ kept (semfs_objs s) (semfs_objs s') (refs a') /\
  ((exists m, counts a !! m = None /\ 0 <= m < SEMFS_ROOTDIR /\ ra = Vnode m /\ a' = with_file (cstr name) m a) \/
   (a' = a /\ ((semfs_mem s <> [] /\ (ra = Failed ENOMEM \/ ra = NoVnode)) \/
               (Z.of_nat (length (semfs_sems s)) = SEMFS_ROOTDIR /\ ra = Failed ENOSPC)))).

Lemma created_not s name a r s' ra :
  shown s' r ra -> volume s' a -> kept (semfs_objs s) (semfs_objs s') (refs a) ->
  (semfs_mem s <> [] /\ (ra = Failed ENOMEM \/ ra = NoVnode)) \/
    (Z.of_nat (length (semfs_sems s)) = SEMFS_ROOTDIR /\ ra = Failed ENOSPC) ->
  created s name a (Done (r, s')).
Proof. intros Hs Hv Hk Hw. exists r, s', ra, a. split_and!; auto; apply Hv. Qed.

Section Create.
Context {tl : lock} {vs : list Z} {ss : list (option semfs_sem)} {dl : lock} {ds : list (option semfs_direntry)}.
Context {ob : gmap Z semfs_vnode} {nx : Z} {me : list bool} {a : files} {name : list Z} {empty : Z}.
Let s := mkSemfs tl vs ss dl ds ob nx me.
Hypothesis HV : volume s a.
Hypothesis Hname : is_str name.
Hypothesis Hx : names a !! cstr name = None.

Let undo tl' vs' ss' dl' ds' ob' nx' me' := create_undone s a tl' vs' ss' dl' ds' ob' nx' me' (proj2 HV).

(** From the entry on: the vnode, and the link. *)
Lemma create_last ss1 ds' b m d me' :
  placed ss ss1 m (idle_sem 0 false false) -> m < SEMFS_ROOTDIR -> Z.of_nat (length ss1) <= SEMFS_ROOTDIR ->
  is_str (semd_name d) -> cstr (semd_name d) = cstr name -> semd_semnum d = m ->
  (if b : bool then placed ds ds' empty d else ds' = ds) -> (me = [] -> b = true /\ me' = []) ->
  created s name a ((if negb b then fail_uninsert m (Err ENOMEM) else
      r ← semfs_getvnode m;
      match r with
      | Ok v => on_sem m (set_linked true);; dir_release;; mret (Ok v)
      | Err e => fail_undir empty m (Err e)
      end) (mkSemfs (freed tl) vs ss1 (held_by self dl) ds' ob nx me')).
Proof.
  intros Hpl Hroot Hlen Hds Hdc Hdm Hput Hmem. pose proof Hpl as (Hm0 & Hfree & Hss1). pose proof HV as [Hd H].
  destruct (fresh_sem _ _ m H Hm0 Hfree) as (Hc & Hr & _). specialize (Hr Hroot).
  assert (Hs1 : slot ss1 (Z.to_nat m) = Some (idle_sem 0 false false)) by (rewrite Hss1, decide_True by lia; done).
  pose proof (placed_undone _ _ _ _ Hpl) as Hback. destruct b; cbn [negb].
  2: { erewrite fail_uninsert_eq by done. subst ds'. apply (created_not _ _ _ _ _ (Failed ENOMEM)); [done| |apply kept_refl|].
       - apply undo; try done; [by rewrite length_insert|apply (tb_vnodes _ _ H)].
       - left. split; [|by left]. cbn. intros ->. by destruct Hmem. }
  rewrite K_bind_eq.
  destruct (getvnode_eq m (refs a) (freed tl) vs ss1 (held_by self dl) ds' ob nx me')
    as (r & vs2 & ss2 & ob2 & nx2 & m2 & -> & _ & Hlen2 & Hk & Hres); [done|apply (tb_vnodes _ _ H)|done|done| |].
  { intros _. exists 0, false. rewrite Hs1, Hr. by rewrite bool_decide_false by apply is_Some_None. }
  destruct r as [v|e].
  - destruct Hres as (Hv & Hvn & Hss2). rewrite Hr in Hv.
    assert (Hs2 : slot ss2 (Z.to_nat m) = Some (idle_sem 0 true false)) by (rewrite Hss2, decide_True, Hs1 by lia; done).
    pose proof (slot_lt _ _ _ Hs2) as Hlt. krun.
    erewrite (on_sem_eq _ m _ () (idle_sem 0 true true)); [|exact Hs2|done]. krun. rewrite dir_release_eq. krun.
    eexists (Ok v), _, (Vnode m), _. split; [done|]. split; [by exists v|]. split; [|split; [|left; by exists m]].
    + split; [done|]. rewrite <- Hdc. apply (tables_create _ _ _ _ _ _ _ _ s a d m empty); try done; [| |congruence].
      * rewrite length_insert. lia.
      * intros j. rewrite slot_set by done. destruct (decide (Z.of_nat j = m)); [by rewrite decide_True by lia|].
        rewrite decide_False, Hss2, decide_False, Hss1, decide_False by lia. done.
    + exact Hk.
  - destruct Hres as (-> & Hmem' & _ & Hv & ->). unfold fail_undir. run.
    erewrite fail_uninsert_eq by done. apply (created_not _ _ _ _ _ (Failed ENOMEM)); [done| | |].
    + apply undo; try done; [by rewrite length_insert|]. by apply (placed_undone ds ds' empty d).
    + eapply kept_dom; [|exact Hk]. intros n Hn. rewrite lookup_insert. case_decide; [by eauto|done].
    + left. split; [|by left]. cbn. intros ->. apply Hmem'. by apply Hmem.
Qed.

Lemma create_it_eq :
  (empty = Z.of_nat (length ds) \/ (0 <= empty < Z.of_nat (length ds) /\ ds !! Z.to_nat empty = Some None)) ->
  created s name a (create_it ds empty name (mkSemfs tl vs ss (held_by self dl) ds ob nx me)).
Proof.
  intros He. pose proof HV as [Hd H]. pose proof H as [T1 T2 T3 T4 T5 T6]. cbn in T1, T2, T5.
  unfold create_it. rewrite K_bind_eq.
  destruct (sem_create_eq tl vs ss (held_by self dl) ds ob nx me) as (o & m1 & -> & Ho & Hm1).
  destruct Ho as [-> | ->].
  { unfold fail_unlock. krun. rewrite dir_release_eq. apply (created_not _ _ _ _ _ (Failed ENOMEM)); [done|by apply undo|apply kept_refl|].
    left. split; [|by left]. cbn. intros ->. by destruct Hm1. }
  run. rewrite table_acquire_eq by done. krun.
  destruct (sem_insert_eq (idle_sem 0 false false) tl vs ss (held_by self dl) ds ob nx m1 T2)
    as (r & ss1 & m2 & -> & Hm2 & Hins). krun. rewrite table_release_eq. krun.
  destruct r as [m|e].
  2: { destruct Hins as [-> Hin]. unfold fail_uncreate, fail_unlock. krun. rewrite sem_destroy_eq. krun. rewrite dir_release_eq.
       apply (created_not _ _ _ _ _ (Failed e)); [done|by apply undo|apply kept_refl|].
       destruct Hin as [[-> Hf]|[-> Hm]]; [right; done|left]. split; [|by left]. cbn. intros ->. by apply Hm, Hm1. }
  destruct Hins as (Hpl & Hroot & Hlen). krun.
  destruct (direntry_create_eq name m (freed tl) vs ss1 (held_by self dl) ds ob nx m2 Hname) as (o & m3 & -> & Ho & Hm3).
  destruct Ho as [->|(d & -> & Hds & Hdc & Hdm)].
  { run. erewrite fail_uninsert_eq; [|done|destruct Hpl as (? & _ & Hss1); by rewrite Hss1, decide_True by lia].
    apply (created_not _ _ _ _ _ NoVnode); [done| |apply kept_refl|].
    - apply undo; try done; [by rewrite length_insert|by eapply placed_undone].
    - left. split; [|by right]. cbn. intros ->. naive_solver. }
  run. destruct (put_dent_eq empty d (freed tl) vs ss1 (held_by self dl) ds ob nx m3 He) as (b & ds' & m4 & -> & Hm4 & Hput).
  apply (create_last ss1 ds' b m d m4); try done. naive_solver.
Qed.
End Create.

Lemma creat_eq v name excl n s a :
  volume s a -> is_str name -> vnum s v = Some n -> refined s (Creat v name excl) n a.
Proof.
  intros HV Hp Hv. pose proof HV as [Hd H]. destruct (vnum_obj _ _ _ _ H Hv) as (o & Ho & _ & Hr & _).
  assert (He : exec (Creat v name excl) s = if decide (n = SEMFS_ROOTDIR) then semfs_creat v name excl s else Done (Err ENOTDIR, s)).
  { cbn. by rewrite (by_ops_eq _ _ _ _ _ _ H Hv). }
  case_decide as Hn; [|by apply (nothing_done _ _ _ _ (Failed ENOTDIR) _ HV He); tests].
  unfold semfs_creat in He. rewrite K_bind_eq in He. unfold get_semv at 1 in He. rewrite Ho in He. revert He. kred.
  rewrite is_dots_eq by done. krun. case_bool_decide as Hdots.
  { krun. intros He. by apply (nothing_done _ _ _ _ (Failed EEXIST) _ HV He); tests. }
  destruct s as [tl vs ss dl ds ob nx me]. krun. rewrite dir_acquire_eq by done. run.
  destruct (tb_dents _ _ H) as [D1 D2 D3]. cbn [semfs_dents] in D1, D2, D3.
  destruct (creat_scan_spec name ds 0 (Z.of_nat (length ds)) (Z.of_nat (length ds)) Hp D1) as (f & Hf & Hm); [lia|].
  rewrite Hf. kred. destruct f as [d|empty].
  - destruct Hm as (j & Hj & Hc). assert (Hnm : names a !! cstr name = Some (semd_semnum d)) by (apply D2; eauto).
    destruct excl.
    + krun. rewrite dir_release_eq. intros He. exists (Err EEXIST). eexists. exists (Failed EEXIST), a.
      split; [exact He|]. split; [tests; by rewrite Hnm|]. split; [done|]. split; [|apply kept_refl]. split; [done|].
      by eapply tables_same.
    + krun. destruct (got_eq (semd_semnum d) (mkSemfs tl vs ss (held_by self dl) ds ob nx me) a)
        as (r & s' & ra & a' & -> & Hg & Hs & Ht & Hk & Hdl); [by eapply tables_same|right; by apply (fo_names _ (tb_ok _ _ H) _ _ Hnm)|].
      destruct s' as [tl' vs' ss' dl' ds' ob' nx' me']. cbn in Hdl. subst dl'. krun. rewrite dir_release_eq. intros He.
      exists r. eexists. exists ra, a'. split; [exact He|]. split; [tests; by rewrite Hnm|]. split; [exact Hs|]. split; [|exact Hk].
      split; [done|]. by eapply tables_same.
  - destruct Hm as [Hnone He]. unfold free_place in He. rewrite Z.eqb_refl, Z.sub_0_r in He.
    assert (Hx : names a !! cstr name = None).
    { apply eq_None_not_Some. intros [m (j & d & Hj & Hc & _)%D2]. by apply (Hnone j d). }
    destruct (create_it_eq (empty := empty) HV Hp Hx He) as (r & s' & ra & a' & -> & Hs & HV' & Hk & Hcase). intros Hex.
    exists r, s', ra, a'. split; [exact Hex|]. split; [tests; rewrite Hx|by split].
    destruct Hcase as [(m & ? & ? & ? & ?)|[-> [[Hm Hra]|[Hf' Hra]]]]; [left; by exists m|right|right]; (split; [done|]); auto.
Qed.

Lemma getroot_eq s a : volume s a -> refined s Getroot SEMFS_ROOTDIR a.
Proof.
  intros [Hd H]. destruct (got_eq SEMFS_ROOTDIR s a H) as (r & s' & ra & a' & He & Hg & Hs & Ht & Hk & Hdl); [by left|].
  exists r, s', ra, a'. split; [exact He|]. split; [exact Hg|]. split; [done|]. split; [|done]. split; [by rewrite Hdl|done].
Qed.

Lemma incref_refined v n s a : volume s a -> vnum s v = Some n -> refined s (Incref v) n a.
Proof.
  intros HV Hv. destruct (incref_eq v n s a HV Hv) as (s' & He & HV' & _ & Hk). exists (Ok 0), s', (Value 0), (with_ref n a).
  split; [cbn; by rewrite He|]. done.
Qed.

Lemma lookparent_eq v path buf n s a :
  volume s a -> is_str path -> vnum s v = Some n -> refined s (Lookparent v path buf) n a.
Proof.
  intros HV Hp Hv. pose proof HV as [Hd H].
  assert (He : exec (Lookparent v path buf) s = if decide (n = SEMFS_ROOTDIR) then
      '(r, s) ← semfs_lookparent v path buf s; mret (match r with Ok (d, _) => Ok d | Err e => Err e end, s) else Done (Err ENOTDIR, s)).
  { cbn. rewrite (by_ops_eq _ _ _ _ _ _ H Hv). by case_decide. }
  case_decide as Hn; [|by apply (nothing_done _ _ _ _ (Failed ENOTDIR) _ HV He); tests].
  revert He. unfold semfs_lookparent. krun. rewrite strlen_ok by done. kred.
  destruct (Z.gtb_spec (Z.of_nat (length (cstr path)) + 1) (Z.of_nat (length buf))) as [Hl|Hl].
  - krun. intros He. apply (nothing_done _ _ _ _ (Failed ENAMETOOLONG) _ HV He); [done|]. tests; lia.
  - krun. rewrite strcpy_ok by (done || lia). krun.
    destruct (incref_eq v n s a HV Hv) as (s' & -> & HV' & Hv' & Hk). krun. intros He.
    exists (Ok v), s', (Vnode n), (with_ref n a). split; [done|]. split; [tests; lia|]. split; [by exists v|done].
Qed.

(** ** Giving references back *)

Lemma files_ok_drop n a : files_ok a -> is_Some (refs a !! n) -> files_ok (without_ref n a).
Proof.
  intros H [k Hk]. unfold without_ref. rewrite Hk. destruct (fo_refs _ H n k Hk) as [Hk1 Hn]. case_decide as H1.
  { apply files_ok_ref; [done|lia|done]. }
  destruct H as [H1' H2 H3 H4]. split; cbn [names counts refs].
  - intros m c Hc. assert (Hc' : counts a !! m = Some c /\ (m = n -> named (names a) m)).
    { case_decide; [by split; [|intros ->]|]. apply lookup_delete_Some in Hc as [Hmn Hc]. split; [done|]. by intros ->. }
    destruct Hc' as [Hc' Hm]. destruct (H1' m c Hc') as (? & ? & Hor). split; [done|]. split; [done|].
    destruct (decide (m = n)) as [->|]; [auto|]. by rewrite lookup_delete_ne.
  - intros x m Hx. destruct (H2 x m Hx) as [c Hc]. case_decide as Hnm; [eauto|]. rewrite lookup_delete_ne; [eauto|].
    intros ->. apply Hnm, named_iff. eauto.
  - done.
  - intros m j [Hm Hj]%lookup_delete_Some. destruct (H4 m j Hj) as [? [?|[c Hc]]]; (split; [done|]); [auto|right].
    case_decide; [eauto|]. rewrite lookup_delete_ne by done. eauto.
Qed.

Lemma sem_of_drop n m a :
  refs a !! n = Some 1 ->
  sem_of (without_ref n a) m =
    if decide (m = n) then (if decide (named (names a) n) then set_hasv false <$> sem_of a n else None) else sem_of a m.
Proof.
  intros Hn. unfold without_ref. rewrite Hn, decide_False by lia. unfold sem_of. cbn [names counts refs].
  destruct (decide (m = n)) as [->|Hm].
  - destruct (decide (named _ _)) as [Hnm|]; [|by rewrite !lookup_delete_eq]. rewrite lookup_delete_eq. destruct (counts a !! n); [|done].
    done.
  - rewrite (lookup_delete_ne (refs a)) by done. f_equal. destruct (decide (named (names a) n)); [done|by rewrite lookup_delete_ne].
Qed.

Lemma unreferenced n a : refs a !! n = Some 1 -> refs (without_ref n a) = delete n (refs a).
Proof. intros Hn. unfold without_ref. by rewrite Hn, decide_False by lia. Qed.

Lemma unhook_eq c l :
  (b ← gets sems_hasvnode; kassert b;; set_hasvnode false;; gets sems_linked) (idle_sem c true l) = Done (l, idle_sem c false l).
Proof. done. Qed.

Lemma reclaim_eq v o s a :
  volume s a -> semfs_objs s !! v = Some o -> semv_refcount o = 1 -> refs a !! semv_semnum o = Some 1 ->
  exists s', semfs_reclaim v s = Done (0, s') /\ volume s' (without_ref (semv_semnum o) a) /\
    semfs_objs s' = delete v (semfs_objs s).
Proof.
  intros [Hd H] Ho Hone Hr. destruct s as [tl vs ss dl ds ob nx me]. pose proof H as [T1 T2 T3 T4 T5 T6]. cbn in Ho, Hd, T1, T2, T3, T4, T5.
  set (n := semv_semnum o) in *. unfold semfs_reclaim. rewrite K_bind_eq. rewrite (get_semv_eq v o) by done. krun.
  rewrite table_acquire_eq by done. krun. rewrite Hone. cbn [Z.gtb Z.compare Pos.compare Pos.compare_cont].
  assert (Hend : forall tl' ss', idle tl' -> length ss' = length ss -> (forall j, slot ss' j = sem_of (without_ref n a) (Z.of_nat j)) ->
    volume (mkSemfs tl' (remove_vnode vs v) ss' dl ds (delete v ob) nx me) (without_ref n a)).
  { intros tl' ss' Ht Hlen Hss. assert (Hnm : names (without_ref n a) = names a) by (unfold without_ref; rewrite Hr; by case_decide).
    split; [done|]. split; fields; try done; [by rewrite Hlen|by rewrite Hnm| |].
    - rewrite unreferenced by done. by apply vnodes_gone.
    - apply files_ok_drop; [done|by eauto]. }
  run. fold n. destruct (Z.eqb_spec n SEMFS_ROOTDIR) as [Hn|Hn]; cbn [negb].
  - run. rewrite table_release_eq. krun. rewrite (vnode_destroy_eq v o) by done. krun. eexists. split; [done|].
    split; [|done]. apply Hend; try done. intros j. rewrite sem_of_drop by done. case_decide as Hj; [|apply T3].
    destruct (slot ss j) as [x|] eqn:Hx; [apply slot_lt in Hx; lia|].
    rewrite (T3 j), Hj in Hx. rewrite Hx. by case_decide.
  - destruct (fo_refs _ T6 _ _ Hr) as [_ [?|[c Hc]]]; [done|]. destruct (sem_slot _ _ _ _ H Hc) as [Hm0 Hs]. cbn [semfs_sems] in Hs.
    rewrite (bool_decide_true (is_Some _)) in Hs by eauto. pose proof (slot_lt _ _ _ Hs) as Hlt. run.
    erewrite on_sem_eq; [|exact Hs|apply unhook_eq]. krun.
    destruct (bool_decide_reflect (named (names a) n)) as [Hnm|Hnm]; krun.
    + rewrite table_release_eq. krun. rewrite (vnode_destroy_eq v o) by done. krun. eexists. split; [done|]. split; [|done].
      apply Hend; [done|by rewrite length_insert|]. intros j. rewrite sem_of_drop, slot_set by done.
      destruct (decide (Z.of_nat j = n)) as [Hj|Hj]; [|rewrite decide_False by lia; apply T3].
      rewrite decide_True, decide_True by (done || lia). unfold sem_of. rewrite Hc. cbn. by rewrite (bool_decide_true (named _ _)).
    + erewrite the_sem_eq by (rewrite slot_set by done; by rewrite decide_True). krun. unfold put_sem. run. rewrite sem_destroy_eq. krun.
      rewrite table_release_eq. krun. rewrite (vnode_destroy_eq v o) by done. krun. eexists. split; [done|]. split; [|done].
      apply Hend; [done|unfold set_slot; by rewrite !length_insert|]. intros j. unfold set_slot. rewrite sem_of_drop, !slot_set by (by rewrite ?length_insert).
      destruct (decide (Z.of_nat j = n)) as [Hj|Hj]; [|rewrite !decide_False by lia; apply T3].
      by rewrite decide_True, decide_False by (done || lia).
Qed.

Lemma decref_eq v n s a : volume s a -> vnum s v = Some n -> refined s (Decref v) n a.
Proof.
  intros HV Hv. pose proof HV as [Hd H]. destruct (vnum_obj _ _ _ _ H Hv) as (o & Ho & <- & Hr & _).
  destruct (fo_refs _ (tb_ok _ _ H) _ _ Hr) as [H1 _].
  assert (Hdec : exists s', vnode_decref v s = Done ((), s') /\ volume s' (without_ref (semv_semnum o) a) /\
    kept (semfs_objs s) (semfs_objs s') (refs (without_ref (semv_semnum o) a))).
  { unfold vnode_decref. rewrite K_bind_eq. unfold get_semv. rewrite Ho. kred. unfold kassert.
    destruct (Z.gtb_spec (semv_refcount o) 0) as [_|?]; [|lia]. krun.
    destruct (Z.gtb_spec (semv_refcount o) 1) as [Hgt|Hle].
    - assert (Hw : without_ref (semv_semnum o) a = mkFiles (names a) (counts a) (<[semv_semnum o := semv_refcount o - 1]> (refs a)))
        by (unfold without_ref; by rewrite Hr, decide_True).
      destruct s as [tl vs ss dl ds ob nx me]. rewrite put_semv_eq. eexists. split; [done|]. cbn in Ho.
      split; [|by eapply kept_count]. pose proof H as [T1 T2 T3 T4 T5 T6]. split; [done|].
      split; fields; rewrite ?Hw; try done; [| |rewrite <- Hw; apply files_ok_drop; [done|by eauto]].
      + intros j. rewrite sem_of_with_ref. cbn in T3. rewrite T3. case_decide as Hj; [|done]. unfold sem_of. rewrite Hj, Hr.
        by destruct (counts a !! _).
      + by apply vnodes_count.
    - assert (Hone : semv_refcount o = 1) by lia. rewrite Hone in Hr.
      destruct (reclaim_eq v o s a HV Ho Hone Hr) as (s' & Hs & HV' & Hob). krun. rewrite Hs. krun. exists s'. split; [done|].
      split; [done|]. rewrite Hob, unreferenced by done. intros w n Hw [k [Hn _]%lookup_delete_Some].
      rewrite lookup_delete_ne; [done|]. intros ->. rewrite Ho in Hw. by injection Hw. }
  destruct Hdec as (s' & He & HV' & Hk). exists (Ok 0), s', (Value 0), (without_ref (semv_semnum o) a).
  split; [cbn; by rewrite He|]. done.
Qed.

(** ** Rounds *)

(** [k] bytes moved. *)
Definition took (u : uio) (k : Z) : uio := set_offset_resid u (uio_offset u + k) (uio_resid u - k).

Lemma took_0 u : took u 0 = u.
Proof. destruct u. unfold took, set_offset_resid. cbn. f_equal; lia. Qed.

(** The threads woken when the count goes from [c] to [n], and those left asleep. *)
Definition woken_by (c n : Z) (wc : list Z) : list Z * list Z :=
  if (c >? 0) || (n =? 0) then ([], wc) else
  if n =? 1 then (option_list (head wc), tail wc) else (wc, []).

Lemma wakeup_eq wc c h l n :
  semfs_wakeup n (held_sem wc c h l) = Done (fst (woken_by c n wc), held_sem (snd (woken_by c n wc)) c h l).
Proof.
  unfold semfs_wakeup, woken_by. krun. cbn [held_sem sems_count sems_lock sems_cv].
  destruct ((c >? 0) || (n =? 0)); [done|]. unfold cv_signal, cv_broadcast, lock_do_i_hold, cv_spin, cv_unspin.
  destruct (n =? 1); krun; cbn [held_sem sems_count sems_lock sems_cv held_by lk_owner cv_spinlock cv_wchan];
    rewrite !bool_decide_true by done; krun; cbn; by rewrite bool_decide_true.
Qed.

Lemma sem_wait_eq wc c h l : sem_wait (held_sem wc c h l) = Done ((), quiet_sem (wc ++ [self]) c h l).
Proof.
  unfold sem_wait, cv_wait_release, cv_wait_sleep, cv_unspin, cv_spin, lock_do_i_hold. krun.
  cbn [held_sem sems_lock sems_cv held_by lk_owner cv_spinlock cv_wchan]. rewrite bool_decide_true by done. krun.
  change (mkLock true (Some self) (lk_wchan new_lock)) with (held_by self new_lock). rewrite lock_release_held. krun.
  cbn. rewrite ?bool_decide_true by done. krun. cbn. rewrite ?bool_decide_true by done. done.
Qed.

Lemma set_count_eq n wc c h l : set_sems_count n (held_sem wc c h l) = Done ((), held_sem wc n h l).
Proof. done. Qed.

Lemma held_count wc c h l : sems_count (held_sem wc c h l) = c.
Proof. done. Qed.

Lemma read_round_eq wc c h l u :
  0 <= c < 2 ^ 32 -> 0 <= uio_resid u < 2 ^ 32 ->
  read_round u (quiet_sem wc c h l) =
    if decide (uio_resid u <= c) then Done ((true, took u (uio_resid u)), quiet_sem wc (c - uio_resid u) h l)
    else Done ((false, took u c), quiet_sem (wc ++ [self]) 0 h l).
Proof.
  intros Hc Hu. unfold read_round. rewrite K_bind_eq, sem_acquire_eq. cbn [read_loop]. krun.
  destruct (Z.gtb_spec (uio_resid u) 0) as [Hpos|Hz]; cbn [negb].
  - krun. rewrite !held_count. destruct (Z.gtb_spec c 0) as [Hc0|Hc0].
    + krun. rewrite set_count_eq. krun. destruct (Z.gtb_spec (uio_resid u) c) as [Hgt|Hle].
      * rewrite decide_False by lia. rewrite Z.sub_diag. change (u32 0) with 0. cbn [set_offset_resid uio_resid].
        rewrite (u32_small (uio_resid u - c)) by lia. rewrite (proj2 (Z.eqb_neq _ 0)) by lia. krun. rewrite held_count.
        krun. rewrite sem_wait_eq. krun. done.
      * rewrite decide_True by lia. cbn [set_offset_resid uio_resid]. rewrite Z.sub_diag. change (u32 0) with 0. krun.
        rewrite (u32_small (c - uio_resid u)) by lia. rewrite sem_release_eq. krun. unfold took. by rewrite Z.sub_diag.
    + rewrite decide_False by lia. replace c with 0 by lia. krun. rewrite (proj2 (Z.eqb_neq _ 0)) by lia. krun.
      rewrite held_count. krun. rewrite sem_wait_eq. krun. by rewrite took_0.
  - replace (uio_resid u) with 0 by lia. rewrite decide_True by lia. krun. rewrite sem_release_eq. krun.
    by rewrite took_0, Z.sub_0_r.
Qed.

Lemma write_round_eq wc c h l u :
  0 <= c < 2 ^ 32 -> 0 < uio_resid u < 2 ^ 32 ->
  write_round u (quiet_sem wc c h l) =
    if decide (c + uio_resid u < 2 ^ 32) then
      let w := woken_by c (c + uio_resid u) wc in
      Done ((0, took u (uio_resid u), fst w), quiet_sem (snd w) (c + uio_resid u) h l)
    else Done ((EFBIG, u, []), quiet_sem wc c h l).
Proof.
  intros Hc Hu. unfold write_round. rewrite K_bind_eq, sem_acquire_eq. rewrite Z.gtb_ltb, (proj2 (Z.ltb_lt _ _)) by lia.
  krun. rewrite !held_count. case_decide as Hs.
  - rewrite u32_small by lia. rewrite (proj2 (Z.ltb_ge _ _)) by lia. krun.
    rewrite wakeup_eq. krun. rewrite set_count_eq. krun.
    rewrite sem_release_eq. krun. unfold took. by rewrite Z.sub_diag.
  - assert (Hw : u32 (c + uio_resid u) = c + uio_resid u - 2 ^ 32) by (unfold u32; lia). rewrite Hw.
    rewrite (proj2 (Z.ltb_lt _ _)) by lia. krun. by rewrite sem_release_eq.
Qed.

Lemma write_round_nothing wc c h l u :
  uio_resid u = 0 -> write_round u (quiet_sem wc c h l) = Done ((0, u, []), quiet_sem wc c h l).
Proof.
  intros Hu. unfold write_round. rewrite K_bind_eq, sem_acquire_eq, Hu. cbn [Z.gtb Z.compare]. krun. by rewrite sem_release_eq.
Qed.

Lemma truncate_round_eq wc c h l n :
  truncate_round n (quiet_sem wc c h l) = let w := woken_by c n wc in Done (fst w, quiet_sem (snd w) n h l).
Proof.
  unfold truncate_round. rewrite K_bind_eq, sem_acquire_eq, K_bind_eq, wakeup_eq. krun. rewrite set_count_eq. krun.
  by rewrite sem_release_eq.
Qed.

(** ** Semaphores as files *)

Lemma tables_count s a n c ss' tl' :
  tables s a -> is_Some (counts a !! n) -> 0 <= c < 2 ^ 32 -> idle tl' -> length ss' = length (semfs_sems s) ->
  (forall j, slot ss' j = if decide (Z.of_nat j = n) then
     Some (idle_sem c (bool_decide (is_Some (refs a !! n))) (bool_decide (named (names a) n))) else slot (semfs_sems s) j) ->
  tables (mkSemfs tl' (semfs_vnodes s) ss' (semfs_dirlock s) (semfs_dents s) (semfs_objs s) (semfs_nextvn s) (semfs_mem s))
    (with_count n c a).
Proof.
  intros H Hn Hc Ht Hlen Hss. pose proof H as [T1 T2 T3 T4 T5 [F1 F2 F3 F4]]. split; fields; try done; [by rewrite Hlen| |].
  - intros j. rewrite Hss. unfold sem_of, with_count. cbn [names counts refs]. case_decide as Hj.
    + by rewrite Hj, lookup_insert_eq.
    + rewrite lookup_insert_ne by done. apply T3.
  - split; cbn [with_count names counts refs]; try done.
    + intros m d. rewrite lookup_insert. case_decide as Hm; [|apply F1]. intros [= <-]. subst m. destruct Hn as [e He].
      destruct (F1 n e He) as (? & _ & ?). done.
    + intros x m Hm. rewrite lookup_insert. case_decide; [eauto|by eapply F2].
    + intros m k Hk. destruct (F4 m k Hk) as [? Hm]. split; [done|]. rewrite lookup_insert. case_decide; [eauto|done].
Qed.

Lemma sem_round {A} (m : K semfs_sem A) s a v n c c' (r : A) :
  volume s a -> vnum s v = Some n -> counts a !! n = Some c -> 0 <= c' < 2 ^ 32 ->
  (forall h l, m (idle_sem c h l) = Done (r, idle_sem c' h l)) ->
  exists s', (n ← semfs_getsem v; on_sem n m) s = Done (r, s') /\ volume s' (with_count n c' a) /\ semfs_objs s' = semfs_objs s.
Proof.
  intros HV Hv Hc Hc' Hm. pose proof HV as [Hd H]. destruct (vnum_obj _ _ _ _ H Hv) as (o & Ho & Hn & Hr & _).
  destruct (sem_slot _ _ _ _ H Hc) as [Hn0 Hs]. pose proof (slot_lt _ _ _ Hs) as Hlt. pose proof (tb_lock _ _ H) as Ht.
  destruct s as [tl vs ss dl ds ob nx me]. cbn in Ho, Hs, Hlt, Ht. unfold semfs_getsem. krun.
  erewrite get_semv_eq by done. krun. rewrite Hn. erewrite getsembynum_eq; [|done|lia|exact Hs]. krun.
  erewrite on_sem_eq; [|exact Hs|apply Hm]. eexists. split; [done|]. split; [|done]. split; [done|].
  apply (tables_count _ a n c' _ (freed tl) H); try done; [by rewrite length_insert|].
  intros j. rewrite slot_set by done. destruct (decide (Z.of_nat j = n)); [by rewrite decide_True by lia|by rewrite decide_False by lia].
Qed.

(** The call on a semaphore's vnode ends with the count [c']. *)
Lemma sem_refined s a op v n c c' s' (r : Z) ra :
  volume s a -> vnum s v = Some n -> counts a !! n = Some c ->
  (exec op s = Done (as_res r 0, s') /\ volume s' (with_count n c' a) /\ semfs_objs s' = semfs_objs s) ->
  files_step (semfs_mem s = []) (Z.of_nat (length (semfs_sems s)) = SEMFS_ROOTDIR) op n a ra (with_count n c' a) ->
  ra = (if r =? 0 then Value 0 else Failed r) -> refined s op n a.
Proof.
  intros HV Hv Hc (He & HV' & Hob) Hf ->. eexists _, s', _, _. split; [exact He|]. split; [exact Hf|]. split.
  - unfold as_res. by destruct (r =? 0).
  - split; [done|]. rewrite Hob. apply kept_refl.
Qed.

Lemma with_count_same n c a : counts a !! n = Some c -> with_count n c a = a.
Proof. intros Hc. destruct a as [nm ct rf]. unfold with_count. cbn in *. f_equal. by apply insert_id. Qed.

Lemma root_or_sem s a v n :
  volume s a -> vnum s v = Some n -> n = SEMFS_ROOTDIR \/ (n <> SEMFS_ROOTDIR /\ exists c, counts a !! n = Some c /\ 0 <= c < 2 ^ 32).
Proof.
  intros [Hd H] Hv. destruct (decide (n = SEMFS_ROOTDIR)) as [|Hn]; [auto|right]. split; [done|].
  destruct (vnum_obj _ _ _ _ H Hv) as (o & _ & _ & Hr & _). destruct (fo_refs _ (tb_ok _ _ H) _ _ Hr) as [_ [?|[c Hc]]]; [done|].
  exists c. split; [done|]. apply (fo_counts _ (tb_ok _ _ H) _ _ Hc).
Qed.

(** Must the reader wait? *)
Definition must_wait (op : semfs_op) (n : Z) (a : files) : Prop :=
  match op with Read _ u => exists c, counts a !! n = Some c /\ c < uio_resid u | _ => False end.

Lemma K_then {A B C} (m : K semfs A) (k : A -> K semfs B) (f : B -> K semfs C) s r s' :
  (n ← m; k n) s = Done (r, s') -> (n ← m; x ← k n; f x) s = f r s'.
Proof. rewrite !K_bind_eq. destruct (m s) as [[n s1]| |]; [|done|done]. intros Hk. by rewrite K_bind_eq, Hk. Qed.

Lemma semfs_getsem_eq s a v n c :
  volume s a -> vnum s v = Some n -> counts a !! n = Some c ->
  exists s', semfs_getsem v s = Done (n, s') /\ slot (semfs_sems s') (Z.to_nat n) =
    Some (idle_sem c (bool_decide (is_Some (refs a !! n))) (bool_decide (named (names a) n))).
Proof.
  intros [Hd H] Hv Hc. destruct (vnum_obj _ _ _ _ H Hv) as (o & Ho & Hn & _). pose proof (tb_lock _ _ H) as Ht.
  destruct (sem_slot _ _ _ _ H Hc) as [Hn0 Hs]. destruct s as [tl vs ss dl ds ob nx me]. cbn in Ho, Hs, Ht.
  unfold semfs_getsem. krun. erewrite get_semv_eq by done. krun. rewrite Hn. erewrite getsembynum_eq; [|done|lia|exact Hs].
  by eexists.
Qed.

Lemma read_eq v u n s a :
  volume s a -> vnum s v = Some n -> 0 <= uio_resid u < 2 ^ 32 ->
  (must_wait (Read v u) n a /\ exec (Read v u) s = Blocked) \/ refined s (Read v u) n a.
Proof.
  intros HV Hv Hu. pose proof HV as [Hd H].
  assert (He : exec (Read v u) s = if decide (n = SEMFS_ROOTDIR) then Done (Err EISDIR, s)
    else '(r, u, s) ← semfs_read v u s; mret (as_res r (uio_resid u), s)).
  { cbn. rewrite (by_ops_eq _ _ _ _ _ _ H Hv). by case_decide. }
  destruct (root_or_sem _ _ _ _ HV Hv) as [Hn|(Hn & c & Hc & Hc2)].
  { right. rewrite decide_True in He by done. by apply (nothing_done _ _ _ _ (Failed EISDIR) _ HV He); tests. }
  rewrite decide_False in He by done. destruct (decide (uio_resid u <= c)) as [Hle|Hgt].
  - right. destruct (sem_round (read_round u) s a v n c (c - uio_resid u) (true, took u (uio_resid u)) HV Hv Hc)
      as (s' & Hr & HV' & Hob); [lia|intros h l; unfold idle_sem; by rewrite read_round_eq, decide_True by lia|].
    unfold semfs_read in He. erewrite K_then in He by exact Hr. cbn in He. rewrite Z.sub_diag in He.
    apply (sem_refined _ _ _ v n c (c - uio_resid u) s' 0 (Value 0)); try done. tests. by exists c.
  - left. split; [exists c; split; [done|lia]|]. rewrite He. clear He. destruct (semfs_getsem_eq _ _ _ _ _ HV Hv Hc) as (s' & Hg & Hs).
    unfold semfs_read. krun. rewrite Hg. krun. destruct s' as [tl vs ss dl ds ob nx me].
    erewrite on_sem_eq; [|exact Hs|unfold idle_sem; by rewrite read_round_eq, decide_False by lia]. done.
Qed.

Lemma write_eq v u n s a :
  volume s a -> vnum s v = Some n -> 0 <= uio_resid u < 2 ^ 32 -> refined s (Write v u) n a.
Proof.
  intros HV Hv Hu. pose proof HV as [Hd H].
  assert (He : exec (Write v u) s = if decide (n = SEMFS_ROOTDIR) then Done (Err EISDIR, s)
    else '(r, u, s) ← semfs_write v u s; mret (as_res r (uio_resid u), s)).
  { cbn. rewrite (by_ops_eq _ _ _ _ _ _ H Hv). by case_decide. }
  destruct (root_or_sem _ _ _ _ HV Hv) as [Hn|(Hn & c & Hc & Hc2)].
  { rewrite decide_True in He by done. by apply (nothing_done _ _ _ _ (Failed EISDIR) _ HV He); tests. }
  rewrite decide_False in He by done. unfold semfs_write in He. destruct (decide (uio_resid u = 0)) as [H0|H0].
  { destruct (sem_round (write_round u) s a v n c c (0, u, []) HV Hv Hc) as (s' & Hr & HV' & Hob);
      [done|intros h l; unfold idle_sem; by apply write_round_nothing|].
    erewrite K_then in He by exact Hr. cbn in He. rewrite H0 in He.
    apply (sem_refined _ _ _ v n c c s' 0 (Value 0)); try done. tests. exists c. split; [done|]. rewrite H0, Z.add_0_r.
    by rewrite decide_True by lia. }
  destruct (decide (c + uio_resid u < 2 ^ 32)) as [Hlt|Hge].
  - destruct (sem_round (write_round u) s a v n c (c + uio_resid u) (0, took u (uio_resid u), fst (woken_by c (c + uio_resid u) [])) HV Hv Hc)
      as (s' & Hr & HV' & Hob); [lia| |].
    { intros h l. unfold idle_sem at 1. rewrite write_round_eq, decide_True by lia. cbn. do 2 f_equal. unfold idle_sem. f_equal.
      unfold woken_by. destruct ((c >? 0) || _); [done|]. by destruct (_ =? 1). }
    erewrite K_then in He by exact Hr. cbn in He. rewrite Z.sub_diag in He.
    apply (sem_refined _ _ _ v n c (c + uio_resid u) s' 0 (Value 0)); try done. tests. exists c. split; [done|].
    by rewrite decide_True by lia.
  - destruct (sem_round (write_round u) s a v n c c (EFBIG, u, []) HV Hv Hc) as (s' & Hr & HV' & Hob);
      [done|intros h l; unfold idle_sem; by rewrite write_round_eq, decide_False by lia|].
    erewrite K_then in He by exact Hr. cbn in He.
    apply (sem_refined _ _ _ v n c c s' EFBIG (Failed EFBIG)); try done. tests. exists c. split; [done|].
    rewrite decide_False by lia. split; [done|by apply with_count_same].
Qed.

Lemma truncate_eq v len n s a : volume s a -> vnum s v = Some n -> refined s (Truncate v len) n a.
Proof.
  intros HV Hv. pose proof HV as [Hd H].
  assert (He : exec (Truncate v len) s = if decide (n = SEMFS_ROOTDIR) then Done (Err EISDIR, s)
    else '(r, s) ← semfs_truncate v len s; mret (as_res r 0, s)).
  { cbn. rewrite (by_ops_eq _ _ _ _ _ _ H Hv). by case_decide. }
  destruct (root_or_sem _ _ _ _ HV Hv) as [Hn|(Hn & c & Hc & Hc2)].
  { rewrite decide_True in He by done. by apply (nothing_done _ _ _ _ (Failed EISDIR) _ HV He); tests. }
  rewrite decide_False in He by done. unfold semfs_truncate in He.
  destruct (Z.ltb_spec len 0) as [Hneg|Hpos].
  { by apply (nothing_done _ _ _ _ (Failed EINVAL) _ HV He); tests. }
  destruct (Z.gtb_spec len (2 ^ 32 - 1)) as [Hbig|Hsmall].
  { apply (nothing_done _ _ _ _ (Failed EFBIG) _ HV He); [done|]. tests. all: lia. }
  rewrite u32_small in He by lia.
  destruct (sem_round (truncate_round len) s a v n c len (fst (woken_by c len [])) HV Hv Hc) as (s' & Hr & HV' & Hob); [lia| |].
  { intros h l. unfold idle_sem at 1. rewrite truncate_round_eq. cbn. do 2 f_equal. unfold idle_sem. f_equal.
    unfold woken_by. destruct ((c >? 0) || _); [done|]. by destruct (_ =? 1). }
  erewrite K_then in He by exact Hr. cbn in He.
  apply (sem_refined _ _ _ v n c len s' 0 (Value 0)); try done. tests; lia.
Qed.

Lemma directory_size l nm : directory l nm -> (size nm <= length l)%nat.
Proof.
  revert nm. induction l as [|p l IH]; intros nm H.
  - destruct (decide (nm = ∅)) as [->|Hne]; [by rewrite map_size_empty|]. apply map_choose in Hne as (x & n & Hx).
    apply (di_names _ _ H) in Hx as (j & d & Hj & _). unfold slot in Hj. by rewrite lookup_nil in Hj.
  - assert (Hshift : forall nm', directory (None :: l) nm' -> directory l nm').
    { intros nm' [D1 D2 D3]. split.
      - intros j d. apply (D1 (S j)).
      - intros x n. rewrite D2. split; [intros ([|j] & d & Hj & Hr); [done|by exists j, d]|intros (j & d & Hr); by exists (S j), d].
      - intros i j d e Hi Hj He. specialize (D3 (S i) (S j) d e Hi Hj He). lia. }
    destruct p as [d|]; cbn [length]; [|specialize (IH nm (Hshift nm H)); lia].
    pose proof (directory_remove _ _ 0%nat d H eq_refl) as Hr. specialize (IH _ (Hshift _ Hr)).
    destruct (nm !! cstr (semd_name d)) as [n|] eqn:Hn; [|by rewrite delete_id in IH; [lia|]].
    rewrite map_size_delete_Some in IH by eauto. lia.
Qed.

Lemma stat_round_eq c h l :
  (sem_acquire;; count ← gets sems_count; linked ← gets sems_linked; sem_release;; mret (count, linked)) (idle_sem c h l) =
  Done ((c, l), idle_sem c h l).
Proof. unfold idle_sem. rewrite K_bind_eq, sem_acquire_eq. krun. by rewrite sem_release_eq. Qed.

Lemma size_eq v n s a : volume s a -> vnum s v = Some n -> refined s (Size v) n a.
Proof.
  intros HV Hv. pose proof HV as [Hd H].
  assert (He : exec (Size v) s = if decide (n = SEMFS_ROOTDIR) then '(_, size, _, _, _) ← semfs_dirstat v s; mret (Ok size, s)
    else '(_, size, _, _, _) ← semfs_semstat v s; mret (Ok size, s)).
  { cbn. rewrite (by_ops_eq _ _ _ _ _ _ H Hv). case_decide.
    - by destruct (semfs_dirstat v s) as [[[[[? ?] ?] ?] ?]| |].
    - by destruct (semfs_semstat v s) as [[[[[? ?] ?] ?] ?]| |]. }
  destruct (vnum_obj _ _ _ _ H Hv) as (o & Ho & Hn' & _).
  destruct (root_or_sem _ _ _ _ HV Hv) as [Hn|(Hn & c & Hc & Hc2)].
  - rewrite decide_True in He by done. pose proof (directory_size _ _ (tb_dents _ _ H)) as Hsz.
    assert (Hst : exists s', semfs_dirstat v s = Done (Z.lor S_IFDIR 1777, Z.of_nat (length (semfs_dents s)), 2, SEMFS_ROOTDIR, s')).
    { destruct s as [tl vs ss dl ds ob nx me]. cbn in Ho, Hd. unfold semfs_dirstat. krun. erewrite get_semv_eq by done. krun.
      rewrite dir_acquire_eq by done. run. rewrite dir_release_eq. run. by eexists. }
    destruct Hst as [s' Hst]. rewrite Hst in He.
    apply (nothing_done _ _ _ _ (Value (Z.of_nat (length (semfs_dents s)))) _ HV He); [done|]. cbn [files_step]. split; [done|].
    rewrite decide_True by done. eexists. split; [done|]. lia.
  - rewrite decide_False in He by done.
    assert (Hst : exists m l i s', semfs_semstat v s = Done (m, c, l, i, s')).
    { destruct (sem_slot _ _ _ _ H Hc) as [Hn0 Hs]. pose proof (tb_lock _ _ H) as Ht. destruct s as [tl vs ss dl ds ob nx me]. cbn in Ho, Ht, Hs.
      unfold semfs_semstat, semfs_getsem. krun. erewrite get_semv_eq by done. krun. rewrite Hn'.
      erewrite getsembynum_eq; [|done|lia|exact Hs]. krun. erewrite on_sem_eq; [|exact Hs|apply stat_round_eq]. krun.
      erewrite get_semv_eq by done. krun. do 4 eexists. done. }
    destruct Hst as (m & l & i & s' & Hst). rewrite Hst in He.
    apply (nothing_done _ _ _ _ (Value c) _ HV He); [done|]. cbn [files_step]. split; [done|]. rewrite decide_False by done. by exists c.
Qed.

Lemma op_step s op n a :
  volume s a -> applies s op n -> well_formed op -> (must_wait op n a /\ exec op s = Blocked) \/ refined s op n a.
Proof.
  intros HV Ha Hw. destruct op; cbn in Ha, Hw; [right; by apply creat_eq|right; by apply semfs_remove_eq|right; by apply lookup_eq|
    right; by apply lookparent_eq|right; subst; by apply getroot_eq|right; by apply incref_refined|right; by apply decref_eq|
    by apply read_eq|right; by apply write_eq|right; by apply truncate_eq|right; by apply size_eq].
Qed.

Lemma volume_create mem s mem' : semfs_create mem = Done (Some s, mem') -> volume s (mkFiles ∅ ∅ ∅).
Proof.
  unfold semfs_create, lock_create. destruct (kalloc mem) as [[] m1]; [|done]. destruct (kalloc3 m1) as [[] m2]; [|done].
  destruct (kalloc m2) as [[] m3]; [|cbn; by intros [=]]. destruct (kalloc m3) as [[] m4]; [|cbn; by intros [=]].
  destruct (kalloc3 m4) as [[] m5]; [|cbn; by intros [=]]. destruct (kalloc m5) as [[] m6]; [|cbn; by intros [=]].
  intros [= <- _]. split; [done|]. split; fields; try done.
  - split; [done| |done]. intros x n. split; [done|]. by intros (j & d & Hj & _).
  - split; try done; [|apply NoDup_nil_2]. intros v. rewrite elem_of_nil, lookup_empty, is_Some_alt. done.
Qed.

(** ** Unmounting *)

Lemma destroy_sems_eq l a :
  (forall j, slot l j = sem_of a (Z.of_nat j)) -> destroy_sems l = if decide (None ∈ l) then Panic else Done ().
Proof.
  intros Hs. assert (Hidle : forall j x, slot l j = Some x -> semfs_sem_destroy x = Done ()).
  { intros j x. rewrite Hs. unfold sem_of. destruct (counts a !! _); [|done]. by intros [= <-]. }
  clear Hs. induction l as [|[x|] l IH]; cbn [destroy_sems]; [done| |by rewrite decide_True by left].
  kred. rewrite (Hidle 0%nat x eq_refl). kred. rewrite IH by (intros j; apply (Hidle (S j))).
  by rewrite (decide_ext (None ∈ l) (None ∈ Some x :: l)) by (rewrite elem_of_cons; naive_solver).
Qed.

Lemma destroy_dents_eq l : destroy_dents l = if decide (None ∈ l) then Panic else Done ().
Proof.
  induction l as [|[x|] l IH]; cbn [destroy_dents]; [done| |by rewrite decide_True by left]. kred. rewrite IH.
  by rewrite (decide_ext (None ∈ l) (None ∈ Some x :: l)) by (rewrite elem_of_cons; naive_solver).
Qed.

Lemma lock_destroy_eq lk : idle lk -> lk_wchan lk = [] -> lock_destroy self lk = Done ().
Proof. intros [_ Ho] Hw. unfold lock_destroy, lock_do_i_hold, wchan_destroy. by rewrite Ho, Hw. Qed.

Lemma no_vnodes ob vs nx r : vnodes_of ob vs nx r -> r = ∅ <-> vs = [].
Proof.
  intros H. split.
  - intros ->. destruct vs as [|v vs]; [done|]. assert (Hv : v ∈ v :: vs) by left.
    apply (vn_table _ _ _ _ H) in Hv as [o Ho]. by destruct (vn_objs _ _ _ _ H v o Ho) as (_ & Hr & _).
  - intros ->. apply map_empty. intros n. apply eq_None_not_Some. intros [k (v & o & Ho & _)%(vn_refs _ _ _ _ H)].
    assert (Hv : v ∈ []) by (apply (vn_table _ _ _ _ H); eauto). by apply elem_of_nil in Hv.
Qed.

(** ** Sequences of calls *)

Fixpoint run_ops (ops : list semfs_op) (s : semfs) : outcome semfs :=
  match ops with [] => Done s | op :: ops => '(_, s) ← exec op s; run_ops ops s end.

(** Each call is on a vnode that is there when it is made. *)
Fixpoint proper (ops : list semfs_op) (s : semfs) : Prop :=
  match ops with
  | [] => True
  | op :: ops => (exists n, applies s op n) /\ well_formed op /\ forall r s', exec op s = Done (r, s') -> proper ops s'
  end.

Lemma run_ops_volume ops s a :
  volume s a -> proper ops s ->
  run_ops ops s = Blocked \/ exists s' a', run_ops ops s = Done s' /\ volume s' a'.
Proof.
  revert s a. induction ops as [|op ops IH]; intros s a HV Hp; cbn [run_ops]; [right; by exists s, a|].
  destruct Hp as ((n & Ha) & Hw & Hnext). destruct (op_step s op n a HV Ha Hw) as [[_ He]|(r & s' & ra & a' & He & _ & _ & HV' & _)].
  - left. by rewrite He.
  - rewrite He. kred. apply (IH s' a'); [done|by eapply Hnext].
Qed.

(** ** The theorems *)

(** C18. semfs behaves as files do: seen from outside it is a directory of names, a
    count for each semaphore and a number of references for each vnode, and every
    call on a live vnode through the interface of the VFS takes one step of that
    picture and gives the answer it asks for.  A removed name can be used again at
    once, and its semaphore lives on until the last reference is given back; a read
    takes its bytes off the count or waits for them; a write past the largest count
    is refused.  No call panics, the locks are free again after every call, on
    every branch, and vnodes that are in use stay where they are.  Without memory a
    call fails with ENOMEM and changes nothing, except that creating can then also
    answer with success and a null vnode ([NoVnode]). *)
Theorem semfs_refines s op n a :
  volume s a -> applies s op n -> well_formed op ->
  (must_wait op n a /\ exec op s = Blocked) \/
  (~ must_wait op n a /\ exists r s' ra a', exec op s = Done (r, s') /\
     files_step (semfs_mem s = []) (Z.of_nat (length (semfs_sems s)) = SEMFS_ROOTDIR) op n a ra a' /\ shown s' r ra /\
     volume s' a' /\ (forall v m, vnum s v = Some m -> is_Some (refs a' !! m) -> vnum s' v = Some m)).
Proof.
  intros HV Ha Hw. destruct (op_step s op n a HV Ha Hw) as [|Hr]; [by left|right]. split; [|exact Hr].
  destruct Hr as (r & s' & ra & a' & _ & Hf & _). destruct op; try (by intros []). intros (c & Hc & Hlt).
  cbn [files_step] in Hf. destruct (decide (n = SEMFS_ROOTDIR)) as [->|Hn].
  - by rewrite (root_no_sem s a) in Hc by apply HV.
  - destruct Hf as (c' & Hc' & Hle & _). rewrite Hc in Hc'. injection Hc' as <-. lia.
Qed.

(** C19. Well-formed volumes stay well formed.  Starting from the volume that
    [semfs_create] makes, any sequence of the calls of [semfs_op], each on a vnode that is there when
    it is made, whatever the memory: none panics, and either a read waits for
    another thread or the sequence ends in a volume with both locks free, in which
    the tables of semaphores, entries and vnodes agree with each other: every entry
    leads to a semaphore, a semaphore's flags say whether it has a vnode and a name,
    and there is no semaphore with neither. *)
Theorem semfs_typed mem s mem' ops :
  semfs_create mem = Done (Some s, mem') -> proper ops s ->
  run_ops ops s = Blocked \/ exists s' a', run_ops ops s = Done s' /\ volume s' a'.
Proof. intros Hc Hp. by eapply run_ops_volume; [apply (volume_create mem s mem')|]. Qed.

(** Unmounting.  It is refused while there are vnodes, and succeeds when there are
    none and no place of either table has been emptied; but a place that has been
    emptied, as removing a semaphore leaves one, is followed as a pointer, and the
    kernel panics. *)
Theorem semfs_unmount_spec s a :
  volume s a -> lk_wchan (semfs_tablelock s) = [] -> lk_wchan (semfs_dirlock s) = [] ->
  (refs a <> ∅ -> exists s', semfs_unmount s = Done (EBUSY, s') /\ volume s' a) /\
  (refs a = ∅ -> None ∉ semfs_sems s -> None ∉ semfs_dents s -> exists s', semfs_unmount s = Done (0, s')) /\
  (refs a = ∅ -> None ∈ semfs_sems s \/ None ∈ semfs_dents s -> semfs_unmount s = Panic).
Proof.
  intros [Hd H] Hw1 Hw2. pose proof (no_vnodes _ _ _ _ (tb_vnodes _ _ H)) as Hvs.
  destruct s as [tl vs ss dl ds ob nx me]. pose proof H as [T1 T2 T3 T4 T5 T6]. cbn in *.
  assert (Hf : lk_wchan (freed tl) = []) by (cbn; by rewrite Hw1).
  assert (Hde : refs a = ∅ -> semfs_unmount (mkSemfs tl vs ss dl ds ob nx me) =
      if decide (None ∈ ss) then Panic else if decide (None ∈ ds) then Panic else Done (0, mkSemfs (freed tl) vs [] dl [] ob nx me)).
  { intros Hr. apply Hvs in Hr. subst vs. unfold semfs_unmount. krun. rewrite table_acquire_eq by done. run.
    cbn [length]. change (Z.of_nat 0 >? 0) with false. run.
    rewrite table_release_eq. run. unfold semfs_destroy. run. rewrite (destroy_sems_eq ss a T3). case_decide; [done|]. run.
    rewrite destroy_dents_eq. case_decide; [done|]. run. rewrite lock_destroy_eq by done. unfold kassert.
    run. cbn [length]. change (Z.of_nat 0 =? 0) with true. run. by rewrite lock_destroy_eq. }
  split_and!.
  - intros Hr. unfold semfs_unmount. krun. rewrite table_acquire_eq by done. run. destruct vs as [|v vs]; [tauto|].
    rewrite Z.gtb_ltb, (proj2 (Z.ltb_lt _ _)) by (cbn; lia). krun. rewrite table_release_eq. eexists. split; [done|].
    split; [done|]. by split.
  - intros Hr Hs Hdd. rewrite (Hde Hr), !decide_False by done. by eexists.
  - intros Hr Hor. rewrite (Hde Hr). repeat case_decide; tauto.
Qed.
End Thread.

(** semfs is a file system the layers above can count references of. *)
Definition semfs_refs (self : Z) : @VopsRefs semfs (semfs_vops self).
Proof.
  refine (@Build_VopsRefs semfs (semfs_vops self) (fun s v => semv_refcount <$> semfs_objs s !! v) _ _ _).
  - intros s v n. cbn. unfold get_semv. destruct (semfs_objs s !! v); [|done]. by intros [= <-].
  - intros s v n. cbn. unfold vnode_incref, put_semv, get_semv. krun. destruct (semfs_objs s !! v) as [o|]; [|done].
    intros [= <-]. krun. eexists. split; [done|]. cbn. rewrite lookup_insert_eq. split; [done|].
    intros w Hw. by rewrite lookup_insert_ne.
  - intros s v n. cbn. unfold vnode_decref, put_semv, get_semv, kassert. krun. destruct (semfs_objs s !! v) as [o|]; [|done].
    intros [= <-] Hn. krun. rewrite !Z.gtb_ltb, !(proj2 (Z.ltb_lt _ _)) by lia. krun. eexists. split; [done|]. cbn.
    rewrite lookup_insert_eq. split; [done|]. intros w Hw. by rewrite lookup_insert_ne.
Defined.

(** ** A small volume *)

Definition empty_semfs : semfs := mkSemfs new_lock [] [] new_lock [] ∅ 1 [].
(** The directory has a vnode, with key 1. *)
Definition root_semfs : semfs := mkSemfs new_lock [1] [] new_lock [] {[1 := mkSemv 1 semfs_dirops SEMFS_ROOTDIR]} 2 [].
Definition root_files : files := with_ref SEMFS_ROOTDIR (mkFiles ∅ ∅ ∅).

Lemma root_semfs_volume : volume root_semfs root_files.
Proof.
  destruct (op_step 7 empty_semfs Getroot SEMFS_ROOTDIR (mkFiles ∅ ∅ ∅)) as [[[] _]|(r & s' & ra & a' & He & Hf & _ & HV & _)];
    [by eapply (volume_create 7 [])|done|done|].
  injection He as _ <-. destruct Hf as [[_ ->]|(_ & _ & _ & Hn)]; [exact HV|by destruct Hn].
Qed.

Definition bytes_uio (rw : uio_rw) (n : Z) : uio :=
  mkUio [] [mkIovec (iov_kbase [] (zeros (Z.to_nat n))) n] 1 0 n UIO_SYSSPACE rw None.

Definition a_name : list Z := [97; 0].

(** A semaphore's life: made, raised to two, its name removed, taken twice, and gone
    with its last reference. *)
Definition sem_life : list semfs_op :=
  [Getroot; Creat 1 a_name false; Write 2 (bytes_uio UIO_WRITE 2); Remove 1 a_name; Size 2; Read 2 (bytes_uio UIO_READ 2); Decref 2].

(** The vnodes of the calls are there, as a computation. *)
Definition appliesb (s : semfs) (op : semfs_op) : bool :=
  match op with
  | Getroot => true
  | Creat v _ _ | Remove v _ | Lookup v _ | Lookparent v _ _ | Incref v | Decref v | Read v _ | Write v _
  | Truncate v _ | Size v => match vnum s v with Some _ => true | None => false end
  end.
Fixpoint properb (self : Z) (ops : list semfs_op) (s : semfs) : bool :=
  match ops with
  | [] => true
  | op :: ops => appliesb s op && match exec self op s with Done (_, s) => properb self ops s | _ => true end
  end.

Lemma properb_ok self ops s : Forall well_formed ops -> properb self ops s = true -> proper self ops s.
Proof.
  revert s. induction ops as [|op ops IH]; intros s Hw; cbn; [done|]. apply Forall_cons in Hw as [Hop Hw].
  intros [Ha Hr]%andb_true_iff. split_and!; [|done|].
  - destruct op; cbn in Ha |- *; try (destruct (vnum s v); [by eexists|done]). by eexists.
  - intros r s' He. rewrite He in Hr. by apply IH.
Qed.

(** Without memory for the directory entry, creating a semaphore reports success and
    hands out the null pointer; nothing has been created. *)
Example semfs_creat_null :
  let s := set_mem [true; true; true; true; true; true; true; true; false] root_semfs in
  match exec 7 (Creat 1 a_name false) s with
  | Done (Ok v, s') => v = 0 /\ vnum s' v = None /\ semfs_dents s' = []
  | _ => False
  end.
Proof. by vm_compute. Qed.

(** The entries are numbered, but reading one moves the offset on by the length of its
    name: of the names "ab", "c" and "d", the second is never seen. *)
Example semfs_getdirentry_skips :
  let dent n i := Some (mkDent (n ++ [0]) i) in
  let s := mkSemfs new_lock [1] [] new_lock [dent [97; 98] 0; dent [99] 1; dent [100] 2]
    {[1 := mkSemv 1 semfs_dirops SEMFS_ROOTDIR]} 2 [] in
  let next u := match semfs_getdirentry 7 1 u s with
    | Done (0, u', _) => Some (uio_offset u', match uio_iov u' with [mkIovec (iov_kbase moved _) _] => moved | _ => [] end)
    | _ => None
    end in
  next (bytes_uio UIO_READ 8) = Some (2, [97; 98]) /\
  next (set_offset_resid (bytes_uio UIO_READ 8) 2 8) = Some (3, [100]).
Proof. by vm_compute. Qed.

(** ** Witnesses *)

Lemma semfs_refines_witness : exists s' a',
  exec 7 (Creat 1 a_name false) root_semfs = Done (Ok 2, s') /\ volume s' a' /\ names a' !! [97] = Some 0 /\
  vnum s' 1 = Some SEMFS_ROOTDIR.
Proof.
  destruct (semfs_refines 7 root_semfs (Creat 1 a_name false) SEMFS_ROOTDIR root_files root_semfs_volume eq_refl ltac:(unfold well_formed, is_str; repeat constructor))
    as [[[] _]|(_ & r & s' & ra & a' & He & Hf & Hs & HV & Hk)].
  pose proof He as He'. vm_compute in He'. injection He' as <- <-.
  eexists _, a'. split; [vm_compute; reflexivity|]. split; [exact HV|]. split; [|reflexivity].
  destruct Hf as [(m & _ & _ & -> & ->)|(_ & [[Hn _]|[Hn _]])]; [|by destruct Hn|discriminate Hn].
  destruct Hs as (v & [= <-] & Hv). vm_compute in Hv. by injection Hv as <-.
Defined.

Lemma semfs_typed_witness : exists s' a', run_ops 7 sem_life empty_semfs = Done s' /\ volume s' a' /\ semfs_sems s' = [None].
Proof.
  destruct (semfs_typed 7 [] empty_semfs [] sem_life eq_refl) as [Hb|(s' & a' & Hr & HV)].
  - apply properb_ok; [|by vm_compute]. repeat constructor; unfold is_str; repeat constructor; done.
  - exfalso. vm_compute in Hb. discriminate Hb.
  - exists s', a'. split; [exact Hr|]. split; [exact HV|]. vm_compute in Hr. by injection Hr as <-.
Defined.

Lemma semfs_unmount_spec_witness : semfs_unmount 7 empty_semfs = Done (0, set_sems [] empty_semfs).
Proof.
  destruct (semfs_unmount_spec 7 empty_semfs (mkFiles ∅ ∅ ∅)) as (_ & Hu & _); [by eapply (volume_create 7 [])|done|done|].
  destruct (Hu eq_refl) as [s' Hs]; [set_solver|set_solver|]. rewrite Hs. vm_compute in Hs. by injection Hs as <-.
Defined.
