(* ===== verification/SemfsSem.v ===== *)
(** * fs/semfs/semfs_vnops.c: many threads on one semaphore

    The rounds of Semfs, interleaved.  Each is what a thread does on the semaphore
    between getting its lock and giving it up, at the end of the call or in
    [cv_wait]; [lock_exclusion] and [cv_no_lost_signal] (SynchSteps) are why rounds
    are steps.  A reader that has been woken starts another round for the bytes it is
    still short of. *)

From stdpp Require Import relations.
From S2P Require Import Prelude Uio Synch Semfs.

#[local] Set Warnings "-clear-no-such-hyp".

(** What has happened to the count, the last first. *)
Inductive sem_event := Put (k : Z) | Took (k : Z) | Reset (n : Z).

(** The count that [log] leaves; nothing can be taken that is not there. *)
Fixpoint balance (start : Z) (log : list sem_event) : option Z :=
  match log with
  | [] => Some start
  | Put k :: log => b ← balance start log; Some (b + k)
  | Took k :: log => b ← balance start log; if k <=? b then Some (b - k) else None
  | Reset n :: log => Some n
  end.

(** [sy_reading] holds the uio of each thread that is in [semfs_read] and awake,
    [sy_asleep] that of those asleep there. *)
Record system := mkSystem {
  sy_sem : semfs_sem; sy_reading : gmap Z uio; sy_asleep : gmap Z uio; sy_log : list sem_event }.

Definition start (n : Z) : system := mkSystem (quiet_sem [] n true true) ∅ ∅ [].

Definition uio_ok (u : uio) : Prop := 0 <= uio_resid u < 2 ^ 32.

(** The threads [ws] go from asleep to awake. *)
Definition awake (ws : list Z) (rd sl : gmap Z uio) : gmap Z uio := filter (fun p => p.1 ∈ ws) sl ∪ rd.
Definition still (ws : list Z) (sl : gmap Z uio) : gmap Z uio := filter (fun p => p.1 ∉ ws) sl.

Inductive round : system -> system -> Prop :=
  | read_ends t u u' x x' rd sl log :
      rd !! t = Some u -> read_round t u x = Done ((true, u'), x') ->
      round (mkSystem x rd sl log) (mkSystem x' (delete t rd) sl (Took (uio_resid u - uio_resid u') :: log))
  | read_sleeps t u u' x x' rd sl log :
      rd !! t = Some u -> read_round t u x = Done ((false, u'), x') ->
      round (mkSystem x rd sl log) (mkSystem x' (delete t rd) (<[t := u']> sl) (Took (uio_resid u - uio_resid u') :: log)).

(** Setting the count of [x] to [n] while the threads of [sl] sleep is careful unless it
    raises a count that is already above 0: the reader woken for what is there has not
    come to take it, and [semfs_wakeup] takes that for a semaphore without sleepers. *)
Definition careful_raise (x : semfs_sem) (n : Z) (sl : gmap Z uio) : Prop :=
  0 < sems_count x -> sl <> ∅ -> n <= sems_count x.

Section Steps.
(** Are only careful steps taken? *)
Variable careful : bool.

Inductive step : system -> system -> Prop :=
  | call_read t u x rd sl log :
      rd !! t = None -> sl !! t = None -> uio_ok u ->
      step (mkSystem x rd sl log) (mkSystem x (<[t := u]> rd) sl log)
  | write t u u' ws x x' rd sl log :
      rd !! t = None -> sl !! t = None -> uio_ok u -> write_round t u x = Done ((0, u', ws), x') ->
      (careful = true -> careful_raise x (sems_count x + uio_resid u) sl) ->
      step (mkSystem x rd sl log) (mkSystem x' (awake ws rd sl) (still ws sl) (Put (uio_resid u - uio_resid u') :: log))
  | truncate t n ws x x' rd sl log :
      rd !! t = None -> sl !! t = None -> 0 <= n < 2 ^ 32 -> truncate_round t n x = Done (ws, x') ->
      (careful = true -> careful_raise x n sl) ->
      step (mkSystem x rd sl log) (mkSystem x' (awake ws rd sl) (still ws sl) (Reset n :: log))
  | go s s' : round s s' -> step s s'.
End Steps.

(** ** The invariant *)

Record sys_inv (n : Z) (s : system) (wc : list Z) (c : Z) : Prop := mkInv {
  si_sem : sy_sem s = quiet_sem wc c true true;
  si_count : 0 <= c < 2 ^ 32;
  si_nodup : NoDup wc;
  si_asleep : forall t, t ∈ wc <-> is_Some (sy_asleep s !! t);
  si_apart : sy_reading s ##ₘ sy_asleep s;
  si_reading : forall t u, sy_reading s !! t = Some u -> uio_ok u;
  si_short : forall t u, sy_asleep s !! t = Some u -> uio_ok u /\ 0 < uio_resid u;
  si_log : balance n (sy_log s) = Some c }.

(** Nobody sleeps while there is something to take, but for one unit that a reader who is
    awake is going to take. *)
Definition wants (s : system) : Prop := exists t u, sy_reading s !! t = Some u /\ 0 < uio_resid u.
Definition none_forgotten (s : system) (c : Z) : Prop := sy_asleep s = ∅ \/ c = 0 \/ (c = 1 /\ wants s).

Lemma awake_lookup ws rd sl t :
  awake ws rd sl !! t = if decide (t ∈ ws) then match sl !! t with Some u => Some u | None => rd !! t end else rd !! t.
Proof.
  unfold awake. rewrite lookup_union, map_lookup_filter. destruct (sl !! t) as [u|]; cbn.
  - case_decide; cbn.
    + rewrite option_guard_True by done. cbn. by destruct (rd !! t).
    + rewrite option_guard_False by done. cbn. by destruct (rd !! t).
  - case_decide; by destruct (rd !! t).
Qed.

Lemma still_lookup ws sl t : still ws sl !! t = if decide (t ∈ ws) then None else sl !! t.
Proof.
  unfold still. rewrite map_lookup_filter. destruct (sl !! t) as [u|]; cbn; [|by case_decide].
  case_decide; [rewrite option_guard_False by (cbn; auto)|rewrite option_guard_True by done]; done.
Qed.

Lemma woken_parts c n wc :
  NoDup wc -> let w := woken_by c n wc in
  NoDup (snd w) /\ (forall t, t ∈ snd w <-> t ∈ wc /\ t ∉ fst w) /\ (forall t, t ∈ fst w -> t ∈ wc).
Proof.
  intros Hn. unfold woken_by. destruct ((c >? 0) || (n =? 0)); cbn; [|destruct (n =? 1); cbn].
  - split; [done|]. split; intros t; rewrite elem_of_nil; tauto.
  - destruct wc as [|x wc]; cbn; [split; [done|]; split; intros t; rewrite elem_of_nil; tauto|].
    apply NoDup_cons in Hn as [Hx Hn]. split; [done|]. split; intros t; rewrite ?list_elem_of_singleton, ?elem_of_cons; [|tauto].
    split; [intros Ht; split; [auto|by intros ->]|tauto].
  - split; [apply NoDup_nil_2|]. split; intros t; rewrite ?elem_of_nil; tauto.
Qed.

(** A new count, and the threads it wakes. *)
Lemma raise_inv n x rd sl log wc c c' log' :
  sys_inv n (mkSystem x rd sl log) wc c -> 0 <= c' < 2 ^ 32 -> balance n log' = Some c' ->
  let w := woken_by c c' wc in
  sys_inv n (mkSystem (quiet_sem (snd w) c' true true) (awake (fst w) rd sl) (still (fst w) sl) log') (snd w) c'.
Proof.
  intros H Hc Hlog w. pose proof H as [I1 I2 I3 I4 I5 I6 I7 I8]. cbn in *.
  destruct (woken_parts c c' wc I3) as (W1 & W2 & W3). fold w in W1, W2, W3. split; cbn; try done.
  - intros t. rewrite W2, I4, still_lookup. case_decide; [|tauto]. split; [tauto|]. by intros [? ?].
  - apply map_disjoint_spec. intros t u1 u2. rewrite awake_lookup, still_lookup. case_decide; [done|].
    intros Hr Hs. by eapply (map_disjoint_spec rd sl).
  - intros t u. rewrite awake_lookup. case_decide; [|apply I6]. destruct (sl !! t) as [v|] eqn:Hs; [|apply I6].
    intros [= <-]. by apply (I7 t).
  - intros t u. rewrite still_lookup. case_decide; [done|apply I7].
Qed.

Lemma raise_none_forgotten n x x' rd sl log log' wc c c' :
  sys_inv n (mkSystem x rd sl log) wc c -> none_forgotten (mkSystem x rd sl log) c -> 0 <= c' -> careful_raise x c' sl ->
  none_forgotten (mkSystem x' (awake (fst (woken_by c c' wc)) rd sl) (still (fst (woken_by c c' wc)) sl) log') c'.
Proof.
  intros H Hf Hc' Hcare. pose proof H as [I1 I2 I3 I4 I5 I6 I7 I8]. unfold none_forgotten, wants in *. cbn in *.
  destruct (decide (sl = ∅)) as [->|Hne].
  { left. apply map_empty. intros t. rewrite still_lookup, lookup_empty. by case_decide. }
  destruct Hf as [He|[->|(->&t&u&Ht&Hu)]]; [done| |].
  - destruct (Z.eqb_spec c' 0) as [|Hc0]; [by right; left|]. unfold woken_by. cbn [Z.gtb Z.compare orb].
    rewrite (proj2 (Z.eqb_neq c' 0)) by done. destruct (Z.eqb_spec c' 1) as [H1|_].
    + right. right. split; [done|]. destruct wc as [|t wc].
      { destruct Hne. apply map_empty. intros t. apply eq_None_not_Some. by intros ?%I4%not_elem_of_nil. }
      destruct (proj1 (I4 t)) as [u Hu]; [by left|]. exists t, u. cbn. rewrite awake_lookup, decide_True, Hu by (by left).
      split; [done|]. by apply (I7 t).
    + left. cbn. apply map_empty. intros t. rewrite still_lookup. case_decide as Ht; [done|]. apply eq_None_not_Some. by rewrite <- I4.
  - assert (Hle : c' <= 1) by (rewrite I1 in Hcare; by apply Hcare). destruct (Z.eqb_spec c' 0) as [|Hc0]; [by right; left|].
    right. right. split; [lia|]. exists t, u. rewrite awake_lookup. split; [|done]. case_decide; [|done].
    destruct (sl !! t) as [w|] eqn:Hs; [|done]. by destruct (map_disjoint_spec rd sl) as [Hd _]; destruct (Hd I5 t u w).
Qed.

(** ** Steps *)

Lemma took_resid u k : uio_resid u - uio_resid (took u k) = k.
Proof. cbn. lia. Qed.

(** A thread leaves those that are awake. *)
Lemma leave_inv n x rd sl log wc c t u k :
  sys_inv n (mkSystem x rd sl log) wc c -> rd !! t = Some u -> 0 <= k <= c ->
  sys_inv n (mkSystem (quiet_sem wc (c - k) true true) (delete t rd) sl (Took k :: log)) wc (c - k).
Proof.
  intros [I1 I2 I3 I4 I5 I6 I7 I8] Ht Hk. cbn in *. split; cbn; try done.
  - lia.
  - by apply map_disjoint_delete_l.
  - intros w v [_ Hw]%lookup_delete_Some. by eapply I6.
  - rewrite I8. cbn. by rewrite (proj2 (Z.leb_le _ _)) by lia.
Qed.

Lemma sleep_inv n x rd sl log wc c t u :
  sys_inv n (mkSystem x rd sl log) wc c -> rd !! t = Some u -> c < uio_resid u ->
  sys_inv n (mkSystem (quiet_sem (wc ++ [t]) 0 true true) (delete t rd) (<[t := took u c]> sl) (Took c :: log)) (wc ++ [t]) 0.
Proof.
  intros H Ht Hc. pose proof H as [I1 I2 I3 I4 I5 I6 I7 I8]. cbn in *.
  assert (Hs : sl !! t = None) by (by eapply map_disjoint_Some_l). pose proof (I6 _ _ Ht) as Hu. split; cbn; try done.
  - apply NoDup_app. split; [done|]. split; [|apply NoDup_singleton]. intros w Hw ->%list_elem_of_singleton.
    apply I4 in Hw as [? ?]. congruence.
  - intros w. rewrite elem_of_app, list_elem_of_singleton, I4, lookup_insert. case_decide; [subst; split; eauto|naive_solver].
  - apply map_disjoint_insert_r. split; [apply lookup_delete_eq|by apply map_disjoint_delete_l].
  - intros w v [_ Hw]%lookup_delete_Some. by eapply I6.
  - intros w v. rewrite lookup_insert. case_decide; [intros [= <-]|apply I7]. unfold uio_ok in *. cbn. lia.
  - rewrite I8. cbn. by rewrite (proj2 (Z.leb_le _ _)), Z.sub_diag by lia.
Qed.

Lemma semfs_round_inv n s s' wc c :
  sys_inv n s wc c -> round s s' ->
  exists wc' c', sys_inv n s' wc' c' /\ (none_forgotten s c -> none_forgotten s' c').
Proof.
  intros H Hr. destruct Hr as [t u u' x x' rd sl log Ht Hr|t u u' x x' rd sl log Ht Hr];
    pose proof (si_reading _ _ _ _ H _ _ Ht) as Hu; pose proof (si_sem _ _ _ _ H) as Hx; cbn in Hx; subst x;
    pose proof (si_count _ _ _ _ H) as Hc; rewrite read_round_eq in Hr by done; case_decide as Hle; try done;
    injection Hr as <- <-; rewrite took_resid.
  - exists wc, (c - uio_resid u). split; [eapply leave_inv; [done|done|destruct Hu; lia]|].
    destruct Hu as [Hu _]. intros [He|[->|(->&t2&u2&Ht2&Hu2)]]; [by left|right; left; lia|].
    destruct (Z.eq_dec (uio_resid u) 0) as [H0|H0]; [|right; left; lia]. right. right. split; [lia|]. exists t2, u2. cbn.
    rewrite lookup_delete_ne; [done|]. intros ->. cbn in Ht2. assert (u2 = u) by congruence. subst. lia.
  - exists (wc ++ [t]), 0. split; [apply (sleep_inv n _ rd sl log wc c t u H Ht); lia|]. by right; left.
Qed.

Lemma step_inv careful n s s' wc c :
  sys_inv n s wc c -> step careful s s' ->
  exists wc' c', sys_inv n s' wc' c' /\ (careful = true -> none_forgotten s c -> none_forgotten s' c').
Proof.
  intros H Hs. destruct Hs as [t u x rd sl log Hr Hsl Hu|t u u' ws x x' rd sl log Hr Hsl Hu Hw Hcare
                              |t k ws x x' rd sl log Hr Hsl Hk Hw Hcare|s s' Hr];
    [| | |by destruct (semfs_round_inv _ _ _ _ _ H Hr) as (wc' & c' & ? & ?); eauto].
  - exists wc, c. split.
    + destruct H as [I1 I2 I3 I4 I5 I6 I7 I8]. cbn in *. split; cbn; try done.
      * by apply map_disjoint_insert_l.
      * intros w v. rewrite lookup_insert. case_decide; [by intros [= <-]|apply I6].
    + intros _ [He|[Hc|(Hc&t2&u2&Ht2&Hu2)]]; [by left|by right; left|right; right]. split; [done|]. exists t2, u2. cbn in *.
      rewrite lookup_insert_ne; [done|]. congruence.
  - pose proof (si_sem _ _ _ _ H) as Hx. cbn in Hx. subst x. pose proof (si_count _ _ _ _ H) as Hc.
    destruct (decide (uio_resid u = 0)) as [H0|H0].
    + rewrite write_round_nothing in Hw by done. injection Hw as <- <- <-. rewrite Z.sub_diag.
      assert (He : awake [] rd sl = rd /\ still [] sl = sl).
      { split; apply map_eq; intros w; [rewrite awake_lookup|rewrite still_lookup]; by rewrite decide_False by apply not_elem_of_nil. }
      destruct He as [-> ->]. exists wc, c. split; [|done]. destruct H as [I1 I2 I3 I4 I5 I6 I7 I8]. cbn in *.
      split; cbn; try done. rewrite I8. cbn. f_equal. lia.
    + rewrite write_round_eq in Hw by (done || destruct Hu; lia). case_decide as Hlt; [|done]. injection Hw as <- <- <-.
      rewrite took_resid. eexists _, _. split.
      * eapply raise_inv; [exact H|destruct Hu; lia|]. pose proof (si_log _ _ _ _ H) as Hl. cbn in Hl |- *. by rewrite Hl.
      * intros Hca Hf. apply (raise_none_forgotten n _ _ rd sl log _ wc c (c + uio_resid u) H Hf); [destruct Hu; lia|]. by apply Hcare.
  - pose proof (si_sem _ _ _ _ H) as Hx. cbn in Hx. subst x. rewrite truncate_round_eq in Hw. injection Hw as <- <-.
    eexists _, _. split; [by eapply raise_inv|]. intros Hca Hf. apply (raise_none_forgotten n _ _ rd sl log _ wc c k H Hf); [lia|by apply Hcare].
Qed.

Lemma start_inv n : 0 <= n < 2 ^ 32 -> sys_inv n (start n) [] n.
Proof.
  intros Hn. split; cbn; try done; try apply NoDup_nil_2; try apply map_disjoint_empty_l.
  intros t. rewrite elem_of_nil, lookup_empty, is_Some_alt. done.
Qed.

Lemma semfs_reachable_inv careful n s :
  0 <= n < 2 ^ 32 -> rtc (step careful) (start n) s ->
  exists wc c, sys_inv n s wc c /\ (careful = true -> none_forgotten s c).
Proof.
  intros Hn Hs. assert (Hgen : forall s0, rtc (step careful) s0 s -> forall wc c, sys_inv n s0 wc c ->
      (careful = true -> none_forgotten s0 c) -> exists wc c, sys_inv n s wc c /\ (careful = true -> none_forgotten s c)).
  { clear Hs. intros s0 Hr. induction Hr as [s0|s0 s1 s2 H01 _ IH]; intros wc c H Hf; [by eauto|].
    destruct (step_inv _ _ _ _ _ _ H H01) as (wc' & c' & H' & Hf'). eapply IH; [exact H'|]. intros Hca. by apply Hf', Hf. }
  apply (Hgen _ Hs [] n); [by apply start_inv|]. by left.
Qed.

(** ** Rounds end, and go on as long as a reader is awake *)

Lemma round_shrinks s s' : round s s' -> (size (sy_reading s') < size (sy_reading s))%nat.
Proof.
  intros [t u u' x x' rd sl log Ht _|t u u' x x' rd sl log Ht _]; cbn;
    rewrite map_size_delete_Some by eauto; assert (size rd <> 0%nat) by (intros He%map_size_empty_inv; by subst rd); lia.
Qed.

Lemma round_terminates s : Acc (flip round) s.
Proof.
  remember (size (sy_reading s)) as k eqn:Hk. revert s Hk. induction k as [k IH] using lt_wf_ind. intros s ->.
  constructor. intros s' Hr. eapply IH; [by apply round_shrinks|done].
Qed.

Lemma round_progress n s wc c : sys_inv n s wc c -> nf round s -> sy_reading s = ∅.
Proof.
  intros H Hnf. apply map_empty. intros t. apply eq_None_not_Some. intros [u Ht]. apply Hnf.
  pose proof (si_reading _ _ _ _ H _ _ Ht) as Hu. pose proof (si_sem _ _ _ _ H) as Hx. pose proof (si_count _ _ _ _ H) as Hc.
  destruct s as [x rd sl log]. cbn in Ht, Hx. subst x. pose proof (read_round_eq t wc c true true u Hc Hu) as Hr.
  case_decide; eexists; [by eapply read_ends|by eapply read_sleeps].
Qed.

Lemma rounds_steps careful s s' : rtc round s s' -> rtc (step careful) s s'.
Proof. apply rtc_subrel. intros x y. apply go. Qed.

(** ** The theorems *)

(** The count is exact.  However readers, writers and truncations interleave, the
    count is what has been put in less what has been taken out since it was last
    set, nothing is taken that was not there, and it stays within 32 bits; a thread
    is awake or asleep, not both, and one that is asleep is short of something. *)
Theorem semfs_count_exact careful n s :
  0 <= n < 2 ^ 32 -> rtc (step careful) (start n) s ->
  balance n (sy_log s) = Some (sems_count (sy_sem s)) /\ 0 <= sems_count (sy_sem s) < 2 ^ 32 /\
  sy_reading s ##ₘ sy_asleep s /\
  forall t u, sy_asleep s !! t = Some u -> 0 < uio_resid u /\ t ∈ cv_wchan (sems_cv (sy_sem s)).
Proof.
  intros Hn Hs. destruct (semfs_reachable_inv _ _ _ Hn Hs) as (wc & c & [I1 I2 I3 I4 I5 I6 I7 I8] & _). rewrite I1. cbn.
  split; [done|]. split; [done|]. split; [done|]. intros t u Ht. split; [by eapply I7|]. apply I4. eauto.
Qed.

(** C20. No reader of a semaphore is forgotten, as long as no count that is above 0 is
    raised while a reader sleeps, that is, as long as a reader that has been woken takes
    what it was woken for before more is put in.  Any number of readers of any sizes may
    sleep, and be woken by writes and truncations of any sizes, of one unit too.  A thread
    that sleeps then does so because there is nothing to take, or one unit that a reader
    who is awake is going to take; the rounds of the readers that are awake come to an
    end, whatever their order, and when they have, nobody is awake in a read and whoever
    is left asleep has found the count at 0.  Without the condition this fails
    ([semfs_lost_wakeup]). *)
Theorem semfs_wakeups n s :
  0 <= n < 2 ^ 32 -> rtc (step true) (start n) s ->
  (forall t u, sy_asleep s !! t = Some u -> sems_count (sy_sem s) = 0 \/
     (sems_count (sy_sem s) = 1 /\ exists t' u', sy_reading s !! t' = Some u' /\ 0 < uio_resid u')) /\
  Acc (flip round) s /\
  (forall s', rtc round s s' -> nf round s' ->
     sy_reading s' = ∅ /\ (sy_asleep s' = ∅ \/ sems_count (sy_sem s') = 0)).
Proof.
  intros Hn Hs. split_and!; [|apply round_terminates|].
  - intros t u Ht. destruct (semfs_reachable_inv _ _ _ Hn Hs) as (wc & c & H & Hf). rewrite (si_sem _ _ _ _ H).
    destruct (Hf eq_refl) as [He|Hc]; [|done]. by rewrite He in Ht.
  - intros s' Hr Hnf. assert (Hs' : rtc (step true) (start n) s') by (etrans; [exact Hs|by apply rounds_steps]).
    destruct (semfs_reachable_inv _ _ _ Hn Hs') as (wc & c & H & Hf). rewrite (si_sem _ _ _ _ H).
    pose proof (round_progress _ _ _ _ H Hnf) as He. split; [done|]. destruct (Hf eq_refl) as [?|[?|(_&t&u&Ht&_)]]; [by left|by right|].
    by rewrite He in Ht.
Qed.

(** ** Runs *)

Inductive act := ToRead (t : Z) (u : uio) | ToWrite (t : Z) (u : uio) | Round (t : Z).

#[export] Instance uio_ok_dec u : Decision (uio_ok u).
Proof. unfold uio_ok. apply _. Defined.

Definition outside (t : Z) (s : system) : Prop := sy_reading s !! t = None /\ sy_asleep s !! t = None.
#[export] Instance outside_dec t s : Decision (outside t s).
Proof. unfold outside. destruct (sy_reading s !! t), (sy_asleep s !! t); (left + right); naive_solver. Defined.

#[export] Instance careful_raise_dec x n sl : Decision (careful_raise x n sl).
Proof. unfold careful_raise. apply _. Defined.

Definition act_step (careful : bool) (a : act) (s : system) : option system :=
  match a with
  | ToRead t u =>
      if decide (outside t s /\ uio_ok u) then Some (mkSystem (sy_sem s) (<[t := u]> (sy_reading s)) (sy_asleep s) (sy_log s)) else None
  | ToWrite t u =>
      if decide ((outside t s /\ uio_ok u) /\ (careful = true -> careful_raise (sy_sem s) (sems_count (sy_sem s) + uio_resid u) (sy_asleep s))) then
        match write_round t u (sy_sem s) with
        | Done ((0, u', ws), x') =>
            Some (mkSystem x' (awake ws (sy_reading s) (sy_asleep s)) (still ws (sy_asleep s)) (Put (uio_resid u - uio_resid u') :: sy_log s))
        | _ => None
        end
      else None
  | Round t =>
      match sy_reading s !! t with
      | None => None
      | Some u =>
          match read_round t u (sy_sem s) with
          | Done ((fin, u'), x') =>
              Some (mkSystem x' (delete t (sy_reading s)) (if fin : bool then sy_asleep s else <[t := u']> (sy_asleep s))
                      (Took (uio_resid u - uio_resid u') :: sy_log s))
          | _ => None
          end
      end
  end.

Fixpoint act_steps (careful : bool) (l : list act) (s : system) : option system :=
  match l with [] => Some s | a :: l => s ← act_step careful a s; act_steps careful l s end.

Lemma act_step_ok careful a s s' : act_step careful a s = Some s' -> step careful s s'.
Proof.
  destruct s as [x rd sl log]. destruct a as [t u|t u|t]; cbn.
  - case_decide as H; [|done]. intros [= <-]. destruct H as [[? ?] ?]. by constructor.
  - case_decide as H; [|done]. destruct H as [[[? ?] ?] ?]. destruct (write_round t u x) as [[[[[] u'] ws] x']| |] eqn:Hw; try done.
    intros [= <-]. by eapply write.
  - destruct (rd !! t) as [u|] eqn:Ht; [|done]. destruct (read_round t u x) as [[[[] u'] x']| |] eqn:Hr; try done; intros [= <-];
      apply go; [by eapply read_ends|by eapply read_sleeps].
Qed.

Lemma act_steps_ok careful l s s' : act_steps careful l s = Some s' -> rtc (step careful) s s'.
Proof.
  revert s. induction l as [|a l IH]; intros s; cbn; [intros [= <-]; apply rtc_refl|].
  destruct (act_step careful a s) as [s1|] eqn:Ha; [|done]. cbn. intros Hl. eapply rtc_l; [by eapply act_step_ok|by apply IH].
Qed.

Definition one_byte (rw : uio_rw) : uio := bytes_uio rw 1.

Definition two_waiters : list act :=
  [ToRead 1 (one_byte UIO_READ); Round 1; ToRead 2 (one_byte UIO_READ); Round 2;
   ToWrite 3 (one_byte UIO_WRITE); ToWrite 3 (one_byte UIO_WRITE); Round 1].

(** Otherwise one can be.  Two threads wait for a byte each; two bytes are written one
    after the other.  The first wakes one of them; the second finds the count at 1,
    because that thread has not run yet, and wakes nobody.  So the other thread
    sleeps on while there is a byte for it, with nobody left to take a step. *)
Theorem semfs_lost_wakeup : exists s,
  rtc (step false) (start 0) s /\ nf round s /\ sy_reading s = ∅ /\ sems_count (sy_sem s) = 1 /\
  sy_asleep s !! 2 = Some (one_byte UIO_READ).
Proof.
  destruct (act_steps false two_waiters (start 0)) as [s|] eqn:Hs; [|vm_compute in Hs; discriminate Hs]. exists s.
  split; [exact (act_steps_ok false two_waiters _ _ Hs)|]. vm_compute in Hs. injection Hs as <-. split; [|by vm_compute].
  intros [s' Hr]. inversion Hr as [t u u' x x' rd sl log Ht|t u u' x x' rd sl log Ht]; by vm_compute in Ht.
Qed.

(** ** Witnesses *)

(** The same two bytes, the second written when the first has been taken. *)
Definition in_turn : list act :=
  [ToRead 1 (one_byte UIO_READ); Round 1; ToRead 2 (one_byte UIO_READ); Round 2;
   ToWrite 3 (one_byte UIO_WRITE); Round 1; ToWrite 3 (one_byte UIO_WRITE); Round 2].

Lemma semfs_count_exact_witness : exists s,
  act_steps false two_waiters (start 0) = Some s /\ balance 0 (sy_log s) = Some (sems_count (sy_sem s)).
Proof.
  destruct (act_steps false two_waiters (start 0)) as [s|] eqn:Hs; [|vm_compute in Hs; discriminate Hs]. exists s.
  split; [reflexivity|].
  destruct (semfs_count_exact false 0 s) as [Hb _]; [lia|exact (act_steps_ok false two_waiters _ _ Hs)|exact Hb].
Defined.

Lemma semfs_wakeups_witness : exists s,
  act_steps true in_turn (start 0) = Some s /\ sy_reading s = ∅ /\ (sy_asleep s = ∅ \/ sems_count (sy_sem s) = 0).
Proof.
  destruct (act_steps true in_turn (start 0)) as [s|] eqn:Hs; [|vm_compute in Hs; discriminate Hs]. exists s.
  split; [reflexivity|].
  destruct (semfs_wakeups 0 s) as (_ & _ & Hend); [lia|exact (act_steps_ok true in_turn _ _ Hs)|].
  apply Hend; [apply rtc_refl|]. vm_compute in Hs. injection Hs as <-.
  intros [s' Hr]. inversion Hr as [t u u' x x' rd sl log Ht|t u u' x x' rd sl log Ht]; by vm_compute in Ht.
Defined.

(** ** Removing a semaphore while its vnode is reclaimed

    [semfs_remove] tests [sems_hasvnode] under the semaphore's lock, [semfs_reclaim]
    sets it, and tests [sems_linked], under the lock of the table.  One access of
    either is a step here; thread 1 removes the name (the directory's lock, which
    only it takes, is left out), thread 2 gives back the last reference. *)

Module Race.
(** [rc_sem] is [None] once it has been freed; [rc_entry] says whether the table still
    has it. *)
Record race := mkRace {
  rc_sem : option semfs_sem; rc_entry : bool; rc_table : lock; rc_remover : nat; rc_reclaimer : nat }.

Definition race_start : race := mkRace (Some (idle_sem 0 true true)) true new_lock 0 0.

(** An access to the semaphore, which must still be there. *)
Definition at_sem {A} (m : K semfs_sem A) (s : race) : outcome (A * race) :=
  x ← deref (rc_sem s); '(r, x) ← m x; mret (r, mkRace (Some x) (rc_entry s) (rc_table s) (rc_remover s) (rc_reclaimer s)).
Definition free_sem (t : Z) (s : race) : outcome race :=
  x ← deref (rc_sem s); semfs_sem_destroy t x;; mret (mkRace None (rc_entry s) (rc_table s) (rc_remover s) (rc_reclaimer s)).
Definition clear_entry (s : race) : race := mkRace (rc_sem s) false (rc_table s) (rc_remover s) (rc_reclaimer s).
Definition set_table (lk : lock) (s : race) : race := mkRace (rc_sem s) (rc_entry s) lk (rc_remover s) (rc_reclaimer s).
Definition lock_table (t : Z) (s : race) : outcome race := lk ← lock_acquire t (rc_table s); mret (set_table lk s).
Definition unlock_table (t : Z) (s : race) : outcome race := '(_, lk) ← lock_release t (rc_table s); mret (set_table lk s).
Definition remover_to (pc : nat) (s : race) : race := mkRace (rc_sem s) (rc_entry s) (rc_table s) pc (rc_reclaimer s).
Definition reclaimer_to (pc : nat) (s : race) : race := mkRace (rc_sem s) (rc_entry s) (rc_table s) (rc_remover s) pc.

Definition remover_step (s : race) : outcome race :=
  match rc_remover s with
  | 0%nat => '(_, s) ← at_sem (sem_acquire 1) s; mret (remover_to 1 s)
  | 1%nat => '(_, s) ← at_sem (b ← gets sems_linked; kassert b;; set_linked false) s; mret (remover_to 2 s)
  | 2%nat => '(b, s) ← at_sem (gets sems_hasvnode) s; mret (remover_to (if b : bool then 8 else 3) s)
  | 3%nat => s ← lock_table 1 s; mret (remover_to 4 s)
  | 4%nat => mret (remover_to 5 (clear_entry s))
  | 5%nat => s ← unlock_table 1 s; mret (remover_to 6 s)
  | 6%nat => '(_, s) ← at_sem (sem_release 1) s; mret (remover_to 7 s)
  | 7%nat => s ← free_sem 1 s; mret (remover_to 9 s)
  | 8%nat => '(_, s) ← at_sem (sem_release 1) s; mret (remover_to 9 s)
  | _ => Blocked
  end.

Definition reclaimer_step (s : race) : outcome race :=
  match rc_reclaimer s with
  | 0%nat => s ← lock_table 2 s; mret (reclaimer_to 1 s)
  | 1%nat =>
      KASSERT (rc_entry s);;
      '(_, s) ← at_sem (b ← gets sems_hasvnode; kassert b;; set_hasvnode false) s; mret (reclaimer_to 2 s)
  | 2%nat => '(b, s) ← at_sem (gets sems_linked) s; mret (reclaimer_to (if b : bool then 5 else 3) s)
  | 3%nat => mret (reclaimer_to 4 (clear_entry s))
  | 4%nat => s ← free_sem 2 s; mret (reclaimer_to 5 s)
  | 5%nat => s ← unlock_table 2 s; mret (reclaimer_to 6 s)
  | _ => Blocked
  end.

(** [true] is a step of the remover; a thread that cannot go on waits. *)
Fixpoint run_race (schedule : list bool) (s : race) : outcome race :=
  match schedule with
  | [] => Done s
  | b :: schedule =>
      match (if b then remover_step s else reclaimer_step s) with
      | Done s => run_race schedule s
      | Panic => Panic
      | Blocked => run_race schedule s
      end
  end.

(** The semaphore has been freed, once, and the table does not point to it. *)
Definition cleaned_up (o : outcome race) : Prop :=
  match o with Done s => rc_sem s = None /\ rc_entry s = false /\ rc_remover s = 9%nat /\ rc_reclaimer s = 6%nat | _ => False end.

Definition removes (k : nat) : list bool := replicate k true.
Definition reclaims (k : nat) : list bool := replicate k false.

(** One after the other the two calls free the semaphore once, whichever is first; so
    they do when the second starts while the first is still in its last steps.  But
    when each has done its half of the handshake before the other's test, both find
    that they are the last: the one frees the semaphore that the other is using. *)
Theorem semfs_remove_race :
  cleaned_up (run_race (removes 9 ++ reclaims 6) race_start) /\
  cleaned_up (run_race (reclaims 6 ++ removes 9) race_start) /\
  cleaned_up (run_race (removes 3 ++ reclaims 1 ++ removes 1 ++ reclaims 5) race_start) /\
  run_race (removes 2 ++ reclaims 5 ++ removes 1) race_start = Panic /\
  run_race (reclaims 2 ++ removes 4 ++ reclaims 4 ++ removes 4) race_start = Panic.
Proof. by vm_compute. Qed.
End Race.
