(* ===== verification/Lhd.v ===== *)
(** * dev/lamebus/lhd.c: the disk, and the block I/O of fs/sfs/sfs_io.c on it

    The drive hardware is not part of the repository.  It is described by what
    its registers report: [lh_status] lists the status codes of the operations to
    come (an operation for which no code is listed succeeds), and on [LHD_OK], and
    only then, the sector is transferred.  The semaphores [lh_clear] and [lh_done]
    serialise requests, of which there is one at a time here: SFS holds the VFS
    big lock. *)

From S2P Require Import Prelude CopyInOut Uio.

Definition LHD_OK : Z := 4.
Definition LHD_INVSECT : Z := 12.
Definition LHD_MEDIA : Z := 20.
Definition LHD_STATEMASK : Z := 29.
Definition LHD_SECTSIZE : Z := 512.

Record lhd := mkLhd {
  d_blocks : Z;                  (* sectors on the drive *)
  lh_sectors : gmap Z (list Z);  (* their contents *)
  lh_status : list Z }.          (* status codes the drive will report *)

Definition EAGAIN : Z := 4.

Definition lhd_code_to_errno (code : Z) : Z :=
  let s := Z.land code LHD_STATEMASK in
  if s =? LHD_OK then 0 else
  if s =? LHD_INVSECT then EINVAL else
  if s =? LHD_MEDIA then EIO else EAGAIN.

(** One operation of the drive on its buffer: the result that [lhd_irq] saves
    for the waiting thread, the buffer and the drive afterwards. *)
Definition lhd_operate (d : lhd) (sector : Z) (iswrite : bool) (buf : list Z)
    : Z * list Z * lhd :=
  let code := match lh_status d with [] => LHD_OK | c :: _ => c end in
  let d1 := mkLhd (d_blocks d) (lh_sectors d) (tail (lh_status d)) in
  match lh_sectors d !! sector with
  | None => (lhd_code_to_errno LHD_INVSECT, buf, d1)
  | Some data =>
      let result := lhd_code_to_errno code in
      if result =? 0 then
        if iswrite then (0, buf, mkLhd (d_blocks d) (<[sector := buf]> (lh_sectors d)) (tail (lh_status d)))
        else (0, data, d1)
      else (result, buf, d1)
  end.

(** The loop over the sectors of a request.  The buffer on the card is filled
    before it is used, by [uiomove] or by the drive, so what it held before does
    not matter. *)
Fixpoint lhd_loop (k : nat) (sector : Z) (d : lhd) (u : uio) : outcome (Z * lhd * uio) :=
  match k with
  | O => mret (0, d, u)
  | S k =>
      let lh_buf := zeros (Z.to_nat LHD_SECTSIZE) in
      match uio_rwflag u with
      | UIO_WRITE =>
          '(result, lh_buf, u) ← uiomove lh_buf LHD_SECTSIZE u;
          if negb (result =? 0) then mret (result, d, u) else
          let '(result, _, d) := lhd_operate d sector true lh_buf in
          if negb (result =? 0) then mret (result, d, u)
          else lhd_loop k (u32 (sector + 1)) d u
      | UIO_READ =>
          let '(result, lh_buf, d) := lhd_operate d sector false lh_buf in
          if negb (result =? 0) then mret (result, d, u) else
          '(result, _, u) ← uiomove lh_buf LHD_SECTSIZE u;
          if negb (result =? 0) then mret (result, d, u)
          else lhd_loop k (u32 (sector + 1)) d u
      end
  end.

Definition lhd_io (d : lhd) (u : uio) : outcome (Z * lhd * uio) :=
  let sector := u32 (Z.quot (uio_offset u) LHD_SECTSIZE) in
  let sectoff := u32 (Z.rem (uio_offset u) LHD_SECTSIZE) in
  let len := uio_resid u / LHD_SECTSIZE in
  let lenoff := uio_resid u mod LHD_SECTSIZE in
  if negb (sectoff =? 0) || negb (lenoff =? 0) then mret (EINVAL, d, u) else
  if u32 (sector + len) >? d_blocks d then mret (EINVAL, d, u) else
  lhd_loop (Z.to_nat len) sector d u.

(** ** sfs_io.c: block I/O with retries *)

Definition SFS_BLOCKSIZE : Z := 512.

(** [retries] is how many more times [EIO] leads to a retry (10 - [tries]). *)
Fixpoint sfs_rw_retry (retries : nat) (d : lhd) (u : uio) : outcome (Z * lhd * uio) :=
  '(result, d, u) ← lhd_io d u;
  if result =? EINVAL then Panic else
  if result =? EIO then
    match retries with
    | O => mret (result, d, u)
    | S retries => sfs_rw_retry retries d u
    end
  else mret (result, d, u).

Definition sfs_rwblock (d : lhd) (u : uio) : outcome (Z * lhd * uio) := sfs_rw_retry 10 d u.

(** [SFSUIO]. *)
Definition SFSUIO (data : list Z) (block : Z) (rw : uio_rw) : uio :=
  uio_kinit data SFS_BLOCKSIZE (block * SFS_BLOCKSIZE) rw.

(** [data] is the caller's buffer of [SFS_BLOCKSIZE] bytes. *)
Definition sfs_readblock_dev (d : lhd) (block : Z) (data : list Z) : outcome (Z * lhd * list Z) :=
  KASSERT (Z.of_nat (length data) =? SFS_BLOCKSIZE);;
  '(result, d, u) ← sfs_rwblock d (SFSUIO data block UIO_READ);
  mret (result, d, uio_mem u).

Definition sfs_writeblock_dev (d : lhd) (block : Z) (data : list Z) : outcome (Z * lhd) :=
  KASSERT (Z.of_nat (length data) =? SFS_BLOCKSIZE);;
  '(result, d, _) ← sfs_rwblock d (SFSUIO data block UIO_WRITE);
  mret (result, d).

(** ** A drive in order *)

Definition is_block (b : list Z) : Prop := length b = 512%nat /\ bytes b.

Record lhd_wf (d : lhd) : Prop := {
  lw_size : 0 <= d_blocks d < 2 ^ 31;
  lw_sectors : forall i, 0 <= i < d_blocks d -> exists b, lh_sectors d !! i = Some b /\ is_block b }.

Definition sector (d : lhd) (i : Z) : list Z := default [] (lh_sectors d !! i).

Definition set_sector (d : lhd) (i : Z) (b : list Z) : lhd :=
  mkLhd (d_blocks d) (<[i := b]> (lh_sectors d)) (lh_status d).

(** The drive without its next status code. *)
Definition next_status (d : lhd) : lhd := mkLhd (d_blocks d) (lh_sectors d) (tail (lh_status d)).

Lemma sector_wf d i : lhd_wf d -> 0 <= i < d_blocks d -> lh_sectors d !! i = Some (sector d i) /\ is_block (sector d i).
Proof. intros H Hi. destruct (lw_sectors _ H i Hi) as (b & Hb & Hbl). unfold sector. by rewrite Hb. Qed.

Lemma sector_set_eq d i b : sector (set_sector d i b) i = b.
Proof. unfold sector; cbn. by rewrite lookup_insert_eq. Qed.

Lemma sector_set_ne d i j b : i <> j -> sector (set_sector d i b) j = sector d j.
Proof. intros. unfold sector; cbn. by rewrite lookup_insert_ne. Qed.

Lemma set_sector_wf d i b : lhd_wf d -> is_block b -> lhd_wf (set_sector d i b).
Proof.
  intros [H1 H2] Hb. split; [done|]. intros j Hj. cbn.
  rewrite lookup_insert. case_decide; [eauto|by apply H2].
Qed.

Lemma next_status_wf d : lhd_wf d -> lhd_wf (next_status d).
Proof. intros [H1 H2]. by split. Qed.

Lemma next_status_nil d : lh_status d = [] -> next_status d = d.
Proof. destruct d; cbn. by intros ->. Qed.

(** ** One-sector requests *)

(** The request [u] is for the whole sector [i] and has its memory. *)
Record one_sector (u : uio) (i : Z) : Prop := {
  os_wf : uio_wf u;
  os_off : uio_offset u = i * 512;
  os_resid : uio_resid u = 512 }.

Lemma lhd_io_one d u i :
  lhd_wf d -> one_sector u i -> 0 <= i < d_blocks d ->
  lhd_io d u = lhd_loop 1 i d u.
Proof.
  intros [Hd _] [Hw Ho Hr] Hi. unfold lhd_io, LHD_SECTSIZE. rewrite Ho, Hr.
  rewrite Z.quot_mul, Z.rem_mul by lia. rewrite (u32_small i) by lia.
  replace (u32 0) with 0 by done. cbn [negb Z.eqb orb]. replace (512 / 512) with 1 by done.
  replace (512 mod 512) with 0 by done. cbn [negb Z.eqb orb].
  rewrite u32_small, Z.gtb_ltb by lia. by rewrite (proj2 (Z.ltb_ge _ _)) by lia.
Qed.

(** A read whose status is [LHD_OK]. *)
Lemma lhd_io_read_ok d u i :
  lhd_wf d -> one_sector u i -> 0 <= i < d_blocks d -> uio_rwflag u = UIO_READ ->
  hd LHD_OK (lh_status d) = LHD_OK ->
  exists u', lhd_io d u = Done (0, next_status d, u') /\ uio_step u 512 (sector d i) u'.
Proof.
  intros Hd Hu Hi Hrw Hst. rewrite (lhd_io_one d u i) by done. cbn [lhd_loop].
  rewrite Hrw. destruct (sector_wf d i Hd Hi) as [Hs [Hl Hb]]. unfold lhd_operate. rewrite Hs.
  assert (Hc : lhd_code_to_errno (match lh_status d with [] => LHD_OK | c :: _ => c end) = 0).
  { destruct (lh_status d); cbn in Hst; by subst. }
  rewrite Hc. cbn [Z.eqb negb].
  destruct (uiomove_ok (sector d i) LHD_SECTSIZE u) as (u' & He & Hstep);
    [apply Hu|unfold LHD_SECTSIZE; lia|rewrite (os_resid _ _ Hu); unfold LHD_SECTSIZE; lia|].
  rewrite Hrw in He, Hstep. rewrite He. exists u'. split; [done|].
  rewrite (os_resid _ _ Hu) in Hstep. unfold LHD_SECTSIZE in Hstep.
  replace (Z.to_nat (Z.min 512 512)) with 512%nat in Hstep by lia.
  by rewrite firstn_all2 in Hstep by lia.
Qed.

(** A media error: a read leaves the request as it was, a write has already
    consumed it. *)
Lemma lhd_io_read_media d u i :
  lhd_wf d -> one_sector u i -> 0 <= i < d_blocks d -> uio_rwflag u = UIO_READ ->
  hd LHD_OK (lh_status d) = LHD_MEDIA ->
  lhd_io d u = Done (EIO, next_status d, u).
Proof.
  intros Hd Hu Hi Hrw Hst. rewrite (lhd_io_one d u i) by done. cbn [lhd_loop].
  rewrite Hrw. destruct (sector_wf d i Hd Hi) as [Hs _]. unfold lhd_operate. rewrite Hs.
  unfold next_status. destruct (lh_status d) as [|c l]; cbn in Hst; [discriminate|]. by subst c.
Qed.

Lemma lhd_io_write d u i :
  lhd_wf d -> one_sector u i -> 0 <= i < d_blocks d -> uio_rwflag u = UIO_WRITE ->
  exists u', uio_step u 512 (take 512 (uio_data u)) u' /\
    (hd LHD_OK (lh_status d) = LHD_OK ->
       lhd_io d u = Done (0, set_sector (next_status d) i (take 512 (uio_data u)), u')) /\
    (hd LHD_OK (lh_status d) = LHD_MEDIA -> lhd_io d u = Done (EIO, next_status d, u')).
Proof.
  intros Hd Hu Hi Hrw. rewrite (lhd_io_one d u i) by done. cbn [lhd_loop]. rewrite Hrw.
  destruct (uiomove_ok (zeros 512) LHD_SECTSIZE u) as (u' & He & Hstep);
    [apply Hu|unfold LHD_SECTSIZE; rewrite length_zeros; lia
    |rewrite (os_resid _ _ Hu); unfold LHD_SECTSIZE; lia|].
  rewrite Hrw in He, Hstep. rewrite (os_resid _ _ Hu) in He, Hstep. unfold LHD_SECTSIZE in *.
  replace (Z.to_nat (Z.min 512 512)) with 512%nat in * by lia.
  exists u'. split; [exact Hstep|].
  change (Z.to_nat 512) with 512%nat. rewrite He. cbn [mbind outcome_bind Z.eqb negb].
  assert (Hl : length (take 512 (uio_data u)) = 512%nat).
  { rewrite length_take. pose proof (uw_resid _ (os_wf _ _ Hu)). rewrite (os_resid _ _ Hu) in *. lia. }
  rewrite splice_all by (rewrite length_zeros; done).
  destruct (sector_wf d i Hd Hi) as [Hs _]. unfold lhd_operate. rewrite Hs.
  split; intros Hst; (destruct (lh_status d) as [|c l] eqn:E; cbn in Hst; [|subst c]);
    try discriminate; cbn; unfold set_sector, next_status; rewrite ?E; done.
Qed.

(** ** Requests through the retry loop *)

Lemma SFSUIO_one data block rw :
  length data = 512%nat -> one_sector (SFSUIO data block rw) block.
Proof.
  intros Hl. unfold SFSUIO, SFS_BLOCKSIZE. split; cbn; try done.
  replace 512 with (Z.of_nat (length data)) at 1 by lia. apply uio_kinit_wf. lia.
Qed.

Lemma SFSUIO_data data block rw : length data = 512%nat -> uio_data (SFSUIO data block rw) = data.
Proof.
  intros Hl. unfold SFSUIO, SFS_BLOCKSIZE.
  replace 512 with (Z.of_nat (length data)) at 1 by lia. apply uio_kinit_data.
Qed.

Lemma SFSUIO_mem data block rw d u' :
  length data = 512%nat -> uio_step (SFSUIO data block rw) 512 d u' -> uio_mem u' = d.
Proof.
  intros Hl Hst. unfold uio_mem. rewrite (us_moved _ _ _ _ Hst), (us_data _ _ _ _ Hst).
  rewrite SFSUIO_data, skipn_all2 by lia. by rewrite app_nil_r.
Qed.

(** The next [n] operations report media errors and the one after succeeds. *)
Definition media_errors (n : nat) (d : lhd) : Prop :=
  exists rest, lh_status d = replicate n LHD_MEDIA ++ rest /\ hd LHD_OK rest = LHD_OK.

Fixpoint skip_status (n : nat) (d : lhd) : lhd :=
  match n with O => d | S n => skip_status n (next_status d) end.

Lemma skip_status_sectors n d :
  lh_sectors (skip_status n d) = lh_sectors d /\ d_blocks (skip_status n d) = d_blocks d.
Proof. revert d. induction n as [|n IH]; intros d; [done|]. cbn. by destruct (IH (next_status d)). Qed.

Lemma rw_retry_read d u i n r :
  lhd_wf d -> one_sector u i -> 0 <= i < d_blocks d -> uio_rwflag u = UIO_READ ->
  media_errors n d -> (n <= r)%nat ->
  exists u', sfs_rw_retry r d u = Done (0, skip_status (S n) d, u') /\
             uio_step u 512 (sector d i) u'.
Proof.
  revert d r. induction n as [|n IH]; intros d r Hd Hu Hi Hrw (rest & Hs & Hr) Hn.
  - destruct (lhd_io_read_ok d u i) as (u' & He & Hst); [done..|by rewrite Hs|].
    exists u'. split; [|done]. destruct r; cbn [sfs_rw_retry]; by rewrite He.
  - destruct r as [|r]; [lia|]. cbn [sfs_rw_retry].
    rewrite (lhd_io_read_media d u i) by (done || by rewrite Hs).
    cbn [mbind outcome_bind]. change (EIO =? EINVAL) with false. change (EIO =? EIO) with true. cbn [negb].
    destruct (IH (next_status d) r) as (u' & He & Hst);
      [by apply next_status_wf|done|done|done| |lia|by exists u'].
    exists rest. cbn. by rewrite Hs.
Qed.

Lemma rw_retry_read_fail d u i r :
  lhd_wf d -> one_sector u i -> 0 <= i < d_blocks d -> uio_rwflag u = UIO_READ ->
  take (S r) (lh_status d) = replicate (S r) LHD_MEDIA ->
  sfs_rw_retry r d u = Done (EIO, skip_status (S r) d, u).
Proof.
  revert d. induction r as [|r IH]; intros d Hd Hu Hi Hrw Hs; cbn [sfs_rw_retry];
    (destruct (lh_status d) as [|c l] eqn:El; [discriminate|]); cbn in Hs;
    assert (c = LHD_MEDIA) as -> by congruence; apply (f_equal tail) in Hs; cbn in Hs;
    rewrite (lhd_io_read_media d u i) by (done || by rewrite El).
  - done.
  - cbn [mbind outcome_bind]. change (EIO =? EINVAL) with false. change (EIO =? EIO) with true. cbn [negb].
    rewrite IH; [done|by apply next_status_wf|done|done|done|]. unfold next_status; cbn. by rewrite El.
Qed.

(** *** Without errors *)

Lemma readblock_dev_ok d i data :
  lhd_wf d -> lh_status d = [] -> 0 <= i < d_blocks d -> length data = 512%nat ->
  sfs_readblock_dev d i data = Done (0, d, sector d i).
Proof.
  intros Hd Hs Hi Hl. unfold sfs_readblock_dev, sfs_rwblock. rewrite Hl. cbn [KASSERT mbind outcome_bind].
  destruct (rw_retry_read d (SFSUIO data i UIO_READ) i 0 10) as (u' & He & Hst);
    [done|by apply SFSUIO_one|done|done| |lia|].
  - exists []. by rewrite Hs.
  - rewrite He. cbn [skip_status mbind outcome_bind]. rewrite next_status_nil by done.
    by rewrite (SFSUIO_mem _ _ _ _ _ Hl Hst).
Qed.

Lemma writeblock_dev_ok d i data :
  lhd_wf d -> lh_status d = [] -> 0 <= i < d_blocks d -> length data = 512%nat ->
  sfs_writeblock_dev d i data = Done (0, set_sector d i data).
Proof.
  intros Hd Hs Hi Hl. unfold sfs_writeblock_dev, sfs_rwblock. rewrite Hl. cbn [KASSERT mbind outcome_bind].
  destruct (lhd_io_write d (SFSUIO data i UIO_WRITE) i) as (u' & _ & Hok & _);
    [done|by apply SFSUIO_one|done|done|].
  cbn [sfs_rw_retry]. rewrite Hok by by rewrite Hs.
  rewrite SFSUIO_data, firstn_all2 by lia. by rewrite next_status_nil.
Qed.

(** ** The theorems *)

(** A block read survives up to ten media errors in a row: the eleventh try
    is made and returns the sector.  With eleven errors [EIO] is reported and the
    disk is unchanged either way. *)
Theorem sfs_readblock_retries d i data n :
  lhd_wf d -> 0 <= i < d_blocks d -> length data = 512%nat ->
  ((n <= 10)%nat -> media_errors n d ->
     exists d', sfs_readblock_dev d i data = Done (0, d', sector d i) /\
       lh_sectors d' = lh_sectors d) /\
  (take 11 (lh_status d) = replicate 11 LHD_MEDIA ->
     exists d', sfs_readblock_dev d i data = Done (EIO, d', data) /\
       lh_sectors d' = lh_sectors d).
Proof.
  intros Hd Hi Hl. unfold sfs_readblock_dev, sfs_rwblock. rewrite Hl. cbn [KASSERT mbind outcome_bind].
  split.
  - intros Hn Hm. destruct (rw_retry_read d (SFSUIO data i UIO_READ) i n 10) as (u' & He & Hst);
      [done|by apply SFSUIO_one|done..|].
    rewrite He. eexists; split; [cbn; by rewrite (SFSUIO_mem _ _ _ _ _ Hl Hst)|].
    apply (skip_status_sectors (S n)).
  - intros Hm. rewrite (rw_retry_read_fail d _ i) by (done || by apply SFSUIO_one).
    eexists; split; [|apply (skip_status_sectors 11)]. cbn [mbind outcome_bind].
    do 3 f_equal. unfold uio_mem. by rewrite SFSUIO_data.
Qed.

(** A block write that meets one media error is lost, and reported as done.
    The failed attempt has already consumed the request ([uiomove] ran before the
    drive did), so the retry transfers no sector and returns 0: [sfs_writeblock]
    returns 0 and the disk still holds the old contents. *)
Theorem sfs_writeblock_lost d i data :
  lhd_wf d -> 0 <= i -> i + 1 < d_blocks d -> length data = 512%nat ->
  hd LHD_OK (lh_status d) = LHD_MEDIA ->
  exists d', sfs_writeblock_dev d i data = Done (0, d') /\ lh_sectors d' = lh_sectors d.
Proof.
  intros Hd Hi0 Hi Hl Hs. unfold sfs_writeblock_dev, sfs_rwblock. rewrite Hl. cbn [KASSERT mbind outcome_bind].
  destruct (lhd_io_write d (SFSUIO data i UIO_WRITE) i) as (u' & Hst & _ & Hm);
    [done|by apply SFSUIO_one|lia|done|].
  exists (next_status d). split; [|done]. pose proof (lw_size _ Hd).
  cbn [sfs_rw_retry]. rewrite (Hm Hs). cbn [mbind outcome_bind].
  change (EIO =? EINVAL) with false. change (EIO =? EIO) with true. cbn [negb].
  assert (Ho : uio_offset u' = (i + 1) * 512).
  { rewrite (us_off _ _ _ _ Hst). unfold SFSUIO, SFS_BLOCKSIZE; cbn. lia. }
  assert (Hr : uio_resid u' = 0).
  { rewrite (us_resid _ _ _ _ Hst). unfold SFSUIO, SFS_BLOCKSIZE; cbn. lia. }
  unfold lhd_io, LHD_SECTSIZE. rewrite Ho, Hr, Z.quot_mul, Z.rem_mul by lia.
  replace (u32 0) with 0 by done. cbn [negb Z.eqb orb Z.modulo Z.div Z.div_eucl].
  rewrite Z.add_0_r, !(u32_small (i + 1)) by lia.
  rewrite Z.gtb_ltb, (proj2 (Z.ltb_ge _ _)) by (cbn; lia). done.
Qed.

(** A drive with four sectors whose next operations fail. *)
Definition example_lhd (status : list Z) : lhd :=
  mkLhd 4 (list_to_map (map (fun i => (i, replicate 512 i)) [0; 1; 2; 3])) status.

Lemma example_lhd_wf status : lhd_wf (example_lhd status).
Proof.
  split; [cbn; lia|]. intros i Hi. cbn in Hi.
  assert (Hc : i = 0 \/ i = 1 \/ i = 2 \/ i = 3) by lia.
  exists (replicate 512 i). split; [by destruct Hc as [?|[?|[?|?]]]; subst|].
  split; [apply length_replicate|]. apply Forall_replicate. unfold is_byte. lia.
Defined.

Lemma sfs_readblock_retries_witness :
  exists d', sfs_readblock_dev (example_lhd [LHD_MEDIA; LHD_MEDIA]) 2 (zeros 512)
     = Done (0, d', sector (example_lhd []) 2) /\ lh_sectors d' = lh_sectors (example_lhd []).
Proof.
  apply (proj1 (sfs_readblock_retries (example_lhd [LHD_MEDIA; LHD_MEDIA]) 2 (zeros 512) 2
    (example_lhd_wf _) ltac:(cbn; lia) eq_refl)); [lia|].
  by exists [].
Defined.

Lemma sfs_writeblock_lost_witness :
  exists d', sfs_writeblock_dev (example_lhd [LHD_MEDIA]) 2 (zeros 512) = Done (0, d') /\
    lh_sectors d' = lh_sectors (example_lhd [LHD_MEDIA]).
Proof.
  apply (sfs_writeblock_lost (example_lhd [LHD_MEDIA]) 2 (zeros 512));
    [apply example_lhd_wf|lia|cbn; lia|reflexivity|reflexivity].
Defined.
