(* ===== verification/Sfs.v ===== *)
(** * SFS: on-disk structures, block allocation and block mapping

    kern/sfs.h, sfs.h, sfs_balloc.c, sfs_bmap.c.  An [sfs_vnode] is passed along
    with the file system it belongs to; the VFS big lock is held throughout, so
    the static I/O buffers of the code have one user at a time and are local
    here. *)

From S2P Require Import Prelude CopyInOut Uio Bitmap Lhd.

Definition SFS_MAGIC : Z := 2880303105. (* 0xabadf001 *)
Definition SFS_NDIRECT : Z := 15.
Definition SFS_NINDIRECT : Z := 1.
Definition SFS_DBPERIDB : Z := 128.
Definition SFS_NAMELEN : Z := 60.
Definition SFS_SUPER_BLOCK : Z := 0.
Definition SFS_FREEMAP_START : Z := 2.
Definition SFS_NOINO : Z := 0.
Definition SFS_ROOTDIR_INO : Z := 1.
Definition SFS_BITSPERBLOCK : Z := 4096.
Definition SFS_TYPE_INVAL : Z := 0.
Definition SFS_TYPE_FILE : Z := 1.
Definition SFS_TYPE_DIR : Z := 2.

Record sfs_superblock := mkSuper {
  sb_magic : Z;
  sb_nblocks : Z;
  sb_volname : list Z;
  sb_reserved : list Z }.

Record sfs_dinode := mkDinode {
  sfi_size : Z;
  sfi_type : Z;
  sfi_linkcount : Z;
  sfi_direct : list Z;
  sfi_indirect : Z;
  sfi_waste : list Z }.

Record sfs_vnode := mkSv {
  sv_i : sfs_dinode;
  sv_ino : Z;
  sv_dirty : bool }.

Record sfs_fs := mkFs {
  sfs_sb : sfs_superblock;
  sfs_superdirty : bool;
  sfs_device : lhd;
  sfs_freemap : bitmap;
  sfs_freemapdirty : bool }.

(** Assignments to the fields. *)
Definition set_device (fs : sfs_fs) (d : lhd) : sfs_fs :=
  mkFs (sfs_sb fs) (sfs_superdirty fs) d (sfs_freemap fs) (sfs_freemapdirty fs).
Definition set_freemap (fs : sfs_fs) (fm : bitmap) (dirty : bool) : sfs_fs :=
  mkFs (sfs_sb fs) (sfs_superdirty fs) (sfs_device fs) fm dirty.
Definition set_direct (sv : sfs_vnode) (i : Z) (block : Z) : sfs_vnode :=
  let di := sv_i sv in
  mkSv (mkDinode (sfi_size di) (sfi_type di) (sfi_linkcount di)
          (<[Z.to_nat i := block]> (sfi_direct di)) (sfi_indirect di) (sfi_waste di)) (sv_ino sv) true.
Definition set_indirect (sv : sfs_vnode) (block : Z) : sfs_vnode :=
  let di := sv_i sv in
  mkSv (mkDinode (sfi_size di) (sfi_type di) (sfi_linkcount di) (sfi_direct di) block (sfi_waste di))
    (sv_ino sv) true.
Definition set_size (sv : sfs_vnode) (size : Z) : sfs_vnode :=
  let di := sv_i sv in
  mkSv (mkDinode size (sfi_type di) (sfi_linkcount di) (sfi_direct di) (sfi_indirect di) (sfi_waste di))
    (sv_ino sv) true.

Definition sfs_readblock (fs : sfs_fs) (block : Z) (data : list Z) : outcome (Z * sfs_fs * list Z) :=
  '(result, d, data) ← sfs_readblock_dev (sfs_device fs) block data;
  mret (result, set_device fs d, data).

Definition sfs_writeblock (fs : sfs_fs) (block : Z) (data : list Z) : outcome (Z * sfs_fs) :=
  '(result, d) ← sfs_writeblock_dev (sfs_device fs) block data;
  mret (result, set_device fs d).

(** ** sfs_balloc.c *)

Definition sfs_clearblock (fs : sfs_fs) (block : Z) : outcome (Z * sfs_fs) :=
  sfs_writeblock fs block (zeros (Z.to_nat SFS_BLOCKSIZE)).

Definition sfs_balloc (fs : sfs_fs) : outcome (res Z * sfs_fs) :=
  r ← bitmap_alloc (sfs_freemap fs);
  match r with
  | Err e => mret (Err e, fs)
  | Ok (diskblock, fm) =>
      let fs := set_freemap fs fm true in
      if diskblock >=? sb_nblocks (sfs_sb fs) then Panic else
      '(result, fs) ← sfs_clearblock fs diskblock;
      if negb (result =? 0) then
        fm ← bitmap_unmark (sfs_freemap fs) diskblock;
        mret (Err result, set_freemap fs fm (sfs_freemapdirty fs))
      else mret (Ok diskblock, fs)
  end.

Definition sfs_bfree (fs : sfs_fs) (diskblock : Z) : outcome sfs_fs :=
  fm ← bitmap_unmark (sfs_freemap fs) diskblock;
  mret (set_freemap fs fm true).

Definition sfs_bused (fs : sfs_fs) (diskblock : Z) : outcome Z :=
  if diskblock >=? sb_nblocks (sfs_sb fs) then Panic
  else bitmap_isset (sfs_freemap fs) diskblock.

(** ** sfs_bmap.c *)

(** The check before a block is handed back. *)
Definition check_used (fs : sfs_fs) (block : Z) : outcome unit :=
  if block =? 0 then mret () else
  r ← sfs_bused fs block;
  if r =? 0 then Panic else mret ().

Definition sfs_bmap (fs : sfs_fs) (sv : sfs_vnode) (fileblock : Z) (doalloc : bool)
    : outcome (res Z * sfs_fs * sfs_vnode) :=
  if fileblock <? SFS_NDIRECT then
    block ← deref (sfi_direct (sv_i sv) !! Z.to_nat fileblock);
    if (block =? 0) && doalloc then
      '(r, fs) ← sfs_balloc fs;
      match r with
      | Err result => mret (Err result, fs, sv)
      | Ok block =>
          let sv := set_direct sv fileblock block in
          check_used fs block;;
          mret (Ok block, fs, sv)
      end
    else
      check_used fs block;;
      mret (Ok block, fs, sv)
  else
    let fileblock := u32 (fileblock - SFS_NDIRECT) in
    let idnum := fileblock / SFS_DBPERIDB in
    let idoff := fileblock mod SFS_DBPERIDB in
    if idnum >=? SFS_NINDIRECT then mret (Err EFBIG, fs, sv) else
    let idblock := sfi_indirect (sv_i sv) in
    if (idblock =? 0) && negb doalloc then mret (Ok 0, fs, sv) else
    (* get the indirect block: allocate and clear it, or read it *)
    '(r, fs, sv, idblock) ←
      (if idblock =? 0 then
         '(r, fs) ← sfs_balloc fs;
         match r with
         | Err result => mret (Err result, fs, sv, idblock)
         | Ok idblock =>
             mret (Ok (zeros (Z.to_nat SFS_BLOCKSIZE)), fs, set_indirect sv idblock, idblock)
         end
       else
         '(result, fs, idbuf) ← sfs_readblock fs idblock (zeros (Z.to_nat SFS_BLOCKSIZE));
         if negb (result =? 0) then mret (Err result, fs, sv, idblock)
         else mret (Ok idbuf, fs, sv, idblock));
    match r with
    | Err result => mret (Err result, fs, sv)
    | Ok idbytes =>
        let idbuf := decode_words idbytes in
        block ← deref (idbuf !! Z.to_nat idoff);
        if (block =? 0) && doalloc then
          '(r, fs) ← sfs_balloc fs;
          match r with
          | Err result => mret (Err result, fs, sv)
          | Ok block =>
              let idbuf := <[Z.to_nat idoff := block]> idbuf in
              '(result, fs) ← sfs_writeblock fs idblock (encode_words idbuf);
              if negb (result =? 0) then mret (Err result, fs, sv) else
              check_used fs block;;
              mret (Ok block, fs, sv)
          end
        else
          check_used fs block;;
          mret (Ok block, fs, sv)
    end.

(** The direct-block loop of [sfs_itrunc]. *)
Fixpoint itrunc_direct (k : nat) (i blocklen : Z) (fs : sfs_fs) (sv : sfs_vnode)
    : outcome (sfs_fs * sfs_vnode) :=
  match k with
  | O => mret (fs, sv)
  | S k =>
      block ← deref (sfi_direct (sv_i sv) !! Z.to_nat i);
      if (i >=? blocklen) && negb (block =? 0) then
        fs ← sfs_bfree fs block;
        itrunc_direct k (i + 1) blocklen fs (set_direct sv i 0)
      else itrunc_direct k (i + 1) blocklen fs sv
  end.

(** The loop over the entries of the indirect block: the file system, the
    buffer, [hasnonzero] and [iddirty]. *)
Fixpoint itrunc_indirect (k : nat) (j blocklen baseblock : Z) (fs : sfs_fs) (idbuf : list Z)
    (hasnonzero iddirty : bool) : outcome (sfs_fs * list Z * bool * bool) :=
  match k with
  | O => mret (fs, idbuf, hasnonzero, iddirty)
  | S k =>
      block ← deref (idbuf !! Z.to_nat j);
      if (blocklen <? baseblock + j) && negb (block =? 0) then
        fs ← sfs_bfree fs block;
        itrunc_indirect k (j + 1) blocklen baseblock fs (<[Z.to_nat j := 0]> idbuf) hasnonzero true
      else
        itrunc_indirect k (j + 1) blocklen baseblock fs idbuf
          (hasnonzero || negb (block =? 0)) iddirty
  end.

Definition sfs_itrunc (fs : sfs_fs) (sv : sfs_vnode) (len : Z) : outcome (Z * sfs_fs * sfs_vnode) :=
  let blocklen := u32 (Z.quot (len + SFS_BLOCKSIZE - 1) SFS_BLOCKSIZE) in
  '(fs, sv) ← itrunc_direct (Z.to_nat SFS_NDIRECT) 0 blocklen fs sv;
  let idblock := sfi_indirect (sv_i sv) in
  let baseblock := SFS_NDIRECT in
  let highblock := baseblock + SFS_DBPERIDB - 1 in
  '(result, fs, sv) ←
    (if (blocklen <? highblock) && negb (idblock =? 0) then
       '(result, fs, idbytes) ← sfs_readblock fs idblock (zeros (Z.to_nat SFS_BLOCKSIZE));
       if negb (result =? 0) then mret (result, fs, sv) else
       '(fs, idbuf, hasnonzero, iddirty) ←
         itrunc_indirect (Z.to_nat SFS_DBPERIDB) 0 blocklen baseblock fs (decode_words idbytes) false false;
       if negb hasnonzero then
         fs ← sfs_bfree fs idblock;
         mret (0, fs, set_indirect sv 0)
       else if (iddirty : bool) then
         '(result, fs) ← sfs_writeblock fs idblock (encode_words idbuf);
         mret (result, fs, sv)
       else mret (0, fs, sv)
     else mret (0, fs, sv));
  if negb (result =? 0) then mret (result, fs, sv)
  else mret (0, fs, set_size sv (u32 len)).

(** ** Invariants *)

Definition used (fs : sfs_fs) (b : Z) : bool := bit (sfs_freemap fs) b.
Definition nblocks (fs : sfs_fs) : Z := sb_nblocks (sfs_sb fs).
Definition fsector (fs : sfs_fs) (b : Z) : list Z := sector (sfs_device fs) b.

(** A mounted file system on a drive without pending errors. *)
Record fs_wf (fs : sfs_fs) : Prop := {
  fw_dev : lhd_wf (sfs_device fs);
  fw_quiet : lh_status (sfs_device fs) = [];
  fw_map : bitmap_wf (sfs_freemap fs);
  fw_nblocks : 0 < nblocks fs <= d_blocks (sfs_device fs);
  fw_nbits : nblocks fs <= nbits (sfs_freemap fs);
  fw_over : forall b, nblocks fs <= b < nbits (sfs_freemap fs) -> used fs b = true;
  fw_super : used fs 0 = true }.

(** The block pointers of a file: 15 direct and 128 behind the indirect block. *)
Definition iptrs (fs : sfs_fs) (sv : sfs_vnode) : list Z :=
  if sfi_indirect (sv_i sv) =? 0 then replicate 128 0
  else decode_words (fsector fs (sfi_indirect (sv_i sv))).
Definition ptrs (fs : sfs_fs) (sv : sfs_vnode) : list Z := sfi_direct (sv_i sv) ++ iptrs fs sv.

Definition NPTRS : nat := 143.

(** The blocks of the file, the indirect block included. *)
Definition owns (fs : sfs_fs) (sv : sfs_vnode) (b : Z) : Prop :=
  b <> 0 /\ (b ∈ ptrs fs sv \/ b = sfi_indirect (sv_i sv)).

Record sv_wf (fs : sfs_fs) (sv : sfs_vnode) : Prop := {
  vw_direct : length (sfi_direct (sv_i sv)) = 15%nat;
  vw_owns : forall b, owns fs sv b -> 0 < b < nblocks fs /\ used fs b = true;
  vw_uniq : forall i j b, ptrs fs sv !! i = Some b -> ptrs fs sv !! j = Some b -> b <> 0 -> i = j;
  vw_ind : sfi_indirect (sv_i sv) <> 0 -> sfi_indirect (sv_i sv) ∉ ptrs fs sv;
  vw_size : 0 <= sfi_size (sv_i sv) <= 143 * 512 }.

(** The contents of block [k] of the file; a hole reads as zeros. *)
Definition fblock (fs : sfs_fs) (sv : sfs_vnode) (k : nat) : list Z :=
  match ptrs fs sv !! k with
  | Some p => if p =? 0 then zeros 512 else fsector fs p
  | None => zeros 512
  end.

(** One file is changed: the invariants hold again, the identity of the file is
    the same, and blocks in use that are not its own keep their contents. *)
Record file_step (fs : sfs_fs) (sv : sfs_vnode) (fs' : sfs_fs) (sv' : sfs_vnode) : Prop := {
  fst_fs : fs_wf fs';
  fst_sv : sv_wf fs' sv';
  fst_sb : sfs_sb fs' = sfs_sb fs;
  fst_ino : sv_ino sv' = sv_ino sv;
  fst_type : sfi_type (sv_i sv') = sfi_type (sv_i sv);
  fst_links : sfi_linkcount (sv_i sv') = sfi_linkcount (sv_i sv);
  fst_frame : forall b, 0 <= b < nblocks fs -> used fs b = true -> ~ owns fs sv b ->
    used fs' b = true /\ fsector fs' b = fsector fs b /\ ~ owns fs' sv' b }.

(** ** Block I/O *)

Definition fs_write (fs : sfs_fs) (i : Z) (data : list Z) : sfs_fs :=
  set_device fs (set_sector (sfs_device fs) i data).

Lemma set_device_id fs : set_device fs (sfs_device fs) = fs.
Proof. by destruct fs. Qed.

Lemma sfs_readblock_ok fs i data :
  fs_wf fs -> 0 <= i < nblocks fs -> length data = 512%nat ->
  sfs_readblock fs i data = Done (0, fs, fsector fs i).
Proof.
  intros H Hi Hl. unfold sfs_readblock. pose proof (fw_nblocks _ H).
  rewrite readblock_dev_ok by (done || lia || apply H). cbn. by rewrite set_device_id.
Qed.

Lemma sfs_writeblock_ok fs i data :
  fs_wf fs -> 0 <= i < nblocks fs -> length data = 512%nat ->
  sfs_writeblock fs i data = Done (0, fs_write fs i data).
Proof.
  intros H Hi Hl. unfold sfs_writeblock. pose proof (fw_nblocks _ H).
  by rewrite writeblock_dev_ok by (done || lia || apply H).
Qed.

Lemma fsector_block fs i : fs_wf fs -> 0 <= i < nblocks fs -> is_block (fsector fs i).
Proof.
  intros H Hi. pose proof (fw_nblocks _ H). apply sector_wf; [apply H|lia].
Qed.

Lemma fs_write_wf fs i data : fs_wf fs -> is_block data -> fs_wf (fs_write fs i data).
Proof. intros [H1 H2 H3 H4 H5 H6 H7] Hd. split; try done. by apply set_sector_wf. Qed.

Lemma fsector_write_eq fs i data : fsector (fs_write fs i data) i = data.
Proof. apply sector_set_eq. Qed.

Lemma fsector_write_ne fs i j data : i <> j -> fsector (fs_write fs i data) j = fsector fs j.
Proof. apply sector_set_ne. Qed.

Lemma is_block_zeros : is_block (zeros 512).
Proof. split; [apply length_zeros|apply bytes_zeros]. Qed.

(** ** Allocating and freeing *)

(** [fs'] is [fs] after block [p] was allocated and cleared. *)
Record fs_alloc (fs : sfs_fs) (p : Z) (fs' : sfs_fs) : Prop := {
  fa_wf : fs_wf fs';
  fa_range : 0 < p < nblocks fs;
  fa_free : used fs p = false;
  fa_sb : sfs_sb fs' = sfs_sb fs;
  fa_zero : fsector fs' p = zeros 512;
  fa_same : forall b, b <> p -> fsector fs' b = fsector fs b;
  fa_used : forall b, 0 <= b -> used fs' b = if b =? p then true else used fs b;
  fa_dirty : sfs_freemapdirty fs' = true }.

(** No block is free. *)
Definition volume_full (fs : sfs_fs) : Prop := forall b, 0 <= b < nblocks fs -> used fs b = true.

Lemma sfs_balloc_ok fs :
  fs_wf fs ->
  (exists p fs', sfs_balloc fs = Done (Ok p, fs') /\ fs_alloc fs p fs' /\
     forall b, 0 <= b < p -> used fs b = true) \/
  (sfs_balloc fs = Done (Err ENOSPC, fs) /\ volume_full fs).
Proof.
  intros H. unfold sfs_balloc. pose proof (fw_nbits _ H).
  destruct (bitmap_alloc_ok _ (fw_map _ H)) as [(p & fm & -> & Hp & Hfree & Hlow & Hup)|[-> Hall]];
    cbn [mbind outcome_bind].
  2: { right. split; [done|]. intros b Hb. apply Hall. lia. }
  destruct Hup as (Hwf & Hn & Hb).
  assert (Hp' : p < nblocks fs).
  { destruct (decide (p < nblocks fs)); [done|].
    pose proof (fw_over _ H p ltac:(lia)) as Hu. unfold used in Hu. congruence. }
  assert (p <> 0) by (intros ->; pose proof (fw_super _ H) as Hu; unfold used in Hu; congruence).
  left. rewrite Z.geb_leb, (proj2 (Z.leb_gt _ _)) by done.
  set (fs1 := set_freemap fs fm true).
  assert (Hw1 : fs_wf fs1).
  { split; cbn; rewrite ?Hn; try done; try apply H.
    - change (nblocks fs1) with (nblocks fs). unfold used; cbn. intros b Hbb. rewrite Hb by (pose proof (fw_nblocks _ H); lia).
      destruct (b =? p); [done|]. apply (fw_over _ H). lia.
    - unfold used; cbn. rewrite Hb by lia. rewrite (fw_super _ H : bit _ 0 = true). by destruct (0 =? p). }
  unfold sfs_clearblock. change (Z.to_nat SFS_BLOCKSIZE) with 512%nat.
  rewrite (sfs_writeblock_ok fs1) by (done || apply length_zeros || (change (nblocks fs1) with (nblocks fs); lia)).
  cbn [mbind outcome_bind Z.eqb negb].
  exists p, (fs_write fs1 p (zeros 512)). split; [done|]. split.
  - split; try done.
    + apply fs_write_wf; [done|apply is_block_zeros].
    + lia.
    + apply fsector_write_eq.
    + intros b Hbp. by rewrite fsector_write_ne by congruence.
  - intros b Hb0. by apply Hlow.
Qed.

(** Freeing a block of the file system. *)
Lemma sfs_bfree_ok fs p :
  fs_wf fs -> 0 < p < nblocks fs -> used fs p = true ->
  exists fs', sfs_bfree fs p = Done fs' /\ fs_wf fs' /\ sfs_sb fs' = sfs_sb fs /\
    (forall b, fsector fs' b = fsector fs b) /\
    (forall b, 0 <= b -> used fs' b = if b =? p then false else used fs b).
Proof.
  intros H Hp Hu. unfold sfs_bfree. pose proof (fw_nbits _ H).
  destruct (bitmap_unmark_ok (sfs_freemap fs) p) as (fm & -> & Hwf & Hn & Hb);
    [apply H|lia|done|].
  eexists; split; [done|]. split; [|done].
  split; cbn; rewrite ?Hn; try done; try apply H.
  - change (nblocks (set_freemap fs fm true)) with (nblocks fs).
    unfold used; cbn. intros b Hbb. rewrite Hb by (pose proof (fw_nblocks _ H); lia).
    destruct (Z.eqb_spec b p); [lia|]. apply (fw_over _ H). lia.
  - unfold used; cbn. rewrite Hb by lia. destruct (Z.eqb_spec 0 p); [lia|]. apply (fw_super _ H).
Qed.

Lemma check_used_ok fs p :
  fs_wf fs -> p = 0 \/ (0 < p < nblocks fs /\ used fs p = true) -> check_used fs p = Done ().
Proof.
  intros H [->|[Hp Hu]]; [done|]. unfold check_used, sfs_bused.
  destruct (Z.eqb_spec p 0); [done|]. rewrite Z.geb_leb, (proj2 (Z.leb_gt _ _)) by (unfold nblocks in *; lia).
  pose proof (fw_nbits _ H).
  destruct (bitmap_isset_ok (sfs_freemap fs) p) as (r & -> & Hr); [apply H|lia|].
  cbn. rewrite Hr. unfold used in Hu. by rewrite Hu.
Qed.

(** ** Block pointers *)

Lemma iptrs_length fs sv : fs_wf fs -> sv_wf fs sv -> length (iptrs fs sv) = 128%nat.
Proof.
  intros H W. unfold iptrs. destruct (Z.eqb_spec (sfi_indirect (sv_i sv)) 0) as [|Hi].
  - apply length_replicate.
  - apply length_decode_words. destruct (fsector_block fs (sfi_indirect (sv_i sv))) as [-> _]; [done| |done].
    destruct (vw_owns _ _ W (sfi_indirect (sv_i sv))); [|lia]. split; [done|by right].
Qed.

Lemma ptrs_length fs sv : fs_wf fs -> sv_wf fs sv -> length (ptrs fs sv) = NPTRS.
Proof.
  intros H W. unfold ptrs. by rewrite length_app, (vw_direct _ _ W), iptrs_length.
Qed.

Lemma ptr_ok fs sv k p :
  sv_wf fs sv -> ptrs fs sv !! k = Some p -> p = 0 \/ (0 < p < nblocks fs /\ used fs p = true).
Proof.
  intros W Hk. destruct (decide (p = 0)) as [|Hp]; [by left|right].
  apply (vw_owns _ _ W). split; [done|]. left. by apply list_elem_of_lookup_2 with k.
Qed.

Lemma ptrs_direct fs sv k :
  (k < length (sfi_direct (sv_i sv)))%nat -> ptrs fs sv !! k = sfi_direct (sv_i sv) !! k.
Proof. intros. unfold ptrs. by rewrite lookup_app_l. Qed.

Lemma ptrs_indirect fs sv k :
  sv_wf fs sv -> (15 <= k)%nat -> ptrs fs sv !! k = iptrs fs sv !! (k - 15)%nat.
Proof.
  intros W Hk. unfold ptrs. rewrite lookup_app_r by (rewrite (vw_direct _ _ W); lia).
  by rewrite (vw_direct _ _ W).
Qed.

Lemma file_step_refl fs sv : fs_wf fs -> sv_wf fs sv -> file_step fs sv fs sv.
Proof. intros. by split. Qed.

Lemma file_step_trans fs sv fs1 sv1 fs2 sv2 :
  file_step fs sv fs1 sv1 -> file_step fs1 sv1 fs2 sv2 -> file_step fs sv fs2 sv2.
Proof.
  intros [F1 V1 B1 I1 T1 L1 R1] [F2 V2 B2 I2 T2 L2 R2]. split; try done; try congruence.
  intros b Hb Hu Ho. destruct (R1 b Hb Hu Ho) as (Hu1 & Hs1 & Ho1).
  destruct (R2 b) as (Hu2 & Hs2 & Ho2); [unfold nblocks in *; by rewrite B1|done|done|].
  split_and!; [done|congruence|done].
Qed.

(** A fresh block is stored in slot [k] of the block map. *)
Lemma ptr_update fs sv fs' sv' k p :
  fs_wf fs -> sv_wf fs sv -> fs_wf fs' ->
  sfs_sb fs' = sfs_sb fs -> sv_ino sv' = sv_ino sv ->
  sfi_type (sv_i sv') = sfi_type (sv_i sv) -> sfi_linkcount (sv_i sv') = sfi_linkcount (sv_i sv) ->
  sfi_size (sv_i sv') = sfi_size (sv_i sv) -> length (sfi_direct (sv_i sv')) = 15%nat ->
  sfi_indirect (sv_i sv') = sfi_indirect (sv_i sv) ->
  (k < NPTRS)%nat -> ptrs fs' sv' = <[k := p]> (ptrs fs sv) -> ptrs fs sv !! k = Some 0 ->
  0 < p < nblocks fs -> used fs p = false -> fsector fs' p = zeros 512 ->
  (forall b, 0 <= b -> used fs' b = if b =? p then true else used fs b) ->
  (forall b, b <> p -> b = 0 \/ b <> sfi_indirect (sv_i sv) -> fsector fs' b = fsector fs b) ->
  file_step fs sv fs' sv' /\ forall j, fblock fs' sv' j = fblock fs sv j.
Proof.
  intros H W H' Hsb Hino Hty Hlk Hsz Hdir Hind Hk Hptrs Hk0 Hp Hfree Hz Hused Hsame.
  assert (Hnb : nblocks fs' = nblocks fs) by (unfold nblocks; by rewrite Hsb).
  assert (Hlen : length (ptrs fs sv) = NPTRS) by by apply ptrs_length.
  assert (Hold : forall b, owns fs sv b -> b <> p).
  { intros b Hb ->. apply (vw_owns _ _ W) in Hb as [_ Hb]. congruence. }
  assert (Hin : forall b, b ∈ ptrs fs' sv' -> b = p \/ b ∈ ptrs fs sv).
  { intros b Hb. rewrite Hptrs in Hb. apply list_elem_of_lookup in Hb as [i Hi].
    apply list_lookup_insert_Some in Hi as [(_ & -> & _)|[_ Hi]]; [by left|right].
    by apply list_elem_of_lookup_2 with i. }
  assert (Hown : forall b, owns fs' sv' b -> b = p \/ owns fs sv b).
  { intros b [Hb0 [Hb|Hb]]; [|right; split; [done|right; congruence]].
    apply Hin in Hb as [->|Hb]; [by left|right]. split; [done|by left]. }
  split.
  - split; try done.
    + split; try done.
      * intros b Hb. rewrite Hnb. pose proof (Hown b Hb) as [->|Ho].
        -- split; [lia|]. by rewrite Hused, Z.eqb_refl by lia.
        -- apply (vw_owns _ _ W) in Ho as [? Hu]. split; [done|]. rewrite Hused, Hu by lia. by destruct (b =? p).
      * intros i j b Hi Hj Hb. rewrite Hptrs in Hi, Hj.
        apply list_lookup_insert_Some in Hi as [(Hi1 & Hi2 & _)|[Hik Hi]];
        apply list_lookup_insert_Some in Hj as [(Hj1 & Hj2 & _)|[Hjk Hj]]; try congruence.
        -- destruct (Hold b); [|done]. split; [done|]. left. by apply list_elem_of_lookup_2 with j.
        -- destruct (Hold b); [|done]. split; [done|]. left. by apply list_elem_of_lookup_2 with i.
        -- by apply (vw_uniq _ _ W) with b.
      * rewrite Hind. intros Hi Hb. apply Hin in Hb as [Hb|Hb]; [|by apply (vw_ind _ _ W)].
        apply (Hold (sfi_indirect (sv_i sv))); [|done]. split; [done|by right].
      * rewrite Hsz. apply W.
    + intros b Hb Hu Ho. assert (b <> p) by (intros ->; congruence).
      assert (b = 0 \/ b <> sfi_indirect (sv_i sv)) as Hbi.
      { destruct (decide (b = 0)); [by left|right]. intros He. apply Ho. split; [done|by right]. }
      split_and!; [rewrite Hused, Hu by lia; by destruct (b =? p)|by apply Hsame|].
      intros Ho'. by destruct (Hown b Ho').
  - intros j. unfold fblock. rewrite Hptrs.
    destruct (decide (j = k)) as [->|Hjk].
    + rewrite list_lookup_insert_eq by lia. rewrite Hk0, Z.eqb_refl.
      destruct (Z.eqb_spec p 0); [lia|]. done.
    + rewrite list_lookup_insert_ne by done.
      destruct (ptrs fs sv !! j) as [q|] eqn:Hq; [|done].
      destruct (Z.eqb_spec q 0) as [|Hq0]; [done|].
      assert (Hq' : q ∈ ptrs fs sv) by by apply list_elem_of_lookup_2 with j.
      apply Hsame; [apply Hold; split; [done|by left]|]. right. intros ->. by apply (vw_ind _ _ W).
Qed.

(** A fresh, cleared block becomes the indirect block. *)
Lemma add_indirect fs sv q fs' :
  fs_wf fs -> sv_wf fs sv -> sfi_indirect (sv_i sv) = 0 -> fs_alloc fs q fs' ->
  let sv' := set_indirect sv q in
  file_step fs sv fs' sv' /\ ptrs fs' sv' = ptrs fs sv /\ forall j, fblock fs' sv' j = fblock fs sv j.
Proof.
  intros H W Hi [A1 A2 A3 A4 A5 A6 A7 A8] sv'.
  assert (Hptrs : ptrs fs' sv' = ptrs fs sv).
  { unfold ptrs, sv', iptrs; cbn [set_indirect sv_i sfi_direct sfi_indirect]. f_equal. rewrite Hi, Z.eqb_refl.
    rewrite (proj2 (Z.eqb_neq _ _)) by lia. rewrite A5. apply (decode_words_zeros 128). }
  assert (Hnew : forall b, owns fs sv b -> b <> q).
  { intros b Hb ->. apply (vw_owns _ _ W) in Hb as [_ Hb]. congruence. }
  assert (Hown : forall b, owns fs' sv' b -> b = q \/ owns fs sv b).
  { intros b [Hb0 [Hb|Hb]]; [right|left; exact Hb]. rewrite Hptrs in Hb. split; [done|by left]. }
  split_and!; [|done|].
  - split; try done.
    + split; try done; try apply W.
      * intros b Hb. unfold nblocks in *. rewrite A4. destruct (Hown b Hb) as [->|Ho].
        -- split; [lia|]. by rewrite A7, Z.eqb_refl by lia.
        -- apply (vw_owns _ _ W) in Ho as [? Hu]. split; [done|]. rewrite A7, Hu by lia. by destruct (b =? q).
      * rewrite Hptrs. apply W.
      * rewrite Hptrs. cbn. intros _ Hq. apply (Hnew q); [|done]. split; [lia|by left].
    + intros b Hb Hu Ho. assert (b <> q) by (intros ->; congruence).
      split_and!; [rewrite A7, Hu by lia; by destruct (b =? q)|by apply A6|].
      intros Ho'. by destruct (Hown b Ho').
  - intros j. unfold fblock. rewrite Hptrs. destruct (ptrs fs sv !! j) as [r|] eqn:Hr; [|done].
    destruct (Z.eqb_spec r 0); [done|]. apply A6. apply Hnew. split; [done|].
    left. by apply list_elem_of_lookup_2 with j.
Qed.

(** ** Mapping file blocks *)

Lemma bmap_toobig fs sv k doalloc :
  143 <= k < 2 ^ 32 -> sfs_bmap fs sv k doalloc = Done (Err EFBIG, fs, sv).
Proof.
  intros Hk. unfold sfs_bmap, SFS_NDIRECT, SFS_DBPERIDB, SFS_NINDIRECT.
  rewrite (proj2 (Z.ltb_ge _ _)) by lia. rewrite u32_small by lia.
  rewrite Z.geb_leb, (proj2 (Z.leb_le _ _)) by lia. done.
Qed.

Lemma bmap_indirect_index k :
  15 <= k < 143 ->
  u32 (k - 15) = k - 15 /\ ((k - 15) / 128 >=? 1) = false /\ (k - 15) mod 128 = k - 15.
Proof.
  intros Hk. rewrite u32_small, Z.geb_leb by lia. split_and!; [done| |lia].
  apply Z.leb_gt. lia.
Qed.

Lemma indirect_range fs sv :
  sv_wf fs sv -> sfi_indirect (sv_i sv) <> 0 -> 0 < sfi_indirect (sv_i sv) < nblocks fs.
Proof. intros W Hi. apply (vw_owns _ _ W). split; [done|by right]. Qed.

(** Without allocation, or for a block that exists, the pointer is returned and
    nothing changes. *)
Lemma bmap_lookup fs sv k p doalloc :
  fs_wf fs -> sv_wf fs sv -> (k < NPTRS)%nat -> ptrs fs sv !! k = Some p ->
  doalloc = false \/ p <> 0 ->
  sfs_bmap fs sv (Z.of_nat k) doalloc = Done (Ok p, fs, sv).
Proof.
  intros H W Hk Hp Hda. pose proof (ptr_ok fs sv k p W Hp) as Hok.
  assert (Hna : (p =? 0) && doalloc = false).
  { destruct Hda as [->|?]; [apply andb_false_r|]. by rewrite (proj2 (Z.eqb_neq _ _)). }
  unfold sfs_bmap, SFS_NDIRECT, SFS_DBPERIDB, SFS_NINDIRECT, NPTRS in *.
  destruct (Z.ltb_spec (Z.of_nat k) 15) as [Hd|Hd].
  - rewrite Nat2Z.id. rewrite ptrs_direct in Hp by (rewrite (vw_direct _ _ W); lia).
    rewrite Hp. kred. rewrite Hna. by rewrite check_used_ok.
  - destruct (bmap_indirect_index (Z.of_nat k)) as (-> & -> & ->); [lia|].
    rewrite ptrs_indirect in Hp by (done || lia). unfold iptrs in Hp.
    destruct (Z.eqb_spec (sfi_indirect (sv_i sv)) 0) as [Hz|Hnz]; cbn [andb negb].
    + apply lookup_replicate in Hp as [-> _]. by destruct Hda as [->|?].
    + pose proof (indirect_range fs sv W Hnz) as Hr.
      change (Z.to_nat SFS_BLOCKSIZE) with 512%nat.
      rewrite sfs_readblock_ok by (done || lia || apply length_zeros).
      cbn [mbind outcome_bind Z.eqb negb].
      replace (Z.to_nat (Z.of_nat k - 15)) with (k - 15)%nat by lia.
      kred. rewrite Hp. kred. rewrite Hna. by rewrite check_used_ok.
Qed.

(** Allocation of a direct block. *)
Lemma bmap_alloc_direct fs sv k :
  fs_wf fs -> sv_wf fs sv -> (k < 15)%nat -> ptrs fs sv !! k = Some 0 ->
  (exists p fs' sv', sfs_bmap fs sv (Z.of_nat k) true = Done (Ok p, fs', sv') /\
     p <> 0 /\ ptrs fs' sv' = <[k := p]> (ptrs fs sv) /\
     file_step fs sv fs' sv' /\ (forall j, fblock fs' sv' j = fblock fs sv j) /\
     sfi_size (sv_i sv') = sfi_size (sv_i sv)) \/
  (sfs_bmap fs sv (Z.of_nat k) true = Done (Err ENOSPC, fs, sv) /\ volume_full fs).
Proof.
  intros H W Hk Hp. unfold sfs_bmap, SFS_NDIRECT. rewrite (proj2 (Z.ltb_lt _ _)) by lia.
  pose proof (vw_direct _ _ W) as Hdl. rewrite Nat2Z.id.
  rewrite ptrs_direct in Hp by lia. rewrite Hp. cbn [deref mbind outcome_bind Z.eqb andb].
  destruct (sfs_balloc_ok fs H) as [(p & fs' & -> & Ha & _)|[-> Hfull]]; [left|by right].
  cbn [mbind outcome_bind]. set (sv' := set_direct sv (Z.of_nat k) p).
  pose proof Ha as [A1 A2 A3 A4 A5 A6 A7 A8].
  rewrite (check_used_ok fs') by
    (done || (right; unfold nblocks in *; rewrite A4; split; [lia|]; by rewrite A7, Z.eqb_refl by lia)).
  assert (Hptrs : ptrs fs' sv' = <[k := p]> (ptrs fs sv)).
  { unfold ptrs, sv', set_direct; cbn [sv_i sfi_direct]. rewrite Nat2Z.id, insert_app_l by lia. f_equal.
    unfold iptrs; cbn. destruct (Z.eqb_spec (sfi_indirect (sv_i sv)) 0) as [|Hi]; [done|]. f_equal.
    apply A6. intros He. destruct (vw_owns _ _ W p) as [_ Hu]; [split; [lia|right; congruence]|congruence]. }
  exists p, fs', sv'. split; [done|]. split; [lia|]. split; [exact Hptrs|].
  cut (file_step fs sv fs' sv' /\ forall j, fblock fs' sv' j = fblock fs sv j);
    [by intros []|].
  apply ptr_update with k p; try done.
  - cbn. by rewrite length_insert.
  - unfold NPTRS; lia.
  - by rewrite ptrs_direct by lia.
  - intros b Hb _. by apply A6.
Qed.

(** The tail of [sfs_bmap] for a block behind the indirect block: block [p] was
    just allocated and goes to entry [k - 15]. *)
Lemma store_indirect fs sv k p fs' :
  fs_wf fs -> sv_wf fs sv -> sfi_indirect (sv_i sv) <> 0 -> (15 <= k < NPTRS)%nat ->
  ptrs fs sv !! k = Some 0 -> fs_alloc fs p fs' ->
  let idblock := sfi_indirect (sv_i sv) in
  let fs2 := fs_write fs' idblock
    (encode_words (<[(k - 15)%nat := p]> (decode_words (fsector fs idblock)))) in
  sfs_writeblock fs' idblock
    (encode_words (<[(k - 15)%nat := p]> (decode_words (fsector fs idblock)))) = Done (0, fs2) /\
  check_used fs2 p = Done () /\ ptrs fs2 sv = <[k := p]> (ptrs fs sv) /\
  file_step fs sv fs2 sv /\ (forall j, fblock fs2 sv j = fblock fs sv j).
Proof.
  intros H W Hi Hk Hk0 [A1 A2 A3 A4 A5 A6 A7 A8] idblock fs2. unfold NPTRS in Hk.
  pose proof (indirect_range fs sv W Hi) as Hr. fold idblock in Hr, Hi.
  destruct (fsector_block fs idblock H ltac:(lia)) as [Hbl Hbb].
  set (ws := <[(k - 15)%nat := p]> (decode_words (fsector fs idblock))) in *.
  assert (Hnb : nblocks fs' = nblocks fs) by (unfold nblocks; by rewrite A4).
  assert (Hdl : length (decode_words (fsector fs idblock)) = 128%nat) by (apply length_decode_words; lia).
  assert (Hblk : is_block (encode_words ws)).
  { split; [|apply bytes_encode_words]. unfold ws. rewrite length_encode_words, length_insert. lia. }
  assert (Hws : Forall (fun x => 0 <= x < 2 ^ 32) ws).
  { apply Forall_insert; [by apply decode_words_range|]. pose proof (fw_nblocks _ H).
    pose proof (lw_size _ (fw_dev _ H)). lia. }
  assert (Hne : idblock <> p).
  { intros He. destruct (vw_owns _ _ W p) as [_ Hu]; [split; [lia|right; done]|congruence]. }
  assert (H2 : fs_wf fs2) by by apply fs_write_wf.
  assert (Hptrs : ptrs fs2 sv = <[k := p]> (ptrs fs sv)).
  { unfold ptrs at 2. rewrite insert_app_r_alt by (rewrite (vw_direct _ _ W); lia).
    rewrite (vw_direct _ _ W). unfold ptrs, iptrs. fold idblock.
    rewrite (proj2 (Z.eqb_neq _ _)) by done. f_equal.
    unfold fs2. rewrite fsector_write_eq. by apply decode_encode_words. }
  assert (Hup : file_step fs sv fs2 sv /\ forall j, fblock fs2 sv j = fblock fs sv j).
  { apply ptr_update with k p; try done; try apply W.
    - unfold NPTRS; lia.
    - unfold fs2. by rewrite fsector_write_ne by done.
    - intros b Hbp Hb. unfold fs2. rewrite fsector_write_ne; [by apply A6|].
      intros <-. by destruct Hb as [?|?]. }
  split_and!; [apply sfs_writeblock_ok; [done|lia|apply Hblk]| |done|..].
  - apply check_used_ok; [done|]. right. change (used fs2 p) with (used fs' p).
    change (nblocks fs2) with (nblocks fs'). split; [lia|]. by rewrite A7, Z.eqb_refl by lia.
  - apply Hup.
  - apply Hup.
Qed.

(** Allocation of a block behind the indirect block. *)
Lemma bmap_alloc_indirect fs sv k :
  fs_wf fs -> sv_wf fs sv -> (15 <= k < NPTRS)%nat -> ptrs fs sv !! k = Some 0 ->
  (exists p fs' sv', sfs_bmap fs sv (Z.of_nat k) true = Done (Ok p, fs', sv') /\
     p <> 0 /\ ptrs fs' sv' = <[k := p]> (ptrs fs sv) /\
     file_step fs sv fs' sv' /\ (forall j, fblock fs' sv' j = fblock fs sv j) /\
     sfi_size (sv_i sv') = sfi_size (sv_i sv)) \/
  (exists fs' sv', sfs_bmap fs sv (Z.of_nat k) true = Done (Err ENOSPC, fs', sv') /\ volume_full fs' /\
     ptrs fs' sv' = ptrs fs sv /\
     file_step fs sv fs' sv' /\ (forall j, fblock fs' sv' j = fblock fs sv j) /\
     sfi_size (sv_i sv') = sfi_size (sv_i sv)).
Proof.
  intros H W Hk Hp. unfold sfs_bmap, SFS_NDIRECT, SFS_DBPERIDB, SFS_NINDIRECT, NPTRS in *.
  rewrite (proj2 (Z.ltb_ge _ _)) by lia.
  destruct (bmap_indirect_index (Z.of_nat k)) as (-> & -> & ->); [lia|].
  replace (Z.to_nat (Z.of_nat k - 15)) with (k - 15)%nat by lia.
  change (Z.to_nat SFS_BLOCKSIZE) with 512%nat.
  destruct (Z.eqb_spec (sfi_indirect (sv_i sv)) 0) as [Hz|Hnz]; cbn [andb negb].
  - destruct (sfs_balloc_ok fs H) as [(q & fs1 & -> & Ha & _)|[-> Hfull]]; kred.
    2: { right. exists fs, sv. by split_and!; [..|apply file_step_refl| |]. }
    destruct (add_indirect fs sv q fs1 H W Hz Ha) as (Hst & Hpt & Hfb).
    set (sv1 := set_indirect sv q) in *.
    rewrite (decode_words_zeros 128 : (decode_words (zeros 512) = _)), lookup_replicate_2 by lia. cbn [deref]. kred.
    destruct (sfs_balloc_ok fs1 (fst_fs _ _ _ _ Hst)) as [(p & fs2 & -> & Ha2 & _)|[-> Hfull]]; kred.
    + destruct (store_indirect fs1 sv1 k p fs2) as (He & Hc & Hpt2 & Hst2 & Hfb2);
        [apply Hst|apply Hst|cbn; pose proof (fa_range _ _ _ Ha); lia|done|by rewrite Hpt|done|].
      cbn [sv1 set_indirect sv_i sfi_indirect] in He, Hc, Hpt2, Hst2, Hfb2.
      rewrite (fa_zero _ _ _ Ha), (decode_words_zeros 128 : (decode_words (zeros 512) = _)) in He, Hc, Hpt2, Hst2, Hfb2.
      left. eexists p, _, sv1. rewrite He. kred. rewrite Hc. split; [done|]. split; [pose proof (fa_range _ _ _ Ha2); lia|].
      split_and!; [by rewrite Hpt2, Hpt|by apply file_step_trans with fs1 sv1| |done].
      intros j. by rewrite Hfb2.
    + right. by exists fs1, sv1.
  - pose proof (indirect_range fs sv W Hnz) as Hr.
    rewrite sfs_readblock_ok by (done || lia || apply length_zeros). kred.
    pose proof Hp as Hp'. rewrite ptrs_indirect in Hp' by (done || lia). unfold iptrs in Hp'.
    rewrite (proj2 (Z.eqb_neq _ _)) in Hp' by done. 
    rewrite Hp'. cbn [deref]. kred.
    destruct (sfs_balloc_ok fs H) as [(p & fs1 & -> & Ha & _)|[-> Hfull]]; kred.
    2: { right. exists fs, sv. by split_and!; [..|apply file_step_refl| |]. }
    destruct (store_indirect fs sv k p fs1) as (He & Hc & Hpt2 & Hst2 & Hfb2); [done..|].
    left. eexists p, _, sv. rewrite He. kred. rewrite Hc. split; [done|].
    by split; [pose proof (fa_range _ _ _ Ha); lia|].
Qed.

(** Allocation, wherever the block is. *)
Lemma bmap_alloc fs sv k p0 :
  fs_wf fs -> sv_wf fs sv -> (k < NPTRS)%nat -> ptrs fs sv !! k = Some p0 ->
  exists r fs' sv', sfs_bmap fs sv (Z.of_nat k) true = Done (r, fs', sv') /\
    file_step fs sv fs' sv' /\ (forall j, fblock fs' sv' j = fblock fs sv j) /\
    sfi_size (sv_i sv') = sfi_size (sv_i sv) /\
    match r with
    | Ok p => p <> 0 /\ (p0 <> 0 -> p = p0) /\ ptrs fs' sv' = <[k := p]> (ptrs fs sv)
    | Err e => e = ENOSPC /\ p0 = 0 /\ ptrs fs' sv' = ptrs fs sv /\ volume_full fs'
    end.
Proof.
  intros H W Hk Hp. destruct (decide (p0 = 0)) as [->|Hp0].
  - destruct (decide (k < 15)%nat) as [Hd|Hd].
    + destruct (bmap_alloc_direct fs sv k H W Hd Hp) as [(p & fs' & sv' & He & Hr)|[He Hfull]].
      * exists (Ok p), fs', sv'. destruct Hr as (? & ? & ? & ? & ?). by split_and!.
      * exists (Err ENOSPC), fs, sv. split; [done|]. by split_and!; [apply file_step_refl|..].
    + destruct (bmap_alloc_indirect fs sv k H W ltac:(lia) Hp)
        as [(p & fs' & sv' & He & Hr)|(fs' & sv' & He & Hr)].
      * exists (Ok p), fs', sv'. destruct Hr as (? & ? & ? & ? & ?). by split_and!.
      * exists (Err ENOSPC), fs', sv'. destruct Hr as (? & ? & ? & ? & ?). by split_and!.
  - exists (Ok p0), fs, sv. rewrite (bmap_lookup fs sv k p0) by auto.
    split; [done|]. split; [by apply file_step_refl|]. repeat (split; [done|]). by rewrite list_insert_id.
Qed.

(** ** Truncation *)

(** The entries from [n] on are cleared. *)
Definition zero_from (n : nat) (l : list Z) : list Z :=
  imap (fun k p => if (k <? n)%nat then p else 0) l.

Lemma lookup_zero_from n l k :
  zero_from n l !! k = (fun p => if (k <? n)%nat then p else 0) <$> l !! k.
Proof. unfold zero_from. by rewrite list_lookup_imap. Qed.

Lemma length_zero_from n l : length (zero_from n l) = length l.
Proof. apply length_imap. Qed.

Lemma zero_from_all n l : (length l <= n)%nat -> zero_from n l = l.
Proof.
  intros Hn. apply list_eq. intros k. rewrite lookup_zero_from.
  destruct (l !! k) as [p|] eqn:Hk; [|done]. apply lookup_lt_Some in Hk. cbn [fmap option_fmap option_map].
  by rewrite (proj2 (Nat.ltb_lt _ _)) by lia.
Qed.

(** One round of either loop: entry [i] is cleared, or need not be. *)
Lemma zero_from_step l i :
  zero_from (S i) (<[i := 0]> l) = zero_from i l.
Proof.
  apply list_eq. intros k. rewrite !lookup_zero_from.
  destruct (decide (k = i)) as [->|Hk].
  - destruct (decide (i < length l)%nat).
    + rewrite list_lookup_insert_eq by done. rewrite Nat.ltb_irrefl.
      destruct (lookup_lt_is_Some_2 l i) as [p ->]; [done|]. cbn [fmap option_fmap option_map]. by destruct (i <? S i)%nat.
    + rewrite !lookup_ge_None_2; [done|lia|rewrite length_insert; lia].
  - rewrite list_lookup_insert_ne by done. destruct (l !! k); [|done]. cbn [fmap option_fmap option_map]. f_equal.
    destruct (Nat.ltb_spec k (S i)), (Nat.ltb_spec k i); try done; lia.
Qed.

Lemma zero_from_skip n l i :
  (i < n)%nat \/ l !! i = Some 0 -> zero_from (Nat.max n (S i)) l = zero_from (Nat.max n i) l.
Proof.
  intros Hi. apply list_eq. intros k. rewrite !lookup_zero_from.
  destruct (l !! k) as [p|] eqn:Hk; [|done]. cbn [fmap option_fmap option_map]. f_equal.
  destruct (Nat.ltb_spec k (Nat.max n (S i))), (Nat.ltb_spec k (Nat.max n i)); try done; [|lia].
  destruct Hi as [?|Hi]; [lia|]. assert (k = i) as -> by lia. congruence.
Qed.

(** [fs'] is [fs] with the blocks of [L] freed. *)
Record freed (fs : sfs_fs) (L : list Z) (fs' : sfs_fs) : Prop := {
  fr_wf : fs_wf fs';
  fr_sb : sfs_sb fs' = sfs_sb fs;
  fr_sec : forall b, fsector fs' b = fsector fs b;
  fr_used : forall b, 0 <= b -> used fs' b = true <-> used fs b = true /\ (b = 0 \/ b ∉ L) }.

(** The nonzero entries of [L] are blocks in use, each listed once. *)
Definition blocks_of (fs : sfs_fs) (L : list Z) : Prop :=
  (forall b, b ∈ L -> b <> 0 -> 0 < b < nblocks fs /\ used fs b = true) /\
  (forall i j b, L !! i = Some b -> L !! j = Some b -> b <> 0 -> i = j).

Lemma freed_none fs L : fs_wf fs -> (forall b, b ∈ L -> b = 0) -> freed fs L fs.
Proof.
  intros H HL. split; try done. intros b Hb. split; [|tauto]. intros Hu. split; [done|].
  destruct (decide (b ∈ L)); [left; auto|by right].
Qed.

Lemma freed_one fs p :
  fs_wf fs -> 0 < p < nblocks fs -> used fs p = true ->
  exists fs', sfs_bfree fs p = Done fs' /\ freed fs [p] fs'.
Proof.
  intros H Hp Hu. destruct (sfs_bfree_ok fs p H Hp Hu) as (fs' & He & H' & Hsb & Hs & Hus).
  exists fs'. split; [done|]. split; try done. intros b Hb. rewrite Hus by done.
  rewrite list_elem_of_singleton. destruct (Z.eqb_spec b p) as [->|]; [|tauto]. split; [done|lia].
Qed.

Lemma freed_app fs L1 fs1 L2 fs2 :
  freed fs L1 fs1 -> freed fs1 L2 fs2 -> freed fs (L1 ++ L2) fs2.
Proof.
  intros [A1 A2 A3 A4] [B1 B2 B3 B4]. split; try done; try congruence.
  intros b Hb. rewrite B4, A4 by done. rewrite elem_of_app. tauto.
Qed.

Lemma freed_equiv fs L L' fs' :
  (forall b, b <> 0 -> b ∈ L <-> b ∈ L') -> freed fs L fs' -> freed fs L' fs'.
Proof.
  intros HL [A1 A2 A3 A4]. split; try done. intros b Hb. rewrite A4 by done.
  destruct (decide (b = 0)); [tauto|]. rewrite HL by done. tauto.
Qed.

Lemma blocks_of_drop fs L n : blocks_of fs L -> blocks_of fs (drop n L).
Proof.
  intros [H1 H2]. split.
  - intros b Hb. apply H1. rewrite <- (take_drop n L). apply elem_of_app. by right.
  - intros i j b. rewrite !lookup_drop. intros Hi Hj Hb.
    pose proof (H2 _ _ _ Hi Hj Hb). lia.
Qed.

Lemma blocks_of_tail fs l i : blocks_of fs (drop i l) -> blocks_of fs (drop (S i) l).
Proof.
  intros HB. apply (blocks_of_drop _ _ 1) in HB. by rewrite drop_drop, Nat.add_1_r in HB.
Qed.

(** Both loops clear the entries of a list from some index on. *)
Lemma drop_lookup (l : list Z) i p : l !! i = Some p -> drop i l = p :: drop (S i) l.
Proof. intros. by rewrite (drop_S l p i). Qed.

Lemma blocks_of_next fs l i p fs1 :
  l !! i = Some p -> p <> 0 -> blocks_of fs (drop i l) -> freed fs [p] fs1 ->
  blocks_of fs1 (drop (S i) (<[i := 0]> l)).
Proof.
  intros Hi Hp [B1 B2] [F1 F2 F3 F4]. rewrite drop_insert_lt by lia.
  rewrite (drop_lookup l i p Hi) in B1, B2. split.
  - intros b Hb Hb0. destruct (B1 b) as [? ?]; [by right|done|].
    unfold nblocks in *. rewrite F2. split; [done|]. rewrite F4 by lia.
    split; [done|]. right. rewrite list_elem_of_singleton. intros ->.
    apply list_elem_of_lookup in Hb as [j Hj].
    specialize (B2 0%nat (S j) p eq_refl Hj Hp). lia.
  - intros j1 j2 b H1 H2 Hb. specialize (B2 (S j1) (S j2) b H1 H2 Hb). lia.
Qed.

(** The inode with other direct pointers (and, perhaps, the dirty flag set). *)
Record same_but_direct (sv sv' : sfs_vnode) (dir : list Z) : Prop := {
  sbd_i : sv_i sv' = mkDinode (sfi_size (sv_i sv)) (sfi_type (sv_i sv)) (sfi_linkcount (sv_i sv))
                       dir (sfi_indirect (sv_i sv)) (sfi_waste (sv_i sv));
  sbd_ino : sv_ino sv' = sv_ino sv }.

Lemma itrunc_direct_ok k i blocklen fs sv :
  fs_wf fs -> 0 <= blocklen -> (i + k)%nat = length (sfi_direct (sv_i sv)) ->
  blocks_of fs (drop (Nat.max (Z.to_nat blocklen) i) (sfi_direct (sv_i sv))) ->
  exists fs' sv', itrunc_direct k (Z.of_nat i) blocklen fs sv = Done (fs', sv') /\
    same_but_direct sv sv' (zero_from (Nat.max (Z.to_nat blocklen) i) (sfi_direct (sv_i sv))) /\
    freed fs (drop (Nat.max (Z.to_nat blocklen) i) (sfi_direct (sv_i sv))) fs'.
Proof.
  revert i fs sv. induction k as [|k IH]; intros i fs sv H Hbl Hik HB; cbn [itrunc_direct].
  - exists fs, sv. split; [done|]. split.
    + split; [|done]. rewrite zero_from_all by lia. by destruct (sv_i sv).
    + rewrite drop_ge by lia. apply freed_none; [done|]. intros b Hb. by apply not_elem_of_nil in Hb.
  - rewrite Nat2Z.id. set (l := sfi_direct (sv_i sv)) in *.
    destruct (lookup_lt_is_Some_2 l i) as [p Hp]; [lia|]. rewrite Hp. kred.
    replace (Z.of_nat i + 1) with (Z.of_nat (S i)) by lia.
    rewrite Z.geb_leb. destruct (Z.leb_spec blocklen (Z.of_nat i)) as [Hge|Hlt];
      [destruct (Z.eqb_spec p 0) as [->|Hp0]|]; cbn [andb negb].
    + destruct (IH (S i) fs sv) as (fs' & sv' & He & Hs & Hf); [done|done|fold l; lia| |].
      { replace (Nat.max (Z.to_nat blocklen) (S i)) with (S i) by lia.
        replace (Nat.max (Z.to_nat blocklen) i) with i in HB by lia.
        by apply blocks_of_tail. }
      exists fs', sv'. split; [done|]. fold l in Hs, Hf.
      rewrite zero_from_skip in Hs by by right. split; [done|].
      eapply freed_equiv, Hf. intros b Hb.
      replace (Nat.max (Z.to_nat blocklen) (S i)) with (S i) by lia.
      replace (Nat.max (Z.to_nat blocklen) i) with i by lia.
      rewrite (drop_lookup l i 0 Hp), elem_of_cons. split; [by right|by intros [->|?]].
    + replace (Nat.max (Z.to_nat blocklen) i) with i in * by lia.
      destruct (freed_one fs p) as (fs1 & -> & Hf1); [done|..].
      1-2: apply HB; [rewrite (drop_lookup l i p Hp); by left|done].
      kred. pose proof (blocks_of_next _ _ _ _ _ Hp Hp0 HB Hf1) as HB1.
      destruct (IH (S i) fs1 (set_direct sv (Z.of_nat i) 0)) as (fs' & sv' & He & Hs & Hf);
        [apply Hf1|done|cbn; rewrite length_insert; unfold l in Hik; lia| |].
      { cbn [set_direct sv_i sfi_direct]. rewrite Nat2Z.id.
        by replace (Nat.max (Z.to_nat blocklen) (S i)) with (S i) by lia. }
      { cbn [set_direct sv_i sfi_direct sfi_size sfi_type sfi_linkcount sfi_indirect] in Hs, Hf.
        rewrite Nat2Z.id in *. fold l in Hs, Hf. revert Hs Hf.
        replace (Nat.max (Z.to_nat blocklen) (S i)) with (S i) by lia.
        rewrite zero_from_step, drop_insert_lt by lia. intros Hs Hf. exists fs', sv'. split; [done|]. split.
        - by destruct Hs as [Hs1 Hs2]; split.
        - rewrite (drop_lookup l i p Hp). apply (freed_app fs [p] fs1 _ fs' Hf1 Hf). }
    + destruct (IH (S i) fs sv) as (fs' & sv' & He & Hs & Hf); [done|done|fold l; lia| |].
      { by replace (Nat.max (Z.to_nat blocklen) (S i)) with (Nat.max (Z.to_nat blocklen) i) by lia. }
      exists fs', sv'. split; [done|].
      by replace (Nat.max (Z.to_nat blocklen) (S i)) with (Nat.max (Z.to_nat blocklen) i) in * by lia.
Qed.

Lemma itrunc_indirect_ok k j blocklen fs l hnz dirty :
  fs_wf fs -> 0 <= blocklen -> (j + k)%nat = length l ->
  let n := Z.to_nat (blocklen - 14) in
  blocks_of fs (drop (Nat.max n j) l) ->
  exists fs' hnz' dirty',
    itrunc_indirect k (Z.of_nat j) blocklen SFS_NDIRECT fs l hnz dirty =
      Done (fs', zero_from (Nat.max n j) l, hnz', dirty') /\
    (hnz' = false -> hnz = false /\ forall p, p ∈ drop j (take (Nat.max n j) l) -> p = 0) /\
    (dirty' = false -> dirty = false /\ zero_from (Nat.max n j) l = l) /\
    freed fs (drop (Nat.max n j) l) fs'.
Proof.
  intros H Hbl Hjk n. revert j fs l hnz dirty H Hjk.
  induction k as [|k IH]; intros j fs l hnz dirty H Hjk HB; cbn [itrunc_indirect].
  - exists fs, hnz, dirty. rewrite zero_from_all by lia. split; [done|].
    split; [|split; [done|]].
    + intros ->. split; [done|]. intros p. rewrite drop_ge by (rewrite length_take; lia).
      by intros Hp%not_elem_of_nil.
    + rewrite drop_ge by lia. apply freed_none; [done|]. by intros b Hb%not_elem_of_nil.
  - rewrite Nat2Z.id. destruct (lookup_lt_is_Some_2 l j) as [p Hp]; [lia|]. rewrite Hp. kred.
    replace (Z.of_nat j + 1) with (Z.of_nat (S j)) by lia.
    destruct (Z.ltb_spec blocklen (SFS_NDIRECT + Z.of_nat j)) as [Hge|Hlt]; unfold SFS_NDIRECT in *;
      [destruct (Z.eqb_spec p 0) as [->|Hp0]|]; cbn [andb negb].
    + replace (Nat.max n j) with j in * by lia.
      destruct (IH (S j) fs l (hnz || false) dirty) as (fs' & hnz' & dirty' & He & Hh & Hd & Hf); [done|lia| |].
      { replace (Nat.max n (S j)) with (S j) by lia. by apply blocks_of_tail. }
      revert He Hh Hd Hf. replace (Nat.max n (S j)) with (S j) by lia.
      pose proof (zero_from_skip 0 l j (or_intror Hp)) as Hz. cbn [Nat.max] in Hz.
      change (0 `max` j)%nat with j in Hz. rewrite Hz, orb_false_r. intros He Hh Hd Hf.
      exists fs', hnz', dirty'. split; [done|]. split_and!; [|done|].
      * intros Hf'. destruct (Hh Hf') as [? _]. split; [done|]. intros q.
        rewrite drop_ge by (rewrite length_take; lia). by intros Hq%not_elem_of_nil.
      * eapply freed_equiv, Hf. intros b Hb. rewrite (drop_lookup l j 0 Hp), elem_of_cons.
        split; [by right|by intros [->|?]].
    + replace (Nat.max n j) with j in * by lia.
      destruct (freed_one fs p) as (fs1 & -> & Hf1); [done|..].
      1-2: apply HB; [rewrite (drop_lookup l j p Hp); by left|done].
      kred. pose proof (blocks_of_next _ _ _ _ _ Hp Hp0 HB Hf1) as HB1.
      destruct (IH (S j) fs1 (<[j := 0]> l) hnz true) as (fs' & hnz' & dirty' & He & Hh & Hd & Hf);
        [apply Hf1|rewrite length_insert; lia| |].
      { by replace (Nat.max n (S j)) with (S j) by lia. }
      revert He Hh Hd Hf. replace (Nat.max n (S j)) with (S j) by lia.
      rewrite zero_from_step, drop_insert_lt by lia. intros He Hh Hd Hf.
      exists fs', hnz', dirty'. split; [done|]. split_and!.
      * intros Hf'. destruct (Hh Hf') as [? _]. split; [done|]. intros q.
        rewrite drop_ge by (rewrite length_take; lia). by intros Hq%not_elem_of_nil.
      * intros Hd'. by destruct (Hd Hd').
      * rewrite (drop_lookup l j p Hp). apply (freed_app fs [p] fs1 _ fs' Hf1 Hf).
    + replace (Nat.max n j) with n in * by lia.
      destruct (IH (S j) fs l (hnz || negb (p =? 0)) dirty) as (fs' & hnz' & dirty' & He & Hh & Hd & Hf);
        [done|lia|by replace (Nat.max n (S j)) with n by lia|].
      revert He Hh Hd Hf. replace (Nat.max n (S j)) with n by lia. intros He Hh Hd Hf.
      exists fs', hnz', dirty'. split; [done|]. split_and!; [|done|done].
      intros Hf'. destruct (Hh Hf') as [Ho Hall]. apply orb_false_iff in Ho as [-> Hp0].
      split; [done|]. intros q. rewrite (drop_lookup _ j p).
      2: { rewrite lookup_take_lt by lia. done. }
      rewrite elem_of_cons. intros [->|Hq]; [|by apply Hall].
      destruct (Z.eqb_spec p 0); [done|discriminate].
Qed.

(** Which blocks of the file survive a truncation to [n] blocks. *)
Definition trunc_keep (n k : nat) : bool := (k <? n)%nat || ((15 <=? k)%nat && (k =? n)%nat).

(** The file was truncated to [n] blocks and size [len]. *)
Record truncated (fs : sfs_fs) (sv : sfs_vnode) (n : nat) (len : Z) (fs' : sfs_fs) (sv' : sfs_vnode) : Prop := {
  tr_step : file_step fs sv fs' sv';
  tr_size : sfi_size (sv_i sv') = len;
  tr_ptrs : forall k, ptrs fs' sv' !! k = (fun p => if trunc_keep n k then p else 0) <$> ptrs fs sv !! k;
  tr_blocks : forall p, p <> 0 -> p ∈ ptrs fs' sv' -> fsector fs' p = fsector fs p;
  tr_free : forall b, owns fs sv b -> ~ owns fs' sv' b -> used fs' b = false }.

Section Truncation.
Context (fs : sfs_fs) (sv : sfs_vnode) (n : nat).
Context (H : fs_wf fs) (W : sv_wf fs sv).
Let l1 := sfi_direct (sv_i sv).
Let l2 := iptrs fs sv.
Let F := drop n l1 ++ drop (n - 14) l2.

Lemma lookup_trunc k :
  (zero_from n l1 ++ zero_from (n - 14) l2) !! k =
    (fun p => if trunc_keep n k then p else 0) <$> ptrs fs sv !! k.
Proof using H W.
  pose proof (vw_direct _ _ W) as Hl. unfold ptrs, trunc_keep. fold l1 in Hl |- *. fold l2.
  destruct (decide (k < 15)%nat) as [Hk|Hk].
  - rewrite !lookup_app_l by (rewrite ?length_zero_from; lia).
    rewrite lookup_zero_from, (proj2 (Nat.leb_gt 15 k)) by lia. cbn [andb]. by rewrite orb_false_r.
  - rewrite !lookup_app_r by (rewrite ?length_zero_from; lia).
    rewrite length_zero_from, lookup_zero_from, (proj2 (Nat.leb_le 15 k)), Hl by lia. cbn [andb].
    destruct (l2 !! (k - 15)%nat); [|done]. cbn [fmap option_fmap option_map]. f_equal.
    destruct (Nat.ltb_spec (k - 15) (n - 14)), (Nat.ltb_spec k n), (Nat.eqb_spec k n); cbn [orb]; done || lia.
Qed.

Lemma elem_of_freed b : b ∈ F <-> exists k, ptrs fs sv !! k = Some b /\ trunc_keep n k = false.
Proof using H W.
  pose proof (vw_direct _ _ W) as Hl. unfold F, ptrs, trunc_keep. fold l1 in Hl |- *. fold l2.
  rewrite elem_of_app, !list_elem_of_lookup. split.
  - intros [[i Hi]|[i Hi]]; rewrite lookup_drop in Hi; pose proof (lookup_lt_Some _ _ _ Hi).
    + exists (n + i)%nat. rewrite lookup_app_l, Hi by lia. split; [done|].
      destruct (Nat.ltb_spec (n + i) n), (Nat.leb_spec 15 (n + i)), (Nat.eqb_spec (n + i) n); done || lia.
    + exists (15 + (n - 14 + i))%nat. rewrite lookup_app_r, Hl by lia.
      replace (15 + (n - 14 + i) - 15)%nat with (n - 14 + i)%nat by lia. split; [done|].
      destruct (Nat.ltb_spec (15 + (n - 14 + i)) n), (Nat.leb_spec 15 (15 + (n - 14 + i))),
        (Nat.eqb_spec (15 + (n - 14 + i)) n); done || lia.
  - intros (k & Hk & Hkeep). destruct (decide (k < 15)%nat) as [Hd|Hd].
    + rewrite lookup_app_l in Hk by lia. left. exists (k - n)%nat. rewrite lookup_drop.
      destruct (Nat.ltb_spec k n); [done|]. by replace (n + (k - n))%nat with k by lia.
    + rewrite lookup_app_r, Hl in Hk by lia. right. exists (k - 15 - (n - 14))%nat. rewrite lookup_drop.
      replace (n - 14 + (k - 15 - (n - 14)))%nat with (k - 15)%nat; [done|].
      destruct (Nat.ltb_spec k n), (Nat.leb_spec 15 k), (Nat.eqb_spec k n); try done; lia.
Qed.

(** What the branches of [sfs_itrunc] have in common at the end. *)
Lemma trunc_close fs' sv' len :
  fs_wf fs' -> sfs_sb fs' = sfs_sb fs -> sv_ino sv' = sv_ino sv ->
  sfi_type (sv_i sv') = sfi_type (sv_i sv) -> sfi_linkcount (sv_i sv') = sfi_linkcount (sv_i sv) ->
  sfi_direct (sv_i sv') = zero_from n l1 -> iptrs fs' sv' = zero_from (n - 14) l2 ->
  (sfi_indirect (sv_i sv') = sfi_indirect (sv_i sv) \/ sfi_indirect (sv_i sv') = 0) ->
  (forall b, 0 <= b -> used fs' b = true <-> used fs b = true /\
     (b = 0 \/ (b ∉ F) /\ (b = sfi_indirect (sv_i sv) -> sfi_indirect (sv_i sv') = b))) ->
  (forall b, b = 0 \/ b <> sfi_indirect (sv_i sv) -> fsector fs' b = fsector fs b) ->
  sfi_size (sv_i sv') = len -> 0 <= len <= 143 * 512 ->
  truncated fs sv n len fs' sv'.
Proof using H W.
  intros H' Hsb Hino Hty Hlk Hdir Hip Hind Hused Hsec Hsz Hlen.
  assert (Hpt : forall k, ptrs fs' sv' !! k = (fun p => if trunc_keep n k then p else 0) <$> ptrs fs sv !! k).
  { intros k. rewrite <- lookup_trunc. unfold ptrs. by rewrite Hdir, Hip. }
  assert (Hkept : forall k b, ptrs fs' sv' !! k = Some b -> b <> 0 ->
            ptrs fs sv !! k = Some b /\ trunc_keep n k = true).
  { intros k b Hk Hb. rewrite Hpt in Hk. destruct (ptrs fs sv !! k) as [p|]; [|done].
    cbn in Hk. destruct (trunc_keep n k); split; congruence. }
  assert (Hin : forall b, b <> 0 -> b ∈ ptrs fs' sv' -> b ∈ ptrs fs sv /\ b ∉ F).
  { intros b Hb [k Hk]%list_elem_of_lookup. apply Hkept in Hk as [Hk Hkeep]; [|done].
    split; [by apply list_elem_of_lookup_2 with k|].
    intros (k' & Hk' & Hkeep')%elem_of_freed. rewrite (vw_uniq _ _ W k k' b) in Hkeep by done. congruence. }
  assert (HindF : sfi_indirect (sv_i sv) <> 0 -> sfi_indirect (sv_i sv) ∉ F).
  { intros Hi (k & Hk & _)%elem_of_freed. apply (vw_ind _ _ W Hi). by apply list_elem_of_lookup_2 with k. }
  assert (Hown : forall b, owns fs' sv' b -> owns fs sv b /\ (b ∉ F) /\
            (b = sfi_indirect (sv_i sv) -> sfi_indirect (sv_i sv') = b)).
  { intros b [Hb [Hbp| ->]].
    - destruct (Hin b Hb Hbp) as [? ?]. split; [split; [done|by left]|]. split; [done|].
      intros ->. by destruct (vw_ind _ _ W Hb).
    - destruct Hind as [Hi|?]; [|done]. rewrite Hi in *. split; [split; [done|by right]|].
      split; [by apply HindF|done]. }
  split; try done.
  - split; try done.
    + split.
      * rewrite Hdir, length_zero_from. apply W.
      * intros b Hb. apply Hown in Hb as Hc. destruct Hc as (Ho & HbF & Hbi).
        apply (vw_owns _ _ W) in Ho as [? ?]. unfold nblocks in *. rewrite Hsb. split; [done|].
        apply Hused; [lia|]. split; [done|]. by right.
      * intros i j b Hi Hj Hb. apply Hkept in Hi as [Hi _], Hj as [Hj _]; try done.
        by apply (vw_uniq _ _ W) with b.
      * intros Hi Hb. apply Hin in Hb as [Hb _]; [|done]. destruct Hind as [He|?]; [|done].
        rewrite He in *. by apply (vw_ind _ _ W).
      * lia.
    + intros b Hb Hu Ho. split_and!.
      * apply Hused; [lia|]. split; [done|]. destruct (decide (b = 0)) as [|Hb0]; [by left|right]. split.
        -- intros (k & Hk & _)%elem_of_freed. apply Ho. split; [done|]. left. by apply list_elem_of_lookup_2 with k.
        -- intros ->. destruct Ho. split; [done|by right].
      * apply Hsec. destruct (decide (b = 0)) as [|Hb0]; [by left|right]. intros ->. apply Ho. split; [done|by right].
      * intros [? _]%Hown. done.
  - intros p Hp Hpp. apply Hsec. right. apply Hin in Hpp as [Hpp _]; [|done]. intros ->. by apply (vw_ind _ _ W).
  - intros b Ho Hno. destruct (used fs' b) eqn:Hu; [|done]. destruct Hno.
    pose proof (vw_owns _ _ W b Ho) as [Hr _]. apply Hused in Hu as [_ [->|[HF Hi]]]; [lia|..|lia].
    destruct Ho as [Hb [[k Hk]%list_elem_of_lookup|Hb2]].
    + split; [done|]. left. apply list_elem_of_lookup. exists k. rewrite Hpt, Hk. cbn.
      destruct (trunc_keep n k) eqn:Hkeep; [done|]. destruct HF. apply elem_of_freed. eauto.
    + split; [done|]. right. symmetry. auto.
Qed.
End Truncation.

Lemma blocks_of_ptrs fs sv : sv_wf fs sv -> blocks_of fs (ptrs fs sv).
Proof.
  intros W. split; [|apply W]. intros b Hb Hb0. apply (vw_owns _ _ W). split; [done|by left].
Qed.

Lemma blocks_of_app fs L1 L2 L fs1 :
  blocks_of fs (L1 ++ L2) -> (forall b, b ∈ L -> b ∈ L1) -> freed fs L fs1 -> blocks_of fs1 L2.
Proof.
  intros [B1 B2] HL [F1 F2 F3 F4]. split.
  - intros b Hb Hb0. destruct (B1 b) as [? ?]; [apply elem_of_app; by right|done|].
    unfold nblocks in *. rewrite F2. split; [done|]. rewrite F4 by lia. split; [done|right].
    intros [i Hi]%HL%list_elem_of_lookup. apply list_elem_of_lookup in Hb as [j Hj].
    assert (i = length L1 + j)%nat; [|apply lookup_lt_Some in Hi; lia].
    apply (B2 _ _ b); [by apply lookup_app_l_Some|rewrite lookup_app_r by lia|done].
    by replace (length L1 + j - length L1)%nat with j by lia.
  - intros i j b Hi Hj Hb.
    assert (length L1 + i = length L1 + j)%nat; [|lia]. apply (B2 _ _ b); [..|done];
      rewrite lookup_app_r by lia;
      [by replace (length L1 + i - length L1)%nat with i by lia|by replace (length L1 + j - length L1)%nat with j by lia].
Qed.

Lemma elem_of_drop {A} (x : A) n l : x ∈ drop n l -> x ∈ l.
Proof. intros Hx. rewrite <- (take_drop n l). apply elem_of_app. by right. Qed.

Lemma zero_from_zeros n l : (forall p, p ∈ take n l -> p = 0) -> zero_from n l = replicate (length l) 0.
Proof.
  intros Hz. apply list_eq. intros k. rewrite lookup_zero_from.
  destruct (l !! k) as [p|] eqn:Hk; cbn [fmap option_fmap option_map].
  - rewrite lookup_replicate_2 by by apply lookup_lt_Some in Hk. f_equal.
    destruct (Nat.ltb_spec k n); [|done]. apply Hz. apply list_elem_of_lookup. exists k. by rewrite lookup_take_lt.
  - symmetry. apply lookup_ge_None_2. rewrite length_replicate. by apply lookup_ge_None_1.
Qed.

Lemma Forall_zero_from (P : Z -> Prop) n l : P 0 -> Forall P l -> Forall P (zero_from n l).
Proof.
  intros H0 Hl. apply Forall_lookup. intros k p. rewrite lookup_zero_from.
  destruct (l !! k) as [q|] eqn:Hk; [|done]. cbn [fmap option_fmap option_map]. intros [= <-].
  destruct (k <? n)%nat; [|done]. rewrite Forall_lookup in Hl. eauto.
Qed.

(** The part of [sfs_itrunc] behind the indirect block, which is read. *)
Lemma itrunc_indirect_block fs sv blocklen fs1 sv1 :
  fs_wf fs -> sv_wf fs sv -> 0 <= blocklen < 142 -> sfi_indirect (sv_i sv) <> 0 ->
  let n := Z.to_nat blocklen in
  same_but_direct sv sv1 (zero_from n (sfi_direct (sv_i sv))) ->
  freed fs (drop n (sfi_direct (sv_i sv))) fs1 ->
  exists fs2 hnz dirty, sfs_readblock fs1 (sfi_indirect (sv_i sv)) (zeros 512) =
      Done (0, fs1, fsector fs (sfi_indirect (sv_i sv))) /\
    itrunc_indirect 128 0 blocklen 15 fs1 (iptrs fs sv) false false =
      Done (fs2, zero_from (n - 14) (iptrs fs sv), hnz, dirty) /\
    (hnz = false -> zero_from (n - 14) (iptrs fs sv) = replicate 128 0) /\
    (dirty = false -> zero_from (n - 14) (iptrs fs sv) = iptrs fs sv) /\
    freed fs (drop n (sfi_direct (sv_i sv)) ++ drop (n - 14) (iptrs fs sv)) fs2.
Proof.
  intros H W Hbl Hi n Hs Hf. pose proof (indirect_range fs sv W Hi) as Hr.
  pose proof (iptrs_length fs sv H W) as Hil.
  destruct (itrunc_indirect_ok 128 0 blocklen fs1 (iptrs fs sv) false false) as (fs2 & hnz & dirty & He & Hh & Hd & Hf2);
    [apply Hf|lia|by rewrite Hil| |].
  { apply blocks_of_drop, (blocks_of_app fs (sfi_direct (sv_i sv)) _ (drop n (sfi_direct (sv_i sv)))); [by apply blocks_of_ptrs| |done].
    intros b. apply elem_of_drop. }
  replace (Nat.max (Z.to_nat (blocklen - 14)) 0) with (n - 14)%nat in * by lia.
  exists fs2, hnz, dirty. split_and!.
  - rewrite sfs_readblock_ok; [by rewrite (fr_sec _ _ _ Hf)|apply Hf| |apply length_zeros].
    unfold nblocks in *. rewrite (fr_sb _ _ _ Hf). lia.
  - exact He.
  - intros Hz. destruct (Hh Hz) as [_ Hall]. rewrite zero_from_zeros, Hil; [done|]. by rewrite drop_0 in Hall.
  - intros Hz. by destruct (Hd Hz).
  - by apply freed_app with fs1.
Qed.

(** The indirect block is left alone: there is none, or nothing behind it goes. *)
Lemma itrunc_close_skip fs sv bl fs1 sv1 len :
  fs_wf fs -> sv_wf fs sv -> 0 <= len <= 143 * 512 -> 0 <= bl ->
  142 <= bl \/ sfi_indirect (sv_i sv) = 0 ->
  let n := Z.to_nat bl in
  same_but_direct sv sv1 (zero_from n (sfi_direct (sv_i sv))) ->
  freed fs (drop n (sfi_direct (sv_i sv))) fs1 ->
  truncated fs sv n len fs1 (set_size sv1 len).
Proof.
  intros H W Hlen Hbl Hc n [Hs1 Hs2] Hf. pose proof (iptrs_length fs sv H W) as Hil.
  assert (Hz : zero_from (n - 14) (iptrs fs sv) = iptrs fs sv /\ forall b, b ∈ drop (n - 14) (iptrs fs sv) -> b = 0).
  { destruct Hc as [Hc|Hc].
    - rewrite zero_from_all, drop_ge by lia. split; [done|]. by intros b Hb%not_elem_of_nil.
    - unfold iptrs. rewrite Hc, Z.eqb_refl. split.
      + rewrite zero_from_zeros; [by rewrite length_replicate|].
        intros p. rewrite take_replicate. by intros [? _]%elem_of_replicate.
      + intros b. rewrite drop_replicate. by intros [? _]%elem_of_replicate. }
  destruct Hz as [Hz1 Hz2].
  assert (Hip : iptrs fs1 (set_size sv1 len) = iptrs fs sv).
  { unfold iptrs. cbn. rewrite Hs1. cbn. by rewrite (fr_sec _ _ _ Hf). }
  apply trunc_close; cbn [set_size sv_i sv_ino sfi_direct sfi_type sfi_linkcount sfi_indirect sfi_size]; try done;
    rewrite ?Hs1; try done; try (by left); try apply Hf.
  - by rewrite Hip, Hz1.
  - intros b Hb. rewrite (fr_used _ _ _ Hf) by done. cbn [sfi_indirect].
    destruct (decide (b = 0)); [tauto|]. rewrite elem_of_app.
    assert (b ∉ drop (n - 14) (iptrs fs sv)) by (intros Hbb; by apply Hz2 in Hbb).
    assert (b = sfi_indirect (sv_i sv) -> sfi_indirect (sv_i sv) = b) by done. tauto.
  - intros b _. apply Hf.
Qed.

(** The indirect block was processed: it is freed when nothing is left in it,
    and written back when it changed. *)
Lemma itrunc_close_indirect fs sv n fs2 fs3 sv1 sv3 len :
  fs_wf fs -> sv_wf fs sv -> 0 <= len <= 143 * 512 -> sfi_indirect (sv_i sv) <> 0 ->
  same_but_direct sv sv1 (zero_from n (sfi_direct (sv_i sv))) ->
  freed fs (drop n (sfi_direct (sv_i sv)) ++ drop (n - 14) (iptrs fs sv)) fs2 ->
  (fs3 = fs_write fs2 (sfi_indirect (sv_i sv)) (encode_words (zero_from (n - 14) (iptrs fs sv))) /\ sv3 = sv1 \/
   zero_from (n - 14) (iptrs fs sv) = iptrs fs sv /\ fs3 = fs2 /\ sv3 = sv1 \/
   zero_from (n - 14) (iptrs fs sv) = replicate 128 0 /\
     freed fs2 [sfi_indirect (sv_i sv)] fs3 /\ sv3 = set_indirect sv1 0) ->
  truncated fs sv n len fs3 (set_size sv3 len).
Proof.
  intros H W Hlen Hi [Hs1 Hs2] Hf Hcase. pose proof (indirect_range fs sv W Hi) as Hr.
  pose proof (iptrs_length fs sv H W) as Hil.
  assert (Hsym : forall b, b = sfi_indirect (sv_i sv) -> sfi_indirect (sv_i sv) = b) by done.
  assert (Hip2 : iptrs fs2 sv1 = iptrs fs sv).
  { unfold iptrs. rewrite Hs1. cbn. by rewrite (fr_sec _ _ _ Hf). }
  destruct Hcase as [[-> ->]|[(Hz & -> & ->)|(Hz & Hf3 & ->)]].
  - apply trunc_close; cbn [set_size sv_i sv_ino sfi_direct sfi_type sfi_linkcount sfi_indirect sfi_size]; try done;
      rewrite ?Hs1; try done; try (by left).
    + apply fs_write_wf; [apply Hf|]. split; [|apply bytes_encode_words].
      rewrite length_encode_words, length_zero_from. lia.
    + apply Hf.
    + unfold iptrs at 1. cbn. rewrite Hs1. cbn [sfi_indirect]. rewrite (proj2 (Z.eqb_neq _ _)) by done.
      rewrite fsector_write_eq. apply decode_encode_words, Forall_zero_from; [lia|].
      unfold iptrs. rewrite (proj2 (Z.eqb_neq _ _)) by done. apply decode_words_range.
      apply (fsector_block fs); [done|lia].
    + intros b Hb. cbn [sfi_indirect]. change (used (fs_write _ _ _) b) with (used fs2 b).
      rewrite (fr_used _ _ _ Hf) by done. specialize (Hsym b). tauto.
    + intros b Hb. rewrite fsector_write_ne, (fr_sec _ _ _ Hf); [done|]. destruct Hb as [->|?]; congruence.
  - apply trunc_close; cbn [set_size sv_i sv_ino sfi_direct sfi_type sfi_linkcount sfi_indirect sfi_size]; try done;
      rewrite ?Hs1; try done; try (by left); try apply Hf.
    + transitivity (iptrs fs2 sv1); [|congruence]. done.
    + intros b Hb. cbn [sfi_indirect]. rewrite (fr_used _ _ _ Hf) by done. specialize (Hsym b). tauto.
    + intros b _. apply Hf.
  - apply trunc_close; cbn [set_size set_indirect sv_i sv_ino sfi_direct sfi_type sfi_linkcount sfi_indirect sfi_size];
      try done; rewrite ?Hs1; try done; try (by right); try apply Hf3.
    + rewrite (fr_sb _ _ _ Hf3). apply Hf.
    + intros b Hb. cbn [sfi_indirect]. rewrite (fr_used _ _ _ Hf3), (fr_used _ _ _ Hf), list_elem_of_singleton by done.
      destruct (decide (b = 0)); [tauto|]. assert (0 <> b) by done. tauto.
    + intros b _. by rewrite (fr_sec _ _ _ Hf3), (fr_sec _ _ _ Hf).
Qed.

Lemma sfs_itrunc_ok fs sv len :
  fs_wf fs -> sv_wf fs sv -> 0 <= len <= 143 * 512 ->
  exists fs' sv', sfs_itrunc fs sv len = Done (0, fs', sv') /\
    truncated fs sv (Z.to_nat ((len + 511) / 512)) len fs' sv'.
Proof.
  intros H W Hlen. unfold sfs_itrunc, SFS_BLOCKSIZE, SFS_NDIRECT, SFS_DBPERIDB.
  assert (Hbl : u32 (Z.quot (len + 512 - 1) 512) = (len + 511) / 512).
  { rewrite Z.quot_div_nonneg by lia. rewrite u32_small by lia. f_equal. lia. }
  rewrite Hbl. clear Hbl. set (bl := (len + 511) / 512). assert (0 <= bl <= 143) by lia.
  change (Z.to_nat 15) with 15%nat. change (Z.to_nat 128) with 128%nat.
  pose proof (vw_direct _ _ W) as Hdl.
  destruct (itrunc_direct_ok 15 0 bl fs sv) as (fs1 & sv1 & He & Hs & Hf); [done|lia|done| |].
  { apply blocks_of_drop. destruct (blocks_of_ptrs fs sv W) as [B1 B2]. unfold ptrs in *. split.
    - intros b Hb. apply B1, elem_of_app. by left.
    - intros i j b Hi Hj. apply B2; by apply lookup_app_l_Some. }
  rewrite Nat.max_0_r in Hs, Hf. change (Z.of_nat 0) with 0 in He. rewrite He. kred.
  rewrite (sbd_i _ _ _ Hs). cbn [sfi_indirect]. rewrite (u32_small len) by lia.
  destruct ((bl <? 15 + 128 - 1) && negb (sfi_indirect (sv_i sv) =? 0)) eqn:Hc; kred.
  2: { exists fs1, (set_size sv1 len). split; [done|]. apply itrunc_close_skip; try done; [lia|].
    destruct (Z.ltb_spec bl (15 + 128 - 1)), (Z.eqb_spec (sfi_indirect (sv_i sv)) 0); try done; auto with lia. }
  apply andb_true_iff in Hc as [Hbl Hi]. apply Z.ltb_lt in Hbl.
  apply negb_true_iff, Z.eqb_neq in Hi. pose proof (indirect_range fs sv W Hi) as Hr.
  destruct (itrunc_indirect_block fs sv bl fs1 sv1) as (fs2 & hnz & dirty & Hrd & Hlp & Hh & Hd & Hf2);
    [done|done|lia|done|done|done|].
  unfold iptrs in Hlp at 1. rewrite (proj2 (Z.eqb_neq _ _)) in Hlp by done.
  change (Z.to_nat 512) with 512%nat. rewrite Hrd. kred. rewrite Hlp. kred.
  destruct hnz; kred; [destruct dirty; kred|].
  - rewrite (sfs_writeblock_ok fs2); [kred|apply Hf2| |].
    + eexists _, _. split; [done|]. apply itrunc_close_indirect with fs2 sv1; auto.
    + unfold nblocks in *. rewrite (fr_sb _ _ _ Hf2). lia.
    + rewrite length_encode_words, length_zero_from, iptrs_length by done. lia.
  - eexists _, _. split; [done|]. apply itrunc_close_indirect with fs2 sv1; auto 10.
  - destruct (freed_one fs2 (sfi_indirect (sv_i sv))) as (fs3 & -> & Hf3); [apply Hf2|..].
    + unfold nblocks in *. rewrite (fr_sb _ _ _ Hf2). lia.
    + apply (fr_used _ _ _ Hf2); [lia|]. split; [by apply (vw_owns _ _ W); split; [done|right]|].
      right. intros (k & Hk & _)%elem_of_freed; [|done..].
      apply (vw_ind _ _ W Hi). by apply list_elem_of_lookup_2 with k.
    + kred. eexists _, _. split; [done|]. apply itrunc_close_indirect with fs2 sv1; auto 10.
Qed.

(** ** Checking the invariants of a concrete file system *)

Definition is_blockb (b : list Z) : bool :=
  (length b =? 512)%nat && forallb (fun x => (0 <=? x) && (x <? 256)) b.

Definition bitmap_wfb (b : bitmap) : bool :=
  (0 <=? nbits b) && (nbits b + 8 <? 2 ^ 32) && (Z.of_nat (length (v b)) =? (nbits b + 7) / 8) &&
  forallb (fun x => (0 <=? x) && (x <? 256)) (v b) &&
  forallb (bit b) (seqZ (nbits b) (8 * Z.of_nat (length (v b)) - nbits b)).

Definition fs_wfb (fs : sfs_fs) : bool :=
  let d := sfs_device fs in
  (0 <=? d_blocks d) && (d_blocks d <? 2 ^ 31) &&
  forallb (fun i => match lh_sectors d !! i with Some b => is_blockb b | None => false end) (seqZ 0 (d_blocks d)) &&
  (length (lh_status d) =? 0)%nat && bitmap_wfb (sfs_freemap fs) &&
  (0 <? nblocks fs) && (nblocks fs <=? d_blocks d) && (nblocks fs <=? nbits (sfs_freemap fs)) &&
  forallb (used fs) (seqZ (nblocks fs) (nbits (sfs_freemap fs) - nblocks fs)) && used fs 0.

Definition sv_wfb (fs : sfs_fs) (sv : sfs_vnode) : bool :=
  let l := ptrs fs sv in
  let ind := sfi_indirect (sv_i sv) in
  (length (sfi_direct (sv_i sv)) =? 15)%nat &&
  forallb (fun b => (b =? 0) || ((0 <? b) && (b <? nblocks fs) && used fs b)) (ind :: l) &&
  forallb (fun i => forallb (fun j => (i =? j)%nat ||
     match l !! i, l !! j with Some a, Some b => (a =? 0) || negb (a =? b) | _, _ => true end)
     (seq 0 (length l))) (seq 0 (length l)) &&
  ((ind =? 0) || forallb (fun b => negb (b =? ind)) l) &&
  (0 <=? sfi_size (sv_i sv)) && (sfi_size (sv_i sv) <=? 143 * 512).

Lemma bytesb_ok l : forallb (fun x => (0 <=? x) && (x <? 256)) l = true -> bytes l.
Proof.
  rewrite forallb_forall. intros H. apply Forall_forall. intros x Hx%list_elem_of_In%H.
  unfold is_byte. lia.
Qed.

Lemma forallb_seqZ (f : Z -> bool) m n i :
  forallb f (seqZ m n) = true -> m <= i < m + n -> f i = true.
Proof. rewrite forallb_forall. intros H Hi. apply H, list_elem_of_In, elem_of_seqZ. lia. Qed.

Lemma bitmap_wfb_ok b : bitmap_wfb b = true -> bitmap_wf b.
Proof.
  unfold bitmap_wfb. rewrite !andb_true_iff. intros [[[[H1 H2] H3] H4] H5]. split; [lia|lia|by apply bytesb_ok|].
  intros i Hi. apply (forallb_seqZ _ _ _ i H5). lia.
Qed.

Lemma fs_wfb_ok fs : fs_wfb fs = true -> fs_wf fs.
Proof.
  unfold fs_wfb. rewrite !andb_true_iff. intros [[[[[[[[[H1 H2] H3] H4] H5] H6] H7] H8] H9] H10].
  split; [|by destruct (lh_status _)|by apply bitmap_wfb_ok|lia|lia| |done].
  - split; [lia|]. intros i Hi. pose proof (forallb_seqZ _ _ _ i H3 ltac:(lia)) as H. cbv beta in H.
    destruct (lh_sectors (sfs_device fs) !! i) as [b|]; [|done]. exists b. split; [done|].
    apply andb_true_iff in H as [Hl Hb]. split; [by apply Nat.eqb_eq|by apply bytesb_ok].
  - intros b Hb. apply (forallb_seqZ _ _ _ b H9). lia.
Qed.

Lemma sv_wfb_ok fs sv : sv_wfb fs sv = true -> sv_wf fs sv.
Proof.
  unfold sv_wfb. rewrite !andb_true_iff, !forallb_forall. intros [[[[[H1 H2] H3] H4] H5] H6].
  split; [by apply Nat.eqb_eq| | | |lia].
  - intros b [Hb [Hp| ->]]; [specialize (H2 b (or_intror (proj1 (list_elem_of_In _ _) Hp)))
      |specialize (H2 _ (or_introl eq_refl))]; cbv beta in H2;
      apply orb_true_iff in H2 as [?|H2]; try lia; rewrite !andb_true_iff, !Z.ltb_lt in H2; tauto.
  - intros i j b Hi Hj Hb. pose proof (lookup_lt_Some _ _ _ Hi). pose proof (lookup_lt_Some _ _ _ Hj).
    specialize (H3 i ltac:(apply in_seq; lia)). cbv beta in H3. rewrite forallb_forall in H3.
    specialize (H3 j ltac:(apply in_seq; lia)). cbv beta in H3. rewrite Hi, Hj in H3.
    destruct (Nat.eqb_spec i j); [done|]. lia.
  - intros Hi Hp. apply orb_true_iff in H4 as [H4|H4]; [lia|]. rewrite forallb_forall in H4.
    specialize (H4 _ (proj1 (list_elem_of_In _ _) Hp)). lia.
Qed.

(** ** The theorems *)

(** [sfs_balloc] hands out the lowest free block, which is never the
    superblock nor past the end of the volume: it is marked in use and filled with
    zeros, and no other block changes.  It fails only when the volume is full, with
    [ENOSPC] and without effect; it never panics. *)
Theorem sfs_balloc_fresh fs :
  fs_wf fs ->
  exists r fs', sfs_balloc fs = Done (r, fs') /\ fs_wf fs' /\
    match r with
    | Ok p => 0 < p < nblocks fs /\ used fs p = false /\
        (forall b, 0 <= b < p -> used fs b = true) /\
        fsector fs' p = zeros 512 /\
        (forall b, 0 <= b -> b <> p -> fsector fs' b = fsector fs b /\ used fs' b = used fs b) /\
        used fs' p = true /\ sfs_freemapdirty fs' = true
    | Err e => e = ENOSPC /\ fs' = fs /\ volume_full fs
    end.
Proof.
  intros H. destruct (sfs_balloc_ok fs H) as [(p & fs' & He & Ha & Hlow)|[He Hfull]].
  - exists (Ok p), fs'. destruct Ha as [A1 A2 A3 A4 A5 A6 A7 A8]. split_and!; try (done || lia).
    + intros b Hb Hbp. rewrite A7, A6 by done. by destruct (Z.eqb_spec b p).
    + by rewrite A7, Z.eqb_refl by lia.
  - by exists (Err ENOSPC), fs.
Qed.

(** C33. [sfs_bmap] on each block number.  Below 143: without allocation the
    stored pointer is returned (0 for a hole) and nothing changes; with it an
    existing block is returned, or the slot gets a fresh block, or the volume is
    full and [ENOSPC] is reported.  In every case the contents of each block of the
    file, the other files and the invariants survive.  From 143 on: [EFBIG]. *)
Theorem sfs_bmap_spec fs sv k doalloc :
  fs_wf fs -> sv_wf fs sv -> 0 <= k < 2 ^ 32 ->
  exists r fs' sv', sfs_bmap fs sv k doalloc = Done (r, fs', sv') /\
    file_step fs sv fs' sv' /\ (forall j, fblock fs' sv' j = fblock fs sv j) /\
    match ptrs fs sv !! Z.to_nat k, r with
    | None, r => r = Err EFBIG /\ 143 <= k /\ fs' = fs /\ sv' = sv
    | Some p0, Ok p => ptrs fs' sv' = <[Z.to_nat k := p]> (ptrs fs sv) /\
        (doalloc = false \/ p0 <> 0 -> p = p0 /\ fs' = fs /\ sv' = sv) /\
        (doalloc = true -> p <> 0)
    | Some p0, Err e => e = ENOSPC /\ doalloc = true /\ p0 = 0 /\ ptrs fs' sv' = ptrs fs sv /\ volume_full fs'
    end.
Proof.
  intros H W Hk. pose proof (ptrs_length fs sv H W) as Hlen. unfold NPTRS in Hlen.
  destruct (ptrs fs sv !! Z.to_nat k) as [p0|] eqn:Hp.
  2: { apply lookup_ge_None_1 in Hp. exists (Err EFBIG), fs, sv. rewrite bmap_toobig by lia.
       split; [done|]. split; [by apply file_step_refl|]. split_and!; try done; lia. }
  pose proof (lookup_lt_Some _ _ _ Hp). pose proof (Z2Nat.id k ltac:(lia)) as Hkk.
  assert (Hcase : doalloc = false \/ p0 <> 0 \/ (doalloc = true /\ p0 = 0))
    by (destruct doalloc, (decide (p0 = 0)); auto).
  destruct (decide (doalloc = false \/ p0 <> 0)) as [Hno|Hal].
  - exists (Ok p0), fs, sv. split.
    { rewrite <- Hkk. apply bmap_lookup; done || unfold NPTRS; lia. } split; [by apply file_step_refl|]. split; [done|]. rewrite list_insert_id by done.
    split_and!; try done. intros ->. by destruct Hno.
  - assert (Hda : doalloc = true /\ p0 = 0) by tauto. destruct Hda as [-> ->].
    destruct (bmap_alloc fs sv (Z.to_nat k) 0) as (r & fs' & sv' & He & Hst & Hfb & _ & Hr);
      [done|done|unfold NPTRS; lia|done|]. rewrite Hkk in He.
    exists r, fs', sv'. split; [done|]. split; [done|]. split; [done|].
    destruct r as [p|e]; [|by destruct Hr as (-> & _ & ? & ?)].
    destruct Hr as (? & _ & ?). split_and!; try done.
Qed.

(** [sfs_itrunc] to [len] bytes always succeeds.  The blocks below
    [ceil(len/512)] keep their place and contents, and so does the block with that
    very number if it lies behind the indirect block (the code tests for [<] there:
    it keeps one block more than the direct case); every other pointer becomes 0.
    A block the file gives up, the indirect block included, is marked free; the
    blocks of everyone else are untouched. *)
Theorem sfs_itrunc_spec fs sv len :
  fs_wf fs -> sv_wf fs sv -> 0 <= len <= 143 * 512 ->
  let n := Z.to_nat ((len + 511) / 512) in
  exists fs' sv', sfs_itrunc fs sv len = Done (0, fs', sv') /\
    file_step fs sv fs' sv' /\ sfi_size (sv_i sv') = len /\
    (forall k, (k < n)%nat \/ (k = n /\ 15 <= k)%nat ->
       ptrs fs' sv' !! k = ptrs fs sv !! k /\ fblock fs' sv' k = fblock fs sv k) /\
    (forall k, (n <= k < NPTRS)%nat -> ~ (k = n /\ 15 <= k)%nat -> ptrs fs' sv' !! k = Some 0) /\
    (forall b, owns fs sv b -> ~ owns fs' sv' b -> used fs' b = false).
Proof.
  intros H W Hlen n. destruct (sfs_itrunc_ok fs sv len H W Hlen) as (fs' & sv' & He & [T1 T2 T3 T4 T5]).
  fold n in T3. exists fs', sv'. split_and!; try done.
  - intros k Hk. rewrite T3.
    assert (Hkeep : trunc_keep n k = true).
    { unfold trunc_keep. destruct (Nat.ltb_spec k n), (Nat.leb_spec 15 k), (Nat.eqb_spec k n); done || lia. }
    rewrite Hkeep. assert (Hp : (fun p : Z => p) <$> ptrs fs sv !! k = ptrs fs sv !! k) by by destruct (_ !! k).
    split; [done|]. pose proof (T3 k) as Hk3. rewrite Hkeep, Hp in Hk3. unfold fblock. rewrite Hk3.
    destruct (ptrs fs sv !! k) as [p|] eqn:Hpk; [|done]. destruct (Z.eqb_spec p 0); [done|].
    apply T4; [done|]. by apply list_elem_of_lookup_2 with k.
  - intros k Hk Hn. rewrite T3. pose proof (ptrs_length fs sv H W).
    destruct (lookup_lt_is_Some_2 (ptrs fs sv) k) as [p ->]; [lia|]. cbn [fmap option_fmap option_map].
    unfold trunc_keep. destruct (Nat.ltb_spec k n), (Nat.leb_spec 15 k), (Nat.eqb_spec k n); try done; lia.
Qed.

(** A volume of 16 blocks: 0-2 superblock, root directory and freemap, 3 the
    inode of a file with data blocks 4 and 5, indirect block 6 and data block 7
    behind it; 8-15 free. *)
Definition example_fs : sfs_fs :=
  mkFs (mkSuper SFS_MAGIC 16 (zeros 32) (replicate 118 0)) false
    (mkLhd 16 (list_to_map (map (fun i => (i, if i =? 6 then encode_words (7 :: replicate 127 0) else replicate 512 i))
       (seqZ 0 16))) [])
    (mkBitmap 16 [255; 0]) false.
Definition example_sv : sfs_vnode :=
  mkSv (mkDinode 7700 SFS_TYPE_FILE 1 (4 :: 5 :: replicate 13 0) 6 (replicate 110 0)) 3 false.

Lemma example_fs_wf : fs_wf example_fs.
Proof. apply fs_wfb_ok. vm_compute. reflexivity. Defined.
Lemma example_sv_wf : sv_wf example_fs example_sv.
Proof. apply sv_wfb_ok. vm_compute. reflexivity. Defined.

Lemma sfs_balloc_fresh_witness :
  fs_wf example_fs /\ exists fs', sfs_balloc example_fs = Done (Ok 8, fs') /\ used fs' 8 = true.
Proof.
  split; [apply example_fs_wf|].
  destruct (sfs_balloc_fresh example_fs example_fs_wf) as (r & fs' & He & _ & Hr).
  assert (r = Ok 8) as ->.
  { assert (Hc : match sfs_balloc example_fs with Done (Ok p, _) => p =? 8 | _ => false end = true)
      by (vm_compute; reflexivity).
    rewrite He in Hc. destruct r; [|discriminate]. f_equal. by apply Z.eqb_eq. }
  exists fs'. split; [exact He|apply Hr].
Defined.

Lemma sfs_bmap_spec_witness :
  exists r fs' sv', sfs_bmap example_fs example_sv 20 true = Done (r, fs', sv') /\
    file_step example_fs example_sv fs' sv' /\
    (forall j, fblock fs' sv' j = fblock example_fs example_sv j).
Proof.
  destruct (sfs_bmap_spec example_fs example_sv 20 true example_fs_wf example_sv_wf ltac:(lia))
    as (r & fs' & sv' & H1 & H2 & H3 & _).
  exists r, fs', sv'. exact (conj H1 (conj H2 H3)).
Defined.

Lemma sfs_itrunc_spec_witness :
  exists fs' sv', sfs_itrunc example_fs example_sv 7680 = Done (0, fs', sv') /\
    file_step example_fs example_sv fs' sv' /\ sfi_size (sv_i sv') = 7680 /\
    ptrs fs' sv' !! 15%nat = Some 7.
Proof.
  destruct (sfs_itrunc_spec example_fs example_sv 7680 example_fs_wf example_sv_wf ltac:(lia))
    as (fs' & sv' & H1 & H2 & H3 & H4 & _).
  exists fs', sv'. refine (conj H1 (conj H2 (conj H3 _))).
  rewrite (proj1 (H4 15%nat ltac:(right; vm_compute; split; [reflexivity|lia]))). vm_compute. reflexivity.
Defined.
