(* ===== verification/SfsIo.v ===== *)
(** * sfs_io.c: reading and writing files and directory entries

    [sfs_partialio], [sfs_blockio], [sfs_io] and [sfs_metaio], the abstract view of
    a file as an array of 143 * 512 bytes, and the proof that reads return and
    writes replace exactly the requested bytes of it. *)

From S2P Require Import Prelude CopyInOut Uio Bitmap Lhd Sfs.

Definition is_read (u : uio) : bool := bool_decide (uio_rwflag u = UIO_READ).
Definition is_write (u : uio) : bool := bool_decide (uio_rwflag u = UIO_WRITE).

Definition sfs_partialio (fs : sfs_fs) (sv : sfs_vnode) (u : uio) (skipstart len : Z)
    : outcome (Z * sfs_fs * sfs_vnode * uio) :=
  let doalloc := is_write u in
  KASSERT (u32 (skipstart + len) <=? SFS_BLOCKSIZE);;
  let fileblock := u32 (Z.quot (uio_offset u) SFS_BLOCKSIZE) in
  '(r, fs, sv) ← sfs_bmap fs sv fileblock doalloc;
  match r with
  | Err result => mret (result, fs, sv, u)
  | Ok diskblock =>
      '(result, fs, iobuf) ←
        (if diskblock =? 0 then
           KASSERT (is_read u);;
           mret (0, fs, zeros (Z.to_nat SFS_BLOCKSIZE))
         else sfs_readblock fs diskblock (zeros (Z.to_nat SFS_BLOCKSIZE)));
      if negb (result =? 0) then mret (result, fs, sv, u) else
      let skip := Z.to_nat skipstart in
      '(result, moved, u) ← uiomove (drop skip iobuf) len u;
      let iobuf := take skip iobuf ++ moved in
      if negb (result =? 0) then mret (result, fs, sv, u) else
      if is_write u then
        '(result, fs) ← sfs_writeblock fs diskblock iobuf;
        mret (result, fs, sv, u)
      else mret (0, fs, sv, u)
  end.

(** [diskblock * SFS_BLOCKSIZE] is a 32-bit product. *)
Definition sfs_blockio (fs : sfs_fs) (sv : sfs_vnode) (u : uio)
    : outcome (Z * sfs_fs * sfs_vnode * uio) :=
  let doalloc := is_write u in
  let fileblock := u32 (Z.quot (uio_offset u) SFS_BLOCKSIZE) in
  '(r, fs, sv) ← sfs_bmap fs sv fileblock doalloc;
  match r with
  | Err result => mret (result, fs, sv, u)
  | Ok diskblock =>
      if diskblock =? 0 then
        KASSERT (is_read u);;
        '(result, u) ← uiomovezeros SFS_BLOCKSIZE u;
        mret (result, fs, sv, u)
      else
        let saveoff := uio_offset u in
        let diskoff := u32 (diskblock * SFS_BLOCKSIZE) in
        KASSERT (uio_resid u >=? SFS_BLOCKSIZE);;
        let saveres := uio_resid u in
        let diskres := SFS_BLOCKSIZE in
        '(result, d, u) ← sfs_rwblock (sfs_device fs) (set_offset_resid u diskoff diskres);
        mret (result, set_device fs d, sv,
              set_offset_resid u (uio_offset u - diskoff + saveoff) (u32 (uio_resid u - diskres + saveres)))
  end.

(** The loop over whole blocks. *)
Fixpoint blockio_loop (k : nat) (fs : sfs_fs) (sv : sfs_vnode) (u : uio)
    : outcome (Z * sfs_fs * sfs_vnode * uio) :=
  match k with
  | O => mret (0, fs, sv, u)
  | S k =>
      '(result, fs, sv, u) ← sfs_blockio fs sv u;
      if negb (result =? 0) then mret (result, fs, sv, u)
      else blockio_loop k fs sv u
  end.

(** [sfs_io] between the check for end of file and the label [out]. *)
Definition io_body (fs : sfs_fs) (sv : sfs_vnode) (u : uio)
    : outcome (Z * sfs_fs * sfs_vnode * uio) :=
  let blkoff := u32 (Z.rem (uio_offset u) SFS_BLOCKSIZE) in
  '(result, fs, sv, u) ←
    (if negb (blkoff =? 0) then
       let len := u32 (SFS_BLOCKSIZE - blkoff) in
       let len := if len >? uio_resid u then uio_resid u else len in
       sfs_partialio fs sv u blkoff len
     else mret (0, fs, sv, u));
  if negb (result =? 0) then mret (result, fs, sv, u) else
  if uio_resid u =? 0 then mret (0, fs, sv, u) else
  KASSERT (Z.rem (uio_offset u) SFS_BLOCKSIZE =? 0);;
  '(result, fs, sv, u) ← blockio_loop (Z.to_nat (uio_resid u / SFS_BLOCKSIZE)) fs sv u;
  if negb (result =? 0) then mret (result, fs, sv, u) else
  KASSERT (uio_resid u <? SFS_BLOCKSIZE);;
  if uio_resid u >? 0 then sfs_partialio fs sv u 0 (uio_resid u)
  else mret (0, fs, sv, u).

Definition sfs_io (fs : sfs_fs) (sv : sfs_vnode) (u : uio)
    : outcome (Z * sfs_fs * sfs_vnode * uio) :=
  let origresid := uio_resid u in
  let size := sfi_size (sv_i sv) in
  let endpos := uio_offset u + uio_resid u in
  if is_read u && (uio_offset u >=? size) then mret (0, fs, sv, u) else
  let extraresid := if is_read u && (endpos >? size) then u32 (endpos - size) else 0 in
  KASSERT ((extraresid =? 0) || (uio_resid u >? extraresid));;
  let u := set_offset_resid u (uio_offset u) (u32 (uio_resid u - extraresid)) in
  '(result, fs, sv, u) ← io_body fs sv u;
  let sv :=
    if negb (uio_resid u =? origresid) && is_write u && (uio_offset u >? sfi_size (sv_i sv))
    then set_size sv (u32 (uio_offset u)) else sv in
  let u := set_offset_resid u (uio_offset u) (u32 (uio_resid u + extraresid)) in
  mret (result, fs, sv, u).

(** [data] is the caller's object of [len] bytes, as read or to be written. *)
Definition sfs_metaio (fs : sfs_fs) (sv : sfs_vnode) (actualpos : Z) (data : list Z) (rw : uio_rw)
    : outcome (Z * sfs_fs * sfs_vnode * list Z) :=
  let len := Z.of_nat (length data) in
  let vnblock := u32 (Z.quot actualpos SFS_BLOCKSIZE) in
  let blockoffset := u32 (Z.rem actualpos SFS_BLOCKSIZE) in
  let doalloc := bool_decide (rw = UIO_WRITE) in
  '(r, fs, sv) ← sfs_bmap fs sv vnblock doalloc;
  match r with
  | Err result => mret (result, fs, sv, data)
  | Ok diskblock =>
      if diskblock =? 0 then
        KASSERT (bool_decide (rw = UIO_READ));;
        mret (0, fs, sv, zeros (length data))
      else
        '(result, fs, metaiobuf) ← sfs_readblock fs diskblock (zeros (Z.to_nat SFS_BLOCKSIZE));
        if negb (result =? 0) then mret (result, fs, sv, data) else
        (* the memcpy stays inside the buffer *)
        if blockoffset + len >? SFS_BLOCKSIZE then Panic else
        match rw with
        | UIO_READ =>
            mret (0, fs, sv, take (length data) (drop (Z.to_nat blockoffset) metaiobuf))
        | UIO_WRITE =>
            let metaiobuf := splice (Z.to_nat blockoffset) data metaiobuf in
            '(result, fs) ← sfs_writeblock fs diskblock metaiobuf;
            if negb (result =? 0) then mret (result, fs, sv, data) else
            let endpos := actualpos + len in
            let sv := if endpos >? sfi_size (sv_i sv) then set_size sv (u32 endpos) else sv in
            mret (0, fs, sv, data)
        end
  end.

(** ** A file as an array of bytes *)

Definition FMAX : nat := 143 * 512.

Definition fcontent (fs : sfs_fs) (sv : sfs_vnode) : list Z :=
  concat (map (fblock fs sv) (seq 0 NPTRS)).

(** What a program sees: the bytes up to the size. *)
Definition fbytes (fs : sfs_fs) (sv : sfs_vnode) : list Z :=
  take (Z.to_nat (sfi_size (sv_i sv))) (fcontent fs sv).

Lemma fblock_block fs sv k : fs_wf fs -> sv_wf fs sv -> is_block (fblock fs sv k).
Proof.
  intros H W. unfold fblock. destruct (ptrs fs sv !! k) as [p|] eqn:Hp; [|apply is_block_zeros].
  destruct (Z.eqb_spec p 0); [apply is_block_zeros|]. apply fsector_block; [done|].
  destruct (ptr_ok fs sv k p W Hp); lia.
Qed.

(** Blocks of equal length, one after the other. *)
Lemma concat_blocks (f : nat -> list Z) n m k :
  (forall j, length (f j) = 512%nat) -> (k < m)%nat ->
  concat (map f (seq n m)) =
    concat (map f (seq n k)) ++ f (n + k)%nat ++ concat (map f (seq (n + S k) (m - S k))) /\
  length (concat (map f (seq n k))) = (k * 512)%nat.
Proof.
  intros Hf Hk. split.
  - replace m with (k + (1 + (m - S k)))%nat at 1 by lia. rewrite !seq_app, !map_app, !concat_app.
    cbn [seq map concat]. rewrite app_nil_r.
    by replace (n + k + 1)%nat with (n + S k)%nat by lia.
  - clear Hk. revert n. induction k as [|k IH]; intros n; [done|]. cbn [seq map concat].
    rewrite length_app, IH, Hf. lia.
Qed.

Lemma length_fcontent fs sv : fs_wf fs -> sv_wf fs sv -> length (fcontent fs sv) = FMAX.
Proof.
  intros H W. unfold fcontent, FMAX.
  assert (Hl : forall n m, length (concat (map (fblock fs sv) (seq n m))) = (m * 512)%nat).
  { intros n m. revert n. induction m as [|m IH]; intros n; [done|]. cbn [seq map concat].
    rewrite length_app, IH, (proj1 (fblock_block fs sv n H W)). lia. }
  rewrite Hl. unfold NPTRS. lia.
Qed.

Lemma bytes_fcontent fs sv : fs_wf fs -> sv_wf fs sv -> bytes (fcontent fs sv).
Proof.
  intros H W. unfold fcontent, bytes. apply Forall_concat, Forall_map, Forall_forall.
  intros k _. by apply fblock_block.
Qed.

(** A stretch inside one block. *)
Lemma fcontent_block fs sv o n :
  fs_wf fs -> sv_wf fs sv -> (o + n <= FMAX)%nat -> (o mod 512 + n <= 512)%nat ->
  take n (drop o (fcontent fs sv)) = take n (drop (o mod 512) (fblock fs sv (o / 512))).
Proof.
  intros H W Ho Hn. unfold FMAX in Ho. destruct (decide (n = 0)%nat) as [->|Hn0]; [by rewrite !take_0|].
  assert (Hk : (o / 512 < NPTRS)%nat) by (unfold NPTRS; apply Nat.Div0.div_lt_upper_bound; lia).
  destruct (concat_blocks (fblock fs sv) 0 NPTRS (o / 512)) as [Hc Hl];
    [intros; by apply fblock_block|done|].
  unfold fcontent. rewrite Hc.
  assert (Hod : (o = o / 512 * 512 + o mod 512)%nat) by (rewrite (Nat.div_mod_eq o 512) at 1; lia).
  rewrite drop_app_ge by (rewrite Hl; lia). rewrite Hl. cbn [Nat.add].
  replace (o - o / 512 * 512)%nat with (o mod 512)%nat by lia.
  pose proof (proj1 (fblock_block fs sv (o / 512) H W)) as Hbl.
  rewrite drop_app_le by lia. rewrite take_app_le by (rewrite length_drop; lia). done.
Qed.

(** Changing one block. *)
Lemma fcontent_splice fs sv fs' sv' o new :
  fs_wf fs -> sv_wf fs sv -> fs_wf fs' -> sv_wf fs' sv' ->
  (o + length new <= FMAX)%nat -> (o mod 512 + length new <= 512)%nat -> new <> [] ->
  fblock fs' sv' (o / 512) = splice (o mod 512) new (fblock fs sv (o / 512)) ->
  (forall j, j <> (o / 512)%nat -> fblock fs' sv' j = fblock fs sv j) ->
  fcontent fs' sv' = splice o new (fcontent fs sv).
Proof.
  intros H W H' W' Ho Hn Hne Hk Hj. unfold FMAX in Ho.
  assert (0 < length new)%nat by (destruct new; [done|cbn; lia]).
  assert (Hkk : (o / 512 < NPTRS)%nat) by (unfold NPTRS; apply Nat.Div0.div_lt_upper_bound; lia).
  destruct (concat_blocks (fblock fs sv) 0 NPTRS (o / 512)) as [Hc Hl];
    [intros; by apply fblock_block|done|].
  destruct (concat_blocks (fblock fs' sv') 0 NPTRS (o / 512)) as [Hc' _];
    [intros; by apply fblock_block|done|].
  unfold fcontent. rewrite Hc, Hc'. cbn [Nat.add] in *. rewrite Hk.
  assert (Hod : (o = o / 512 * 512 + o mod 512)%nat) by (rewrite (Nat.div_mod_eq o 512) at 1; lia).
  set (q := (o / 512)%nat) in *. set (r := (o mod 512)%nat) in *.
  assert (Heq : forall n m, (forall j, (n <= j < n + m)%nat -> j <> q) ->
    map (fblock fs' sv') (seq n m) = map (fblock fs sv) (seq n m)).
  { intros n m Hne'. apply map_ext_in. intros j [? ?]%in_seq. apply Hj, Hne'. lia. }
  rewrite !Heq by lia. pose proof (proj1 (fblock_block fs sv q H W)) as Hbl.
  unfold splice. rewrite take_app_ge by lia. rewrite Hl.
  replace (o - q * 512)%nat with r by lia. rewrite <- !app_assoc. f_equal.
  rewrite (take_app_le _ _ r) by lia. f_equal. f_equal.
  rewrite drop_app_ge by lia. rewrite Hl, drop_app_le by lia. do 2 f_equal. lia.
Qed.

(** ** Blocks of the file on the disk *)

Lemma rwblock_read_ok d u i :
  lhd_wf d -> lh_status d = [] -> one_sector u i -> 0 <= i < d_blocks d -> uio_rwflag u = UIO_READ ->
  exists u', sfs_rwblock d u = Done (0, d, u') /\ uio_step u 512 (sector d i) u'.
Proof.
  intros Hd Hs Hu Hi Hrw. unfold sfs_rwblock.
  destruct (rw_retry_read d u i 0 10) as (u' & He & Hst); [done..| |lia|].
  - exists []. by rewrite Hs.
  - exists u'. rewrite He. cbn [skip_status]. by rewrite next_status_nil.
Qed.

Lemma rwblock_write_ok d u i :
  lhd_wf d -> lh_status d = [] -> one_sector u i -> 0 <= i < d_blocks d -> uio_rwflag u = UIO_WRITE ->
  exists u', sfs_rwblock d u = Done (0, set_sector d i (take 512 (uio_data u)), u') /\
    uio_step u 512 (take 512 (uio_data u)) u'.
Proof.
  intros Hd Hs Hu Hi Hrw. unfold sfs_rwblock.
  destruct (lhd_io_write d u i) as (u' & Hst & Hok & _); [done..|].
  exists u'. split; [|done]. cbn [sfs_rw_retry]. rewrite Hok by by rewrite Hs. by rewrite next_status_nil.
Qed.

(** The buffer the partial-block code works on. *)
Lemma load_block fs sv k p x :
  fs_wf fs -> sv_wf fs sv -> ptrs fs sv !! k = Some p ->
  p <> 0 \/ x = Done (0, fs, zeros (Z.to_nat SFS_BLOCKSIZE)) ->
  (if p =? 0 then x else sfs_readblock fs p (zeros (Z.to_nat SFS_BLOCKSIZE))) = Done (0, fs, fblock fs sv k).
Proof.
  intros H W Hp Hb. unfold fblock. rewrite Hp. change (Z.to_nat SFS_BLOCKSIZE) with 512%nat in *.
  destruct (Z.eqb_spec p 0); [destruct Hb as [?| ->]; done|].
  apply sfs_readblock_ok; [done| |apply length_zeros]. destruct (ptr_ok fs sv k p W Hp); lia.
Qed.

(** Overwriting a block of the file. *)
Lemma write_block fs sv k p b :
  fs_wf fs -> sv_wf fs sv -> ptrs fs sv !! k = Some p -> p <> 0 -> is_block b ->
  let fs' := fs_write fs p b in
  file_step fs sv fs' sv /\ ptrs fs' sv = ptrs fs sv /\ fblock fs' sv k = b /\
  forall j, j <> k -> fblock fs' sv j = fblock fs sv j.
Proof.
  intros H W Hp Hp0 Hb fs'.
  assert (Hin : p ∈ ptrs fs sv) by by apply list_elem_of_lookup_2 with k.
  assert (Hptrs : ptrs fs' sv = ptrs fs sv).
  { unfold ptrs, iptrs. f_equal. destruct (Z.eqb_spec (sfi_indirect (sv_i sv)) 0) as [|Hi]; [done|].
    f_equal. apply fsector_write_ne. intros ->. by apply (vw_ind _ _ W). }
  assert (Hown : forall q, owns fs' sv q <-> owns fs sv q) by (intros q; unfold owns; by rewrite Hptrs).
  split; [|split; [done|split]].
  - split; try done; [by apply fs_write_wf| |].
    + split; rewrite ?Hptrs; try apply W. intros q Hq%Hown. by apply (vw_owns _ _ W).
    + intros q Hq Hu Ho. split; [done|]. rewrite Hown. split; [|done]. apply fsector_write_ne.
      intros ->. apply Ho. split; [done|by left].
  - unfold fblock. rewrite Hptrs, Hp, (proj2 (Z.eqb_neq _ _)) by done. apply fsector_write_eq.
  - intros j Hj. unfold fblock. rewrite Hptrs. destruct (ptrs fs sv !! j) as [q|] eqn:Hq; [|done].
    destruct (Z.eqb_spec q 0); [done|]. apply fsector_write_ne. intros ->.
    apply Hj. by apply (vw_uniq _ _ W) with q.
Qed.

(** ** Requests whose offset and residue are exchanged for a while *)

Lemma set_resid_wf u off r : uio_wf u -> 0 <= r <= uio_resid u -> uio_wf (set_offset_resid u off r).
Proof. intros [W1 W2 W3 W4 W5 W6] Hr. split; try done. cbn. unfold uio_data in *. cbn. lia. Qed.

Lemma uio_step_restore u off r k d u1 :
  uio_wf u -> 0 <= r <= uio_resid u -> uio_step (set_offset_resid u off r) k d u1 ->
  uio_step u k d (set_offset_resid u1 (uio_offset u1 - off + uio_offset u) (u32 (uio_resid u1 - r + uio_resid u))).
Proof.
  intros W Hr [S1 S2 S3 S4 S5 S6]. cbn [uio_offset uio_resid uio_rwflag set_offset_resid] in *.
  pose proof (uw_resid _ W) as [Hw1 Hw2]. pose proof (uw_resid _ S1) as [Hs1 Hs2].
  assert (Hd : uio_data u1 = drop k (uio_data u)) by exact S5.
  assert (He : u32 (uio_resid u1 - r + uio_resid u) = uio_resid u - Z.of_nat k) by (rewrite u32_small; lia).
  rewrite He. split; cbn [uio_offset uio_resid uio_rwflag set_offset_resid]; try done.
  - destruct S1 as [T1 T2 T3 T4 T5 T6]. split; try done.
    cbn [uio_resid set_offset_resid]. change (uio_data (set_offset_resid u1 ?a ?b)) with (uio_data u1). rewrite Hd, length_drop. lia.
  - lia.
Qed.

(** The common part of both directions: the block number and the pointer. *)
Lemma offset_block fs sv u :
  fs_wf fs -> sv_wf fs sv -> 0 <= uio_offset u < 143 * 512 ->
  let k := (Z.to_nat (uio_offset u) / 512)%nat in
  (k < NPTRS)%nat /\ u32 (Z.quot (uio_offset u) SFS_BLOCKSIZE) = Z.of_nat k /\
  Z.of_nat (Z.to_nat (uio_offset u) mod 512) = uio_offset u mod 512 /\
  exists p, ptrs fs sv !! k = Some p.
Proof.
  intros H W Ho k. unfold SFS_BLOCKSIZE. pose proof (ptrs_length fs sv H W) as Hl.
  assert (Hk : Z.of_nat k = uio_offset u / 512).
  { unfold k. rewrite Nat2Z.inj_div, Z2Nat.id by lia. done. }
  assert (k < NPTRS)%nat by (unfold NPTRS; lia). split; [done|]. split; [|split].
  - rewrite Z.quot_div_nonneg, u32_small by lia. lia.
  - rewrite Nat2Z.inj_mod, Z2Nat.id by lia. done.
  - apply lookup_lt_is_Some_2. lia.
Qed.

(** ** Reading *)

(** [u'] is [u] after reading [n] bytes of the file. *)
Definition read_step (fs : sfs_fs) (sv : sfs_vnode) (u : uio) (n : nat) (u' : uio) : Prop :=
  uio_step u n (take n (drop (Z.to_nat (uio_offset u)) (fcontent fs sv))) u'.

Lemma read_step_trans fs sv u n u1 m u2 :
  0 <= uio_offset u -> read_step fs sv u n u1 -> read_step fs sv u1 m u2 -> read_step fs sv u (n + m) u2.
Proof.
  unfold read_step. intros Ho H1 H2. rewrite (us_off _ _ _ _ H1) in H2.
  rewrite Z2Nat.inj_add, Nat2Z.id in H2 by lia.
  rewrite <- take_take_drop, drop_drop. by apply uio_step_trans with u1.
Qed.

Definition vol_small (fs : sfs_fs) : Prop := nblocks fs <= 2 ^ 23.

Section Reading.
Context (fs : sfs_fs) (sv : sfs_vnode) (H : fs_wf fs) (W : sv_wf fs sv) (Hvol : vol_small fs).

Lemma partialio_read u len :
  uio_wf u -> uio_rwflag u = UIO_READ -> 0 <= uio_offset u < 143 * 512 ->
  0 <= len <= uio_resid u -> uio_offset u mod 512 + len <= 512 ->
  exists u', sfs_partialio fs sv u (uio_offset u mod 512) len = Done (0, fs, sv, u') /\
    read_step fs sv u (Z.to_nat len) u'.
Proof using H W.
  intros Wu Hrw Ho Hlen Hskip. destruct (offset_block fs sv u) as (Hk & Hq & Hm & p & Hp); [done|done|lia|].
  unfold sfs_partialio, is_write, is_read. rewrite (u32_small (uio_offset u mod 512 + len)), (proj2 (Z.leb_le _ _)) by (unfold SFS_BLOCKSIZE; lia).
  rewrite Hq, Hrw. change (bool_decide (UIO_READ = UIO_WRITE)) with false.
  change (bool_decide (UIO_READ = UIO_READ)) with true. kred.
  rewrite (bmap_lookup fs sv _ p) by auto. kred. rewrite (load_block fs sv _ p _ H W Hp) by auto. kred.
  set (o := Z.to_nat (uio_offset u)) in *. set (b := fblock fs sv (o / 512)).
  pose proof (proj1 (fblock_block fs sv (o / 512) H W)) as Hbl.
  destruct (uiomove_ok (drop (Z.to_nat (uio_offset u mod 512)) b) len u) as (u' & He & Hst);
    [done|rewrite length_drop; unfold b; lia|lia|].
  rewrite Hrw in He, Hst. rewrite He. kred. rewrite (us_rw _ _ _ _ Hst), Hrw.
  change (bool_decide (UIO_READ = UIO_WRITE)) with false. exists u'. split; [done|].
  unfold read_step. fold o. rewrite fcontent_block by (done || unfold FMAX; lia). fold b.
  replace (Z.min len (uio_resid u)) with len in Hst by lia.
  by replace (Z.to_nat (uio_offset u mod 512)) with (o mod 512)%nat in Hst by lia.
Qed.

Lemma blockio_read u :
  uio_wf u -> uio_rwflag u = UIO_READ -> 0 <= uio_offset u ->
  512 <= uio_resid u -> uio_offset u mod 512 = 0 -> uio_offset u + 512 <= 143 * 512 ->
  exists u', sfs_blockio fs sv u = Done (0, fs, sv, u') /\ read_step fs sv u 512 u'.
Proof using H W Hvol.
  intros Wu Hrw Ho Hres Hal Hmax. destruct (offset_block fs sv u) as (Hk & Hq & Hm & p & Hp); [done|done|lia|].
  unfold sfs_blockio, is_write, is_read, read_step. rewrite Hq, Hrw.
  change (bool_decide (UIO_READ = UIO_WRITE)) with false.
  change (bool_decide (UIO_READ = UIO_READ)) with true. kred.
  rewrite (bmap_lookup fs sv _ p) by auto. kred.
  set (o := Z.to_nat (uio_offset u)) in *.
  rewrite fcontent_block by (done || unfold FMAX; lia). replace (o mod 512)%nat with 0%nat by lia. rewrite drop_0.
  pose proof (proj1 (fblock_block fs sv (o / 512) H W)) as Hbl. rewrite firstn_all2 by lia.
  unfold fblock. rewrite Hp. unfold SFS_BLOCKSIZE. destruct (Z.eqb_spec p 0) as [|Hp0].
  - destruct (uiomovezeros_ok 512 u) as (u' & He & Hst); [done|done|lia|]. exists u'. by rewrite He.
  - destruct (ptr_ok fs sv _ p W Hp) as [|[Hr _]]; [done|]. unfold vol_small in Hvol.
    rewrite Z.geb_leb, (proj2 (Z.leb_le _ _)), (u32_small (p * 512)) by lia. kred.
    destruct (rwblock_read_ok (sfs_device fs) (set_offset_resid u (p * 512) 512) p) as (u1 & He & Hst);
      [apply H|apply H|split; [apply set_resid_wf; [done|lia]|done|done]| |done|].
    { pose proof (fw_nblocks _ H). lia. }
    rewrite He. kred. rewrite set_device_id. eexists. split; [done|].
    apply uio_step_restore; [done|lia|done].
Qed.

Lemma blockio_loop_read k u :
  uio_wf u -> uio_rwflag u = UIO_READ -> 0 <= uio_offset u ->
  512 * Z.of_nat k <= uio_resid u -> uio_offset u mod 512 = 0 -> uio_offset u + 512 * Z.of_nat k <= 143 * 512 ->
  exists u', blockio_loop k fs sv u = Done (0, fs, sv, u') /\ read_step fs sv u (512 * k) u'.
Proof using H W Hvol.
  revert u. induction k as [|k IH]; intros u Wu Hrw Ho Hres Hal Hmax; cbn [blockio_loop].
  - exists u. split; [done|]. rewrite Nat.mul_0_r. unfold read_step. rewrite take_0. by apply uio_step_refl.
  - destruct (blockio_read u) as (u1 & He & Hst); [done|done|done|lia|done|lia|]. rewrite He. kred.
    pose proof Hst as [S1 S2 S3 S4 S5 S6].
    destruct (IH u1) as (u' & He' & Hst'); [done|congruence|lia|lia|rewrite S3; lia|lia|].
    exists u'. split; [done|]. replace (512 * S k)%nat with (512 + 512 * k)%nat by lia.
    by apply read_step_trans with u1.
Qed.

Lemma io_body_read u :
  uio_wf u -> uio_rwflag u = UIO_READ -> 0 <= uio_offset u < 143 * 512 ->
  uio_offset u + uio_resid u <= 143 * 512 ->
  exists u', io_body fs sv u = Done (0, fs, sv, u') /\ read_step fs sv u (Z.to_nat (uio_resid u)) u'.
Proof using H W Hvol.
  intros Wu Hrw [Ho Ho'] Hmax. pose proof (uw_resid _ Wu) as [Hres _]. unfold io_body, SFS_BLOCKSIZE.
  rewrite Z.rem_mod_nonneg, u32_small by lia. set (r := uio_offset u mod 512).
  cbv zeta. set (n1 := if r =? 0 then 0 else Z.min (512 - r) (uio_resid u)).
  assert (H1 : exists u1, (if negb (r =? 0) then
       sfs_partialio fs sv u r (if u32 (512 - r) >? uio_resid u then uio_resid u else u32 (512 - r))
     else mret (0, fs, sv, u)) = Done (0, fs, sv, u1) /\ read_step fs sv u (Z.to_nat n1) u1).
  { unfold n1. destruct (Z.eqb_spec r 0); cbn [negb].
    - exists u. split; [done|]. unfold read_step. rewrite take_0. by apply uio_step_refl.
    - rewrite u32_small, Z.gtb_ltb by lia.
      assert (He : (if uio_resid u <? 512 - r then uio_resid u else 512 - r) = Z.min (512 - r) (uio_resid u))
        by (destruct (Z.ltb_spec (uio_resid u) (512 - r)); lia).
      rewrite He. apply partialio_read; done || lia. }
  destruct H1 as (u1 & -> & Hst1). kred. pose proof Hst1 as [S1 S2 S3 S4 S5 S6].
  assert (Hn1 : 0 <= n1 <= uio_resid u /\ (n1 = uio_resid u \/ (uio_offset u + n1) mod 512 = 0)).
  { unfold n1. destruct (Z.eqb_spec r 0); lia. }
  rewrite Z2Nat.id in S3, S4 by lia.
  destruct (Z.eqb_spec (uio_resid u1) 0) as [Hz|Hnz].
  { exists u1. split; [done|]. by replace (uio_resid u) with n1 by lia. }
  rewrite Z.rem_mod_nonneg by lia. rewrite (proj2 (Z.eqb_eq (uio_offset u1 mod 512) 0)) by (rewrite S3; lia). kred.
  destruct (blockio_loop_read (Z.to_nat (uio_resid u1 / 512)) u1) as (u2 & He2 & Hst2);
    [done|congruence|lia|lia|rewrite S3; lia|lia|].
  rewrite He2. kred. pose proof Hst2 as [T1 T2 T3 T4 T5 T6].
  assert (H12 := read_step_trans _ _ _ _ _ _ _ Ho Hst1 Hst2).
  rewrite (proj2 (Z.ltb_lt (uio_resid u2) 512)) by lia. kred. rewrite Z.gtb_ltb.
  destruct (Z.ltb_spec 0 (uio_resid u2)).
  - destruct (partialio_read u2 (uio_resid u2)) as (u3 & He3 & Hst3);
      [done|congruence|lia|lia|lia|].
    replace (uio_offset u2 mod 512) with 0 in He3 by lia. exists u3. split; [done|].
    assert (H123 := read_step_trans _ _ _ _ _ _ _ Ho H12 Hst3).
    by replace (Z.to_nat (uio_resid u)) with
      (Z.to_nat n1 + 512 * Z.to_nat (uio_resid u1 / 512) + Z.to_nat (uio_resid u2))%nat by lia.
  - exists u2. split; [done|].
    by replace (Z.to_nat (uio_resid u)) with (Z.to_nat n1 + 512 * Z.to_nat (uio_resid u1 / 512))%nat by lia.
Qed.
End Reading.

(** ** Writing *)

(** The next [n] bytes of [u] were written to the file, whose size is not yet
    adjusted. *)
Record io_step (fs : sfs_fs) (sv : sfs_vnode) (u : uio) (n : nat)
    (fs' : sfs_fs) (sv' : sfs_vnode) (u' : uio) : Prop := {
  iw_file : file_step fs sv fs' sv';
  iw_size : sfi_size (sv_i sv') = sfi_size (sv_i sv);
  iw_content : fcontent fs' sv' = splice (Z.to_nat (uio_offset u)) (take n (uio_data u)) (fcontent fs sv);
  iw_uio : uio_step u n (take n (uio_data u)) u' }.

(** How a write of [want] bytes can end: it is complete, the volume filled up, or
    the file has reached its largest size. *)
Definition io_ends (fs : sfs_fs) (sv : sfs_vnode) (u : uio) (want : nat)
    (out : outcome (Z * sfs_fs * sfs_vnode * uio)) : Prop :=
  exists r fs' sv' u' n, out = Done (r, fs', sv', u') /\ io_step fs sv u n fs' sv' u' /\
    (n <= FMAX - Z.to_nat (uio_offset u))%nat /\
    (r = 0 /\ n = want \/
     r = ENOSPC /\ (n < want)%nat /\ volume_full fs' /\ ptrs fs' sv' !! ((Z.to_nat (uio_offset u) + n) / 512)%nat = Some 0 \/
     r = EFBIG /\ (n < want)%nat /\ n = (FMAX - Z.to_nat (uio_offset u))%nat).

Lemma same_blocks_content fs sv fs' sv' :
  (forall j, fblock fs' sv' j = fblock fs sv j) -> fcontent fs' sv' = fcontent fs sv.
Proof. intros Hj. unfold fcontent. f_equal. apply map_ext. done. Qed.

Lemma io_step_none fs sv u fs' sv' :
  uio_wf u -> file_step fs sv fs' sv' -> sfi_size (sv_i sv') = sfi_size (sv_i sv) ->
  (forall j, fblock fs' sv' j = fblock fs sv j) -> io_step fs sv u 0 fs' sv' u.
Proof.
  intros Wu Hst Hsz Hj. split; try done.
  - rewrite take_0, splice_nil. by apply same_blocks_content.
  - rewrite take_0. by apply uio_step_refl.
Qed.

Lemma io_step_trans fs sv u n fs1 sv1 u1 m fs2 sv2 u2 :
  fs_wf fs -> sv_wf fs sv -> uio_wf u -> 0 <= uio_offset u ->
  (n + m <= FMAX - Z.to_nat (uio_offset u))%nat -> (Z.to_nat (uio_offset u) <= FMAX)%nat ->
  io_step fs sv u n fs1 sv1 u1 -> io_step fs1 sv1 u1 m fs2 sv2 u2 -> io_step fs sv u (n + m) fs2 sv2 u2.
Proof.
  intros H W Wu Ho Hn Hof [F1 Z1 C1 U1] [F2 Z2 C2 U2].
  pose proof (uw_resid _ Wu) as [_ Hr]. pose proof (uw_resid _ (us_wf _ _ _ _ U1)) as [_ Hr1].
  pose proof (us_resid _ _ _ _ U1) as R1. pose proof (us_resid _ _ _ _ U2) as R2.
  pose proof (uw_resid _ (us_wf _ _ _ _ U1)). pose proof (uw_resid _ (us_wf _ _ _ _ U2)).
  rewrite (us_data _ _ _ _ U1), length_drop in Hr1.
  split.
  - by apply file_step_trans with fs1 sv1.
  - congruence.
  - rewrite C2, C1, (us_off _ _ _ _ U1), (us_data _ _ _ _ U1), <- take_take_drop.
    rewrite <- splice_splice.
    + f_equal. rewrite length_take. lia.
    + rewrite !length_take, length_drop, length_fcontent by done. lia.
  - rewrite <- take_take_drop. rewrite (us_data _ _ _ _ U1) in U2. by apply uio_step_trans with u1.
Qed.

Lemma vol_small_step fs sv fs' sv' : file_step fs sv fs' sv' -> vol_small fs -> vol_small fs'.
Proof. intros Hst. unfold vol_small, nblocks. by rewrite (fst_sb _ _ _ _ Hst). Qed.

(** Overwriting a stretch of one block, allocated if necessary. *)
Lemma write_stretch fs sv k p fs1 sv1 o new :
  fs_wf fs -> sv_wf fs sv -> file_step fs sv fs1 sv1 -> (forall j, fblock fs1 sv1 j = fblock fs sv j) ->
  ptrs fs1 sv1 !! k = Some p -> p <> 0 -> k = (o / 512)%nat -> bytes new -> new <> [] ->
  (o mod 512 + length new <= 512)%nat -> (o + length new <= FMAX)%nat ->
  let b := splice (o mod 512) new (fblock fs sv k) in
  file_step fs sv (fs_write fs1 p b) sv1 /\
  fcontent (fs_write fs1 p b) sv1 = splice o new (fcontent fs sv).
Proof.
  intros H W Hst Hj Hp Hp0 -> Hb Hne Hl Hmax b. pose proof Hst as [F1 F2 _ _ _ _ _].
  assert (Hbl : is_block b).
  { destruct (fblock_block fs sv (o / 512) H W) as [Hlen Hbytes]. split; [|by apply bytes_splice].
    unfold b. rewrite length_splice; lia. }
  destruct (write_block fs1 sv1 _ p b F1 F2 Hp Hp0 Hbl) as (Hst2 & _ & Hk & Hother).
  split; [by apply file_step_trans with fs1 sv1|].
  apply fcontent_splice; try done; try apply Hst2.
  intros j Hjk. by rewrite Hother, Hj.
Qed.

Lemma take_nonempty (l : list Z) n : (0 < n)%nat -> (0 < length l)%nat -> take n l <> [].
Proof. intros. destruct n, l; try done; cbn in *; lia. Qed.

Lemma bytes_take n l : bytes l -> bytes (take n l).
Proof. apply Forall_take. Qed.
Lemma bytes_drop n l : bytes l -> bytes (drop n l).
Proof. apply Forall_drop. Qed.

Lemma partialio_write fs sv u len :
  fs_wf fs -> sv_wf fs sv -> uio_wf u -> uio_rwflag u = UIO_WRITE -> bytes (uio_data u) ->
  0 <= uio_offset u < 143 * 512 -> 0 < len <= uio_resid u -> uio_offset u mod 512 + len <= 512 ->
  io_ends fs sv u (Z.to_nat len) (sfs_partialio fs sv u (uio_offset u mod 512) len).
Proof.
  intros H W Wu Hrw Hby Ho Hlen Hskip. destruct (offset_block fs sv u) as (Hk & Hq & Hm & p0 & Hp0); [done|done|lia|].
  assert (uio_offset u + len <= 143 * 512) by lia.
  unfold sfs_partialio, is_write, is_read.
  rewrite (u32_small (uio_offset u mod 512 + len)), (proj2 (Z.leb_le _ _)) by (unfold SFS_BLOCKSIZE; lia).
  rewrite Hq, Hrw. change (bool_decide (UIO_WRITE = UIO_WRITE)) with true.
  change (bool_decide (UIO_WRITE = UIO_READ)) with false. kred.
  set (o := Z.to_nat (uio_offset u)) in *. set (k := (o / 512)%nat) in *.
  destruct (bmap_alloc fs sv k p0 H W Hk Hp0) as (r & fs1 & sv1 & -> & Hst & Hfb & Hsz & Hr). kred.
  pose proof Hst as [F1 F2 _ _ _ _ _].
  destruct r as [p|e].
  2: { destruct Hr as (-> & -> & Hpt & Hfull). exists ENOSPC, fs1, sv1, u, 0%nat. split; [done|].
       split; [by apply io_step_none|]. split; [lia|]. right; left. rewrite Nat.add_0_r, Hpt. split_and!; done || lia. }
  destruct Hr as (Hpn & _ & Hptrs).
  assert (Hpk : ptrs fs1 sv1 !! k = Some p).
  { rewrite Hptrs. apply list_lookup_insert_eq. by rewrite (ptrs_length fs sv). }
  rewrite (load_block fs1 sv1 k p _ F1 F2 Hpk) by auto. kred. rewrite Hfb.
  pose proof (proj1 (fblock_block fs sv k H W)) as Hbl.
  replace (Z.to_nat (uio_offset u mod 512)) with (o mod 512)%nat by lia.
  destruct (uiomove_ok (drop (o mod 512) (fblock fs sv k)) len u) as (u' & He & Hmv);
    [done|rewrite length_drop; lia|lia|].
  rewrite Hrw in He, Hmv. rewrite He. kred. rewrite (us_rw _ _ _ _ Hmv), Hrw.
  change (bool_decide (UIO_WRITE = UIO_WRITE)) with true. kred.
  replace (Z.min len (uio_resid u)) with len in * by lia. set (n := Z.to_nat len) in *.
  pose proof (uw_resid _ Wu) as [_ Hrl].
  assert (Hnl : length (take n (uio_data u)) = n) by (rewrite length_take; lia).
  assert (Hbuf : take (o mod 512) (fblock fs sv k) ++ splice 0 (take n (uio_data u)) (drop (o mod 512) (fblock fs sv k))
            = splice (o mod 512) (take n (uio_data u)) (fblock fs sv k)).
  { unfold splice. rewrite take_0, app_nil_l, drop_drop. done. }
  rewrite Hbuf. destruct (write_stretch fs sv k p fs1 sv1 o (take n (uio_data u))) as [Hst2 Hc];
    try done; try lia; [by apply bytes_take|apply take_nonempty; lia|unfold FMAX; lia|].
  rewrite (sfs_writeblock_ok fs1); [kred|done| |rewrite length_splice; lia].
  2: { destruct (ptr_ok fs1 sv1 k p F2 Hpk); lia. }
  eexists 0, _, sv1, u', n. split; [done|]. split; [by split|]. split; [unfold FMAX; lia|by left].
Qed.

Lemma blockio_write fs sv u :
  fs_wf fs -> sv_wf fs sv -> vol_small fs -> uio_wf u -> uio_rwflag u = UIO_WRITE -> bytes (uio_data u) ->
  0 <= uio_offset u < 2 ^ 41 -> 512 <= uio_resid u -> uio_offset u mod 512 = 0 ->
  io_ends fs sv u 512 (sfs_blockio fs sv u).
Proof.
  intros H W Hvol Wu Hrw Hby Ho Hres Hal.
  unfold sfs_blockio, is_write, is_read. rewrite Hrw. change (bool_decide (UIO_WRITE = UIO_WRITE)) with true.
  change (bool_decide (UIO_WRITE = UIO_READ)) with false.
  destruct (decide (143 * 512 <= uio_offset u)) as [Hbig|Hsmall].
  { unfold SFS_BLOCKSIZE. rewrite Z.quot_div_nonneg, u32_small, bmap_toobig by lia. kred.
    exists EFBIG, fs, sv, u, 0%nat. split; [done|]. split; [by apply io_step_none; [|apply file_step_refl|..]|].
    split; [lia|]. right; right. unfold FMAX. split_and!; done || lia. }
  destruct (offset_block fs sv u) as (Hk & Hq & Hm & p0 & Hp0); [done|done|lia|]. rewrite Hq. kred.
  set (o := Z.to_nat (uio_offset u)) in *. set (k := (o / 512)%nat) in *.
  destruct (bmap_alloc fs sv k p0 H W Hk Hp0) as (r & fs1 & sv1 & -> & Hst & Hfb & Hsz & Hr). kred.
  pose proof Hst as [F1 F2 Hsb _ _ _ _].
  destruct r as [p|e].
  2: { destruct Hr as (-> & -> & Hpt & Hfull). exists ENOSPC, fs1, sv1, u, 0%nat. split; [done|].
       split; [by apply io_step_none|]. split; [lia|]. right; left. rewrite Nat.add_0_r, Hpt. split_and!; done || lia. }
  destruct Hr as (Hpn & _ & Hptrs). rewrite (proj2 (Z.eqb_neq p 0)) by done.
  assert (Hpk : ptrs fs1 sv1 !! k = Some p).
  { rewrite Hptrs. apply list_lookup_insert_eq. by rewrite (ptrs_length fs sv). }
  destruct (ptr_ok fs1 sv1 k p F2 Hpk) as [|[Hr _]]; [done|]. unfold vol_small, SFS_BLOCKSIZE in *.
  assert (nblocks fs1 = nblocks fs) as Hnb by (unfold nblocks; congruence).
  rewrite Z.geb_leb, (proj2 (Z.leb_le _ _)), (u32_small (p * 512)) by lia. kred.
  destruct (rwblock_write_ok (sfs_device fs1) (set_offset_resid u (p * 512) 512) p) as (u1 & He & Hmv);
    [apply F1|apply F1|split; [apply set_resid_wf; [done|lia]|done|done]| |done|].
  { pose proof (fw_nblocks _ F1). lia. }
  rewrite He. kred. change (uio_data (set_offset_resid u (p * 512) 512)) with (uio_data u) in *.
  pose proof (uw_resid _ Wu) as [_ Hrl].
  assert (Hnl : length (take 512 (uio_data u)) = 512%nat) by (rewrite length_take; lia).
  destruct (write_stretch fs sv k p fs1 sv1 o (take 512 (uio_data u))) as [Hst2 Hc];
    try done; [by apply bytes_take|apply take_nonempty; lia|lia|unfold FMAX; lia|].
  replace (o mod 512)%nat with 0%nat in * by lia.
  rewrite splice_all in Hst2, Hc by (rewrite Hnl; symmetry; by apply fblock_block).
  eexists 0, _, sv1, _, 512%nat. split; [done|]. split; [|split; [unfold FMAX; lia|by left]].
  split; [done|done|done|]. apply uio_step_restore; [done|lia|done].
Qed.

(** One request after the other; an error ends the sequence. *)
Lemma io_ends_bind fs sv u w1 w2 m (f : Z * sfs_fs * sfs_vnode * uio -> outcome (Z * sfs_fs * sfs_vnode * uio)) :
  fs_wf fs -> sv_wf fs sv -> uio_wf u -> 0 <= uio_offset u ->
  io_ends fs sv u w1 m ->
  (forall fs1 sv1 u1, io_step fs sv u w1 fs1 sv1 u1 -> io_ends fs1 sv1 u1 w2 (f (0, fs1, sv1, u1))) ->
  (forall r fs1 sv1 u1, r <> 0 -> f (r, fs1, sv1, u1) = Done (r, fs1, sv1, u1)) ->
  io_ends fs sv u (w1 + w2) (m ≫= f).
Proof.
  intros H W Wu Ho (r & fs1 & sv1 & u1 & n & -> & Hst & Hn & Hr) Hf He. rewrite bind_Done.
  destruct Hr as [[-> ->]|Hr].
  - destruct (Hf fs1 sv1 u1 Hst) as (r & fs2 & sv2 & u2 & n & -> & Hst2 & Hn2 & Hr).
    pose proof (us_off _ _ _ _ (iw_uio _ _ _ _ _ _ _ Hst)) as Hoff.
    exists r, fs2, sv2, u2, (w1 + n)%nat. split; [done|].
    destruct (decide (Z.to_nat (uio_offset u) <= FMAX)%nat) as [Hle|Hgt].
    + split; [apply io_step_trans with fs1 sv1 u1; done || lia|]. split; [lia|].
      replace (Z.to_nat (uio_offset u1) + n)%nat with (Z.to_nat (uio_offset u) + (w1 + n))%nat in Hr by lia.
      destruct Hr as [[-> ->]|[(-> & ? & ? & ?)|(-> & ? & ?)]]; [by left|right; left; split_and!; done || lia|].
      right; right. split_and!; [done|lia|lia].
    + assert (w1 = 0 /\ n = 0)%nat as [-> ->] by lia. cbn [Nat.add]. split.
      * destruct Hst as [A1 A2 A3 A4], Hst2 as [B1 B2 B3 B4]. rewrite take_0, splice_nil in A3, B3.
        split; [by apply file_step_trans with fs1 sv1|congruence|rewrite take_0, splice_nil; congruence|].
        rewrite take_0 in *. apply (uio_step_trans _ _ _ _ _ _ _ A4 B4).
      * split; [lia|]. replace (Z.to_nat (uio_offset u1) + 0)%nat with (Z.to_nat (uio_offset u) + 0)%nat in Hr by lia.
        destruct Hr as [[-> ?]|[(-> & ? & ? & ?)|(-> & ? & ?)]]; [left; split; [done|lia]|right; left; split_and!; done || lia|].
        right; right. split_and!; [done|lia|lia].
  - exists r, fs1, sv1, u1, n. rewrite He by (destruct Hr as [(-> & _)|(-> & _)]; done). split; [done|].
    split; [done|]. split; [done|]. right. destruct Hr as [(-> & ? & ? & ?)|(-> & ? & ?)]; [left|right]; split_and!; done || lia.
Qed.

Lemma io_ends_nothing fs sv u :
  fs_wf fs -> sv_wf fs sv -> uio_wf u -> io_ends fs sv u 0 (Done (0, fs, sv, u)).
Proof.
  intros H W Wu. exists 0, fs, sv, u, 0%nat. split; [done|].
  split; [by apply io_step_none; [|apply file_step_refl|..]|]. split; [lia|by left].
Qed.

(** What a request for more bytes needs after [n] of them were written. *)
Lemma io_step_next fs sv u n fs1 sv1 u1 :
  vol_small fs -> bytes (uio_data u) -> uio_rwflag u = UIO_WRITE -> io_step fs sv u n fs1 sv1 u1 ->
  fs_wf fs1 /\ sv_wf fs1 sv1 /\ vol_small fs1 /\ uio_wf u1 /\ uio_rwflag u1 = UIO_WRITE /\ bytes (uio_data u1) /\
  uio_offset u1 = uio_offset u + Z.of_nat n /\ uio_resid u1 = uio_resid u - Z.of_nat n.
Proof.
  intros Hv Hb Hrw [F1 F2 F3 [S1 S2 S3 S4 S5 S6]]. split_and!; try done; try apply F1.
  - by apply vol_small_step with fs sv sv1.
  - congruence.
  - rewrite S5. by apply bytes_drop.
Qed.

Lemma negb_nonzero r : r <> 0 -> negb (r =? 0) = true.
Proof. intros. by rewrite (proj2 (Z.eqb_neq _ _)). Qed.

Lemma blockio_loop_write k fs sv u :
  fs_wf fs -> sv_wf fs sv -> vol_small fs -> uio_wf u -> uio_rwflag u = UIO_WRITE -> bytes (uio_data u) ->
  0 <= uio_offset u -> uio_offset u + 512 * Z.of_nat k <= 2 ^ 41 ->
  512 * Z.of_nat k <= uio_resid u -> uio_offset u mod 512 = 0 ->
  io_ends fs sv u (512 * k) (blockio_loop k fs sv u).
Proof.
  revert fs sv u. induction k as [|k IH]; intros fs sv u H W Hv Wu Hrw Hb Ho Hmax Hres Hal; cbn [blockio_loop].
  - rewrite Nat.mul_0_r. by apply io_ends_nothing.
  - replace (512 * S k)%nat with (512 + 512 * k)%nat by lia. apply io_ends_bind; try done.
    + apply blockio_write; done || lia.
    + intros fs1 sv1 u1 Hst. kred.
      destruct (io_step_next _ _ _ _ _ _ _ Hv Hb Hrw Hst) as (? & ? & ? & ? & ? & ? & Hoff & Hre).
      apply IH; try done; try lia.
    + intros r fs1 sv1 u1 Hr. by rewrite negb_nonzero.
Qed.

(** A partial block anywhere in the file, or past its largest size. *)
Lemma partialio_write_any fs sv u len :
  fs_wf fs -> sv_wf fs sv -> uio_wf u -> uio_rwflag u = UIO_WRITE -> bytes (uio_data u) ->
  0 <= uio_offset u < 2 ^ 41 -> 0 < len <= uio_resid u -> uio_offset u mod 512 + len <= 512 ->
  io_ends fs sv u (Z.to_nat len) (sfs_partialio fs sv u (uio_offset u mod 512) len).
Proof.
  intros H W Wu Hrw Hb Ho Hlen Hskip. destruct (decide (uio_offset u < 143 * 512)) as [Hlt|Hge].
  { apply partialio_write; done || lia. }
  unfold sfs_partialio, is_write, is_read. rewrite Hrw.
  change (bool_decide (UIO_WRITE = UIO_WRITE)) with true. unfold SFS_BLOCKSIZE.
  rewrite (u32_small (uio_offset u mod 512 + len)), (proj2 (Z.leb_le _ _)) by lia. kred.
  rewrite Z.quot_div_nonneg, u32_small, bmap_toobig by lia. kred.
  exists EFBIG, fs, sv, u, 0%nat. split; [done|]. split; [by apply io_step_none; [|apply file_step_refl|..]|].
  split; [lia|]. right; right. unfold FMAX. split_and!; done || lia.
Qed.

Lemma io_body_write fs sv u :
  fs_wf fs -> sv_wf fs sv -> vol_small fs -> uio_wf u -> uio_rwflag u = UIO_WRITE -> bytes (uio_data u) ->
  0 <= uio_offset u -> 0 < uio_resid u -> uio_offset u + uio_resid u <= 2 ^ 41 ->
  io_ends fs sv u (Z.to_nat (uio_resid u)) (io_body fs sv u).
Proof.
  intros H W Hv Wu Hrw Hb Ho Hpos Hmax. unfold io_body, SFS_BLOCKSIZE.
  rewrite Z.rem_mod_nonneg, u32_small by lia. cbv zeta. set (r := uio_offset u mod 512).
  set (n1 := if r =? 0 then 0 else Z.min (512 - r) (uio_resid u)).
  assert (Hn1 : 0 <= n1 <= uio_resid u /\ (n1 = uio_resid u \/ (uio_offset u + n1) mod 512 = 0)).
  { unfold n1. destruct (Z.eqb_spec r 0); lia. }
  replace (Z.to_nat (uio_resid u)) with (Z.to_nat n1 + Z.to_nat (uio_resid u - n1))%nat by lia.
  apply io_ends_bind; try done; [| |intros; by rewrite negb_nonzero].
  - unfold n1. destruct (Z.eqb_spec r 0) as [|Hr]; cbn [negb]; [by apply io_ends_nothing|].
    rewrite u32_small, Z.gtb_ltb by lia.
    assert (He : (if uio_resid u <? 512 - r then uio_resid u else 512 - r) = Z.min (512 - r) (uio_resid u))
      by (destruct (Z.ltb_spec (uio_resid u) (512 - r)); lia).
    rewrite He. apply partialio_write_any; done || lia.
  - intros fs1 sv1 u1 Hst. kred.
    destruct (io_step_next _ _ _ _ _ _ _ Hv Hb Hrw Hst) as (H1 & W1 & Hv1 & Wu1 & Hrw1 & Hb1 & Hoff1 & Hre1).
    rewrite Z2Nat.id in Hoff1, Hre1 by lia.
    destruct (Z.eqb_spec (uio_resid u1) 0) as [Hz|Hnz].
    { replace (Z.to_nat (uio_resid u - n1)) with 0%nat by lia. by apply io_ends_nothing. }
    rewrite Z.rem_mod_nonneg by lia.
    rewrite (proj2 (Z.eqb_eq (uio_offset u1 mod 512) 0)) by (rewrite Hoff1; lia). kred.
    set (k := Z.to_nat (uio_resid u1 / 512)).
    replace (Z.to_nat (uio_resid u - n1)) with (512 * k + Z.to_nat (uio_resid u1 mod 512))%nat by lia.
    apply io_ends_bind; try done; [lia| | |intros; by rewrite negb_nonzero].
    + apply blockio_loop_write; try done; lia.
    + intros fs2 sv2 u2 Hst2. kred.
      destruct (io_step_next _ _ _ _ _ _ _ Hv1 Hb1 Hrw1 Hst2) as (H2 & W2 & Hv2 & Wu2 & Hrw2 & Hb2 & Hoff2 & Hre2).
      rewrite (proj2 (Z.ltb_lt (uio_resid u2) 512)) by lia. kred. rewrite Z.gtb_ltb.
      destruct (Z.ltb_spec 0 (uio_resid u2)).
      * pose proof (partialio_write_any fs2 sv2 u2 (uio_resid u2)) as Hp.
        replace (uio_offset u2 mod 512) with 0 in Hp by lia.
        replace (Z.to_nat (uio_resid u1 mod 512)) with (Z.to_nat (uio_resid u2)) by lia.
        apply Hp; done || lia.
      * replace (Z.to_nat (uio_resid u1 mod 512)) with 0%nat by lia. by apply io_ends_nothing.
Qed.

(** The new size. *)
Lemma set_size_step fs sv size :
  fs_wf fs -> sv_wf fs sv -> 0 <= size <= 143 * 512 ->
  file_step fs sv fs (set_size sv size) /\ fcontent fs (set_size sv size) = fcontent fs sv.
Proof.
  intros H [W1 W2 W3 W4 W5] Hs. split; [|done]. by split.
Qed.

(** ** The theorems *)

(** C26. Reading a file with [sfs_io] hands over exactly the bytes of the file
    from the offset on, up to the end of the request or of the file, whichever
    comes first; holes read as zeros.  It always succeeds (on a drive without
    errors), and neither the file nor the file system changes. *)
Theorem sfs_read_correct fs sv u :
  fs_wf fs -> sv_wf fs sv -> vol_small fs -> uio_wf u -> uio_rwflag u = UIO_READ -> 0 <= uio_offset u ->
  let n := Z.to_nat (Z.min (uio_resid u) (sfi_size (sv_i sv) - uio_offset u)) in
  exists u', sfs_io fs sv u = Done (0, fs, sv, u') /\
    uio_step u n (take n (drop (Z.to_nat (uio_offset u)) (fbytes fs sv))) u'.
Proof.
  intros H W Hv Wu Hrw Ho n. unfold sfs_io, is_read, is_write. rewrite Hrw.
  change (bool_decide (UIO_READ = UIO_READ)) with true.
  change (bool_decide (UIO_READ = UIO_WRITE)) with false. cbn [andb].
  set (size := sfi_size (sv_i sv)) in *. pose proof (vw_size _ _ W) as Hsz. fold size in Hsz.
  pose proof (uw_resid _ Wu) as [Hre Hrl].
  rewrite Z.geb_leb. destruct (Z.leb_spec size (uio_offset u)) as [Heof|Hin].
  { exists u. split; [done|]. replace n with 0%nat by lia. rewrite take_0. by apply uio_step_refl. }
  rewrite Z.gtb_ltb. set (extra := if size <? uio_offset u + uio_resid u then u32 (uio_offset u + uio_resid u - size) else 0).
  assert (Hex : extra = uio_resid u - Z.of_nat n).
  { unfold extra. destruct (Z.ltb_spec size (uio_offset u + uio_resid u)); [rewrite u32_small|]; lia. }
  rewrite Hex. replace (u32 (uio_resid u - (uio_resid u - Z.of_nat n))) with (Z.of_nat n) by (rewrite u32_small; lia).
  assert (Hk : (uio_resid u - Z.of_nat n =? 0) || (uio_resid u >? uio_resid u - Z.of_nat n) = true) by lia.
  rewrite Hk. kred. set (u0 := set_offset_resid u (uio_offset u) (Z.of_nat n)).
  assert (Wu0 : uio_wf u0) by (apply set_resid_wf; [done|lia]).
  assert (Hsub : take n (drop (Z.to_nat (uio_offset u)) (fbytes fs sv)) =
                 take n (drop (Z.to_nat (uio_offset u)) (fcontent fs sv))).
  { unfold fbytes. fold size.
    rewrite skipn_firstn_comm, take_take. f_equal. lia. }
  rewrite Hsub.
  destruct (io_body_read fs sv H W Hv u0) as (u1 & -> & Hst); [done|done|cbn; lia|cbn; lia|].
  kred. unfold read_step, u0 in Hst. cbn [uio_resid uio_offset set_offset_resid] in Hst. rewrite Nat2Z.id in Hst.
  assert (Hw : bool_decide (uio_rwflag u1 = UIO_WRITE) = false).
  { rewrite (us_rw _ _ _ _ Hst). cbn [uio_rwflag set_offset_resid]. by rewrite Hrw. }
  rewrite Hw, andb_false_r. cbn [andb]. eexists. split; [done|].
  pose proof (uio_step_restore u (uio_offset u) (Z.of_nat n) _ _ _ Wu ltac:(lia) Hst) as Hfin.
  replace (uio_offset u1 - uio_offset u + uio_offset u) with (uio_offset u1) in Hfin by lia.
  by replace (uio_resid u1 + (uio_resid u - Z.of_nat n)) with (uio_resid u1 - Z.of_nat n + uio_resid u) by lia.
Qed.

(** C27. Writing with [sfs_io], for a request, not empty, that ends at 2^41 at the latest (beyond,
    the block number wraps round: [sfs_write_wraps]).  Some prefix of the data, [n]
    bytes, replaces the bytes of the file at the offset; every other byte of the file's
    blocks keeps its value, those behind the end of the file included, so that a gap
    before the offset reads as what the blocks held there (zeros in a block that is not
    allocated, but in the last block whatever a truncation left: [sfs_write_gap]); and
    the size is raised to cover what was written.  The whole request is written and 0
    returned, unless the next byte lies in a hole of the file and no block of the volume
    is free ([ENOSPC]), or all up to the largest file size, 143 blocks, was written and
    there is more ([EFBIG]).  Files of other owners, and the invariants of the volume,
    are kept on every path. *)
Theorem sfs_write_correct fs sv u :
  fs_wf fs -> sv_wf fs sv -> vol_small fs -> uio_wf u -> uio_rwflag u = UIO_WRITE ->
  bytes (uio_data u) -> 0 <= uio_offset u -> 0 < uio_resid u -> uio_offset u + uio_resid u <= 2 ^ 41 ->
  exists r fs' sv' u' n, sfs_io fs sv u = Done (r, fs', sv', u') /\
    file_step fs sv fs' sv' /\
    fcontent fs' sv' = splice (Z.to_nat (uio_offset u)) (take n (uio_data u)) (fcontent fs sv) /\
    sfi_size (sv_i sv') = (if (n =? 0)%nat then sfi_size (sv_i sv)
                           else Z.max (sfi_size (sv_i sv)) (uio_offset u + Z.of_nat n)) /\
    uio_step u n (take n (uio_data u)) u' /\
    (r = 0 /\ n = Z.to_nat (uio_resid u) \/
     r = ENOSPC /\ (n < Z.to_nat (uio_resid u))%nat /\ volume_full fs' /\
       ptrs fs' sv' !! ((Z.to_nat (uio_offset u) + n) / 512)%nat = Some 0 \/
     r = EFBIG /\ (n < Z.to_nat (uio_resid u))%nat /\ n = (143 * 512 - Z.to_nat (uio_offset u))%nat).
Proof.
  intros H W Hv Wu Hrw Hb Ho Hpos Hmax. unfold sfs_io, is_read, is_write. rewrite Hrw.
  change (bool_decide (UIO_WRITE = UIO_READ)) with false. cbn [andb orb]. kred.
  pose proof (uw_resid _ Wu) as [Hre Hrl].
  assert (Hu : set_offset_resid u (uio_offset u) (u32 (uio_resid u - 0)) = u).
  { rewrite Z.sub_0_r, u32_small by lia. by destruct u. }
  rewrite Hu. destruct (io_body_write fs sv u H W Hv Wu Hrw Hb Ho Hpos Hmax)
    as (r & fs' & sv1 & u1 & n & -> & [F1 F2 F3 F4] & Hn & Hr). kred.
  pose proof F4 as [S1 S2 S3 S4 S5 S6]. pose proof (uw_resid _ S1) as [Hr1 _].
  assert (Hu1 : set_offset_resid u1 (uio_offset u1) (u32 (uio_resid u1 + 0)) = u1).
  { rewrite Z.add_0_r, u32_small by lia. by destruct u1. }
  rewrite Hu1, S2, Hrw. change (bool_decide (UIO_WRITE = UIO_WRITE)) with true. rewrite andb_true_r.
  exists r, fs'. unfold FMAX in Hn, Hr. pose proof (vw_size _ _ W) as Hsz.
  destruct (negb (uio_resid u1 =? uio_resid u) && (uio_offset u1 >? sfi_size (sv_i sv1))) eqn:Hc.
  - exists (set_size sv1 (u32 (uio_offset u1))), u1, n.
    rewrite (u32_small (uio_offset u1)) by lia.
    destruct (set_size_step fs' sv1 (uio_offset u1)) as [Hst Hcc]; [apply F1|apply F1|lia|].
    split; [done|]. split; [by apply file_step_trans with fs' sv1|]. split; [by rewrite Hcc|].
    split_and!; [|done|exact Hr]. cbn. destruct (Nat.eqb_spec n 0); lia.
  - exists sv1, u1, n. split; [done|]. split; [done|]. split; [done|]. split_and!; [|done|exact Hr].
    destruct (Nat.eqb_spec n 0); [done|]. lia.
Qed.

(** ** Witnesses *)

Definition read_uio : uio := uio_kinit (zeros 600) 600 500 UIO_READ.
Definition write_uio : uio := uio_kinit (replicate 700 65) 700 1000 UIO_WRITE.

Lemma sfs_read_correct_witness :
  exists u', sfs_io example_fs example_sv read_uio = Done (0, example_fs, example_sv, u') /\
    uio_step read_uio 600 (take 600 (drop 500 (fbytes example_fs example_sv))) u'.
Proof.
  exact (sfs_read_correct example_fs example_sv read_uio example_fs_wf example_sv_wf
    ltac:(unfold vol_small; cbn; lia) (uio_kinit_wf (zeros 600) 500 UIO_READ ltac:(reflexivity)) eq_refl ltac:(cbn; lia)).
Defined.

Lemma sfs_write_correct_witness :
  exists r fs' sv' u' n, sfs_io example_fs example_sv write_uio = Done (r, fs', sv', u') /\
    file_step example_fs example_sv fs' sv' /\
    fcontent fs' sv' = splice 1000 (take n (uio_data write_uio)) (fcontent example_fs example_sv).
Proof.
  destruct (sfs_write_correct example_fs example_sv write_uio example_fs_wf example_sv_wf
    ltac:(unfold vol_small; cbn; lia) (uio_kinit_wf (replicate 700 65) 1000 UIO_WRITE ltac:(reflexivity)) eq_refl)
    as (r & fs' & sv' & u' & n & H1 & H2 & H3 & _); [|cbn; lia|cbn; lia|cbn; lia|].
  - change (bytes (uio_data (uio_kinit (replicate 700 65) (Z.of_nat (length (replicate 700 65))) 1000 UIO_WRITE))).
    rewrite uio_kinit_data.
    apply Forall_replicate. unfold is_byte. lia.
  - exists r, fs', sv', u', n. exact (conj H1 (conj H2 H3)).
Defined.

(** The block number of a request is kept in 32 bits: one byte written at offset
    2^41 lands at the start of the file, and 0 is returned. *)
Example sfs_write_wraps :
  match sfs_io example_fs example_sv (uio_kinit [65] 1 (2 ^ 41) UIO_WRITE) with
  | Done (0, fs', sv', _) => take 2 (fblock fs' sv' 0) = [65; 4] /\ sfi_size (sv_i sv') = 1
  | _ => False
  end.
Proof. vm_compute. split; reflexivity. Qed.

(** [sfs_itrunc] keeps the last block as it is: after cutting the file to 10 bytes, a byte
    written at 50 brings bytes of the old file back, from 10 to 49. *)
Example sfs_write_gap :
  match sfs_itrunc example_fs example_sv 10 with
  | Done (0, fs1, sv1) =>
    match sfs_io fs1 sv1 (uio_kinit [65] 1 50 UIO_WRITE) with
    | Done (0, fs', sv', _) => fbytes fs' sv' = replicate 50 4 ++ [65] /\ length (fbytes fs1 sv1) = 10%nat
    | _ => False
    end
  | _ => False
  end.
Proof. vm_compute. split; reflexivity. Qed.

(** ** Metadata *)

Definition pos_ok (pos : Z) (n : nat) : Prop :=
  0 <= pos < 143 * 512 /\ pos mod 512 + Z.of_nat n <= 512.

Lemma pos_block pos n fs sv :
  fs_wf fs -> sv_wf fs sv -> pos_ok pos n ->
  let o := Z.to_nat pos in
  u32 (Z.quot pos SFS_BLOCKSIZE) = Z.of_nat (o / 512) /\ u32 (Z.rem pos SFS_BLOCKSIZE) = Z.of_nat (o mod 512) /\
  (o / 512 < NPTRS)%nat /\ (o mod 512 + n <= 512)%nat /\ (o + n <= FMAX)%nat /\ exists p, ptrs fs sv !! (o / 512)%nat = Some p.
Proof.
  intros H W [Hp Hn] o. unfold SFS_BLOCKSIZE. pose proof (ptrs_length fs sv H W) as Hl. unfold NPTRS, FMAX in *.
  assert (Hk : Z.of_nat (o / 512) = pos / 512) by (unfold o; rewrite Nat2Z.inj_div, Z2Nat.id by lia; done).
  assert (Hm : Z.of_nat (o mod 512) = pos mod 512) by (unfold o; rewrite Nat2Z.inj_mod, Z2Nat.id by lia; done).
  split; [rewrite Z.quot_div_nonneg, u32_small by lia; lia|].
  split; [rewrite Z.rem_mod_nonneg, u32_small by lia; lia|].
  split; [lia|]. split; [lia|]. split; [lia|]. apply lookup_lt_is_Some_2. lia.
Qed.

Lemma metaio_read fs sv pos data :
  fs_wf fs -> sv_wf fs sv -> pos_ok pos (length data) ->
  sfs_metaio fs sv pos data UIO_READ =
    Done (0, fs, sv, take (length data) (drop (Z.to_nat pos) (fcontent fs sv))).
Proof.
  intros H W Hpos. destruct (pos_block pos _ fs sv H W Hpos) as (Hq & Hm & Hk & Hin & Hmax & p & Hp).
  unfold sfs_metaio. rewrite Hq, Hm. change (bool_decide (UIO_READ = UIO_WRITE)) with false.
  change (bool_decide (UIO_READ = UIO_READ)) with true.
  rewrite (bmap_lookup fs sv _ p) by auto. kred. rewrite fcontent_block by done.
  pose proof (fblock_block fs sv (Z.to_nat pos / 512) H W) as [Hbl _]. unfold fblock in *. rewrite Hp in *.
  destruct (Z.eqb_spec p 0).
  - unfold zeros. rewrite drop_replicate, take_replicate. do 3 f_equal. lia.
  - change (Z.to_nat SFS_BLOCKSIZE) with 512%nat.
    rewrite sfs_readblock_ok; [kred|done|destruct (ptr_ok fs sv _ p W Hp); lia|apply length_zeros].
    unfold SFS_BLOCKSIZE. rewrite Z.gtb_ltb, (proj2 (Z.ltb_ge _ _)) by lia. by rewrite Nat2Z.id.
Qed.

Lemma metaio_write fs sv pos data :
  fs_wf fs -> sv_wf fs sv -> pos_ok pos (length data) -> bytes data -> data <> [] ->
  exists r fs' sv', sfs_metaio fs sv pos data UIO_WRITE = Done (r, fs', sv', data) /\
    file_step fs sv fs' sv' /\
    (r = 0 /\ fcontent fs' sv' = splice (Z.to_nat pos) data (fcontent fs sv) /\
       sfi_size (sv_i sv') = Z.max (sfi_size (sv_i sv)) (pos + Z.of_nat (length data)) \/
     r = ENOSPC /\ fcontent fs' sv' = fcontent fs sv /\ sfi_size (sv_i sv') = sfi_size (sv_i sv) /\
       take (length data) (drop (Z.to_nat pos) (fcontent fs sv)) = zeros (length data)).
Proof.
  intros H W Hpos Hby Hne. destruct (pos_block pos _ fs sv H W Hpos) as (Hq & Hm & Hk & Hin & Hmax & p0 & Hp0).
  unfold sfs_metaio. rewrite Hq, Hm. change (bool_decide (UIO_WRITE = UIO_WRITE)) with true.
  set (o := Z.to_nat pos) in *.
  destruct (bmap_alloc fs sv (o / 512) p0 H W Hk Hp0) as (r & fs1 & sv1 & -> & Hst & Hfb & Hsz & Hr). kred.
  pose proof Hst as [F1 F2 _ _ _ _ _].
  destruct r as [p|e].
  2: { destruct Hr as (-> & -> & _). exists ENOSPC, fs1, sv1. split; [done|]. split; [done|]. right.
       split; [done|]. split; [by apply same_blocks_content|]. split; [done|].
       rewrite fcontent_block by done. unfold fblock. rewrite Hp0. cbn [Z.eqb]. unfold zeros.
       rewrite drop_replicate, take_replicate. f_equal. fold o. lia. }
  destruct Hr as (Hpn & _ & Hptrs). rewrite (proj2 (Z.eqb_neq p 0)) by done.
  assert (Hpk : ptrs fs1 sv1 !! (o / 512)%nat = Some p).
  { rewrite Hptrs. apply list_lookup_insert_eq. by rewrite (ptrs_length fs sv). }
  change (Z.to_nat SFS_BLOCKSIZE) with 512%nat.
  assert (Hpr : 0 <= p < nblocks fs1) by (destruct (ptr_ok fs1 sv1 _ p F2 Hpk); lia).
  rewrite sfs_readblock_ok by (done || apply length_zeros). kred.
  unfold SFS_BLOCKSIZE. rewrite Z.gtb_ltb, (proj2 (Z.ltb_ge _ _)), Nat2Z.id by lia.
  assert (Hfs : fsector fs1 p = fblock fs sv (o / 512)).
  { rewrite <- Hfb. unfold fblock. by rewrite Hpk, (proj2 (Z.eqb_neq p 0)). }
  rewrite Hfs. pose proof (proj1 (fblock_block fs sv (o / 512) H W)) as Hbl.
  rewrite sfs_writeblock_ok by (done || (rewrite length_splice; lia)). kred.
  destruct Hpos as [Hp1 Hp2]. pose proof (vw_size _ _ W) as Hvs.
  destruct (write_stretch fs sv (o / 512) p fs1 sv1 o data) as [Hst2 Hc]; try done.
  eexists 0, _, _. split; [done|]. rewrite Z.gtb_ltb, Hsz.
  destruct (Z.ltb_spec (sfi_size (sv_i sv)) (pos + Z.of_nat (length data))).
  - rewrite (u32_small (pos + _)) by lia.
    match goal with |- file_step _ _ ?f _ /\ _ =>
      destruct (set_size_step f sv1 (pos + Z.of_nat (length data))) as [Hst3 Hc3]; [apply Hst2|apply Hst2|unfold FMAX in Hmax; lia|] end.
    split; [by eapply file_step_trans|]. left. split_and!; [done|by rewrite Hc3|cbn; lia].
  - split; [done|]. left. split_and!; [done|done|lia].
Qed.
