(* ===== verification/SfsDir.v ===== *)
(** * sfs_dir.c: directories

    A directory is a file of 64-byte entries.  The entry read from the disk or to
    be written is the list of its bytes; a name passed in by a caller is a
    terminated string. *)

From S2P Require Import Prelude Cstring CopyInOut Uio Bitmap Lhd Sfs SfsIo.

(** The layout of [struct sfs_direntry]: 4 bytes [sfd_ino], 60 bytes [sfd_name]. *)
Definition SIZEOF_DIRENTRY : Z := 64.
Definition sfd_ino (sd : list Z) : Z :=
  match sd with a :: b :: c :: d :: _ => un_be32 a b c d | _ => 0 end.
Definition sfd_name (sd : list Z) : list Z := drop 4 sd.
Definition mkDirentry (ino : Z) (name : list Z) : list Z := be32 ino ++ name.

Definition sfs_readdir (fs : sfs_fs) (sv : sfs_vnode) (slot : Z) (sd : list Z)
    : outcome (Z * sfs_fs * sfs_vnode * list Z) :=
  let actualpos := u32 (slot * SIZEOF_DIRENTRY) in
  sfs_metaio fs sv actualpos sd UIO_READ.

Definition sfs_writedir (fs : sfs_fs) (sv : sfs_vnode) (slot : Z) (sd : list Z)
    : outcome (Z * sfs_fs * sfs_vnode) :=
  KASSERT (slot >=? 0);;
  let actualpos := u32 (slot * SIZEOF_DIRENTRY) in
  '(result, fs, sv, _) ← sfs_metaio fs sv actualpos sd UIO_WRITE;
  mret (result, fs, sv).

Definition sfs_dir_nentries (sv : sfs_vnode) : outcome Z :=
  KASSERT (sfi_type (sv_i sv) =? SFS_TYPE_DIR);;
  let size := sfi_size (sv_i sv) in
  if negb (size mod SIZEOF_DIRENTRY =? 0) then Panic
  else mret (size / SIZEOF_DIRENTRY).

(** What [sfs_dir_findname] stores through its pointers. *)
Record found_state := mkFound {
  f_found : bool;
  f_ino : Z;
  f_slot : Z;
  f_empty : Z }.

Fixpoint findname_loop (k : nat) (i : Z) (fs : sfs_fs) (sv : sfs_vnode) (name : list Z)
    (tsd : list Z) (st : found_state) : outcome (Z * sfs_fs * sfs_vnode * found_state) :=
  match k with
  | O => mret (if f_found st then 0 else ENOENT, fs, sv, st)
  | S k =>
      '(result, fs, sv, tsd) ← sfs_readdir fs sv i tsd;
      if negb (result =? 0) then mret (result, fs, sv, st) else
      if sfd_ino tsd =? SFS_NOINO then
        findname_loop k (i + 1) fs sv name tsd (mkFound (f_found st) (f_ino st) (f_slot st) i)
      else
        (* ensure null termination *)
        let tsd := <[63%nat := 0]> tsd in
        c ← strcmp (sfd_name tsd) name;
        if c =? 0 then
          KASSERT (negb (f_found st));;
          findname_loop k (i + 1) fs sv name tsd (mkFound true (sfd_ino tsd) i (f_empty st))
        else findname_loop k (i + 1) fs sv name tsd st
  end.

(** [st] holds what [*ino], [*slot] and [*emptyslot] are on entry. *)
Definition sfs_dir_findname (fs : sfs_fs) (sv : sfs_vnode) (name : list Z) (ino slot emptyslot : Z)
    : outcome (Z * sfs_fs * sfs_vnode * found_state) :=
  nentries ← sfs_dir_nentries sv;
  findname_loop (Z.to_nat nentries) 0 fs sv name (zeros (Z.to_nat SIZEOF_DIRENTRY))
    (mkFound false ino slot emptyslot).

(** The result, the file system, the directory and the slot used. *)
Definition sfs_dir_link (fs : sfs_fs) (sv : sfs_vnode) (name : list Z) (ino : Z)
    : outcome (Z * sfs_fs * sfs_vnode * option Z) :=
  '(result, fs, sv, st) ← sfs_dir_findname fs sv name 0 0 (-1);
  if negb (result =? 0) && negb (result =? ENOENT) then mret (result, fs, sv, None) else
  if result =? 0 then mret (EEXIST, fs, sv, None) else
  len ← strlen name;
  if len + 1 >? SFS_NAMELEN then mret (ENAMETOOLONG, fs, sv, None) else
  emptyslot ← (if f_empty st <? 0 then sfs_dir_nentries sv else mret (f_empty st));
  sname ← strcpy (zeros (Z.to_nat SFS_NAMELEN)) name;
  '(result, fs, sv) ← sfs_writedir fs sv emptyslot (mkDirentry ino sname);
  mret (result, fs, sv, Some emptyslot).

Definition sfs_dir_unlink (fs : sfs_fs) (sv : sfs_vnode) (slot : Z)
    : outcome (Z * sfs_fs * sfs_vnode) :=
  sfs_writedir fs sv slot (mkDirentry SFS_NOINO (zeros (Z.to_nat SFS_NAMELEN))).

(** ** A directory as a list of entries *)

(** An entry: inode number (0 when free) and name. *)
Definition entry_of (sd : list Z) : Z * list Z := (sfd_ino sd, cstr (sfd_name (<[63%nat := 0]> sd))).
Definition slot_bytes (c : list Z) (i : nat) : list Z := take 64 (drop (i * 64) c).

Definition nslots (sv : sfs_vnode) : nat := Z.to_nat (sfi_size (sv_i sv) / 64).
Definition entries (fs : sfs_fs) (sv : sfs_vnode) : list (Z * list Z) :=
  map (fun i => entry_of (slot_bytes (fcontent fs sv) i)) (seq 0 (nslots sv)).

(** Entry [i] is in use under [name]. *)
Definition names (l : list (Z * list Z)) (i : nat) (name : list Z) (ino : Z) : Prop :=
  l !! i = Some (ino, name) /\ ino <> 0.

Record dir_wf (fs : sfs_fs) (sv : sfs_vnode) : Prop := {
  dw_type : sfi_type (sv_i sv) = SFS_TYPE_DIR;
  dw_size : sfi_size (sv_i sv) mod 64 = 0;
  dw_names : forall i j name x y, names (entries fs sv) i name x -> names (entries fs sv) j name y -> i = j }.

Lemma sfd_ino_insert b k x : (4 <= k)%nat -> sfd_ino (<[k := x]> b) = sfd_ino b.
Proof. intros Hk. destruct k as [|[|[|[|k]]]]; try lia. by destruct b as [|b0 [|b1 [|b2 [|b3 b]]]]. Qed.

Lemma length_entries fs sv : length (entries fs sv) = nslots sv.
Proof. unfold entries. by rewrite length_map, length_seq. Qed.

Lemma lookup_entries fs sv i :
  (i < nslots sv)%nat -> entries fs sv !! i = Some (entry_of (slot_bytes (fcontent fs sv) i)).
Proof. intros Hi. unfold entries. rewrite list_lookup_fmap, lookup_seq_lt by done. done. Qed.

Lemma nslots_bound fs sv : sv_wf fs sv -> (nslots sv <= 1144)%nat /\ nslots sv = Z.to_nat (sfi_size (sv_i sv) / 64).
Proof. intros W. unfold nslots. pose proof (vw_size _ _ W). lia. Qed.

Lemma slot_pos i : (i < 1144)%nat -> pos_ok (Z.of_nat i * 64) 64 /\ u32 (Z.of_nat i * 64) = Z.of_nat i * 64.
Proof. intros Hi. unfold pos_ok. rewrite u32_small by lia. lia. Qed.

Lemma length_slot_bytes fs sv i :
  fs_wf fs -> sv_wf fs sv -> (i < 1144)%nat ->
  length (slot_bytes (fcontent fs sv) i) = 64%nat /\ bytes (slot_bytes (fcontent fs sv) i).
Proof.
  intros H W Hi. unfold slot_bytes. rewrite length_take, length_drop, length_fcontent by done.
  unfold FMAX. split; [lia|]. by apply bytes_take, bytes_drop, bytes_fcontent.
Qed.

Lemma readdir_ok fs sv i sd :
  fs_wf fs -> sv_wf fs sv -> (i < 1144)%nat -> length sd = 64%nat ->
  sfs_readdir fs sv (Z.of_nat i) sd = Done (0, fs, sv, slot_bytes (fcontent fs sv) i).
Proof.
  intros H W Hi Hl. destruct (slot_pos i Hi) as [Hp Hu]. unfold sfs_readdir, SIZEOF_DIRENTRY. rewrite Hu.
  rewrite metaio_read by (try done; by rewrite Hl). unfold slot_bytes. rewrite Hl. do 4 f_equal. lia.
Qed.

Lemma name_is_str b : length b = 64%nat -> bytes b -> is_str (sfd_name (<[63%nat := 0]> b)) /\ bytes (sfd_name (<[63%nat := 0]> b)).
Proof.
  intros Hl Hb. unfold sfd_name, is_str. split.
  - apply list_elem_of_lookup. exists 59%nat. rewrite lookup_drop. apply list_lookup_insert_eq. lia.
  - apply bytes_drop. apply Forall_insert; [done|]. unfold is_byte. lia.
Qed.

(** The state of the search after the first [i] slots. *)
Record searched (l : list (Z * list Z)) (name : list Z) (i : nat) (st0 st : found_state) : Prop := {
  se_found : if f_found st
             then exists j, (j < i)%nat /\ f_slot st = Z.of_nat j /\ names l j name (f_ino st)
             else f_ino st = f_ino st0 /\ f_slot st = f_slot st0 /\ forall j x, (j < i)%nat -> ~ names l j name x;
  se_empty : (f_empty st = f_empty st0 /\ forall j e, (j < i)%nat -> l !! j = Some e -> fst e <> 0) \/
             (exists j n, (j < i)%nat /\ f_empty st = Z.of_nat j /\ l !! j = Some (0, n)) }.

Lemma findname_loop_ok fs sv name st0 k i tsd st :
  fs_wf fs -> sv_wf fs sv -> dir_wf fs sv -> is_str name -> bytes name -> length tsd = 64%nat ->
  (i + k)%nat = nslots sv -> searched (entries fs sv) (cstr name) i st0 st ->
  exists st', findname_loop k (Z.of_nat i) fs sv name tsd st =
      Done (if f_found st' then 0 else ENOENT, fs, sv, st') /\
    searched (entries fs sv) (cstr name) (nslots sv) st0 st'.
Proof.
  intros H W D Hn Bn. revert i tsd st. induction k as [|k IH]; intros i tsd st Hl Hik Hse; cbn [findname_loop].
  { exists st. split; [done|]. replace (nslots sv) with i by lia. done. }
  pose proof (proj1 (nslots_bound fs sv W)) as Hns. assert (Hi : (i < 1144)%nat) by lia.
  rewrite readdir_ok by done. kred. set (b := slot_bytes (fcontent fs sv) i).
  destruct (length_slot_bytes fs sv i H W Hi) as [Hbl Hbb]. fold b in Hbl, Hbb.
  assert (He : entries fs sv !! i = Some (entry_of b)) by (apply lookup_entries; lia).
  replace (Z.of_nat i + 1) with (Z.of_nat (S i)) by lia. rewrite sfd_ino_insert by lia.
  destruct Hse as [Hf Hem]. unfold SFS_NOINO.
  destruct (Z.eqb_spec (sfd_ino b) 0) as [Hz|Hnz].
  - apply IH; [done|lia|]. split; cbn [f_found f_ino f_slot f_empty].
    + destruct (f_found st); [destruct Hf as (j & ? & ? & ?); exists j; split_and!; done || lia|].
      destruct Hf as (? & ? & Hno). split_and!; try done. intros j x Hj [Hjl Hx].
      destruct (decide (j < i)%nat); [by apply (Hno j x)|]. replace j with i in Hjl by lia.
      rewrite He in Hjl. unfold entry_of in Hjl. congruence.
    + right. exists i, (snd (entry_of b)). split_and!; [lia|done|]. rewrite He. unfold entry_of. cbn. by rewrite Hz.
  - destruct (name_is_str b Hbl Hbb) as [Hs Hsb]. rewrite strcmp_ok by done. kred.
    assert (Hem' : (f_empty st = f_empty st0 /\ forall j e, (j < S i)%nat -> entries fs sv !! j = Some e -> fst e <> 0) \/
             (exists j n, (j < S i)%nat /\ f_empty st = Z.of_nat j /\ entries fs sv !! j = Some (0, n))).
    { destruct Hem as [[? Hall]|(j & n & ? & ? & ?)]; [left|right; exists j, n; split_and!; done || lia].
      split; [done|]. intros j e Hj Hje. destruct (decide (j < i)%nat); [by apply (Hall j)|].
      replace j with i in Hje by lia. rewrite He in Hje. by injection Hje as <-. }
    destruct (Z.eqb_spec (lexcmp (cstr (sfd_name (<[63%nat:=0]> b))) (cstr name)) 0) as [Heq|Hne].
    + apply lexcmp_eq in Heq.
      assert (Hnm : names (entries fs sv) i (cstr name) (sfd_ino b)).
      { split; [|done]. rewrite He. unfold entry_of. by rewrite Heq. }
      destruct (f_found st) eqn:Efound.
      { destruct Hf as (j & Hj & _ & Hnj). pose proof (dw_names _ _ D _ _ _ _ _ Hnm Hnj). lia. }
      kred. apply IH; [by rewrite length_insert|lia|]. split; cbn [f_found f_ino f_slot f_empty]; [|done].
      exists i. split_and!; [lia|done|done].
    + apply IH; [by rewrite length_insert|lia|]. split; [|done].
      destruct (f_found st); [destruct Hf as (j & ? & ? & ?); exists j; split_and!; done || lia|].
      destruct Hf as (? & ? & Hno). split_and!; try done. intros j x Hj [Hjl Hx].
      destruct (decide (j < i)%nat); [by apply (Hno j x)|]. replace j with i in Hjl by lia.
      rewrite He in Hjl. apply Hne, lexcmp_eq. unfold entry_of in Hjl. congruence.
Qed.

Lemma findname_ok fs sv name ino slot empty :
  fs_wf fs -> sv_wf fs sv -> dir_wf fs sv -> is_str name -> bytes name ->
  exists st, sfs_dir_findname fs sv name ino slot empty = Done (if f_found st then 0 else ENOENT, fs, sv, st) /\
    searched (entries fs sv) (cstr name) (nslots sv) (mkFound false ino slot empty) st.
Proof.
  intros H W D Hn Bn. unfold sfs_dir_findname, sfs_dir_nentries, SIZEOF_DIRENTRY.
  rewrite (dw_type _ _ D), Z.eqb_refl. kred. rewrite (dw_size _ _ D). kred.
  apply (findname_loop_ok fs sv name _ (nslots sv) 0); try done.
  split; [|left; split; [done|lia]]. cbn. split_and!; try done. intros j x Hj. lia.
Qed.

(** ** Writing an entry *)

Lemma be32_un x : 0 <= x < 2 ^ 32 -> sfd_ino (be32 x ++ []) = x /\ length (be32 x) = 4%nat /\ bytes (be32 x).
Proof.
  intros Hx. split; [by apply un_be32_be32|]. split; [done|].
  repeat constructor; by apply Z.mod_pos_bound.
Qed.

Lemma direntry_fields ino name :
  0 <= ino < 2 ^ 32 -> length name = 60%nat -> bytes name ->
  sfd_ino (mkDirentry ino name) = ino /\ sfd_name (mkDirentry ino name) = name /\
  length (mkDirentry ino name) = 64%nat /\ bytes (mkDirentry ino name).
Proof.
  intros Hi Hl Hb. destruct (be32_un ino Hi) as (Hu & _ & Hbb). split_and!.
  - exact Hu.
  - done.
  - unfold mkDirentry. rewrite length_app, Hl. done.
  - by apply Forall_app.
Qed.

(** [c'] is [c] with slot [s] overwritten. *)
Lemma slot_splice c sd s i :
  length sd = 64%nat -> (s * 64 + 64 <= length c)%nat ->
  slot_bytes (splice (s * 64) sd c) i = if decide (i = s) then sd else slot_bytes c i.
Proof.
  intros Hl Hc. unfold slot_bytes. apply list_eq. intros j. destruct (decide (i = s)) as [->|Hne].
  - destruct (decide (j < 64)%nat).
    + rewrite lookup_take_lt, lookup_drop, lookup_splice_new by lia. f_equal. lia.
    + rewrite lookup_take_ge by lia. symmetry. apply lookup_ge_None_2. lia.
  - destruct (decide (j < 64)%nat); [|by rewrite !lookup_take_ge by lia].
    rewrite !lookup_take_lt, !lookup_drop, lookup_splice_old by lia. done.
Qed.

(** Slot [s] of the directory, an old one or the next, now is [e]. *)
Definition dir_set (l : list (Z * list Z)) (s : nat) (e : Z * list Z) : list (Z * list Z) :=
  if decide (s < length l)%nat then <[s := e]> l else l ++ [e].

Lemma writedir_ok fs sv s sd :
  fs_wf fs -> sv_wf fs sv -> sfi_size (sv_i sv) mod 64 = 0 -> (s <= nslots sv)%nat ->
  length sd = 64%nat -> bytes sd ->
  exists r fs' sv', sfs_writedir fs sv (Z.of_nat s) sd = Done (r, fs', sv') /\ file_step fs sv fs' sv' /\
    sfi_size (sv_i sv') mod 64 = 0 /\
    (r = 0 /\ entries fs' sv' = dir_set (entries fs sv) s (entry_of sd) \/
     (r = ENOSPC /\ (forall e, entries fs sv !! s = Some e -> fst e = 0) \/ r = EFBIG /\ s = 1144%nat) /\
       entries fs' sv' = entries fs sv).
Proof.
  intros H W Hsz Hs Hl Hb. pose proof (proj1 (nslots_bound fs sv W)) as Hns.
  unfold sfs_writedir, SIZEOF_DIRENTRY. rewrite Z.geb_leb, (proj2 (Z.leb_le _ _)) by lia. kred.
  destruct (decide (s = 1144)%nat) as [->|Hne].
  { unfold sfs_metaio. rewrite (u32_small (Z.of_nat 1144 * 64)) by lia. unfold SFS_BLOCKSIZE.
    replace (u32 (Z.quot (Z.of_nat 1144 * 64) 512)) with 143 by reflexivity.
    rewrite bmap_toobig by lia. kred. exists EFBIG, fs, sv. split; [done|].
    split; [by apply file_step_refl|]. split; [done|]. right. split; [by right|done]. }
  destruct (slot_pos s ltac:(lia)) as [Hp ->].
  destruct (metaio_write fs sv (Z.of_nat s * 64) sd) as (r & fs' & sv' & -> & Hst & Hr);
    [done|done|by rewrite Hl|done|by destruct sd|]. kred.
  exists r, fs', sv'. split; [done|]. split; [done|].
  pose proof Hs as Hs'. unfold nslots in Hs'. pose proof (vw_size _ _ W) as Hvs.
  assert (Hlc : length (fcontent fs sv) = (143 * 512)%nat) by by rewrite length_fcontent.
  destruct Hr as [(-> & Hc & Hz)|(-> & Hc & Hz & Hzero)].
  2: { split; [by rewrite Hz|]. right. split.
       { left. split; [done|]. intros e He. pose proof (lookup_lt_Some _ _ _ He) as Hlt. rewrite length_entries in Hlt.
         rewrite lookup_entries in He by done. injection He as <-. unfold slot_bytes.
         rewrite Hl in Hzero. replace (Z.to_nat (Z.of_nat s * 64)) with (s * 64)%nat in Hzero by lia.
         by rewrite Hzero. } unfold entries, nslots. by rewrite Hz, Hc. }
  rewrite Hl in Hz. split; [rewrite Hz; lia|]. left. split; [done|].
  assert (Hn' : nslots sv' = Nat.max (nslots sv) (S s)) by (unfold nslots; rewrite Hz; lia).
  apply list_eq. intros i. unfold dir_set. rewrite length_entries.
  assert (Hent : forall i, (i < nslots sv')%nat -> entries fs' sv' !! i =
    Some (entry_of (if decide (i = s) then sd else slot_bytes (fcontent fs sv) i))).
  { intros j Hj. rewrite lookup_entries by done. rewrite Hc.
    replace (Z.to_nat (Z.of_nat s * 64)) with (s * 64)%nat by lia. rewrite slot_splice by (done || lia). done. }
  destruct (decide (i < nslots sv')%nat) as [Hi|Hi].
  - rewrite Hent by done. destruct (decide (s < nslots sv)%nat), (decide (i = s)) as [->|].
    + symmetry. apply list_lookup_insert_eq. by rewrite length_entries.
    + rewrite list_lookup_insert_ne by done. rewrite lookup_entries by lia. done.
    + rewrite lookup_app_r by (rewrite length_entries; lia). rewrite length_entries.
      by replace (s - nslots sv)%nat with 0%nat by (unfold nslots in *; lia).
    + rewrite lookup_app_l, lookup_entries by (rewrite ?length_entries; unfold nslots in *; lia). done.
  - rewrite !lookup_ge_None_2; [done| |by rewrite length_entries; lia].
    case_decide; [rewrite length_insert|rewrite length_app; cbn]; rewrite length_entries; lia.
Qed.

(** ** The theorems *)

Lemma names_dir_set l s e i name x :
  (s <= length l)%nat -> names (dir_set l s e) i name x ->
  (i = s /\ e = (x, name) /\ x <> 0) \/ (i <> s /\ names l i name x).
Proof.
  intros Hs [Hl Hx]. unfold dir_set in Hl. case_decide.
  - apply list_lookup_insert_Some in Hl as [(<- & -> & _)|[? ?]]; [by left|right; by split].
  - apply lookup_app_Some in Hl as [Hl|[Hge Hl]].
    + right. split; [|done]. intros ->. apply lookup_lt_Some in Hl. lia.
    + left. apply list_lookup_singleton_Some in Hl as [? ->]. split_and!; try done. lia.
Qed.

Lemma names_dir_set_new l s x name : (s <= length l)%nat -> x <> 0 -> names (dir_set l s (x, name)) s name x.
Proof.
  intros Hs Hx. split; [|done]. unfold dir_set. case_decide; [by apply list_lookup_insert_eq|].
  rewrite lookup_app_r by lia. by replace (s - length l)%nat with 0%nat by lia.
Qed.

Lemma names_dir_set_old l s e i name x :
  i <> s -> names l i name x -> names (dir_set l s e) i name x.
Proof.
  intros Hi [Hl Hx]. split; [|done]. unfold dir_set. case_decide; [by rewrite list_lookup_insert_ne|].
  rewrite lookup_app_l; [done|by apply lookup_lt_Some in Hl].
Qed.

Lemma new_entry_name name :
  is_str name -> bytes name -> (length (cstr name) < 60)%nat ->
  exists sname, strcpy (zeros 60) name = Done sname /\ length sname = 60%nat /\ bytes sname /\
    forall ino, 0 <= ino < 2 ^ 32 -> entry_of (mkDirentry ino sname) = (ino, cstr name).
Proof.
  intros Hs Hb Hl. eexists. split; [apply strcpy_ok; [done|by rewrite length_zeros]|].
  assert (Hz : drop (S (length (cstr name))) (zeros 60) = zeros (59 - length (cstr name)))
    by (unfold zeros; rewrite drop_replicate; f_equal; lia).
  rewrite Hz. set (sname := cstr name ++ 0 :: zeros (59 - length (cstr name))).
  assert (Hsl : length sname = 60%nat) by (unfold sname; rewrite length_app; cbn; rewrite length_zeros; lia).
  split; [done|]. split.
  - unfold sname. apply Forall_app. split; [|apply Forall_cons; split; [unfold is_byte; lia|apply bytes_zeros]].
    destruct (is_str_split name Hs) as [r Hr]. unfold bytes in Hb. rewrite Hr in Hb. by apply Forall_app in Hb as [? _].
  - intros ino Hi. unfold entry_of.
    assert (Hlast : mkDirentry ino sname !! 63%nat = Some 0).
    { unfold mkDirentry. rewrite lookup_app_r by (cbn; lia). change (63 - length (be32 ino))%nat with 59%nat.
      unfold sname. rewrite lookup_app_r by lia. destruct (59 - length (cstr name))%nat eqn:E; [done|].
      change (replicate (S n) 0 !! n = Some 0). apply lookup_replicate_2. lia. }
    rewrite list_insert_id by done. f_equal; [by apply un_be32_be32|].
    unfold sfd_name, mkDirentry. cbn. apply cstr_app, Forall_cstr.
Qed.

Lemma dir_wf_step fs sv fs' sv' :
  dir_wf fs sv -> file_step fs sv fs' sv' -> sfi_size (sv_i sv') mod 64 = 0 ->
  (forall i j name x y, names (entries fs' sv') i name x -> names (entries fs' sv') j name y -> i = j) ->
  dir_wf fs' sv'.
Proof. intros [D1 D2 D3] Hst Hsz Hn. split; [|done|done]. by rewrite (fst_type _ _ _ _ Hst). Qed.

(** Writing an entry whose name is new. *)
Lemma dir_set_unique l s ino name :
  (forall i j n x y, names l i n x -> names l j n y -> i = j) -> (s <= length l)%nat ->
  (ino <> 0 -> forall i x, ~ names l i name x) ->
  forall i j n x y, names (dir_set l s (ino, name)) i n x -> names (dir_set l s (ino, name)) j n y -> i = j.
Proof.
  intros Hu Hs Hnew i j n x y Hi Hj.
  apply names_dir_set in Hi as [(-> & [= <- <-] & Hx)|[Hi Hni]]; [| |done].
  - apply names_dir_set in Hj as [(-> & _ & _)|[Hj Hnj]]; [done| |done]. by destruct (Hnew Hx j y).
  - apply names_dir_set in Hj as [(-> & [= <- <-] & Hy)|[Hj Hnj]]; [| |done].
    + by destruct (Hnew Hy i x).
    + by apply (Hu i j n x y).
Qed.

(** The conclusion of [dir_link_spec]. *)
Definition link_result (fs : sfs_fs) (sv : sfs_vnode) (name : list Z) (ino r : Z)
    (fs' : sfs_fs) (sv' : sfs_vnode) (s : option Z) : Prop :=
  let l := entries fs sv in
  (r = EEXIST /\ fs' = fs /\ sv' = sv /\ exists i x, names l i name x) \/
  (r = ENAMETOOLONG /\ fs' = fs /\ sv' = sv /\ (60 <= length name)%nat /\ forall i x, ~ names l i name x) \/
  (r = 0 /\ (forall i x, ~ names l i name x) /\
     exists slot, s = Some (Z.of_nat slot) /\ (slot <= length l)%nat /\
       (forall e, l !! slot = Some e -> fst e = 0) /\
       (slot = length l -> forall e, e ∈ l -> fst e <> 0) /\
       entries fs' sv' = dir_set l slot (ino, name)) \/
  ((r = ENOSPC \/ r = EFBIG /\ length l = 1144%nat) /\ entries fs' sv' = l).

Lemma dir_link_ok fs sv name ino :
  fs_wf fs -> sv_wf fs sv -> dir_wf fs sv -> is_str name -> bytes name -> 0 < ino < 2 ^ 32 ->
  exists r fs' sv' s, sfs_dir_link fs sv name ino = Done (r, fs', sv', s) /\
    file_step fs sv fs' sv' /\ dir_wf fs' sv' /\ link_result fs sv (cstr name) ino r fs' sv' s.
Proof.
  intros H W D Hn Bn Hi. unfold sfs_dir_link, link_result.
  destruct (findname_ok fs sv name 0 0 (-1)) as (st & -> & [Hf He]); [done..|]. kred.
  pose proof (file_step_refl fs sv H W) as Hrefl.
  destruct (f_found st).
  { change (ENOENT =? 0) with false. kred. destruct Hf as (j & _ & _ & Hj).
    exists EEXIST, fs, sv, None. split; [done|]. split; [done|]. split; [done|]. left. split_and!; try done. eauto. }
  change (ENOENT =? 0) with false. change (ENOENT =? ENOENT) with true. kred.
  destruct Hf as (_ & _ & Hno0). rewrite strlen_ok by done. kred.
  assert (Hno : forall i x, ~ names (entries fs sv) i (cstr name) x).
  { intros i x Hnm. apply (Hno0 i x); [|done]. destruct Hnm as [Hl _]. apply lookup_lt_Some in Hl.
    by rewrite length_entries in Hl. }
  unfold SFS_NAMELEN. rewrite Z.gtb_ltb.
  destruct (Z.ltb_spec 60 (Z.of_nat (length (cstr name)) + 1)) as [Hlong|Hshort].
  { exists ENAMETOOLONG, fs, sv, None. split; [done|]. split; [done|]. split; [done|].
    right; left. split_and!; try done. lia. }
  (* the slot *)
  assert (Hslot : exists slot, (if f_empty st <? 0 then sfs_dir_nentries sv else mret (f_empty st)) = Done (Z.of_nat slot) /\
    (slot <= nslots sv)%nat /\ (forall e, entries fs sv !! slot = Some e -> fst e = 0) /\
    (slot = nslots sv -> forall e, e ∈ entries fs sv -> fst e <> 0)).
  { destruct He as [[He Hall]|(j & n & Hj & He & Hjn)]; rewrite He; cbn [f_empty].
    - exists (nslots sv). split; [|split; [lia|split]].
      + unfold sfs_dir_nentries, SIZEOF_DIRENTRY. rewrite (dw_type _ _ D), (dw_size _ _ D), Z.eqb_refl. kred.
        cbn. pose proof (vw_size _ _ W). unfold mret, outcome_ret, nslots. f_equal. lia.
      + intros e Hee%lookup_lt_Some. rewrite length_entries in Hee. lia.
      + intros _ e [k Hk]%list_elem_of_lookup. pose proof (lookup_lt_Some _ _ _ Hk) as Hlt.
        rewrite length_entries in Hlt. by apply (Hall k).
    - exists j. rewrite (proj2 (Z.ltb_ge _ _)) by lia. split; [done|]. split; [lia|]. split; [|lia].
      intros e Hee. rewrite Hjn in Hee. by injection Hee as <-. }
  destruct Hslot as (slot & -> & Hsl & Hfree & Hend). kred.
  destruct (new_entry_name name) as (sname & Hcp & Hnl & Hnb & Hent); [done|done|lia|].
  change (Z.to_nat 60) with 60%nat. rewrite Hcp. kred.
  destruct (direntry_fields ino sname ltac:(lia) Hnl Hnb) as (_ & _ & Hdl & Hdb).
  destruct (writedir_ok fs sv slot (mkDirentry ino sname)) as (r & fs' & sv' & -> & Hst & Hsz & Hr);
    [done|done|apply D|done|done|done|]. kred.
  rewrite Hent in Hr by lia.
  exists r, fs', sv', (Some (Z.of_nat slot)). split; [done|]. split; [done|].
  destruct Hr as [[-> Hr]|[Hr Hsame]].
  - split.
    + apply dir_wf_step with fs sv; try done. rewrite Hr. apply dir_set_unique; [apply D|by rewrite length_entries|done].
    + right; right; left. split; [done|]. split; [done|]. exists slot. rewrite length_entries. by split_and!.
  - split.
    + apply dir_wf_step with fs sv; try done. rewrite Hsame. apply D.
    + right; right; right. split; [|done]. rewrite length_entries. destruct Hr as [[-> _]|[-> ->]]; [by left|right].
      split; [done|]. pose proof (proj1 (nslots_bound fs sv W)). lia.
Qed.

Lemma link_result_ok fs sv name ino fs1 sv1 slot :
  fs_wf fs -> sv_wf fs sv -> dir_wf fs sv -> is_str name -> bytes name -> 0 < ino < 2 ^ 32 ->
  sfs_dir_link fs sv name ino = Done (0, fs1, sv1, Some slot) ->
  file_step fs sv fs1 sv1 /\ dir_wf fs1 sv1 /\ (forall i x, ~ names (entries fs sv) i (cstr name) x) /\
  exists k, slot = Z.of_nat k /\ (k <= length (entries fs sv))%nat /\
    (forall e, entries fs sv !! k = Some e -> fst e = 0) /\
    entries fs1 sv1 = dir_set (entries fs sv) k (ino, cstr name).
Proof.
  intros H W D Hn Bn Hi He.
  destruct (dir_link_ok fs sv name ino) as (r & fs' & sv' & s & He' & Hst & Hd & Hr); [done..|].
  rewrite He in He'. injection He' as <- <- <- <-.
  destruct Hr as [(? & _)|[(? & _)|[(_ & Hno & k & [= ->] & Hk & Hfree & _ & Hent)|([?|[? _]] & _)]]]; try done.
  split_and!; try done. by exists k.
Qed.

Lemma unlink_ok fs sv k name x :
  fs_wf fs -> sv_wf fs sv -> dir_wf fs sv -> names (entries fs sv) k name x ->
  exists fs' sv', sfs_dir_unlink fs sv (Z.of_nat k) = Done (0, fs', sv') /\ file_step fs sv fs' sv' /\
    dir_wf fs' sv' /\ entries fs' sv' = dir_set (entries fs sv) k (0, []).
Proof.
  intros H W D [Hk Hx]. pose proof (lookup_lt_Some _ _ _ Hk) as Hlt. rewrite length_entries in Hlt.
  unfold sfs_dir_unlink, SFS_NOINO, SFS_NAMELEN. change (Z.to_nat 60) with 60%nat.
  destruct (writedir_ok fs sv k (mkDirentry 0 (zeros 60))) as (r & fs' & sv' & -> & Hst & Hsz & Hr);
    [done|done|apply D|lia|done|apply (bytes_zeros 64)|].
  destruct Hr as [[-> Hr]|[[[-> Hz]|[_ ->]] _]].
  - exists fs', sv'. change (entry_of (mkDirentry 0 (zeros 60))) with ((0, []) : Z * list Z) in Hr.
    split_and!; try done. apply dir_wf_step with fs sv; try done. rewrite Hr.
    apply dir_set_unique; [apply D|by rewrite length_entries; lia|done].
  - specialize (Hz _ Hk). done.
  - pose proof (proj1 (nslots_bound fs sv W)). lia.
Qed.

(** A search whose outcome is known. *)
Lemma findname_found fs sv name k x :
  fs_wf fs -> sv_wf fs sv -> dir_wf fs sv -> is_str name -> bytes name ->
  names (entries fs sv) k (cstr name) x ->
  exists e, sfs_dir_findname fs sv name 0 0 (-1) = Done (0, fs, sv, mkFound true x (Z.of_nat k) e).
Proof.
  intros H W D Hn Bn Hk.
  destruct (findname_ok fs sv name 0 0 (-1)) as ([fd ino' sl e] & -> & [Hf _]); [done..|].
  cbn [f_found f_ino f_slot] in *. destruct fd.
  - destruct Hf as (j & _ & -> & Hj). pose proof (dw_names _ _ D _ _ _ _ _ Hj Hk) as ->.
    destruct Hj as [Hj _], Hk as [Hk _]. rewrite Hj in Hk. injection Hk as ->. eauto.
  - destruct Hf as (_ & _ & Hno). destruct (Hno k x); [|done].
    destruct Hk as [Hk%lookup_lt_Some _]. by rewrite length_entries in Hk.
Qed.

Lemma findname_missing fs sv name :
  fs_wf fs -> sv_wf fs sv -> dir_wf fs sv -> is_str name -> bytes name ->
  (forall i x, ~ names (entries fs sv) i (cstr name) x) ->
  exists st, sfs_dir_findname fs sv name 0 0 (-1) = Done (ENOENT, fs, sv, st).
Proof.
  intros H W D Hn Bn Hno.
  destruct (findname_ok fs sv name 0 0 (-1)) as (st & -> & [Hf _]); [done..|].
  exists st. destruct (f_found st); [|done]. destruct Hf as (j & _ & _ & Hj). by destruct (Hno _ _ Hj).
Qed.

(** C28. [sfs_dir_link] on a well-formed directory.  A name in use gives [EEXIST]
    and one of 60 characters or more [ENAMETOOLONG], both without effect.
    Otherwise the entry goes into a free slot, or a new slot at the end when there
    is none; all other entries stay, and no name ever occurs twice.  Only a full
    volume or a directory of the largest size can prevent it. *)
Theorem dir_link_spec fs sv name ino :
  fs_wf fs -> sv_wf fs sv -> dir_wf fs sv -> is_str name -> bytes name -> 0 < ino < 2 ^ 32 ->
  exists r fs' sv' s, sfs_dir_link fs sv name ino = Done (r, fs', sv', s) /\
    file_step fs sv fs' sv' /\ dir_wf fs' sv' /\ link_result fs sv (cstr name) ino r fs' sv' s.
Proof. intros. by apply dir_link_ok. Qed.

(** C29. Directory operations fit together: after a successful [sfs_dir_link] of
    [name], [sfs_dir_findname] returns 0 with the inode number and the slot that
    were given; [sfs_dir_unlink] of that slot succeeds, and then [name] is not
    found any more, while every other name keeps its slot and inode throughout. *)
Theorem dir_link_find_unlink fs sv name ino fs1 sv1 slot :
  fs_wf fs -> sv_wf fs sv -> dir_wf fs sv -> is_str name -> bytes name -> 0 < ino < 2 ^ 32 ->
  sfs_dir_link fs sv name ino = Done (0, fs1, sv1, Some slot) ->
  (exists e, sfs_dir_findname fs1 sv1 name 0 0 (-1) = Done (0, fs1, sv1, mkFound true ino slot e)) /\
  exists fs2 sv2, sfs_dir_unlink fs1 sv1 slot = Done (0, fs2, sv2) /\ dir_wf fs2 sv2 /\
    (exists st, sfs_dir_findname fs2 sv2 name 0 0 (-1) = Done (ENOENT, fs2, sv2, st)) /\
    forall i n x, n <> cstr name ->
      (names (entries fs sv) i n x <-> names (entries fs1 sv1) i n x) /\
      (names (entries fs1 sv1) i n x <-> names (entries fs2 sv2) i n x).
Proof.
  intros H W D Hn Bn Hi He.
  destruct (link_result_ok fs sv name ino fs1 sv1 slot) as (Hst1 & D1 & Hno & k & -> & Hk & Hfree & Hent1); [done..|].
  pose proof Hst1 as [H1 W1 _ _ _ _ _].
  assert (Hnew : names (entries fs1 sv1) k (cstr name) ino) by (rewrite Hent1; apply names_dir_set_new; lia).
  split; [by apply findname_found|].
  destruct (unlink_ok fs1 sv1 k _ _ H1 W1 D1 Hnew) as (fs2 & sv2 & -> & Hst2 & D2 & Hent2).
  pose proof (lookup_lt_Some _ _ _ (proj1 Hnew)) as Hk1.
  exists fs2, sv2. split; [done|]. split; [done|]. split.
  - apply findname_missing; try done; [apply Hst2|apply Hst2|]. intros i x. rewrite Hent2.
    intros [(_ & [= <-] & Hx)|[Hik Hni]]%names_dir_set; [done| |lia].
    rewrite Hent1 in Hni. apply names_dir_set in Hni as [(-> & _)|[_ Hni]]; [done| |lia]. by apply (Hno i x).
  - intros i n x Hne. split.
    + rewrite Hent1. split.
      * intros Hni. apply names_dir_set_old; [|done]. intros ->. destruct Hni as [Hni Hx]. by apply Hfree in Hni.
      * intros [(_ & [= _ <-] & _)|[_ ?]]%names_dir_set; done || lia.
    + rewrite Hent2. split.
      * intros Hni. apply names_dir_set_old; [|done]. intros ->.
        destruct Hni as [Hni _], Hnew as [Hnew _]. rewrite Hnew in Hni. congruence.
      * intros [(_ & [= <- _] & Hx)|[_ ?]]%names_dir_set; done || lia.
Qed.

(** An empty directory. *)
Definition example_dir : sfs_vnode :=
  mkSv (mkDinode 0 SFS_TYPE_DIR 1 (replicate 15 0) 0 (replicate 110 0)) 1 false.

Lemma example_dir_sv_wf : sv_wf example_fs example_dir.
Proof. apply sv_wfb_ok. vm_compute. reflexivity. Defined.
Lemma example_dir_wf : dir_wf example_fs example_dir.
Proof. split; [reflexivity|reflexivity|]. intros i j name x y [Hi _]. discriminate Hi. Defined.

Definition example_name : list Z := [97; 46; 99; 0; 7].
Lemma example_name_str : is_str example_name.
Proof. unfold is_str. repeat constructor. Defined.
Lemma example_name_bytes : bytes example_name.
Proof. repeat constructor; unfold is_byte; lia. Defined.

(** The components of a result. *)
Definition out_fs (o : outcome (Z * sfs_fs * sfs_vnode * option Z)) : sfs_fs :=
  match o with Done (_, fs, _, _) => fs | _ => example_fs end.
Definition out_sv (o : outcome (Z * sfs_fs * sfs_vnode * option Z)) : sfs_vnode :=
  match o with Done (_, _, sv, _) => sv | _ => example_dir end.

Lemma link_first_slot o :
  match o with Done (r, _, _, Some s) => (r =? 0) && (s =? 0) | _ => false end = true ->
  o = Done (0, out_fs o, out_sv o, Some 0).
Proof.
  destruct o as [[[[r fs] sv] [s|]]| |]; try done. intros [->%Z.eqb_eq ->%Z.eqb_eq]%andb_true_iff. done.
Qed.

Definition example_link := sfs_dir_link example_fs example_dir example_name 5.
Lemma example_link_done : example_link = Done (0, out_fs example_link, out_sv example_link, Some 0).
Proof. apply link_first_slot. vm_compute. reflexivity. Defined.

Lemma dir_link_spec_witness :
  exists r fs' sv' s, sfs_dir_link example_fs example_dir example_name 5 = Done (r, fs', sv', s) /\
    file_step example_fs example_dir fs' sv' /\ dir_wf fs' sv' /\
    link_result example_fs example_dir [97; 46; 99] 5 r fs' sv' s.
Proof.
  exact (dir_link_spec example_fs example_dir example_name 5 example_fs_wf example_dir_sv_wf example_dir_wf
    example_name_str example_name_bytes ltac:(lia)).
Defined.

Lemma dir_link_find_unlink_witness :
  let fs1 := out_fs example_link in
  let sv1 := out_sv example_link in
  (exists e, sfs_dir_findname fs1 sv1 example_name 0 0 (-1) = Done (0, fs1, sv1, mkFound true 5 0 e)) /\
  exists fs2 sv2, sfs_dir_unlink fs1 sv1 0 = Done (0, fs2, sv2) /\ dir_wf fs2 sv2.
Proof.
  destruct (dir_link_find_unlink example_fs example_dir example_name 5 (out_fs example_link) (out_sv example_link) 0
    example_fs_wf example_dir_sv_wf example_dir_wf example_name_str example_name_bytes ltac:(lia) example_link_done)
    as [H1 (fs2 & sv2 & H2 & H3 & _)].
  split; [exact H1|]. exists fs2, sv2. split; [exact H2|exact H3].
Defined.
