(* ===== verification/SfsVnode.v ===== *)
(** * sfs_inode.c and sfs_vnops.c: inodes in memory and the vnode operations

    A vnode pointer is the key of an object in the table [m_objs]; [kfree] removes
    the object, so that a use after free is a [Panic].  [sfs_vnodes] is the array of
    loaded vnodes.  [m_mem] lists how the next requests for memory end, [kmalloc]
    and the growing of the table alike; they succeed when nothing is listed. *)

From S2P Require Import Prelude Cstring CopyInOut Uio Bitmap Lhd Sfs SfsIo SfsDir.

(** The vnode operation table chosen when the inode is loaded. *)
Inductive sfs_ops := sfs_fileops | sfs_dirops.

Record vobj := mkVobj { vo_sv : sfs_vnode; vo_ops : sfs_ops; vn_refcount : Z }.

Record mount := mkMount {
  m_fs : sfs_fs;
  m_objs : gmap Z vobj;
  sfs_vnodes : list Z;
  m_next : Z;
  m_mem : list bool }.

Definition set_fs (m : mount) (fs : sfs_fs) : mount :=
  mkMount fs (m_objs m) (sfs_vnodes m) (m_next m) (m_mem m).
Definition put_obj (m : mount) (id : Z) (o : vobj) : mount :=
  mkMount (m_fs m) (<[id := o]> (m_objs m)) (sfs_vnodes m) (m_next m) (m_mem m).
Definition get_obj (m : mount) (id : Z) : outcome vobj := deref (m_objs m !! id).
Definition put_sv (m : mount) (id : Z) (o : vobj) (sv : sfs_vnode) : mount :=
  put_obj m id (mkVobj sv (vo_ops o) (vn_refcount o)).

(** A function on the inode of vnode [id]. *)
Definition on_sv {R} (m : mount) (id : Z)
    (f : sfs_fs -> sfs_vnode -> outcome (R * sfs_fs * sfs_vnode)) : outcome (R * mount) :=
  o ← get_obj m id;
  '(r, fs, sv) ← f (m_fs m) (vo_sv o);
  mret (r, put_sv (set_fs m fs) id o sv).

Definition kmalloc (m : mount) : bool * mount :=
  (match m_mem m with [] => true | b :: _ => b end,
   mkMount (m_fs m) (m_objs m) (sfs_vnodes m) (m_next m) (tail (m_mem m))).

(** ** vfs/vnode.c *)

(** [kmalloc]ed storage becomes a vnode. *)
Definition vnode_init (m : mount) (ops : sfs_ops) (sv : sfs_vnode) : Z * mount :=
  (m_next m, mkMount (m_fs m) (<[m_next m := mkVobj sv ops 1]> (m_objs m)) (sfs_vnodes m)
               (m_next m + 1) (m_mem m)).

(** [vnode_cleanup] and the [kfree] after it. *)
Definition vnode_cleanup (m : mount) (id : Z) : outcome mount :=
  o ← get_obj m id;
  KASSERT (vn_refcount o =? 1);;
  mret (mkMount (m_fs m) (delete id (m_objs m)) (sfs_vnodes m) (m_next m) (m_mem m)).

Definition vnode_incref (m : mount) (id : Z) : outcome mount :=
  o ← get_obj m id;
  mret (put_obj m id (mkVobj (vo_sv o) (vo_ops o) (vn_refcount o + 1))).

(** ** sfs_inode.c *)

(** [struct sfs_dinode] as the 128 words of its block; [sfi_type] and
    [sfi_linkcount] share one. *)
Definition dinode_words (di : sfs_dinode) : list Z :=
  sfi_size di :: sfi_type di * 65536 + sfi_linkcount di :: sfi_direct di ++ sfi_indirect di :: sfi_waste di.
Definition dinode_bytes (di : sfs_dinode) : list Z := encode_words (dinode_words di).
Definition dinode_of_bytes (b : list Z) : sfs_dinode :=
  let ws := decode_words b in
  let w i := default 0 (ws !! i) in
  mkDinode (w 0%nat) (w 1%nat / 65536) (w 1%nat mod 65536) (take 15 (drop 2 ws)) (w 17%nat) (drop 18 ws).

Definition sfs_sync_inode (fs : sfs_fs) (sv : sfs_vnode) : outcome (Z * sfs_fs * sfs_vnode) :=
  if sv_dirty sv then
    '(result, fs) ← sfs_writeblock fs (sv_ino sv) (dinode_bytes (sv_i sv));
    if negb (result =? 0) then mret (result, fs, sv)
    else mret (0, fs, mkSv (sv_i sv) (sv_ino sv) false)
  else mret (0, fs, sv).

Fixpoint remove_first (id : Z) (l : list Z) : option (list Z) :=
  match l with
  | [] => None
  | x :: l => if x =? id then Some l else (fun r => x :: r) <$> remove_first id l
  end.

Definition sfs_reclaim (m : mount) (id : Z) : outcome (Z * mount) :=
  o ← get_obj m id;
  if negb (vn_refcount o =? 1) then
    KASSERT (vn_refcount o >? 1);;
    mret (EBUSY, put_obj m id (mkVobj (vo_sv o) (vo_ops o) (vn_refcount o - 1)))
  else
    '(result, m) ←
      (if sfi_linkcount (sv_i (vo_sv o)) =? 0 then on_sv m id (fun fs sv => sfs_itrunc fs sv 0)
       else mret (0, m));
    if negb (result =? 0) then mret (result, m) else
    '(result, m) ← on_sv m id sfs_sync_inode;
    if negb (result =? 0) then mret (result, m) else
    o ← get_obj m id;
    m ← (if sfi_linkcount (sv_i (vo_sv o)) =? 0 then
           fs ← sfs_bfree (m_fs m) (sv_ino (vo_sv o)); mret (set_fs m fs)
         else mret m);
    match remove_first id (sfs_vnodes m) with
    | None => Panic
    | Some l =>
        let m := mkMount (m_fs m) (m_objs m) l (m_next m) (m_mem m) in
        m ← vnode_cleanup m id;
        mret (0, m)
    end.

(** [VOP_DECREF]; a failing reclaim is reported on the console only. *)
Definition vnode_decref (m : mount) (id : Z) : outcome mount :=
  o ← get_obj m id;
  KASSERT (vn_refcount o >? 0);;
  if vn_refcount o >? 1 then
    mret (put_obj m id (mkVobj (vo_sv o) (vo_ops o) (vn_refcount o - 1)))
  else
    '(_, m) ← sfs_reclaim m id;
    mret m.

(** The search of the vnode table. *)
Fixpoint find_vnode (m : mount) (l : list Z) (ino : Z) : outcome (option Z) :=
  match l with
  | [] => mret None
  | id :: l =>
      o ← get_obj m id;
      r ← sfs_bused (m_fs m) (sv_ino (vo_sv o));
      if r =? 0 then Panic else
      if sv_ino (vo_sv o) =? ino then mret (Some id) else find_vnode m l ino
  end.

Definition sfs_loadvnode (m : mount) (ino forcetype : Z) : outcome (res Z * mount) :=
  found ← find_vnode m (sfs_vnodes m) ino;
  match found with
  | Some id =>
      KASSERT (forcetype =? SFS_TYPE_INVAL);;
      m ← vnode_incref m id;
      mret (Ok id, m)
  | None =>
      let '(ok, m) := kmalloc m in
      if negb ok then mret (Err ENOMEM, m) else
      r ← sfs_bused (m_fs m) ino;
      if r =? 0 then Panic else
      '(result, fs, b) ← sfs_readblock (m_fs m) ino (zeros (Z.to_nat SFS_BLOCKSIZE));
      let m := set_fs m fs in
      if negb (result =? 0) then mret (Err result, m) else
      let di := dinode_of_bytes b in
      sv ← (if negb (forcetype =? SFS_TYPE_INVAL) then
              KASSERT (sfi_type di =? SFS_TYPE_INVAL);;
              mret (mkSv (mkDinode (sfi_size di) forcetype (sfi_linkcount di) (sfi_direct di)
                            (sfi_indirect di) (sfi_waste di)) ino true)
            else mret (mkSv di ino false));
      ops ← (if sfi_type (sv_i sv) =? SFS_TYPE_FILE then mret sfs_fileops
             else if sfi_type (sv_i sv) =? SFS_TYPE_DIR then mret sfs_dirops
             else Panic);
      let '(id, m) := vnode_init m ops sv in
      (* vnodearray_add *)
      let '(ok, m) := kmalloc m in
      if negb ok then m ← vnode_cleanup m id; mret (Err ENOMEM, m)
      else mret (Ok id, mkMount (m_fs m) (m_objs m) (sfs_vnodes m ++ [id]) (m_next m) (m_mem m))
  end.

Definition sfs_makeobj (m : mount) (type : Z) : outcome (res Z * mount) :=
  '(r, fs) ← sfs_balloc (m_fs m);
  let m := set_fs m fs in
  match r with
  | Err result => mret (Err result, m)
  | Ok ino =>
      '(r, m) ← sfs_loadvnode m ino type;
      match r with
      | Err result => fs ← sfs_bfree (m_fs m) ino; mret (Err result, set_fs m fs)
      | Ok id => mret (Ok id, m)
      end
  end.

Definition sfs_getroot (m : mount) : outcome (res Z * mount) :=
  '(r, m) ← sfs_loadvnode m SFS_ROOTDIR_INO SFS_TYPE_INVAL;
  match r with
  | Err result => mret (Err result, m)
  | Ok id =>
      o ← get_obj m id;
      if negb (sfi_type (sv_i (vo_sv o)) =? SFS_TYPE_DIR) then mret (Err EINVAL, m)
      else mret (Ok id, m)
  end.

(** ** sfs_dir.c, the lookup of a vnode by name: the vnode and its slot *)
Definition sfs_lookonce (m : mount) (dir : Z) (name : list Z) : outcome (res (Z * Z) * mount) :=
  '((result, st), m) ← on_sv m dir (fun fs sv =>
     '(result, fs, sv, st) ← sfs_dir_findname fs sv name 0 0 0; mret ((result, st), fs, sv));
  if negb (result =? 0) then mret (Err result, m) else
  '(r, m) ← sfs_loadvnode m (f_ino st) SFS_TYPE_INVAL;
  match r with
  | Err result => mret (Err result, m)
  | Ok id =>
      o ← get_obj m id;
      if sfi_linkcount (sv_i (vo_sv o)) =? 0 then Panic else mret (Ok (id, f_slot st), m)
  end.

(** ** sfs_vnops.c *)

(** [sfi_linkcount++] and [sfi_linkcount--] on 16 bits. *)
Definition set_links (sv : sfs_vnode) (n : Z) (dirty : bool) : sfs_vnode :=
  let di := sv_i sv in
  mkSv (mkDinode (sfi_size di) (sfi_type di) (u16 n) (sfi_direct di) (sfi_indirect di) (sfi_waste di))
    (sv_ino sv) dirty.
Definition add_links (m : mount) (id n : Z) (dirty : bool -> bool) : outcome mount :=
  o ← get_obj m id;
  let sv := vo_sv o in
  mret (put_sv m id o (set_links sv (sfi_linkcount (sv_i sv) + n) (dirty (sv_dirty sv)))).
Definition mark_dirty (b : bool) : bool := true.

Definition sfs_eachopen (openflags : Z) : Z := 0.

Definition sfs_eachopendir (openflags : Z) : Z :=
  if Z.land openflags O_ACCMODE =? O_RDONLY then
    if negb (Z.land openflags O_APPEND =? 0) then EISDIR else 0
  else EISDIR.

Definition sfs_read (m : mount) (v : Z) (u : uio) : outcome (Z * uio * mount) :=
  KASSERT (is_read u);;
  '((result, u), m) ← on_sv m v (fun fs sv => '(result, fs, sv, u) ← sfs_io fs sv u; mret ((result, u), fs, sv));
  mret (result, u, m).

Definition sfs_write (m : mount) (v : Z) (u : uio) : outcome (Z * uio * mount) :=
  KASSERT (is_write u);;
  '((result, u), m) ← on_sv m v (fun fs sv => '(result, fs, sv, u) ← sfs_io fs sv u; mret ((result, u), fs, sv));
  mret (result, u, m).

Definition sfs_ioctl (op : Z) : Z := EINVAL.

Definition sfs_gettype (m : mount) (v : Z) : outcome Z :=
  o ← get_obj m v;
  let type := sfi_type (sv_i (vo_sv o)) in
  if type =? SFS_TYPE_FILE then mret S_IFREG else
  if type =? SFS_TYPE_DIR then mret S_IFDIR else Panic.

(** [st_mode], [st_size], [st_nlink] and [st_blocks]; the rest is zero. *)
Definition sfs_stat (m : mount) (v : Z) : outcome (Z * Z * Z * Z) :=
  o ← get_obj m v;
  mode ← sfs_gettype m v;
  mret (mode, sfi_size (sv_i (vo_sv o)), sfi_linkcount (sv_i (vo_sv o)), 0).

Definition sfs_isseekable (v : Z) : bool := true.

Definition sfs_fsync (m : mount) (v : Z) : outcome (Z * mount) := on_sv m v sfs_sync_inode.

Definition sfs_mmap (v : Z) : Z := ENOSYS.

Definition sfs_truncate (m : mount) (v len : Z) : outcome (Z * mount) :=
  on_sv m v (fun fs sv => sfs_itrunc fs sv len).

(** The name sent back is empty. *)
Definition sfs_namefile (m : mount) (v : Z) (u : uio) : outcome (Z * uio) :=
  o ← get_obj m v;
  KASSERT (sv_ino (vo_sv o) =? SFS_ROOTDIR_INO);;
  mret (0, u).

Definition dir_link (m : mount) (dir : Z) (name : list Z) (ino : Z) : outcome (Z * option Z * mount) :=
  '((result, slot), m) ← on_sv m dir (fun fs sv =>
     '(result, fs, sv, slot) ← sfs_dir_link fs sv name ino; mret ((result, slot), fs, sv));
  mret (result, slot, m).

Definition sfs_creat (m : mount) (v : Z) (name : list Z) (excl : bool) : outcome (res Z * mount) :=
  '((result, st), m) ← on_sv m v (fun fs sv =>
     '(result, fs, sv, st) ← sfs_dir_findname fs sv name 0 0 0; mret ((result, st), fs, sv));
  if negb (result =? 0) && negb (result =? ENOENT) then mret (Err result, m) else
  if (result =? 0) && excl then mret (Err EEXIST, m) else
  if result =? 0 then sfs_loadvnode m (f_ino st) SFS_TYPE_INVAL else
  '(r, m) ← sfs_makeobj m SFS_TYPE_FILE;
  match r with
  | Err result => mret (Err result, m)
  | Ok newguy =>
      o ← get_obj m newguy;
      '(result, _, m) ← dir_link m v name (sv_ino (vo_sv o));
      if negb (result =? 0) then
        m ← vnode_decref m newguy;
        mret (Err result, m)
      else
        m ← add_links m newguy 1 mark_dirty;
        mret (Ok newguy, m)
  end.

Definition sfs_link (m : mount) (dir : Z) (name : list Z) (file : Z) : outcome (Z * mount) :=
  f ← get_obj m file;
  if sfi_type (sv_i (vo_sv f)) =? SFS_TYPE_DIR then mret (EINVAL, m) else
  '(result, _, m) ← dir_link m dir name (sv_ino (vo_sv f));
  if negb (result =? 0) then mret (result, m) else
  m ← add_links m file 1 mark_dirty;
  mret (0, m).

Definition sfs_remove (m : mount) (dir : Z) (name : list Z) : outcome (Z * mount) :=
  '(r, m) ← sfs_lookonce m dir name;
  match r with
  | Err result => mret (result, m)
  | Ok (victim, slot) =>
      '(result, m) ← on_sv m dir (fun fs sv => sfs_dir_unlink fs sv slot);
      m ← (if result =? 0 then
             o ← get_obj m victim;
             KASSERT (sfi_linkcount (sv_i (vo_sv o)) >? 0);;
             add_links m victim (-1) mark_dirty
           else mret m);
      m ← vnode_decref m victim;
      mret (result, m)
  end.

Definition sfs_rename (m : mount) (d1 : Z) (n1 : list Z) (d2 : Z) (n2 : list Z) : outcome (Z * mount) :=
  KASSERT (d1 =? d2);;
  d ← get_obj m d1;
  KASSERT (sv_ino (vo_sv d) =? SFS_ROOTDIR_INO);;
  '(r, m) ← sfs_lookonce m d1 n1;
  match r with
  | Err result => mret (result, m)
  | Ok (g1, slot1) =>
      o ← get_obj m g1;
      KASSERT (sfi_type (sv_i (vo_sv o)) =? SFS_TYPE_FILE);;
      '(result, slot2, m) ← dir_link m d1 n2 (sv_ino (vo_sv o));
      if negb (result =? 0) then
        m ← vnode_decref m g1;
        mret (result, m)
      else
      m ← add_links m g1 1 mark_dirty;
      '(result, m) ← on_sv m d1 (fun fs sv => sfs_dir_unlink fs sv slot1);
      if negb (result =? 0) then
        slot2 ← deref slot2;
        '(result2, m) ← on_sv m d1 (fun fs sv => sfs_dir_unlink fs sv slot2);
        if negb (result2 =? 0) then Panic else
        m ← add_links m g1 (-1) id;
        m ← vnode_decref m g1;
        mret (result, m)
      else
        o ← get_obj m g1;
        KASSERT (sfi_linkcount (sv_i (vo_sv o)) >? 0);;
        m ← add_links m g1 (-1) mark_dirty;
        m ← vnode_decref m g1;
        mret (0, m)
  end.

(** [path] is copied to the caller's buffer [buf]. *)
Definition sfs_lookparent (m : mount) (v : Z) (path buf : list Z) : outcome (res (Z * list Z) * mount) :=
  o ← get_obj m v;
  if negb (sfi_type (sv_i (vo_sv o)) =? SFS_TYPE_DIR) then mret (Err ENOTDIR, m) else
  len ← strlen path;
  if len + 1 >? Z.of_nat (length buf) then mret (Err ENAMETOOLONG, m) else
  buf ← strcpy buf path;
  m ← vnode_incref m v;
  mret (Ok (v, buf), m).

Definition sfs_lookup (m : mount) (v : Z) (path : list Z) : outcome (res Z * mount) :=
  o ← get_obj m v;
  if negb (sfi_type (sv_i (vo_sv o)) =? SFS_TYPE_DIR) then mret (Err ENOTDIR, m) else
  '(r, m) ← sfs_lookonce m v path;
  match r with
  | Err result => mret (Err result, m)
  | Ok (final, _) => mret (Ok final, m)
  end.

(** ** Dispatch through the operation tables (a selection: the operations above) *)

Section Dispatch.
Context (m : mount) (v : Z).

Definition vop_eachopen (flags : Z) : outcome Z :=
  o ← get_obj m v;
  mret (match vo_ops o with sfs_fileops => sfs_eachopen flags | sfs_dirops => sfs_eachopendir flags end).

Definition vop_read (u : uio) : outcome (Z * uio * mount) :=
  o ← get_obj m v;
  match vo_ops o with sfs_fileops => sfs_read m v u | sfs_dirops => mret (EISDIR, u, m) end.

Definition vop_write (u : uio) : outcome (Z * uio * mount) :=
  o ← get_obj m v;
  match vo_ops o with sfs_fileops => sfs_write m v u | sfs_dirops => mret (EISDIR, u, m) end.

Definition vop_mmap : outcome Z :=
  o ← get_obj m v;
  mret (match vo_ops o with sfs_fileops => sfs_mmap v | sfs_dirops => EISDIR end).

Definition vop_truncate (len : Z) : outcome (Z * mount) :=
  o ← get_obj m v;
  match vo_ops o with sfs_fileops => sfs_truncate m v len | sfs_dirops => mret (EISDIR, m) end.

Definition vop_namefile (u : uio) : outcome (Z * uio) :=
  o ← get_obj m v;
  match vo_ops o with sfs_fileops => mret (ENOTDIR, u) | sfs_dirops => sfs_namefile m v u end.

Definition vop_creat (name : list Z) (excl : bool) : outcome (res Z * mount) :=
  o ← get_obj m v;
  match vo_ops o with sfs_fileops => mret (Err ENOTDIR, m) | sfs_dirops => sfs_creat m v name excl end.

Definition vop_link (name : list Z) (file : Z) : outcome (Z * mount) :=
  o ← get_obj m v;
  match vo_ops o with sfs_fileops => mret (ENOTDIR, m) | sfs_dirops => sfs_link m v name file end.

Definition vop_remove (name : list Z) : outcome (Z * mount) :=
  o ← get_obj m v;
  match vo_ops o with sfs_fileops => mret (ENOTDIR, m) | sfs_dirops => sfs_remove m v name end.

Definition vop_rename (n1 : list Z) (d2 : Z) (n2 : list Z) : outcome (Z * mount) :=
  o ← get_obj m v;
  match vo_ops o with sfs_fileops => mret (ENOTDIR, m) | sfs_dirops => sfs_rename m v n1 d2 n2 end.

Definition vop_lookup (path : list Z) : outcome (res Z * mount) :=
  o ← get_obj m v;
  match vo_ops o with sfs_fileops => mret (Err ENOTDIR, m) | sfs_dirops => sfs_lookup m v path end.

Definition vop_lookparent (path buf : list Z) : outcome (res (Z * list Z) * mount) :=
  o ← get_obj m v;
  match vo_ops o with sfs_fileops => mret (Err ENOTDIR, m) | sfs_dirops => sfs_lookparent m v path buf end.
End Dispatch.

(** ** Inodes on the disk *)

Record dinode_wf (di : sfs_dinode) : Prop := {
  di_size : 0 <= sfi_size di < 2 ^ 32;
  di_type : 0 <= sfi_type di < 65536;
  di_links : 0 <= sfi_linkcount di < 65536;
  di_direct : length (sfi_direct di) = 15%nat /\ Forall (fun x => 0 <= x < 2 ^ 32) (sfi_direct di);
  di_indirect : 0 <= sfi_indirect di < 2 ^ 32;
  di_waste : length (sfi_waste di) = 110%nat /\ Forall (fun x => 0 <= x < 2 ^ 32) (sfi_waste di) }.

Lemma dinode_words_range di : dinode_wf di -> Forall (fun x => 0 <= x < 2 ^ 32) (dinode_words di).
Proof.
  intros [H1 H2 H3 [_ H4] H5 [_ H6]]. unfold dinode_words.
  apply Forall_cons; split; [done|]. apply Forall_cons; split; [lia|].
  apply Forall_app; split; [done|]. apply Forall_cons. by split.
Qed.

Lemma dinode_block di : dinode_wf di -> is_block (dinode_bytes di).
Proof.
  intros [_ _ _ [H4 _] _ [H6 _]]. split; [|apply bytes_encode_words].
  unfold dinode_bytes. rewrite length_encode_words. unfold dinode_words. cbn [length].
  rewrite length_app. cbn [length]. lia.
Qed.

Lemma dinode_roundtrip di : dinode_wf di -> dinode_of_bytes (dinode_bytes di) = di.
Proof.
  intros H. unfold dinode_of_bytes, dinode_bytes. rewrite decode_encode_words by by apply dinode_words_range.
  destruct H as [H1 H2 H3 [H4 _] H5 [H6 _]]. destruct di as [sz ty lk dir ind wst].
  cbn [sfi_size sfi_type sfi_linkcount sfi_direct sfi_indirect sfi_waste] in *.
  unfold dinode_words; cbn [sfi_size sfi_type sfi_linkcount sfi_direct sfi_indirect sfi_waste].
  assert (Hd : drop 2 (sz :: ty * 65536 + lk :: dir ++ ind :: wst) = dir ++ ind :: wst) by done.
  assert (Hi : (sz :: ty * 65536 + lk :: dir ++ ind :: wst) !! 17%nat = Some ind).
  { change ((dir ++ ind :: wst) !! 15%nat = Some ind). rewrite lookup_app_r by lia. by rewrite H4. }
  assert (Hw : drop 18 (sz :: ty * 65536 + lk :: dir ++ ind :: wst) = wst).
  { change (drop 16 (dir ++ ind :: wst) = wst). rewrite drop_app_ge, H4 by lia. done. }
  cbv zeta. rewrite Hd, Hi, Hw, take_app_length' by done. cbn [lookup list_lookup default from_option id]. f_equal; lia.
Qed.

Lemma sync_inode_ok fs sv :
  fs_wf fs -> dinode_wf (sv_i sv) -> 0 <= sv_ino sv < nblocks fs ->
  exists fs', sfs_sync_inode fs sv = Done (0, fs', mkSv (sv_i sv) (sv_ino sv) false) /\ fs_wf fs' /\
    sfs_sb fs' = sfs_sb fs /\ sfs_freemap fs' = sfs_freemap fs /\
    (sv_dirty sv = true -> fsector fs' (sv_ino sv) = dinode_bytes (sv_i sv)) /\
    (forall b, sv_dirty sv = false \/ b <> sv_ino sv -> fsector fs' b = fsector fs b).
Proof.
  intros H D Hi. unfold sfs_sync_inode. pose proof (dinode_block _ D) as Hb.
  destruct sv as [di ino dirty]; cbn in *. destruct dirty.
  - rewrite sfs_writeblock_ok by (done || apply Hb). kred. eexists. split; [done|].
    split; [by apply fs_write_wf|]. split; [done|]. split; [done|]. split; [intros _; apply fsector_write_eq|].
    intros b [?|?]; [done|]. by apply fsector_write_ne.
  - exists fs. by split_and!.
Qed.

(** ** The vnode table *)

(** Every vnode of the table is an object whose inode lies in a used block. *)
Definition table_ok (m : mount) (l : list Z) : Prop :=
  forall id, id ∈ l -> exists o, m_objs m !! id = Some o /\
    0 <= sv_ino (vo_sv o) < nblocks (m_fs m) /\ used (m_fs m) (sv_ino (vo_sv o)) = true.

(** No vnode of [l] has inode [ino]. *)
Definition not_loaded (m : mount) (l : list Z) (ino : Z) : Prop :=
  forall id o, id ∈ l -> m_objs m !! id = Some o -> sv_ino (vo_sv o) <> ino.

Lemma bused_ok fs b :
  fs_wf fs -> 0 <= b < nblocks fs -> used fs b = true -> exists r, sfs_bused fs b = Done r /\ (r =? 0) = false.
Proof.
  intros H Hb Hu. unfold sfs_bused. rewrite Z.geb_leb, (proj2 (Z.leb_gt _ _)) by (unfold nblocks in *; lia).
  destruct (bitmap_isset_ok (sfs_freemap fs) b) as (r & -> & Hr); [apply H|pose proof (fw_nbits _ H); lia|].
  exists r. split; [done|]. unfold used in Hu. rewrite Hu in Hr. by destruct (r =? 0).
Qed.

Lemma find_vnode_none m l ino :
  fs_wf (m_fs m) -> table_ok m l -> not_loaded m l ino -> find_vnode m l ino = Done None.
Proof.
  intros H. induction l as [|id l IH]; intros Ht Hn; cbn [find_vnode]; [done|].
  destruct (Ht id) as (o & Ho & Hr & Hu); [by left|]. unfold get_obj. rewrite Ho. kred.
  destruct (bused_ok (m_fs m) _ H Hr Hu) as (r & -> & Hr0). kred. rewrite Hr0.
  rewrite (proj2 (Z.eqb_neq _ _)) by (apply (Hn id); [by left|done]).
  apply IH; intros x; [intros Hx; apply Ht; by right|intros o' Hx; apply Hn; by right].
Qed.

Lemma find_vnode_some m l ino id o :
  fs_wf (m_fs m) -> table_ok m l -> id ∈ l -> m_objs m !! id = Some o -> sv_ino (vo_sv o) = ino ->
  (forall id' o', id' ∈ l -> m_objs m !! id' = Some o' -> sv_ino (vo_sv o') = ino -> id' = id) ->
  find_vnode m l ino = Done (Some id).
Proof.
  intros H. induction l as [|x l IH]; intros Ht Hin Ho Hi Huniq; [by apply not_elem_of_nil in Hin|]. cbn [find_vnode].
  destruct (Ht x) as (ox & Hox & Hr & Hu); [by left|]. unfold get_obj. rewrite Hox. kred.
  destruct (bused_ok (m_fs m) _ H Hr Hu) as (r & -> & Hr0). kred. rewrite Hr0.
  destruct (Z.eqb_spec (sv_ino (vo_sv ox)) ino) as [He|Hne].
  - by rewrite (Huniq x ox) by (done || by left).
  - apply IH; try done.
    + intros y Hy. apply Ht. by right.
    + apply elem_of_cons in Hin as [->|?]; [congruence|done].
    + intros y oy Hy. apply Huniq. by right.
Qed.

Lemma remove_first_ok id l : id ∈ l -> exists l', remove_first id l = Some l' /\ forall x, x ∈ l' -> x ∈ l.
Proof.
  induction l as [|x l IH]; [by intros ?%not_elem_of_nil|]. intros Hin. cbn [remove_first].
  destruct (Z.eqb_spec x id) as [->|Hne].
  - exists l. split; [done|]. intros y Hy. by right.
  - apply elem_of_cons in Hin as [->|Hin]; [done|]. destruct (IH Hin) as (l' & -> & Hl').
    exists (x :: l'). split; [done|]. intros y [->|Hy]%elem_of_cons; [by left|right; auto].
Qed.

Lemma remove_first_NoDup id l l' : NoDup l -> remove_first id l = Some l' -> id ∉ l'.
Proof.
  revert l'. induction l as [|x l IH]; intros l' Hnd; cbn [remove_first]; [done|].
  apply NoDup_cons in Hnd as [Hx Hnd]. destruct (Z.eqb_spec x id) as [->|Hne].
  - by intros [= <-].
  - destruct (remove_first id l) as [r|] eqn:Hr; [|done]. intros [= <-].
    intros [->|Hin]%elem_of_cons; [done|]. by apply (IH r).
Qed.

(** ** The theorems *)

(** C30. An inode survives leaving memory.  When the last reference to a file
    with links is dropped, [vnode_decref] writes the inode back if it is dirty,
    takes the vnode out of the table and frees it; the blocks of everything else
    and the freemap stay.  A later [sfs_loadvnode] then makes a new vnode with the
    same inode, clean, with one reference. *)
Theorem inode_persists m id o :
  fs_wf (m_fs m) -> table_ok m (sfs_vnodes m) -> NoDup (sfs_vnodes m) -> m_mem m = [] ->
  id ∈ sfs_vnodes m -> m_objs m !! id = Some o -> vn_refcount o = 1 ->
  dinode_wf (sv_i (vo_sv o)) -> sfi_linkcount (sv_i (vo_sv o)) <> 0 ->
  sfi_type (sv_i (vo_sv o)) = SFS_TYPE_FILE \/ sfi_type (sv_i (vo_sv o)) = SFS_TYPE_DIR ->
  (sv_dirty (vo_sv o) = false -> fsector (m_fs m) (sv_ino (vo_sv o)) = dinode_bytes (sv_i (vo_sv o))) ->
  (forall id' o', id' ∈ sfs_vnodes m -> m_objs m !! id' = Some o' -> sv_ino (vo_sv o') = sv_ino (vo_sv o) -> id' = id) ->
  exists m', vnode_decref m id = Done m' /\ m_objs m' !! id = None /\ (id ∉ sfs_vnodes m') /\
    (forall b, b <> sv_ino (vo_sv o) -> fsector (m_fs m') b = fsector (m_fs m) b) /\
    sfs_freemap (m_fs m') = sfs_freemap (m_fs m) /\
    exists id2 m2, sfs_loadvnode m' (sv_ino (vo_sv o)) SFS_TYPE_INVAL = Done (Ok id2, m2) /\
      exists ops, m_objs m2 !! id2 = Some (mkVobj (mkSv (sv_i (vo_sv o)) (sv_ino (vo_sv o)) false) ops 1).
Proof.
  intros H Ht Hnd Hmem Hin Ho Href D Hlinks Hty Hclean Huniq.
  destruct (Ht id Hin) as (o' & Ho' & Hr & Hu). rewrite Ho in Ho'. injection Ho' as <-.
  unfold vnode_decref, sfs_reclaim, on_sv, get_obj. rewrite Ho. kred. rewrite Href.
  change (1 >? 0) with true. change (1 >? 1) with false. change (1 =? 1) with true. kred.
  rewrite (proj2 (Z.eqb_neq _ 0)) by done. kred. rewrite Ho. kred.
  destruct (sync_inode_ok (m_fs m) (vo_sv o) H D Hr) as (fs1 & -> & H1 & Hsb & Hfm & Hsec & Hother). kred.
  cbn [put_sv put_obj set_fs m_objs sfs_vnodes m_fs m_next m_mem]. rewrite lookup_insert_eq. kred.
  cbn [vo_sv sv_i sv_ino]. rewrite (proj2 (Z.eqb_neq _ 0)) by done. kred.
  destruct (remove_first_ok id _ Hin) as (l' & Hl' & Hsub). cbn [put_sv put_obj set_fs m_objs sfs_vnodes m_fs m_next m_mem]. 
 rewrite Hl'.
  unfold vnode_cleanup, get_obj. cbn [m_objs]. rewrite lookup_insert_eq. kred. cbn [vn_refcount]. rewrite Href. kred.
  eexists. split; [done|]. cbn [m_objs sfs_vnodes m_fs m_next m_mem].
  split; [apply lookup_delete_eq|]. split; [by apply remove_first_NoDup with (sfs_vnodes m)|].
  split; [intros b Hb; apply Hother; by right|]. split; [done|].
  set (m' := mkMount _ _ _ _ _).
  assert (Hnb : nblocks fs1 = nblocks (m_fs m)) by (unfold nblocks; by rewrite Hsb).
  assert (Hobj : forall x, x ∈ l' -> m_objs m' !! x = m_objs m !! x).
  { intros x Hx. cbn. assert (x <> id) by (intros ->; by apply (remove_first_NoDup id _ _ Hnd Hl')).
    by rewrite lookup_delete_ne, lookup_insert_ne. }
  assert (Hused : forall b, used fs1 b = used (m_fs m) b) by (intros b; unfold used; by rewrite Hfm).
  assert (Hb : fsector fs1 (sv_ino (vo_sv o)) = dinode_bytes (sv_i (vo_sv o))).
  { destruct (sv_dirty (vo_sv o)) eqn:Hdirty; [by apply Hsec|]. rewrite Hother by by left. by apply Hclean. }
  unfold sfs_loadvnode. change (sfs_vnodes m') with l'.
  rewrite find_vnode_none; [kred|exact H1| |].
  2: { intros x Hx. destruct (Ht x) as (ox & Hox & ? & ?); [by apply Hsub|]. exists ox. rewrite Hobj by done.
       change (m_fs m') with fs1. by rewrite Hused, Hnb. }
  2: { intros x ox Hx Hox Hi. rewrite Hobj in Hox by done.
       pose proof (Huniq x ox (Hsub x Hx) Hox Hi) as ->. by apply (remove_first_NoDup id _ _ Hnd Hl'). }
  unfold kmalloc. cbn [m' m_mem tail m_fs m_objs m_next sfs_vnodes]. rewrite Hmem. kred.
  destruct (bused_ok fs1 (sv_ino (vo_sv o)) H1) as (r & -> & Hr0); [lia|by rewrite Hused|]. kred. rewrite Hr0.
  change (Z.to_nat SFS_BLOCKSIZE) with 512%nat.
  rewrite sfs_readblock_ok by (done || lia || apply length_zeros). kred.
  rewrite Hb, dinode_roundtrip by done. change (SFS_TYPE_INVAL =? SFS_TYPE_INVAL) with true. kred.
  cbn [sv_i]. unfold vnode_init. cbn [set_fs m_objs m_next m_mem sfs_vnodes m_fs tail].
  destruct Hty as [Hty|Hty]; rewrite Hty; cbn -[dinode_bytes]; (eexists _, _; split; [done|]);
    eexists; cbn; by rewrite lookup_insert_eq.
Qed.

Definition example_obj : vobj := mkVobj (mkSv (sv_i example_sv) 3 true) sfs_fileops 1.
Definition example_mount : mount := mkMount example_fs {[ 0 := example_obj ]} [0] 1 [].

Lemma example_dinode_wf : dinode_wf (sv_i example_sv).
Proof.
  split; cbn [example_sv sv_i sfi_size sfi_type sfi_linkcount sfi_direct sfi_indirect sfi_waste].
  - lia.
  - unfold SFS_TYPE_FILE; lia.
  - lia.
  - split; [reflexivity|]. repeat constructor; lia.
  - lia.
  - split; [reflexivity|]. apply Forall_replicate. lia.
Defined.

Lemma inode_persists_witness :
  exists m', vnode_decref example_mount 0 = Done m' /\ m_objs m' !! 0 = None /\
    exists id2 m2, sfs_loadvnode m' 3 SFS_TYPE_INVAL = Done (Ok id2, m2) /\
      exists ops, m_objs m2 !! id2 = Some (mkVobj (mkSv (sv_i example_sv) 3 false) ops 1).
Proof.
  assert (Hid : forall x, x ∈ [0] -> x = 0) by (intros x Hx; apply list_elem_of_singleton in Hx; exact Hx).
  destruct (inode_persists example_mount 0 example_obj) as (m' & H1 & H2 & _ & _ & _ & id2 & m2 & H3 & H4).
  - exact example_fs_wf.
  - intros x Hx. apply Hid in Hx as ->. exists example_obj. split; [reflexivity|].
    split; [vm_compute; split; congruence|reflexivity].
  - apply NoDup_singleton.
  - reflexivity.
  - apply list_elem_of_here.
  - reflexivity.
  - reflexivity.
  - exact example_dinode_wf.
  - discriminate.
  - left. reflexivity.
  - discriminate.
  - intros x ox Hx _ _. exact (Hid x Hx).
  - exists m'. exact (conj H1 (conj H2 (ex_intro _ id2 (ex_intro _ m2 (conj H3 H4))))).
Defined.
