(* ===== verification/SfsFs.v ===== *)
(** * sfs_fsops.c: mounting, syncing and unmounting a volume *)

From S2P Require Import Prelude Cstring CopyInOut Uio Vop Bitmap Lhd Sfs SfsIo SfsDir SfsVnode.

(** The macros of kern/sfs.h, on [uint32_t]. *)
Definition SFS_FREEMAPBITS (nblocks : Z) : Z :=
  u32 (u32 (u32 (nblocks + SFS_BITSPERBLOCK) - 1) / SFS_BITSPERBLOCK * SFS_BITSPERBLOCK).
Definition SFS_FREEMAPBLOCKS (nblocks : Z) : Z := SFS_FREEMAPBITS nblocks / SFS_BITSPERBLOCK.

(** [struct sfs_superblock] as the bytes of its block. *)
Definition super_bytes (sb : sfs_superblock) : list Z :=
  encode_words [sb_magic sb; sb_nblocks sb] ++ sb_volname sb ++ encode_words (sb_reserved sb).
Definition super_of_bytes (b : list Z) : sfs_superblock :=
  let ws := decode_words b in
  mkSuper (default 0 (ws !! 0%nat)) (default 0 (ws !! 1%nat)) (take 32 (drop 8 b)) (decode_words (drop 40 b)).

(** The loop of [sfs_freemapio] over blocks [j] to [j + k - 1]. *)
Fixpoint freemapio_loop (k : nat) (j : Z) (fs : sfs_fs) (rw : uio_rw) : outcome (Z * sfs_fs) :=
  match k with
  | O => mret (0, fs)
  | S k =>
      let data := bitmap_getdata (sfs_freemap fs) in
      let p := Z.to_nat (j * SFS_BLOCKSIZE) in
      let ptr := take (Z.to_nat SFS_BLOCKSIZE) (drop p data) in
      '(result, fs) ←
        match rw with
        | UIO_READ =>
            '(result, fs, ptr) ← sfs_readblock fs (SFS_FREEMAP_START + j) ptr;
            mret (result, set_freemap fs (mkBitmap (nbits (sfs_freemap fs)) (splice p ptr data)) (sfs_freemapdirty fs))
        | UIO_WRITE => sfs_writeblock fs (SFS_FREEMAP_START + j) ptr
        end;
      if negb (result =? 0) then mret (result, fs)
      else freemapio_loop k (j + 1) fs rw
  end.

Definition sfs_freemapio (fs : sfs_fs) (rw : uio_rw) : outcome (Z * sfs_fs) :=
  freemapio_loop (Z.to_nat (SFS_FREEMAPBLOCKS (sb_nblocks (sfs_sb fs)))) 0 fs rw.

(** Results of [VOP_FSYNC] are ignored. *)
Fixpoint sync_vnodes_loop (l : list Z) (m : mount) : outcome mount :=
  match l with
  | [] => mret m
  | v :: l => '(_, m) ← sfs_fsync m v; sync_vnodes_loop l m
  end.
Definition sfs_sync_vnodes (m : mount) : outcome (Z * mount) :=
  m ← sync_vnodes_loop (sfs_vnodes m) m; mret (0, m).

Definition sfs_sync_freemap (fs : sfs_fs) : outcome (Z * sfs_fs) :=
  if sfs_freemapdirty fs then
    '(result, fs) ← sfs_freemapio fs UIO_WRITE;
    if negb (result =? 0) then mret (result, fs)
    else mret (0, set_freemap fs (sfs_freemap fs) false)
  else mret (0, fs).

Definition sfs_sync_superblock (fs : sfs_fs) : outcome (Z * sfs_fs) :=
  if sfs_superdirty fs then
    '(result, fs) ← sfs_writeblock fs SFS_SUPER_BLOCK (super_bytes (sfs_sb fs));
    if negb (result =? 0) then mret (result, fs)
    else mret (0, mkFs (sfs_sb fs) false (sfs_device fs) (sfs_freemap fs) (sfs_freemapdirty fs))
  else mret (0, fs).

Definition sfs_sync (m : mount) : outcome (Z * mount) :=
  '(result, m) ← sfs_sync_vnodes m;
  if negb (result =? 0) then mret (result, m) else
  '(result, fs) ← sfs_sync_freemap (m_fs m);
  let m := set_fs m fs in
  if negb (result =? 0) then mret (result, m) else
  '(result, fs) ← sfs_sync_superblock (m_fs m);
  let m := set_fs m fs in
  if negb (result =? 0) then mret (result, m) else
  mret (0, m).

(** The device when the volume is unmounted. *)
Definition sfs_unmount (m : mount) : outcome (res lhd) :=
  if Z.of_nat (length (sfs_vnodes m)) >? 0 then mret (Err EBUSY) else
  KASSERT (negb (sfs_superdirty (m_fs m)));;
  KASSERT (negb (sfs_freemapdirty (m_fs m)));;
  mret (Ok (sfs_device (m_fs m))).

(** [mem] lists how the requests for memory end: the [sfs_fs], its vnode array, the
    bitmap and its words.  On an error the device is given back. *)
Definition sfs_domount (mem : list bool) (d_blocksize : Z) (dev : lhd) : outcome (res mount * lhd) :=
  let granted i := default true (mem !! i) in
  if negb (d_blocksize =? SFS_BLOCKSIZE) then mret (Err ENXIO, dev) else
  if negb (granted 0%nat) then mret (Err ENOMEM, dev) else
  if negb (granted 1%nat) then mret (Err ENOMEM, dev) else
  '(result, dev, b) ← sfs_readblock_dev dev SFS_SUPER_BLOCK (zeros (Z.to_nat SFS_BLOCKSIZE));
  if negb (result =? 0) then mret (Err result, dev) else
  let sb := super_of_bytes b in
  if negb (sb_magic sb =? SFS_MAGIC) then mret (Err EINVAL, dev) else
  let sb := mkSuper (sb_magic sb) (sb_nblocks sb) (<[31%nat := 0]> (sb_volname sb)) (sb_reserved sb) in
  fm ← bitmap_create (granted 2%nat) (granted 3%nat) (SFS_FREEMAPBITS (sb_nblocks sb));
  match fm with
  | None => mret (Err ENOMEM, dev)
  | Some fm =>
      '(result, fs) ← sfs_freemapio (mkFs sb false dev fm false) UIO_READ;
      if negb (result =? 0) then mret (Err result, sfs_device fs)
      else mret (Ok (mkMount fs ∅ [] 0 (drop 4 mem)), sfs_device fs)
  end.

(** ** The volume on the disk *)

Definition u32_words (l : list Z) : Prop := Forall (fun x => 0 <= x < 2 ^ 32) l.

Record sb_wf (sb : sfs_superblock) : Prop := {
  sw_magic : sb_magic sb = SFS_MAGIC;
  sw_nblocks : 0 < sb_nblocks sb < 2 ^ 31;
  sw_vol : length (sb_volname sb) = 32%nat /\ bytes (sb_volname sb) /\ sb_volname sb !! 31%nat = Some 0;
  sw_reserved : length (sb_reserved sb) = 118%nat /\ u32_words (sb_reserved sb) }.

(** The blocks of the freemap. *)
Definition fm_blocks (fs : sfs_fs) : nat := Z.to_nat (SFS_FREEMAPBLOCKS (nblocks fs)).

(** What is clean in memory is what the disk holds. *)
Record disk_current (fs : sfs_fs) : Prop := {
  dc_sb : sfs_superdirty fs = false -> fsector fs 0 = super_bytes (sfs_sb fs);
  dc_fm : sfs_freemapdirty fs = false ->
    forall j, (j < fm_blocks fs)%nat -> fsector fs (2 + Z.of_nat j) = take 512 (drop (j * 512) (v (sfs_freemap fs))) }.

(** The layout of a volume: its freemap has a bit per block, rounded up to whole
    blocks, and these blocks are on the volume. *)
Record layout_ok (fs : sfs_fs) : Prop := {
  lo_sb : sb_wf (sfs_sb fs);
  lo_bits : nbits (sfs_freemap fs) = SFS_FREEMAPBITS (nblocks fs);
  lo_room : 2 + Z.of_nat (fm_blocks fs) <= nblocks fs }.

Lemma freemap_sizes n :
  0 < n < 2 ^ 31 ->
  SFS_FREEMAPBITS n = (n + 4095) / 4096 * 4096 /\ SFS_FREEMAPBLOCKS n = (n + 4095) / 4096.
Proof.
  intros Hn. unfold SFS_FREEMAPBLOCKS, SFS_FREEMAPBITS, SFS_BITSPERBLOCK.
  rewrite (u32_small (n + 4096)), (u32_small (n + 4096 - 1)), u32_small by lia. lia.
Qed.

(** ** The superblock *)

Lemma length_super_bytes sb : sb_wf sb -> is_block (super_bytes sb).
Proof.
  intros [_ _ (Hl & Hb & _) (Hr & _)]. unfold super_bytes. split.
  - rewrite !length_app, !length_encode_words, Hl, Hr. done.
  - apply Forall_app; split; [apply bytes_encode_words|].
    apply Forall_app; split; [done|apply bytes_encode_words].
Qed.

Lemma decode_words_app8 b0 b1 b2 b3 b4 b5 b6 b7 r :
  decode_words (b0 :: b1 :: b2 :: b3 :: b4 :: b5 :: b6 :: b7 :: r) =
    un_be32 b0 b1 b2 b3 :: un_be32 b4 b5 b6 b7 :: decode_words r.
Proof. done. Qed.

Lemma super_roundtrip sb : sb_wf sb -> super_of_bytes (super_bytes sb) = sb.
Proof.
  intros [Hm Hn (Hl & Hb & _) (Hr & Hrr)]. destruct sb as [mg n vol rs]; cbn [sb_magic sb_nblocks sb_volname sb_reserved] in *.
  unfold super_of_bytes, super_bytes. cbn [sb_magic sb_nblocks sb_volname sb_reserved].
  assert (He : exists e, encode_words [mg; n] = e /\ length e = 8%nat /\
            forall r, decode_words (e ++ r) = mg :: n :: decode_words r).
  { eexists. split; [done|]. split; [done|]. intros r. cbn [encode_words flat_map be32 app].
    rewrite decode_words_app8, !un_be32_be32 by (subst; unfold SFS_MAGIC; lia). done. }
  destruct He as (e & -> & Hel & Hed). rewrite Hed. cbn [lookup list_lookup default]. f_equal.
  - rewrite drop_app_length' by done. apply take_app_length'. done.
  - rewrite (app_assoc e), drop_app_length' by (rewrite length_app; lia). by apply decode_encode_words.
Qed.

(** ** The freemap *)

Lemma freemap_write k j fs :
  fs_wf fs -> length (v (sfs_freemap fs)) = ((j + k) * 512)%nat -> 2 + Z.of_nat (j + k) <= nblocks fs ->
  exists fs', freemapio_loop k (Z.of_nat j) fs UIO_WRITE = Done (0, fs') /\ fs_wf fs' /\
    sfs_sb fs' = sfs_sb fs /\ sfs_freemap fs' = sfs_freemap fs /\ sfs_superdirty fs' = sfs_superdirty fs /\
    (forall i, (j <= i < j + k)%nat -> fsector fs' (2 + Z.of_nat i) = take 512 (drop (i * 512) (v (sfs_freemap fs)))) /\
    (forall b, b < 2 + Z.of_nat j \/ 2 + Z.of_nat (j + k) <= b -> fsector fs' b = fsector fs b).
Proof.
  revert j fs. induction k as [|k IH]; intros j fs H Hl Hn; cbn [freemapio_loop].
  { exists fs. split; [done|]. split_and!; try done. lia. }
  unfold SFS_BLOCKSIZE, SFS_FREEMAP_START, bitmap_getdata. change (Z.to_nat 512) with 512%nat.
  replace (Z.to_nat (Z.of_nat j * 512)) with (j * 512)%nat by lia.
  set (b := take 512 (drop (j * 512) (v (sfs_freemap fs)))).
  assert (Hb : is_block b).
  { split; [unfold b; rewrite length_take, length_drop; lia|].
    apply Forall_take, Forall_drop. apply (wf_bytes _ (fw_map _ H)). }
  rewrite sfs_writeblock_ok by (done || lia || apply Hb). kred.
  replace (Z.of_nat j + 1) with (Z.of_nat (S j)) by lia.
  set (fs1 := fs_write fs (2 + Z.of_nat j) b).
  destruct (IH (S j) fs1) as (fs' & He & H' & Hsb & Hfm & Hsd & Hin & Hout).
  - by apply fs_write_wf.
  - change (sfs_freemap fs1) with (sfs_freemap fs). lia.
  - change (nblocks fs1) with (nblocks fs). lia.
  - exists fs'. split; [exact He|]. split_and!; try done.
    + intros i Hi. destruct (decide (i = j)) as [->|].
      * rewrite Hout by lia. apply fsector_write_eq.
      * apply Hin. lia.
    + intros x Hx. rewrite Hout by lia. apply fsector_write_ne. lia.
Qed.

Lemma freemap_read k j fs data :
  lhd_wf (sfs_device fs) -> lh_status (sfs_device fs) = [] ->
  length (v (sfs_freemap fs)) = ((j + k) * 512)%nat -> length data = ((j + k) * 512)%nat ->
  2 + Z.of_nat (j + k) <= d_blocks (sfs_device fs) ->
  (forall i, (j <= i < j + k)%nat -> fsector fs (2 + Z.of_nat i) = take 512 (drop (i * 512) data)) ->
  take (j * 512) (v (sfs_freemap fs)) = take (j * 512) data ->
  freemapio_loop k (Z.of_nat j) fs UIO_READ =
    Done (0, set_freemap fs (mkBitmap (nbits (sfs_freemap fs)) data) (sfs_freemapdirty fs)).
Proof.
  revert j fs. induction k as [|k IH]; intros j fs Hd Hs Hl Hld Hn Hsec Hpre; cbn [freemapio_loop].
  { rewrite !firstn_all2 in Hpre by lia. rewrite <- Hpre. by destruct fs as [? ? ? [? ?] ?]. }
  unfold SFS_BLOCKSIZE, SFS_FREEMAP_START, bitmap_getdata. change (Z.to_nat 512) with 512%nat.
  replace (Z.to_nat (Z.of_nat j * 512)) with (j * 512)%nat by lia.
  unfold sfs_readblock. rewrite readblock_dev_ok by (done || lia || (rewrite length_take, length_drop; lia)). kred.
  change (sector (sfs_device fs) (2 + Z.of_nat j)) with (fsector fs (2 + Z.of_nat j)). rewrite Hsec by lia.
  set (fs1 := set_freemap _ _ _).
  replace (Z.of_nat j + 1) with (Z.of_nat (S j)) by lia.
  assert (Hseg : length (take 512 (drop (j * 512) data)) = 512%nat) by (rewrite length_take, length_drop; lia).
  rewrite (IH (S j) fs1); cbn [fs1 set_freemap set_device sfs_device sfs_freemap nbits v sfs_freemapdirty]; try done.
  - rewrite length_splice; lia.
  - lia.
  - lia.
  - intros i Hi. apply (Hsec i). lia.
  - apply list_eq. intros i. destruct (decide (i < S j * 512)%nat); [|by rewrite !lookup_take_ge by lia].
    rewrite !lookup_take_lt by lia. destruct (decide (i < j * 512)%nat).
    + rewrite lookup_splice_old by lia. apply (f_equal (lookup i)) in Hpre. by rewrite !lookup_take_lt in Hpre by lia.
    + rewrite lookup_splice_new by lia. rewrite lookup_take_lt, lookup_drop by lia. f_equal. lia.
Qed.

(** ** Syncing *)

(** The volume [fs'] has the same contents as [fs] and nothing to write. *)
Record synced (fs fs' : sfs_fs) : Prop := {
  sy_wf : fs_wf fs';
  sy_sb : sfs_sb fs' = sfs_sb fs;
  sy_fm : sfs_freemap fs' = sfs_freemap fs;
  sy_clean : sfs_superdirty fs' = false /\ sfs_freemapdirty fs' = false;
  sy_cur : disk_current fs';
  sy_files : forall b, 2 + Z.of_nat (fm_blocks fs) <= b \/ b = 1 -> fsector fs' b = fsector fs b }.

Lemma freemap_length fs :
  fs_wf fs -> layout_ok fs -> length (v (sfs_freemap fs)) = (fm_blocks fs * 512)%nat.
Proof.
  intros H [L1 L2 L3]. pose proof (wf_words _ (fw_map _ H)) as Hw. rewrite L2 in Hw.
  destruct (freemap_sizes (nblocks fs)) as [Hb Hk]; [apply L1|].
  rewrite Hb in Hw. unfold fm_blocks. rewrite Hk. pose proof (sw_nblocks _ L1).
  change (sb_nblocks (sfs_sb fs)) with (nblocks fs) in *. lia.
Qed.

Lemma sync_freemap_ok fs :
  fs_wf fs -> layout_ok fs -> disk_current fs ->
  exists fs', sfs_sync_freemap fs = Done (0, fs') /\ fs_wf fs' /\ sfs_sb fs' = sfs_sb fs /\
    sfs_freemap fs' = sfs_freemap fs /\ sfs_superdirty fs' = sfs_superdirty fs /\ sfs_freemapdirty fs' = false /\
    disk_current fs' /\
    (forall b, b < 2 \/ 2 + Z.of_nat (fm_blocks fs) <= b -> fsector fs' b = fsector fs b).
Proof.
  intros H L [C1 C2]. pose proof (freemap_length fs H L) as Hlen. unfold sfs_sync_freemap.
  destruct (sfs_freemapdirty fs) eqn:Hdirty.
  - unfold sfs_freemapio. change (sb_nblocks (sfs_sb fs)) with (nblocks fs). fold (fm_blocks fs).
    destruct (freemap_write (fm_blocks fs) 0 fs) as (fs1 & He & H1 & Hsb & Hfm & Hsd & Hin & Hout);
      [done|done|apply L|]. change (Z.of_nat 0) with 0 in He. rewrite He. kred.
    assert (Hk : fm_blocks (set_freemap fs1 (sfs_freemap fs1) false) = fm_blocks fs)
      by (unfold fm_blocks, nblocks; cbn; by rewrite Hsb).
    eexists. split; [done|]. split_and!; try done.
    + by destruct H1.
    + split.
      * cbn. rewrite Hsd. intros Hc. change (fsector _ 0) with (fsector fs1 0). rewrite Hout by lia. rewrite Hsb. by apply C1.
      * intros _ j Hj. rewrite Hk in Hj. cbn. change (fsector _ (2 + Z.of_nat j)) with (fsector fs1 (2 + Z.of_nat j)).
        rewrite Hin, Hfm by lia. done.
  - exists fs. split; [done|]. split_and!; try done.
    split; [done|]. intros _. by apply C2.
Qed.

Lemma sync_superblock_ok fs :
  fs_wf fs -> sb_wf (sfs_sb fs) -> disk_current fs -> sfs_freemapdirty fs = false ->
  exists fs', sfs_sync_superblock fs = Done (0, fs') /\ synced fs fs'.
Proof.
  intros H L C Hfd. unfold sfs_sync_superblock. pose proof (fw_nblocks _ H) as Hn.
  destruct (sfs_superdirty fs) eqn:Hsd.
  - unfold SFS_SUPER_BLOCK. rewrite sfs_writeblock_ok by (done || lia || by apply length_super_bytes). kred.
    pose proof (fs_write_wf fs 0 _ H (length_super_bytes _ L)) as H1.
    eexists. split; [done|]. split; try done.
    + by destruct H1.
    + split; [intros _; apply fsector_write_eq|].
      intros _ j Hj. cbn.
      match goal with |- fsector ?f _ = _ => change (fsector (fs_write fs 0 (super_bytes (sfs_sb fs))) (2 + Z.of_nat j)
        = take 512 (drop (j * 512) (v (sfs_freemap fs)))) end.
      rewrite fsector_write_ne by lia. by apply (dc_fm _ C).
    + intros b Hb. apply (fsector_write_ne fs 0 b). lia.
  - exists fs. split; [done|]. by split.
Qed.

(** Remounting a synced volume. *)
Lemma domount_ok fs :
  fs_wf fs -> layout_ok fs -> disk_current fs -> sfs_superdirty fs = false -> sfs_freemapdirty fs = false ->
  sfs_domount [] SFS_BLOCKSIZE (sfs_device fs) = Done (Ok (mkMount fs ∅ [] 0 []), sfs_device fs).
Proof.
  intros H L C Hsd Hfd. pose proof (fw_nblocks _ H) as Hn. pose proof (lo_sb _ L) as Hsb.
  pose proof (freemap_length fs H L) as Hlen.
  unfold sfs_domount. rewrite Z.eqb_refl. cbn [negb lookup list_lookup default from_option].
  change (Z.to_nat SFS_BLOCKSIZE) with 512%nat. unfold SFS_SUPER_BLOCK.
  rewrite readblock_dev_ok by (apply H || lia || apply length_zeros). kred.
  change (sector (sfs_device fs) 0) with (fsector fs 0). rewrite (dc_sb _ C Hsd), super_roundtrip by done.
  rewrite (sw_magic _ Hsb), Z.eqb_refl. kred.
  assert (Hsbe : mkSuper SFS_MAGIC (sb_nblocks (sfs_sb fs)) (<[31%nat:=0]> (sb_volname (sfs_sb fs))) (sb_reserved (sfs_sb fs))
            = sfs_sb fs).
  { destruct Hsb as [Hm _ (_ & _ & Hz) _]. rewrite list_insert_id by done. destruct (sfs_sb fs); cbn in *. by subst. }
  rewrite Hsbe. change (sb_nblocks (sfs_sb fs)) with (nblocks fs).
  destruct (freemap_sizes (nblocks fs)) as [Hbits Hblocks]; [apply Hsb|].
  pose proof (sw_nblocks _ Hsb) as Hnb. change (sb_nblocks (sfs_sb fs)) with (nblocks fs) in Hnb.
  destruct (bitmap_create_ok (SFS_FREEMAPBITS (nblocks fs))) as (fm & -> & Hfm & Hfn & _); [lia|lia|]. kred.
  set (fs0 := mkFs (sfs_sb fs) false (sfs_device fs) fm false).
  unfold sfs_freemapio. change (sb_nblocks (sfs_sb fs0)) with (nblocks fs). fold (fm_blocks fs).
  pose proof (wf_words _ Hfm) as Hw. rewrite Hfn, Hbits in Hw.
  pose proof (freemap_read (fm_blocks fs) 0 fs0 (v (sfs_freemap fs))) as Hrd. change (Z.of_nat 0) with 0 in Hrd.
  rewrite Hrd; clear Hrd; cbn [fs0 sfs_device sfs_freemap]; try apply H; try done.
  - kred. unfold set_freemap. cbn [sfs_sb sfs_superdirty sfs_device sfs_freemapdirty]. rewrite Hfn, <- (lo_bits _ L).
    destruct fs as [sb sd dev [nb w] fd]; cbn in *. by subst.
  - unfold fm_blocks. rewrite Hblocks. lia.
  - pose proof (lo_room _ L). cbn [Nat.add]. lia.
  - intros i Hi. change (fsector fs0 (2 + Z.of_nat i)) with (fsector fs (2 + Z.of_nat i)). apply (dc_fm _ C Hfd). lia.
Qed.

(** ** The theorems *)

(** C31. Syncing, unmounting and mounting again gives back the same volume: after
    [sfs_sync] of a volume without open files, [sfs_unmount] agrees, and
    [sfs_domount] of that device succeeds with the same superblock and freemap,
    nothing left to write; no block outside the superblock and the freemap has
    changed. *)
Theorem sync_remount m :
  fs_wf (m_fs m) -> layout_ok (m_fs m) -> disk_current (m_fs m) -> sfs_vnodes m = [] ->
  exists m', sfs_sync m = Done (0, m') /\ synced (m_fs m) (m_fs m') /\
    sfs_unmount m' = Done (Ok (sfs_device (m_fs m'))) /\
    sfs_domount [] SFS_BLOCKSIZE (sfs_device (m_fs m')) =
      Done (Ok (mkMount (m_fs m') ∅ [] 0 []), sfs_device (m_fs m')).
Proof.
  intros H L C Hv. unfold sfs_sync, sfs_sync_vnodes. rewrite Hv. cbn [sync_vnodes_loop]. kred.
  destruct (sync_freemap_ok (m_fs m) H L C) as (fs1 & -> & H1 & Hsb1 & Hfm1 & Hsd1 & Hfd1 & C1 & Hb1). kred.
  change (m_fs (set_fs m fs1)) with fs1.
  destruct (sync_superblock_ok fs1) as (fs2 & -> & [S1 S2 S3 [S4 S5] S6 S7]);
    [done|rewrite Hsb1; apply L|done|done|]. kred.
  change (set_fs (set_fs m fs1) fs2) with (set_fs m fs2). exists (set_fs m fs2). split; [done|].
  cbn [m_fs set_fs]. split.
  - split; try done; try congruence. intros b Hb.
    assert (fm_blocks fs1 = fm_blocks (m_fs m)) as Hk by (unfold fm_blocks, nblocks; by rewrite Hsb1).
    rewrite S7 by (rewrite Hk; done). apply Hb1. lia.
  - split.
    + unfold sfs_unmount. cbn [set_fs sfs_vnodes]. rewrite Hv. cbn [m_fs set_fs length Z.of_nat Z.gtb Z.compare]. by rewrite S4, S5.
    + apply domount_ok; try done. destruct L as [L1 L2 L3].
      assert (nblocks fs2 = nblocks (m_fs m)) as Hn by (unfold nblocks; congruence).
      split; [congruence|rewrite S3, Hfm1, Hn; done|]. unfold fm_blocks in *. by rewrite Hn.
Qed.

(** A volume of 16 blocks with one block of freemap, which has to be written. *)
Definition fresh_bitmap : bitmap := mkBitmap 4096 (15 :: 0 :: replicate 510 255).
Definition fresh_super : sfs_superblock := mkSuper SFS_MAGIC 16 (zeros 32) (replicate 118 0).
Definition fresh_fs : sfs_fs :=
  mkFs fresh_super false
    (mkLhd 16 (list_to_map (map (fun i => (i, if i =? 0 then super_bytes fresh_super else zeros 512)) (seqZ 0 16))) [])
    fresh_bitmap true.

Lemma sync_remount_witness :
  exists m', sfs_sync (mkMount fresh_fs ∅ [] 0 []) = Done (0, m') /\ synced fresh_fs (m_fs m') /\
    sfs_unmount m' = Done (Ok (sfs_device (m_fs m'))).
Proof.
  destruct (sync_remount (mkMount fresh_fs ∅ [] 0 [])) as (m' & H1 & H2 & H3 & _).
  - apply fs_wfb_ok. vm_compute. reflexivity.
  - split; [split|reflexivity|vm_compute; discriminate].
    + reflexivity.
    + vm_compute. split; [reflexivity|reflexivity].
    + split; [reflexivity|]. split; [apply bytes_zeros|reflexivity].
    + split; [reflexivity|]. apply Forall_replicate. lia.
  - split; [intros _; vm_compute; reflexivity|discriminate].
  - reflexivity.
  - exists m'. exact (conj H1 (conj H2 H3)).
Defined.

(** ** SFS behind the interface

    One volume, known as file system 0. *)

Definition ops_of (m : mount) (v : Z) : outcome sfs_ops := o ← get_obj m v; mret (vo_ops o).

(** An operation SFS does not have: [vopfail] with the error of either table. *)
Definition vopfail (m : mount) (v efile edir : Z) : outcome (Z * mount) :=
  ops ← ops_of m v;
  mret (match ops with sfs_fileops => efile | sfs_dirops => edir end, m).

#[export] Instance sfs_vops : Vops mount := {|
  vn_fs m v := o ← get_obj m v; mret (Some 0);
  vn_refcount_of m v := o ← get_obj m v; mret (vn_refcount o);
  VNODE_CLEANUP := vnode_cleanup;
  VOP_INCREF := vnode_incref;
  VOP_DECREF := vnode_decref;
  VOP_EACHOPEN := vop_eachopen;
  VOP_READ := vop_read;
  VOP_READLINK m v u := '(r, m) ← vopfail m v ENOTDIR EINVAL; mret (r, u, m);
  VOP_WRITE := vop_write;
  VOP_STAT_SIZE m v := '(_, size, _, _) ← sfs_stat m v; mret (Ok size);
  VOP_GETTYPE m v := t ← sfs_gettype m v; mret (Ok t);
  VOP_ISSEEKABLE m v := o ← get_obj m v; mret (sfs_isseekable v);
  VOP_TRUNCATE := vop_truncate;
  VOP_NAMEFILE := vop_namefile;
  VOP_CREAT := vop_creat;
  VOP_SYMLINK m v _ _ := vopfail m v ENOTDIR ENOSYS;
  VOP_MKDIR m v _ := vopfail m v ENOTDIR ENOSYS;
  VOP_LINK := vop_link;
  VOP_REMOVE := vop_remove;
  VOP_RMDIR m v _ := vopfail m v ENOTDIR ENOSYS;
  VOP_RENAME := vop_rename;
  VOP_LOOKUP := vop_lookup;
  VOP_LOOKPARENT := vop_lookparent;
  FSOP_GETVOLNAME m _ := mret (Some (sb_volname (sfs_sb (m_fs m))));
  FSOP_GETROOT m _ := sfs_getroot m;
  FSOP_SYNC m _ := sfs_sync m;
  FSOP_UNMOUNT m _ := r ← sfs_unmount m; mret (match r with Ok _ => 0 | Err e => e end, m) |}.

Lemma decref_more m v n :
  vn_refcount <$> m_objs m !! v = Some n -> 1 < n ->
  exists m', vnode_decref m v = Done m' /\ vn_refcount <$> m_objs m' !! v = Some (n - 1) /\
    forall w, w <> v -> vn_refcount <$> m_objs m' !! w = vn_refcount <$> m_objs m !! w.
Proof.
  destruct (m_objs m !! v) as [o|] eqn:Ho; [|done]. intros [= <-] Hn. unfold vnode_decref, get_obj. rewrite Ho. kred.
  rewrite Z.gtb_ltb, (proj2 (Z.ltb_lt _ _)) by lia. kred.
  rewrite Z.gtb_ltb, (proj2 (Z.ltb_lt _ _)) by lia. eexists. split; [done|]. cbn. rewrite lookup_insert_eq.
  split; [done|]. intros w Hw. by rewrite lookup_insert_ne.
Qed.

#[export] Instance sfs_refs : VopsRefs mount.
Proof.
  refine {| vrefs := fun m v => vn_refcount <$> m_objs m !! v |}.
  - intros m v n. cbn [vn_refcount_of sfs_vops]. unfold get_obj. destruct (m_objs m !! v) as [o|]; [|done]. by intros [= <-].
  - intros m v n. destruct (m_objs m !! v) as [o|] eqn:Ho; [|done]. intros [= <-].
    cbn [VOP_INCREF sfs_vops]. unfold vnode_incref, get_obj. rewrite Ho. kred.
    eexists. split; [done|]. cbn. rewrite lookup_insert_eq. split; [done|].
    intros w Hw. by rewrite lookup_insert_ne.
  - intros m v n. apply decref_more.
Defined.
