(* ===== verification/Mksfs.v ===== *)
(** * userland/sbin/mksfs: making a file system

    mksfs.c, disk.c and the macros of kern/sfs.h, compiled for OS/161 (without HOST).  The
    disk is a file of bytes; how the host answers the calls of [write] is a list, and
    when it has been used up every byte is taken at once.  The disk opens and closes
    without an error.  A program runs until it exits; its state, and the disk in it, can be seen then too. *)

From Stdlib Require Import ZifyNat.
From S2P Require Import Prelude Cstring CopyInOut Uio Bitmap Lhd Sfs SfsIo SfsDir SfsVnode SfsFs.

#[local] Set Warnings "-clear-no-such-hyp".

(** ** Programs *)

(** [Exited]: [errx], [err] and the return of [main]; [Aborted]: a failed [assert]. *)
Inductive ended A := Going (a : A) | Exited (code : Z) | Aborted.
Arguments Going {A} a.
Arguments Exited {A} code.
Arguments Aborted {A}.

(** The answers to [write]: a number of bytes, or an error number. *)
Inductive write_answer := Wrote (len : nat) | Refused (errno : Z).

Record prog := mkProg {
  fd_open : bool;                 (* fd >= 0 *)
  disk_nblocks : Z;               (* nblocks of disk.c *)
  freemapbuf : list Z;
  img : list Z;                   (* the disk *)
  answers : list write_answer }.

Definition set_freemapbuf (l : list Z) (s : prog) : prog := mkProg (fd_open s) (disk_nblocks s) l (img s) (answers s).
Definition set_disk (open : bool) (n : Z) (s : prog) : prog := mkProg open n (freemapbuf s) (img s) (answers s).
Definition set_img (l : list Z) (a : list write_answer) (s : prog) : prog :=
  mkProg (fd_open s) (disk_nblocks s) (freemapbuf s) l a.

Definition U (A : Type) : Type := prog -> ended A * prog.
#[export] Instance U_ret : MRet U := fun _ a s => (Going a, s).
#[export] Instance U_bind : MBind U := fun _ _ f m s =>
  match m s with
  | (Going a, s) => f a s
  | (Exited c, s) => (Exited c, s)
  | (Aborted, s) => (Aborted, s)
  end.

Definition ugets {A} (f : prog -> A) : U A := fun s => (Going (f s), s).
Definition umodify (f : prog -> prog) : U unit := fun s => (Going (), f s).
Definition err {A} : U A := fun s => (Exited 1, s).
Definition errx {A} : U A := err.
Definition assert (b : bool) : U unit := fun s => (if b then Going () else Aborted, s).
(** A C string function; running off a string is taken for an abort. *)
Definition pure {A} (m : outcome A) : U A := fun s => (match m with Done a => Going a | _ => Aborted end, s).

(** ** disk.c *)

Definition BLOCKSIZE : Z := 512.
Definition EINTR : Z := 5.
Definition EAGAIN : Z := Lhd.EAGAIN.

Definition opendisk : U unit :=
  open ← ugets fd_open; assert (negb open);;
  umodify (fun s => set_disk true (u32 (Z.of_nat (length (img s)) / BLOCKSIZE)) s).

Definition diskblocksize : U Z := open ← ugets fd_open; assert open;; mret BLOCKSIZE.
Definition diskblocks : U Z := open ← ugets fd_open; assert open;; ugets disk_nblocks.

(** Writing [data] to the file at [pos]; between its end and [pos] there will be zeros. *)
Definition overwrite (pos : nat) (data l : list Z) : list Z := splice pos data (l ++ zeros (pos - length l)).

(** The loop of [diskwrite] from the file position [pos], with [data] left to write.
    [write] never takes more than it is given. *)
Fixpoint write_loop (ans : list write_answer) (pos : nat) (data : list Z) : U unit :=
  match data with
  | [] => umodify (fun s => set_img (img s) ans s)
  | _ =>
      match ans with
      | [] => umodify (fun s => set_img (overwrite pos data (img s)) [] s)
      | Refused e :: ans =>
          if (e =? EINTR) || (e =? EAGAIN) then write_loop ans pos data
          else umodify (fun s => set_img (img s) ans s);; err
      | Wrote len :: ans =>
          if (len =? 0)%nat then umodify (fun s => set_img (img s) ans s);; err else
          let taken := take len data in
          umodify (fun s => set_img (overwrite pos taken (img s)) ans s);;
          write_loop ans (pos + length taken) (drop len data)
      end
  end.

(** [data] is [BLOCKSIZE] bytes long.  [lseek] is given [block*BLOCKSIZE] in 32 bits, and
    does not fail on a disk. *)
Definition diskwrite (data : list Z) (block : Z) : U unit :=
  open ← ugets fd_open; assert open;;
  ans ← ugets answers;
  write_loop ans (Z.to_nat (u32 (block * BLOCKSIZE))) data.

Definition closedisk : U unit :=
  open ← ugets fd_open; assert open;;
  umodify (fun s => set_disk false (disk_nblocks s) s).

(** ** mksfs.c *)

Definition MAXFREEMAPBLOCKS : Z := 32.
Definition SFS_VOLNAME_SIZE : Z := 32.
Definition CHAR_BIT : Z := 8.

Definition allocblock (block : Z) : U unit :=
  let mapbyte := block / CHAR_BIT in
  let mask := Z.shiftl 1 (block mod CHAR_BIT) in
  buf ← ugets freemapbuf;
  b ← pure (deref (buf !! Z.to_nat mapbyte));
  assert (Z.land b mask =? 0);;
  umodify (set_freemapbuf (<[Z.to_nat mapbyte := Z.lor b mask]> buf)).

(** [for (i=first; i<first+k; i++) allocblock(i)]. *)
Fixpoint alloc_blocks (first : Z) (k : nat) : U unit :=
  match k with
  | O => mret ()
  | S k => allocblock first;; alloc_blocks (first + 1) k
  end.

Definition initfreemap (fsblocks : Z) : U unit :=
  let freemapbits := SFS_FREEMAPBITS fsblocks in
  let freemapblocks := SFS_FREEMAPBLOCKS fsblocks in
  if freemapblocks >? MAXFREEMAPBLOCKS then errx else
  allocblock SFS_SUPER_BLOCK;;
  allocblock SFS_ROOTDIR_INO;;
  alloc_blocks SFS_FREEMAP_START (Z.to_nat freemapblocks);;
  alloc_blocks fsblocks (Z.to_nat (freemapbits - fsblocks)).

Definition writesuper (volname : list Z) (nblocks : Z) : U unit :=
  n ← pure (strlen volname);
  if n >=? SFS_VOLNAME_SIZE then errx else
  name ← pure (strcpy (zeros (Z.to_nat SFS_VOLNAME_SIZE)) volname);
  diskwrite (super_bytes (mkSuper SFS_MAGIC nblocks name (zeros 118))) SFS_SUPER_BLOCK.

Fixpoint writefreemap_loop (k : nat) (i : Z) : U unit :=
  match k with
  | O => mret ()
  | S k =>
      buf ← ugets freemapbuf;
      diskwrite (take (Z.to_nat SFS_BLOCKSIZE) (drop (Z.to_nat (i * SFS_BLOCKSIZE)) buf)) (SFS_FREEMAP_START + i);;
      writefreemap_loop k (i + 1)
  end.
Definition writefreemap (fsblocks : Z) : U unit := writefreemap_loop (Z.to_nat (SFS_FREEMAPBLOCKS fsblocks)) 0.

Definition writerootdir : U unit :=
  let sfi := mkDinode 0 SFS_TYPE_DIR 1 (zeros 15) 0 (zeros 110) in
  diskwrite (dinode_bytes sfi) SFS_ROOTDIR_INO.

(** The name of the volume without a colon at its end. *)
Definition volume_name (volname : list Z) : U (list Z) :=
  s ← pure (strchr volname 58);
  volname ← (match s with
             | Some i =>
                 n ← pure (strlen (drop (Z.to_nat i) volname));
                 if negb (n =? 1) then errx else mret (<[Z.to_nat i := 0]> volname)
             | None => mret volname
             end);
  s ← pure (strchr volname 47);
  match s with Some _ => errx | None => mret volname end.

(** [main] with its two arguments, of which the first names the disk. *)
Definition main (volname : list Z) : U Z :=
  volname ← volume_name volname;
  opendisk;;
  blocksize ← diskblocksize;
  if negb (blocksize =? SFS_BLOCKSIZE) then errx else
  size ← diskblocks;
  initfreemap size;;
  writesuper volname size;;
  writefreemap size;;
  writerootdir;;
  closedisk;;
  mret 0.

(** A new process: static variables are 0. *)
Definition new_prog (disk : list Z) (ans : list write_answer) : prog :=
  mkProg false 0 (zeros (Z.to_nat (MAXFREEMAPBLOCKS * SFS_BLOCKSIZE))) disk ans.

(** The drive that holds such a disk. *)
Definition lhd_of (disk : list Z) : lhd :=
  let n := (length disk / 512)%nat in
  mkLhd (Z.of_nat n) (list_to_map (map (fun i => (Z.of_nat i, take 512 (drop (i * 512) disk))) (seq 0 n))) [].

(** ** Writing to the disk *)

(** [write] goes on: it takes something, or asks to be called again. *)
Definition patient (a : write_answer) : Prop :=
  match a with Wrote len => len <> 0%nat | Refused e => e = EINTR \/ e = EAGAIN end.
#[export] Instance patient_dec a : Decision (patient a).
Proof. destruct a; cbn; apply _. Defined.

Lemma overwrite_in pos data l : (pos <= length l)%nat -> overwrite pos data l = splice pos data l.
Proof. intros H. unfold overwrite. replace (pos - length l)%nat with 0%nat by lia. by rewrite app_nil_r. Qed.

Lemma U_bind_eq {A B} (m : U A) (f : A -> U B) s r s' : m s = (Going r, s') -> (m ≫= f) s = f r s'.
Proof. intros H. unfold mbind, U_bind. by rewrite H. Qed.

Lemma U_bind_exit {A B} (m : U A) (f : A -> U B) s c s' : m s = (Exited c, s') -> (m ≫= f) s = (Exited c, s').
Proof. intros H. unfold mbind, U_bind. by rewrite H. Qed.
Lemma U_bind_abort {A B} (m : U A) (f : A -> U B) s s' : m s = (Aborted, s') -> (m ≫= f) s = (Aborted, s').
Proof. intros H. unfold mbind, U_bind. by rewrite H. Qed.

Lemma write_loop_eq ans pos data s :
  Forall patient ans -> (pos + length data <= length (img s))%nat ->
  exists ans', Forall patient ans' /\ write_loop ans pos data s = (Going (), set_img (splice pos data (img s)) ans' s).
Proof.
  revert pos data s. induction ans as [|[len|e] ans IH]; intros pos data s Hp Hl.
  - destruct data as [|x data]; cbn [write_loop].
    + exists []. split; [done|]. by rewrite splice_nil.
    + exists []. split; [done|]. unfold umodify. by rewrite overwrite_in by lia.
  - destruct data as [|x data].
    { exists (Wrote len :: ans). split; [done|]. cbn. by rewrite splice_nil. }
    apply Forall_cons in Hp as [Hlen Hp]. change (len <> 0%nat) in Hlen. cbn [write_loop].
    rewrite (proj2 (Nat.eqb_neq len 0)) by done. set (d := x :: data) in *.
    assert (Htd : (length (take len d) + length (drop len d) = length d)%nat) by (rewrite length_take, length_drop; lia).
    erewrite U_bind_eq; [|reflexivity]. rewrite overwrite_in by lia.
    destruct (IH (pos + length (take len d))%nat (drop len d) (set_img (splice pos (take len d) (img s)) ans s)) as (ans' & Ha & ->).
    + done.
    + cbn. rewrite length_splice by lia. lia.
    + exists ans'. split; [done|]. cbn [set_img img]. rewrite splice_splice, take_drop by lia. done.
  - destruct data as [|x data].
    { exists (Refused e :: ans). split; [done|]. cbn. by rewrite splice_nil. }
    apply Forall_cons in Hp as [He Hp]. cbn [write_loop]. destruct (IH pos (x :: data) s Hp Hl) as (ans' & Ha & Hw).
    exists ans'. split; [done|]. rewrite <- Hw. destruct He as [-> | ->]; done.
Qed.

(** Block [i] of a disk. *)
Definition blk (l : list Z) (i : nat) : list Z := take 512 (drop (i * 512) l).

(** [l'] is [l] with some blocks replaced. *)
Definition blocks_set (l l' : list Z) (f : nat -> option (list Z)) : Prop :=
  length l' = length l /\
  (forall j b, f j = Some b -> length b = 512%nat) /\
  forall q, l' !! q = match f (q / 512)%nat with Some b => b !! (q mod 512)%nat | None => l !! q end.

Lemma div_mod_512 j k : (k < 512)%nat -> ((j * 512 + k) / 512 = j)%nat /\ ((j * 512 + k) mod 512 = k)%nat.
Proof. lia. Qed.

Lemma blk_lookup l j k : blk l j !! k = if decide (k < 512)%nat then l !! (j * 512 + k)%nat else None.
Proof.
  unfold blk. case_decide; [by rewrite lookup_take_lt, lookup_drop|].
  apply lookup_ge_None_2. rewrite length_take. lia.
Qed.

Lemma blocks_set_blk l l' f j : blocks_set l l' f -> blk l' j = match f j with Some b => b | None => blk l j end.
Proof.
  intros (_ & Hb & H). apply list_eq. intros k. rewrite blk_lookup. case_decide as Hk.
  - rewrite H. destruct (div_mod_512 j k Hk) as [-> ->]. destruct (f j); [done|]. by rewrite blk_lookup, decide_True.
  - destruct (f j) as [b|] eqn:Hj; [|by rewrite blk_lookup, decide_False]. rewrite lookup_ge_None_2; [done|].
    rewrite (Hb _ _ Hj). lia.
Qed.

Lemma blocks_set_one l j b :
  length b = 512%nat -> (j * 512 + 512 <= length l)%nat ->
  blocks_set l (splice (j * 512) b l) (fun i => if decide (i = j) then Some b else None).
Proof.
  intros Hb Hl. split; [by apply length_splice; lia|]. split; [intros i c; case_decide; congruence|].
  intros q. case_decide as Hq.
  - rewrite lookup_splice_new by lia. f_equal. lia.
  - by rewrite lookup_splice_old by lia.
Qed.

Lemma blocks_set_trans l1 l2 l3 f g h :
  blocks_set l1 l2 f -> blocks_set l2 l3 g -> (forall j, h j = match g j with Some b => Some b | None => f j end) ->
  blocks_set l1 l3 h.
Proof.
  intros (A1 & A2 & A3) (B1 & B2 & B3) Hh. split; [congruence|]. split.
  - intros j b. rewrite Hh. destruct (g j) eqn:Hg; [intros [= <-]; eauto|eauto].
  - intros q. rewrite B3, Hh. destruct (g (q / 512)%nat); [done|]. apply A3.
Qed.

Lemma blocks_set_bytes l l' f : bytes l -> blocks_set l l' f -> (forall j b, f j = Some b -> bytes b) -> bytes l'.
Proof.
  intros Hl (_ & _ & H) Hf. apply Forall_lookup_2. intros q x Hx. rewrite H in Hx.
  destruct (f (q / 512)%nat) as [b|] eqn:Hb; [exact (Forall_lookup_1 _ _ _ _ (Hf _ _ Hb) Hx)|exact (Forall_lookup_1 _ _ _ _ Hl Hx)].
Qed.

(** [s'] is [s] with other contents on the disk, which goes on working. *)
Record disk_set (s s' : prog) (f : nat -> option (list Z)) : Prop := {
  ds_img : blocks_set (img s) (img s') f;
  ds_fd : fd_open s' = fd_open s;
  ds_n : disk_nblocks s' = disk_nblocks s;
  ds_map : freemapbuf s' = freemapbuf s;
  ds_ans : Forall patient (answers s') }.

Lemma disk_set_trans s1 s2 s3 f g h :
  disk_set s1 s2 f -> disk_set s2 s3 g -> (forall j, h j = match g j with Some b => Some b | None => f j end) -> disk_set s1 s3 h.
Proof. intros [] [] Hh. split; first [done|congruence|by eapply blocks_set_trans]. Qed.

Lemma diskwrite_eq data b s :
  fd_open s = true -> Forall patient (answers s) -> length data = 512%nat ->
  (b * 512 + 512 <= length (img s))%nat -> Z.of_nat b < 2 ^ 20 ->
  exists s', diskwrite data (Z.of_nat b) s = (Going (), s') /\ disk_set s s' (fun i => if decide (i = b) then Some data else None).
Proof.
  intros Hf Ha Hd Hl Hb. unfold diskwrite. erewrite U_bind_eq; [|reflexivity]. rewrite Hf.
  erewrite U_bind_eq; [|reflexivity]. erewrite U_bind_eq; [|reflexivity].
  unfold BLOCKSIZE. rewrite u32_small by lia. replace (Z.to_nat (Z.of_nat b * 512)) with (b * 512)%nat by lia.
  destruct (write_loop_eq (answers s) (b * 512) data s) as (ans' & Ha' & ->); [done|lia|].
  eexists. split; [done|]. split; try done. by apply blocks_set_one.
Qed.

(** ** The freemap *)

(** Bit [i] of the map. *)
Definition marked (s : prog) (i : Z) : bool := bit (mkBitmap 0 (freemapbuf s)) i.

(** [s'] is [s] with another map. *)
Record map_set (s s' : prog) (f : Z -> bool) : Prop := {
  ms_img : img s' = img s;
  ms_fd : fd_open s' = fd_open s;
  ms_n : disk_nblocks s' = disk_nblocks s;
  ms_ans : answers s' = answers s;
  ms_len : length (freemapbuf s') = length (freemapbuf s);
  ms_bytes : bytes (freemapbuf s');
  ms_bits : forall i, 0 <= i -> marked s' i = f i }.

Lemma allocblock_eq b s :
  bytes (freemapbuf s) -> 0 <= b < 8 * Z.of_nat (length (freemapbuf s)) ->
  if marked s b then allocblock b s = (Aborted, s)
  else exists s', allocblock b s = (Going (), s') /\ map_set s s' (fun i => (i =? b) || marked s i).
Proof.
  intros Hb Hr. unfold allocblock, CHAR_BIT. destruct (lookup_lt_is_Some_2 (freemapbuf s) (Z.to_nat (b / 8))) as [w Hw]; [lia|].
  pose proof (Forall_lookup_1 _ _ _ _ Hb Hw) as Hbw.
  assert (Hm : marked s b = Z.testbit w (b mod 8)) by (unfold marked; by rewrite (bit_of_word' _ b w)).
  erewrite U_bind_eq; [|reflexivity]. erewrite U_bind_eq; [|unfold pure; by rewrite Hw].
  rewrite land_shiftl_bit, <- Hm by lia. destruct (marked s b); [done|]. erewrite U_bind_eq; [|reflexivity].
  eexists. split; [done|]. split; try done.
  - cbn. by rewrite length_insert.
  - cbn. apply Forall_insert; [done|]. apply is_byte_lor; [done|lia].
  - intros i Hi. unfold marked. cbn [freemapbuf set_freemapbuf].
    change (mkBitmap 0 (<[Z.to_nat (b / 8) := ?x]> ?l)) with (set_word (mkBitmap 0 l) (b / 8) x).
    rewrite bit_set_word by (cbn; lia). destruct (Z.eqb_spec (i / 8) (b / 8)) as [He|He].
    + rewrite testbit_lor by lia. rewrite (bit_of_word' _ i w) by (cbn; by rewrite He).
      destruct (Z.eqb_spec (i mod 8) (b mod 8)), (Z.eqb_spec i b); try done; lia.
    + destruct (Z.eqb_spec i b); [congruence|done].
Qed.

Lemma map_set_trans s s1 s2 f g : map_set s s1 f -> map_set s1 s2 g -> map_set s s2 g.
Proof. intros [] []. split; first [done|congruence]. Qed.

Lemma map_set_ext s s' f g : map_set s s' f -> (forall i, 0 <= i -> f i = g i) -> map_set s s' g.
Proof. intros [] H. split; try done. intros i Hi. rewrite <- H by done. auto. Qed.

(** A run of blocks that are all free. *)
Definition within (first : Z) (k : nat) (i : Z) : bool := (first <=? i) && (i <? first + Z.of_nat k).

Lemma alloc_blocks_eq k : forall first s,
  bytes (freemapbuf s) -> 0 <= first -> first + Z.of_nat k <= 8 * Z.of_nat (length (freemapbuf s)) ->
  (forall i, within first k i = true -> marked s i = false) ->
  exists s', alloc_blocks first k s = (Going (), s') /\ map_set s s' (fun i => within first k i || marked s i).
Proof.
  induction k as [|k IH]; intros first s Hb Hf Hl Hfree; cbn [alloc_blocks].
  - exists s. split; [done|]. split; try done. intros i Hi. unfold within.
    destruct (Z.leb_spec first i), (Z.ltb_spec i (first + Z.of_nat 0)); try done; lia.
  - pose proof (allocblock_eq first s Hb ltac:(lia)) as Ha. rewrite (Hfree first) in Ha
      by (unfold within; apply andb_true_intro; split; [apply Z.leb_le|apply Z.ltb_lt]; lia).
    destruct Ha as (s1 & Ha & H1). rewrite (U_bind_eq _ _ _ _ _ Ha).
    destruct (IH (first + 1) s1) as (s2 & -> & H2).
    + apply H1.
    + lia.
    + rewrite (ms_len _ _ _ H1). lia.
    + intros i Hi. unfold within in Hi. rewrite andb_true_iff, Z.leb_le, Z.ltb_lt in Hi. rewrite (ms_bits _ _ _ H1) by lia.
      rewrite (proj2 (Z.eqb_neq _ _)) by lia. apply Hfree. unfold within. rewrite andb_true_iff, Z.leb_le, Z.ltb_lt. lia.
    + exists s2. split; [done|]. eapply map_set_trans; [exact H1|]. eapply map_set_ext; [exact H2|].
      intros i Hi. cbv beta. rewrite (ms_bits _ _ _ H1) by lia. rewrite orb_assoc. f_equal. unfold within.
      destruct (Z.eqb_spec i first), (Z.leb_spec (first + 1) i), (Z.ltb_spec i (first + 1 + Z.of_nat k)),
        (Z.leb_spec first i), (Z.ltb_spec i (first + Z.of_nat (S k))); try done; lia.
Qed.

(** The blocks that are in use on a new volume of [n] blocks. *)
Definition reserved (n : Z) : Z := 2 + (n + 4095) / 4096.
Definition new_map (n i : Z) : bool := ((i <? reserved n) || (n <=? i)) && (i <? (n + 4095) / 4096 * 4096).

Lemma new_prog_map disk ans : forall i, 0 <= i -> marked (new_prog disk ans) i = false.
Proof. intros i Hi. by apply bit_zeros. Qed.

Lemma freemap_size : Z.of_nat (length (zeros (Z.to_nat (MAXFREEMAPBLOCKS * SFS_BLOCKSIZE)))) = 16384.
Proof. rewrite length_zeros. reflexivity. Qed.

Lemma allocblock_ok b s :
  bytes (freemapbuf s) -> 0 <= b < 8 * Z.of_nat (length (freemapbuf s)) -> marked s b = false ->
  exists s', allocblock b s = (Going (), s') /\ map_set s s' (fun i => (i =? b) || marked s i).
Proof. intros Hb Hr Hm. pose proof (allocblock_eq b s Hb Hr) as H. by rewrite Hm in H. Qed.

Lemma within_spec first k i : within first k i = true <-> first <= i < first + Z.of_nat k.
Proof. unfold within. rewrite andb_true_iff, Z.leb_le, Z.ltb_lt. done. Qed.

(** Everything up to the blocks past the end. *)
Lemma initfreemap_head n s :
  1 <= n <= 131072 -> bytes (freemapbuf s) -> Z.of_nat (length (freemapbuf s)) = 16384 ->
  (forall i, 0 <= i -> marked s i = false) ->
  exists s', initfreemap n s = alloc_blocks n (Z.to_nat ((n + 4095) / 4096 * 4096 - n)) s' /\
    map_set s s' (fun i => i <? reserved n).
Proof.
  intros Hn Hb Hl Hz. destruct (freemap_sizes n) as [Hbits Hblocks]; [lia|]. unfold initfreemap. rewrite Hbits, Hblocks.
  rewrite Z.gtb_ltb, (proj2 (Z.ltb_ge _ _)) by (unfold MAXFREEMAPBLOCKS; lia).
  destruct (allocblock_ok SFS_SUPER_BLOCK s) as (s1 & E1 & H1); [done|unfold SFS_SUPER_BLOCK; lia|by apply Hz|].
  rewrite (U_bind_eq _ _ _ _ _ E1). pose proof (ms_len _ _ _ H1) as L1.
  destruct (allocblock_ok SFS_ROOTDIR_INO s1) as (s2 & E2 & H2); [apply H1|unfold SFS_ROOTDIR_INO; lia| |].
  { rewrite (ms_bits _ _ _ H1), Hz by done. done. }
  rewrite (U_bind_eq _ _ _ _ _ E2). pose proof (ms_len _ _ _ H2) as L2.
  destruct (alloc_blocks_eq (Z.to_nat ((n + 4095) / 4096)) SFS_FREEMAP_START s2) as (s3 & E3 & H3);
    [apply H2|done|unfold SFS_FREEMAP_START; lia| |].
  { intros i Hi%within_spec. unfold SFS_FREEMAP_START in Hi. rewrite (ms_bits _ _ _ H2), (ms_bits _ _ _ H1), Hz by lia.
    unfold SFS_ROOTDIR_INO, SFS_SUPER_BLOCK. by rewrite !(proj2 (Z.eqb_neq _ _)) by lia. }
  rewrite (U_bind_eq _ _ _ _ _ E3). exists s3. split; [done|].
  eapply map_set_trans; [exact H1|]. eapply map_set_trans; [exact H2|]. eapply map_set_ext; [exact H3|].
  intros i Hi. cbv beta. rewrite (ms_bits _ _ _ H2), (ms_bits _ _ _ H1), Hz, orb_false_r by lia.
  unfold reserved. apply eq_true_iff_eq. rewrite !orb_true_iff, within_spec, !Z.eqb_eq, Z.ltb_lt.
  unfold SFS_FREEMAP_START, SFS_ROOTDIR_INO, SFS_SUPER_BLOCK. lia.
Qed.

Lemma initfreemap_ok n s :
  3 <= n <= 131072 -> bytes (freemapbuf s) -> Z.of_nat (length (freemapbuf s)) = 16384 ->
  (forall i, 0 <= i -> marked s i = false) ->
  exists s', initfreemap n s = (Going (), s') /\ map_set s s' (new_map n).
Proof.
  intros Hn Hb Hl Hz. destruct (initfreemap_head n s) as (s1 & -> & H1); [lia|done..|].
  destruct (alloc_blocks_eq (Z.to_nat ((n + 4095) / 4096 * 4096 - n)) n s1) as (s2 & E2 & H2).
  - apply H1.
  - lia.
  - rewrite (ms_len _ _ _ H1). lia.
  - intros i Hi%within_spec. rewrite (ms_bits _ _ _ H1) by lia. apply Z.ltb_ge. unfold reserved. lia.
  - exists s2. split; [done|]. eapply map_set_trans; [exact H1|]. eapply map_set_ext; [exact H2|].
    intros i Hi. cbv beta. rewrite (ms_bits _ _ _ H1) by lia. unfold new_map, reserved. apply eq_true_iff_eq.
    rewrite andb_true_iff, !orb_true_iff, within_spec, !Z.ltb_lt, Z.leb_le. lia.
Qed.

(** There must be room for the freemap. *)
Lemma initfreemap_small n s :
  1 <= n <= 2 -> bytes (freemapbuf s) -> Z.of_nat (length (freemapbuf s)) = 16384 ->
  (forall i, 0 <= i -> marked s i = false) ->
  exists s', initfreemap n s = (Aborted, s') /\ img s' = img s.
Proof.
  intros Hn Hb Hl Hz. destruct (initfreemap_head n s) as (s1 & -> & H1); [lia|done..|]. exists s1.
  split; [|by apply H1]. destruct (Z.to_nat _) as [|k] eqn:Hk; [lia|]. cbn [alloc_blocks].
  pose proof (allocblock_eq n s1) as Ha. rewrite (ms_len _ _ _ H1), (ms_bits _ _ _ H1) in Ha by lia.
  rewrite (proj2 (Z.ltb_lt n _)) in Ha by (unfold reserved; lia). unfold mbind, U_bind. rewrite Ha; [done|apply H1|lia].
Qed.

Lemma initfreemap_large n s : 131072 < n < 2 ^ 31 -> initfreemap n s = (Exited 1, s).
Proof.
  intros Hn. destruct (freemap_sizes n) as [Hbits Hblocks]; [lia|]. unfold initfreemap. rewrite Hblocks.
  rewrite (proj2 (Z.gtb_gt _ _)) by (unfold MAXFREEMAPBLOCKS; lia). done.
Qed.

(** ** The name *)

(** The name that is asked for: a colon at the end is dropped; other colons, and
    slashes, are not allowed. *)
Definition strip (l : list Z) : list Z := match last l with Some 58 => take (pred (length l)) l | _ => l end.
Definition label (l : list Z) : option (list Z) := if decide (58 ∈ strip l \/ 47 ∈ strip l) then None else Some (strip l).

Lemma strchr_first s ch :
  is_str s -> ch <> 0 ->
  ((ch ∉ cstr s) /\ strchr s ch = Done None) \/
  exists a b, cstr s = a ++ ch :: b /\ (ch ∉ a) /\ strchr s ch = Done (Some (Z.of_nat (length a))).
Proof.
  intros Hs Hch. induction s as [|c s IH]; [by apply not_elem_of_nil in Hs|]. cbn [strchr cstr].
  apply is_str_cons in Hs as [->|[Hc Hs]].
  - left. rewrite Z.eqb_refl, (proj2 (Z.eqb_neq 0 ch)) by congruence. split; [apply not_elem_of_nil|done].
  - rewrite (proj2 (Z.eqb_neq c 0)) by done. destruct (Z.eqb_spec c ch) as [->|Hne].
    + right. exists [], (cstr s). split; [done|]. split; [apply not_elem_of_nil|done].
    + destruct (IH Hs) as [[Hn ->]|(a & b & -> & Ha & ->)].
      * left. split; [|done]. rewrite elem_of_cons. intros [?|?]; [congruence|done].
      * right. exists (c :: a), b. split; [done|]. split; [rewrite elem_of_cons; intros [?|?]; [congruence|done]|].
        cbn [mbind outcome_bind length]. do 3 f_equal. lia.
Qed.

(** The end of [volume_name]. *)
Lemma no_slash v s :
  is_str v ->
  (f ← pure (strchr v 47); match f with Some _ => errx | None => mret v end) s =
    (if decide (47 ∈ cstr v) then Exited 1 else Going v, s).
Proof.
  intros Hv. unfold pure, mbind, U_bind. destruct (strchr_first v 47 Hv) as [[Hn ->]|(a & b & He & _ & ->)]; [done|..].
  - by rewrite decide_False.
  - rewrite decide_True; [done|]. rewrite He. apply elem_of_app. right. apply elem_of_cons. by left.
Qed.

Lemma strip_plain l : 58 ∉ l -> strip l = l.
Proof.
  intros H. unfold strip. destruct (last l) as [c|] eqn:Hl; [|done]. apply last_Some_elem_of in Hl.
  assert (c <> 58) by (intros ->; done). repeat (case_match; try done).
Qed.

Lemma strip_inner a b : b <> [] -> 58 ∈ strip (a ++ 58 :: b).
Proof.
  intros Hb. destruct (exists_last Hb) as (b' & c & ->). unfold strip.
  assert (Hin : 58 ∈ a ++ 58 :: b') by (apply elem_of_app; right; apply elem_of_cons; by left).
  assert (Hl : a ++ 58 :: b' ++ [c] = (a ++ 58 :: b') ++ [c]) by by rewrite <- app_assoc.
  rewrite Hl, last_snoc, length_app, Nat.add_comm. cbn [length Nat.add pred]. rewrite take_app_length.
  assert (58 ∈ (a ++ 58 :: b') ++ [c]) by (apply elem_of_app; by left). repeat (case_match; try done).
Qed.

Lemma volume_name_eq volname s :
  is_str volname ->
  match label (cstr volname) with
  | Some name => exists v', volume_name volname s = (Going v', s) /\ is_str v' /\ cstr v' = name
  | None => volume_name volname s = (Exited 1, s)
  end.
Proof.
  intros Hs. unfold volume_name, label. destruct (strchr_first volname 58 Hs) as [[Hn He]|(a & b & Hab & Ha & He)]; [done|..].
  - rewrite !strip_plain by done. erewrite U_bind_eq; [|unfold pure; by rewrite He]. cbv iota.
    erewrite U_bind_eq; [|reflexivity]. rewrite no_slash by done.
    destruct (decide (47 ∈ cstr volname)); [rewrite decide_True by tauto; done|]. rewrite decide_False by tauto. by eexists.
  - destruct (is_str_split volname Hs) as [r Hr]. rewrite Hab in Hr |- *. rewrite <- app_assoc in Hr. cbn [app] in Hr.
    erewrite U_bind_eq; [|unfold pure; by rewrite He]. cbv iota. rewrite Nat2Z.id.
    assert (Hd : drop (length a) volname = 58 :: b ++ 0 :: r) by (rewrite Hr; by apply drop_app_length).
    pose proof (Forall_cstr volname) as Hnz. rewrite Hab in Hnz. apply Forall_app in Hnz as [Hnza Hnzb].
    assert (Hc : cstr (58 :: b ++ 0 :: r) = 58 :: b) by by apply (cstr_app (58 :: b)).
    destruct (decide (b = [])) as [->|Hb].
    + assert (Hst : strip (a ++ [58]) = a).
      { unfold strip. rewrite last_snoc, length_app, Nat.add_comm. cbn [length Nat.add pred]. by apply take_app_length. }
      rewrite Hst. assert (Hi : <[length a := 0]> volname = a ++ 0 :: 0 :: r).
      { rewrite Hr. replace (length a) with (length a + 0)%nat by lia. by rewrite insert_app_r. }
      assert (Hs' : is_str (a ++ 0 :: 0 :: r)) by (apply elem_of_app; right; apply elem_of_cons; by left).
      erewrite U_bind_eq; [|rewrite Hd; unfold pure, mbind, U_bind; rewrite strlen_ok, Hc; [reflexivity|]].
      2: { apply elem_of_cons; right. apply elem_of_app; right. apply elem_of_cons; by left. }
      rewrite Hi, no_slash, cstr_app by done. destruct (decide (47 ∈ a)); [rewrite decide_True by tauto; done|].
      rewrite decide_False by tauto. eexists. split; [done|]. split; [done|]. by apply cstr_app.
    + rewrite decide_True by (left; by apply strip_inner). unfold mbind at 1, U_bind at 1.
      rewrite Hd. unfold pure, mbind, U_bind. rewrite strlen_ok, Hc; [cbn [length]|].
      2: { apply elem_of_cons; right. apply elem_of_app; right. apply elem_of_cons; by left. }
      rewrite (proj2 (Z.eqb_neq _ _)); [done|]. destruct b; [done|]. cbn [length]. lia.
Qed.

Lemma label_bytes volname name : bytes volname -> label (cstr volname) = Some name -> bytes name.
Proof.
  intros Hb Hl. assert (Hc : bytes (cstr volname)).
  { clear Hl. induction Hb as [|c l Hc Hb IH]; cbn; [constructor|]. destruct (c =? 0); [constructor|by constructor]. }
  unfold label in Hl. case_decide; [done|]. injection Hl as <-. unfold strip. repeat (case_match; try done). by apply bytes_take.
Qed.

(** ** The blocks that are written *)

Lemma writefreemap_loop_eq k : forall i s,
  fd_open s = true -> Forall patient (answers s) ->
  ((i + k) * 512 <= length (freemapbuf s))%nat -> ((2 + i + k) * 512 <= length (img s))%nat -> Z.of_nat (2 + i + k) < 2 ^ 20 ->
  exists s', writefreemap_loop k (Z.of_nat i) s = (Going (), s') /\
    disk_set s s' (fun j => if decide (2 + i <= j < 2 + i + k)%nat then Some (blk (freemapbuf s) (j - 2)) else None).
Proof.
  induction k as [|k IH]; intros i s Hf Ha Hm Hl Hn; cbn [writefreemap_loop].
  - exists s. split; [done|]. split; try done. split; [done|]. split; [intros j b; case_decide; [lia|done]|].
    intros q. rewrite decide_False by lia. done.
  - erewrite U_bind_eq; [|reflexivity].
    change (take (Z.to_nat SFS_BLOCKSIZE)) with (take (A := Z) 512).
    replace (Z.to_nat (Z.of_nat i * SFS_BLOCKSIZE)) with (i * 512)%nat by (unfold SFS_BLOCKSIZE; lia).
    fold (blk (freemapbuf s) i). replace (SFS_FREEMAP_START + Z.of_nat i) with (Z.of_nat (2 + i)) by (unfold SFS_FREEMAP_START; lia).
    destruct (diskwrite_eq (blk (freemapbuf s) i) (2 + i) s) as (s1 & E1 & H1); [done|done| |lia|lia|].
    { unfold blk. rewrite length_take, length_drop. lia. }
    rewrite (U_bind_eq _ _ _ _ _ E1). replace (Z.of_nat i + 1) with (Z.of_nat (S i)) by lia.
    pose proof (proj1 (ds_img _ _ _ H1)) as Hl1.
    destruct (IH (S i) s1) as (s2 & -> & H2).
    + by rewrite (ds_fd _ _ _ H1).
    + apply H1.
    + rewrite (ds_map _ _ _ H1). lia.
    + lia.
    + lia.
    + exists s2. split; [done|]. eapply disk_set_trans; [exact H1|exact H2|]. intros j. cbv beta.
      rewrite (ds_map _ _ _ H1). repeat case_decide; try done; try lia. subst j. do 2 f_equal. lia.
Qed.

Definition root_dinode : sfs_dinode := mkDinode 0 SFS_TYPE_DIR 1 (zeros 15) 0 (zeros 110).
Definition new_super (name : list Z) (n : Z) : sfs_superblock :=
  mkSuper SFS_MAGIC n (name ++ zeros (32 - length name)) (zeros 118).

Lemma root_dinode_wf : dinode_wf root_dinode.
Proof. split; cbn -[zeros]; try lia; try (by split); (split; [done|]); apply Forall_replicate; lia. Qed.

Lemma new_super_wf name n :
  (length name < 32)%nat -> bytes name -> 0 < n < 2 ^ 31 -> sb_wf (new_super name n).
Proof.
  intros Hl Hb Hn. split; cbn -[zeros]; [done|done| |split; [done|apply Forall_replicate; lia]]. split_and!.
  - rewrite length_app, length_zeros. lia.
  - apply Forall_app. split; [done|apply bytes_zeros].
  - rewrite lookup_app_r by lia. apply lookup_replicate. lia.
Qed.

(** What is on the disk afterwards, block by block. *)
Definition new_blocks (name : list Z) (n : Z) (buf : list Z) (j : nat) : option (list Z) :=
  if decide (j = 0)%nat then Some (super_bytes (new_super name n)) else
  if decide (j = 1)%nat then Some (dinode_bytes root_dinode) else
  if decide (Z.of_nat j < reserved n) then Some (blk buf (j - 2)) else None.

Lemma new_blocks_join name n buf j (k := Z.to_nat ((n + 4095) / 4096)) :
  new_blocks name n buf j =
    match (if decide (j = 1)%nat then Some (dinode_bytes root_dinode) else None) with
    | Some b => Some b
    | None =>
        match (if decide (2 + 0 <= j < 2 + 0 + k)%nat then Some (blk buf (j - 2)) else None) with
        | Some b => Some b
        | None => if decide (j = 0)%nat then Some (super_bytes (new_super name n)) else None
        end
    end.
Proof.
  unfold new_blocks, reserved, k. generalize ((n + 4095) / 4096) (blk buf (j - 2)) (dinode_bytes root_dinode) (super_bytes (new_super name n)).
  intros. repeat case_decide; try reflexivity; exfalso; lia.
Qed.

Lemma writesuper_eq v n s :
  is_str v -> fd_open s = true -> Forall patient (answers s) -> (512 <= length (img s))%nat -> 0 < n < 2 ^ 31 -> bytes (cstr v) ->
  if (32 <=? length (cstr v))%nat then writesuper v n s = (Exited 1, s)
  else exists s', writesuper v n s = (Going (), s') /\
    disk_set s s' (fun j => if decide (j = 0)%nat then Some (super_bytes (new_super (cstr v) n)) else None).
Proof.
  intros Hv Hf Ha Hl Hn Hb. unfold writesuper. erewrite U_bind_eq; [|unfold pure; by rewrite strlen_ok].
  unfold SFS_VOLNAME_SIZE. destruct (Nat.leb_spec 32 (length (cstr v))) as [H|H].
  - rewrite Z.geb_leb, (proj2 (Z.leb_le _ _)) by lia. done.
  - rewrite Z.geb_leb, (proj2 (Z.leb_gt _ _)) by lia.
    erewrite U_bind_eq; [|unfold pure; rewrite strcpy_ok; [reflexivity|done|by rewrite length_zeros]].
    assert (He : cstr v ++ 0 :: drop (S (length (cstr v))) (zeros (Z.to_nat 32)) = cstr v ++ zeros (32 - length (cstr v))).
    { f_equal. change (Z.to_nat 32) with 32%nat. unfold zeros. rewrite drop_replicate.
      by replace (32 - length (cstr v))%nat with (S (32 - S (length (cstr v)))) by lia. }
    rewrite He. apply (diskwrite_eq _ 0%nat); [done|done| |lia|lia].
    by apply length_super_bytes, new_super_wf.
Qed.

(** ** [main] *)

Section Main.
Context (volname disk : list Z) (ans : list write_answer) (n : Z).
Hypothesis Hstr : is_str volname.
Hypothesis Hbytes : bytes volname.
Hypothesis Hn : Z.of_nat (length disk / 512) = n.
Hypothesis Hbig : 1 <= n < 2 ^ 31.

(** The state in which the map is made. *)
Definition opened : prog := set_disk true n (new_prog disk ans).

(** [main] up to there. *)
Lemma main_opened name :
  label (cstr volname) = Some name ->
  exists v, is_str v /\ cstr v = name /\
    main volname (new_prog disk ans) =
      (initfreemap n;; writesuper v n;; writefreemap n;; writerootdir;; closedisk;; mret 0) opened.
Proof.
  intros Hl. pose proof (volume_name_eq volname (new_prog disk ans) Hstr) as Hv. rewrite Hl in Hv.
  destruct Hv as (v & Hv & Hs & Hc). exists v. split; [done|]. split; [done|]. unfold main.
  rewrite (U_bind_eq _ _ _ _ _ Hv). erewrite U_bind_eq; [|reflexivity].
  cbn [new_prog img]. replace (Z.of_nat (length disk) / BLOCKSIZE) with n by (unfold BLOCKSIZE; lia).
  rewrite u32_small by lia. reflexivity.
Qed.

Lemma opened_map : bytes (freemapbuf opened) /\ Z.of_nat (length (freemapbuf opened)) = 16384 /\ forall i, 0 <= i -> marked opened i = false.
Proof. split; [apply bytes_zeros|]. split; [apply freemap_size|apply new_prog_map]. Qed.

Lemma reserved_room : 3 <= n -> reserved n <= n.
Proof. unfold reserved. lia. Qed.

Lemma main_ok name :
  label (cstr volname) = Some name -> (length name < 32)%nat -> bytes name -> 3 <= n <= 131072 -> Forall patient ans ->
  exists s' buf, main volname (new_prog disk ans) = (Going 0, s') /\ blocks_set disk (img s') (new_blocks name n buf) /\
    Z.of_nat (length buf) = 16384 /\ bytes buf /\ forall i, 0 <= i -> bit (mkBitmap 0 buf) i = new_map n i.
Proof.
  intros Hl Hlen Hb Hr Ha. destruct (main_opened name Hl) as (v & Hv & Hc & ->).
  destruct opened_map as (M1 & M2 & M3). pose proof (reserved_room ltac:(lia)) as Hroom.
  destruct (freemap_sizes n) as [_ Hblocks]; [lia|].
  destruct (initfreemap_ok n opened) as (s1 & E1 & H1); [done..|]. rewrite (U_bind_eq _ _ _ _ _ E1).
  pose proof (ms_img _ _ _ H1) as I1. cbn in I1. pose proof (ms_len _ _ _ H1) as L1.
  pose proof (writesuper_eq v n s1) as Hw. rewrite Hc in Hw. rewrite (proj2 (Nat.leb_gt _ _)) in Hw by done.
  destruct Hw as (s2 & E2 & H2); [done|apply H1|by rewrite (ms_ans _ _ _ H1)|rewrite I1; lia|lia|done|].
  rewrite (U_bind_eq _ _ _ _ _ E2). pose proof (proj1 (ds_img _ _ _ H2)) as L2.
  set (k := Z.to_nat ((n + 4095) / 4096)). unfold reserved in Hroom.
  destruct (writefreemap_loop_eq k 0 s2) as (s3 & E3 & H3);
    [rewrite (ds_fd _ _ _ H2); apply H1|apply H2|rewrite (ds_map _ _ _ H2); lia|rewrite L2, I1; lia|lia|].
  unfold writefreemap. rewrite Hblocks. fold k. rewrite (U_bind_eq _ _ _ _ _ E3). pose proof (proj1 (ds_img _ _ _ H3)) as L3.
  destruct (diskwrite_eq (dinode_bytes root_dinode) 1 s3) as (s4 & E4 & H4);
    [rewrite (ds_fd _ _ _ H3), (ds_fd _ _ _ H2); apply H1|apply H3|by apply dinode_block, root_dinode_wf|rewrite L3, L2, I1; lia|done|].
  unfold writerootdir. change (mkDinode 0 SFS_TYPE_DIR 1 (zeros 15) 0 (zeros 110)) with root_dinode.
  change SFS_ROOTDIR_INO with (Z.of_nat 1). rewrite (U_bind_eq _ _ _ _ _ E4).
  assert (Hf4 : fd_open s4 = true) by (rewrite (ds_fd _ _ _ H4), (ds_fd _ _ _ H3), (ds_fd _ _ _ H2); apply H1).
  eexists _, (freemapbuf s1). split.
  { unfold closedisk. erewrite U_bind_eq; [|erewrite U_bind_eq; [|reflexivity]; rewrite Hf4; reflexivity]. reflexivity. }
  cbn [set_disk img]. split.
  - rewrite <- I1. pose proof (disk_set_trans _ _ _ _ _ _ H2 H3 (fun j => eq_refl)) as H23.
    eapply blocks_set_trans; [apply (ds_img _ _ _ H23)|apply (ds_img _ _ _ H4)|]. intros j.
    rewrite (ds_map _ _ _ H2). unfold k. clear. apply new_blocks_join.
  - split; [lia|]. split; [apply H1|]. apply (ms_bits _ _ _ H1).
Qed.

(** Nothing is written when [main] gives up. *)
Lemma main_refuses :
  match label (cstr volname) with
  | None => exists s', main volname (new_prog disk ans) = (Exited 1, s') /\ img s' = disk
  | Some name =>
      (n <= 2 -> exists s', main volname (new_prog disk ans) = (Aborted, s') /\ img s' = disk) /\
      (131072 < n -> exists s', main volname (new_prog disk ans) = (Exited 1, s') /\ img s' = disk) /\
      (3 <= n <= 131072 -> (32 <= length name)%nat -> bytes name -> Forall patient ans ->
        exists s', main volname (new_prog disk ans) = (Exited 1, s') /\ img s' = disk)
  end.
Proof.
  destruct (label (cstr volname)) as [name|] eqn:Hl.
  - destruct (main_opened name Hl) as (v & Hv & Hc & ->). destruct opened_map as (M1 & M2 & M3). split_and!.
    + intros Hs. destruct (initfreemap_small n opened) as (s1 & E1 & I1); [lia|done..|]. exists s1.
      split; [exact (U_bind_abort _ _ _ _ E1)|exact I1].
    + intros Hs. exists opened.
      split; [|reflexivity]. apply U_bind_exit. apply initfreemap_large. lia.
    + intros Hr Hlen Hb Ha. destruct (initfreemap_ok n opened) as (s1 & E1 & H1); [done..|]. rewrite (U_bind_eq _ _ _ _ _ E1).
      pose proof (writesuper_eq v n s1) as Hw. rewrite Hc, (proj2 (Nat.leb_le 32 _)) in Hw by done. exists s1.
      pose proof (ms_img _ _ _ H1) as I1. cbn in I1. split; [|exact I1]. apply U_bind_exit.
      apply Hw; [done|apply H1|by rewrite (ms_ans _ _ _ H1)|rewrite I1; lia|lia|done].
  - pose proof (volume_name_eq volname (new_prog disk ans) Hstr) as Hv. rewrite Hl in Hv. exists (new_prog disk ans).
    unfold main, mbind at 1, U_bind at 1. by rewrite Hv.
Qed.
End Main.

(** ** The volume that is mounted *)

Definition new_fs (name : list Z) (n : Z) (buf disk : list Z) : sfs_fs :=
  mkFs (new_super name n) false (lhd_of disk) (mkBitmap ((n + 4095) / 4096 * 4096) (take (Z.to_nat ((n + 4095) / 4096) * 512) buf)) false.

Lemma lhd_lookup disk i :
  0 <= i < Z.of_nat (length disk / 512) -> lh_sectors (lhd_of disk) !! i = Some (blk disk (Z.to_nat i)).
Proof.
  intros Hi. unfold lhd_of. cbn [lh_sectors]. apply elem_of_list_to_map_1.
  - rewrite <- list_fmap_compose. apply NoDup_fmap; [|apply NoDup_seq]. intros a b. cbn. lia.
  - apply list_elem_of_fmap. exists (Z.to_nat i). split; [by rewrite Z2Nat.id by lia|]. apply elem_of_seq. lia.
Qed.

Lemma lhd_sector disk i : 0 <= i < Z.of_nat (length disk / 512) -> sector (lhd_of disk) i = blk disk (Z.to_nat i).
Proof. intros Hi. unfold sector. by rewrite lhd_lookup. Qed.

Lemma lhd_of_wf disk : bytes disk -> Z.of_nat (length disk / 512) < 2 ^ 31 -> lhd_wf (lhd_of disk).
Proof.
  intros Hb Hl. split; [cbn [lhd_of d_blocks]; lia|]. intros i Hi. cbn [lhd_of d_blocks] in Hi. eexists. split; [by apply lhd_lookup|]. split.
  - unfold blk. rewrite length_take, length_drop. lia.
  - apply bytes_take. by apply bytes_drop.
Qed.

Section Mounted.
Context (name disk buf disk' : list Z) (n : Z).
Hypothesis Hname : (length name < 32)%nat.
Hypothesis Hnb : bytes name.
Hypothesis Hn : Z.of_nat (length disk / 512) = n.
Hypothesis Hr : 3 <= n <= 131072.
Hypothesis Hd : bytes disk.
Hypothesis Hbuf : Z.of_nat (length buf) = 16384 /\ bytes buf /\ forall i, 0 <= i -> bit (mkBitmap 0 buf) i = new_map n i.
Hypothesis Hset : blocks_set disk disk' (new_blocks name n buf).

Let fs := new_fs name n buf disk'.

Lemma used_new b : 0 <= b < (n + 4095) / 4096 * 4096 -> used fs b = ((b <? reserved n) || (n <=? b)).
Proof.
  intros Hb. destruct Hbuf as (L & _ & H). unfold used, bit, fs, new_fs. cbn [sfs_freemap v].
  rewrite lookup_take_lt by lia. specialize (H b ltac:(lia)). unfold bit in H. cbn [v] in H. rewrite H. unfold new_map.
  rewrite (proj2 (Z.ltb_lt b ((n + 4095) / 4096 * 4096))) by lia. apply andb_true_r.
Qed.

Lemma disk'_bytes : bytes disk'.
Proof.
  apply (blocks_set_bytes disk disk' _ Hd Hset). intros j b. unfold new_blocks. repeat case_decide; intros [= <-].
  - apply length_super_bytes, new_super_wf; [done..|lia].
  - apply dinode_block, root_dinode_wf.
  - apply bytes_take. apply bytes_drop. apply Hbuf.
Qed.

Lemma disk'_length : Z.of_nat (length disk' / 512) = n.
Proof. by rewrite (proj1 Hset). Qed.

Lemma sector_new b : 0 <= b < n -> fsector fs b = match new_blocks name n buf (Z.to_nat b) with Some x => x | None => blk disk (Z.to_nat b) end.
Proof.
  intros Hb. unfold fsector, fs, new_fs. cbn [sfs_device]. rewrite lhd_sector by (rewrite disk'_length; lia).
  apply (blocks_set_blk _ _ _ _ Hset).
Qed.

Lemma new_fs_wf : fs_wf fs.
Proof.
  assert (Hl : length (take (Z.to_nat ((n + 4095) / 4096) * 512) buf) = (Z.to_nat ((n + 4095) / 4096) * 512)%nat)
    by (rewrite length_take; lia).
  split.
  - apply lhd_of_wf; [apply disk'_bytes|rewrite disk'_length; lia].
  - done.
  - split; unfold fs, new_fs; cbn [sfs_freemap nbits v].
    + lia.
    + rewrite Hl. lia.
    + apply bytes_take. apply Hbuf.
    + rewrite Hl. lia.
  - unfold fs, nblocks; cbn -[Nat.div]. rewrite disk'_length. lia.
  - unfold fs, nblocks; cbn -[Z.mul]. lia.
  - intros b Hb. change (n <= b < (n + 4095) / 4096 * 4096) in Hb. rewrite used_new by lia. rewrite (proj2 (Z.leb_le n b)) by lia.
    apply orb_true_r.
  - rewrite used_new by lia. unfold reserved. rewrite (proj2 (Z.ltb_lt _ _)) by lia. done.
Qed.

Lemma fm_blocks_new : fm_blocks fs = Z.to_nat ((n + 4095) / 4096).
Proof. unfold fm_blocks, fs, nblocks. cbn [new_fs sfs_sb new_super sb_nblocks]. destruct (freemap_sizes n) as [_ ->]; [lia|done]. Qed.

Lemma new_fs_layout : layout_ok fs.
Proof.
  split.
  - apply new_super_wf; [done..|lia].
  - unfold fs, nblocks. cbn [new_fs sfs_sb new_super sb_nblocks sfs_freemap nbits]. destruct (freemap_sizes n) as [-> _]; [lia|done].
  - rewrite fm_blocks_new. unfold fs, nblocks. cbn [new_fs sfs_sb new_super sb_nblocks]. lia.
Qed.

Lemma new_fs_current : disk_current fs.
Proof.
  split; intros _.
  - rewrite sector_new by lia. done.
  - rewrite fm_blocks_new. intros j Hj. rewrite sector_new by lia. unfold new_blocks.
    rewrite !decide_False by lia. rewrite decide_True by (unfold reserved; lia).
    unfold fs, new_fs. cbn [sfs_freemap v]. replace (Z.to_nat (2 + Z.of_nat j) - 2)%nat with j by lia. unfold blk.
    apply list_eq. intros q. destruct (decide (q < 512)%nat) as [Hq|Hq].
    + by rewrite !lookup_take_lt, !lookup_drop, lookup_take_lt by lia.
    + rewrite !lookup_ge_None_2; [done|..]; rewrite length_take; lia.
Qed.

(** The root directory. *)
Definition root_sv : sfs_vnode := mkSv root_dinode SFS_ROOTDIR_INO false.
Definition mounted : mount := mkMount fs ∅ [] 0 [].
Definition root_mounted : mount := mkMount fs {[0 := mkVobj root_sv sfs_dirops 1]} [0] 1 [].

Lemma getroot_new : sfs_getroot mounted = Done (Ok 0, root_mounted).
Proof.
  pose proof new_fs_wf as H. unfold sfs_getroot, sfs_loadvnode. cbn [mounted sfs_vnodes find_vnode]. kred.
  unfold kmalloc. cbn [mounted m_mem m_fs]. kred.
  destruct (bused_ok fs SFS_ROOTDIR_INO H) as (r & Hu & Hr0).
  { unfold fs, nblocks, SFS_ROOTDIR_INO. cbn [new_fs sfs_sb new_super sb_nblocks]. lia. }
  { unfold SFS_ROOTDIR_INO. rewrite used_new by lia. rewrite (proj2 (Z.ltb_lt _ _)) by (unfold reserved; lia). done. }
  rewrite Hu. kred. rewrite Hr0. change (Z.to_nat SFS_BLOCKSIZE) with 512%nat. unfold SFS_ROOTDIR_INO.
  rewrite sfs_readblock_ok; [kred|done|unfold fs, nblocks; cbn [new_fs sfs_sb new_super sb_nblocks]; lia|apply length_zeros].
  rewrite sector_new by lia. change (new_blocks name n buf (Z.to_nat 1)) with (Some (dinode_bytes root_dinode)). cbv iota.
  rewrite dinode_roundtrip by apply root_dinode_wf. reflexivity.
Qed.

Lemma root_ptrs k b : ptrs fs root_sv !! k = Some b -> b = 0.
Proof.
  unfold ptrs, iptrs. cbn [root_sv sv_i root_dinode sfi_direct sfi_indirect]. rewrite Z.eqb_refl.
  change (zeros 15 ++ replicate 128 0) with (replicate 143 0). by intros [-> _]%lookup_replicate.
Qed.

Lemma root_wf : sv_wf fs root_sv /\ dir_wf fs root_sv /\ entries fs root_sv = [].
Proof.
  assert (He : entries fs root_sv = []) by reflexivity. split; [split|split; [split|done]].
  - done.
  - intros b [Hb [[k Hk]%list_elem_of_lookup|Hi]]; [|done]. by apply root_ptrs in Hk.
  - intros i j b Hi _ Hb. by apply root_ptrs in Hi.
  - done.
  - done.
  - done.
  - done.
  - rewrite He. intros i j nm x y [Hi _]. done.
Qed.
End Mounted.

(** ** The theorems *)

(** A file system that mksfs has made mounts, and is empty.  On a disk of 3 to 131072
    blocks, with a name that fits, and however the host cuts up the writes, mksfs
    ends with 0, and has left alone the blocks that it does not use itself.  The
    kernel mounts the disk under that name, with a volume that satisfies its
    invariants and has nothing to write back.  Blocks are in use exactly up to the
    end of the freemap, and the root is a directory without entries. *)
Theorem mksfs_mounts volname disk ans name :
  is_str volname -> bytes volname -> label (cstr volname) = Some name -> (length name < 32)%nat ->
  bytes disk -> 3 <= Z.of_nat (length disk / 512) <= 131072 -> Forall patient ans ->
  let n := Z.of_nat (length disk / 512) in
  exists s', main volname (new_prog disk ans) = (Going 0, s') /\
    length (img s') = length disk /\
    (forall q, reserved n * 512 <= Z.of_nat q -> img s' !! q = disk !! q) /\
    exists m m' o, sfs_domount [] SFS_BLOCKSIZE (lhd_of (img s')) = Done (Ok m, lhd_of (img s')) /\
      fs_wf (m_fs m) /\ layout_ok (m_fs m) /\ disk_current (m_fs m) /\
      sb_volname (sfs_sb (m_fs m)) = name ++ zeros (32 - length name) /\ nblocks (m_fs m) = n /\
      (forall b, 0 <= b < n -> used (m_fs m) b = (b <? reserved n)) /\
      sfs_getroot m = Done (Ok 0, m') /\ m_fs m' = m_fs m /\ m_objs m' !! 0 = Some o /\
      sv_wf (m_fs m) (vo_sv o) /\ dir_wf (m_fs m) (vo_sv o) /\ entries (m_fs m) (vo_sv o) = [].
Proof.
  intros Hs Hv Hl Hlen Hd Hr Ha n. pose proof (label_bytes volname name Hv Hl) as Hb.
  destruct (main_ok volname disk ans n Hs eq_refl ltac:(lia) name Hl Hlen Hb Hr Ha) as (s' & buf & He & Hset & H1 & H2 & H3).
  exists s'. split; [done|]. split; [apply Hset|]. split.
  { intros q Hq. destruct Hset as (_ & _ & ->). unfold new_blocks. rewrite !decide_False by (unfold reserved in *; lia). done. }
  set (disk' := img s') in *. set (fs := new_fs name n buf disk').
  assert (Hbuf : Z.of_nat (length buf) = 16384 /\ bytes buf /\ forall i, 0 <= i -> bit (mkBitmap 0 buf) i = new_map n i) by done.
  pose proof (new_fs_wf name disk buf disk' n Hlen Hb eq_refl Hr Hd Hbuf Hset) as W.
  assert (L : layout_ok fs) by by eapply new_fs_layout.
  assert (C : disk_current fs) by by eapply new_fs_current.
  exists (mounted name buf disk' n), (root_mounted name buf disk' n), (mkVobj root_sv sfs_dirops 1).
  split_and!; try done.
  - by apply (domount_ok fs).
  - intros b Hbn. change (used fs b = (b <? reserved n)).
    unfold fs. rewrite (used_new name disk buf disk' n) by (done || lia). rewrite (proj2 (Z.leb_gt n b)) by lia. apply orb_false_r.
  - by apply (getroot_new name disk buf disk' n).
  - by apply root_wf.
  - by apply root_wf.
Qed.

(** mksfs writes nothing when it does not go through: it exits with 1 for a name with a
    slash or a colon inside, a volume that is too large for its map, and a name that
    is too long, and fails an assertion on a volume without room for its freemap. *)
Theorem mksfs_refuses volname disk ans :
  is_str volname -> bytes volname -> let n := Z.of_nat (length disk / 512) in 1 <= n < 2 ^ 31 -> Forall patient ans ->
  let refuses e := exists s', main volname (new_prog disk ans) = (e, s') /\ img s' = disk in
  match label (cstr volname) with
  | None => refuses (Exited 1)
  | Some name =>
      (n <= 2 -> refuses Aborted) /\ (131072 < n -> refuses (Exited 1)) /\
      (3 <= n <= 131072 -> (32 <= length name)%nat -> refuses (Exited 1))
  end.
Proof.
  intros Hs Hb n Hn Ha refuses. pose proof (main_refuses volname disk ans n Hs eq_refl Hn) as H.
  destruct (label (cstr volname)) as [name|] eqn:Hl; [|done]. destruct H as (H1 & H2 & H3). split_and!; try done.
  intros Hr Hlen. apply H3; try done. by eapply label_bytes.
Qed.

(** The rounding in [SFS_FREEMAPBITS] wraps for the largest disks: they are not found
    too large, and get a volume that has no freemap. *)
Theorem freemap_wraps n s :
  2 ^ 32 - 4096 < n < 2 ^ 32 -> bytes (freemapbuf s) -> Z.of_nat (length (freemapbuf s)) = 16384 ->
  (forall i, 0 <= i -> marked s i = false) ->
  SFS_FREEMAPBLOCKS n = 0 /\
  exists s', initfreemap n s = (Going (), s') /\ forall i, 0 <= i -> marked s' i = (i <? 2).
Proof.
  intros Hn Hb Hl Hz. assert (H0 : SFS_FREEMAPBITS n = 0).
  { unfold SFS_FREEMAPBITS, SFS_BITSPERBLOCK. replace (u32 (n + 4096)) with (n + 4096 - 2 ^ 32) by (unfold u32; lia).
    rewrite (u32_small (n + 4096 - 2 ^ 32 - 1)) by lia. rewrite Z.div_small by lia. done. }
  assert (H1 : SFS_FREEMAPBLOCKS n = 0) by (unfold SFS_FREEMAPBLOCKS; by rewrite H0). split; [done|].
  unfold initfreemap. rewrite H0, H1. change (0 >? MAXFREEMAPBLOCKS) with false. cbv iota.
  destruct (allocblock_ok SFS_SUPER_BLOCK s) as (s1 & E1 & M1); [done|unfold SFS_SUPER_BLOCK; lia|by apply Hz|].
  rewrite (U_bind_eq _ _ _ _ _ E1). pose proof (ms_len _ _ _ M1) as L1.
  destruct (allocblock_ok SFS_ROOTDIR_INO s1) as (s2 & E2 & M2); [apply M1|unfold SFS_ROOTDIR_INO; lia| |].
  { rewrite (ms_bits _ _ _ M1), Hz by done. done. }
  rewrite (U_bind_eq _ _ _ _ _ E2). replace (Z.to_nat (0 - n)) with 0%nat by lia. exists s2. split; [done|].
  intros i Hi. rewrite (ms_bits _ _ _ M2), (ms_bits _ _ _ M1), Hz by done. unfold SFS_ROOTDIR_INO, SFS_SUPER_BLOCK.
  apply eq_true_iff_eq. rewrite !orb_true_iff, !Z.eqb_eq, Z.ltb_lt. split; [intros [?|[?|?]]; lia|].
  intros Hi2. assert (i = 1 \/ i = 0) as [?|?] by lia; auto.
Qed.

(** On a disk without any block mksfs says that all is well. *)
Example mksfs_empty : fst (main [97; 0] (new_prog [] [])) = Going 0.
Proof. by vm_compute. Qed.

(** A disk of three blocks and a bit; the first write takes 100 bytes. *)
Definition small_disk : list Z := zeros 1600.
Definition slow_host : list write_answer := [Refused EINTR; Wrote 100; Refused EAGAIN; Wrote 600].

Lemma mksfs_mounts_witness : exists s' m, main [97; 58; 0] (new_prog small_disk slow_host) = (Going 0, s') /\
  sfs_domount [] SFS_BLOCKSIZE (lhd_of (img s')) = Done (Ok m, lhd_of (img s')) /\
  sb_volname (sfs_sb (m_fs m)) = 97 :: zeros 31 /\ nblocks (m_fs m) = 3 /\ used (m_fs m) 2 = true.
Proof.
  destruct (mksfs_mounts [97; 58; 0] small_disk slow_host [97]) as (s' & H1 & _ & _ & m & m' & o & H2 & _ & _ & _ & H3 & H4 & H5 & _).
  - apply (bool_decide_unpack _). vm_compute. exact I.
  - apply (bool_decide_unpack _). vm_compute. exact I.
  - reflexivity.
  - cbn. lia.
  - apply (bool_decide_unpack _). vm_compute. exact I.
  - vm_compute. split; discriminate.
  - apply (bool_decide_unpack _). vm_compute. exact I.
  - exists s', m. split; [exact H1|]. split; [exact H2|]. split; [exact H3|]. split; [exact H4|]. apply (H5 2). vm_compute. split; [discriminate|reflexivity].
Defined.

Lemma mksfs_refuses_witness : exists s', main [97; 58; 98; 0] (new_prog small_disk []) = (Exited 1, s') /\ img s' = small_disk.
Proof.
  refine (mksfs_refuses [97; 58; 98; 0] small_disk [] _ _ _ _).
  - apply (bool_decide_unpack _). vm_compute. exact I.
  - apply (bool_decide_unpack _). vm_compute. exact I.
  - vm_compute. split; [discriminate|reflexivity].
  - constructor.
Defined.

Lemma freemap_wraps_witness : exists s', initfreemap (2 ^ 32 - 1) (new_prog [] []) = (Going (), s') /\ marked s' 2 = false.
Proof.
  destruct (freemap_wraps (2 ^ 32 - 1) (new_prog [] [])) as (_ & s' & H1 & H2).
  - lia.
  - apply bytes_zeros.
  - apply freemap_size.
  - apply new_prog_map.
  - exists s'. split; [exact H1|]. rewrite (H2 2 ltac:(lia)). reflexivity.
Defined.
