(* ===== verification/Vfs.v ===== *)
(** * kern/vfs: path names, the current directory and the table of devices

    [S] is the state of the file systems behind [Vops], [v_s] below.  The rest of
    the state is vfslookup.c's [bootfs_vnode], vfslist.c's device table and big
    lock, and the current directory of every process.  A path is a terminated
    string; as getdevice may write into it, the functions on paths hand it back. *)

From S2P Require Import Prelude Synch Cstring CopyInOut Uio Vop.

(** ** State *)

Inductive kdfs := NO_FS | SWAP_FS | FS (fs : Z).

#[export] Instance kdfs_eq_dec : EqDecision kdfs.
Proof. solve_decision. Defined.

Record knowndev := mkKd {
  kd_name : list Z;
  kd_rawname : option (list Z);
  kd_device : option Z;
  kd_vnode : Z;
  kd_fs : kdfs }.

Definition set_kd_fs (kd : knowndev) (fs : kdfs) : knowndev :=
  mkKd (kd_name kd) (kd_rawname kd) (kd_device kd) (kd_vnode kd) fs.

(** [p_cwd] gives the current directory of a process that has one. *)
Record vfs (S : Type) := mkVfs {
  v_s : S;
  curthread : Z;
  curproc : Z;
  p_cwd : gmap Z Z;
  bootfs_vnode : option Z;
  knowndevs : list knowndev;
  devnumbers : gmap Z Z;
  vfs_biglock : lock;
  vfs_biglock_depth : Z;
  v_mem : list bool }.
Arguments mkVfs {S}. Arguments v_s {S}. Arguments curthread {S}. Arguments curproc {S}.
Arguments p_cwd {S}. Arguments bootfs_vnode {S}. Arguments knowndevs {S}. Arguments devnumbers {S}.
Arguments vfs_biglock {S}. Arguments vfs_biglock_depth {S}. Arguments v_mem {S}.

Definition NAME_MAX : Z := 255.
Definition SLASH : Z := 47.
Definition COLON : Z := 58.

Section Vfs.
Context {S : Type} `{!Vops S} `{!Devices S}.
Implicit Types v : vfs S.
Abbreviation M := (K (vfs S)).

Definition set_s (s : S) v : vfs S :=
  mkVfs s (curthread v) (curproc v) (p_cwd v) (bootfs_vnode v) (knowndevs v) (devnumbers v) (vfs_biglock v)
    (vfs_biglock_depth v) (v_mem v).
Definition set_cwd (d : option Z) v : vfs S :=
  mkVfs (v_s v) (curthread v) (curproc v) (partial_alter (fun _ => d) (curproc v) (p_cwd v)) (bootfs_vnode v)
    (knowndevs v) (devnumbers v) (vfs_biglock v) (vfs_biglock_depth v) (v_mem v).
Definition set_bootfs (d : option Z) v : vfs S :=
  mkVfs (v_s v) (curthread v) (curproc v) (p_cwd v) d (knowndevs v) (devnumbers v) (vfs_biglock v)
    (vfs_biglock_depth v) (v_mem v).
Definition set_devs (l : list knowndev) v : vfs S :=
  mkVfs (v_s v) (curthread v) (curproc v) (p_cwd v) (bootfs_vnode v) l (devnumbers v) (vfs_biglock v)
    (vfs_biglock_depth v) (v_mem v).
Definition set_devnumber (dev n : Z) v : vfs S :=
  mkVfs (v_s v) (curthread v) (curproc v) (p_cwd v) (bootfs_vnode v) (knowndevs v) (<[dev := n]> (devnumbers v))
    (vfs_biglock v) (vfs_biglock_depth v) (v_mem v).
Definition set_biglock (lk : lock) (depth : Z) v : vfs S :=
  mkVfs (v_s v) (curthread v) (curproc v) (p_cwd v) (bootfs_vnode v) (knowndevs v) (devnumbers v) lk depth (v_mem v).
Definition set_mem (mem : list bool) v : vfs S :=
  mkVfs (v_s v) (curthread v) (curproc v) (p_cwd v) (bootfs_vnode v) (knowndevs v) (devnumbers v) (vfs_biglock v)
    (vfs_biglock_depth v) mem.

(** A method of the file systems; one that changes nothing; one with no result. *)
Definition fsop {A} (f : S -> outcome (A * S)) : M A := fun v =>
  '(a, s) ← f (v_s v); Done (a, set_s s v).
Definition fsget {A} (f : S -> outcome A) : M A := fun v => a ← f (v_s v); Done (a, v).
Definition fsdo (f : S -> outcome S) : M unit := fun v => s ← f (v_s v); Done ((), set_s s v).

Definition incref (vn : Z) : M unit := fsdo (fun s => VOP_INCREF s vn).
Definition decref (vn : Z) : M unit := fsdo (fun s => VOP_DECREF s vn).

Definition kmalloc : M bool := fun v => let '(ok, mem) := kalloc (v_mem v) in Done (ok, set_mem mem v).
(** Fresh memory; what it holds is overwritten before it is read. *)
Definition kmalloc_bytes (n : Z) : M (option (list Z)) :=
  ok ← kmalloc; mret (if ok : bool then Some (zeros (Z.to_nat n)) else None).

(** ** vfslist.c: the big lock *)

Definition vfs_biglock_do_i_hold : M bool := gets (fun v => lock_do_i_hold (curthread v) (vfs_biglock v)).

Definition vfs_biglock_acquire : M unit := fun v =>
  lk ← (if negb (lock_do_i_hold (curthread v) (vfs_biglock v)) then lock_acquire (curthread v) (vfs_biglock v)
        else if vfs_biglock_depth v =? 0 then lock_acquire (curthread v) (vfs_biglock v)
        else mret (vfs_biglock v));
  Done ((), set_biglock lk (u32 (vfs_biglock_depth v + 1)) v).

Definition vfs_biglock_release : M unit := fun v =>
  KASSERT (lock_do_i_hold (curthread v) (vfs_biglock v));;
  KASSERT (vfs_biglock_depth v >? 0);;
  let depth := vfs_biglock_depth v - 1 in
  if depth =? 0 then
    '(_, lk) ← lock_release (curthread v) (vfs_biglock v); Done ((), set_biglock lk depth v)
  else Done ((), set_biglock (vfs_biglock v) depth v).

Definition kassert_biglock : M unit := held ← vfs_biglock_do_i_hold; kassert held.

(** [!strcmp(a, b)]. *)
Definition streq (a b : list Z) : M bool := c ← lift (strcmp a b); mret (c =? 0).
Definition streq_opt (a : option (list Z)) (b : list Z) : M bool :=
  match a with Some a => streq a b | None => mret false end.

(** ** vfslist.c: finding devices *)

Fixpoint getroot_loop (l : list knowndev) (devname : list Z) : M (res Z) :=
  match l with
  | [] => mret (Err ENODEV)
  | kd :: l =>
      named ← streq (kd_name kd) devname;
      let rest :=
        if (named : bool) then
          kassert (bool_decide (kd_fs kd = NO_FS));; kassert (bool_decide (kd_rawname kd = None));;
          kassert (bool_decide (is_Some (kd_device kd)));;
          incref (kd_vnode kd);; mret (Ok (kd_vnode kd))
        else
          raw ← streq_opt (kd_rawname kd) devname;
          if (raw : bool) then
            kassert (bool_decide (is_Some (kd_device kd)));;
            incref (kd_vnode kd);; mret (Ok (kd_vnode kd))
          else getroot_loop l devname in
      match kd_fs kd with
      | FS fs =>
          volname ← fsget (fun s => FSOP_GETVOLNAME s fs);
          vol ← (if named then mret true else streq_opt volname devname);
          if (vol : bool) then fsop (fun s => FSOP_GETROOT s fs) else rest
      | _ => if bool_decide (is_Some (kd_rawname kd)) && named then mret (Err ENXIO) else rest
      end
  end.

Definition vfs_getroot (devname : list Z) : M (res Z) :=
  kassert_biglock;;
  l ← gets knowndevs;
  getroot_loop l devname.

Definition vfs_getdevname (fs : Z) : M (option (list Z)) :=
  kassert_biglock;;
  gets (fun v => kd_name <$> List.find (fun kd => bool_decide (kd_fs kd = FS fs)) (knowndevs v)).

(** ** vfscwd.c *)

Definition vfs_getcurdir : M (res Z) :=
  cwd ← gets (fun v => p_cwd v !! curproc v);
  match cwd with
  | Some d => incref d;; mret (Ok d)
  | None => mret (Err ENOENT)
  end.

Definition vfs_setcurdir (dir : Z) : M Z :=
  r ← fsget (fun s => VOP_GETTYPE s dir);
  match r with
  | Err result => mret result
  | Ok vtype =>
      if negb (vtype =? S_IFDIR) then mret ENOTDIR else
      incref dir;;
      old ← gets (fun v => p_cwd v !! curproc v);
      modify (set_cwd (Some dir));;
      match old with Some old => decref old;; mret 0 | None => mret 0 end
  end.

Definition vfs_clearcurdir : M Z :=
  old ← gets (fun v => p_cwd v !! curproc v);
  modify (set_cwd None);;
  match old with Some old => decref old;; mret 0 | None => mret 0 end.

(** ** vfslookup.c *)

(** The first colon or slash: [slash] and [colon], -1 if it is not the one. *)
Fixpoint scan (i : Z) (path : list Z) : outcome (Z * Z) :=
  match path with
  | [] => Panic
  | c :: path =>
      if c =? 0 then mret (-1, -1) else
      if c =? COLON then mret (-1, i) else
      if c =? SLASH then mret (i, -1) else scan (i + 1) path
  end.

(** [while (path[i+1]=='/') i++], for a path of at most [fuel] bytes. *)
Fixpoint skip_slashes (fuel : nat) (path : list Z) (i : nat) : outcome nat :=
  match fuel with
  | O => Panic
  | Datatypes.S fuel =>
      c ← deref (path !! Datatypes.S i);
      if c =? SLASH then skip_slashes fuel path (Datatypes.S i) else mret i
  end.

(** The vnode to start from and the subpath's offset into the path. *)
Definition getdevice (path : list Z) : M (res (Z * nat) * list Z) :=
  kassert_biglock;;
  c0 ← lift (deref (path !! 0%nat));
  if c0 =? 0 then mret (Err EINVAL, path) else
  '(slash, colon) ← lift (scan 0 path);
  if (colon <? 0) && negb (slash =? 0) then
    r ← vfs_getcurdir;
    mret (match r with Ok vn => Ok (vn, 0%nat) | Err e => Err e end, path)
  else if colon >? 0 then
    let path := <[Z.to_nat colon := 0]> path in
    colon ← lift (skip_slashes (length path) path (Z.to_nat colon));
    r ← vfs_getroot path;
    mret (match r with Ok vn => Ok (vn, (colon + 1)%nat) | Err e => Err e end, path)
  else
    kassert ((colon =? 0) || (slash =? 0));;
    r ← (if c0 =? SLASH then
           boot ← gets bootfs_vnode;
           match boot with
           | None => mret (Err ENOENT)
           | Some b => incref b;; mret (Ok b)
           end
         else
           kassert (c0 =? COLON);;
           r ← vfs_getcurdir;
           match r with
           | Err e => mret (Err e)
           | Ok vn =>
               fs ← fsget (fun s => vn_fs s vn);
               fs ← lift (deref fs);
               r ← fsop (fun s => FSOP_GETROOT s fs);
               decref vn;;
               mret r
           end);
    match r with
    | Err e => mret (Err e, path)
    | Ok startvn =>
        i ← lift (skip_slashes (length path) path 0);
        mret (Ok (startvn, (i + 1)%nat), path)
    end.

(** Each return gives the big lock back by itself, here and below, where the code has a
    call of [vfs_biglock_release] for each. *)
Definition vfs_lookparent (path buf : list Z) : M (res (Z * list Z) * list Z) :=
  vfs_biglock_acquire;;
  '(r, path) ← getdevice path;
  match r with
  | Err e => vfs_biglock_release;; mret (Err e, path)
  | Ok (startvn, off) =>
      let sub := drop off path in
      len ← lift (strlen sub);
      result ← (if len =? 0 then mret (Err EINVAL) else fsop (fun s => VOP_LOOKPARENT s startvn sub buf));
      decref startvn;;
      vfs_biglock_release;;
      mret (result, path)
  end.

Definition vfs_lookup (path : list Z) : M (res Z * list Z) :=
  vfs_biglock_acquire;;
  '(r, path) ← getdevice path;
  match r with
  | Err e => vfs_biglock_release;; mret (Err e, path)
  | Ok (startvn, off) =>
      let sub := drop off path in
      len ← lift (strlen sub);
      if len =? 0 then vfs_biglock_release;; mret (Ok startvn, path) else
      result ← fsop (fun s => VOP_LOOKUP s startvn sub);
      decref startvn;;
      vfs_biglock_release;;
      mret (result, path)
  end.

Definition change_bootfs (newvn : option Z) : M unit :=
  oldvn ← gets bootfs_vnode;
  modify (set_bootfs newvn);;
  match oldvn with Some o => decref o | None => mret () end.

Definition vfs_chdir (path : list Z) : M Z :=
  '(r, _) ← vfs_lookup path;
  match r with
  | Err result => mret result
  | Ok vn => result ← vfs_setcurdir vn; decref vn;; mret result
  end.

(** [snprintf(tmp, sizeof(tmp)-1, "%s", fsname)]: the first 254 characters. *)
Definition setbootfs_tmp (fsname : list Z) : outcome (list Z) :=
  n ← strlen fsname;
  let s := take (Z.to_nat (Z.min n (NAME_MAX - 1))) fsname in
  mret (s ++ zeros (Z.to_nat (NAME_MAX + 1) - length s)).

(** From the call of [vfs_chdir] on. *)
Definition setbootfs_dir (tmp : list Z) : M Z :=
  result ← vfs_chdir tmp;
  if negb (result =? 0) then vfs_biglock_release;; mret result else
  r ← vfs_getcurdir;
  match r with
  | Err result => vfs_biglock_release;; mret result
  | Ok newguy => change_bootfs (Some newguy);; vfs_biglock_release;; mret 0
  end.

Definition vfs_setbootfs (fsname : list Z) : M Z :=
  vfs_biglock_acquire;;
  tmp ← lift (setbootfs_tmp fsname);
  s ← lift (strchr tmp COLON);
  match s with
  | Some i =>
      n ← lift (strlen (drop (Z.to_nat i) tmp));
      if n >? 0 then vfs_biglock_release;; mret EINVAL else setbootfs_dir tmp
  | None => tmp ← lift (strcat tmp [COLON; 0]); setbootfs_dir tmp
  end.

Definition vfs_clearbootfs : M unit :=
  vfs_biglock_acquire;;
  change_bootfs None;;
  vfs_biglock_release.

Definition vfs_getcwd (u : uio) : M (Z * uio) :=
  kassert (bool_decide (uio_rwflag u = UIO_READ));;
  r ← vfs_getcurdir;
  match r with
  | Err result => mret (result, u)
  | Ok cwd =>
      fs ← fsget (fun s => vn_fs s cwd);
      fs ← lift (deref fs);
      volname ← fsget (fun s => FSOP_GETVOLNAME s fs);
      name ← match volname with
             | Some n => mret (Some n)
             | None => vfs_biglock_acquire;; name ← vfs_getdevname fs; vfs_biglock_release;; mret name
             end;
      name ← lift (deref name);
      n ← lift (strlen name);
      '(result, _, u) ← lift (uiomove name n u);
      '(result, u) ← (if negb (result =? 0) then mret (result, u) else
        '(result, _, u) ← lift (uiomove [COLON] 1 u);
        if negb (result =? 0) then mret (result, u) else fsget (fun s => VOP_NAMEFILE s cwd u));
      decref cwd;;
      mret (result, u)
  end.

(** ** vfspath.c *)

Definition name_buf : list Z := zeros (Z.to_nat (NAME_MAX + 1)).

(** A lookparent, an operation on the directory found, and giving it back. *)
Definition with_parent (path : list Z) (op : Z -> list Z -> M Z) : M Z :=
  '(r, _) ← vfs_lookparent path name_buf;
  match r with
  | Err result => mret result
  | Ok (dir, name) => result ← op dir name; decref dir;; mret result
  end.

(** The vnode, or the error; and the path as left behind. *)
Definition vfs_open (path : list Z) (openflags mode : Z) : M (res Z * list Z) :=
  let how := Z.land openflags O_ACCMODE in
  if negb ((how =? O_RDONLY) || (how =? O_WRONLY) || (how =? O_RDWR)) then mret (Err EINVAL, path) else
  let canwrite := negb (how =? O_RDONLY) in
  '(r, path) ← (if negb (Z.land openflags O_CREAT =? 0) then
      let excl := negb (Z.land openflags O_EXCL =? 0) in
      '(r, path) ← vfs_lookparent path name_buf;
      match r with
      | Err result => mret (Err result, path)
      | Ok (dir, name) =>
          r ← fsop (fun s => VOP_CREAT s dir name excl);
          decref dir;;
          mret (r, path)
      end
    else vfs_lookup path);
  match r with
  | Err result => mret (Err result, path)
  | Ok vn =>
      result ← fsget (fun s => VOP_EACHOPEN s vn openflags);
      if negb (result =? 0) then decref vn;; mret (Err result, path) else
      if negb (Z.land openflags O_TRUNC =? 0) then
        result ← (if negb canwrite then mret EINVAL else fsop (fun s => VOP_TRUNCATE s vn 0));
        if negb (result =? 0) then decref vn;; mret (Err result, path) else mret (Ok vn, path)
      else mret (Ok vn, path)
  end.

Definition vfs_close (vn : Z) : M unit := decref vn.

Definition vfs_remove (path : list Z) : M Z :=
  with_parent path (fun dir name => fsop (fun s => VOP_REMOVE s dir name)).

(** [a->vn_fs==NULL || b->vn_fs==NULL || a->vn_fs != b->vn_fs]. *)
Definition other_fs (a b : Z) : M bool :=
  fa ← fsget (fun s => vn_fs s a);
  fb ← fsget (fun s => vn_fs s b);
  mret (bool_decide (fa = None) || bool_decide (fb = None) || negb (bool_decide (fa = fb))).

Definition vfs_rename (oldpath newpath : list Z) : M Z :=
  '(r, _) ← vfs_lookparent oldpath name_buf;
  match r with
  | Err result => mret result
  | Ok (olddir, oldname) =>
      '(r, _) ← vfs_lookparent newpath name_buf;
      match r with
      | Err result => decref olddir;; mret result
      | Ok (newdir, newname) =>
          x ← other_fs olddir newdir;
          if (x : bool) then decref newdir;; decref olddir;; mret EXDEV else
          result ← fsop (fun s => VOP_RENAME s olddir oldname newdir newname);
          decref newdir;; decref olddir;; mret result
      end
  end.

Definition vfs_link (oldpath newpath : list Z) : M Z :=
  '(r, _) ← vfs_lookup oldpath;
  match r with
  | Err result => mret result
  | Ok oldfile =>
      '(r, _) ← vfs_lookparent newpath name_buf;
      match r with
      | Err result => decref oldfile;; mret result
      | Ok (newdir, newname) =>
          x ← other_fs oldfile newdir;
          if (x : bool) then decref newdir;; decref oldfile;; mret EXDEV else
          result ← fsop (fun s => VOP_LINK s newdir newname oldfile);
          decref newdir;; decref oldfile;; mret result
      end
  end.

Definition vfs_symlink (contents path : list Z) : M Z :=
  with_parent path (fun dir name => fsop (fun s => VOP_SYMLINK s dir name contents)).

Definition vfs_readlink (path : list Z) (u : uio) : M (Z * uio) :=
  '(r, _) ← vfs_lookup path;
  match r with
  | Err result => mret (result, u)
  | Ok vn =>
      '(result, u) ← fsop (fun s => VOP_READLINK s vn u);
      decref vn;; mret (result, u)
  end.

Definition vfs_mkdir (path : list Z) (mode : Z) : M Z :=
  with_parent path (fun dir name => fsop (fun s => VOP_MKDIR s dir name)).

Definition vfs_rmdir (path : list Z) : M Z :=
  with_parent path (fun dir name => fsop (fun s => VOP_RMDIR s dir name)).

(** ** vfslist.c: the rest *)

Fixpoint sync_loop (l : list knowndev) : M unit :=
  match l with
  | [] => mret ()
  | kd :: l =>
      match kd_fs kd with
      | FS fs => fsop (fun s => FSOP_SYNC s fs);; sync_loop l
      | _ => sync_loop l
      end
  end.

Definition vfs_sync : M Z :=
  vfs_biglock_acquire;;
  l ← gets knowndevs;
  sync_loop l;;
  vfs_biglock_release;;
  mret 0.

Definition mkrawname (name : list Z) : M (option (list Z)) :=
  n ← lift (strlen name);
  s ← kmalloc_bytes (n + 3 + 1);
  match s with
  | None => mret None
  | Some s =>
      s ← lift (strcpy s name);
      s ← lift (strcat s [114; 97; 119; 0]);
      mret (Some s)
  end.

Definition samestring (a b : option (list Z)) : M bool :=
  match a, b with Some a, Some b => streq a b | _, _ => mret false end.

(** [||], left to right. *)
Definition orelse (a b : M bool) : M bool := x ← a; if (x : bool) then mret true else b.

Definition samestring3 (a b c d : option (list Z)) : M bool :=
  orelse (samestring a b) (orelse (samestring a c) (samestring a d)).

Fixpoint badnames_loop (l : list knowndev) (n1 n2 n3 : option (list Z)) : M bool :=
  match l with
  | [] => mret false
  | kd :: l =>
      orelse
        (match kd_fs kd with
         | FS fs => volname ← fsget (fun s => FSOP_GETVOLNAME s fs); samestring3 volname n1 n2 n3
         | _ => mret false
         end)
      (orelse (orelse (samestring3 (kd_rawname kd) n1 n2 n3) (samestring3 (Some (kd_name kd)) n1 n2 n3))
        (badnames_loop l n1 n2 n3))
  end.

Definition badnames (n1 n2 n3 : option (list Z)) : M bool :=
  kassert_biglock;;
  l ← gets knowndevs;
  badnames_loop l n1 n2 n3.

Definition dup (s : list Z) : M (option (list Z)) :=
  ok ← kmalloc; lift (kstrdup (fun n => if ok : bool then Some (zeros (Z.to_nat n)) else None) s).

(** The error path: from [fail] on, with the vnode if there is one. *)
Definition doadd_fail (vnode : option Z) (result : Z) : M Z :=
  (match vnode with Some vn => fsdo (fun s => dev_uncreate_vnode s vn) | None => mret () end);;
  vfs_biglock_release;;
  mret result.

Definition vfs_doadd (dname : list Z) (mountable : bool) (dev : option Z) (fs : option Z) : M Z :=
  vfs_biglock_acquire;;
  name ← dup dname;
  match name with
  | None => doadd_fail None ENOMEM
  | Some name =>
      raw ← (if mountable then r ← mkrawname name; mret (match r with Some r => Ok (Some r) | None => Err ENOMEM end)
             else mret (Ok None));
      match raw with
      | Err e => doadd_fail None e
      | Ok rawname =>
          vnode ← fsop (fun s => dev_create_vnode s dev);
          match vnode with
          | None => doadd_fail None ENOMEM
          | Some vnode =>
              ok ← kmalloc;
              if negb ok then doadd_fail (Some vnode) ENOMEM else
              volname ← match fs with
                        | Some fs => fsget (fun s => FSOP_GETVOLNAME s fs)
                        | None => mret None
                        end;
              bad ← badnames (Some name) rawname volname;
              if (bad : bool) then doadd_fail (Some vnode) EEXIST else
              ok ← kmalloc;
              if negb ok then doadd_fail (Some vnode) ENOMEM else
              index ← gets (fun v => Z.of_nat (length (knowndevs v)));
              let kd := mkKd name rawname dev vnode (match fs with Some f => FS f | None => NO_FS end) in
              modify (fun v => set_devs (knowndevs v ++ [kd]) v);;
              (match dev with Some d => modify (set_devnumber d (index + 1)) | None => mret () end);;
              vfs_biglock_release;;
              mret 0
          end
      end
  end.

Definition vfs_adddev (devname : list Z) (dev : Z) (mountable : bool) : M Z :=
  vfs_doadd devname mountable (Some dev) None.

Definition vfs_addfs (devname : list Z) (fs : Z) : M Z := vfs_doadd devname false None (Some fs).

(** The index of the mountable device of that name. *)
Fixpoint findmount_loop (l : list knowndev) (i : nat) (devname : list Z) : M (res nat) :=
  match l with
  | [] => mret (Err ENODEV)
  | dev :: l =>
      if bool_decide (kd_rawname dev = None) then findmount_loop l (Datatypes.S i) devname else
      same ← streq devname (kd_name dev);
      if (same : bool) then mret (Ok i) else findmount_loop l (Datatypes.S i) devname
  end.

Definition findmount (devname : list Z) : M (res nat) :=
  kassert_biglock;;
  l ← gets knowndevs;
  findmount_loop l 0 devname.

(** [kd->kd_fs = fs]. *)
Definition put_kd_fs (i : nat) (fs : kdfs) : M unit :=
  modify (fun v => set_devs (alter (fun kd => set_kd_fs kd fs) i (knowndevs v)) v).

(** [findmount], with the entry found. *)
Definition find_kd (devname : list Z) : M (res (nat * knowndev)) :=
  r ← findmount devname;
  match r with
  | Err result => mret (Err result)
  | Ok i => l ← gets knowndevs; kd ← lift (deref (l !! i)); mret (Ok (i, kd))
  end.

Definition vfs_mount (devname : list Z) (mountfunc : Z -> S -> outcome (res Z * S)) : M Z :=
  vfs_biglock_acquire;;
  r ← find_kd devname;
  match r with
  | Err result => vfs_biglock_release;; mret result
  | Ok (i, kd) =>
      if negb (bool_decide (kd_fs kd = NO_FS)) then vfs_biglock_release;; mret EBUSY else
      kassert (bool_decide (is_Some (kd_rawname kd)));;
      d ← lift (deref (kd_device kd));
      r ← fsop (mountfunc d);
      match r with
      | Err result => vfs_biglock_release;; mret result
      | Ok fs => put_kd_fs i (FS fs);; fsget (fun s => FSOP_GETVOLNAME s fs);; vfs_biglock_release;; mret 0
      end
  end.

(** [tolerate trailing :]. *)
Definition swap_name (devname : list Z) : M (option (list Z)) :=
  len ← lift (strlen devname);
  let last := devname !! Z.to_nat (len - 1) in
  if (len >? 0) && bool_decide (last = Some COLON) then
    myname ← dup devname;
    mret (match myname with Some m => Some (<[Z.to_nat (len - 1) := 0]> m) | None => None end)
  else mret (Some devname).

(** In this and the next two functions the code's gotos end at one release. *)
Definition vfs_swapon (devname : list Z) : M (res Z) :=
  name ← swap_name devname;
  match name with
  | None => mret (Err ENOMEM)
  | Some devname =>
      vfs_biglock_acquire;;
      r ← find_kd devname;
      result ← match r with
               | Err result => mret (Err result)
               | Ok (i, kd) =>
                   if negb (bool_decide (kd_fs kd = NO_FS)) then mret (Err EBUSY) else
                   kassert (bool_decide (is_Some (kd_rawname kd)));; kassert (bool_decide (is_Some (kd_device kd)));;
                   put_kd_fs i SWAP_FS;;
                   incref (kd_vnode kd);;
                   mret (Ok (kd_vnode kd))
               end;
      vfs_biglock_release;;
      mret result
  end.

Definition vfs_unmount (devname : list Z) : M Z :=
  vfs_biglock_acquire;;
  r ← find_kd devname;
  result ← match r with
           | Err result => mret result
           | Ok (i, kd) =>
               match kd_fs kd with
               | FS fs =>
                   kassert (bool_decide (is_Some (kd_rawname kd)));; kassert (bool_decide (is_Some (kd_device kd)));;
                   result ← fsop (fun s => FSOP_SYNC s fs);
                   when_ok result (
                   result ← fsop (fun s => FSOP_UNMOUNT s fs);
                   when_ok result (put_kd_fs i NO_FS;; mret 0))
               | _ => mret EINVAL
               end
           end;
  vfs_biglock_release;;
  mret result.

Definition vfs_swapoff (devname : list Z) : M Z :=
  vfs_biglock_acquire;;
  r ← find_kd devname;
  result ← match r with
           | Err result => mret result
           | Ok (i, kd) => if negb (bool_decide (kd_fs kd = SWAP_FS)) then mret EINVAL else put_kd_fs i NO_FS;; mret 0
           end;
  vfs_biglock_release;;
  mret result.

Fixpoint unmountall_loop (l : list knowndev) (i : nat) : M unit :=
  match l with
  | [] => mret ()
  | dev :: l =>
      (if bool_decide (kd_rawname dev = None) then mret () else
       match kd_fs dev with
       | NO_FS => mret ()
       | SWAP_FS => put_kd_fs i NO_FS
       | FS fs =>
           result ← fsop (fun s => FSOP_SYNC s fs);
           result ← (if negb (result =? 0) then fsop (fun s => FSOP_SYNC s fs) else mret 0);
           if negb (result =? 0) then mret () else
           result ← fsop (fun s => FSOP_UNMOUNT s fs);
           if negb (result =? 0) then mret () else put_kd_fs i NO_FS
       end);;
      unmountall_loop l (Datatypes.S i)
  end.

Definition vfs_unmountall : M Z :=
  vfs_biglock_acquire;;
  l ← gets knowndevs;
  unmountall_loop l 0;;
  vfs_biglock_release;;
  mret 0.

(** ** Path names *)

(** A character of a file or device name. *)
Definition plain (c : Z) : Prop := c <> 0 /\ c <> SLASH /\ c <> COLON.

Fixpoint strip (s : list Z) : list Z :=
  match s with
  | [] => []
  | c :: r => if c =? SLASH then strip r else s
  end.

(** What a path [a ++ c :: rest] means, where [a] is plain and [c] ends it: where
    the lookup starts, the subpath, and the path left behind. *)
Definition path_start (a : list Z) (c : Z) (rest : list Z) : M (res Z) * list Z * list Z :=
  let path := a ++ c :: rest in
  if c =? COLON then
    match a with
    | [] => (
        r ← vfs_getcurdir;
        match r with
        | Err e => mret (Err e)
        | Ok vn =>
            fs ← fsget (fun s => vn_fs s vn);
            fs ← lift (deref fs);
            r ← fsop (fun s => FSOP_GETROOT s fs);
            decref vn;; mret r
        end, strip rest, path)
    | _ => (vfs_getroot (a ++ 0 :: rest), strip rest, a ++ 0 :: rest)
    end
  else
    match a with
    | [] =>
        if c =? SLASH then (
          boot ← gets bootfs_vnode;
          match boot with
          | None => mret (Err ENOENT)
          | Some b => incref b;; mret (Ok b)
          end, strip rest, path)
        else (mret (Err EINVAL), [], path)
    | _ => (vfs_getcurdir, path, path)
    end.

Lemma K_bind_assoc {A B C} (m : M A) (f : A -> M B) (g : B -> M C) v :
  ((m ≫= f) ≫= g) v = (m ≫= (fun a => f a ≫= g)) v.
Proof. rewrite !K_bind_eq. by destruct (m v) as [[a w]| |]. Qed.

Lemma K_bind_ext {A B} (m : M A) (f g : A -> M B) v :
  (forall a w, m v = Done (a, w) -> f a w = g a w) -> (m ≫= f) v = (m ≫= g) v.
Proof. intros H. rewrite !K_bind_eq. destruct (m v) as [[a w]| |]; eauto. Qed.

Lemma scan_ok i a c rest :
  Forall plain a -> c = 0 \/ c = SLASH \/ c = COLON ->
  scan i (a ++ c :: rest) = Done (if c =? SLASH then (i + Z.of_nat (length a), -1)
    else if c =? COLON then (-1, i + Z.of_nat (length a)) else (-1, -1)).
Proof.
  intros Ha Hc. revert i. induction Ha as [|x a (H0&Hs&Hn) _ IH]; intros i.
  - cbn [scan app length]. rewrite Z.add_0_r. by destruct Hc as [->|[->| ->]].
  - cbn [scan app length]. rewrite !(proj2 (Z.eqb_neq _ _)) by done. rewrite IH.
    replace (i + 1 + Z.of_nat (length a)) with (i + Z.of_nat (Datatypes.S (length a))) by lia. done.
Qed.

Lemma skip_slashes_ok fuel p c rest :
  is_str rest -> (length rest < fuel)%nat ->
  exists i, skip_slashes fuel (p ++ c :: rest) (length p) = Done i /\ drop (i + 1) (p ++ c :: rest) = strip rest.
Proof.
  revert p c rest. induction fuel as [|fuel IH]; [lia|]. intros p c rest Hs Hf.
  destruct rest as [|d rest]; [by apply not_elem_of_nil in Hs|].
  assert (Hnext : p ++ c :: d :: rest = (p ++ [c]) ++ d :: rest) by by rewrite <- app_assoc.
  assert (Hlen : length (p ++ [c]) = Datatypes.S (length p)) by (rewrite length_app; cbn; lia).
  cbn [skip_slashes]. rewrite Hnext, lookup_app_r by lia. rewrite Hlen, Nat.sub_diag. cbn. kred.
  destruct (Z.eqb_spec d SLASH) as [->|Hd].
  - destruct (IH (p ++ [c]) SLASH rest) as (i & Hi & Hsub); [|cbn in Hf; lia|].
    + apply is_str_cons in Hs as [?|[_ ?]]; done.
    + rewrite Hlen in Hi. by exists i.
  - exists (length p). split; [done|]. rewrite <- Hnext. rewrite drop_app_ge by lia.
    by replace (length p + 1 - length p)%nat with 1%nat by lia.
Qed.
Lemma insert_at (a rest : list Z) c d : <[length a := d]> (a ++ c :: rest) = a ++ d :: rest.
Proof. rewrite insert_app_r_alt, Nat.sub_diag by lia. done. Qed.

(** [getdevice] reads a path the way vfs.h says: [dev:path] starts at the root
    of that device, [/path] at the boot file system, [:path] at the root of the
    current directory's file system and any other path at the current directory;
    the slashes after the prefix are dropped and an empty path is EINVAL. *)
Theorem getdevice_spec a c rest v :
  Forall plain a -> c = 0 \/ c = SLASH \/ c = COLON -> (c <> 0 -> is_str rest) ->
  lock_do_i_hold (curthread v) (vfs_biglock v) = true ->
  let '(start, sub, path') := path_start a c rest in
  exists off, drop off path' = sub /\
    getdevice (a ++ c :: rest) v =
      (r ← start; mret (match r with Ok vn => Ok (vn, off) | Err e => Err e end, path')) v.
Proof.
  intros Ha Hc Hr Hl.
  unfold getdevice, kassert_biglock, vfs_biglock_do_i_hold, kassert. krun. rewrite Hl, scan_ok, Z.add_0_l by done. krun.
  destruct a as [|x a].
  - cbn [app lookup list_lookup]. krun. unfold path_start. cbn [app].
    destruct Hc as [->|[->| ->]].
    + exists (length (0 :: rest)). split; [apply drop_all|]. krun. done.
    + destruct (skip_slashes_ok (length (SLASH :: rest)) [] SLASH rest) as (i & Hi & Hsub); [by apply Hr|cbn; lia|].
      exists (i + 1)%nat. split; [done|].
      zconst. krun. zconst. krun.
      destruct (bootfs_vnode v) as [b|]; krun; [|done].
      destruct (incref b v) as [[[] w]| |]; krun; [|done..]. cbn [app] in Hi. change (@length Z []) with 0%nat in Hi. rewrite Hi. by krun.
    + destruct (skip_slashes_ok (length (COLON :: rest)) [] COLON rest) as (i & Hi & Hsub); [by apply Hr|cbn; lia|].
      exists (i + 1)%nat. split; [done|].
      zconst. krun. zconst. krun.
      destruct (vfs_getcurdir v) as [[[vn|e] w]| |]; krun; [|done..].
      destruct (fsget _ w) as [[fs w1]| |]; krun; [|done..].
      destruct (deref fs) as [f| |]; krun; [|done..].
      destruct (fsop _ w1) as [[r w2]| |]; krun; [|done..].
      destruct (decref vn w2) as [[[] w3]| |]; krun; [|done..].
      destruct r; [|done]. cbn [app] in Hi. change (@length Z []) with 0%nat in Hi. rewrite Hi. by krun.
  - pose proof Ha as Ha'. apply Forall_cons in Ha' as [(H0&Hs&Hn) _].
    cbn [app lookup list_lookup]. krun. rewrite (proj2 (Z.eqb_neq x 0)) by done.
    change (x :: a ++ c :: rest) with ((x :: a) ++ c :: rest).
    unfold path_start. set (p := x :: a) in *. assert (0 < Z.of_nat (length p)) by (cbn; lia).
    destruct Hc as [->|[->| ->]]; cbn [Z.eqb SLASH COLON Pos.eqb]; cbv beta iota.
    + exists 0%nat. split; [done|]. krun. zconst. krun. done.
    + exists 0%nat. split; [done|]. krun. zconst. krun. done.
    + krun. rewrite (proj2 (Z.ltb_ge _ 0)) by lia. cbn [andb]. rewrite Z.gtb_ltb, (proj2 (Z.ltb_lt 0 _)) by lia.
      rewrite Nat2Z.id, insert_at.
      destruct (skip_slashes_ok (length (p ++ 0 :: rest)) p 0 rest) as (i & Hi & Hsub);
        [by apply Hr|rewrite length_app; cbn; lia|].
      exists (i + 1)%nat. split; [done|]. krun. rewrite Hi. krun. done.
Qed.
(** ** The big lock *)

Definition lockstate v : bool * option Z * Z * Z :=
  (is_busy (vfs_biglock v), lk_owner (vfs_biglock v), vfs_biglock_depth v, curthread v).

Definition lockstate_wf (st : bool * option Z * Z * Z) : Prop :=
  let '(busy, owner, depth, _) := st in
  0 <= depth < 2 ^ 32 /\ (busy = false <-> owner = None) /\ (owner = None -> depth = 0).

(** A call that gives the big lock back as often as it takes it. *)
Definition balanced {A} (m : M A) : Prop :=
  forall v a v', lockstate_wf (lockstate v) -> m v = Done (a, v') -> lockstate v' = lockstate v.

Lemma balanced_ret {A} (a : A) : balanced (mret a).
Proof. intros v b v' _ [= _ <-]. done. Qed.
Lemma balanced_bind {A B} (m : M A) (f : A -> M B) :
  balanced m -> (forall a, balanced (f a)) -> balanced (m ≫= f).
Proof.
  intros Hm Hf v b v' Hwf (a & w & H1 & H2)%K_bind_inv. pose proof (Hm _ _ _ Hwf H1) as E.
  rewrite <- E. apply (Hf a _ b); [by rewrite E|done].
Qed.
Lemma balanced_lift {A} (m : outcome A) : balanced (lift m).
Proof. intros v a v' _ H. unfold lift in H. inv_done. done. Qed.
Lemma balanced_gets {A} (f : vfs S -> A) : balanced (gets f).
Proof. intros v a v' _ [= _ <-]. done. Qed.
Lemma balanced_fsget {A} (f : S -> outcome A) : balanced (fsget f).
Proof. intros v a v' _ H. unfold fsget in H. inv_done. done. Qed.
Lemma balanced_fsop {A} (f : S -> outcome (A * S)) : balanced (fsop f).
Proof. intros v a v' _ H. unfold fsop in H. inv_done. destruct a0. by inv_done. Qed.
Lemma balanced_fsdo (f : S -> outcome S) : balanced (fsdo f).
Proof. intros v a v' _ H. unfold fsdo in H. by inv_done. Qed.
Lemma balanced_modify f : (forall v, lockstate (f v) = lockstate v) -> balanced (modify f).
Proof. intros Hf v a v' _ [= _ <-]. done. Qed.
Lemma balanced_kmalloc : balanced kmalloc.
Proof. intros v a v' _ H. unfold kmalloc, kalloc in H. by inv_done. Qed.

Lemma acquire_inv v w :
  lockstate_wf (lockstate v) -> vfs_biglock_acquire v = Done ((), w) ->
  lockstate_wf (lockstate w) /\ lk_owner (vfs_biglock w) = Some (curthread v) /\ curthread w = curthread v /\
  (vfs_biglock_depth w = 1 /\ lockstate v = (false, None, 0, curthread v) \/
   vfs_biglock_depth w = u32 (vfs_biglock_depth v + 1) /\ 0 < vfs_biglock_depth v /\
     vfs_biglock w = vfs_biglock v).
Proof.
  intros (Hd & Hb & H0) H. unfold vfs_biglock_acquire in H.
  assert (Hfresh : forall lk, lock_acquire (curthread v) (vfs_biglock v) = Done lk ->
    w = set_biglock lk (u32 (vfs_biglock_depth v + 1)) v ->
    lockstate_wf (lockstate w) /\ lk_owner (vfs_biglock w) = Some (curthread v) /\ curthread w = curthread v /\
    vfs_biglock_depth w = 1 /\ lockstate v = (false, None, 0, curthread v)).
  { intros lk (Hfree & ->)%lock_acquire_inv ->. pose proof (proj1 Hb Hfree) as Ho. pose proof (H0 Ho) as Hz.
    unfold lockstate. rewrite Hfree, Ho, Hz. cbn. done. }
  destruct (lock_do_i_hold (curthread v) (vfs_biglock v)) eqn:Hh; cbn [negb] in H.
  - destruct (Z.eqb_spec (vfs_biglock_depth v) 0) as [|Hnz]; inv_done.
    + destruct (Hfresh _ Ha eq_refl) as (?&?&?&?&?). auto 10.
    + apply bool_decide_eq_true in Hh. unfold lockstate. cbn. rewrite Hh in *. pose proof (u32_range (vfs_biglock_depth v + 1)).
      repeat split; try tauto; try done. right. repeat split. lia.
  - inv_done. destruct (Hfresh _ Ha eq_refl) as (?&?&?&?&?). auto 10.
Qed.

(** The state of the lock after one release. *)
Definition given_back (st : bool * option Z * Z * Z) : bool * option Z * Z * Z :=
  let '(busy, owner, depth, t) := st in if depth =? 1 then (false, None, 0, t) else (busy, owner, depth - 1, t).

(** A computation that gives the lock back once more than it takes it. *)
Definition closing {A} (m : M A) : Prop :=
  forall v a v', lockstate_wf (lockstate v) -> m v = Done (a, v') ->
    0 < vfs_biglock_depth v /\ lockstate v' = given_back (lockstate v).

Lemma closing_release : closing vfs_biglock_release.
Proof.
  intros v a v' (Hd&Hb&H0) H. unfold vfs_biglock_release in H. inv_done. apply bool_decide_eq_true in Ha.
  assert (Hpos : 0 < vfs_biglock_depth v) by lia. split; [done|]. unfold lockstate, given_back in *.
  destruct (Z.eqb_spec (vfs_biglock_depth v) 1) as [E|E].
  - rewrite E in H. change (1 - 1 =? 0) with true in H. cbv beta iota zeta in H. inv_done. destruct a2 as [woken lk].
    unfold lock_release in Ha1. inv_done. cbn in Ha1. inv_done. cbn. done.
  - rewrite (proj2 (Z.eqb_neq (vfs_biglock_depth v - 1) 0)) in H by lia. inv_done. done.
Qed.
Lemma closing_bind {A B} (m : M A) (f : A -> M B) : balanced m -> (forall a, closing (f a)) -> closing (m ≫= f).
Proof.
  intros Hm Hf v b v' Hwf (a & w & H1 & H2)%K_bind_inv. pose proof (Hm _ _ _ Hwf H1) as E.
  assert (Ed : vfs_biglock_depth w = vfs_biglock_depth v) by (by injection E). rewrite <- E, <- Ed. apply (Hf a _ b); [by rewrite E|done].
Qed.
Lemma closing_ret {A} (a : A) : closing (vfs_biglock_release;; mret a).
Proof. intros v b v' Hwf ([] & w & H1 & [= _ <-])%K_bind_inv. by eapply closing_release. Qed.

Lemma balanced_acquire {A} (m : M A) : closing m -> balanced (vfs_biglock_acquire;; m).
Proof.
  intros Hm v a v' Hwf ([] & w & Hacq & H)%K_bind_inv. destruct (acquire_inv _ _ Hwf Hacq) as (Hwf1 & Ho & Hc & Hcase).
  destruct (Hm _ _ _ Hwf1 H) as (Hpos1 & ->). unfold lockstate, given_back. rewrite Hc. destruct Hcase as [(Hd & Hv)|(Hd & Hpos & Hlk)].
  - rewrite Hd. cbn. unfold lockstate in Hv. done.
  - destruct Hwf as (Hr & _). rewrite Hd, Hlk in *.
    destruct (decide (vfs_biglock_depth v + 1 = 2 ^ 32)) as [E2|E2]; [by rewrite E2 in Hpos1|].
    rewrite u32_small by lia. rewrite (proj2 (Z.eqb_neq _ 1)) by lia. by replace (vfs_biglock_depth v + 1 - 1) with (vfs_biglock_depth v) by lia.
Qed.
(** Splits a computation into its parts. *)
Ltac balance :=
  repeat first
    [ apply balanced_ret | apply balanced_lift | apply balanced_gets | apply balanced_fsget | apply balanced_fsop
    | apply balanced_fsdo | apply balanced_kmalloc | (apply balanced_modify; intros; reflexivity)
    | assumption | solve [auto 1 with balanced nocore]
    | apply closing_ret | apply closing_release | apply balanced_acquire
    | (apply balanced_bind; [|intros]) | (apply closing_bind; [|intros])
    | match goal with
      | |- balanced (match ?x with _ => _ end) => destruct x
      | |- closing (match ?x with _ => _ end) => destruct x
      end ].

Create HintDb balanced.

Lemma balanced_getroot_loop l n : balanced (getroot_loop l n).
Proof. induction l as [|kd l IH]; cbn [getroot_loop]; unfold streq, streq_opt, kassert, incref; balance. Qed.
#[local] Hint Resolve balanced_getroot_loop : balanced.

Lemma balanced_getdevice p : balanced (getdevice p).
Proof.
  unfold getdevice, kassert_biglock, vfs_biglock_do_i_hold, vfs_getcurdir, vfs_getroot, kassert_biglock,
    vfs_biglock_do_i_hold, kassert, incref, decref. balance.
Qed.
#[local] Hint Resolve balanced_getdevice : balanced.

Lemma balanced_lookup p : balanced (vfs_lookup p).
Proof. unfold vfs_lookup, decref. balance. Qed.
Lemma balanced_lookparent p b : balanced (vfs_lookparent p b).
Proof. unfold vfs_lookparent, decref. balance. Qed.
#[local] Hint Resolve balanced_lookup balanced_lookparent : balanced.

Lemma balanced_setcurdir d : balanced (vfs_setcurdir d).
Proof. unfold vfs_setcurdir, incref, decref. balance. Qed.
#[local] Hint Resolve balanced_setcurdir : balanced.

Lemma balanced_chdir p : balanced (vfs_chdir p).
Proof. unfold vfs_chdir, decref. balance. Qed.
#[local] Hint Resolve balanced_chdir : balanced.

Lemma balanced_badnames_loop l n1 n2 n3 : balanced (badnames_loop l n1 n2 n3).
Proof.
  induction l as [|kd l IH]; cbn [badnames_loop];
    unfold orelse, samestring3, samestring, streq, orelse; balance.
Qed.
Lemma balanced_sync_loop l : balanced (sync_loop l).
Proof. induction l as [|kd l IH]; cbn [sync_loop]; balance. Qed.
Lemma balanced_findmount_loop l i n : balanced (findmount_loop l i n).
Proof. revert i. induction l as [|kd l IH]; intros i; cbn [findmount_loop]; unfold streq; balance. Qed.
Lemma balanced_unmountall_loop l i : balanced (unmountall_loop l i).
Proof. revert i. induction l as [|kd l IH]; intros i; cbn [unmountall_loop]; unfold put_kd_fs; balance. Qed.
#[local] Hint Resolve balanced_badnames_loop balanced_sync_loop balanced_findmount_loop balanced_unmountall_loop : balanced.

Lemma balanced_find_kd n : balanced (find_kd n).
Proof. unfold find_kd, findmount, kassert_biglock, vfs_biglock_do_i_hold, kassert. balance. Qed.
#[local] Hint Resolve balanced_find_kd : balanced.
Lemma balanced_with_parent p op : (forall d n, balanced (op d n)) -> balanced (with_parent p op).
Proof. intros Hop. unfold with_parent, decref. balance. Qed.

(** C34. Every VFS call that returns has released the big lock exactly as often as it
    acquired it, on every path through it, error paths included: the code gives the lock
    back separately on each of its returns, after none or one or several nested
    acquisitions, and the lock, its holder and its depth are afterwards what they were
    before, whoever calls and however deep inside other calls.  What the methods of the
    file systems do with the lock is not part of their interface here: this is about the
    VFS layer's own acquisitions and releases. *)
Theorem biglock_balanced :
  (forall p flags mode, balanced (vfs_open p flags mode)) /\
  (forall p, balanced (vfs_lookup p)) /\ (forall p buf, balanced (vfs_lookparent p buf)) /\
  (forall p, balanced (vfs_remove p)) /\ (forall p q, balanced (vfs_rename p q)) /\
  (forall p q, balanced (vfs_link p q)) /\ (forall c p, balanced (vfs_symlink c p)) /\
  (forall p u, balanced (vfs_readlink p u)) /\ (forall p m, balanced (vfs_mkdir p m)) /\
  (forall p, balanced (vfs_rmdir p)) /\ (forall p, balanced (vfs_chdir p)) /\ (forall u, balanced (vfs_getcwd u)) /\
  (forall n, balanced (vfs_setbootfs n)) /\ balanced vfs_clearbootfs /\ balanced vfs_sync /\
  (forall n m d f, balanced (vfs_doadd n m d f)) /\ (forall n f, balanced (vfs_mount n f)) /\
  (forall n, balanced (vfs_unmount n)) /\ (forall n, balanced (vfs_swapon n)) /\ (forall n, balanced (vfs_swapoff n)) /\
  balanced vfs_unmountall.
Proof.
  unfold vfs_symlink, vfs_mkdir, vfs_rmdir, vfs_remove.
  repeat split; intros; try (apply balanced_with_parent; intros).
  all: unfold vfs_open, vfs_rename, vfs_link, vfs_readlink, vfs_getcwd, vfs_setbootfs, setbootfs_dir, vfs_clearbootfs, change_bootfs,
    vfs_sync, vfs_doadd, doadd_fail, badnames, mkrawname, dup, vfs_mount, vfs_unmount, vfs_swapoff, vfs_unmountall, vfs_swapon, swap_name,
    other_fs, vfs_getdevname, vfs_getcurdir, put_kd_fs, kmalloc_bytes, when_ok, kassert_biglock, vfs_biglock_do_i_hold, kassert,
    incref, decref.
  all: balance.
Qed.
(** ** The device table *)

Definition good_str (s : list Z) : Prop := is_str s /\ bytes s.

Definition volname (s : S) (kd : knowndev) : option (list Z) :=
  match kd_fs kd with
  | FS fs => match FSOP_GETVOLNAME s fs with Done o => o | _ => None end
  | _ => None
  end.

(** The names a device answers to. *)
Definition names (s : S) (kd : knowndev) : list (list Z) :=
  cstr (kd_name kd) :: option_list (cstr <$> kd_rawname kd) ++ option_list (cstr <$> volname s kd).

(** vfslist.c's comment on [struct knowndev]. *)
Record kd_wf (s : S) (kd : knowndev) : Prop := {
  kw_name : good_str (kd_name kd);
  kw_raw : forall r, kd_rawname kd = Some r -> good_str r;
  kw_vol : forall r, volname s kd = Some r -> good_str r;
  kw_fs : forall fs, kd_fs kd = FS fs -> FSOP_GETVOLNAME s fs = Done (volname s kd);
  kw_swap : kd_fs kd = SWAP_FS -> is_Some (kd_rawname kd);
  kw_device : kd_fs kd = NO_FS \/ is_Some (kd_rawname kd) -> is_Some (kd_device kd) }.

(** Every device is well formed and no two share a name. *)
Definition table_wf (s : S) (l : list knowndev) : Prop :=
  Forall (kd_wf s) l /\
  forall i j a b n, l !! i = Some a -> l !! j = Some b -> n ∈ names s a -> n ∈ names s b -> i = j.

Lemma streq_ok a b v : good_str a -> good_str b -> streq a b v = Done (bool_decide (cstr a = cstr b), v).
Proof.
  intros [Ha Ba] [Hb Bb]. unfold streq. krun. rewrite strcmp_ok by done. krun.
  pose proof (lexcmp_eq (cstr a) (cstr b)) as E. do 2 f_equal.
  destruct (Z.eqb_spec (lexcmp (cstr a) (cstr b)) 0); [rewrite bool_decide_true by tauto|rewrite bool_decide_false by tauto]; done.
Qed.

Lemma elem_of_option_list {A} (x : A) (o : option A) : x ∈ option_list o <-> o = Some x.
Proof.
  destruct o as [y|]; cbn [option_list option_rect]; [rewrite list_elem_of_singleton; split; congruence|].
  split; [by intros ?%not_elem_of_nil|done].
Qed.

Lemma streq_opt_ok a b v :
  (forall r, a = Some r -> good_str r) -> good_str b ->
  streq_opt a b v = Done (bool_decide (cstr b ∈ option_list (cstr <$> a)), v).
Proof.
  intros Ha Hb. destruct a as [a|]; cbn [streq_opt fmap option_fmap option_map option_list].
  - rewrite streq_ok by auto. do 2 f_equal. apply bool_decide_ext. rewrite elem_of_option_list. split; [by intros ->|by intros [= ->]].
  - krun. rewrite bool_decide_false; [done|]. apply not_elem_of_nil.
Qed.

(** What one device answers when it goes by the name [n]. *)
Definition kd_root (kd : knowndev) (n : list Z) : M (res Z) :=
  match kd_fs kd with
  | FS fs => if bool_decide (Some n = cstr <$> kd_rawname kd) then incref (kd_vnode kd);; mret (Ok (kd_vnode kd))
             else fsop (fun s => FSOP_GETROOT s fs)
  | _ => if bool_decide (n = cstr (kd_name kd)) && bool_decide (is_Some (kd_rawname kd)) then mret (Err ENXIO)
         else incref (kd_vnode kd);; mret (Ok (kd_vnode kd))
  end.

(** A device's own name, or its volume's, is not its raw name. *)
Definition raw_apart (s : S) (kd : knowndev) : Prop :=
  forall r, kd_rawname kd = Some r -> cstr r <> cstr (kd_name kd) /\ Some (cstr r) <> cstr <$> volname s kd.

Lemma getroot_hit kd l n v :
  kd_wf (v_s v) kd -> raw_apart (v_s v) kd -> good_str n -> cstr n ∈ names (v_s v) kd ->
  getroot_loop (kd :: l) n v = kd_root kd (cstr n) v.
Proof.
  intros [Hn Hr Hv Hf Hs Hd] Hra Hg Hin. cbn [getroot_loop]. krun. rewrite streq_ok by done. krun.
  unfold names in Hin. rewrite elem_of_cons, elem_of_app, !elem_of_option_list in Hin. unfold kd_root, kassert.
  assert (Hsym : bool_decide (cstr (kd_name kd) = cstr n) = bool_decide (cstr n = cstr (kd_name kd)))
    by (apply bool_decide_ext; split; congruence). rewrite Hsym.
  destruct (bool_decide_reflect (cstr n = cstr (kd_name kd))) as [Heq|Hne].
  - destruct (kd_fs kd) as [| |fs] eqn:Efs.
    + destruct (kd_rawname kd) as [r|]; cbn [is_Some]; [rewrite bool_decide_true by eauto; done|].
      rewrite bool_decide_false by by intros []. cbn [andb]. krun. rewrite !bool_decide_true by eauto. by krun.
    + rewrite bool_decide_true by auto. done.
    + krun. unfold fsget. rewrite (Hf fs) by done. krun. rewrite bool_decide_false; [done|].
      intros E. destruct (kd_rawname kd) as [r|] eqn:Eraw; [|done]. injection E as E.
      destruct (Hra r Eraw) as [Hx _]. congruence.
  - destruct Hin as [|Hin]; [done|]. destruct (kd_fs kd) as [| |fs] eqn:Efs.
    1, 2: rewrite andb_false_r; cbn [andb]; krun; rewrite streq_opt_ok by done; krun;
      destruct Hin as [Hin|Hin]; [|unfold volname in Hin; by rewrite Efs in Hin];
      rewrite bool_decide_true by (by apply elem_of_option_list); krun;
      rewrite bool_decide_true by (apply Hd; destruct (kd_rawname kd); eauto; done); by krun.
    krun. unfold fsget. rewrite (Hf fs) by done. krun. rewrite streq_opt_ok by done. krun.
    destruct (bool_decide_reflect (Some (cstr n) = cstr <$> kd_rawname kd)) as [Er|Er].
    + rewrite bool_decide_false.
      2: { rewrite elem_of_option_list. intros E. destruct (kd_rawname kd) as [r|] eqn:Eraw; [|done].
           injection Er as Er. destruct (Hra r Eraw) as [_ Hx]. congruence. }
      krun. rewrite streq_opt_ok by done. krun. rewrite bool_decide_true by (by apply elem_of_option_list). krun.
      rewrite bool_decide_true by (apply Hd; right; destruct (kd_rawname kd); [eauto|done]). by krun.
    + rewrite bool_decide_true; [done|]. apply elem_of_option_list. destruct Hin as [Hin|Hin]; [congruence|done].
Qed.

Lemma getroot_skip kd l n v :
  kd_wf (v_s v) kd -> good_str n -> cstr n ∉ names (v_s v) kd ->
  getroot_loop (kd :: l) n v = getroot_loop l n v.
Proof.
  intros [Hn Hr Hv Hf Hs Hd] Hg Hin. cbn [getroot_loop]. krun. rewrite streq_ok by done. krun.
  unfold names in Hin. rewrite elem_of_cons, elem_of_app in Hin.
  rewrite (bool_decide_false (cstr (kd_name kd) = cstr n)) by (intros E; apply Hin; left; congruence). rewrite andb_false_r.
  assert (Hraw : (raw ← streq_opt (kd_rawname kd) n;
     if raw : bool then kassert (bool_decide (is_Some (kd_device kd)));; incref (kd_vnode kd);; mret (Ok (kd_vnode kd))
     else getroot_loop l n) v = getroot_loop l n v).
  { krun. rewrite streq_opt_ok by done. krun. rewrite bool_decide_false by tauto. done. }
  destruct (kd_fs kd) as [| |fs] eqn:Efs; [exact Hraw|exact Hraw|].
  krun. unfold fsget. rewrite (Hf fs) by done. krun. rewrite streq_opt_ok by done. krun.
  rewrite bool_decide_false by tauto. exact Hraw.
Qed.

(** Finding a device by name.  In a table where no two devices share a name, a
    name picks out its device wherever it stands: the name of a mounted device, or
    its volume's, gives the root of its file system, the name of a mountable device
    with none is ENXIO, its raw name or the name of any other device gives the
    device itself, and a name nothing has is ENODEV. *)
Theorem getroot_spec n v :
  table_wf (v_s v) (knowndevs v) -> Forall (raw_apart (v_s v)) (knowndevs v) -> good_str n ->
  lock_do_i_hold (curthread v) (vfs_biglock v) = true ->
  (forall i kd, knowndevs v !! i = Some kd -> cstr n ∈ names (v_s v) kd -> vfs_getroot n v = kd_root kd (cstr n) v) /\
  ((forall kd, kd ∈ knowndevs v -> cstr n ∉ names (v_s v) kd) -> vfs_getroot n v = Done (Err ENODEV, v)).
Proof.
  intros [Hwf Hu] Hra Hg Hl.
  assert (Hgo : vfs_getroot n v = getroot_loop (knowndevs v) n v).
  { unfold vfs_getroot, kassert_biglock, vfs_biglock_do_i_hold, kassert. krun. by rewrite Hl. }
  rewrite Hgo. clear Hgo Hl. split.
  - revert Hwf Hra Hu. induction (knowndevs v) as [|x l IH]; intros Hwf Hra Hu i kd Hi Hin; [done|].
    apply Forall_cons in Hwf as [Hx Hwf]. apply Forall_cons in Hra as [Hxa Hra]. destruct i as [|i].
    + injection Hi as ->. by apply getroot_hit.
    + rewrite getroot_skip; [|done..|].
      * apply (IH Hwf Hra) with i; [|done..]. intros a b p q m Ha Hb. intros. enough (Datatypes.S a = Datatypes.S b) by lia.
        by apply (Hu (Datatypes.S a) (Datatypes.S b) p q m).
      * intros Hx'. by pose proof (Hu 0%nat (Datatypes.S i) x kd _ eq_refl Hi Hx' Hin).
  - clear Hu Hra. revert Hwf. induction (knowndevs v) as [|x l IH]; intros Hwf Hn; [done|].
    apply Forall_cons in Hwf as [Hx Hwf]. rewrite getroot_skip; [|done..|apply Hn; by left].
    apply IH; [done|]. intros kd Hkd. apply Hn. by right.
Qed.
(** *** Adding a device *)

Definition raw_suffix : list Z := [114; 97; 119].

(** The entry made for a new device, with its vnode. *)
Definition new_kd (dname : list Z) (mountable : bool) (dev fs : option Z) (vnode : Z) : knowndev :=
  mkKd (cstr dname ++ [0]) (if mountable then Some (cstr dname ++ raw_suffix ++ [0]) else None) dev vnode
    (match fs with Some f => FS f | None => NO_FS end).

(** Two devices share a name. *)
Definition clash (s : S) (a b : knowndev) : Prop := exists n, n ∈ names s a /\ n ∈ names s b.

(** The thread can take the big lock: it is free, or already this thread's. *)
Definition biglock_ready v : Prop :=
  is_busy (vfs_biglock v) = false /\ lk_owner (vfs_biglock v) = None /\ vfs_biglock_depth v = 0 \/
  is_busy (vfs_biglock v) = true /\ lk_owner (vfs_biglock v) = Some (curthread v) /\ 0 < vfs_biglock_depth v < 2 ^ 32 - 1.

(** The state after an acquisition. *)
Definition inside v : vfs S :=
  set_biglock (held_by (curthread v) (vfs_biglock v)) (vfs_biglock_depth v + 1) v.

Lemma inside_held v : lock_do_i_hold (curthread (inside v)) (vfs_biglock (inside v)) = true.
Proof. by apply bool_decide_eq_true. Qed.

Lemma acquire_ok v : biglock_ready v -> vfs_biglock_acquire v = Done ((), inside v).
Proof.
  intros Hr. unfold vfs_biglock_acquire, inside. destruct Hr as [(Hb & Ho & Hz)|(Hb & Ho & Hz)].
  - unfold lock_do_i_hold. rewrite Ho, bool_decide_false by done. cbn [negb].
    rewrite lock_acquire_free by done. kred. rewrite Hz. done.
  - unfold lock_do_i_hold. rewrite Ho, bool_decide_true by done. cbn [negb].
    rewrite (proj2 (Z.eqb_neq _ 0)) by lia. kred. rewrite u32_small by lia. do 2 f_equal.
    unfold held_by. destruct (vfs_biglock v); cbn in *; by subst.
Qed.

(** The release that belongs to it. *)
Lemma release_ok v : biglock_ready v -> exists lk, forall w,
  vfs_biglock w = vfs_biglock (inside v) -> vfs_biglock_depth w = vfs_biglock_depth (inside v) -> curthread w = curthread (inside v) ->
  vfs_biglock_release w = Done ((), set_biglock lk (vfs_biglock_depth v) w).
Proof.
  intros Hr. exists (if vfs_biglock_depth v =? 0 then freed (vfs_biglock v) else vfs_biglock (inside v)). intros w Hlk Hd Hc.
  unfold vfs_biglock_release. rewrite Hlk, Hc, inside_held, Hd. cbn [inside set_biglock vfs_biglock_depth curthread vfs_biglock].
  rewrite Z.gtb_ltb, (proj2 (Z.ltb_lt 0 _)) by (destruct Hr; lia). kred.
  replace (vfs_biglock_depth v + 1 - 1) with (vfs_biglock_depth v) by lia.
  destruct (Z.eqb_spec (vfs_biglock_depth v) 0) as [E|E]; [|done]. rewrite lock_release_held. kred. done.
Qed.

Lemma kmalloc_ok v : v_mem v = [] -> kmalloc v = Done (true, v).
Proof. destruct v. cbn. intros ->. done. Qed.

Lemma is_str_cstr (l : list Z) r : Forall (fun c => c <> 0) l -> is_str (l ++ 0 :: r).
Proof. intros _. unfold is_str. apply elem_of_app. right. left. Qed.

Lemma good_cstr (l : list Z) r : bytes l -> bytes r -> good_str (l ++ 0 :: r).
Proof.
  intros Hl Hr. split; [unfold is_str; apply elem_of_app; right; left|].
  apply Forall_app. split; [done|]. constructor; [unfold is_byte; lia|done].
Qed.

Lemma bytes_cstr s : bytes s -> bytes (cstr s).
Proof.
  intros H. induction H as [|x s Hx _ IH]; [constructor|]. cbn. destruct (x =? 0); by constructor.
Qed.

Lemma dup_ok dname v : good_str dname -> v_mem v = [] -> dup dname v = Done (Some (cstr dname ++ [0]), v).
Proof.
  intros [Hs Hb] Hm. unfold dup. krun. rewrite kmalloc_ok by done. unfold kstrdup. rewrite strlen_ok by done. kred.
  rewrite strcpy_ok by (rewrite ?length_zeros; done || lia). kred. rewrite drop_ge; [done|]. rewrite length_zeros. lia.
Qed.

Lemma mkrawname_ok n v :
  Forall (fun c => c <> 0) n -> v_mem v = [] -> mkrawname (n ++ [0]) v = Done (Some (n ++ raw_suffix ++ [0]), v).
Proof.
  intros Hn Hm. unfold mkrawname, kmalloc_bytes. krun.
  rewrite strlen_ok by by apply is_str_cstr. krun. rewrite kmalloc_ok by done. krun. rewrite cstr_app by done.
  rewrite strcpy_ok; [|by apply is_str_cstr|rewrite cstr_app, length_zeros by done; lia].
  rewrite cstr_app by done. krun. unfold strcat.
  replace (drop _ (zeros _)) with (zeros 3)
    by (unfold zeros; rewrite drop_replicate; f_equal; lia).
  rewrite strlen_ok by by apply is_str_cstr. kred. rewrite cstr_app by done. rewrite Nat2Z.id, drop_app_length, take_app_length.
  cbn [zeros replicate strcpy Z.eqb]. done.
Qed.

Lemma samestring_ok a b v :
  (forall r, a = Some r -> good_str r) -> (forall r, b = Some r -> good_str r) ->
  exists e, samestring a b v = Done (e, v) /\ (e = true <-> exists n, cstr <$> a = Some n /\ cstr <$> b = Some n).
Proof.
  intros Ha Hb. destruct a as [a|], b as [b|]; cbn [samestring]; try (eexists; split; [done|split; [done|by intros (?&?&?)]]).
  rewrite streq_ok by auto. eexists. split; [done|]. rewrite bool_decide_eq_true. cbn. split.
  - intros ->. eauto.
  - intros (n & [= <-] & [= ->]). done.
Qed.

Lemma orelse_ok a b v p q e1 e2 :
  a v = Done (e1, v) -> (e1 = true <-> p) -> b v = Done (e2, v) -> (e2 = true <-> q) ->
  exists e, orelse a b v = Done (e, v) /\ (e = true <-> p \/ q).
Proof.
  intros Ha Hp Hb Hq. unfold orelse. rewrite K_bind_eq, Ha. destruct e1.
  - eexists. split; [done|]. tauto.
  - exists e2. split; [done|]. split; [tauto|]. intros [?%Hp|?]; [done|tauto].
Qed.

(** The names given to [samestring3]. *)
Definition among (n : list Z) (b c d : option (list Z)) : Prop :=
  cstr <$> b = Some n \/ cstr <$> c = Some n \/ cstr <$> d = Some n.
Definition good_opt (o : option (list Z)) : Prop := forall r, o = Some r -> good_str r.

Lemma samestring3_ok a b c d v :
  good_opt a -> good_opt b -> good_opt c -> good_opt d ->
  exists e, samestring3 a b c d v = Done (e, v) /\ (e = true <-> exists n, cstr <$> a = Some n /\ among n b c d).
Proof.
  intros Ha Hb Hc Hd. unfold samestring3, among.
  destruct (samestring_ok a b v Ha Hb) as (e1 & H1 & P1). destruct (samestring_ok a c v Ha Hc) as (e2 & H2 & P2).
  destruct (samestring_ok a d v Ha Hd) as (e3 & H3 & P3).
  destruct (orelse_ok _ _ v _ _ _ _ H2 P2 H3 P3) as (e4 & H4 & P4).
  destruct (orelse_ok _ _ v _ _ _ _ H1 P1 H4 P4) as (e5 & H5 & P5). exists e5. split; [done|]. rewrite P5. clear. split.
  - intros [(n & ? & ?)|[(n & ? & ?)|(n & ? & ?)]]; eauto 10.
  - intros (n & ? & [?|[?|?]]); eauto 10.
Qed.

Lemma badnames_loop_ok l n1 n2 n3 v :
  Forall (kd_wf (v_s v)) l -> good_opt n1 -> good_opt n2 -> good_opt n3 ->
  exists e, badnames_loop l n1 n2 n3 v = Done (e, v) /\
    (e = true <-> exists kd n, kd ∈ l /\ n ∈ names (v_s v) kd /\ among n n1 n2 n3).
Proof.
  intros Hwf G1 G2 G3. induction Hwf as [|kd l [Hn Hr Hv Hf _ _] _ IH]; cbn [badnames_loop].
  - eexists. split; [done|]. split; [done|]. intros (kd & n & Hkd & _). by apply not_elem_of_nil in Hkd.
  - destruct IH as (e & He & Pe).
    destruct (samestring3_ok (kd_rawname kd) n1 n2 n3 v) as (er & Her & Pr); [done..|].
    destruct (samestring3_ok (Some (kd_name kd)) n1 n2 n3 v) as (en & Hen & Pn); [by intros ? [= <-]|done..|].
    destruct (samestring3_ok (volname (v_s v) kd) n1 n2 n3 v) as (ev & Hev & Pv); [done..|].
    destruct (orelse_ok _ _ v _ _ _ _ Her Pr Hen Pn) as (e1 & H1 & P1).
    destruct (orelse_ok _ _ v _ _ _ _ H1 P1 He Pe) as (e2 & H2 & P2).
    assert (Hvol : (match kd_fs kd with
        | FS fs => volname ← fsget (fun s => FSOP_GETVOLNAME s fs); samestring3 volname n1 n2 n3
        | _ => mret false end) v = Done (ev, v)).
    { assert (Hnone : volname (v_s v) kd = None -> Done (false, v) = Done (ev, v)).
      { intros E. rewrite E in Pv. destruct ev; [|done]. by destruct (proj1 Pv eq_refl) as (? & ? & _). }
      destruct (kd_fs kd) as [| |fs] eqn:Efs; [apply Hnone; unfold volname; by rewrite Efs..|].
      rewrite K_bind_eq. unfold fsget. rewrite (Hf fs) by done. kred. done. }
    destruct (orelse_ok _ _ v _ _ _ _ Hvol Pv H2 P2) as (e3 & H3 & P3). exists e3. split; [exact H3|]. rewrite P3.
    unfold names. setoid_rewrite elem_of_cons. setoid_rewrite elem_of_app.
    setoid_rewrite elem_of_option_list. cbn [fmap option_fmap option_map]. split.
    + intros [(n & ? & ?)|[[(n & ? & ?)|(n & [= <-] & ?)]|(kd' & n & ? & ? & ?)]]; eauto 10.
    + intros (kd' & n & [->|Hin] & Hm & Ham); [|eauto 10]. destruct Hm as [->|[?|?]]; eauto 10.
Qed.
Lemma names_among s kd n : n ∈ names s kd <-> among n (Some (kd_name kd)) (kd_rawname kd) (volname s kd).
Proof.
  unfold names, among. rewrite elem_of_cons, elem_of_app, !elem_of_option_list. cbn.
  split; intros [?|[?|?]]; auto; left; congruence.
Qed.

Lemma new_kd_fs fs : (match fs with Some f => FS f | None => NO_FS end) <> SWAP_FS.
Proof. by destruct fs. Qed.

(** The checks of [vfs_doadd] and the entry it adds, once the names and the vnode
    are there. *)
Lemma doadd_tail dname mountable dev fs vn v :
  let kd := new_kd dname mountable dev fs vn in
  kd_wf (v_s v) kd -> Forall (kd_wf (v_s v)) (knowndevs v) -> v_mem v = [] ->
  lock_do_i_hold (curthread v) (vfs_biglock v) = true ->
  exists bad, (bad = true <-> exists old, old ∈ knowndevs v /\ clash (v_s v) old kd) /\
    (ok ← kmalloc;
     if negb ok then doadd_fail (Some vn) ENOMEM else
     volname ← match fs with Some fs => fsget (fun s => FSOP_GETVOLNAME s fs) | None => mret None end;
     bad ← badnames (Some (kd_name kd)) (kd_rawname kd) volname;
     if (bad : bool) then doadd_fail (Some vn) EEXIST else
     ok ← kmalloc;
     if negb ok then doadd_fail (Some vn) ENOMEM else
     index ← gets (fun v => Z.of_nat (length (knowndevs v)));
     modify (fun v => set_devs (knowndevs v ++ [kd]) v);;
     (match dev with Some d => modify (set_devnumber d (index + 1)) | None => mret () end);;
     vfs_biglock_release;;
     mret 0) v =
    if bad then doadd_fail (Some vn) EEXIST v
    else (vfs_biglock_release;; mret 0) (let w := set_devs (knowndevs v ++ [kd]) v in
      match dev with Some d => set_devnumber d (Z.of_nat (length (knowndevs v)) + 1) w | None => w end).
Proof.
  intros kd [Kn Kr Kv Kf _ _] Hl Hm Hh.
  destruct (badnames_loop_ok (knowndevs v) (Some (kd_name kd)) (kd_rawname kd) (volname (v_s v) kd) v) as (bad & Hbad & Pbad);
    [done|by intros ? [= <-]|done..|]. exists bad. split.
  { rewrite Pbad. unfold clash. setoid_rewrite names_among at 3.
    split; [intros (old & n & ? & ? & ?)|intros (old & ? & n & ? & ?)]; eauto. }
  krun. rewrite kmalloc_ok by done. krun.
  assert (Hvol : (match fs with Some fs => fsget (fun s => FSOP_GETVOLNAME s fs) | None => mret None end) v =
    Done (volname (v_s v) kd, v)).
  { destruct fs as [f|]; [|done]. unfold fsget. rewrite (Kf f) by done. done. }
  rewrite Hvol. krun. unfold badnames, kassert_biglock, vfs_biglock_do_i_hold, kassert. krun. rewrite Hh. krun.
  rewrite Hbad. krun. destruct bad; [done|]. krun. rewrite kmalloc_ok by done. krun. by destruct dev.
Qed.

(** [vfs_doadd] keeps names unique.  A device none of whose names is taken is
    added at the end of the table with the next number; with any clash the call
    fails with EEXIST, the table stays as it was and the new vnode is destroyed.  In
    both cases no two devices share a name afterwards if none did before. *)
Theorem doadd_spec dname mountable dev fs vn s1 v :
  biglock_ready v -> v_mem v = [] -> good_str dname ->
  dev_create_vnode (v_s v) dev = Done (Some vn, s1) ->
  let kd := new_kd dname mountable dev fs vn in
  kd_wf s1 kd -> table_wf s1 (knowndevs v) ->
  ((forall old, old ∈ knowndevs v -> ~ clash s1 old kd) ->
     exists v', vfs_doadd dname mountable dev fs v = Done (0, v') /\ v_s v' = s1 /\
       knowndevs v' = knowndevs v ++ [kd] /\ table_wf s1 (knowndevs v') /\
       (forall d, dev = Some d -> devnumbers v' !! d = Some (Z.of_nat (length (knowndevs v)) + 1))) /\
  (forall old s2, old ∈ knowndevs v -> clash s1 old kd -> dev_uncreate_vnode s1 vn = Done s2 ->
     exists v', vfs_doadd dname mountable dev fs v = Done (EEXIST, v') /\ v_s v' = s2 /\ knowndevs v' = knowndevs v).
Proof.
  intros Hready Hmem Hd Hdev kd Hkd Htab.
  set (w := set_s s1 (inside v)).
  destruct (doadd_tail dname mountable dev fs vn w) as (bad & Pbad & Hrun);
    [done|apply Htab|done|by apply bool_decide_eq_true|]. fold kd in Pbad, Hrun.
  destruct (release_ok v Hready) as [lk Hrel].
  assert (Hbody : vfs_doadd dname mountable dev fs v =
    if bad then doadd_fail (Some vn) EEXIST w
    else (vfs_biglock_release;; mret 0) (let x := set_devs (knowndevs w ++ [kd]) w in
      match dev with Some d => set_devnumber d (Z.of_nat (length (knowndevs w)) + 1) x | None => x end)).
  { rewrite <- Hrun. unfold vfs_doadd. rewrite K_bind_eq, acquire_ok by done. cbv beta iota. rewrite K_bind_eq, dup_ok by done. cbv beta iota.
    destruct mountable.
    - rewrite K_bind_eq, K_bind_eq, mkrawname_ok by (done || apply Forall_cstr). cbv beta iota. rewrite K_ret_eq. cbv beta iota.
      rewrite K_bind_eq. unfold fsop at 1. change (v_s (inside v)) with (v_s v). rewrite Hdev. kred. done.
    - rewrite K_bind_eq, K_ret_eq. cbv beta iota.
      rewrite K_bind_eq. unfold fsop at 1. change (v_s (inside v)) with (v_s v). rewrite Hdev. kred. done. }
  rewrite Hbody. clear Hbody Hrun. split.
  - intros Hno. destruct bad; [destruct (proj1 Pbad eq_refl) as (old & ? & ?); by destruct (Hno old)|].
    rewrite K_bind_eq, Hrel by (by destruct dev). cbv beta iota. rewrite K_ret_eq. eexists. split; [reflexivity|].
    split; [by destruct dev|]. split; [by destruct dev|]. split.
    + replace (knowndevs _) with (knowndevs v ++ [kd]) by by destruct dev. destruct Htab as [Hwf Hu]. split.
      { apply Forall_app. split; [done|]. by constructor. }
      intros i j a b n Hi Hj Ha Hb. rewrite lookup_app in Hi, Hj.
      destruct (knowndevs v !! i) as [x|] eqn:Ei, (knowndevs v !! j) as [y|] eqn:Ej;
        repeat match goal with H : Some _ = Some _ |- _ => injection H as -> end.
      * by apply (Hu i j a b n).
      * exfalso. apply list_lookup_singleton_Some in Hj as [_ <-]. apply (Hno a); [by apply list_elem_of_lookup_2 in Ei|].
        by exists n.
      * exfalso. apply list_lookup_singleton_Some in Hi as [_ <-]. apply (Hno b); [by apply list_elem_of_lookup_2 in Ej|].
        by exists n.
      * apply list_lookup_singleton_Some in Hi as [Hi _]. apply list_lookup_singleton_Some in Hj as [Hj _].
        apply lookup_ge_None in Ei, Ej. lia.
    + intros d ->. apply lookup_insert_eq.
  - intros old s2 Hold Hc Hun. destruct bad.
    2: { assert (false = true) by (apply Pbad; eauto). done. }
    unfold doadd_fail, fsdo. krun. cbn [w set_s v_s]. rewrite Hun. krun. rewrite Hrel by done. by eexists.
Qed.
(** ** The current directory *)

Lemma setcurdir_refs `{!VopsRefs S} dir n v :
  VOP_GETTYPE (v_s v) dir = Done (Ok S_IFDIR) -> vrefs (v_s v) dir = Some n -> 1 <= n ->
  (forall old, p_cwd v !! curproc v = Some old -> old <> dir -> exists k, vrefs (v_s v) old = Some k /\ 1 < k) ->
  exists v', vfs_setcurdir dir v = Done (0, v') /\ p_cwd v' = <[curproc v := dir]> (p_cwd v) /\
    curproc v' = curproc v /\
    (forall w k, vrefs (v_s v) w = Some k -> vrefs (v_s v') w =
       Some (k + (if decide (w = dir) then 1 else 0) - (if decide (p_cwd v !! curproc v = Some w) then 1 else 0))).
Proof.
  intros Ht Hn Hpos Hold. unfold vfs_setcurdir. krun. unfold fsget. rewrite Ht. kred.
  change (S_IFDIR =? S_IFDIR) with true. krun. unfold incref, fsdo.
  destruct (incref_law (v_s v) dir n Hn) as (s1 & -> & Hd1 & Ho1). kred.
  krun. cbn [p_cwd set_s curproc].
  destruct (p_cwd v !! curproc v) as [old|] eqn:Ecwd; krun.
  - unfold decref, fsdo. cbn [v_s set_cwd set_s].
    assert (Hk : exists k, vrefs s1 old = Some k /\ 1 < k).
    { destruct (decide (old = dir)) as [->|Hne]; [exists (n + 1); split; [done|lia]|].
      destruct (Hold old eq_refl Hne) as (k & ? & ?). exists k. by rewrite Ho1. }
    destruct Hk as (k & Hk & Hk1). destruct (decref_law s1 old k Hk Hk1) as (s2 & -> & Hd2 & Ho2). kred.
    eexists. split; [done|]. split; [done|]. split; [done|]. cbn [v_s set_s].
    intros w j Hw. destruct (decide (Some old = Some w)) as [[= <-]|Hwo].
    + rewrite Hd2. f_equal. destruct (decide (old = dir)) as [->|Hne]; [|rewrite Ho1 in Hk by done]; rewrite ?Hd1 in Hk; simplify_eq; lia.
    + rewrite Ho2 by congruence. destruct (decide (w = dir)) as [->|Hne]; [rewrite Hd1|rewrite Ho1, Hw by done]; f_equal; simplify_eq; lia.
  - eexists. split; [done|]. split; [done|]. split; [done|]. cbn [v_s set_s set_cwd].
    intros w j Hw. rewrite (decide_False (P := None = Some w)) by done. destruct (decide (w = dir)) as [->|Hne].
    + rewrite Hd1. f_equal. simplify_eq. lia.
    + rewrite Ho1, Hw by done. f_equal. lia.
Qed.

(** Changing directory moves one reference.  When the path leads to a
    directory, [vfs_chdir] makes it the process's current directory, and of the
    references there were after the lookup the directory keeps exactly one for it,
    the old current directory loses its own, and every other count is unchanged;
    when the path leads to something else the lookup's reference is given back and
    the current directory stays. *)
Theorem chdir_refs `{!VopsRefs S} path dir q n v v1 :
  vfs_lookup path v = Done ((Ok dir, q), v1) -> vrefs (v_s v1) dir = Some n ->
  (VOP_GETTYPE (v_s v1) dir = Done (Ok S_IFDIR) -> 1 <= n ->
   (forall old, p_cwd v1 !! curproc v1 = Some old -> exists k, vrefs (v_s v1) old = Some k /\ 1 < k) ->
   exists v', vfs_chdir path v = Done (0, v') /\ p_cwd v' !! curproc v' = Some dir /\
     (forall w k, vrefs (v_s v1) w = Some k ->
        vrefs (v_s v') w = Some (k - (if decide (p_cwd v1 !! curproc v1 = Some w) then 1 else 0)))) /\
  (forall type, VOP_GETTYPE (v_s v1) dir = Done (Ok type) -> type <> S_IFDIR -> 1 < n ->
   exists v', vfs_chdir path v = Done (ENOTDIR, v') /\ p_cwd v' = p_cwd v1 /\
     (forall w k, vrefs (v_s v1) w = Some k -> vrefs (v_s v') w = Some (k - if decide (w = dir) then 1 else 0))).
Proof.
  intros Hl Hn. split.
  - intros Ht Hpos Hold. unfold vfs_chdir. krun. rewrite Hl. krun.
    destruct (setcurdir_refs dir n v1) as (v2 & -> & Hcwd & Hcur & Hrefs); [done..|by intros old Ho _; apply Hold|]. krun.
    assert (Hd2 : exists k, vrefs (v_s v2) dir = Some k /\ 1 < k /\
      k = n + 1 - if decide (p_cwd v1 !! curproc v1 = Some dir) then 1 else 0).
    { eexists. rewrite (Hrefs dir n Hn). rewrite (decide_True (P := dir = dir)) by done. split; [done|]. split; [|done].
      destruct (decide (p_cwd v1 !! curproc v1 = Some dir)) as [E|E]; [|lia].
      destruct (Hold dir E) as (k & ? & ?). simplify_eq. lia. }
    destruct Hd2 as (k & Hk & Hk1 & Ek). unfold decref, fsdo. destruct (decref_law (v_s v2) dir k Hk Hk1) as (s3 & -> & Hd3 & Ho3).
    kred. eexists. split; [done|]. cbn [p_cwd set_s curproc v_s]. rewrite Hcwd, Hcur. split; [apply lookup_insert_eq|].
    intros w j Hw. destruct (decide (w = dir)) as [->|Hne].
    + rewrite Hd3. f_equal. simplify_eq. lia.
    + rewrite Ho3, (Hrefs w j Hw), decide_False by done. f_equal. lia.
  - intros type Ht Hne Hpos. unfold vfs_chdir. krun. rewrite Hl. krun. unfold vfs_setcurdir. krun. unfold fsget. rewrite Ht. kred.
    rewrite (proj2 (Z.eqb_neq type S_IFDIR)) by done. krun. unfold decref, fsdo.
    destruct (decref_law (v_s v1) dir n Hn Hpos) as (s2 & -> & Hd & Ho). kred. eexists. split; [done|]. split; [done|].
    intros w k Hw. cbn [v_s set_s]. destruct (decide (w = dir)) as [->|?]; [rewrite Hd|rewrite Ho, Hw by done];
      f_equal; simplify_eq; lia.
Qed.

(** ** The boot file system *)

Lemma take_cstr k s : is_str s -> take (Nat.min (length (cstr s)) k) s = take k (cstr s).
Proof.
  intros Hs. destruct (is_str_split s Hs) as [r Hr]. set (l := cstr s) in *. clearbody l. subst s.
  rewrite take_app_le by lia. destruct (decide (k <= length l)%nat).
  - by rewrite Nat.min_r by lia.
  - rewrite Nat.min_l, !take_ge by lia. done.
Qed.

Lemma setbootfs_tmp_ok fsname :
  is_str fsname -> let nm := take 254 (cstr fsname) in
  setbootfs_tmp fsname = Done (nm ++ 0 :: zeros (255 - length nm)).
Proof.
  intros Hs nm. unfold setbootfs_tmp. rewrite strlen_ok by done. kred.
  replace (Z.to_nat _) with (Nat.min (length (cstr fsname)) 254) by (unfold NAME_MAX; lia).
  rewrite take_cstr by done. fold nm. assert (length nm <= 254)%nat by (unfold nm; rewrite length_take; lia).
  replace (Z.to_nat (NAME_MAX + 1) - length nm)%nat with (1 + (255 - length nm))%nat by (unfold NAME_MAX; lia). done.
Qed.

Lemma add_colon nm k :
  Forall (fun c => c <> 0) nm -> strcat (nm ++ 0 :: zeros (1 + k)) [COLON; 0] = Done (nm ++ COLON :: zeros (1 + k)).
Proof.
  intros Hn. unfold strcat. rewrite strlen_ok by by apply is_str_cstr. kred.
  rewrite cstr_app by done. rewrite Nat2Z.id, drop_app_length, take_app_length. done.
Qed.

(** [vfs_setbootfs] takes a bare name only.  A name with a colon among its first
    254 characters, the trailing colon vfs.h allows included, is EINVAL and nothing
    changes; a name without one is looked up as a device, and on success that
    directory is both the current directory and the boot file system. *)
Theorem setbootfs_spec fsname v :
  biglock_ready v -> is_str fsname ->
  let nm := take 254 (cstr fsname) in
  (COLON ∈ nm -> exists lk, vfs_setbootfs fsname v = Done (EINVAL, set_biglock lk (vfs_biglock_depth v) v)) /\
  ((COLON ∉ nm) -> vfs_setbootfs fsname v = (
     vfs_biglock_acquire;;
     result ← (result ← vfs_chdir (nm ++ COLON :: zeros (255 - length nm));
       when_ok result (
       r ← vfs_getcurdir;
       match r with Err e => mret e | Ok newguy => change_bootfs (Some newguy);; mret 0 end));
     vfs_biglock_release;;
     mret result) v).
Proof.
  intros Hready Hs nm.
  assert (Hnm : Forall (fun c => c <> 0) nm) by apply Forall_take, Forall_cstr.
  assert (Hlen : (length nm <= 254)%nat) by (unfold nm; rewrite length_take; lia).
  pose proof (setbootfs_tmp_ok fsname Hs) as Htmp. cbv zeta in Htmp. fold nm in Htmp.
  destruct (strchr_ok (nm ++ 0 :: zeros (255 - length nm)) COLON) as (r & Hr & Hfound); [by apply is_str_cstr|].
  assert (Hat : forall i, found_at (nm ++ 0 :: zeros (255 - length nm)) COLON i <-> 0 <= i /\ nm !! Z.to_nat i = Some COLON).
  { intros i. unfold found_at. rewrite cstr_app by done. split.
    - intros [Hi Hc]. split; [lia|]. destruct (decide (Z.to_nat i < length nm)%nat); [by rewrite lookup_app_l in Hc by lia|].
      rewrite lookup_app_r in Hc by lia. replace (Z.to_nat i - length nm)%nat with 0%nat in Hc by lia. done.
    - intros [Hi Hc]. pose proof (lookup_lt_Some _ _ _ Hc). split; [lia|]. by rewrite lookup_app_l by lia. }
  split.
  - intros [j Hj]%list_elem_of_lookup_1. destruct r as [i|].
    2: { destruct (Hfound (Z.of_nat j)). apply Hat. rewrite Nat2Z.id. split; [lia|done]. }
    destruct Hfound as [[Hi Hc]%Hat _]. pose proof (lookup_lt_Some _ _ _ Hc) as Hlt.
    destruct (release_ok v Hready) as [lk Hrel]. exists lk. unfold vfs_setbootfs. krun. rewrite acquire_ok by done. krun.
    rewrite Htmp. kred. rewrite Hr. krun. rewrite drop_app_le by lia.
    rewrite (drop_S nm COLON) by done. cbn [app]. rewrite strlen_ok.
    2: { apply (is_str_cstr (COLON :: _)). by constructor; [|apply Forall_drop]. }
    cbn [cstr]. change (COLON =? 0) with false. cbn [length]. kred. rewrite Z.gtb_ltb, (proj2 (Z.ltb_lt 0 _)) by lia.
    krun. rewrite Hrel by done. done.
  - intros Hno. destruct r as [i|].
    { destruct Hfound as [[_ Hc]%Hat _]. destruct Hno. by apply list_elem_of_lookup_2 in Hc. }
    unfold vfs_setbootfs. apply K_bind_ext. intros _ w _. krun. rewrite Htmp. kred. rewrite Hr. krun.
    replace (255 - length nm)%nat with (1 + (254 - length nm))%nat by lia. rewrite add_colon by done. krun.
    unfold setbootfs_dir, when_ok. krun. destruct (vfs_chdir _ w) as [[result w1]| |]; [|done..]. destruct (negb (result =? 0)); krun; [done|].
    destruct (vfs_getcurdir w1) as [[[newguy|e] w2]| |]; krun; [|done..]. by destruct (change_bootfs _ w2) as [[[] w3]| |]; krun.
Qed.
End Vfs.
