(* ===== verification/FileTable.v ===== *)
(** * thread/file_table.c: open files and file tables

    Files and file tables are shared objects: they live in two stores, known by
    keys that stand for their addresses, and are reached through the slots of the
    tables.  Each carries its lock.  A lock the calling thread already holds is a
    [Panic], one another thread holds is [Blocked]; reading through a key that is
    not in its store, a freed object's, is a [Panic]. *)

From S2P Require Import Prelude Synch Cstring CopyInOut Uio Vop Vfs.

Definition OPEN_MAX : nat := 128.
Definition MIN_FD : nat := 3.
Definition FLOATING_FILE : Z := -1.
Definition ONE_FILE_OWNER : Z := 2.

Record file := mkFile {
  file_vnode : option Z;
  file_lock : lock;
  seek_pos : Z;
  file_path : list Z;
  master_fd : Z }.

Record file_table := mkFt {
  file_arr : list (option Z);
  file_table_lock : lock;
  num_files : Z }.

(** The file layer: the VFS below, the two stores, [kproc->proc_ft] and the
    [proc_ft] of the other processes, the memory of the current process and the
    console: what will be typed and what has been written. *)
Record files (S : Type) := mkFiles {
  f_vfs : vfs S;
  f_files : gmap Z file;
  f_tables : gmap Z file_table;
  kproc_ft : Z;
  f_next : Z;
  proc_ft : gmap Z Z;
  f_umem : umem;
  con_in : list Z;
  con_out : list Z }.
Arguments mkFiles {S}. Arguments f_vfs {S}. Arguments f_files {S}. Arguments f_tables {S}.
Arguments kproc_ft {S}. Arguments f_next {S}. Arguments proc_ft {S}. Arguments f_umem {S}.
Arguments con_in {S}. Arguments con_out {S}.

Section FileTable.
Context {S : Type} `{!Vops S}.
Implicit Types k : files S.
Abbreviation M := (K (files S)).

(** The state with another VFS, files, tables and next key; with other user memory
    and console. *)
Definition set_core (v : vfs S) (F : gmap Z file) (T : gmap Z file_table) (n : Z) k : files S :=
  mkFiles v F T (kproc_ft k) n (proc_ft k) (f_umem k) (con_in k) (con_out k).
Definition set_user (m : umem) (cin cout : list Z) k : files S :=
  mkFiles (f_vfs k) (f_files k) (f_tables k) (kproc_ft k) (f_next k) (proc_ft k) m cin cout.
Definition set_proc_ft (P : gmap Z Z) k : files S :=
  mkFiles (f_vfs k) (f_files k) (f_tables k) (kproc_ft k) (f_next k) P (f_umem k) (con_in k) (con_out k).

Definition set_vfs (v : vfs S) k : files S := set_core v (f_files k) (f_tables k) (f_next k) k.
Definition put_file (p : Z) (f : file) k : files S :=
  set_core (f_vfs k) (<[p := f]> (f_files k)) (f_tables k) (f_next k) k.
Definition free_file (p : Z) k : files S := set_core (f_vfs k) (delete p (f_files k)) (f_tables k) (f_next k) k.
Definition put_table (t : Z) (x : file_table) k : files S :=
  set_core (f_vfs k) (f_files k) (<[t := x]> (f_tables k)) (f_next k) k.
Definition free_table (t : Z) k : files S := set_core (f_vfs k) (f_files k) (delete t (f_tables k)) (f_next k) k.
Definition fresh_key k : files S := set_core (f_vfs k) (f_files k) (f_tables k) (f_next k + 1) k.

(** A VFS call. *)
Definition vcall {A} (m : K (vfs S) A) : M A := zoom f_vfs set_vfs m.

Definition get_file (p : Z) : M file := fun k => f ← deref (f_files k !! p); Done (f, k).
Definition get_table (t : Z) : M file_table := fun k => x ← deref (f_tables k !! t); Done (x, k).
Definition upd_file (p : Z) (g : file -> file) : M unit := f ← get_file p; modify (put_file p (g f)).
Definition upd_table (t : Z) (g : file_table -> file_table) : M unit := x ← get_table t; modify (put_table t (g x)).

Definition with_flock (lk : lock) (f : file) : file := mkFile (file_vnode f) lk (seek_pos f) (file_path f) (master_fd f).
Definition with_vnode (v : option Z) (f : file) : file := mkFile v (file_lock f) (seek_pos f) (file_path f) (master_fd f).
Definition with_seek (n : Z) (f : file) : file := mkFile (file_vnode f) (file_lock f) n (file_path f) (master_fd f).
Definition with_master (n : Z) (f : file) : file := mkFile (file_vnode f) (file_lock f) (seek_pos f) (file_path f) n.
Definition with_tlock (lk : lock) (x : file_table) : file_table := mkFt (file_arr x) lk (num_files x).
Definition with_slot (i : nat) (p : option Z) (x : file_table) : file_table :=
  mkFt (<[i := p]> (file_arr x)) (file_table_lock x) (num_files x).

Definition me : M Z := gets (fun k => curthread (f_vfs k)).

(** The two kinds of locks. *)
Definition flock (p : Z) : M unit :=
  t ← me; f ← get_file p; lk ← lift (lock_acquire t (file_lock f)); modify (put_file p (with_flock lk f)).
Definition funlock (p : Z) : M unit :=
  t ← me; f ← get_file p; '(_, lk) ← lift (lock_release t (file_lock f)); modify (put_file p (with_flock lk f)).
Definition tlock (t : Z) : M unit :=
  h ← me; x ← get_table t; lk ← lift (lock_acquire h (file_table_lock x)); modify (put_table t (with_tlock lk x)).
Definition tunlock (t : Z) : M unit :=
  h ← me; x ← get_table t; '(_, lk) ← lift (lock_release h (file_table_lock x)); modify (put_table t (with_tlock lk x)).

(** [file_arr[i]], read and written; outside the array anything could happen. *)
Definition get_slot (t : Z) (i : nat) : M (option Z) := x ← get_table t; lift (deref (file_arr x !! i)).
Definition set_slot (t : Z) (i : nat) (p : option Z) : M unit :=
  x ← get_table t; kassert (bool_decide (i < length (file_arr x))%nat);; modify (put_table t (with_slot i p x)).

Definition kft : M Z := gets kproc_ft.

(** ** Files *)

Definition file_create (path : list Z) : M (option Z) :=
  ok ← vcall kmalloc;
  if negb ok then mret None else
  path ← vcall (dup path);
  match path with
  | None => mret None
  | Some path =>
      lk ← vcall (fun v => let '(lk, mem) := lock_create (v_mem v) in Done (lk, set_mem mem v));
      match lk with
      | None => mret None
      | Some lk =>
          p ← gets f_next;
          modify fresh_key;;
          modify (put_file p (mkFile None lk 0 path FLOATING_FILE));;
          mret (Some p)
      end
  end.

(** [kproc->proc_ft->file_arr[fd] = NULL] under its lock. *)
Definition clear_master (fd : Z) : M unit :=
  g ← kft;
  tlock g;;
  kassert (0 <=? fd);;
  set_slot g (Z.to_nat fd) None;;
  tunlock g.

Definition file_destroy (f : option Z) : M Z :=
  match f with
  | None => mret 0
  | Some p =>
      flock p;;
      x ← get_file p;
      v ← lift (deref (file_vnode x));
      refs ← vcall (fsget (fun s => vn_refcount_of s v));
      if refs =? ONE_FILE_OWNER then
        vcall (decref v);;
        upd_file p (fun x => with_seek 0 (with_vnode None x));;
        (if negb (master_fd x =? FLOATING_FILE) then clear_master (master_fd x) else mret ());;
        upd_file p (with_master 0);;
        funlock p;;
        t ← me; x ← get_file p; lift (lock_destroy t (file_lock x));;
        modify (free_file p);;
        mret 0
      else
        vcall (decref v);;
        funlock p;;
        mret 0
  end.

(** The result is -1 or 0. *)
Definition file_copy (file_t : option Z) (oldfd newfd : Z) : M Z :=
  if (oldfd <? Z.of_nat MIN_FD) || (newfd <? Z.of_nat MIN_FD) || (oldfd >=? Z.of_nat OPEN_MAX) || (newfd >=? Z.of_nat OPEN_MAX)
  then mret (-1) else
  match file_t with
  | None => mret (-1)
  | Some t =>
      g ← kft;
      src ← get_slot g (Z.to_nat oldfd);
      if bool_decide (src = None) then mret (-1) else
      tlock t;;
      local ← get_slot t (Z.to_nat oldfd);
      p ← lift (deref local);
      flock p;;
      tlock g;;
      old ← get_slot t (Z.to_nat newfd);
      (if bool_decide (is_Some old) then file_destroy old;; mret () else mret ());;
      src ← get_slot g (Z.to_nat oldfd);
      set_slot t (Z.to_nat newfd) src;;
      tunlock g;;
      local ← get_slot t (Z.to_nat oldfd);
      p ← lift (deref local);
      funlock p;;
      tunlock t;;
      mret 0
  end.

(** ** File tables *)

Definition empty_arr : list (option Z) := replicate OPEN_MAX None.

(** [tmp->file_arr] is inside [*tmp], so it is never null. *)
Definition file_table_create : M (option Z) :=
  ok ← vcall kmalloc;
  if negb ok then mret None else
  lk ← vcall (fun v => let '(lk, mem) := lock_create (v_mem v) in Done (lk, set_mem mem v));
  match lk with
  | None => mret None
  | Some lk =>
      t ← gets f_next;
      modify fresh_key;;
      modify (put_table t (mkFt empty_arr lk 0));;
      mret (Some t)
  end.

Fixpoint destroy_loop (n i : nat) (t : Z) : M unit :=
  match n with
  | O => mret ()
  | Datatypes.S n =>
      p ← get_slot t i;
      file_destroy p;;
      destroy_loop n (Datatypes.S i) t
  end.

(** [kfree(file_t->file_arr)] frees the whole table: [file_arr] is its first
    member.  The rest of the function then works on freed memory. *)
Definition file_table_destroy (t : Z) : M Z :=
  tlock t;;
  destroy_loop OPEN_MAX 0 t;;
  upd_table t (fun x => mkFt (file_arr x) (file_table_lock x) 0);;
  modify (free_table t);;
  tunlock t;;
  h ← me; x ← get_table t; lift (lock_destroy h (file_table_lock x));;
  modify (free_table t);;
  mret 0.

(** The loop of [file_table_add] from slot [i] on: the descriptor if both slots were
    found, and [fd] as it then stands. *)
Fixpoint add_loop (n i : nat) (g t p : Z) (fd : Z) : M (option Z * Z) :=
  match n with
  | O => mret (None, fd)
  | Datatypes.S n =>
      slot ← get_slot g i;
      x ← get_file p;
      (if bool_decide (slot = None) && (master_fd x =? FLOATING_FILE) then
         set_slot g i (Some p);; upd_file p (with_master (Z.of_nat i))
       else mret ());;
      slot ← get_slot t i;
      fd ← (if bool_decide (slot = None) && (fd <? Z.of_nat MIN_FD) then
              set_slot t i (Some p);;
              x ← get_file p; v ← lift (deref (file_vnode x)); vcall (incref v);;
              mret (Z.of_nat i)
            else mret fd);
      x ← get_file p;
      if (fd >=? Z.of_nat MIN_FD) && negb (master_fd x =? FLOATING_FILE) then mret (Some fd, fd)
      else add_loop n (Datatypes.S i) g t p fd
  end.

Definition file_table_add (t : Z) (f : option Z) : M Z :=
  g ← kft;
  gt ← get_table g;
  if num_files gt =? Z.of_nat OPEN_MAX then mret (-1) else
  match f with
  | None => mret (-1)
  | Some p =>
      x ← get_file p;
      if bool_decide (file_vnode x = None) then mret (-1) else
      flock p;; tlock t;; tlock g;;
      '(found, fd) ← add_loop (OPEN_MAX - MIN_FD) MIN_FD g t p FLOATING_FILE;
      match found with
      | Some fd => tunlock g;; tunlock t;; funlock p;; mret fd
      | None =>
          (if fd >=? Z.of_nat MIN_FD then
             set_slot t (Z.to_nat fd) None;;
             x ← get_file p; v ← lift (deref (file_vnode x)); vcall (decref v)
           else mret ());;
          x ← get_file p;
          (if negb (master_fd x =? FLOATING_FILE) then
             set_slot g (Z.to_nat (master_fd x)) None;; upd_file p (with_master FLOATING_FILE)
           else mret ());;
          tunlock g;; tunlock t;; funlock p;; mret (-1)
      end
  end.

(** [fd] is checked against the end of the table by the callers only. *)
Definition file_table_lookup (file_t : option Z) (fd : Z) : M (option Z) :=
  match file_t with
  | None => mret None
  | Some t =>
      if fd <? 3 then mret None else
      tlock t;;
      f ← get_slot t (Z.to_nat fd);
      tunlock t;;
      mret f
  end.

Fixpoint copy_loop (n i : nat) (t new : Z) : M unit :=
  match n with
  | O => mret ()
  | Datatypes.S n =>
      slot ← get_slot t i;
      match slot with
      | None => mret ()
      | Some p =>
          flock p;;
          set_slot new i (Some p);;
          x ← get_file p; v ← lift (deref (file_vnode x)); vcall (incref v);;
          funlock p
      end;;
      copy_loop n (Datatypes.S i) t new
  end.

Definition file_table_copy (file_t : option Z) : M (option Z) :=
  match file_t with
  | None => mret None
  | Some t =>
      tlock t;;
      new ← file_table_create;
      match new with
      | None => mret None
      | Some n =>
          x ← get_table t;
          upd_table n (fun y => mkFt (file_arr y) (file_table_lock y) (num_files x));;
          copy_loop (OPEN_MAX - MIN_FD) MIN_FD t n;;
          tunlock t;;
          mret (Some n)
      end
  end.
End FileTable.

(** ** A state with two tables and a file in view *)

Section View.
Context {S : Type} `{!Vops S}.
Context (t g p : Z) (Htg : t <> g).
Context (k0 : files S) (Hkg : kproc_ft k0 = g).
Abbreviation V := (f_vfs k0).

Definition view (gx tx : file_table) (f : file) (s : S) : files S :=
  set_core (set_s s V) (<[p := f]> (f_files k0)) (<[t := tx]> (<[g := gx]> (f_tables k0))) (f_next k0) k0.

Lemma view_id gx tx f :
  f_files k0 !! p = Some f -> f_tables k0 !! g = Some gx -> f_tables k0 !! t = Some tx ->
  view gx tx f (v_s V) = k0.
Proof.
  intros Hf Hgx Htx. unfold view. rewrite (insert_id _ g gx), (insert_id _ t tx), (insert_id _ p f) by done.
  destruct k0 as [[] ? ? ? ? ? ? ? ?]. done.
Qed.

Lemma view_get_g gx tx f s : get_table g (view gx tx f s) = Done (gx, view gx tx f s).
Proof. unfold get_table. cbn. rewrite lookup_insert_ne, lookup_insert_eq by done. done. Qed.
Lemma view_get_t gx tx f s : get_table t (view gx tx f s) = Done (tx, view gx tx f s).
Proof. unfold get_table. cbn. rewrite lookup_insert_eq. done. Qed.
Lemma view_get_p gx tx f s : get_file p (view gx tx f s) = Done (f, view gx tx f s).
Proof. unfold get_file. cbn. rewrite lookup_insert_eq. done. Qed.
Lemma view_put_g x gx tx f s : put_table g x (view gx tx f s) = view x tx f s.
Proof.
  unfold put_table, view, set_core. cbn. f_equal. rewrite (insert_insert_ne _ g t) by done. by rewrite insert_insert_eq.
Qed.
Lemma view_put_t x gx tx f s : put_table t x (view gx tx f s) = view gx x f s.
Proof. unfold put_table, view, set_core. cbn. f_equal. by rewrite insert_insert_eq. Qed.
Lemma view_put_p x gx tx f s : put_file p x (view gx tx f s) = view gx tx x s.
Proof. unfold put_file, view, set_core. cbn. f_equal. by rewrite insert_insert_eq. Qed.
Lemma view_me gx tx f s : me (view gx tx f s) = Done (curthread V, view gx tx f s).
Proof. done. Qed.
Lemma view_kft gx tx f s : kft (view gx tx f s) = Done (g, view gx tx f s).
Proof. unfold kft, gets. cbn. by rewrite Hkg. Qed.

Lemma view_slot_g i o gx tx f s :
  file_arr gx !! i = Some o -> get_slot g i (view gx tx f s) = Done (o, view gx tx f s).
Proof. intros Hi. unfold get_slot. krun. rewrite view_get_g. krun. by rewrite Hi. Qed.
Lemma view_slot_t i o gx tx f s :
  file_arr tx !! i = Some o -> get_slot t i (view gx tx f s) = Done (o, view gx tx f s).
Proof. intros Hi. unfold get_slot. krun. rewrite view_get_t. krun. by rewrite Hi. Qed.
Lemma view_set_g i o gx tx f s :
  (i < length (file_arr gx))%nat -> set_slot g i o (view gx tx f s) = Done ((), view (with_slot i o gx) tx f s).
Proof.
  intros Hi. unfold set_slot, kassert. krun. rewrite view_get_g. krun. rewrite bool_decide_true by done. krun.
  by rewrite view_put_g.
Qed.
Lemma view_set_t i o gx tx f s :
  (i < length (file_arr tx))%nat -> set_slot t i o (view gx tx f s) = Done ((), view gx (with_slot i o tx) f s).
Proof.
  intros Hi. unfold set_slot, kassert. krun. rewrite view_get_t. krun. rewrite bool_decide_true by done. krun.
  by rewrite view_put_t.
Qed.
Lemma view_upd_p h gx tx f s : upd_file p h (view gx tx f s) = Done ((), view gx tx (h f) s).
Proof. unfold upd_file. krun. rewrite view_get_p. krun. by rewrite view_put_p. Qed.

Lemma view_incref v s' gx tx f s :
  VOP_INCREF s v = Done s' -> vcall (incref v) (view gx tx f s) = Done ((), view gx tx f s').
Proof. intros H. unfold vcall, zoom, incref, fsdo. cbn [view set_core f_vfs set_s v_s]. rewrite H. done. Qed.
Lemma view_decref v s' gx tx f s :
  VOP_DECREF s v = Done s' -> vcall (decref v) (view gx tx f s) = Done ((), view gx tx f s').
Proof. intros H. unfold vcall, zoom, decref, fsdo. cbn [view set_core f_vfs set_s v_s]. rewrite H. done. Qed.
Lemma view_refs v n gx tx f s :
  vn_refcount_of s v = Done n -> vcall (fsget (fun s => vn_refcount_of s v)) (view gx tx f s) = Done (n, view gx tx f s).
Proof. intros H. unfold vcall, zoom, fsget. cbn [view set_core f_vfs set_s v_s]. rewrite H. done. Qed.

(** A lock this thread can take now, and the one it becomes. *)
Definition free_lock (lk : lock) : Prop := is_busy lk = false /\ lk_owner lk = None.
Definition held (lk : lock) : lock := held_by (curthread V) lk.

Lemma view_flock gx tx f s :
  free_lock (file_lock f) -> flock p (view gx tx f s) = Done ((), view gx tx (with_flock (held (file_lock f)) f) s).
Proof.
  intros [Hb Ho]. unfold flock. krun. rewrite view_me. krun. rewrite view_get_p. krun.
  rewrite lock_acquire_free by done. krun. by rewrite view_put_p.
Qed.
Lemma view_tlock_t gx tx f s :
  free_lock (file_table_lock tx) -> tlock t (view gx tx f s) = Done ((), view gx (with_tlock (held (file_table_lock tx)) tx) f s).
Proof.
  intros [Hb Ho]. unfold tlock. krun. rewrite view_me. krun. rewrite view_get_t. krun.
  rewrite lock_acquire_free by done. krun. by rewrite view_put_t.
Qed.
Lemma view_tlock_g gx tx f s :
  free_lock (file_table_lock gx) -> tlock g (view gx tx f s) = Done ((), view (with_tlock (held (file_table_lock gx)) gx) tx f s).
Proof.
  intros [Hb Ho]. unfold tlock. krun. rewrite view_me. krun. rewrite view_get_g. krun.
  rewrite lock_acquire_free by done. krun. by rewrite view_put_g.
Qed.
Lemma view_funlock lk gx tx f s :
  file_lock f = held lk -> funlock p (view gx tx f s) = Done ((), view gx tx (with_flock (freed lk) f) s).
Proof.
  intros Hl. unfold funlock. krun. rewrite view_me. krun. rewrite view_get_p. krun.
  rewrite Hl. unfold held. rewrite lock_release_held. krun. by rewrite view_put_p.
Qed.
Lemma view_tunlock_t lk gx tx f s :
  file_table_lock tx = held lk -> tunlock t (view gx tx f s) = Done ((), view gx (with_tlock (freed lk) tx) f s).
Proof.
  intros Hl. unfold tunlock. krun. rewrite view_me. krun. rewrite view_get_t. krun.
  rewrite Hl. unfold held. rewrite lock_release_held. krun. by rewrite view_put_t.
Qed.
Lemma view_tunlock_g lk gx tx f s :
  file_table_lock gx = held lk -> tunlock g (view gx tx f s) = Done ((), view (with_tlock (freed lk) gx) tx f s).
Proof.
  intros Hl. unfold tunlock. krun. rewrite view_me. krun. rewrite view_get_g. krun.
  rewrite Hl. unfold held. rewrite lock_release_held. krun. by rewrite view_put_g.
Qed.

(** The first empty slot among the [n] from [i] on. *)
Fixpoint find_free (n i : nat) (arr : list (option Z)) : option nat :=
  match n with
  | O => None
  | Datatypes.S n => if bool_decide (arr !! i = Some None) then Some i else find_free n (Datatypes.S i) arr
  end.
Definition first_free (x : file_table) : option nat := find_free (OPEN_MAX - MIN_FD) MIN_FD (file_arr x).

(** A table with the file in the slot found, if any; the file's [master_fd] and the
    descriptor likewise. *)
Definition fill (o : option nat) (x : file_table) : file_table :=
  match o with Some i => with_slot i (Some p) x | None => x end.
Definition number (o : option nat) (d : Z) : Z := match o with Some i => Z.of_nat i | None => d end.

Context `{!VopsRefs S}.

Lemma with_master_id f : with_master (master_fd f) f = f.
Proof. by destruct f. Qed.

(** What the loop does from slot [i] on, when it still looks for a slot in the
    global table ([lg]) and in the local one ([lt]). *)
Definition pick (look : bool) (n i : nat) (x : file_table) : option nat :=
  if look then find_free n i (file_arr x) else None.

Lemma add_loop_ok v c n i fd gx tx f s :
  (i + n <= length (file_arr gx))%nat -> (i + n <= length (file_arr tx))%nat -> (3 <= i)%nat ->
  file_vnode f = Some v -> vrefs s v = Some c ->
  let lg := master_fd f =? FLOATING_FILE in
  let lt := fd <? 3 in
  lg || lt = true ->
  (lg = false -> 3 <= master_fd f) ->
  let gi := pick lg n i gx in
  let ti := pick lt n i tx in
  exists s', vrefs s' v = Some (c + if ti is Some _ then 1 else 0) /\ (forall w, w <> v -> vrefs s' w = vrefs s w) /\
    let k' := view (fill gi gx) (fill ti tx) (with_master (number gi (master_fd f)) f) s' in
    let fd' := number ti fd in
    add_loop n i g t p fd (view gx tx f s) =
      Done (if (fd' >=? 3) && negb (number gi (master_fd f) =? FLOATING_FILE) then Some fd' else None, fd', k').
Proof.
  intros Hlg Hlt Hi Hv. revert i fd gx tx f s c Hlg Hlt Hi Hv.
  induction n as [|n IH]; intros i fd gx tx f s c Hlg Hlt Hi Hv Hc lg lt Hlook Hm gi ti.
  { exists s. subst gi ti. unfold pick. cbn [find_free]. split; [destruct lt; by rewrite Z.add_0_r|]. split; [done|].
    assert ((if lg then None else None : option nat) = None) as -> by by destruct lg.
    assert ((if lt then None else None : option nat) = None) as -> by by destruct lt.
    cbn [fill number add_loop]. rewrite with_master_id. rewrite K_ret_eq. do 3 f_equal.
    subst lg lt. destruct (Z.eqb_spec (master_fd f) FLOATING_FILE); [by rewrite andb_false_r|].
    destruct (Z.geb_spec fd 3); [|done]. destruct (Z.ltb_spec fd 3); [lia|done]. }
  destruct (lookup_lt_is_Some_2 (file_arr gx) i) as [og Hog]; [lia|].
  destruct (lookup_lt_is_Some_2 (file_arr tx) i) as [ot Hot]; [lia|].
  cbn [add_loop]. krun. rewrite (view_slot_g i og) by done. krun. rewrite view_get_p. krun.
  (* the global slot *)
  set (a := bool_decide (og = None) && lg).
  assert (Hstep1 : (if bool_decide (og = None) && (master_fd f =? FLOATING_FILE)
      then set_slot g i (Some p);; upd_file p (with_master (Z.of_nat i)) else mret ()) (view gx tx f s) =
    Done ((), view (if a then with_slot i (Some p) gx else gx) tx (if a then with_master (Z.of_nat i) f else f) s)).
  { fold lg a. destruct a; [|done]. krun. rewrite view_set_g by lia. krun. by rewrite view_upd_p. }
  rewrite Hstep1. clear Hstep1. krun.
  set (gx1 := if a then with_slot i (Some p) gx else gx). set (f1 := if a then with_master (Z.of_nat i) f else f).
  rewrite (view_slot_t i ot) by done. krun.
  assert (Hv1 : file_vnode f1 = Some v) by by subst f1; destruct a.
  (* the local slot *)
  set (b := bool_decide (ot = None) && lt).
  destruct (incref_law s v c Hc) as (si & Hinc & Hsi & Hso).
  set (s1 := if b then si else s). set (tx1 := if b then with_slot i (Some p) tx else tx).
  set (fd1 := if b then Z.of_nat i else fd).
  assert (Hstep2 : (if bool_decide (ot = None) && (fd <? Z.of_nat MIN_FD)
      then set_slot t i (Some p);; x ← get_file p; v ← lift (deref (file_vnode x)); vcall (incref v);; mret (Z.of_nat i)
      else mret fd) (view gx1 tx f1 s) = Done (fd1, view gx1 tx1 f1 s1)).
  { change (fd <? Z.of_nat MIN_FD) with lt. fold b. subst fd1 tx1 s1. destruct b; [|done]. krun. rewrite view_set_t by lia. krun.
    rewrite view_get_p. krun. rewrite Hv1. krun. by rewrite (view_incref v si) by done. }
  rewrite Hstep2. clear Hstep2. krun. rewrite view_get_p. krun.
  assert (Hc1 : vrefs s1 v = Some (c + if b then 1 else 0)) by (subst s1; destruct b; [done|by rewrite Z.add_0_r]).
  assert (Ho1 : forall w, w <> v -> vrefs s1 w = vrefs s w) by (subst s1; destruct b; [done|by intros]).
  change (Z.of_nat MIN_FD) with 3.
  assert (Hgi : gi = if a then Some i else pick lg n (Datatypes.S i) gx).
  { subst gi a. unfold pick. cbn [find_free]. rewrite Hog. destruct lg; rewrite ?andb_true_r, ?andb_false_r; [|done].
    by destruct og. }
  assert (Hti : ti = if b then Some i else pick lt n (Datatypes.S i) tx).
  { subst ti b. unfold pick. cbn [find_free]. rewrite Hot. destruct lt; rewrite ?andb_true_r, ?andb_false_r; [|done].
    by destruct ot. }
  set (lg1 := master_fd f1 =? FLOATING_FILE). set (lt1 := fd1 <? 3).
  assert (Hlg1 : lg1 = if a then false else lg).
  { subst lg1 f1. destruct a; [|done]. cbn [with_master master_fd]. unfold FLOATING_FILE. lia. }
  assert (Hlt1 : lt1 = if b then false else lt) by (subst lt1 fd1; destruct b; [lia|done]).
  assert (Hge : (fd1 >=? 3) = negb lt1) by (subst lt1; lia). rewrite Hge.
  assert (Hgi1 : fill gi gx = fill (pick lg1 n (Datatypes.S i) gx1) gx1 /\
    number gi (master_fd f) = number (pick lg1 n (Datatypes.S i) gx1) (master_fd f1) /\
    with_master (number gi (master_fd f)) f = with_master (number gi (master_fd f)) f1).
  { rewrite Hgi, Hlg1. subst gx1 f1. destruct a; done. }
  assert (Hti1 : fill ti tx = fill (pick lt1 n (Datatypes.S i) tx1) tx1 /\
    number ti fd = number (pick lt1 n (Datatypes.S i) tx1) fd1 /\
    (if ti is Some _ then 1 else 0) = (if b then 1 else 0) + (if pick lt1 n (Datatypes.S i) tx1 is Some _ then 1 else 0)).
  { rewrite Hti, Hlt1. subst tx1 fd1. destruct b; [done|]. split; [done|]. split; [done|]. by rewrite Z.add_0_l. }
  destruct Hgi1 as (Hf1 & Hn1 & Hw1). destruct Hti1 as (Hf2 & Hn2 & Hc2). cbv zeta. rewrite Hw1, Hf1, Hf2, Hc2, Hn1, Hn2.
  destruct (negb lt1 && negb lg1) eqn:Edone.
  - apply andb_true_iff in Edone as [El%negb_true_iff Eg%negb_true_iff]. rewrite El, Eg. unfold pick. cbn [fill number].
    rewrite with_master_id, Hge, Z.add_0_r. change (master_fd f1 =? FLOATING_FILE) with lg1. rewrite El, Eg. exists s1. done.
  - destruct (IH (Datatypes.S i) fd1 gx1 tx1 f1 s1 (c + if b then 1 else 0)) as (s' & Hs' & Ho' & Hrun).
    + subst gx1. destruct a; cbn [with_slot file_arr]; rewrite ?length_insert; lia.
    + subst tx1. destruct b; cbn [with_slot file_arr]; rewrite ?length_insert; lia.
    + lia.
    + done.
    + done.
    + fold lg1 lt1. by destruct lg1, lt1.
    + fold lg1. intros E. rewrite Hlg1 in E. subst f1. destruct a; [cbn; lia|by apply Hm].
    + fold lg1 lt1 in Hs', Hrun. exists s'. rewrite Hs', Z.add_assoc. split; [done|].
      split; [intros w Hw; by rewrite Ho', Ho1|]. rewrite <- Hrun. done.
Qed.

Lemma find_free_least n i arr j :
  find_free n i arr = Some j ->
  (i <= j < i + n)%nat /\ arr !! j = Some None /\ forall h, (i <= h < j)%nat -> arr !! h <> Some None.
Proof.
  revert i. induction n as [|n IH]; intros i; cbn [find_free]; [done|].
  destruct (bool_decide_reflect (arr !! i = Some None)) as [E|E].
  - intros [= ->]. split; [lia|]. split; [done|]. intros h Hh. lia.
  - intros (Hj & Ha & Hl)%IH. split; [lia|]. split; [done|]. intros h Hh.
    destruct (decide (h = i)) as [->|]; [done|]. apply Hl. lia.
Qed.

Lemma with_slot_undo i q x : file_arr x !! i = Some None -> with_slot i None (with_slot i q x) = x.
Proof.
  intros Hi. unfold with_slot. cbn. rewrite list_insert_insert_eq, list_insert_id by done. by destruct x.
Qed.

Definition trelease (x : file_table) : file_table := with_tlock (freed (file_table_lock x)) x.
Definition frelease (f : file) : file := with_flock (freed (file_lock f)) f.

Lemma view_unlock3 lg lt lf gx tx f s (r : Z) :
  file_table_lock gx = held lg -> file_table_lock tx = held lt -> file_lock f = held lf ->
  (tunlock g;; tunlock t;; funlock p;; mret r) (view gx tx f s) =
    Done (r, view (with_tlock (freed lg) gx) (with_tlock (freed lt) tx) (with_flock (freed lf) f) s).
Proof.
  intros Hg Ht Hf. krun. rewrite (view_tunlock_g lg) by done. krun. rewrite (view_tunlock_t lt) by done. krun.
  by rewrite (view_funlock lf) by done.
Qed.

(** What [file_table_add] leaves: both slots filled, or everything as it was. *)
Definition added (gx tx : file_table) (f : file) : Z * file_table * file_table * file * Z :=
  match first_free gx, first_free tx with
  | Some i, Some j => (Z.of_nat j, with_slot i (Some p) gx, with_slot j (Some p) tx, with_master (Z.of_nat i) f, 1)
  | _, _ => (-1, gx, tx, f, 0)
  end.

Lemma file_table_add_view v c gx tx f s :
  length (file_arr gx) = OPEN_MAX -> length (file_arr tx) = OPEN_MAX -> num_files gx <> Z.of_nat OPEN_MAX ->
  file_vnode f = Some v -> master_fd f = FLOATING_FILE ->
  free_lock (file_lock f) -> free_lock (file_table_lock gx) -> free_lock (file_table_lock tx) ->
  vrefs s v = Some c -> 1 <= c ->
  let '(r, gx', tx', f', d) := added gx tx f in
  exists s', file_table_add t (Some p) (view gx tx f s) = Done (r, view (trelease gx') (trelease tx') (frelease f') s') /\
    vrefs s' v = Some (c + d) /\ forall w, w <> v -> vrefs s' w = vrefs s w.
Proof.
  intros Hlg Hlt Hnum Hv Hm Hfl Hgl Htl Hc Hpos. unfold file_table_add. krun. rewrite view_kft. krun. rewrite view_get_g. krun.
  rewrite (proj2 (Z.eqb_neq _ _)) by done. krun. rewrite view_get_p. krun. rewrite Hv, bool_decide_false by done. krun.
  rewrite view_flock by done. krun. rewrite view_tlock_t by done. krun. rewrite view_tlock_g by done. krun.
  set (gx0 := with_tlock _ gx). set (tx0 := with_tlock _ tx). set (f0 := with_flock _ f).
  destruct (add_loop_ok v c (OPEN_MAX - MIN_FD) MIN_FD FLOATING_FILE gx0 tx0 f0 s) as (s' & Hs' & Ho' & Hrun);
    [subst gx0; cbn [with_tlock file_arr]; rewrite Hlg; unfold OPEN_MAX, MIN_FD; lia
    |subst tx0; cbn [with_tlock file_arr]; rewrite Hlt; unfold OPEN_MAX, MIN_FD; lia
    |unfold MIN_FD; lia|done|done|subst f0; cbn [with_flock master_fd]; by rewrite Hm|
     subst f0; cbn [with_flock master_fd]; by rewrite Hm|].
  assert (Hg0 : pick (master_fd f0 =? FLOATING_FILE) (OPEN_MAX - MIN_FD) MIN_FD gx0 = first_free gx) by (cbn [f0 with_flock master_fd]; by rewrite Hm).
  assert (Ht0 : pick (FLOATING_FILE <? 3) (OPEN_MAX - MIN_FD) MIN_FD tx0 = first_free tx) by done.
  rewrite Hg0, Ht0 in *. rewrite Hrun. clear Hrun. change (master_fd f0) with (master_fd f). rewrite Hm.
  unfold added. destruct (first_free gx) as [i|] eqn:Ei, (first_free tx) as [j|] eqn:Ej; cbn [number fill].
  - destruct (find_free_least _ _ _ _ Ej) as (Hj & _). unfold MIN_FD in Hj.
    rewrite (proj2 (Z.geb_le (Z.of_nat j) 3)), (proj2 (Z.eqb_neq (Z.of_nat i) FLOATING_FILE)) by (unfold FLOATING_FILE; lia).
    cbn [andb negb]. rewrite (view_unlock3 (file_table_lock gx) (file_table_lock tx) (file_lock f)) by done.
    exists s'. done.
  - destruct (find_free_least _ _ _ _ Ei) as (Hi & Ha & _). change (FLOATING_FILE >=? 3) with false.
    change (FLOATING_FILE >=? Z.of_nat MIN_FD) with false. krun. rewrite view_get_p. krun. cbn [with_master master_fd].
    rewrite (proj2 (Z.eqb_neq (Z.of_nat i) FLOATING_FILE)) by (unfold FLOATING_FILE; lia). cbn [negb]. krun.
    rewrite Nat2Z.id, view_set_g by (subst gx0; cbn [with_slot with_tlock file_arr]; rewrite length_insert, Hlg; unfold OPEN_MAX, MIN_FD in *; lia).
    krun. rewrite view_upd_p. krun. rewrite with_slot_undo by done.
    pose proof (view_unlock3 (file_table_lock gx) (file_table_lock tx) (file_lock f) gx0 tx0
      (with_master FLOATING_FILE (with_master (Z.of_nat i) f0)) s' (-1) eq_refl eq_refl eq_refl) as Hun.
    rewrite !K_bind_eq in Hun. rewrite Hun. exists s'. split; [|done]. do 3 f_equal.
    unfold frelease, with_flock, with_master. cbn. by rewrite <- Hm.
  - destruct (find_free_least _ _ _ _ Ej) as (Hj & Ha & _). unfold MIN_FD in Hj.
    change (FLOATING_FILE =? FLOATING_FILE) with true. cbn [negb]. rewrite andb_false_r. change (Z.of_nat MIN_FD) with 3.
    rewrite (proj2 (Z.geb_le (Z.of_nat j) 3)) by lia. krun.
    rewrite Nat2Z.id, view_set_t by (subst tx0; cbn [with_slot with_tlock file_arr]; rewrite length_insert, Hlt; unfold OPEN_MAX in *; lia).
    krun. rewrite view_get_p. krun. cbn [with_master file_vnode]. change (file_vnode f0) with (file_vnode f). rewrite Hv. krun.
    rewrite with_slot_undo by done.
    destruct (decref_law s' v (c + 1) Hs' ltac:(lia)) as (s2 & Hdec & Hs2 & Ho2). rewrite (view_decref v s2) by done. krun.
    rewrite view_get_p. krun. cbn [with_master master_fd]. change (FLOATING_FILE =? FLOATING_FILE) with true. krun.
    pose proof (view_unlock3 (file_table_lock gx) (file_table_lock tx) (file_lock f) gx0 tx0
      (with_master FLOATING_FILE f0) s2 (-1) eq_refl eq_refl eq_refl) as Hun.
    rewrite !K_bind_eq in Hun. rewrite Hun. exists s2. split.
    + do 3 f_equal. unfold frelease, with_flock, with_master. cbn. by rewrite <- Hm.
    + split; [rewrite Hs2; f_equal; lia|]. intros w Hw. by rewrite Ho2, Ho'.
  - change (FLOATING_FILE >=? 3) with false. change (FLOATING_FILE >=? Z.of_nat MIN_FD) with false. krun.
    rewrite view_get_p. krun. cbn [with_master master_fd]. change (FLOATING_FILE =? FLOATING_FILE) with true. krun.
    pose proof (view_unlock3 (file_table_lock gx) (file_table_lock tx) (file_lock f) gx0 tx0
      (with_master FLOATING_FILE f0) s' (-1) eq_refl eq_refl eq_refl) as Hun.
    rewrite !K_bind_eq in Hun. rewrite Hun. exists s'. split; [|done].
    do 3 f_equal. unfold frelease, with_flock, with_master. cbn. by rewrite <- Hm.
Qed.

Lemma view_clear_master gx tx f s d :
  0 <= d < Z.of_nat (length (file_arr gx)) -> free_lock (file_table_lock gx) ->
  clear_master d (view gx tx f s) = Done ((), view (trelease (with_slot (Z.to_nat d) None gx)) tx f s).
Proof.
  intros Hd Hl. unfold clear_master, kassert. krun. rewrite view_kft. krun. rewrite view_tlock_g by done. krun.
  rewrite (proj2 (Z.leb_le 0 d)) by lia. krun. rewrite view_set_g by (cbn [with_tlock file_arr]; lia). krun.
  by rewrite (view_tunlock_g (file_table_lock gx)) by done.
Qed.

(** What [file_destroy] does to the global table for a file with [master_fd] [d]. *)
Definition unmaster (d : Z) (gx : file_table) : file_table :=
  if d =? FLOATING_FILE then gx else trelease (with_slot (Z.to_nat d) None gx).

(** The descriptor's was the last use of the vnode but one. *)
Lemma file_destroy_last v gx tx f s :
  file_vnode f = Some v -> vrefs s v = Some ONE_FILE_OWNER -> free_lock (file_lock f) -> lk_wchan (file_lock f) = [] ->
  (master_fd f = FLOATING_FILE \/ 0 <= master_fd f < Z.of_nat (length (file_arr gx)) /\ free_lock (file_table_lock gx)) ->
  exists s' f', file_destroy (Some p) (view gx tx f s) = Done (0, free_file p (view (unmaster (master_fd f) gx) tx f' s')) /\
    vrefs s' v = Some 1 /\ forall w, w <> v -> vrefs s' w = vrefs s w.
Proof.
  intros Hv Hc Hl Hw Hm. unfold file_destroy. krun. rewrite view_flock by done. krun. rewrite view_get_p. krun.
  change (file_vnode (with_flock (held (file_lock f)) f)) with (file_vnode f). rewrite Hv. krun.
  rewrite (view_refs v ONE_FILE_OWNER) by (by apply refcount_law). cbv beta iota. rewrite Z.eqb_refl. krun.
  destruct (decref_law s v 2 Hc ltac:(lia)) as (s' & Hdec & Hs' & Ho'). rewrite (view_decref v s') by done. krun.
  rewrite view_upd_p. krun. cbn [with_flock master_fd].
  set (f1 := with_seek 0 _).
  assert (Hcm : (if negb (master_fd f =? FLOATING_FILE) then clear_master (master_fd f) else mret ()) (view gx tx f1 s') =
    Done ((), view (unmaster (master_fd f) gx) tx f1 s')).
  { unfold unmaster. destruct (Z.eqb_spec (master_fd f) FLOATING_FILE) as [E|E]; [done|].
    destruct Hm as [|[Hr Hlk]]; [done|]. cbn [negb]. by apply view_clear_master. }
  rewrite Hcm. krun. rewrite view_upd_p. krun. rewrite (view_funlock (file_lock f)) by done. krun. rewrite view_me. krun.
  rewrite view_get_p. krun. unfold lock_destroy, lock_do_i_hold. cbn [with_flock with_master file_lock freed lk_owner].
  rewrite bool_decide_false by done. kred. cbn [freed lk_wchan]. rewrite Hw. cbn [tail wchan_destroy wchan_isempty]. kred. krun.
  eexists s', _. done.
Qed.

(** It was not: one reference goes, the file and the global table stay. *)
Lemma file_destroy_more v c gx tx f s :
  file_vnode f = Some v -> vrefs s v = Some c -> c <> ONE_FILE_OWNER -> 1 < c -> free_lock (file_lock f) ->
  exists s', file_destroy (Some p) (view gx tx f s) = Done (0, view gx tx (frelease f) s') /\
    vrefs s' v = Some (c - 1) /\ forall w, w <> v -> vrefs s' w = vrefs s w.
Proof.
  intros Hv Hc Hne Hpos Hl. unfold file_destroy. krun. rewrite view_flock by done. krun. rewrite view_get_p. krun.
  change (file_vnode (with_flock (held (file_lock f)) f)) with (file_vnode f). rewrite Hv. krun.
  rewrite (view_refs v c) by (by apply refcount_law). krun. rewrite (proj2 (Z.eqb_neq c ONE_FILE_OWNER) Hne). krun.
  destruct (decref_law s v c Hc Hpos) as (s' & Hdec & Hs' & Ho'). rewrite (view_decref v s') by done. krun.
  rewrite (view_funlock (file_lock f)) by done. krun. exists s'. done.
Qed.
End View.

(** ** Copying a table *)

Section Copy.
Context {S : Type} `{!Vops S} `{!VopsRefs S}.
Implicit Types k : files S.

(** A file in a table that can be copied. *)
Definition copyable k (p : Z) : Prop :=
  exists f v c, f_files k !! p = Some f /\ file_lock f = new_lock /\ file_vnode f = Some v /\ vrefs (v_s (f_vfs k)) v = Some c.

(** The slots [i .. i + n) of a table moved into another one. *)
Definition copy_slots (i n : nat) (src dst : list (option Z)) : list (option Z) :=
  imap (fun j o => if bool_decide (i <= j < i + n)%nat then match src !! j with Some (Some p) => Some p | _ => o end else o) dst.

Definition with_arr (arr : list (option Z)) (x : file_table) : file_table := mkFt arr (file_table_lock x) (num_files x).

Definition with_table (s : S) (new : Z) (arr : list (option Z)) (y : file_table) k : files S :=
  set_core (set_s s (f_vfs k)) (f_files k) (<[new := with_arr arr y]> (f_tables k)) (f_next k) k.

Lemma copy_slots_0 i src dst : copy_slots i 0 src dst = dst.
Proof.
  apply list_eq. intros j. unfold copy_slots. rewrite list_lookup_imap. destruct (dst !! j); [|done]. cbn. by rewrite bool_decide_false by lia.
Qed.

Lemma copy_slots_step i n src dst o :
  src !! i = Some o -> (i < length dst)%nat ->
  copy_slots (Datatypes.S i) n src (match o with Some p => <[i := Some p]> dst | None => dst end) = copy_slots i (Datatypes.S n) src dst.
Proof.
  intros Ho Hi. apply list_eq. intros j. unfold copy_slots. rewrite !list_lookup_imap.
  destruct (decide (j = i)) as [->|Hne].
  - destruct (lookup_lt_is_Some_2 _ _ Hi) as [d Hd]. rewrite Hd. cbn. rewrite (bool_decide_true (i <= i < i + Datatypes.S n)%nat), Ho by lia.
    destruct o as [p|]; [rewrite list_lookup_insert_eq by done|rewrite Hd]; cbn; by rewrite bool_decide_false by lia.
  - assert (E : (match o with Some p => <[i := Some p]> dst | None => dst end) !! j = dst !! j) by (destruct o; [by rewrite list_lookup_insert_ne|done]).
    rewrite E. destruct (dst !! j); [|done]. cbn. by rewrite (bool_decide_ext _ (i <= j < i + Datatypes.S n)%nat) by lia.
Qed.

Lemma copy_slots_length i n src dst : length (copy_slots i n src dst) = length dst.
Proof. apply length_imap. Qed.

Lemma with_table_get s new arr y k t : t <> new -> f_tables (with_table s new arr y k) !! t = f_tables k !! t.
Proof. intros Hne. cbn. by rewrite lookup_insert_ne. Qed.

(** One file: its lock is taken, the slot set, a reference counted, the lock free again. *)
Lemma copy_one t new i p x y arr s k :
  t <> new -> (i < length arr)%nat -> f_tables k !! t = Some x ->
  (exists f v c, f_files k !! p = Some f /\ file_lock f = new_lock /\ file_vnode f = Some v /\ vrefs s v = Some c) ->
  exists s', (flock p;; set_slot new i (Some p);; x ← get_file p; v ← lift (deref (file_vnode x)); vcall (incref v);; funlock p) (with_table s new arr y k)
    = Done ((), with_table s' new (<[i := Some p]> arr) y k) /\ forall w c, vrefs s w = Some c -> exists c', vrefs s' w = Some c'.
Proof.
  intros Hne Hi Hx (f&v&c&Hf&Hlk&Hv&Hc). destruct (incref_law s v c Hc) as (s'&Hinc&Hs'&Ho).
  exists s'. split; cycle 1.
  { intros w c' Hw. destruct (decide (w = v)) as [->|Hwv]; [eauto|]. rewrite Ho by done. eauto. }
  set (f1 := with_flock (held_by (curthread (f_vfs k)) new_lock) f).
  unfold flock, funlock, set_slot, get_file, get_table, me, kassert. krun. cbn [f_files with_table set_core]. rewrite Hf. krun. rewrite Hlk.
  rewrite lock_acquire_free by done. krun. cbn [f_tables put_file with_table set_core]. rewrite lookup_insert_eq. krun.
  rewrite bool_decide_true by done. krun. cbn [f_files put_table put_file set_core]. rewrite lookup_insert_eq. krun. cbn [file_vnode with_flock]. rewrite Hv. krun.
  unfold vcall, zoom, incref, fsdo. cbn [f_vfs put_table put_file set_core with_table set_s v_s]. rewrite Hinc. krun.
  cbn [f_files set_vfs put_table put_file set_core with_table]. rewrite lookup_insert_eq. krun. cbn [file_lock with_flock f_vfs curthread set_s set_vfs set_core].
  rewrite lock_release_held. krun. unfold with_table, put_file, set_core. cbn. do 2 f_equal.
  all: rewrite ?insert_insert_eq; try done.
  rewrite insert_id; [done|]. rewrite Hf. f_equal. clear -Hlk. destruct f. cbn in Hlk. by subst.
Qed.

Lemma copy_loop_eq n i t new x y arr s k :
  t <> new -> (i + n <= length (file_arr x))%nat -> length arr = length (file_arr x) -> f_tables k !! t = Some x ->
  (forall j p, (i <= j < i + n)%nat -> file_arr x !! j = Some (Some p) ->
    exists f v c, f_files k !! p = Some f /\ file_lock f = new_lock /\ file_vnode f = Some v /\ vrefs s v = Some c) ->
  exists s', copy_loop n i t new (with_table s new arr y k) = Done ((), with_table s' new (copy_slots i n (file_arr x) arr) y k).
Proof.
  intros Hne. revert i arr s. induction n as [|n IH]; intros i arr s Hi Hlen Hx Hall; cbn [copy_loop].
  { exists s. by rewrite copy_slots_0. }
  destruct (lookup_lt_is_Some_2 (file_arr x) i) as [o Ho]; [lia|].
  unfold get_slot, get_table at 1. krun. rewrite with_table_get, Hx by done. krun. rewrite Ho. krun.
  rewrite <- (copy_slots_step i n (file_arr x) arr o) by (done || lia). destruct o as [p|]; krun.
  - destruct (copy_one t new i p x y arr s k) as (s1&Hs1&Hr); [done|lia|done|by apply (Hall i); [lia|]|].
    rewrite K_bind_eq in Hs1. revert Hs1. krun. intros ->. apply IH; [lia|by rewrite length_insert|done|].
    intros j q Hj Hq. destruct (Hall j q) as (f&v&c&?&?&?&Hc); [lia|done|]. destruct (Hr v c Hc) as [c' Hc']. eauto 10.
  - apply IH; [lia|done|done|]. intros j q Hj Hq. apply (Hall j); [lia|done].
Qed.

(** The file layer with a new table: the old one's files from MIN_FD on. *)
Definition inherited (t : file_table) : list (option Z) := copy_slots MIN_FD (OPEN_MAX - MIN_FD) (file_arr t) empty_arr.
Definition with_copy (s : S) (x : file_table) k : files S :=
  set_core (set_s s (f_vfs k)) (f_files k) (<[f_next k := mkFt (inherited x) new_lock (num_files x)]> (f_tables k)) (f_next k + 1) k.

Lemma inherited_lookup x i :
  length (file_arr x) = OPEN_MAX -> (MIN_FD <= i < OPEN_MAX)%nat -> inherited x !! i = file_arr x !! i.
Proof.
  intros Hlen Hi. unfold inherited, copy_slots. rewrite list_lookup_imap. unfold empty_arr. rewrite lookup_replicate_2 by lia. cbn [fmap option_fmap option_map].
  rewrite bool_decide_true by lia. destruct (lookup_lt_is_Some_2 (file_arr x) i) as [o Ho]; [lia|]. rewrite Ho. by destruct o.
Qed.

Lemma file_table_create_eq k :
  v_mem (f_vfs k) = [] -> file_table_create k = Done (Some (f_next k), put_table (f_next k) (mkFt empty_arr new_lock 0) (fresh_key k)).
Proof.
  intros Hm. unfold file_table_create, vcall, zoom, kmalloc. krun. rewrite Hm. cbn [kalloc tail]. krun.
  cbn [v_mem set_mem f_vfs set_vfs set_core]. unfold lock_create. cbn. krun. do 3 f_equal.
  destruct k as [[] ? ? ? ? ? ? ? ?]. cbn in *. by subst.
Qed.

Lemma file_table_copy_eq t x k :
  f_tables k !! t = Some x -> file_table_lock x = new_lock -> length (file_arr x) = OPEN_MAX -> t <> f_next k ->
  v_mem (f_vfs k) = [] ->
  (forall j p, (MIN_FD <= j < OPEN_MAX)%nat -> file_arr x !! j = Some (Some p) -> copyable k p) ->
  exists s, file_table_copy (Some t) k = Done (Some (f_next k), with_copy s x k).
Proof.
  intros Hx Hl Hlen Hne Hm Hall. unfold file_table_copy, tlock, me, get_table. krun. rewrite Hx. krun. rewrite Hl, lock_acquire_free by done. krun.
  rewrite file_table_create_eq by done. krun. cbn [f_next put_table set_core].
  unfold upd_table, get_table. cbn [f_tables put_table set_core fresh_key f_next]. rewrite lookup_insert_ne, lookup_insert_eq by done. krun.
  cbn [f_tables put_table set_core fresh_key f_next]. rewrite lookup_insert_eq. krun.
  set (held := with_tlock _ x). set (k0 := put_table t held (fresh_key k)).
  destruct (copy_loop_eq (OPEN_MAX - MIN_FD) MIN_FD t (f_next k) held (mkFt empty_arr new_lock (num_files x)) empty_arr (v_s (f_vfs k)) k0) as [s Hs].
  { done. } { subst held. cbn [file_arr with_tlock]. rewrite Hlen. unfold MIN_FD, OPEN_MAX. lia. }
  { subst held. cbn [file_arr with_tlock]. by rewrite Hlen. } { apply lookup_insert_eq. }
  { intros j p Hj Hp. destruct (Hall j p) as (f&v&c&?&?&?&?); [unfold MIN_FD, OPEN_MAX in *; lia|done|]. by exists f, v, c. }
  assert (E : forall k', k' = with_table (v_s (f_vfs k)) (f_next k) empty_arr (mkFt empty_arr new_lock (num_files x)) k0 ->
    copy_loop (OPEN_MAX - MIN_FD) MIN_FD t (f_next k) k' = Done ((), with_table s (f_next k) (copy_slots MIN_FD (OPEN_MAX - MIN_FD) (file_arr held) empty_arr) (mkFt empty_arr new_lock (num_files x)) k0)) by (by intros k' ->).
  rewrite E; clear E Hs; cycle 1.
  { unfold with_table, k0, put_table, set_core, set_s. cbn. f_equal; [by destruct (f_vfs k)|]. by rewrite insert_insert_eq. }
  krun. unfold tunlock, me, get_table. krun. rewrite with_table_get by done. cbn [f_tables k0 put_table set_core]. rewrite lookup_insert_eq. krun.
  cbn [file_table_lock held with_tlock]. rewrite lock_release_held. krun.
  exists s. change (file_arr held) with (file_arr x). fold (inherited x).
  unfold with_copy, with_table, put_table, k0, set_core, fresh_key.
  cbn [f_vfs f_files f_tables f_next con_out con_in f_umem proc_ft kproc_ft with_arr file_table_lock num_files set_core set_s v_s]. do 3 f_equal.
  unfold put_table. cbn [f_tables set_core with_arr file_table_lock num_files]. rewrite insert_insert_ne, !insert_insert_eq by done. f_equal. rewrite insert_id; [done|]. rewrite Hx. f_equal. clear -Hl. destruct x. cbn in Hl. by subst.
Qed.

End Copy.

(** ** Theorems *)

Section Theorems.
Context {S : Type} `{!Vops S} `{!VopsRefs S}.
Implicit Types k : files S.

(** The tables and the file a call works on: [t] the process's table and [g] the
    global one, different and full-length, no lock held. *)
Record ready k (t g p : Z) (tx gx : file_table) (f : file) (v : Z) : Prop := {
  rd_g : kproc_ft k = g;
  rd_ne : t <> g;
  rd_gx : f_tables k !! g = Some gx;
  rd_tx : f_tables k !! t = Some tx;
  rd_lens : length (file_arr gx) = OPEN_MAX /\ length (file_arr tx) = OPEN_MAX;
  rd_f : f_files k !! p = Some f;
  rd_v : file_vnode f = Some v;
  rd_flock : free_lock (file_lock f);
  rd_glock : free_lock (file_table_lock gx);
  rd_tlock : free_lock (file_table_lock tx) }.

(** [file_table_add] on every branch.  A new file goes into the lowest empty
    slot from 3 on of the process's table, which is its descriptor, and into the
    lowest one of the global table, which it records, and its vnode gains a
    reference.  If either table is full the result is -1 and both tables, the file
    and the reference count are as they were.  All three locks are free again and
    nothing else changes. *)
Theorem file_table_add_spec k t g p tx gx f v c :
  ready k t g p tx gx f v -> master_fd f = FLOATING_FILE -> num_files gx <> Z.of_nat OPEN_MAX ->
  vrefs (v_s (f_vfs k)) v = Some c -> 1 <= c ->
  let '(r, gx', tx', f', d) := added p gx tx f in
  exists s', file_table_add t (Some p) k =
    Done (r, set_core (set_s s' (f_vfs k)) (<[p := frelease f']> (f_files k))
      (<[t := trelease tx']> (<[g := trelease gx']> (f_tables k))) (f_next k) k) /\
    vrefs s' v = Some (c + d) /\ forall w, w <> v -> vrefs s' w = vrefs (v_s (f_vfs k)) w.
Proof.
  intros [Hg Hne Hgx Htx [Hlg Hlt] Hf Hv Hfl Hgl Htl] Hm Hn Hc Hpos.
  pose proof (file_table_add_view t g p Hne k Hg v c gx tx f (v_s (f_vfs k)) Hlg Hlt Hn Hv Hm Hfl Hgl Htl Hc Hpos) as H.
  rewrite (view_id t g p k Hg gx tx f Hf Hgx Htx) in H. exact H.
Qed.
End Theorems.
