(* ===== verification/FileSyscalls.v ===== *)
(** * kern/syscall: the system calls on files

    open, close, read, write, lseek, dup2, chdir and getcwd.  A result below zero is
    an error number, negated.  User pointers are addresses in the current process's
    memory, [f_umem]; where a call hands one to the kernel as if it were a kernel
    pointer, the bytes mapped there are the object it points to.  [heap] is what
    fresh kernel memory holds and [stack_v] what [sys_open]'s [v] holds before it is
    set. *)

From S2P Require Import Prelude Synch Cstring CopyInOut Uio Vop Vfs FileTable.

Definition PATH_MAX : Z := 1024.
Definition STDIN_FILENO : Z := 0.
Definition STDOUT_FILENO : Z := 1.
Definition STDERR_FILENO : Z := 2.
Definition SEEK_SET : Z := 0.
Definition SEEK_CUR : Z := 1.
Definition SEEK_END : Z := 2.

(** [off_t] is 64 bits. *)
Definition s64 (x : Z) : Z := (x + 2 ^ 63) mod 2 ^ 64 - 2 ^ 63.
Arguments s64 : simpl never.

(** The kernel is big-endian: [x1] is the high word. *)
Definition join32to64 (x1 x2 : Z) : Z := s64 (u32 x1 * 2 ^ 32 + u32 x2).

(** The bytes a kernel access to [a] on can reach, at most [n]. *)
Fixpoint mapped_bytes (m : umem) (a : Z) (n : nat) : list Z :=
  match n with
  | O => []
  | Datatypes.S n => match m !! a with Some b => b :: mapped_bytes m (a + 1) n | None => [] end
  end.

(** Bytes stored through the same pointer. *)
Fixpoint store_bytes (m : umem) (a : Z) (l : list Z) : umem :=
  match l with
  | [] => m
  | b :: l => store_bytes (match m !! a with Some _ => <[a := b]> m | None => m end) (a + 1) l
  end.

Section FileSyscalls.
Context {S : Type} `{!Vops S} (heap : nat -> list Z) (stack_v : Z).
Implicit Types k : files S.
Abbreviation M := (K (files S)).

Definition curproc_ft : M (option Z) := gets (fun k => proc_ft k !! curproc (f_vfs k)).
Definition umemory : M umem := gets f_umem.
Definition set_umem (m : umem) : M unit := modify (fun k => set_user m (con_in k) (con_out k) k).
Definition alloc (n : Z) : M (option (list Z)) :=
  ok ← vcall kmalloc; mret (if ok : bool then Some (take (Z.to_nat n) (heap (Z.to_nat n) ++ zeros (Z.to_nat n))) else None).

(** ** open *)

(** After a failed [vfs_open], [v] has not been set, and [vnode_cleanup(v)] works on
    what the stack held. *)
Definition sys_open (filename flags : Z) : M Z :=
  if filename =? 0 then mret (- EFAULT) else
  buf ← alloc PATH_MAX;
  match buf with
  | None => mret (- EIO)
  | Some my_buf =>
      m ← umemory;
      let '(result, my_buf) := copyin m filename my_buf PATH_MAX in
      if negb (result =? 0) then mret (- result) else
      '(r, my_buf) ← vcall (vfs_open my_buf flags 0);
      match r with
      | Err result => vcall (fsdo (fun s => VNODE_CLEANUP s stack_v));; mret (- result)
      | Ok v =>
          f ← file_create my_buf;
          match f with
          | None => vcall (fsdo (fun s => VNODE_CLEANUP s v));; mret (- ENOSPC)
          | Some p =>
              upd_file p (with_vnode (Some v));;
              ft ← curproc_ft;
              t ← lift (deref ft);
              result ← file_table_add t (Some p);
              if result <? Z.of_nat MIN_FD then file_destroy (Some p);; mret (- ENFILE)
              else mret result
          end
      end
  end.

(** ** close *)

Definition bad_fd (fd : Z) : bool := (fd <? Z.of_nat MIN_FD) || (fd >=? Z.of_nat OPEN_MAX).

Definition sys_close (fd : Z) : M Z :=
  if bad_fd fd then mret (- EBADF) else
  ft ← curproc_ft;
  f ← file_table_lookup ft fd;
  match f with
  | None => mret (- EBADF)
  | Some p =>
      t ← lift (deref ft);
      tlock t;;
      set_slot t (Z.to_nat fd) None;;
      tunlock t;;
      result ← file_destroy (Some p);
      mret (- result)
  end.

(** ** read *)

(** The next character typed; without one the reader sleeps. *)
Definition getch : M Z := fun k =>
  match con_in k with
  | [] => Blocked
  | c :: r => Done (c, set_user (f_umem k) r (con_out k) k)
  end.

(** The loop on standard input: what [my_buf] holds and [i], or the negative result
    of [getch].  A store to a null [my_buf] panics. *)
Fixpoint read_line (n : nat) (buflen : nat) (got : list Z) (my_buf : bool) : M (res (list Z * Z)) :=
  match n with
  | O => mret (Ok (got, Z.of_nat buflen))
  | Datatypes.S n =>
      ch ← getch;
      if ch <? 0 then mret (Err ch) else
      kassert my_buf;;
      let got := got ++ [ch mod 256] in
      if (ch =? 10) || (ch =? 13) then mret (Ok (got, Z.of_nat (length got) - 1))
      else read_line n buflen got my_buf
  end.

Definition sys_read (fd buf buflen : Z) : M Z :=
  if (fd <? 0) || (fd >=? Z.of_nat OPEN_MAX) then mret (- EBADF) else
  if buf =? 0 then mret (- EFAULT) else
  if fd =? STDIN_FILENO then
    my_buf ← vcall kmalloc;
    r ← read_line (Z.to_nat buflen) (Z.to_nat buflen) [] my_buf;
    match r with
    | Err ch => mret ch
    | Ok (got, i) =>
        m ← umemory;
        let '(result, m) := copyout m got buf i in
        set_umem m;;
        if negb (result =? 0) then mret (- EFAULT) else mret i
    end
  else if (fd =? STDOUT_FILENO) || (fd =? STDERR_FILENO) then mret (- EBADF) else
    ft ← curproc_ft;
    f ← file_table_lookup ft fd;
    match f with
    | None => mret (- EBADF)
    | Some p =>
        flock p;;
        x ← get_file p;
        v ← lift (deref (file_vnode x));
        m ← umemory;
        let u := uio_kinit (mapped_bytes m buf (Z.to_nat buflen)) buflen (seek_pos x) UIO_READ in
        '(result, u) ← vcall (fsop (fun s => '(r, u, s) ← VOP_READ s v u; mret ((r, u), s)));
        set_umem (store_bytes m buf (uio_moved u));;
        if negb (result =? 0) then mret (- result) else
        let n := u32 (buflen - uio_resid u) in
        upd_file p (fun x => with_seek (s32 (seek_pos x + n)) x);;
        funlock p;;
        mret (s32 n)
    end.

(** ** write *)

Definition putchars (l : list Z) : M unit :=
  modify (fun k => set_user (f_umem k) (con_in k) (con_out k ++ l) k).

Definition sys_write (fd buf buflen : Z) : M Z :=
  if (fd <? 0) || (fd >=? Z.of_nat OPEN_MAX) then mret (- EBADF) else
  if buf =? 0 then mret (- EFAULT) else
  my_buf ← alloc (u32 buflen);
  match my_buf with
  | None => mret (- EIO)
  | Some my_buf =>
      m ← umemory;
      let '(result, my_buf) := copyin m buf my_buf (u32 buflen) in
      if negb (result =? 0) then mret (- result) else
      if fd =? STDIN_FILENO then mret (- EBADF) else
      if (fd =? STDOUT_FILENO) || (fd =? STDERR_FILENO) then
        putchars (take (Z.to_nat buflen) my_buf);; mret (Z.max 0 buflen)
      else
        ft ← curproc_ft;
        f ← file_table_lookup ft fd;
        match f with
        | None => mret (- EBADF)
        | Some p =>
            flock p;;
            x ← get_file p;
            v ← lift (deref (file_vnode x));
            let u := uio_kinit my_buf (u32 buflen) (seek_pos x) UIO_WRITE in
            '(result, u) ← vcall (fsop (fun s => '(r, u, s) ← VOP_WRITE s v u; mret ((r, u), s)));
            funlock p;;
            if negb (result =? 0) then mret (- result) else
            mret (s32 (buflen - uio_resid u))
        end
  end.

(** ** lseek *)

(** [offset] is an [off_t]; the position is combined with the descriptor. *)
Definition sys_lseek (fd offset whence : Z) : M Z :=
  let cur_pos := join32to64 fd offset in
  if (fd <? 0) || (fd >=? Z.of_nat OPEN_MAX) then mret (- EBADF) else
  if (fd =? STDIN_FILENO) || (fd =? STDOUT_FILENO) || (fd =? STDERR_FILENO) then mret (- EINVAL) else
  ft ← curproc_ft;
  f ← file_table_lookup ft fd;
  match f with
  | None => mret (- EBADF)
  | Some p =>
      x ← get_file p;
      v ← lift (deref (file_vnode x));
      seekable ← vcall (fsget (fun s => VOP_ISSEEKABLE s v));
      if negb seekable then mret (- ESPIPE) else
      st ← vcall (fsget (fun s => VOP_STAT_SIZE s v));
      match st with
      | Err result => funlock p;; mret (- result)
      | Ok _ =>
          if whence <? 0 then mret (- EINVAL) else
          if s64 (offset + whence) <? 0 then mret (- EINVAL) else
          flock p;;
          x ← get_file p;
          let move new_pos :=
            upd_file p (with_seek (s32 new_pos));; x ← get_file p; funlock p;; mret (seek_pos x) in
          if whence =? SEEK_SET then move cur_pos else
          if whence =? SEEK_CUR then move (s64 (seek_pos x + cur_pos)) else
          if whence =? SEEK_END then
            v ← lift (deref (file_vnode x));
            st ← vcall (fsget (fun s => VOP_STAT_SIZE s v));
            match st with
            | Err result => funlock p;; mret (- result)
            | Ok size => move (s64 (cur_pos + size))
            end
          else funlock p;; mret (- EINVAL)
      end
  end.

(** ** dup2 *)

Definition sys_dup2 (oldfd newfd : Z) : M Z :=
  ft ← curproc_ft;
  newfd ← file_copy ft oldfd newfd;
  if newfd <? Z.of_nat MIN_FD then mret (- EBADF) else mret newfd.

(** ** chdir *)

(** The path is used where it is, in user memory; the second lookup sees what the
    first has left of it and writes nothing more. *)
Definition sys_chdir (pathname : Z) : M Z :=
  m ← umemory;
  let path := mapped_bytes m pathname (size m) in
  '(r, path) ← vcall (vfs_lookup path);
  set_umem (store_bytes m pathname path);;
  match r with
  | Err _ => mret (-1)
  | Ok directory =>
      error ← vcall (vfs_chdir path);
      if negb (error =? 0) then mret (-1) else mret 0
  end.

(** ** getcwd *)

(** [copyoutstr]'s last argument is the residue, taken for the address of a
    [size_t]: a store there that faults makes the call fail like any other. *)
Definition store_got (m : umem) (a : Z) (got : option Z) (r : Z) : Z * umem :=
  match got with
  | None => (r, m)
  | Some g =>
      if a =? 0 then (r, m) else
      if (a mod 4 =? 0) && (length (mapped_bytes m a 4) =? 4)%nat then (r, store_bytes m a (be32 g)) else (EFAULT, m)
  end.

Definition sys_getcwd (buf buflen : Z) : M Z :=
  if buf =? 0 then mret (- EFAULT) else
  m ← umemory;
  let '(result, _) := copyin m buf [0] 1 in
  if negb (result =? 0) then mret (- EFAULT) else
  if buflen <? 1 then mret (- EINVAL) else
  cwd ← gets (fun k => p_cwd (f_vfs k) !! curproc (f_vfs k));
  if bool_decide (cwd = None) then mret (- ENOENT) else
  tmp ← alloc buflen;
  match tmp with
  | None => mret (- EFAULT)
  | Some tmp_buf =>
      let u := uio_kinit (mapped_bytes m buf (Z.to_nat buflen)) buflen 0 UIO_READ in
      '(result, u) ← vcall (vfs_getcwd u);
      let m := store_bytes m buf (uio_moved u) in
      if negb (result =? 0) then set_umem m;; mret (- result) else
      let '(result, got, m) := copyoutstr m (fun i => default 0 (tmp_buf !! Z.to_nat i)) buf buflen in
      let '(result, m) := store_got m (uio_resid u) got result in
      set_umem m;;
      if negb (result =? 0) then mret (- EFAULT) else
      mret (s32 (buflen - uio_resid u))
  end.

(** ** An open descriptor *)

(** [fd] is open in the current process as file [p], and no lock of the three is
    held or waited for. *)
Record open_fd k (fd : Z) (t g p : Z) (tx gx : file_table) (f : file) (v : Z) : Prop := {
  of_ready : ready k t g p tx gx f v;
  of_ft : proc_ft k !! curproc (f_vfs k) = Some t;
  of_range : bad_fd fd = false;
  of_slot : file_arr tx !! Z.to_nat fd = Some (Some p);
  of_quiet : file_lock f = new_lock /\ file_table_lock tx = new_lock /\ file_table_lock gx = new_lock }.

Lemma bad_fd_range fd : bad_fd fd = false -> 3 <= fd < 128.
Proof.
  unfold bad_fd. intros [H1 H2]%orb_false_iff. apply Z.ltb_ge in H1. rewrite Z.geb_leb in H2. apply Z.leb_gt in H2.
  unfold MIN_FD, OPEN_MAX in *. lia.
Qed.

Lemma fd_in_range fd : 3 <= fd < 128 -> (fd <? 0) || (fd >=? Z.of_nat OPEN_MAX) = false.
Proof. intros H. apply orb_false_iff. rewrite Z.geb_leb, Z.ltb_ge, Z.leb_gt. unfold OPEN_MAX. lia. Qed.

Lemma fd_not_std fd :
  3 <= fd -> (fd =? STDIN_FILENO) = false /\ (fd =? STDOUT_FILENO) = false /\ (fd =? STDERR_FILENO) = false.
Proof. unfold STDIN_FILENO, STDOUT_FILENO, STDERR_FILENO. lia. Qed.

Lemma trelease_quiet x : file_table_lock x = new_lock -> trelease x = x.
Proof. intros H. destruct x. cbn in H. by subst. Qed.
Lemma frelease_quiet f : file_lock f = new_lock -> frelease f = f.
Proof. intros H. destruct f. cbn in H. by subst. Qed.
Lemma quiet_free lk : lk = new_lock -> free_lock lk.
Proof. by intros ->. Qed.

Lemma upd_file_at p h z k : f_files k !! p = Some z -> upd_file p h k = Done ((), put_file p (h z) k).
Proof. intros Hz. unfold upd_file, get_file. krun. by rewrite Hz. Qed.

Lemma funlock_at p z lk k :
  f_files k !! p = Some z -> file_lock z = held_by (curthread (f_vfs k)) lk ->
  funlock p k = Done ((), put_file p (with_flock (freed lk) z) k).
Proof.
  intros Hz Hl. unfold funlock, me, get_file. krun. rewrite Hz. krun. rewrite Hl, lock_release_held. by krun.
Qed.

Lemma put_put p a b k : put_file p a (put_file p b k) = put_file p a k.
Proof. unfold put_file, set_core. cbn. by rewrite insert_insert_eq. Qed.

Section Open.
Context {k fd t g p tx gx f v} (O : open_fd k fd t g p tx gx f v).
Abbreviation s0 := (v_s (f_vfs k)).
Abbreviation at_ := (view t g p k).

Lemma open_view : k = at_ gx tx f s0.
Proof. destruct O as [[? ? ? ? ? ? ? ? ? ?] ? ? ? ?]. by rewrite (view_id t g p k) by done. Qed.

Lemma open_run {R} (m : M R) (Q : outcome (R * files S) -> Prop) : Q (m (at_ gx tx f s0)) -> Q (m k).
Proof. by rewrite <- open_view. Qed.

Lemma view_fsop {A} (m : S -> outcome (A * S)) x y z s :
  vcall (fsop m) (at_ x y z s) = '(a, s') ← m s; Done (a, at_ x y z s').
Proof. unfold vcall, zoom, fsop. cbn. destruct (m s) as [[a s']| |]; done. Qed.

(** Finding the descriptor's file. *)
Lemma lookup_view s : file_table_lookup (Some t) fd (at_ gx tx f s) = Done (Some p, at_ gx tx f s).
Proof.
  destruct O as [[Hg Hne Hgx Htx [Hlg Hlt] Hf Hv Hfl Hgl Htl] Hft Hr Hs (Hqf & Hqt & Hqg)].
  apply bad_fd_range in Hr. unfold file_table_lookup. rewrite (proj2 (Z.ltb_ge fd 3)) by lia. krun.
  rewrite (view_tlock_t t g p) by done. krun. rewrite (view_slot_t t g p k _ (Some p)) by done. krun.
  rewrite (view_tunlock_t t g p k (file_table_lock tx)) by done. krun.
  change (with_tlock (freed (file_table_lock tx)) (with_tlock (held k (file_table_lock tx)) tx)) with (trelease tx).
  by rewrite trelease_quiet.
Qed.

Lemma curproc_view x y z s : curproc_ft (at_ x y z s) = Done (Some t, at_ x y z s).
Proof. unfold curproc_ft, gets. cbn. by rewrite (of_ft _ _ _ _ _ _ _ _ _ O). Qed.

Lemma kmalloc_view x y z s :
  v_mem (f_vfs k) = [] -> vcall kmalloc (at_ x y z s) = Done (true, at_ x y z s).
Proof.
  intros Hm. unfold vcall, zoom. change (f_vfs (at_ x y z s)) with (set_s s (f_vfs k)).
  rewrite kmalloc_ok by done. done.
Qed.

Lemma umem_view x y z s : umemory (at_ x y z s) = Done (f_umem k, at_ x y z s).
Proof. done. Qed.

(** Its lock given back, the state is [k] with the file system's new state. *)
Lemma unlocked : with_flock new_lock f = f.
Proof. destruct O as [? ? ? ? (Hq & _)]. destruct f. cbn in *. by subst. Qed.

Lemma open_view_s s : at_ gx tx f s = set_vfs (set_s s (f_vfs k)) k.
Proof.
  destruct O as [[? ? Hgx Htx ? Hf ? ? ? ?] ? ? ? ?]. unfold view.
  rewrite (insert_id _ g gx), (insert_id _ t tx), (insert_id _ p f) by done. done.
Qed.

Lemma open_put z : at_ gx tx z s0 = put_file p z k.
Proof.
  apply (open_run (fun k' => Done (put_file p z k', k')) (fun o => match o with Done (k', _) => at_ gx tx z s0 = k' | _ => True end)).
  by rewrite view_put_p.
Qed.

Lemma open_put_table x : at_ gx x f s0 = put_table t x k.
Proof.
  apply (open_run (fun k' => Done (put_table t x k', k')) (fun o => match o with Done (k', _) => at_ gx x f s0 = k' | _ => True end)).
  by rewrite view_put_t.
Qed.

Lemma view_fsget {A} (m : S -> outcome A) x y z s :
  vcall (fsget m) (at_ x y z s) = a ← m s; Done (a, at_ x y z s).
Proof. unfold vcall, zoom, fsget. cbn. destruct (m s) as [a| |]; done. Qed.

Lemma upd_view h x y z s : upd_file p h (at_ x y z s) = Done ((), at_ x y (h z) s).
Proof. apply view_upd_p; apply O. Qed.

Lemma flock_view s : flock p (at_ gx tx f s) = Done ((), at_ gx tx (with_flock (held k new_lock) f) s).
Proof.
  destruct O as [[Hg Hne ? ? ? ? ? Hfl ? ?] ? ? ? (Hqf & ? & ?)]. rewrite (view_flock t g p) by done. by rewrite Hqf.
Qed.
Lemma funlock_view z s :
  file_lock z = held k new_lock -> funlock p (at_ gx tx z s) = Done ((), at_ gx tx (with_flock new_lock z) s).
Proof. intros Hz. destruct O as [[Hg Hne ? ? ? ? ? ? ? ?] ? ? ? ?]. by rewrite (view_funlock t g p k new_lock) by done. Qed.
Lemma get_view x y z s : get_file p (at_ x y z s) = Done (z, at_ x y z s).
Proof. apply view_get_p; apply O. Qed.
End Open.

Context `{!VopsRefs S}.

(** The global table without the file. *)
Definition unmastered (f : file) (gx : file_table) : file_table :=
  if master_fd f =? FLOATING_FILE then gx else with_slot (Z.to_nat (master_fd f)) None gx.

(** Closing a descriptor.  Its slot is emptied.  When the vnode has the two
    references one open file gives it, the file also leaves the global table and is
    freed, and one reference is given back: the vnode is left with one that no file
    holds, so it is never reclaimed.  When it has more, one is given back and the
    file stays in the global table.  Nothing else changes, and no lock is held. *)
Theorem sys_close_spec k fd t g p tx gx f v c :
  open_fd k fd t g p tx gx f v -> vrefs (v_s (f_vfs k)) v = Some c -> 1 < c ->
  master_fd f = FLOATING_FILE \/ 0 <= master_fd f < Z.of_nat OPEN_MAX ->
  exists s' k', sys_close fd k = Done (0, k') /\ f_vfs k' = set_s s' (f_vfs k) /\
    (forall w, w <> v -> vrefs s' w = vrefs (v_s (f_vfs k)) w) /\
    let tx' := with_slot (Z.to_nat fd) None tx in
    if c =? ONE_FILE_OWNER then
      vrefs s' v = Some 1 /\ f_files k' = delete p (f_files k) /\
      f_tables k' = <[t := tx']> (<[g := unmastered f gx]> (f_tables k))
    else
      vrefs s' v = Some (c - 1) /\ f_files k' = f_files k /\ f_tables k' = <[t := tx']> (f_tables k).
Proof.
  intros O Hc Hpos Hm. pattern (sys_close fd k). apply (open_run O). unfold sys_close.
  rewrite (of_range _ _ _ _ _ _ _ _ _ O). krun. rewrite (curproc_view O). krun.
  rewrite (lookup_view O). krun.
  pose proof O as [[Hg Hne Hgx Htx [Hlg Hlt] Hf Hv Hfl Hgl Htl] Hft Hr Hs (Hqf & Hqt & Hqg)].
  rewrite (view_tlock_t t g p) by done. krun.
  rewrite (view_set_t t g p) by (cbn [with_tlock file_arr]; rewrite Hlt; apply bad_fd_range in Hr; unfold OPEN_MAX; lia). krun.
  rewrite (view_tunlock_t t g p k (file_table_lock tx)) by done. krun.
  set (tx' := with_slot (Z.to_nat fd) None tx).
  change (with_tlock _ (with_slot _ _ _)) with (trelease tx'). rewrite trelease_quiet by done.
  destruct (Z.eqb_spec c ONE_FILE_OWNER) as [->|Hne2].
  - destruct (file_destroy_last t g p Hne k Hg v gx tx' f (v_s (f_vfs k))) as (s' & f' & Hrun & Hs' & Ho'); try done.
    { by rewrite Hqf. }
    { destruct Hm as [|Hm]; [by left|right]. by rewrite Hlg. }
    rewrite Hrun. krun. eexists s', _. split; [done|]. split; [done|]. split; [done|]. split; [done|].
    split; [apply delete_insert_eq|]. cbn [f_tables free_file set_core view]. f_equal. f_equal.
    unfold unmaster, unmastered. destruct (_ =? _); [done|]. by apply trelease_quiet.
  - destruct (file_destroy_more t g p k v c gx tx' f (v_s (f_vfs k))) as (s' & Hrun & Hs' & Ho'); try done.
    rewrite Hrun. krun. eexists s', _. split; [done|]. split; [done|]. split; [done|]. split; [done|].
    cbn [f_files f_tables set_core view]. rewrite frelease_quiet by done. split; [by rewrite insert_id|]. by rewrite (insert_id _ g).
Qed.

(** C36. Writing through a descriptor.  The user's bytes go to [VOP_WRITE] at the
    file's position, and the call returns what was written or the error; but the
    position stays where it was, so the next write goes to the same place.  Only the
    file system behind the vnode changes. *)
Theorem sys_write_spec k fd t g p tx gx f v buf len data r u' s' :
  open_fd k fd t g p tx gx f v -> v_mem (f_vfs k) = [] -> buf <> 0 -> 0 <= len < 2 ^ 31 ->
  copyin (f_umem k) buf (take (Z.to_nat len) (heap (Z.to_nat len) ++ zeros (Z.to_nat len))) len = (0, data) ->
  VOP_WRITE (v_s (f_vfs k)) v (uio_kinit data len (seek_pos f) UIO_WRITE) = Done (r, u', s') ->
  sys_write fd buf len k =
    Done (if r =? 0 then s32 (len - uio_resid u') else - r, set_vfs (set_s s' (f_vfs k)) k).
Proof.
  intros O Hmem Hbuf Hlen Hcopy Hw. pose proof (bad_fd_range _ (of_range _ _ _ _ _ _ _ _ _ O)) as Hr.
  pattern (sys_write fd buf len k). apply (open_run O). unfold sys_write.
  rewrite fd_in_range, (proj2 (Z.eqb_neq buf 0) Hbuf) by done. unfold alloc. rewrite u32_small by lia.
  krun. rewrite (kmalloc_view (k := k)) by done. krun. rewrite umem_view. krun. rewrite Hcopy. krun.
  destruct (fd_not_std fd ltac:(lia)) as (-> & -> & ->). krun.
  rewrite (curproc_view O). krun. rewrite (lookup_view O). krun. rewrite (flock_view O). krun. rewrite get_view. krun.
  cbn [with_flock file_vnode seek_pos]. rewrite (rd_v _ _ _ _ _ _ _ _ (of_ready _ _ _ _ _ _ _ _ _ O)). krun.
  rewrite (view_fsop (k := k)). rewrite Hw. krun. rewrite (funlock_view O) by done. krun.
  change (with_flock new_lock _) with (with_flock new_lock f). rewrite (unlocked O), (open_view_s O).
  by destruct (r =? 0).
Qed.

(** Reading through a descriptor into mapped user memory.  [VOP_READ] runs at
    the file's position; on success the position advances by the number of bytes
    read, which the call returns, and nothing else of the file layer changes.  On
    an error the call returns it with the file's lock still held. *)
Theorem sys_read_spec k fd t g p tx gx f v buf len r u' s' :
  open_fd k fd t g p tx gx f v -> buf <> 0 -> 0 <= len < 2 ^ 31 ->
  VOP_READ (v_s (f_vfs k)) v (uio_kinit (mapped_bytes (f_umem k) buf (Z.to_nat len)) len (seek_pos f) UIO_READ)
    = Done (r, u', s') ->
  let m' := store_bytes (f_umem k) buf (uio_moved u') in
  let n := u32 (len - uio_resid u') in
  let k' := set_user m' (con_in k) (con_out k) (set_vfs (set_s s' (f_vfs k)) k) in
  sys_read fd buf len k =
    if r =? 0 then Done (s32 n, put_file p (with_seek (s32 (seek_pos f + n)) f) k')
    else Done (- r, put_file p (with_flock (held_by (curthread (f_vfs k)) new_lock) f) k').
Proof.
  intros O Hbuf Hlen Hread m' n k'. pose proof (bad_fd_range _ (of_range _ _ _ _ _ _ _ _ _ O)) as Hr.
  pattern (sys_read fd buf len k). apply (open_run O). unfold sys_read.
  rewrite fd_in_range, (proj2 (Z.eqb_neq buf 0) Hbuf) by done.
  destruct (fd_not_std fd ltac:(lia)) as (-> & -> & ->). cbn [orb]. krun.
  rewrite (curproc_view O). krun. rewrite (lookup_view O). krun. rewrite (flock_view O). krun. rewrite get_view. krun.
  cbn [with_flock file_vnode seek_pos]. rewrite (rd_v _ _ _ _ _ _ _ _ (of_ready _ _ _ _ _ _ _ _ _ O)). krun.
  rewrite umem_view. krun. rewrite (view_fsop (k := k)). rewrite Hread. krun. fold n.
  fold m'. set (z := with_flock (held k new_lock) f).
  change (set_umem m' (view t g p k gx tx z s')) with (@Done (unit * files S) ((), set_user m' (con_in k) (con_out k) (view t g p k gx tx z s'))).
  cbv beta iota. set (k1 := set_user m' (con_in k) (con_out k) (view t g p k gx tx z s')).
  assert (Hz : f_files k1 !! p = Some z) by apply lookup_insert_eq.
  assert (Hk1 : forall a, put_file p a k1 = put_file p a k').
  { intros a. subst k1 k'. rewrite <- (open_view_s O). unfold put_file, set_core, set_user, view. cbn. by rewrite !insert_insert_eq. }
  destruct (r =? 0); cbn [negb].
  - krun. rewrite (upd_file_at p _ z) by done. krun. rewrite (funlock_at p (with_seek (s32 (seek_pos z + n)) z) new_lock);
      [|apply lookup_insert_eq|done]. krun.
    rewrite put_put, Hk1. do 3 f_equal. change (with_flock (freed new_lock) _) with (with_seek (s32 (seek_pos f + n)) (with_flock new_lock f)).
    by rewrite (unlocked O).
  - rewrite <- Hk1. unfold put_file. subst k1. unfold set_core, set_user, view. cbn. by rewrite insert_insert_eq.
Qed.

(** *** Positions *)

Lemma s32_eqm x y : x mod 2 ^ 32 = y mod 2 ^ 32 -> s32 x = s32 y.
Proof. intros H. unfold s32. rewrite (Z.add_mod x), (Z.add_mod y), H by lia. done. Qed.

Lemma s64_mod x : s64 x mod 2 ^ 32 = x mod 2 ^ 32.
Proof.
  unfold s64. set (y := x + 2 ^ 63). pose proof (Z.div_mod y (2 ^ 64) ltac:(lia)).
  replace (y mod 2 ^ 64 - 2 ^ 63) with (x + (- (y / 2 ^ 64) * 2 ^ 32) * 2 ^ 32) by (subst y; lia).
  by rewrite Z.mod_add by lia.
Qed.

Lemma join_mod fd offset : join32to64 fd offset mod 2 ^ 32 = offset mod 2 ^ 32.
Proof. unfold join32to64. rewrite s64_mod, Z.add_comm, Z.mod_add by lia. unfold u32. by rewrite Z.mod_mod. Qed.

(** The position [offset] is counted from. *)
Definition seek_base (f : file) (size whence : Z) : Z :=
  if whence =? SEEK_SET then 0 else if whence =? SEEK_CUR then seek_pos f else size.

(** Seeking.  For whence SEEK_SET, SEEK_CUR and SEEK_END the new position is the
    offset counted from the start, the position or the end, cut to 32 bits, and the
    descriptor the code mixes into the high word has no effect.  The call fails with
    EINVAL on any other whence and whenever offset plus whence is negative, so that
    relative seeks back by more than one or two bytes are refused; a vnode that
    cannot seek gives ESPIPE.  A failing call changes nothing. *)
Theorem sys_lseek_spec k fd t g p tx gx f v offset whence seekable size :
  open_fd k fd t g p tx gx f v -> - 2 ^ 62 <= offset < 2 ^ 62 -> - 2 ^ 31 <= whence < 2 ^ 31 ->
  VOP_ISSEEKABLE (v_s (f_vfs k)) v = Done seekable -> VOP_STAT_SIZE (v_s (f_vfs k)) v = Done (Ok size) ->
  let pos := s32 (seek_base f size whence + offset) in
  sys_lseek fd offset whence k =
    if negb seekable then Done (- ESPIPE, k)
    else if (0 <=? whence) && (whence <=? 2) && (0 <=? offset + whence) then Done (pos, put_file p (with_seek pos f) k)
    else Done (- EINVAL, k).
Proof.
  intros O Ho Hw Hk Hsz pos. pose proof (bad_fd_range _ (of_range _ _ _ _ _ _ _ _ _ O)) as Hr.
  assert (Hs64 : s64 (offset + whence) = offset + whence) by (unfold s64; lia).
  pattern (sys_lseek fd offset whence k). apply (open_run O). unfold sys_lseek. rewrite fd_in_range by done.
  destruct (fd_not_std fd ltac:(lia)) as (-> & -> & ->). cbn [orb]. krun.
  rewrite (curproc_view O). krun. rewrite (lookup_view O). krun. rewrite get_view. krun.
  rewrite (rd_v _ _ _ _ _ _ _ _ (of_ready _ _ _ _ _ _ _ _ _ O)). krun.
  rewrite view_fsget, Hk. krun. destruct seekable; cbn [negb]; [|krun; by rewrite <- (open_view O)]. krun.
  rewrite view_fsget, Hsz. krun. rewrite Hs64.
  destruct (Z.ltb_spec whence 0); [rewrite (proj2 (Z.leb_gt 0 whence)) by lia; krun; by rewrite <- (open_view O)|].
  rewrite (proj2 (Z.leb_le 0 whence)) by lia.
  destruct (Z.ltb_spec (offset + whence) 0).
  { rewrite (proj2 (Z.leb_gt 0 (offset + whence))) by lia. rewrite !andb_false_r. krun. by rewrite <- (open_view O). }
  rewrite (proj2 (Z.leb_le 0 (offset + whence))), andb_true_r by lia. cbn [andb]. krun.
  rewrite (flock_view O). krun. rewrite get_view. krun.
  set (z := with_flock (held k new_lock) f).
  assert (Hmove : forall np, s32 np = pos ->
    (upd_file p (with_seek (s32 np));; x ← get_file p; funlock p;; mret (seek_pos x)) (view t g p k gx tx z (v_s (f_vfs k))) =
      Done (pos, put_file p (with_seek pos f) k)).
  { intros np ->. krun. rewrite upd_view. krun. rewrite get_view. krun. rewrite (funlock_view O) by done.
    change (with_flock new_lock _) with (with_seek pos (with_flock new_lock f)). by rewrite (unlocked O), (open_put O). }
  subst pos. unfold seek_base in *.
  destruct (Z.eqb_spec whence SEEK_SET) as [->|Hw0]; [apply Hmove; apply s32_eqm; by rewrite join_mod, Z.add_0_l|].
  destruct (Z.eqb_spec whence SEEK_CUR) as [->|Hw1].
  { apply Hmove, s32_eqm. rewrite s64_mod, Z.add_mod, join_mod, <- Z.add_mod by lia. done. }
  destruct (Z.eqb_spec whence SEEK_END) as [->|Hw2].
  { cbn [z with_flock file_vnode]. rewrite (rd_v _ _ _ _ _ _ _ _ (of_ready _ _ _ _ _ _ _ _ _ O)). krun.
    rewrite view_fsget, Hsz. krun. apply Hmove, s32_eqm. rewrite s64_mod, (Z.add_comm size), Z.add_mod, join_mod, <- Z.add_mod by lia. done. }
  unfold SEEK_SET, SEEK_CUR, SEEK_END in *. rewrite (proj2 (Z.leb_gt whence 2)) by lia. krun.
  rewrite (funlock_view O) by done. change (with_flock new_lock z) with (with_flock new_lock f). rewrite (unlocked O).
  by rewrite <- (open_view O).
Qed.

(** *** dup2 *)

Lemma file_copy_result ft o n k r k' : file_copy ft o n k = Done (r, k') -> r = -1 \/ r = 0.
Proof.
  unfold file_copy. intros H. destruct (_ || _); [left; by injection H|]. destruct ft as [t|]; [|left; by injection H].
  apply K_bind_inv in H as (g & k1 & _ & H). apply K_bind_inv in H as (src & k2 & _ & H).
  destruct (bool_decide _); [left; by injection H|]. right.
  repeat (apply K_bind_inv in H as (? & ? & _ & H)). by injection H.
Qed.

(** [sys_dup2] never succeeds.  It takes [file_copy]'s 0 for a descriptor, and
    0 is below [MIN_FD], so whenever the call returns it returns EBADF.  It does so
    even where it has made the copy: for a file in the same slot of both tables and
    an empty new slot, that slot then holds the file, with no reference taken. *)
Theorem sys_dup2_spec k fd t g p tx gx f v newfd :
  open_fd k fd t g p tx gx f v -> file_arr gx !! Z.to_nat fd = Some (Some p) ->
  bad_fd newfd = false -> file_arr tx !! Z.to_nat newfd = Some None ->
  sys_dup2 fd newfd k = Done (- EBADF, put_table t (with_slot (Z.to_nat newfd) (Some p) tx) k) /\
  forall k1 o n r k2, sys_dup2 o n k1 = Done (r, k2) -> r = - EBADF.
Proof.
  intros O Hgs Hn Hns. split.
  2: { intros k1 o n r k2 H. unfold sys_dup2 in H. apply K_bind_inv in H as (ft & k3 & _ & H).
       apply K_bind_inv in H as (c & k4 & Hc & H). apply file_copy_result in Hc.
       rewrite (proj2 (Z.ltb_lt c _)) in H by (unfold MIN_FD; lia). by injection H. }
  pose proof O as [[Hg Hne Hgx Htx [Hlg Hlt] Hf Hv Hfl Hgl Htl] Hft Hr Hs (Hqf & Hqt & Hqg)].
  pose proof (bad_fd_range _ Hr). pose proof (bad_fd_range _ Hn).
  assert (Hdiff : Z.to_nat newfd <> Z.to_nat fd) by (intros E; rewrite E in Hns; congruence).
  pattern (sys_dup2 fd newfd k). apply (open_run O). unfold sys_dup2. krun. rewrite (curproc_view O). krun.
  assert (Hcopy : file_copy (Some t) fd newfd (view t g p k gx tx f (v_s (f_vfs k))) =
    Done (0, view t g p k gx (with_slot (Z.to_nat newfd) (Some p) tx) f (v_s (f_vfs k)))).
  { unfold file_copy. unfold bad_fd in Hr, Hn. apply orb_false_iff in Hr as [-> ->], Hn as [-> ->]. cbn [orb]. krun.
    rewrite (view_kft t g p) by done. krun. rewrite (view_slot_g t g p Hne k _ (Some p)) by done. krun.
    rewrite bool_decide_false by done. krun. rewrite (view_tlock_t t g p) by done. krun.
    rewrite (view_slot_t t g p k _ (Some p)) by done. krun.
    rewrite (view_flock t g p) by done. krun. rewrite (view_tlock_g t g p) by done. krun.
    rewrite (view_slot_t t g p k _ None) by done. krun. rewrite bool_decide_false by by intros []. krun.
    rewrite (view_slot_g t g p Hne k _ (Some p)) by done. krun.
    rewrite (view_set_t t g p) by (cbn [with_tlock file_arr]; rewrite Hlt; unfold OPEN_MAX; lia). krun.
    rewrite (view_tunlock_g t g p Hne k (file_table_lock gx)) by done. krun.
    rewrite (view_slot_t t g p k _ (Some p)) by (cbn [with_slot with_tlock file_arr]; by rewrite list_lookup_insert_ne). krun.
    rewrite (view_funlock t g p k (file_lock f)) by done. krun.
    rewrite (view_tunlock_t t g p k (file_table_lock tx)) by done. krun.
    do 3 f_equal; [apply (trelease_quiet gx)|apply (trelease_quiet (with_slot _ _ tx))|apply (frelease_quiet f)]; done. }
  rewrite Hcopy. krun. rewrite (proj2 (Z.ltb_lt 0 _)) by (unfold MIN_FD; lia). krun. by rewrite (open_put_table O).
Qed.

(** *** open *)

(** The descriptor [j] and global slot [i] a new file gets. *)
Lemma file_create_ok q k :
  v_mem (f_vfs k) = [] -> good_str q ->
  file_create q k = Done (Some (f_next k), put_file (f_next k) (mkFile None new_lock 0 (cstr q ++ [0]) FLOATING_FILE) (fresh_key k)).
Proof.
  intros Hm Hq. unfold file_create. krun. unfold vcall, zoom at 1. rewrite kmalloc_ok by done. krun.
  unfold zoom at 1. change (f_vfs (set_vfs (f_vfs k) k)) with (f_vfs k). rewrite dup_ok by done. krun.
  unfold zoom at 1. change (f_vfs (set_vfs (f_vfs k) (set_vfs (f_vfs k) k))) with (f_vfs k). rewrite Hm. cbn [lock_create kalloc3 kalloc]. krun.
  assert (Hid : set_mem [] (f_vfs k) = f_vfs k) by (destruct (f_vfs k); cbn in *; by subst). cbn [lock_create kalloc3 kalloc tail negb].
  rewrite Hid. krun. unfold set_vfs, set_core, put_file, fresh_key. done.
Qed.

(** C35. Opening a file.  When [vfs_open] returns a vnode and both tables have room,
    the call returns the lowest free descriptor from 3 on; behind it is a new file
    with that vnode at position 0, entered in the lowest free slot of the global
    table as well, and the vnode has one reference more than [vfs_open] left it.
    The path kept with the file is the one [vfs_open] has worked on. *)
Theorem sys_open_spec k filename flags path q v1 vn t g gx tx i j c :
  filename <> 0 -> v_mem (f_vfs k) = [] ->
  copyin (f_umem k) filename (take 1024 (heap 1024 ++ zeros 1024)) PATH_MAX = (0, path) ->
  vfs_open path flags 0 (f_vfs k) = Done ((Ok vn, q), v1) -> v_mem v1 = [] -> good_str q ->
  proc_ft k !! curproc v1 = Some t -> kproc_ft k = g -> t <> g ->
  f_tables k !! g = Some gx -> f_tables k !! t = Some tx ->
  length (file_arr gx) = OPEN_MAX -> length (file_arr tx) = OPEN_MAX -> num_files gx <> Z.of_nat OPEN_MAX ->
  free_lock (file_table_lock gx) -> free_lock (file_table_lock tx) ->
  vrefs (v_s v1) vn = Some c -> 1 <= c -> first_free gx = Some i -> first_free tx = Some j ->
  exists s', sys_open filename flags k = Done (Z.of_nat j,
      set_core (set_s s' v1) (<[f_next k := mkFile (Some vn) new_lock 0 (cstr q ++ [0]) (Z.of_nat i)]> (f_files k))
        (<[t := trelease (with_slot j (Some (f_next k)) tx)]> (<[g := trelease (with_slot i (Some (f_next k)) gx)]> (f_tables k)))
        (f_next k + 1) k) /\
    vrefs s' vn = Some (c + 1) /\ forall w, w <> vn -> vrefs s' w = vrefs (v_s v1) w.
Proof.
  intros Hfn Hmem Hcopy Hopen Hmem1 Hq Hft Hg Hne Hgx Htx Hlg Hlt Hn Hgl Htl Hc Hpos Hi Hj.
  unfold sys_open. rewrite (proj2 (Z.eqb_neq _ 0)) by done. unfold alloc. krun.
  unfold vcall at 1, zoom. rewrite kmalloc_ok by done. krun. change (Z.to_nat PATH_MAX) with 1024%nat.
  change (f_umem (set_vfs (f_vfs k) k)) with (f_umem k). unfold umemory. krun.
  change (f_umem (set_vfs (f_vfs k) k)) with (f_umem k). rewrite Hcopy. krun.
  unfold vcall at 1, zoom. change (f_vfs (set_vfs (f_vfs k) k)) with (f_vfs k). rewrite Hopen. krun.
  set (k1 := set_vfs v1 (set_vfs (f_vfs k) k)). rewrite (file_create_ok q k1) by done. krun.
  change (f_next k1) with (f_next k). set (p := f_next k) in *.
  rewrite (upd_file_at p _ (mkFile None new_lock 0 (cstr q ++ [0]) FLOATING_FILE)) by apply lookup_insert_eq. rewrite put_put.
  set (f := with_vnode (Some vn) _). set (k2 := put_file p f (fresh_key k1)). krun.
  change (curproc (f_vfs k2)) with (curproc v1). change (proc_ft k2) with (proc_ft k). unfold curproc_ft. krun.
  change (curproc (f_vfs k2)) with (curproc v1). change (proc_ft k2) with (proc_ft k). rewrite Hft. krun.
  pose proof (file_table_add_view t g p Hne k2 Hg vn c gx tx f (v_s v1) Hlg Hlt Hn eq_refl eq_refl (quiet_free _ eq_refl) Hgl Htl Hc Hpos) as H.
  unfold added in H. rewrite Hi, Hj in H. destruct H as (s' & Hrun & Hs' & Ho').
  change (v_s v1) with (v_s (f_vfs k2)) in Hrun. rewrite (view_id t g p k2 Hg gx tx f) in Hrun; [|apply lookup_insert_eq|done|done].
  rewrite Hrun. krun. pose proof (find_free_least _ _ _ _ Hj) as (Hj3 & _ & _).
  rewrite (proj2 (Z.ltb_ge (Z.of_nat j) (Z.of_nat MIN_FD))) by lia. krun. exists s'. split; [|done].
  do 2 f_equal. unfold view, set_core. cbn. f_equal. by rewrite insert_insert_eq.
Qed.
End FileSyscalls.
