(* ===== verification/Dumbvm.v ===== *)
(** * arch/mips/vm/dumbvm.c, ram.c: physical memory, address spaces and the TLB

    Physical memory is a function from addresses to bytes, reached by the kernel at
    [PADDR_TO_KVADDR] of an address; [bzero] and [memmove] there are changes of that
    function (Cstring has the loops).  The TLB is a list of pairs of an [ehi] and an
    [elo] word.  Address spaces are objects known by the keys that stand for their
    addresses.  [free_kpages] does nothing.  The as_ functions are called from system calls
    and from the start of programs, by threads that hold no spinlock; their calls of
    [dumbvm_can_sleep] are left out, as is kprintf. *)

From S2P Require Import Prelude.

#[local] Set Warnings "-clear-no-such-hyp".

Definition PAGE_SIZE : Z := 4096.
Definition PAGE_FRAME : Z := 4294963200.
Definition MIPS_KSEG0 : Z := 2147483648.
Definition USERSTACK : Z := MIPS_KSEG0.
Definition PADDR_TO_KVADDR (paddr : Z) : Z := u32 (paddr + MIPS_KSEG0).
Definition DUMBVM_STACKPAGES : Z := 18.
Definition NUM_TLB : nat := 64.
Definition TLBLO_DIRTY : Z := 1024.
Definition TLBLO_VALID : Z := 512.
Definition TLBHI_INVALID (entryno : nat) : Z := Z.shiftl (524288 + Z.of_nat entryno) 12.
Definition TLBLO_INVALID : Z := 0.
Definition VM_FAULT_READ : Z := 0.
Definition VM_FAULT_WRITE : Z := 1.
Definition VM_FAULT_READONLY : Z := 2.

Record addrspace := mkAs {
  as_vbase1 : Z; as_pbase1 : Z; as_npages1 : Z;
  as_vbase2 : Z; as_pbase2 : Z; as_npages2 : Z;
  as_stackpbase : Z }.

(** [vm_mem] says how the next requests to [kmalloc] end, [as_next] where the next
    address space will be. *)
Record vm := mkVm {
  firstpaddr : Z; lastpaddr : Z; phys : Z -> Z; tlb : list (Z * Z);
  aspaces : gmap Z addrspace; as_next : Z; vm_mem : list bool }.

Definition set_first (p : Z) (s : vm) : vm := mkVm p (lastpaddr s) (phys s) (tlb s) (aspaces s) (as_next s) (vm_mem s).
Definition set_phys (f : Z -> Z) (s : vm) : vm := mkVm (firstpaddr s) (lastpaddr s) f (tlb s) (aspaces s) (as_next s) (vm_mem s).
Definition set_tlb (l : list (Z * Z)) (s : vm) : vm := mkVm (firstpaddr s) (lastpaddr s) (phys s) l (aspaces s) (as_next s) (vm_mem s).
Definition set_aspaces (m : gmap Z addrspace) (s : vm) : vm := mkVm (firstpaddr s) (lastpaddr s) (phys s) (tlb s) m (as_next s) (vm_mem s).

(** ** Physical memory (ram.c) *)

Definition ram_bootstrap (ramsize firstfree : Z) (s : vm) : vm :=
  let ramsize := if ramsize >? 512 * 1024 * 1024 then 512 * 1024 * 1024 else ramsize in
  mkVm (u32 (firstfree - MIPS_KSEG0)) ramsize (phys s) (tlb s) (aspaces s) (as_next s) (vm_mem s).

(** 0: no memory. *)
Definition ram_stealmem (npages : Z) : K vm Z := fun s =>
  let size := u32 (npages * PAGE_SIZE) in
  if u32 (firstpaddr s + size) >? lastpaddr s then Done (0, s)
  else Done (firstpaddr s, set_first (u32 (firstpaddr s + size)) s).

Definition getppages (npages : Z) : K vm Z := ram_stealmem npages.

(** [c_spinlocks] is the number of spinlocks that the processor holds.  The calls are not
    from interrupt handlers. *)
Definition dumbvm_can_sleep (c_spinlocks : Z) : K vm unit := kassert (c_spinlocks =? 0).

Definition alloc_kpages (c_spinlocks npages : Z) : K vm Z :=
  dumbvm_can_sleep c_spinlocks;;
  pa ← getppages npages;
  if pa =? 0 then mret 0 else mret (PADDR_TO_KVADDR pa).

Definition free_kpages (addr : Z) : K vm unit := mret ().
Definition coremap_used_bytes : Z := 0.

Definition ram_getsize : K vm Z := gets lastpaddr.

Definition ram_getfirstfree : K vm Z := fun s =>
  Done (firstpaddr s, mkVm 0 0 (phys s) (tlb s) (aspaces s) (as_next s) (vm_mem s)).

(** ** Address spaces *)

Definition get_as (p : Z) : K vm addrspace := fun s => x ← deref (aspaces s !! p); Done (x, s).
Definition put_as (p : Z) (x : addrspace) : K vm unit := modify (fun s => set_aspaces (<[p := x]> (aspaces s)) s).

(** 0: no memory. *)
Definition as_create : K vm Z := fun s =>
  let '(ok, mem) := kalloc (vm_mem s) in
  if ok then Done (as_next s, mkVm (firstpaddr s) (lastpaddr s) (phys s) (tlb s)
    (<[as_next s := mkAs 0 0 0 0 0 0 0]> (aspaces s)) (as_next s + 1) mem)
  else Done (0, mkVm (firstpaddr s) (lastpaddr s) (phys s) (tlb s) (aspaces s) (as_next s) mem).

Definition as_destroy (p : Z) : K vm unit :=
  if p =? 0 then mret () else
  get_as p;;
  modify (fun s => set_aspaces (delete p (aspaces s)) s).

(** [tlb_write] to every entry; [p] is the current address space, 0 if there is none. *)
Definition invalid_tlb : list (Z * Z) := (fun i => (TLBHI_INVALID i, TLBLO_INVALID)) <$> seq 0 NUM_TLB.
Definition as_activate (p : Z) : K vm unit :=
  if p =? 0 then mret () else modify (set_tlb invalid_tlb).
Definition as_deactivate : K vm unit := mret ().

Definition with_region1 (v n : Z) (x : addrspace) : addrspace :=
  mkAs v (as_pbase1 x) n (as_vbase2 x) (as_pbase2 x) (as_npages2 x) (as_stackpbase x).
Definition with_region2 (v n : Z) (x : addrspace) : addrspace :=
  mkAs (as_vbase1 x) (as_pbase1 x) (as_npages1 x) v (as_pbase2 x) n (as_stackpbase x).
Definition with_pbase1 (b : Z) (x : addrspace) : addrspace :=
  mkAs (as_vbase1 x) b (as_npages1 x) (as_vbase2 x) (as_pbase2 x) (as_npages2 x) (as_stackpbase x).
Definition with_pbase2 (b : Z) (x : addrspace) : addrspace :=
  mkAs (as_vbase1 x) (as_pbase1 x) (as_npages1 x) (as_vbase2 x) b (as_npages2 x) (as_stackpbase x).
Definition with_stackpbase (b : Z) (x : addrspace) : addrspace :=
  mkAs (as_vbase1 x) (as_pbase1 x) (as_npages1 x) (as_vbase2 x) (as_pbase2 x) (as_npages2 x) b.

(** The permissions are not used. *)
Definition as_define_region (p vaddr sz : Z) : K vm Z :=
  let sz := u32 (sz + Z.land vaddr (Z.lxor PAGE_FRAME (2 ^ 32 - 1))) in
  let vaddr := Z.land vaddr PAGE_FRAME in
  let sz := Z.land (u32 (sz + PAGE_SIZE - 1)) PAGE_FRAME in
  let npages := sz / PAGE_SIZE in
  x ← get_as p;
  if as_vbase1 x =? 0 then put_as p (with_region1 vaddr npages x);; mret 0 else
  if as_vbase2 x =? 0 then put_as p (with_region2 vaddr npages x);; mret 0 else
  mret ENOSYS.

Definition as_zero_region (paddr npages : Z) : K vm unit :=
  modify (fun s => set_phys (fun a => if (paddr <=? a) && (a <? paddr + u32 (npages * PAGE_SIZE)) then 0 else phys s a) s).

Definition as_prepare_load (p : Z) : K vm Z :=
  x ← get_as p;
  kassert (as_pbase1 x =? 0);;
  kassert (as_pbase2 x =? 0);;
  kassert (as_stackpbase x =? 0);;
  b ← getppages (as_npages1 x);
  x ← get_as p;
  put_as p (with_pbase1 b x);;
  if b =? 0 then mret ENOMEM else
  b ← getppages (as_npages2 x);
  x ← get_as p;
  put_as p (with_pbase2 b x);;
  if b =? 0 then mret ENOMEM else
  b ← getppages DUMBVM_STACKPAGES;
  x ← get_as p;
  put_as p (with_stackpbase b x);;
  if b =? 0 then mret ENOMEM else
  x ← get_as p;
  as_zero_region (as_pbase1 x) (as_npages1 x);;
  as_zero_region (as_pbase2 x) (as_npages2 x);;
  as_zero_region (as_stackpbase x) DUMBVM_STACKPAGES;;
  mret 0.

Definition as_complete_load (p : Z) : K vm Z := mret 0.

Definition as_define_stack (p : Z) : K vm (Z * Z) :=
  x ← get_as p;
  kassert (negb (as_stackpbase x =? 0));;
  mret (0, USERSTACK).

(** [memmove] between physical addresses. *)
Definition copy_phys (dst src len : Z) : K vm unit :=
  modify (fun s => set_phys (fun a => if (dst <=? a) && (a <? dst + len) then phys s (a - dst + src) else phys s a) s).

(** The result and the new address space. *)
Definition as_copy (old : Z) : K vm (Z * Z) :=
  new ← as_create;
  if new =? 0 then mret (ENOMEM, 0) else
  o ← get_as old;
  x ← get_as new;
  put_as new (with_region2 (as_vbase2 o) (as_npages2 o) (with_region1 (as_vbase1 o) (as_npages1 o) x));;
  result ← as_prepare_load new;
  if negb (result =? 0) then as_destroy new;; mret (ENOMEM, 0) else
  x ← get_as new;
  kassert (negb (as_pbase1 x =? 0));;
  kassert (negb (as_pbase2 x =? 0));;
  kassert (negb (as_stackpbase x =? 0));;
  copy_phys (as_pbase1 x) (as_pbase1 o) (u32 (as_npages1 o * PAGE_SIZE));;
  copy_phys (as_pbase2 x) (as_pbase2 o) (u32 (as_npages2 o * PAGE_SIZE));;
  copy_phys (as_stackpbase x) (as_stackpbase o) (DUMBVM_STACKPAGES * PAGE_SIZE);;
  mret (0, new).

(** ** Faults *)

(** The loop over the TLB: the first entry that is not valid. *)
Fixpoint free_entry (i : nat) (l : list (Z * Z)) : option nat :=
  match l with
  | [] => None
  | (_, elo) :: l => if negb (Z.land elo TLBLO_VALID =? 0) then free_entry (S i) l else Some i
  end.

(** The physical page of an address, by the three ranges. *)
Definition fault_paddr (x : addrspace) (faultaddress : Z) : option Z :=
  let vtop1 := u32 (as_vbase1 x + u32 (as_npages1 x * PAGE_SIZE)) in
  let vtop2 := u32 (as_vbase2 x + u32 (as_npages2 x * PAGE_SIZE)) in
  let stackbase := USERSTACK - DUMBVM_STACKPAGES * PAGE_SIZE in
  if (as_vbase1 x <=? faultaddress) && (faultaddress <? vtop1) then Some (u32 (faultaddress - as_vbase1 x + as_pbase1 x)) else
  if (as_vbase2 x <=? faultaddress) && (faultaddress <? vtop2) then Some (u32 (faultaddress - as_vbase2 x + as_pbase2 x)) else
  if (stackbase <=? faultaddress) && (faultaddress <? USERSTACK) then Some (u32 (faultaddress - stackbase + as_stackpbase x)) else
  None.

Definition aligned (x : Z) : bool := Z.land x PAGE_FRAME =? x.

(** [curproc] says whether there is a current process, [p] is its address space or 0. *)
Definition vm_fault (curproc : bool) (p : Z) (faulttype faultaddress : Z) : K vm Z :=
  let faultaddress := Z.land faultaddress PAGE_FRAME in
  if faulttype =? VM_FAULT_READONLY then lift Panic else
  if negb ((faulttype =? VM_FAULT_READ) || (faulttype =? VM_FAULT_WRITE)) then mret EINVAL else
  if negb curproc then mret EFAULT else
  if p =? 0 then mret EFAULT else
  x ← get_as p;
  kassert (negb (as_vbase1 x =? 0) && negb (as_pbase1 x =? 0) && negb (as_npages1 x =? 0));;
  kassert (negb (as_vbase2 x =? 0) && negb (as_pbase2 x =? 0) && negb (as_npages2 x =? 0));;
  kassert (negb (as_stackpbase x =? 0));;
  kassert (aligned (as_vbase1 x) && aligned (as_pbase1 x) && aligned (as_vbase2 x) && aligned (as_pbase2 x) && aligned (as_stackpbase x));;
  match fault_paddr x faultaddress with
  | None => mret EFAULT
  | Some paddr =>
    kassert (aligned paddr);;
    l ← gets tlb;
    match free_entry 0 l with
    | Some i => modify (set_tlb (<[i := (faultaddress, Z.lor (Z.lor paddr TLBLO_DIRTY) TLBLO_VALID)]> l));; mret 0
    | None => mret EFAULT
    end
  end.

Definition vm_tlbshootdown (mapping : Z) : outcome unit := Panic.

(** [lia] with the sizes of pages. *)
Ltac plia := change PAGE_SIZE with 4096 in *; change DUMBVM_STACKPAGES with 18 in *; lia.

(** ** Pages *)

Definition page (va : Z) : Z := va / PAGE_SIZE * PAGE_SIZE.

Lemma land_frame x : 0 <= x < 2 ^ 32 -> Z.land x PAGE_FRAME = page x.
Proof.
  intros Hx. change PAGE_FRAME with (Z.shiftl (Z.ones 20) 12). unfold page, PAGE_SIZE. change 4096 with (2 ^ 12).
  rewrite <- Z.shiftr_div_pow2, <- Z.shiftl_mul_pow2 by lia.
  apply Z.bits_inj'. intros n Hn. rewrite Z.land_spec, !Z.shiftl_spec by lia.
  destruct (Z.ltb_spec n 12) as [Hlt|Hge].
  - rewrite !(Z.testbit_neg_r _ (n - 12)) by lia. by rewrite andb_false_r.
  - rewrite Z.shiftr_spec by lia. replace (n - 12 + 12) with n by lia. destruct (Z.ltb_spec (n - 12) 20) as [Hlt|Hge2].
    + rewrite Z.ones_spec_low by lia. by rewrite andb_true_r.
    + rewrite Z.ones_spec_high by lia. rewrite andb_false_r. symmetry.
      rewrite <- (Z.mod_small x (2 ^ 32)) by lia. apply Z.mod_pow2_bits_high. lia.
Qed.

Lemma page_eq va : page va = va - va mod PAGE_SIZE.
Proof. unfold page, PAGE_SIZE. lia. Qed.

Lemma page_idemp va : page (page va) = page va.
Proof. unfold page, PAGE_SIZE. by rewrite Z.div_mul. Qed.

Lemma aligned_eq x : 0 <= x < 2 ^ 32 -> aligned x = (x mod PAGE_SIZE =? 0).
Proof.
  intros Hx. unfold aligned. rewrite land_frame, page_eq by done.
  destruct (Z.eqb_spec (x - x mod PAGE_SIZE) x), (Z.eqb_spec (x mod PAGE_SIZE) 0); try done; lia.
Qed.

(** The flags sit below the page number. *)
Definition entry_lo (pa : Z) : Z := Z.lor (Z.lor pa TLBLO_DIRTY) TLBLO_VALID.

Lemma entry_valid pa : Z.land (entry_lo pa) TLBLO_VALID <> 0.
Proof.
  intros E. apply (f_equal (fun z => Z.testbit z 9)) in E. unfold entry_lo in E.
  rewrite Z.land_spec, !Z.lor_spec in E. change (Z.testbit TLBLO_VALID 9) with true in E. rewrite orb_true_r in E. done.
Qed.

Lemma entry_page pa : 0 <= pa < 2 ^ 32 -> pa mod PAGE_SIZE = 0 -> Z.land (entry_lo pa) PAGE_FRAME = pa.
Proof.
  intros Hpa Hal. unfold entry_lo. rewrite !Z.land_lor_distr_l, land_frame, page_eq, Hal by done.
  change (Z.land TLBLO_DIRTY PAGE_FRAME) with 0. change (Z.land TLBLO_VALID PAGE_FRAME) with 0. rewrite !Z.lor_0_r. lia.
Qed.

(** ** What an address space means *)

(** A space that can be used: two regions and a stack, page by page in physical memory
    below [top]. *)
Record space_ok (x : addrspace) (top : Z) : Prop := mkOk {
  ok_v1 : 0 < as_vbase1 x /\ as_vbase1 x mod PAGE_SIZE = 0 /\ 0 < as_npages1 x /\ as_vbase1 x + as_npages1 x * PAGE_SIZE <= USERSTACK;
  ok_v2 : 0 < as_vbase2 x /\ as_vbase2 x mod PAGE_SIZE = 0 /\ 0 < as_npages2 x /\ as_vbase2 x + as_npages2 x * PAGE_SIZE <= USERSTACK;
  ok_p1 : 0 < as_pbase1 x /\ as_pbase1 x mod PAGE_SIZE = 0 /\ as_pbase1 x + as_npages1 x * PAGE_SIZE <= top;
  ok_p2 : 0 < as_pbase2 x /\ as_pbase2 x mod PAGE_SIZE = 0 /\ as_pbase2 x + as_npages2 x * PAGE_SIZE <= top;
  ok_stack : 0 < as_stackpbase x /\ as_stackpbase x mod PAGE_SIZE = 0 /\ as_stackpbase x + DUMBVM_STACKPAGES * PAGE_SIZE <= top }.

(** Where the byte at a user's address is. *)
Definition translate (x : addrspace) (va : Z) : option Z :=
  if (as_vbase1 x <=? va) && (va <? as_vbase1 x + as_npages1 x * PAGE_SIZE) then Some (va - as_vbase1 x + as_pbase1 x) else
  if (as_vbase2 x <=? va) && (va <? as_vbase2 x + as_npages2 x * PAGE_SIZE) then Some (va - as_vbase2 x + as_pbase2 x) else
  if (USERSTACK - DUMBVM_STACKPAGES * PAGE_SIZE <=? va) && (va <? USERSTACK)
  then Some (va - (USERSTACK - DUMBVM_STACKPAGES * PAGE_SIZE) + as_stackpbase x) else None.

(** Is an address in a range of whole pages?  If its page starts there. *)
Lemma in_range_page b n va :
  b mod PAGE_SIZE = 0 -> (b <=? page va) && (page va <? b + n * PAGE_SIZE) = (b <=? va) && (va <? b + n * PAGE_SIZE).
Proof.
  intros Hb. unfold page. assert (HS : PAGE_SIZE = 4096) by done.
  pose proof (Z.div_mod va PAGE_SIZE ltac:(done)) as Hv. pose proof (Z.mod_pos_bound va PAGE_SIZE ltac:(done)) as Hr.
  pose proof (Z.div_mod b PAGE_SIZE ltac:(done)) as Hb'. rewrite HS in *.
  revert Hv Hr Hb'. rewrite Hb. generalize (va / 4096) (va mod 4096) (b / 4096). intros q r k Hv Hr Hb'. clear HS Hb.
  f_equal; apply eq_true_iff_eq; rewrite ?Z.leb_le, ?Z.ltb_lt; subst; lia.
Qed.

(** The end of a region, and an address in it. *)
Lemma region_top b n : 0 < b -> 0 < n -> b + n * PAGE_SIZE <= USERSTACK -> u32 (b + u32 (n * PAGE_SIZE)) = b + n * PAGE_SIZE.
Proof.
  intros Hb Hn Ht. change USERSTACK with (2 ^ 31) in Ht. change PAGE_SIZE with 4096 in *. rewrite (u32_small (n * 4096)), u32_small by lia. done.
Qed.

Lemma range_paddr b pb n top va :
  0 < b -> b mod PAGE_SIZE = 0 -> 0 < pb -> pb mod PAGE_SIZE = 0 -> pb + n * PAGE_SIZE <= top -> top <= 2 ^ 29 ->
  b <= va < b + n * PAGE_SIZE -> let pa := va - b + pb in
  u32 (page va - b + pb) = pa - va mod PAGE_SIZE /\ (pa - va mod PAGE_SIZE) mod PAGE_SIZE = 0 /\ va mod PAGE_SIZE <= pa < top.
Proof.
  intros Hb Hbm Hpb Hpm Hpt Htop Hva pa. subst pa. rewrite page_eq.
  change PAGE_SIZE with 4096 in *. assert (E : va - b + pb - va mod 4096 = 4096 * (va / 4096 - b / 4096 + pb / 4096)) by lia.
  assert (b / 4096 <= va / 4096) by (apply Z.div_le_mono; lia). assert (1 <= pb / 4096) by lia.
  split; [|split].
  - replace (va - va mod 4096 - b + pb) with (va - b + pb - va mod 4096) by lia. apply u32_small. lia.
  - rewrite E. rewrite Z.mul_comm. by apply Z.mod_mul.
  - lia.
Qed.

Lemma in_range b n va : (b <=? va) && (va <? b + n) = true -> b <= va < b + n.
Proof. intros [H1%Z.leb_le H2%Z.ltb_lt]%andb_prop. done. Qed.

Lemma fault_paddr_eq x top va : space_ok x top -> top <= 2 ^ 29 ->
  fault_paddr x (page va) = (fun pa => pa - va mod PAGE_SIZE) <$> translate x va /\
  forall pa, translate x va = Some pa -> (pa - va mod PAGE_SIZE) mod PAGE_SIZE = 0 /\ va mod PAGE_SIZE <= pa < top.
Proof.
  intros [(?&?&?&?) (?&?&?&?) (?&?&?) (?&?&?) (?&?&?)] Htop. unfold fault_paddr, translate.
  rewrite !region_top by done. rewrite (in_range_page (as_vbase1 x)), (in_range_page (as_vbase2 x)) by done.
  set (sb := USERSTACK - DUMBVM_STACKPAGES * PAGE_SIZE).
  change USERSTACK with (sb + DUMBVM_STACKPAGES * PAGE_SIZE). rewrite (in_range_page sb) by done.
  destruct ((as_vbase1 x <=? va) && _) eqn:E1; [|destruct ((as_vbase2 x <=? va) && _) eqn:E2; [|
    destruct ((sb <=? va) && _) eqn:E3; [|done]]].
  - destruct (range_paddr (as_vbase1 x) (as_pbase1 x) (as_npages1 x) top va) as (->&?&?); [done..|by apply in_range|].
    split; [done|]. by intros ? [= <-].
  - destruct (range_paddr (as_vbase2 x) (as_pbase2 x) (as_npages2 x) top va) as (->&?&?); [done..|by apply in_range|].
    split; [done|]. by intros ? [= <-].
  - destruct (range_paddr sb (as_stackpbase x) DUMBVM_STACKPAGES top va) as (->&?&?); [done..|by apply in_range|].
    split; [done|]. by intros ? [= <-].
Qed.

(** ** The TLB as a cache of [translate] *)

(** What the processor does with an address: the entry that is valid and has the page,
    and else a TLB miss, after which it tries again. *)
Fixpoint tlb_lookup (l : list (Z * Z)) (va : Z) : option Z :=
  match l with
  | [] => None
  | (ehi, elo) :: l =>
    if negb (Z.land elo TLBLO_VALID =? 0) && (Z.land ehi PAGE_FRAME =? page va)
    then Some (Z.land elo PAGE_FRAME + va mod PAGE_SIZE) else tlb_lookup l va
  end.

Definition user_access (p faulttype va : Z) : K vm (res Z) :=
  l ← gets tlb;
  match tlb_lookup l va with
  | Some pa => mret (Ok pa)
  | None =>
    result ← vm_fault true p faulttype va;
    if negb (result =? 0) then mret (Err result) else
    l ← gets tlb;
    match tlb_lookup l va with Some pa => mret (Ok pa) | None => lift Blocked end
  end.

Fixpoint user_accesses (p : Z) (l : list (Z * Z)) : K vm (list (res Z)) :=
  match l with
  | [] => mret []
  | (faulttype, va) :: l => r ← user_access p faulttype va; rs ← user_accesses p l; mret (r :: rs)
  end.

(** What it should come to: [pages] are those used so far. *)
Definition abs_access (x : addrspace) (pages : list Z) (va : Z) : list Z * res Z :=
  match translate x va with
  | None => (pages, Err EFAULT)
  | Some pa =>
    if bool_decide (page va ∈ pages) then (pages, Ok pa) else
    if bool_decide (length pages < NUM_TLB)%nat then (pages ++ [page va], Ok pa) else (pages, Err EFAULT)
  end.

Fixpoint abs_accesses (x : addrspace) (pages : list Z) (l : list (Z * Z)) : list Z * list (res Z) :=
  match l with
  | [] => (pages, [])
  | (_, va) :: l =>
    let '(pages, r) := abs_access x pages va in
    let '(pages, rs) := abs_accesses x pages l in (pages, r :: rs)
  end.

(** The TLB when the pages have been used in this order. *)
Definition page_entry (x : addrspace) (v : Z) : Z * Z := (v, entry_lo (default 0 (fault_paddr x v))).
Definition tlb_of (x : addrspace) (pages : list Z) : list (Z * Z) := (page_entry x <$> pages) ++ drop (length pages) invalid_tlb.

Definition good_page (x : addrspace) (v : Z) : Prop := 0 <= v < 2 ^ 32 /\ page v = v /\ is_Some (translate x v).

Lemma translate_page x top va : space_ok x top -> top <= 2 ^ 29 ->
  translate x (page va) = (fun pa => pa - va mod PAGE_SIZE) <$> translate x va.
Proof.
  intros Hok Htop. destruct (fault_paddr_eq x top va Hok Htop) as (<-&_).
  destruct (fault_paddr_eq x top (page va) Hok Htop) as (H&_). rewrite page_idemp in H. rewrite H.
  replace (page va mod PAGE_SIZE) with 0 by (unfold page; by rewrite Z.mod_mul).
  destruct (translate x (page va)); cbn; [f_equal; lia|done].
Qed.

Lemma invalid_lookup l va : (forall ehi elo, (ehi, elo) ∈ l -> elo = 0) -> tlb_lookup l va = None.
Proof.
  induction l as [|[ehi elo] l IH]; intros Hl; [done|]. cbn. rewrite (Hl ehi elo) by left. cbn. apply IH.
  intros h o Hin. apply (Hl h). by right.
Qed.

Lemma invalid_drop k ehi elo : (ehi, elo) ∈ drop k invalid_tlb -> elo = 0.
Proof.
  intros Hin. apply (list_elem_of_lookup_1) in Hin as [i Hi]. rewrite lookup_drop in Hi. apply list_elem_of_lookup_2 in Hi.
  unfold invalid_tlb in Hi. apply list_elem_of_fmap in Hi as (?&[= _ ->]&_). done.
Qed.

Lemma tlb_of_lookup x top pages va :
  space_ok x top -> top <= 2 ^ 29 -> 0 <= va < 2 ^ 32 -> Forall (good_page x) pages ->
  tlb_lookup (tlb_of x pages) va = if bool_decide (page va ∈ pages) then translate x va else None.
Proof.
  intros Hok Htop Hva. unfold tlb_of. generalize (drop (length pages) invalid_tlb) (invalid_drop (length pages)). intros tl Htl.
  induction 1 as [|v pages (Hv&Hvp&Hvt) _ IH].
  - cbn [fmap list_fmap app]. rewrite invalid_lookup by done. by rewrite bool_decide_false by set_solver.
  - rewrite fmap_cons, <- app_comm_cons. unfold page_entry at 1. cbn [tlb_lookup]. rewrite (proj2 (Z.eqb_neq _ _)) by apply entry_valid.
    rewrite land_frame, Hvp by done. cbn [negb andb]. destruct (Z.eqb_spec v (page va)) as [->|Hne].
    + rewrite bool_decide_true by left. destruct (fault_paddr_eq x top va Hok Htop) as (->&Hpa).
      rewrite (translate_page x top va Hok Htop) in Hvt. destruct (translate x va) as [pa|]; [|by destruct Hvt].
      destruct (Hpa pa eq_refl) as (Hal&Hr). cbn. rewrite entry_page; [f_equal; lia| |done].
      pose proof (Z.mod_pos_bound va PAGE_SIZE ltac:(done)). clear -Hr Htop H. lia.
    + rewrite IH. rewrite (bool_decide_ext (page va ∈ v :: pages) (page va ∈ pages)); [done|]. rewrite elem_of_cons. naive_solver.
Qed.

Lemma free_entry_valid i l tl : Forall (fun e : Z * Z => Z.land (snd e) TLBLO_VALID <> 0) l ->
  free_entry i (l ++ tl) = free_entry (i + length l) tl.
Proof.
  intros Hl. revert i. induction Hl as [|[ehi elo] l He _ IH]; intros i; cbn; [by rewrite Nat.add_0_r|].
  cbn in He. rewrite (proj2 (Z.eqb_neq _ _)) by done. cbn. rewrite IH. f_equal. lia.
Qed.

Lemma tlb_of_free x pages : (length pages <= NUM_TLB)%nat ->
  free_entry 0 (tlb_of x pages) = if bool_decide (length pages < NUM_TLB)%nat then Some (length pages) else None.
Proof.
  intros Hlen. unfold tlb_of. rewrite free_entry_valid, length_fmap by (apply Forall_fmap, Forall_forall; intros v _; apply entry_valid).
  case_bool_decide as Hlt.
  - destruct (lookup_lt_is_Some_2 invalid_tlb (length pages)) as [[h o] Ho]; [by vm_compute|].
    erewrite drop_S by exact Ho. assert (o = 0) as ->; [|done].
    apply (invalid_drop 0 h o). rewrite drop_0. by eapply list_elem_of_lookup_2.
  - rewrite drop_ge; [done|]. change (length invalid_tlb) with NUM_TLB. lia.
Qed.

Lemma tlb_of_insert x pages v : (length pages < NUM_TLB)%nat ->
  <[length pages := page_entry x v]> (tlb_of x pages) = tlb_of x (pages ++ [v]).
Proof.
  intros Hlen. unfold tlb_of. destruct (lookup_lt_is_Some_2 invalid_tlb (length pages)) as [e He]; [done|].
  erewrite drop_S by exact He. rewrite insert_app_r_alt by (rewrite length_fmap; lia).
  rewrite length_fmap, Nat.sub_diag. cbn. rewrite fmap_app, <- app_assoc, length_app. cbn [length]. by rewrite Nat.add_1_r.
Qed.

Lemma space_checks x top : space_ok x top -> top <= 2 ^ 29 ->
  (negb (as_vbase1 x =? 0) && negb (as_pbase1 x =? 0) && negb (as_npages1 x =? 0) = true) /\
  (negb (as_vbase2 x =? 0) && negb (as_pbase2 x =? 0) && negb (as_npages2 x =? 0) = true) /\
  negb (as_stackpbase x =? 0) = true /\
  (aligned (as_vbase1 x) && aligned (as_pbase1 x) && aligned (as_vbase2 x) && aligned (as_pbase2 x) && aligned (as_stackpbase x)) = true.
Proof.
  intros [(?&Ha1&?&?) (?&Ha2&?&?) (?&Ha3&?) (?&Ha4&?) (?&Ha5&?)] Htop.
  change USERSTACK with (2 ^ 31) in *. change (DUMBVM_STACKPAGES * PAGE_SIZE) with 73728 in *.
  assert (Hnz : forall z, 0 < z -> negb (z =? 0) = true) by (clear; intros z Hz; by rewrite (proj2 (Z.eqb_neq _ _)) by lia).
  assert (Hal : forall z, 0 < z -> z < 2 ^ 32 -> z mod PAGE_SIZE = 0 -> aligned z = true).
  { clear. intros z H1 H2 H3. rewrite aligned_eq, H3 by lia. done. }
  rewrite !Hnz by done. rewrite !Hal; try done; clear Ha1 Ha2 Ha3 Ha4 Ha5; unfold PAGE_SIZE in *; lia.
Qed.

(** [vm_fault] at an address that is not in the TLB. *)
Lemma vm_fault_eq s p x top ft va pages :
  aspaces s !! p = Some x -> p <> 0 -> space_ok x top -> top <= 2 ^ 29 -> 0 <= va < 2 ^ 32 -> ft = VM_FAULT_READ \/ ft = VM_FAULT_WRITE ->
  tlb s = tlb_of x pages -> (length pages <= NUM_TLB)%nat ->
  vm_fault true p ft va s =
    match translate x va with
    | Some _ => if bool_decide (length pages < NUM_TLB)%nat then Done (0, set_tlb (tlb_of x (pages ++ [page va])) s) else Done (EFAULT, s)
    | None => Done (EFAULT, s)
    end.
Proof.
  intros Hx Hp Hok Htop Hva Hft Htlb Hlen. unfold vm_fault, kassert, get_as. rewrite land_frame by done.
  rewrite (proj2 (Z.eqb_neq p 0)) by done.
  replace (ft =? VM_FAULT_READONLY) with false by (destruct Hft as [-> | ->]; done).
  replace ((ft =? VM_FAULT_READ) || (ft =? VM_FAULT_WRITE)) with true by (destruct Hft as [-> | ->]; done). cbn [negb]. krun. rewrite Hx. krun.
  destruct (space_checks x top Hok Htop) as (->&->&->&->). krun.
  destruct (fault_paddr_eq x top va Hok Htop) as (Hf&Hpa). destruct (translate x va) as [pa|]; rewrite Hf; cbn [fmap option_fmap option_map]; [|done].
  destruct (Hpa pa eq_refl) as (Hal&Hr). pose proof (Z.mod_pos_bound va PAGE_SIZE ltac:(done)) as Hm.
  rewrite aligned_eq by (clear -Hr Htop Hm; lia). rewrite Hal. krun. rewrite Htlb, tlb_of_free by done.
  case_bool_decide as Hlt; krun; [|done]. do 3 f_equal.
  rewrite <- tlb_of_insert by done. unfold page_entry. rewrite Hf. done.
Qed.

Definition tlb_good (x : addrspace) (pages : list Z) (s : vm) : Prop :=
  tlb s = tlb_of x pages /\ (length pages <= NUM_TLB)%nat /\ Forall (good_page x) pages.

Lemma user_access_eq s p x top ft va pages :
  aspaces s !! p = Some x -> p <> 0 -> space_ok x top -> top <= 2 ^ 29 -> 0 <= va < 2 ^ 32 -> ft = VM_FAULT_READ \/ ft = VM_FAULT_WRITE ->
  tlb_good x pages s ->
  let '(pages', r) := abs_access x pages va in
  exists l, user_access p ft va s = Done (r, set_tlb l s) /\ tlb_good x pages' (set_tlb l s).
Proof.
  intros Hx Hp Hok Htop Hva Hft (Htlb&Hlen&Hall). unfold user_access. krun. rewrite Htlb, (tlb_of_lookup x top) by done.
  assert (Hsame : set_tlb (tlb s) s = s) by (by destruct s).
  assert (Hkeep : tlb_good x pages (set_tlb (tlb s) s)) by done.
  unfold abs_access. pose proof (vm_fault_eq s p x top ft va pages Hx Hp Hok Htop Hva Hft Htlb Hlen) as Hf.
  pose proof (translate_page x top va Hok Htop) as Htp.
  destruct (decide (page va ∈ pages)) as [Hin|Hin]; [rewrite (bool_decide_true (page va ∈ pages)) by done|rewrite (bool_decide_false (page va ∈ pages)) by done];
    destruct (translate x va) as [pa|] eqn:Ht; krun.
  - exists (tlb s). by rewrite Hsame.
  - rewrite Hf. krun. exists (tlb s). by rewrite Hsame.
  - rewrite Hf. case_bool_decide as Hlt; krun; [|exists (tlb s); by rewrite Hsame].
    cbn [tlb set_tlb]. assert (Hall' : Forall (good_page x) (pages ++ [page va])).
    { apply Forall_app. split; [done|]. constructor; [|constructor]. split; [|split; [apply page_idemp|by rewrite Htp]].
      rewrite page_eq. pose proof (Z.mod_pos_bound va PAGE_SIZE ltac:(done)). pose proof (Z.mod_le va PAGE_SIZE). unfold PAGE_SIZE in *. lia. }
    rewrite (tlb_of_lookup x top) by done. rewrite bool_decide_true, Ht by set_solver. krun.
    eexists. split; [done|]. split; [done|]. split; [rewrite length_app; cbn; lia|done].
  - rewrite Hf. krun. exists (tlb s). by rewrite Hsame.
Qed.

Lemma user_accesses_eq s p x top l pages :
  aspaces s !! p = Some x -> p <> 0 -> space_ok x top -> top <= 2 ^ 29 ->
  Forall (fun a => (fst a = VM_FAULT_READ \/ fst a = VM_FAULT_WRITE) /\ 0 <= snd a < 2 ^ 32) l -> tlb_good x pages s ->
  let '(pages', rs) := abs_accesses x pages l in
  exists l', user_accesses p l s = Done (rs, set_tlb l' s) /\ tlb_good x pages' (set_tlb l' s).
Proof.
  intros Hx Hp Hok Htop Hall. revert s pages Hx. induction Hall as [|[ft va] l (Hft&Hva) _ IH]; intros s pages Hx Hg; cbn [abs_accesses user_accesses]; krun.
  - exists (tlb s). by destruct s.
  - pose proof (user_access_eq s p x top ft va pages Hx Hp Hok Htop Hva Hft Hg) as Ha.
    destruct (abs_access x pages va) as [pages1 r]. destruct Ha as (l1&->&Hg1). krun.
    pose proof (IH (set_tlb l1 s) pages1 Hx Hg1) as Hrest. destruct (abs_accesses x pages1 l) as [pages2 rs].
    destruct Hrest as (l2&->&Hg2). krun. by exists l2.
Qed.

(** ** Copying an address space *)

(** What the process sees at an address. *)
Definition user_byte (s : vm) (x : addrspace) (va : Z) : option Z := phys s <$> translate x va.

(** Free memory: page by page from [firstpaddr] to [lastpaddr]. *)
Definition vm_ok (s : vm) : Prop :=
  0 < firstpaddr s /\ firstpaddr s mod PAGE_SIZE = 0 /\ firstpaddr s <= lastpaddr s <= 2 ^ 29.

Lemma stealmem_eq n s : vm_ok s -> 0 < n < 2 ^ 19 ->
  ram_stealmem n s = if bool_decide (firstpaddr s + n * PAGE_SIZE <= lastpaddr s)
    then Done (firstpaddr s, set_first (firstpaddr s + n * PAGE_SIZE) s) else Done (0, s).
Proof.
  intros (Hf&_&Hl) Hn. unfold ram_stealmem. change PAGE_SIZE with 4096. rewrite (u32_small (n * 4096)), u32_small by lia.
  rewrite Z.gtb_ltb. case_bool_decide; [rewrite (proj2 (Z.ltb_ge _ _)) by lia|rewrite (proj2 (Z.ltb_lt _ _)) by lia]; done.
Qed.

Lemma vm_ok_steal n s : vm_ok s -> 0 < n -> firstpaddr s + n * PAGE_SIZE <= lastpaddr s -> vm_ok (set_first (firstpaddr s + n * PAGE_SIZE) s).
Proof.
  intros (Hf&Hm&Hl) Hn Hle. repeat split; cbn; [change PAGE_SIZE with 4096 in *; lia|by rewrite Z.mod_add|lia|lia].
Qed.

Definition total_pages (x : addrspace) : Z := as_npages1 x + as_npages2 x + DUMBVM_STACKPAGES.
(** An address space with its regions and its frames from [f] on. *)
Definition placed (x : addrspace) (f : Z) : addrspace :=
  mkAs (as_vbase1 x) f (as_npages1 x) (as_vbase2 x) (f + as_npages1 x * PAGE_SIZE) (as_npages2 x) (f + as_npages1 x * PAGE_SIZE + as_npages2 x * PAGE_SIZE).

Lemma get_as_eq s p x : aspaces s !! p = Some x -> get_as p s = Done (x, s).
Proof. intros H. unfold get_as. by rewrite H. Qed.

Lemma prepare_load_eq s p x :
  vm_ok s -> aspaces s !! p = Some x -> as_pbase1 x = 0 -> as_pbase2 x = 0 -> as_stackpbase x = 0 ->
  0 < as_npages1 x < 2 ^ 19 -> 0 < as_npages2 x < 2 ^ 19 ->
  exists r s', as_prepare_load p s = Done (r, s') /\ vm_ok s' /\ tlb s' = tlb s /\ as_next s' = as_next s /\ vm_mem s' = vm_mem s /\
    (forall a, a < firstpaddr s -> phys s' a = phys s a) /\
    if bool_decide (firstpaddr s + total_pages x * PAGE_SIZE <= lastpaddr s)
    then r = 0 /\ aspaces s' = <[p := placed x (firstpaddr s)]> (aspaces s) /\ firstpaddr s' = firstpaddr s + total_pages x * PAGE_SIZE /\
      forall a, firstpaddr s <= a < firstpaddr s' -> phys s' a = 0
    else r = ENOMEM /\ exists y, aspaces s' = <[p := y]> (aspaces s).
Proof.
  intros Hok Hx H1 H2 H3 Hn1 Hn2. unfold total_pages. set (f := firstpaddr s).
  pose proof Hok as (Hf&_&_). fold f in Hf.
  unfold as_prepare_load, kassert, getppages. krun. erewrite get_as_eq by exact Hx. krun. rewrite H1, H2, H3. krun.
  rewrite stealmem_eq by done. fold f. case_bool_decide as E1; krun; cycle 1.
  { erewrite get_as_eq by exact Hx. krun. unfold put_as. krun. eexists ENOMEM, _. split; [done|]. split; [done|]. do 4 (split; [done|]).
    rewrite bool_decide_false by plia. split; [done|]. eexists; done. }
  pose proof (vm_ok_steal (as_npages1 x) s Hok ltac:(plia) E1) as Hok1. fold f in Hok1.
  erewrite get_as_eq by exact Hx. krun. unfold put_as at 1. krun. rewrite (proj2 (Z.eqb_neq f 0)) by plia. krun.
  rewrite stealmem_eq by done. cbn [firstpaddr lastpaddr set_first set_aspaces]. case_bool_decide as E2; krun; cycle 1.
  { erewrite get_as_eq by (cbn; by rewrite lookup_insert_eq). krun. unfold put_as. krun. eexists ENOMEM, _. split; [done|]. split; [done|].
    do 4 (split; [done|]). rewrite bool_decide_false by plia. split; [done|]. eexists. cbn. by rewrite insert_insert_eq. }
  pose proof (vm_ok_steal (as_npages2 x) (set_first (f + as_npages1 x * PAGE_SIZE) s) Hok1 ltac:(plia) E2) as Hok2. cbn [firstpaddr set_first] in Hok2.
  erewrite get_as_eq by (cbn; by rewrite lookup_insert_eq). krun. unfold put_as at 1. krun.
  rewrite (proj2 (Z.eqb_neq (f + _) 0)) by plia. krun. cbn [aspaces set_aspaces set_first]. rewrite insert_insert_eq.
  rewrite stealmem_eq by (done || plia). cbn [firstpaddr lastpaddr set_first set_aspaces]. case_bool_decide as E3; krun; cycle 1.
  { erewrite get_as_eq by (cbn; by rewrite lookup_insert_eq). krun. unfold put_as. krun. eexists ENOMEM, _. split; [done|]. split; [done|].
    do 4 (split; [done|]). rewrite bool_decide_false by plia. split; [done|]. eexists. cbn. by rewrite insert_insert_eq. }
  pose proof (vm_ok_steal DUMBVM_STACKPAGES (set_first (f + as_npages1 x * PAGE_SIZE + as_npages2 x * PAGE_SIZE) s) Hok2 ltac:(plia) E3) as Hok3.
  cbn [firstpaddr set_first] in Hok3.
  erewrite get_as_eq by (cbn; by rewrite lookup_insert_eq). krun. unfold put_as at 1. krun.
  rewrite (proj2 (Z.eqb_neq (f + _ + _) 0)) by plia. krun. cbn [aspaces set_aspaces set_first]. rewrite insert_insert_eq.
  erewrite get_as_eq by (cbn; by rewrite lookup_insert_eq). krun. unfold as_zero_region. krun.
  eexists 0, _. split; [done|]. split; [exact Hok3|]. do 3 (split; [done|]).
  rewrite bool_decide_true by plia. split; [|split; [done|]; split; [done|]; split; [cbn; plia|]].
  { intros a Ha. cbn. repeat match goal with |- context [?b <=? a] => rewrite (proj2 (Z.leb_gt b a)) by plia end. done. }
  clear Hok Hok1 Hok2 Hok3 Hx. intros a Ha. cbn in Ha |- *. rewrite !u32_small by plia.
  repeat match goal with |- context [?b <=? a] => destruct (Z.leb_spec b a) | |- context [a <? ?b] => destruct (Z.ltb_spec a b) end; cbn; done || plia.
Qed.

(** Reading a frame that has been copied, and one that has not. *)
Definition copied (dst src len : Z) (g : Z -> Z) : Z -> Z := fun a => if (dst <=? a) && (a <? dst + len) then g (a - dst + src) else g a.

Lemma copied_in dst src len g a : dst <= a < dst + len -> copied dst src len g a = g (a - dst + src).
Proof. intros Ha. unfold copied. rewrite (proj2 (Z.leb_le _ _)), (proj2 (Z.ltb_lt _ _)) by lia. done. Qed.
Lemma copied_out dst src len g a : a < dst \/ dst + len <= a -> copied dst src len g a = g a.
Proof.
  intros [Ha|Ha]; unfold copied; [rewrite (proj2 (Z.leb_gt _ _)) by lia|rewrite (proj2 (Z.ltb_ge _ _)), andb_false_r by lia]; done.
Qed.

Lemma copies_eq o f g va :
  space_ok o f ->
  let g' := copied (f + as_npages1 o * PAGE_SIZE + as_npages2 o * PAGE_SIZE) (as_stackpbase o) (DUMBVM_STACKPAGES * PAGE_SIZE)
    (copied (f + as_npages1 o * PAGE_SIZE) (as_pbase2 o) (as_npages2 o * PAGE_SIZE)
    (copied f (as_pbase1 o) (as_npages1 o * PAGE_SIZE) g)) in
  g' <$> translate (placed o f) va = g <$> translate o va.
Proof.
  intros [(?&_&?&?) (?&_&?&?) (?&_&?) (?&_&?) (?&_&?)] g'. unfold translate. cbn [placed as_vbase1 as_pbase1 as_npages1 as_vbase2 as_pbase2 as_npages2 as_stackpbase].
  set (N1 := as_npages1 o * PAGE_SIZE) in *. set (N2 := as_npages2 o * PAGE_SIZE) in *.
  set (N3 := DUMBVM_STACKPAGES * PAGE_SIZE) in *. assert (0 < N1) by (unfold N1; plia). assert (0 < N2) by (unfold N2; plia). clearbody N1 N2.
  assert (HN3 : 0 < N3) by done. set (sb := USERSTACK - N3). replace USERSTACK with (sb + N3) by done. clearbody N3 sb.
  destruct ((as_vbase1 o <=? va) && _) eqn:E1; [|destruct ((as_vbase2 o <=? va) && _) eqn:E2; [|
    destruct ((sb <=? va) && _) eqn:E3; [|done]]]; cbn; f_equal; subst g'.
  - apply in_range in E1. rewrite !copied_out by lia. rewrite copied_in by lia. f_equal. lia.
  - apply in_range in E2. rewrite (copied_out (f + N1 + N2)) by lia. rewrite copied_in by lia. rewrite copied_out by lia. f_equal. lia.
  - apply in_range in E3. rewrite copied_in by lia. rewrite !copied_out by lia. f_equal. lia.
Qed.

Lemma placed_ok o f top : space_ok o f -> 0 < f -> f mod PAGE_SIZE = 0 -> f + total_pages o * PAGE_SIZE <= top -> space_ok (placed o f) top.
Proof.
  intros [Hv1 Hv2 Hp1 Hp2 Hst] Hf Hm Ht. unfold total_pages in Ht.
  assert (0 < as_npages1 o /\ 0 < as_npages2 o) as (?&?) by tauto. clear Hp1 Hp2 Hst.
  constructor; cbn; [done|done|..]; rewrite ?Z.mod_add by done; (split; [clear Hv1 Hv2 Hm; plia|]); split; (done || clear Hv1 Hv2 Hm; plia).
Qed.

Lemma translate_placed_range o f top va pa : space_ok (placed o f) top -> translate (placed o f) va = Some pa -> f <= pa.
Proof.
  intros [(?&_&?&?) (?&_&?&?) _ _ _] Ht. cbn [placed as_npages1 as_npages2] in *. unfold translate in Ht. cbn [placed as_vbase1 as_pbase1 as_npages1 as_vbase2 as_pbase2 as_npages2 as_stackpbase] in Ht.
  destruct ((as_vbase1 o <=? va) && _) eqn:E1; [|destruct ((as_vbase2 o <=? va) && _) eqn:E2; [|
    destruct ((USERSTACK - _ <=? va) && _) eqn:E3; [|done]]]; injection Ht as <-.
  - apply in_range in E1. lia.
  - apply in_range in E2. plia.
  - change (USERSTACK) with (USERSTACK - DUMBVM_STACKPAGES * PAGE_SIZE + DUMBVM_STACKPAGES * PAGE_SIZE) in E3 at 2. apply in_range in E3. plia.
Qed.

Lemma as_copy_eq s old o :
  vm_ok s -> aspaces s !! old = Some o -> space_ok o (firstpaddr s) -> aspaces s !! as_next s = None -> 0 < as_next s ->
  exists r new s', as_copy old s = Done ((r, new), s') /\ vm_ok s' /\ tlb s' = tlb s /\
    (forall a, a < firstpaddr s -> phys s' a = phys s a) /\
    if fst (kalloc (vm_mem s)) && bool_decide (firstpaddr s + total_pages o * PAGE_SIZE <= lastpaddr s)
    then r = 0 /\ new = as_next s /\ aspaces s' = <[new := placed o (firstpaddr s)]> (aspaces s) /\
      firstpaddr s' = firstpaddr s + total_pages o * PAGE_SIZE /\
      forall va, user_byte s' (placed o (firstpaddr s)) va = user_byte s o va
    else r = ENOMEM /\ new = 0 /\ aspaces s' = aspaces s.
Proof.
  intros Hok Ho Hsp Hfresh Hnext. unfold as_copy, as_create. krun. destruct (kalloc (vm_mem s)) as [[] mem]; cbn [fst andb]; krun; cycle 1.
  { eexists ENOMEM, 0, _. done. }
  rewrite (proj2 (Z.eqb_neq _ _)) by lia.
  assert (Hne : old <> as_next s) by congruence. krun.
  erewrite get_as_eq by (cbn; rewrite lookup_insert_ne by done; exact Ho). krun.
  erewrite get_as_eq by (cbn; by rewrite lookup_insert_eq). krun. unfold put_as at 1. krun.
  set (x1 := with_region2 _ _ _). set (s1 := set_aspaces _ _).
  assert (Hbounds : 0 < as_npages1 o < 2 ^ 19 /\ 0 < as_npages2 o < 2 ^ 19).
  { destruct Hsp as [(?&_&?&?) (?&_&?&?) _ _ _]. change USERSTACK with (2 ^ 31) in *. plia. }
  destruct (prepare_load_eq s1 (as_next s) x1) as (r&s2&->&Hok2&Htlb2&_&_&Hph2&Hres); [done|cbn; by rewrite lookup_insert_eq|done..|tauto|tauto|].
  krun. change (total_pages x1) with (total_pages o) in Hres. change (firstpaddr s1) with (firstpaddr s) in *. change (lastpaddr s1) with (lastpaddr s) in *.
  cbn [aspaces s1 set_aspaces] in Hres. rewrite !insert_insert_eq in Hres.
  case_bool_decide as Hen; cycle 1.
  { destruct Hres as (->&y&Has). krun. unfold as_destroy. rewrite (proj2 (Z.eqb_neq (as_next s) 0)) by lia. change (negb (ENOMEM =? 0)) with true. krun.
    erewrite get_as_eq by (rewrite Has; unfold set_aspaces; cbn; by rewrite insert_insert_eq, lookup_insert_eq). krun. eexists ENOMEM, 0, _. split; [done|]. split; [done|]. do 2 (split; [done|]).
    split; [done|]. split; [done|]. cbn. unfold set_aspaces in Has. cbn in Has. rewrite Has. by rewrite insert_insert_eq, delete_insert_id by done. }
  destruct Hres as (->&Has&Hf2&_). krun.
  erewrite get_as_eq by (rewrite Has; by rewrite lookup_insert_eq). krun. change (placed x1 (firstpaddr s)) with (placed o (firstpaddr s)) in *.
  unfold kassert. pose proof Hok as (Hfp&Hfm&_). cbn [placed as_pbase1 as_pbase2 as_stackpbase].
  rewrite !(proj2 (Z.eqb_neq _ _)) by (destruct Hbounds; plia). krun.
  rewrite (u32_small (as_npages1 o * PAGE_SIZE)), (u32_small (as_npages2 o * PAGE_SIZE)) by (destruct Hbounds; plia).
  unfold copy_phys. krun. eexists 0, _, _. split; [done|]. split; [done|]. split; [done|]. cbn [phys set_phys].
  split.
  { intros a Ha. fold (copied (firstpaddr s) (as_pbase1 o) (as_npages1 o * PAGE_SIZE) (phys s2)).
    repeat match goal with |- context [?b <=? a] => rewrite (proj2 (Z.leb_gt b a)) by (destruct Hbounds; plia) end. cbn. by rewrite Hph2. }
  split; [done|]. split; [done|]. split; [done|]. split; [done|].
  intros va. unfold user_byte. cbn [phys set_phys].
  etransitivity; [exact (copies_eq o (firstpaddr s) (phys s2) va Hsp)|].
  destruct (translate o va) as [pa|] eqn:Et; [|done]. cbn. f_equal. rewrite Hph2; [done|].
  destruct (fault_paddr_eq o (firstpaddr s) va Hsp) as (_&Hr); [destruct Hok; lia|]. apply Hr in Et. tauto.
Qed.

(** The frames of a space are below the memory that is free. *)
Lemma translate_below s x va pa : vm_ok s -> space_ok x (firstpaddr s) -> translate x va = Some pa -> pa < firstpaddr s.
Proof. intros Hok Hx Ht. destruct (fault_paddr_eq x (firstpaddr s) va Hx) as (_&Hr); [destruct Hok; lia|]. apply Hr in Ht. tauto. Qed.

Lemma user_byte_below s s' x va :
  vm_ok s -> (forall a, a < firstpaddr s -> phys s' a = phys s a) -> space_ok x (firstpaddr s) -> user_byte s' x va = user_byte s x va.
Proof.
  intros Hok Hph Hx. unfold user_byte. destruct (translate x va) as [pa|] eqn:E; [|done]. cbn. f_equal. apply Hph. by eapply translate_below.
Qed.

(** C12. A copied address space is a separate one with the same contents: if there is
    memory, [as_copy] returns a new space in which every user address holds the byte it
    holds in the old one (or is not mapped in either), both of them have all their frames
    in memory that has been handed out, no byte below what was free is changed, and no
    address of the new space shares a byte with an address of the old one or of any space
    that existed; if there is none it returns ENOMEM and no space has changed. *)
Theorem as_copy_separate s old o :
  vm_ok s -> aspaces s !! old = Some o -> space_ok o (firstpaddr s) -> aspaces s !! as_next s = None -> 0 < as_next s ->
  exists r new s', as_copy old s = Done ((r, new), s') /\ vm_ok s' /\
    (forall x va, space_ok x (firstpaddr s) -> user_byte s' x va = user_byte s x va) /\
    if fst (kalloc (vm_mem s)) && bool_decide (firstpaddr s + total_pages o * PAGE_SIZE <= lastpaddr s)
    then r = 0 /\ exists n, aspaces s' = <[new := n]> (aspaces s) /\ new = as_next s /\ space_ok n (firstpaddr s') /\
      (forall va, user_byte s' n va = user_byte s o va) /\
      forall x va1 va2 pa1 pa2, space_ok x (firstpaddr s) -> translate x va1 = Some pa1 -> translate n va2 = Some pa2 -> pa1 <> pa2
    else r = ENOMEM /\ aspaces s' = aspaces s.
Proof.
  intros Hok Ho Hsp Hfresh Hnext. destruct (as_copy_eq s old o Hok Ho Hsp Hfresh Hnext) as (r&new&s'&Hrun&Hok'&_&Hph&Hres).
  exists r, new, s'. split; [done|]. split; [done|]. split.
  { intros x va Hx. by apply user_byte_below. }
  destruct (fst (kalloc (vm_mem s)) && _) as []; [|tauto]. destruct Hres as (->&->&Has&Hf&Hv).
  split; [done|]. eexists. split; [exact Has|]. split; [done|].
  assert (Hpl : space_ok (placed o (firstpaddr s)) (firstpaddr s')) by (apply placed_ok; [done|apply Hok..|lia]).
  split; [done|]. split; [done|]. intros x va1 va2 pa1 pa2 Hx H1 H2. apply (translate_below s x) in H1; [|done..].
  apply (translate_placed_range o _ _ _ _ Hpl) in H2. lia.
Qed.

(** C13. The TLB is a faithful cache: after [as_activate], whatever user addresses a
    process reads and writes, each access reaches the byte that [translate] names, through
    an entry that was there or one that [vm_fault] puts in; an access outside the regions
    and the stack ends in EFAULT, and so does one to a sixty-fifth page; [vm_fault] never
    panics and the TLB never holds a page twice. *)
Theorem tlb_refines s p x top l :
  aspaces s !! p = Some x -> p <> 0 -> space_ok x top -> top <= 2 ^ 29 ->
  Forall (fun a => (fst a = VM_FAULT_READ \/ fst a = VM_FAULT_WRITE) /\ 0 <= snd a < 2 ^ 32) l ->
  exists s', (as_activate p;; user_accesses p l) s = Done (snd (abs_accesses x [] l), s') /\
    aspaces s' = aspaces s /\ (forall a, phys s' a = phys s a) /\
    forall va, 0 <= va < 2 ^ 32 ->
      tlb_lookup (tlb s') va = if bool_decide (page va ∈ fst (abs_accesses x [] l)) then translate x va else None.
Proof.
  intros Hx Hp Hok Htop Hall. unfold as_activate. rewrite (proj2 (Z.eqb_neq p 0)) by done. krun.
  pose proof (user_accesses_eq (set_tlb invalid_tlb s) p x top l [] Hx Hp Hok Htop Hall) as H.
  destruct (abs_accesses x [] l) as [pages rs]. cbn [fst snd].
  destruct H as (l'&->&Htlb&Hlen&Hgood); [split; [done|]; split; [cbn; lia|constructor]|].
  eexists. split; [done|]. split; [done|]. split; [done|]. intros va Hva. rewrite Htlb. by eapply tlb_of_lookup.
Qed.

(** ** A small memory *)
Definition small_space : addrspace := mkAs 4194304 65536 1 268435456 69632 1 73728.
Definition small_vm : vm := mkVm 147456 524288 (fun a => a mod 256) [] {[100 := small_space]} 200 [].

Lemma small_space_ok : space_ok small_space 147456.
Proof. constructor; cbn; repeat split; done || lia. Qed.
Lemma small_vm_ok : vm_ok small_vm.
Proof. repeat split; done || (cbn; lia). Qed.

Lemma as_copy_separate_witness :
  exists r new s', as_copy 100 small_vm = Done ((r, new), s') /\ vm_ok s' /\
    (forall x va, space_ok x (firstpaddr small_vm) -> user_byte s' x va = user_byte small_vm x va) /\
    if fst (kalloc (vm_mem small_vm)) && bool_decide (firstpaddr small_vm + total_pages small_space * PAGE_SIZE <= lastpaddr small_vm)
    then r = 0 /\ exists n, aspaces s' = <[new := n]> (aspaces small_vm) /\ new = as_next small_vm /\ space_ok n (firstpaddr s') /\
      (forall va, user_byte s' n va = user_byte small_vm small_space va) /\
      forall x va1 va2 pa1 pa2, space_ok x (firstpaddr small_vm) -> translate x va1 = Some pa1 -> translate n va2 = Some pa2 -> pa1 <> pa2
    else r = ENOMEM /\ aspaces s' = aspaces small_vm.
Proof.
  apply (as_copy_separate small_vm 100 small_space); [exact small_vm_ok|reflexivity|exact small_space_ok|reflexivity|reflexivity].
Defined.

Lemma tlb_refines_witness :
  exists s', (as_activate 100;; user_accesses 100 [(0, 4194310); (1, 4194311); (0, 5)]) small_vm = Done ([Ok 65542; Ok 65543; Err EFAULT], s') /\
    aspaces s' = aspaces small_vm /\ (forall a, phys s' a = phys small_vm a) /\
    forall va, 0 <= va < 2 ^ 32 ->
      tlb_lookup (tlb s') va = if bool_decide (page va ∈ fst (abs_accesses small_space [] [(0, 4194310); (1, 4194311); (0, 5)])) then translate small_space va else None.
Proof.
  apply (tlb_refines small_vm 100 small_space 147456); [reflexivity|done|exact small_space_ok|lia|].
  repeat constructor; cbn; tauto || lia.
Defined.
