(* ===== verification/Proc.v ===== *)
(** * proc/proc.c and proc/proctable.c: processes and the process table

    Process structures are objects known by the keys that stand for their addresses; 0
    is a null pointer.  What a process has in other parts of the kernel is kept there:
    [p_cwd] in Vfs, [proc_ft] in FileTable, its address space in Dumbvm.  The current
    thread and process are those of the file layer's state; [self] is the processor,
    which matters for the table's spinlock alone ([p_lock] is the atomicity of its
    critical sections).  Names are not kept. *)

From S2P Require Import Prelude Synch Cstring CopyInOut Uio LinkedList Vop Vfs FileTable Dumbvm.

Definition PID_MAX : Z := 32767.

Record proc := mkProc {
  p_pid : Z; p_ppid : Z; p_numthreads : Z; p_addrspace : Z; p_children_ll : Linked_List;
  exited : bool; exitcode : Z; parent_proc : Z; p_exit_sem : option semaphore }.

(** The arrays have an entry where the pointer is not null. *)
Record proctable := mkPt {
  pt_procs : gmap Z Z; exit_locks : gmap Z lock; exit_cvs : gmap Z cv; pt_lock : option nat; active_procs : Z }.

(** [k_nodes] are the nodes of the lists of children, [k_ints] the integers their data
    point to. *)
Record kern (S : Type) := mkKern {
  k_files : files S; k_vm : vm; k_procs : gmap Z proc; proc_table : option proctable; kproc : Z; k_next : Z;
  k_nodes : gmap Z Linked_List_Node; k_ints : gmap Z Z }.
Arguments mkKern {S}. Arguments k_files {S}. Arguments k_vm {S}. Arguments k_procs {S}. Arguments proc_table {S}.
Arguments kproc {S}. Arguments k_next {S}. Arguments k_nodes {S}. Arguments k_ints {S}.

Section Proc.
Context {S : Type} `{!Vops S}.
Implicit Types k : kern S.
Abbreviation M := (K (kern S)).

Definition set_files (f : files S) k : kern S := mkKern f (k_vm k) (k_procs k) (proc_table k) (kproc k) (k_next k) (k_nodes k) (k_ints k).
Definition set_vm (v : vm) k : kern S := mkKern (k_files k) v (k_procs k) (proc_table k) (kproc k) (k_next k) (k_nodes k) (k_ints k).
Definition set_procs (m : gmap Z proc) k : kern S := mkKern (k_files k) (k_vm k) m (proc_table k) (kproc k) (k_next k) (k_nodes k) (k_ints k).
Definition set_table (t : option proctable) k : kern S := mkKern (k_files k) (k_vm k) (k_procs k) t (kproc k) (k_next k) (k_nodes k) (k_ints k).
Definition set_kproc (p : Z) k : kern S := mkKern (k_files k) (k_vm k) (k_procs k) (proc_table k) p (k_next k) (k_nodes k) (k_ints k).
Definition set_nodes (h : gmap Z Linked_List_Node) k : kern S := mkKern (k_files k) (k_vm k) (k_procs k) (proc_table k) (kproc k) (k_next k) h (k_ints k).
Definition fresh_proc k : kern S := mkKern (k_files k) (k_vm k) (k_procs k) (proc_table k) (kproc k) (k_next k + 1) (k_nodes k) (k_ints k).

Definition set_cwds (m : gmap Z Z) (v : vfs S) : vfs S :=
  mkVfs (v_s v) (Vfs.curthread v) (Vfs.curproc v) m (bootfs_vnode v) (knowndevs v) (devnumbers v) (vfs_biglock v) (vfs_biglock_depth v) (v_mem v).
Definition set_current (thread process : Z) (v : vfs S) : vfs S :=
  mkVfs (v_s v) thread process (p_cwd v) (bootfs_vnode v) (knowndevs v) (devnumbers v) (vfs_biglock v) (vfs_biglock_depth v) (v_mem v).

Definition fcall {A} (m : K (files S) A) : M A := zoom k_files set_files m.
Definition vmcall {A} (m : K vm A) : M A := zoom k_vm set_vm m.
(** A call of the VFS layer, and a creation that asks for memory. *)
Definition fvcall {A} (m : K (vfs S) A) : M A := fcall (vcall m).
Definition with_mem {A} (f : list bool -> A * list bool) : M A :=
  fvcall (fun v => let '(a, mem) := f (v_mem v) in Done (a, set_mem mem v)).

Definition curproc : M Z := gets (fun k => Vfs.curproc (f_vfs (k_files k))).
Definition curthread : M Z := gets (fun k => Vfs.curthread (f_vfs (k_files k))).

Definition get_proc (p : Z) : M proc := fun k => x ← deref (k_procs k !! p); Done (x, k).
Definition put_proc (p : Z) (x : proc) : M unit := modify (fun k => set_procs (<[p := x]> (k_procs k)) k).
Definition get_pt : M proctable := fun k => t ← deref (proc_table k); Done (t, k).
Definition put_pt (t : proctable) : M unit := modify (set_table (Some t)).

Definition with_ppid (n : Z) (x : proc) : proc := mkProc (p_pid x) n (p_numthreads x) (p_addrspace x) (p_children_ll x) (exited x) (exitcode x) (parent_proc x) (p_exit_sem x).
Definition with_numthreads (n : Z) (x : proc) : proc := mkProc (p_pid x) (p_ppid x) (u32 n) (p_addrspace x) (p_children_ll x) (exited x) (exitcode x) (parent_proc x) (p_exit_sem x).
Definition with_addrspace (a : Z) (x : proc) : proc := mkProc (p_pid x) (p_ppid x) (p_numthreads x) a (p_children_ll x) (exited x) (exitcode x) (parent_proc x) (p_exit_sem x).
Definition with_exitcode (n : Z) (x : proc) : proc := mkProc (p_pid x) (p_ppid x) (p_numthreads x) (p_addrspace x) (p_children_ll x) (exited x) n (parent_proc x) (p_exit_sem x).

Definition with_pt_procs (m : gmap Z Z) (n : Z) (t : proctable) : proctable := mkPt m (exit_locks t) (exit_cvs t) (pt_lock t) (s32 n).
Definition with_exit_lock (pid : Z) (lk : option lock) (t : proctable) : proctable :=
  mkPt (pt_procs t) (partial_alter (fun _ => lk) pid (exit_locks t)) (exit_cvs t) (pt_lock t) (active_procs t).
Definition with_exit_cv (pid : Z) (c : option cv) (t : proctable) : proctable :=
  mkPt (pt_procs t) (exit_locks t) (partial_alter (fun _ => c) pid (exit_cvs t)) (pt_lock t) (active_procs t).
Definition with_pt_lock (h : option nat) (t : proctable) : proctable :=
  mkPt (pt_procs t) (exit_locks t) (exit_cvs t) h (active_procs t).

(** ** proctable.c *)

(** [spinlock_acquire]: a processor that has it already panics, another one waits. *)
Definition pt_acquire (self : nat) : M unit :=
  t ← get_pt;
  match pt_lock t with
  | None => put_pt (with_pt_lock (Some self) t)
  | Some holder => lift (if bool_decide (holder = self) then Panic else Blocked)
  end.
Definition pt_release (self : nat) : M unit :=
  t ← get_pt;
  kassert (bool_decide (pt_lock t = Some self));;
  put_pt (with_pt_lock None t).

(** An index outside the arrays could do anything. *)
Definition in_table (pid : Z) : M unit := kassert ((0 <=? pid) && (pid <? PID_MAX)).

Definition create_proctable : M unit :=
  ok ← fvcall kmalloc;
  modify (set_table (if ok : bool then Some (mkPt ∅ ∅ ∅ None 0) else None));;
  kassert ok.

(** [curcpu->c_spinlocks].  The table's lock is the only spinlock that is held where memory
    is asked for; the kernel's process is made before there is a processor. *)
Definition spinlocks_held (self : nat) : M Z :=
  kernel ← gets kproc;
  if kernel =? 0 then mret 0 else
  table ← gets proc_table;
  mret (if bool_decide (table ≫= pt_lock = Some self) then 1 else 0).

(** A creation by a processor that may hold a spinlock.  [page] says whether [kmalloc] has no
    free block for it and takes a page from [alloc_kpages]; it has tried when it finds no
    memory. *)
Definition create_at {A} (self : nat) (page : bool) (f : list bool -> option A * list bool) : M (option A) :=
  a ← with_mem f;
  c_spinlocks ← spinlocks_held self;
  (if page || bool_decide (a = None) then vmcall (dumbvm_can_sleep c_spinlocks) else mret ());;
  mret a.

(** Whether the lock and the condition variable take a page. *)
Abbreviation pages_ := (bool * bool)%type (only parsing).
Definition no_pages : pages_ := (false, false).

Definition add_proc (self : nat) (pages : pages_) (new_proc pid : Z) : M unit :=
  get_pt;;
  pt_acquire self;;
  in_table pid;;
  t ← get_pt;
  put_pt (with_pt_procs (if new_proc =? 0 then delete pid (pt_procs t) else <[pid := new_proc]> (pt_procs t)) (active_procs t + 1) t);;
  lk ← create_at self (fst pages) lock_create;
  t ← get_pt;
  put_pt (with_exit_lock pid lk t);;
  c ← create_at self (snd pages) cv_create;
  t ← get_pt;
  put_pt (with_exit_cv pid c t);;
  pt_release self.

Definition remove_proc (self : nat) (pid : Z) : M unit :=
  pt_acquire self;;
  in_table pid;;
  t ← get_pt;
  kassert (bool_decide (is_Some (pt_procs t !! pid)));;
  put_pt (with_pt_procs (delete pid (pt_procs t)) (active_procs t - 1) t);;
  h ← curthread;
  lk ← lift (deref (exit_locks t !! pid));
  lift (lock_destroy h lk);;
  t ← get_pt;
  put_pt (with_exit_lock pid None t);;
  c ← lift (deref (exit_cvs t !! pid));
  lift (cv_destroy c);;
  t ← get_pt;
  put_pt (with_exit_cv pid None t);;
  pt_release self.

(** 0: there is none. *)
Definition find_process (self : nat) (pid : Z) : M Z :=
  pt_acquire self;;
  in_table pid;;
  t ← get_pt;
  pt_release self;;
  mret (default 0 (pt_procs t !! pid)).

(** The loop of [assign_pid] from [i] on, [n] rounds before PID_MAX. *)
Fixpoint assign_loop (n : nat) (i : Z) (m : gmap Z Z) : option Z :=
  match n with
  | O => None
  | Datatypes.S n => if bool_decide (m !! i = None) then Some i else assign_loop n (i + 1) m
  end.
Definition assign_pid (self : nat) : M Z :=
  pt_acquire self;;
  t ← get_pt;
  pt_release self;;
  mret (default (-1) (assign_loop (Z.to_nat (PID_MAX - 2)) 2 (pt_procs t))).

(** It returns before it gives the lock back. *)
Definition proc_count (self : nat) : M Z :=
  pt_acquire self;;
  t ← get_pt;
  mret (active_procs t).

(** ** proc.c *)

(** 0: no memory, or no process number. *)
Definition proc_create (self : nat) (pages : pages_) (name : list Z) : M Z :=
  ok ← fvcall kmalloc;
  if negb ok then mret 0 else
  p_name ← fvcall (dup name);
  if bool_decide (p_name = None) then mret 0 else
  pid ← assign_pid self;
  if pid =? -1 then mret 0 else
  children ← fvcall (fun v => '(l, mem) ← linked_list_create (v_mem v); Done (l, set_mem mem v));
  sem ← with_mem (fun mem => sem_create mem 0);
  ft ← fcall file_table_create;
  p ← gets k_next;
  modify fresh_proc;;
  put_proc p (mkProc pid (-1) 0 0 children false (-1) 0 sem);;
  modify (fun k => set_files (set_proc_ft (partial_alter (fun _ => ft) p (proc_ft (k_files k))) (k_files k)) k);;
  add_proc self pages p pid;;
  mret p.

Definition proc_getas : M Z := c ← curproc; if c =? 0 then mret 0 else x ← get_proc c; mret (p_addrspace x).
Definition proc_setas (newas : Z) : M Z :=
  c ← curproc;
  x ← get_proc c;
  put_proc c (with_addrspace newas x);;
  mret (p_addrspace x).

(** [linked_list_destroy] of the children; the list itself is not freed. *)
Definition destroy_children (l : Linked_List) : M unit :=
  h ← curthread;
  zoom (fun k => mkLL l (k_nodes k) []) (fun s => set_nodes (heap s)) (linked_list_destroy h).

(** The process structure is freed, and with it what points from it. *)
Definition free_proc (p : Z) : M unit :=
  modify (fun k => set_procs (delete p (k_procs k))
    (set_files (set_proc_ft (delete p (proc_ft (k_files k))) (k_files k)) k)).

Definition drop_cwd (p : Z) : M unit :=
  d ← gets (fun k => p_cwd (f_vfs (k_files k)) !! p);
  match d with
  | None => mret ()
  | Some v =>
    fvcall (decref v);;
    modify (fun k => let v := f_vfs (k_files k) in set_files (set_vfs (set_cwds (delete p (p_cwd v)) v) (k_files k)) k)
  end.

Definition drop_addrspace (p : Z) : M unit :=
  x ← get_proc p;
  if p_addrspace x =? 0 then mret () else
  c ← curproc;
  as_ ← (if p =? c then a ← proc_setas 0; vmcall as_deactivate;; mret a
         else put_proc p (with_addrspace 0 x);; mret (p_addrspace x));
  vmcall (as_destroy as_).

Definition proc_destroy (self : nat) (p : Z) : M unit :=
  kernel ← gets kproc;
  kassert (negb (p =? 0));;
  kassert (negb (p =? kernel));;
  drop_cwd p;;
  drop_addrspace p;;
  x ← get_proc p;
  remove_proc self (p_pid x);;
  (if parent_proc x =? 0 then mret () else free_proc (parent_proc x));;
  kassert (p_numthreads x =? 0);;
  sem ← lift (deref (p_exit_sem x));
  lift (sem_destroy sem);;
  destroy_children (p_children_ll x);;
  free_proc p.

Definition proc_bootstrap (self : nat) (pages : pages_) (name : list Z) : M unit :=
  create_proctable;;
  p ← proc_create self pages name;
  modify (set_kproc p);;
  kassert (negb (p =? 0)).

Definition proc_create_runprogram (self : nat) (pages : pages_) (name : list Z) : M Z :=
  newproc ← proc_create self pages name;
  if newproc =? 0 then mret 0 else
  c ← curproc;
  d ← gets (fun k => p_cwd (f_vfs (k_files k)) !! c);
  (match d with
   | Some v =>
     fvcall (incref v);;
     modify (fun k => let w := f_vfs (k_files k) in set_files (set_vfs (set_cwds (<[newproc := v]> (p_cwd w)) w) (k_files k)) k)
   | None => mret ()
   end);;
  mret newproc.

(** [destroy_proctable]'s loop, from slot [i] on. *)
Fixpoint destroy_slots (self : nat) (n : nat) (i : Z) : M unit :=
  match n with
  | O => mret ()
  | Datatypes.S n =>
    t ← get_pt;
    (match pt_procs t !! i with
     | None => mret ()
     | Some p =>
       proc_destroy self p;;
       h ← curthread;
       t ← get_pt;
       lk ← lift (deref (exit_locks t !! i));
       lift (lock_destroy h lk);;
       c ← lift (deref (exit_cvs t !! i));
       lift (cv_destroy c);;
       t ← get_pt;
       put_pt (with_exit_cv i None (with_exit_lock i None (mkPt (delete i (pt_procs t)) (exit_locks t) (exit_cvs t) (pt_lock t) (active_procs t))))
     end);;
    destroy_slots self n (i + 1)
  end.
Definition destroy_proctable (self : nat) : M unit :=
  pt_acquire self;;
  destroy_slots self (Z.to_nat PID_MAX) 0;;
  pt_release self;;
  modify (set_table None).

(** The process's side of [proc_addthread] and [proc_remthread]. *)
Definition count_thread (p : Z) : M Z :=
  x ← get_proc p;
  put_proc p (with_numthreads (p_numthreads x + 1) x);;
  mret 0.
Definition uncount_thread (self : nat) (p : Z) : M unit :=
  x ← get_proc p;
  kassert (p_numthreads x >? 0);;
  put_proc p (with_numthreads (p_numthreads x - 1) x);;
  proc_destroy self p.

(** ** What they do when there is memory *)

Definition no_children : Linked_List := mkList 0 0 0 (Some new_lock).
Definition new_proc (pid : Z) : proc := mkProc pid (-1) 0 0 no_children false (-1) 0 (Some (mkSem 0 [])).
Definition memory_left k : Prop := v_mem (f_vfs (k_files k)) = [].

Definition enter (pid p : Z) (t : proctable) : proctable :=
  mkPt (<[pid := p]> (pt_procs t)) (<[pid := new_lock]> (exit_locks t)) (<[pid := mkCv None []]> (exit_cvs t)) None (s32 (active_procs t + 1)).
Definition leave (pid : Z) (t : proctable) : proctable :=
  mkPt (delete pid (pt_procs t)) (delete pid (exit_locks t)) (delete pid (exit_cvs t)) None (s32 (active_procs t - 1)).

Lemma mem_same k : memory_left k -> set_files (set_vfs (set_mem [] (f_vfs (k_files k))) (k_files k)) k = k.
Proof. unfold memory_left. destruct k as [[[] ? ? ? ? ? ? ? ?] ? ? ? ? ? ? ?]. cbn. by intros ->. Qed.

Lemma with_mem_eq {A} (f : list bool -> A * list bool) a k : memory_left k -> f [] = (a, []) -> with_mem f k = Done (a, k).
Proof.
  intros Hm Hf. unfold with_mem, fvcall, fcall, vcall, zoom. unfold memory_left in Hm. rewrite Hm, Hf. kred. by rewrite mem_same.
Qed.
Lemma fkmalloc_eq k : memory_left k -> fvcall kmalloc k = Done (true, k).
Proof. intros Hm. apply (with_mem_eq kalloc); done. Qed.

Lemma pt_acquire_eq self k t : proc_table k = Some t -> pt_lock t = None -> pt_acquire self k = Done ((), set_table (Some (with_pt_lock (Some self) t)) k).
Proof. intros Ht Hl. unfold pt_acquire, get_pt. krun. rewrite Ht. krun. by rewrite Hl. Qed.
Lemma pt_release_eq self k t : proc_table k = Some t -> pt_lock t = Some self -> pt_release self k = Done ((), set_table (Some (with_pt_lock None t)) k).
Proof. intros Ht Hl. unfold pt_release, get_pt, kassert. krun. rewrite Ht. krun. rewrite Hl, bool_decide_true by done. done. Qed.
Lemma get_pt_eq k t : proc_table k = Some t -> get_pt k = Done (t, k).
Proof. intros Ht. unfold get_pt. by rewrite Ht. Qed.
Lemma get_proc_eq k p x : k_procs k !! p = Some x -> get_proc p k = Done (x, k).
Proof. intros Hx. unfold get_proc. by rewrite Hx. Qed.
Lemma in_table_eq pid k : 0 <= pid < PID_MAX -> in_table pid k = Done ((), k).
Proof. intros Hp. unfold in_table, kassert. rewrite (proj2 (Z.leb_le _ _)), (proj2 (Z.ltb_lt _ _)) by lia. done. Qed.
Lemma set_table_table t t' k : set_table t (set_table t' k) = set_table t k.
Proof. done. Qed.

(** A creation under the table's lock. *)
Definition atomic_ok (pages : pages_) k : bool := (kproc k =? 0) || negb (fst pages || snd pages).

Lemma create_at_eq {A} self page (f : list bool -> option A * list bool) a k t :
  memory_left k -> f [] = (Some a, []) -> proc_table k = Some t -> pt_lock t = Some self ->
  create_at self page f k = if (kproc k =? 0) || negb page then Done (Some a, k) else Panic.
Proof.
  intros Hm Hf Ht Hl. unfold create_at. krun. rewrite (with_mem_eq f (Some a)) by done. krun. unfold spinlocks_held. krun.
  rewrite (bool_decide_false (Some a = None)) by done. rewrite orb_false_r.
  destruct (kproc k =? 0); krun.
  - destruct page; krun; [|done]. unfold vmcall, zoom, dumbvm_can_sleep, kassert. krun. by destruct k.
  - rewrite Ht. cbn. rewrite Hl, bool_decide_true by done. by destruct page; krun.
Qed.

Lemma add_proc_eq self pages p pid k t :
  proc_table k = Some t -> pt_lock t = None -> memory_left k -> p <> 0 -> 0 <= pid < PID_MAX ->
  add_proc self pages p pid k = if atomic_ok pages k then Done ((), set_table (Some (enter pid p t)) k) else Panic.
Proof.
  intros Ht Hl Hm Hp Hpid. unfold add_proc. krun. erewrite get_pt_eq by exact Ht. krun. erewrite pt_acquire_eq by done. krun.
  rewrite in_table_eq by done. krun. erewrite get_pt_eq by done. krun. rewrite (proj2 (Z.eqb_neq _ _) Hp). unfold put_pt at 1. krun.
  unfold atomic_ok. destruct pages as [page1 page2]. cbn [fst snd].
  erewrite (create_at_eq self page1 lock_create new_lock) by done. cbn [kproc set_table]. destruct (kproc k =? 0) eqn:Hk; cbn [orb].
  2: destruct page1; cbn [orb negb]; krun; [done|].
  all: krun; erewrite get_pt_eq by done; krun; unfold put_pt at 1; krun.
  all: erewrite (create_at_eq self page2 cv_create (mkCv None [])) by done; cbn [kproc set_table]; rewrite Hk; cbn [orb].
  2: destruct page2; cbn [negb]; krun; [done|].
  all: krun; erewrite get_pt_eq by done; krun; unfold put_pt at 1; krun; by erewrite pt_release_eq by done.
Qed.

Lemma remove_proc_eq self p pid k t :
  proc_table k = Some t -> pt_lock t = None -> pt_procs t !! pid = Some p -> 0 <= pid < PID_MAX ->
  exit_locks t !! pid = Some new_lock -> exit_cvs t !! pid = Some (mkCv None []) ->
  remove_proc self pid k = Done ((), set_table (Some (leave pid t)) k).
Proof.
  intros Ht Hl Hp Hpid Hlk Hcv. unfold remove_proc, kassert. krun. erewrite pt_acquire_eq by done. krun. rewrite in_table_eq by done. krun.
  erewrite get_pt_eq by done. krun. cbn [pt_procs with_pt_lock]. rewrite Hp, bool_decide_true by done. krun. unfold put_pt at 1. krun.
  unfold curthread. krun. cbn [exit_locks with_pt_lock]. rewrite Hlk. krun. unfold lock_destroy, new_lock, lock_do_i_hold. cbn [lk_owner]. rewrite bool_decide_false by done. krun.
  cbn. krun. erewrite get_pt_eq by done. krun. unfold put_pt at 1. krun. cbn [exit_cvs with_pt_lock with_pt_procs]. rewrite Hcv. krun.
  unfold cv_destroy. cbn. krun. erewrite get_pt_eq by done. krun. unfold put_pt at 1. krun.
  by erewrite pt_release_eq by done.
Qed.

Lemma find_process_eq self pid k t : proc_table k = Some t -> pt_lock t = None -> 0 <= pid < PID_MAX ->
  find_process self pid k = Done (default 0 (pt_procs t !! pid), k).
Proof.
  intros Ht Hl Hpid. unfold find_process. krun. erewrite pt_acquire_eq by done. krun. rewrite in_table_eq by done. krun.
  erewrite get_pt_eq by done. krun. erewrite pt_release_eq by done. krun. do 2 f_equal. destruct k as [? ? ? [] ? ? ? ?]; [|done].
  injection Ht as <-. destruct p. cbn in Hl. by subst.
Qed.

Lemma assign_loop_spec n i m :
  match assign_loop n i m with
  | Some pid => i <= pid < i + Z.of_nat n /\ m !! pid = None /\ forall j, i <= j < pid -> m !! j <> None
  | None => forall j, i <= j < i + Z.of_nat n -> m !! j <> None
  end.
Proof.
  revert i. induction n as [|n IH]; intros i; cbn [assign_loop]; [lia|]. case_bool_decide as Hi.
  - split; [lia|]. split; [done|lia].
  - specialize (IH (i + 1)). destruct (assign_loop n (i + 1) m) as [pid|].
    + destruct IH as (Hr&Hn&Hall). split; [lia|]. split; [done|]. intros j Hj. destruct (decide (j = i)) as [->|]; [done|]. apply Hall. lia.
    + intros j Hj. destruct (decide (j = i)) as [->|]; [done|]. apply IH. lia.
Qed.

Lemma assign_pid_eq self k t : proc_table k = Some t -> pt_lock t = None ->
  assign_pid self k = Done (default (-1) (assign_loop (Z.to_nat (PID_MAX - 2)) 2 (pt_procs t)), k).
Proof.
  intros Ht Hl. unfold assign_pid. krun. erewrite pt_acquire_eq by done. krun.
  erewrite get_pt_eq by done. krun. erewrite pt_release_eq by done. krun. cbn [pt_procs with_pt_lock].
  assert (E : set_table (Some (with_pt_lock None (with_pt_lock (Some self) t))) (set_table (Some (with_pt_lock (Some self) t)) k) = k).
  { destruct k as [? ? ? [] ? ? ? ?]; [|done]. injection Ht as <-. destruct p. cbn in Hl. by subst. }
  by rewrite E.
Qed.

(** What [proc_create] leaves. *)
Definition created (pid : Z) (t : proctable) k : kern S :=
  let f := k_files k in
  mkKern (set_proc_ft (<[k_next k := f_next f]> (proc_ft f)) (put_table (f_next f) (mkFt empty_arr new_lock 0) (fresh_key f)))
    (k_vm k) (<[k_next k := new_proc pid]> (k_procs k)) (Some (enter pid (k_next k) t)) (kproc k) (k_next k + 1) (k_nodes k) (k_ints k).

Lemma new_table_eq k : memory_left k ->
  fcall file_table_create k = Done (Some (f_next (k_files k)), set_files (put_table (f_next (k_files k)) (mkFt empty_arr new_lock 0) (fresh_key (k_files k))) k).
Proof. intros Hm. unfold fcall, zoom. by rewrite file_table_create_eq. Qed.

Lemma proc_create_eq self pages name k t pid :
  proc_table k = Some t -> pt_lock t = None -> memory_left k -> good_str name -> 0 < k_next k ->
  assign_loop (Z.to_nat (PID_MAX - 2)) 2 (pt_procs t) = Some pid ->
  proc_create self pages name k = if atomic_ok pages k then Done (k_next k, created pid t k) else Panic.
Proof.
  intros Ht Hl Hm Hname Hnext Hpid. pose proof (assign_loop_spec (Z.to_nat (PID_MAX - 2)) 2 (pt_procs t)) as Hs. rewrite Hpid in Hs.
  destruct Hs as (Hr&_). rewrite Z2Nat.id in Hr by done. assert (Hr' : 2 <= pid < PID_MAX) by (unfold PID_MAX in *; lia).
  unfold proc_create. krun. rewrite fkmalloc_eq by done. krun.
  assert (Hdup : fvcall (dup name) k = Done (Some (cstr name ++ [0]), k)).
  { unfold fvcall, fcall, vcall, zoom. rewrite dup_ok by done. kred. by destruct k as [[] ? ? ? ? ? ? ?]. }
  rewrite Hdup. krun. rewrite bool_decide_false by done. krun. erewrite assign_pid_eq by done. krun. rewrite Hpid. change (default (-1) (Some pid)) with pid.
  rewrite (proj2 (Z.eqb_neq pid (-1))) by lia. krun.
  assert (Hll : fvcall (fun v => '(l, mem) ← linked_list_create (v_mem v); Done (l, set_mem mem v)) k = Done (no_children, k)).
  { unfold fvcall, fcall, vcall, zoom. unfold memory_left in Hm. rewrite Hm. unfold linked_list_create. cbn. kred. by rewrite mem_same. }
  rewrite Hll. krun. erewrite (with_mem_eq _ (Some (mkSem 0 []))) by done. krun. rewrite new_table_eq by done. krun.
  unfold put_proc. krun. erewrite add_proc_eq; [|exact Ht|exact Hl|done|cbn; lia|unfold PID_MAX in *; lia].
  unfold atomic_ok. cbn [kproc set_procs set_files fresh_proc]. by destruct (_ || _); krun.
Qed.

Lemma proc_create_full self pages name k t :
  proc_table k = Some t -> pt_lock t = None -> memory_left k -> good_str name ->
  assign_loop (Z.to_nat (PID_MAX - 2)) 2 (pt_procs t) = None ->
  proc_create self pages name k = Done (0, k).
Proof.
  intros Ht Hl Hm Hname Hpid. unfold proc_create. krun. rewrite fkmalloc_eq by done. krun.
  assert (Hdup : fvcall (dup name) k = Done (Some (cstr name ++ [0]), k)).
  { unfold fvcall, fcall, vcall, zoom. rewrite dup_ok by done. kred. by destruct k as [[] ? ? ? ? ? ? ?]. }
  rewrite Hdup. krun. rewrite bool_decide_false by done. krun. erewrite assign_pid_eq by done. krun. by rewrite Hpid.
Qed.

(** A process whose other parts are as [proc_create] made them. *)
Record settled (x : proc) : Prop := mkSettled {
  settled_children : p_children_ll x = no_children;
  settled_sem : exists c, p_exit_sem x = Some (mkSem c []);
  settled_parent : parent_proc x = 0 }.

Definition destroyed (p : Z) (x : proc) (t : proctable) k : kern S :=
  mkKern (set_proc_ft (delete p (proc_ft (k_files k))) (k_files k))
    (if p_addrspace x =? 0 then k_vm k else set_aspaces (delete (p_addrspace x) (aspaces (k_vm k))) (k_vm k))
    (delete p (k_procs k)) (Some (leave (p_pid x) t)) (kproc k) (k_next k) (k_nodes k) (k_ints k).

Lemma drop_addrspace_eq p x k : p <> 0 -> k_procs k !! p = Some x -> (p_addrspace x <> 0 -> is_Some (aspaces (k_vm k) !! p_addrspace x)) ->
  drop_addrspace p k = Done ((), if p_addrspace x =? 0 then k else
    set_vm (set_aspaces (delete (p_addrspace x) (aspaces (k_vm k))) (k_vm k)) (set_procs (<[p := with_addrspace 0 x]> (k_procs k)) k)).
Proof.
  intros Hp Hx Has. unfold drop_addrspace. krun. erewrite get_proc_eq by exact Hx. krun.
  destruct (Z.eqb_spec (p_addrspace x) 0) as [|Hne]; [done|]. destruct (Has Hne) as [a Ha]. unfold curproc. krun.
  destruct (Z.eqb_spec p (Vfs.curproc (f_vfs (k_files k)))) as [E|E]; krun.
  - unfold proc_setas, curproc. krun. rewrite <- E. erewrite get_proc_eq by exact Hx. krun. unfold put_proc, vmcall, zoom, as_deactivate, as_destroy, get_as. krun.
    rewrite (proj2 (Z.eqb_neq _ _) Hne). krun. cbn [k_vm set_procs set_vm]. rewrite Ha. krun. done.
  - unfold put_proc, vmcall, zoom, as_destroy, get_as. krun.
    rewrite (proj2 (Z.eqb_neq _ _) Hne). krun. cbn [k_vm set_procs set_vm]. rewrite Ha. krun. done.
Qed.

Lemma destroy_children_eq k : destroy_children no_children k = Done ((), k).
Proof.
  unfold destroy_children, zoom, curthread. krun.
  destruct (destroy_eq (Vfs.curthread (f_vfs (k_files k))) (mkLL no_children (k_nodes k) []) [] new_lock) as (s'&->&Hh); [|done..|].
  - constructor; try done. constructor.
  - kred. do 2 f_equal. assert (E : heap s' = k_nodes k) by (apply map_eq; intros b; rewrite Hh; by rewrite decide_False by set_solver).
    rewrite E. by destruct k.
Qed.

Lemma proc_destroy_eq self p x k t :
  p <> 0 -> p <> kproc k -> k_procs k !! p = Some x -> settled x -> p_numthreads x = 0 -> p_cwd (f_vfs (k_files k)) !! p = None ->
  (p_addrspace x <> 0 -> is_Some (aspaces (k_vm k) !! p_addrspace x)) ->
  proc_table k = Some t -> pt_lock t = None -> pt_procs t !! p_pid x = Some p -> 0 <= p_pid x < PID_MAX ->
  exit_locks t !! p_pid x = Some new_lock -> exit_cvs t !! p_pid x = Some (mkCv None []) ->
  proc_destroy self p k = Done ((), destroyed p x t k).
Proof.
  intros Hp Hkp Hx [Hch (c&Hsem) Hpar] Hnt Hcwd Has Ht Hl Htp Hpid Hlk Hcv. unfold proc_destroy, kassert. krun.
  rewrite (proj2 (Z.eqb_neq _ _) Hp), (proj2 (Z.eqb_neq _ _) Hkp). krun. unfold drop_cwd. krun. rewrite Hcwd. krun.
  rewrite (drop_addrspace_eq p x) by done. krun.
  set (k1 := if p_addrspace x =? 0 then k else _).
  set (x1 := if p_addrspace x =? 0 then x else with_addrspace 0 x).
  assert (Hx1 : k_procs k1 !! p = Some x1) by (unfold k1, x1; destruct (p_addrspace x =? 0); [done|cbn; by rewrite lookup_insert_eq]).
  assert (Hf : p_pid x1 = p_pid x /\ parent_proc x1 = 0 /\ p_numthreads x1 = 0 /\ p_exit_sem x1 = Some (mkSem c []) /\ p_children_ll x1 = no_children)
    by (unfold x1; destruct (p_addrspace x =? 0); done).
  destruct Hf as (Hf1&Hf2&Hf3&Hf4&Hf5).
  assert (Ht1 : proc_table k1 = Some t) by (unfold k1; by destruct (p_addrspace x =? 0)).
  erewrite get_proc_eq by exact Hx1. krun. rewrite Hf1. erewrite remove_proc_eq by done. krun. rewrite Hf2. krun. rewrite Hf3. krun. rewrite Hf4. krun.
  rewrite Hf5. unfold sem_destroy. cbn. krun. rewrite destroy_children_eq. krun. unfold free_proc. krun. do 2 f_equal.
  unfold destroyed, k1. destruct (p_addrspace x =? 0); [by destruct k|]. cbn. unfold set_procs, set_files. cbn. by rewrite delete_insert_eq.
Qed.

(** ** The table as a map from process numbers *)

(** A process and its number of threads for each process number. *)
Abbreviation ptmap := (gmap Z (Z * Z)).

Inductive pop : Type := PCreate (pages : pages_) (name : list Z) | PFind (pid : Z) | PAddThread (p : Z) | PRemThread (p : Z).

Definition run_pop (self : nat) (op : pop) : M Z :=
  match op with
  | PCreate pages name => proc_create self pages name
  | PFind pid => find_process self pid
  | PAddThread p => count_thread p
  | PRemThread p => uncount_thread self p;; mret 0
  end.
Fixpoint run_pops (self : nat) (ops : list pop) : M (list Z) :=
  match ops with [] => mret [] | op :: ops => r ← run_pop self op; rs ← run_pops self ops; mret (r :: rs) end.

(** [kp] is the kernel's process, [n] the next address. *)
Inductive pabs (kp : Z) : pop -> ptmap * Z -> Z -> ptmap * Z -> Prop :=
  | pabs_create name m n pid : good_str name -> 2 <= pid < PID_MAX -> m !! pid = None -> (forall j, 2 <= j < pid -> m !! j <> None) ->
      pabs kp (PCreate no_pages name) (m, n) n (<[pid := (n, 0)]> m, n + 1)
  | pabs_full pages name m n : good_str name -> (forall j, 2 <= j < PID_MAX -> m !! j <> None) -> pabs kp (PCreate pages name) (m, n) 0 (m, n)
  | pabs_find pid m n : 0 <= pid < PID_MAX -> pabs kp (PFind pid) (m, n) (default 0 (fst <$> m !! pid)) (m, n)
  | pabs_add pid p c m n : m !! pid = Some (p, c) -> c + 1 < 2 ^ 32 -> pabs kp (PAddThread p) (m, n) 0 (<[pid := (p, c + 1)]> m, n)
  | pabs_rem pid p m n : m !! pid = Some (p, 1) -> p <> kp -> pabs kp (PRemThread p) (m, n) 0 (delete pid m, n).

Inductive ptrace (kp : Z) : list pop -> ptmap * Z -> list Z -> ptmap * Z -> Prop :=
  | ptrace_nil a : ptrace kp [] a [] a
  | ptrace_cons op ops a r a' rs a'' : pabs kp op a r a' -> ptrace kp ops a' rs a'' -> ptrace kp (op :: ops) a (r :: rs) a''.

Record listed k (t : proctable) (n pid p c : Z) : Prop := mkListed {
  li_pid : 2 <= pid < PID_MAX; li_addr : 0 < p < n; li_threads : 0 <= c < 2 ^ 32;
  li_cwd : p_cwd (f_vfs (k_files k)) !! p = None;
  li_lock : exit_locks t !! pid = Some new_lock; li_cv : exit_cvs t !! pid = Some (mkCv None []);
  li_proc : exists x, k_procs k !! p = Some x /\ p_pid x = pid /\ p_numthreads x = c /\ p_addrspace x = 0 /\ settled x }.

Record psim k (a : ptmap * Z) : Prop := mkPsim {
  ps_table : exists t, proc_table k = Some t /\ pt_lock t = None /\ pt_procs t = fst <$> fst a /\ active_procs t = s32 (Z.of_nat (size (fst a))) /\
    forall pid p c, fst a !! pid = Some (p, c) -> listed k t (snd a) pid p c;
  ps_mem : memory_left k;
  ps_next : k_next k = snd a /\ 0 < snd a;
  ps_all : forall p x, k_procs k !! p = Some x -> exists c, fst a !! p_pid x = Some (p, c);
  ps_cwd : forall p, snd a <= p -> p_cwd (f_vfs (k_files k)) !! p = None }.

Lemma ptmap_fst (m : ptmap) pid : (fst <$> m) !! pid = fst <$> m !! pid.
Proof. apply lookup_fmap. Qed.

(** Two numbers do not have the same process. *)
Lemma psim_inj k a pid1 pid2 p c1 c2 : psim k a -> fst a !! pid1 = Some (p, c1) -> fst a !! pid2 = Some (p, c2) -> pid1 = pid2.
Proof.
  intros [(t&_&_&_&_&Hli) _ _ _ _] H1 H2. destruct (li_proc _ _ _ _ _ _ (Hli _ _ _ H1)) as (x1&Hx1&<-&_).
  destruct (li_proc _ _ _ _ _ _ (Hli _ _ _ H2)) as (x2&Hx2&<-&_). congruence.
Qed.

Lemma listed_ext k k' t t' n n' pid p c :
  listed k t n pid p c -> n <= n' -> p_cwd (f_vfs (k_files k')) !! p = p_cwd (f_vfs (k_files k)) !! p ->
  exit_locks t' !! pid = exit_locks t !! pid -> exit_cvs t' !! pid = exit_cvs t !! pid -> k_procs k' !! p = k_procs k !! p ->
  listed k' t' n' pid p c.
Proof. intros [? ? ? ? ? ? ?] Hn Hc Hl Hv Hx. constructor; rewrite ?Hc, ?Hl, ?Hv, ?Hx; try done. lia. Qed.

Lemma psim_create self pages k m n name pid :
  psim k (m, n) -> good_str name -> 2 <= pid < PID_MAX -> m !! pid = None -> (forall j, 2 <= j < pid -> m !! j <> None) ->
  if atomic_ok pages k then exists k', proc_create self pages name k = Done (n, k') /\ psim k' (<[pid := (n, 0)]> m, n + 1) /\ kproc k' = kproc k
  else proc_create self pages name k = Panic.
Proof.
  intros Hsim Hname Hpid Hfree Hleast. pose proof Hsim as [(t&Ht&Hl&Hpt&Hact&Hli) Hm (Hn&Hn0) Hall Hcwd]. cbn [fst snd] in *.
  assert (Has : assign_loop (Z.to_nat (PID_MAX - 2)) 2 (pt_procs t) = Some pid).
  { pose proof (assign_loop_spec (Z.to_nat (PID_MAX - 2)) 2 (pt_procs t)) as Hs.
    assert (Hlk : forall j, pt_procs t !! j = None <-> m !! j = None) by (intros j; rewrite Hpt, ptmap_fst; by destruct (m !! j)).
    destruct (assign_loop _ 2 (pt_procs t)) as [q|].
    - destruct Hs as (Hr&Hq&Hlow). f_equal. destruct (Z.lt_trichotomy q pid) as [H|[H|H]]; [|done|].
      + destruct (Hleast q); [lia|by apply Hlk].
      + destruct (Hlow pid); [lia|by apply Hlk].
    - destruct (Hs pid); [unfold PID_MAX in *; lia|by apply Hlk]. }
  rewrite (proc_create_eq self pages name k t pid) by (done || lia). destruct (atomic_ok pages k); [|done].
  eexists. rewrite Hn. split; [reflexivity|]. split; [|done].
  unfold created. constructor; cbn [fst snd proc_table k_files k_procs k_next]; rewrite ?Hn.
  - eexists. split; [done|]. split; [done|]. split; [cbn; by rewrite Hpt, fmap_insert|]. split.
    { cbn. rewrite Hact, s32_add. f_equal. rewrite map_size_insert_None by done. lia. }
    intros q p c Hq. apply lookup_insert_Some in Hq as [(<-&[= <- <-])|(Hne&Hq)].
    + constructor; cbn; rewrite ?lookup_insert_eq; try done; [lia|by apply Hcwd|]. eexists. split; [done|]. split; [done|]. split; [done|]. split; [done|].
      split; [done|by exists 0|done].
    + pose proof (Hli _ _ _ Hq) as Hli'. pose proof (li_addr _ _ _ _ _ _ Hli').
      eapply listed_ext; [exact Hli'|lia|..]; cbn; rewrite ?lookup_insert_ne by (done || lia); done.
  - done.
  - lia.
  - intros p x Hx. apply lookup_insert_Some in Hx as [(<-&<-)|(Hne&Hx)].
    + exists 0. cbn. by rewrite lookup_insert_eq.
    + destruct (Hall p x Hx) as [c Hc]. exists c. rewrite lookup_insert_ne; [done|]. intros ->. congruence.
  - intros p Hp. cbn. apply Hcwd. lia.
Qed.

Lemma psim_add k m n pid p c :
  psim k (m, n) -> m !! pid = Some (p, c) -> c + 1 < 2 ^ 32 ->
  exists k', count_thread p k = Done (0, k') /\ psim k' (<[pid := (p, c + 1)]> m, n) /\ kproc k' = kproc k.
Proof.
  intros Hsim Hp Hc. pose proof Hsim as [(t&Ht&Hl&Hpt&Hact&Hli) Hm (Hn&Hn0) Hall Hcwd]. cbn [fst snd] in *.
  destruct (Hli _ _ _ Hp) as [Hr Ha Hc0 Hcw Hlk Hcv (x&Hx&Hpid&Hnt&Has&[Hch Hsem Hpar])].
  unfold count_thread. krun. erewrite get_proc_eq by exact Hx. krun. unfold put_proc. krun. eexists. split; [done|]. split; [|done].
  constructor; cbn [fst snd proc_table k_files k_procs k_next set_procs]; try done.
  - exists t. split; [done|]. split; [done|]. split; [rewrite Hpt, fmap_insert; cbn; symmetry; apply insert_id; by rewrite ptmap_fst, Hp|].
    split; [rewrite Hact; by rewrite map_size_insert_Some|]. intros q p' c' Hq. apply lookup_insert_Some in Hq as [(<-&[= <- <-])|(Hne&Hq)].
    + constructor; try done; [lia|]. exists (with_numthreads (p_numthreads x + 1) x). cbn. rewrite lookup_insert_eq. rewrite Hnt, u32_small by lia. done.
    + assert (Hpp : p' <> p) by (intros ->; apply Hne; by eapply (psim_inj k (m, n))).
      eapply listed_ext; [by apply Hli|done|done|done|done|cbn; by rewrite lookup_insert_ne].
  - intros q y Hy. apply lookup_insert_Some in Hy as [(<-&<-)|(Hne&Hy)].
    + exists (c + 1). cbn. by rewrite Hpid, lookup_insert_eq.
    + destruct (Hall _ _ Hy) as [c' Hc']. exists c'. rewrite lookup_insert_ne; [done|]. intros E. rewrite <- E, Hp in Hc'. congruence.
Qed.

Lemma psim_rem self k m n pid p :
  psim k (m, n) -> m !! pid = Some (p, 1) -> p <> kproc k ->
  exists k', uncount_thread self p k = Done ((), k') /\ psim k' (delete pid m, n) /\ kproc k' = kproc k.
Proof.
  intros Hsim Hp Hkp. pose proof Hsim as [(t&Ht&Hl&Hpt&Hact&Hli) Hm (Hn&Hn0) Hall Hcwd]. cbn [fst snd] in *.
  destruct (Hli _ _ _ Hp) as [Hr Ha Hc0 Hcw Hlk Hcv (x&Hx&Hpid&Hnt&Has&[Hch Hsem Hpar])].
  unfold uncount_thread, kassert. krun. erewrite get_proc_eq by exact Hx. krun. rewrite Hnt. change (1 >? 0) with true. krun. unfold put_proc. krun.
  set (x1 := with_numthreads (1 - 1) x). set (k1 := set_procs (<[p := x1]> (k_procs k)) k).
  assert (Hx1 : k_procs k1 !! p = Some x1) by (cbn; by rewrite lookup_insert_eq).
  assert (Htp : pt_procs t !! pid = Some p) by (rewrite Hpt, ptmap_fst; cbn; by rewrite Hp).
  assert (Has1 : p_addrspace x1 <> 0 -> is_Some (aspaces (k_vm k1) !! p_addrspace x1)) by (intros E; by destruct (E Has)).
  change (p_pid x) with (p_pid x1) in Hpid.
  rewrite (proc_destroy_eq self p x1 k1 t) by (rewrite ?Hpid in *; done || lia).
  eexists. split; [done|]. split; [|done]. unfold destroyed. cbn [p_addrspace x1 with_numthreads]. rewrite Has. cbn [Z.eqb].
  constructor; cbn [fst snd proc_table k_files k_procs k_next]; try done.
  - rewrite Hpid. eexists. split; [done|]. split; [done|]. split; [cbn; by rewrite Hpt, fmap_delete|].
    split; [cbn; rewrite Hact, s32_sub; f_equal; rewrite map_size_delete_Some by done; assert (size m <> 0)%nat by (intros E; apply map_size_empty_inv in E; set_solver); lia|].
    intros q p' c' Hq. apply lookup_delete_Some in Hq as (Hne&Hq).
    assert (Hpp : p' <> p) by (intros ->; apply Hne; by eapply (psim_inj k (m, n))).
    eapply listed_ext; [by apply Hli|done|done|..]; cbn; rewrite ?lookup_delete_ne by done; [done..|]. by rewrite lookup_insert_ne.
  - intros q y Hy. apply lookup_delete_Some in Hy as (Hne&Hy). cbn in Hy. rewrite lookup_insert_ne in Hy by done.
    destruct (Hall _ _ Hy) as [c' Hc']. exists c'. rewrite lookup_delete_ne; [done|]. intros E. rewrite <- E, Hp in Hc'. by injection Hc' as ->.
Qed.

Lemma psim_step self k a op r a' : psim k a -> pabs (kproc k) op a r a' ->
  exists k', run_pop self op k = Done (r, k') /\ psim k' a' /\ kproc k' = kproc k.
Proof.
  intros Hsim Hop. destruct Hop as [name m n pid Hname Hpid Hfree Hleast|pages name m n Hname Hfull|pid m n Hpid|pid p c m n Hp Hc|pid p m n Hp Hkp]; cbn [run_pop].
  - pose proof (psim_create self no_pages k m n name pid Hsim Hname Hpid Hfree Hleast) as H. unfold atomic_ok in H.
    cbn [no_pages fst snd orb negb] in H. by rewrite orb_true_r in H.
  - exists k. pose proof Hsim as [(t&Ht&Hl&Hpt&_) Hm _ _ _]. rewrite (proc_create_full self pages name k t); try done.
    pose proof (assign_loop_spec (Z.to_nat (PID_MAX - 2)) 2 (pt_procs t)) as Hs. destruct (assign_loop _ 2 (pt_procs t)) as [q|]; [|done].
    destruct Hs as (Hr&Hq&_). destruct (Hfull q); [unfold PID_MAX in *; lia|]. cbn in Hpt. rewrite Hpt, ptmap_fst in Hq. by destruct (m !! q).
  - exists k. pose proof Hsim as [(t&Ht&Hl&Hpt&_) _ _ _ _]. rewrite (find_process_eq self pid k t) by done. cbn in Hpt. by rewrite Hpt, ptmap_fst.
  - by eapply psim_add.
  - krun. destruct (psim_rem self k m n pid p Hsim Hp Hkp) as (k'&->&?). krun. by exists k'.
Qed.

(** The least free number, when there is one. *)
Lemma least_free (m : ptmap) pid : 2 <= pid < PID_MAX -> m !! pid = None ->
  exists q, 2 <= q < PID_MAX /\ m !! q = None /\ forall j, 2 <= j < q -> m !! j <> None.
Proof.
  intros Hpid Hfree. pose proof (assign_loop_spec (Z.to_nat (PID_MAX - 2)) 2 (fst <$> m)) as Hs.
  assert (Hlk : forall j, (fst <$> m) !! j = None <-> m !! j = None) by (intros j; rewrite ptmap_fst; by destruct (m !! j)).
  destruct (assign_loop _ 2 (fst <$> m)) as [q|].
  - destruct Hs as (Hr&Hq&Hlow). exists q. split; [unfold PID_MAX in *; lia|]. split; [by apply Hlk|]. intros j Hj E. apply (Hlow j Hj). by apply Hlk.
  - destruct (Hs pid); [unfold PID_MAX in *; lia|by apply Hlk].
Qed.

Lemma ptrace_runs self ops k a rs a' : psim k a -> ptrace (kproc k) ops a rs a' ->
  exists k', run_pops self ops k = Done (rs, k') /\ psim k' a' /\ kproc k' = kproc k.
Proof.
  intros Hsim Htr. remember (kproc k) as kp eqn:Hkp. revert k Hsim Hkp.
  induction Htr as [a|op ops a r a1 rs a2 Hop _ IH]; intros k Hsim ->; cbn [run_pops]; krun; [by exists k|].
  destruct (psim_step self k a op r a1 Hsim Hop) as (k1&->&Hsim1&Hk1). krun. destruct (IH k1 Hsim1 (eq_sym Hk1)) as (k2&->&?&Hk2). krun. exists k2. by rewrite Hk2.
Qed.

Lemma proc_bootstrap_eq self pages name k :
  memory_left k -> good_str name -> k_procs k = ∅ -> 0 < k_next k -> p_cwd (f_vfs (k_files k)) = ∅ -> kproc k = 0 ->
  exists k', proc_bootstrap self pages name k = Done ((), k') /\ psim k' ({[2 := (k_next k, 0)]}, k_next k + 1) /\ kproc k' = k_next k.
Proof.
  intros Hm Hname Hprocs Hnext Hcwd Hkp. unfold proc_bootstrap, create_proctable, kassert. krun. rewrite fkmalloc_eq by done. krun.
  assert (Hsim : psim (set_table (Some (mkPt ∅ ∅ ∅ None 0)) k) (∅, k_next k)).
  { constructor; cbn; try done.
    - eexists. split; [done|]. split; [done|]. split; [by rewrite fmap_empty|]. done.
    - by rewrite Hprocs.
    - by rewrite Hcwd. }
  pose proof (psim_create self pages _ _ _ name 2 Hsim Hname) as Hc. unfold atomic_ok in Hc. cbn [kproc set_table] in Hc. rewrite Hkp in Hc.
  destruct Hc as (k'&->&Hsim'&_); [done|done|lia|]. krun.
  unfold set_kproc. rewrite (proj2 (Z.eqb_neq (k_next k) 0)) by lia. krun. eexists. split; [done|]. split; [|done].
  rewrite insert_empty in Hsim'. destruct Hsim' as [(t&Ht&Hl&Hp&Ha&Hli) H2 H3 H4 H5]. constructor; cbn in *; try done.
  exists t. split; [done|]. split; [done|]. split; [done|]. split; [done|]. intros pid p c Hp'. destruct (Hli pid p c Hp') as [? ? ? ? ? ? Hx]. by constructor.
Qed.

(** ** The table's lock *)

Definition locked (self : nat) (t : proctable) k : kern S := set_table (Some (with_pt_lock (Some self) t)) k.

Lemma pt_acquire_held self holder k t : proc_table k = Some t -> pt_lock t = Some holder ->
  pt_acquire self k = if bool_decide (holder = self) then Panic else Blocked.
Proof. intros Ht Hl. unfold pt_acquire, get_pt. krun. rewrite Ht. krun. rewrite Hl. by case_bool_decide. Qed.

(** A process of the table cannot be destroyed by whoever holds the table's lock. *)
Lemma destroy_locked self k t n pid p c :
  listed k t n pid p c -> proc_table k = Some t -> proc_destroy self p (locked self t k) = Panic.
Proof.
  intros [Hr Ha Hc Hcwd Hlk Hcv (x&Hx&Hpid&Hnt&Has&_)] Ht. unfold proc_destroy, kassert. krun. rewrite (proj2 (Z.eqb_neq p 0)) by lia. krun.
  destruct (negb (p =? kproc (locked self t k))); krun; [|done]. unfold drop_cwd. krun. cbn [k_files locked set_table]. rewrite Hcwd. krun.
  unfold drop_addrspace. krun. erewrite get_proc_eq by exact Hx. krun. rewrite Has. krun. erewrite get_proc_eq by exact Hx. krun.
  unfold remove_proc. krun. erewrite pt_acquire_held by done. by rewrite bool_decide_true.
Qed.

Lemma destroy_slots_panics self n k t b i pid :
  proc_table k = Some t -> (forall q p, pt_procs t !! q = Some p -> exists c, listed k t b q p c) ->
  is_Some (pt_procs t !! pid) -> i <= pid < i + Z.of_nat n -> destroy_slots self n i (locked self t k) = Panic.
Proof.
  intros Ht Hli Hs. revert i. induction n as [|n IH]; intros i Hi; [lia|]. cbn [destroy_slots]. krun. erewrite get_pt_eq by done. krun.
  cbn [pt_procs with_pt_lock]. destruct (pt_procs t !! i) as [p|] eqn:Hp; krun.
  - destruct (Hli i p Hp) as [c Hc]. by erewrite destroy_locked.
  - apply IH. destruct (decide (pid = i)) as [->|]; [rewrite Hp in Hs; by destruct Hs|lia].
Qed.

End Proc.

(** C14. The process table is a finite map from process numbers to processes: from the
    start of the kernel on, whatever processes are created, looked up, given threads and
    ended with their last thread, a new process gets the least free number from 2 on (or
    none is made when all numbers below PID_MAX are used), a lookup finds exactly the
    processes that are alive, and each of them has its own number and place, its unused
    exit lock and condition variable, and the number of threads that were added.  Each of
    these calls returns, as long as the heap has free blocks for the exit lock and
    condition variable of a new process; when it has to take a page for one of them,
    [proc_create] panics in every state that can be reached, because [add_proc] asks for
    their memory with the table's spinlock held.  The kernel's own process may take pages:
    it is made before there is a processor that could hold a spinlock. *)
Theorem proctable_refines {S} `{!Vops S} self pages name (k : kern S) ops rs m n :
  memory_left k -> good_str name -> k_procs k = ∅ -> 0 < k_next k -> p_cwd (f_vfs (k_files k)) = ∅ -> kproc k = 0 ->
  ptrace (k_next k) ops ({[2 := (k_next k, 0)]}, k_next k + 1) rs (m, n) ->
  exists k', (proc_bootstrap self pages name;; run_pops self ops) k = Done (rs, k') /\ psim k' (m, n) /\
    (forall pid, 0 <= pid < PID_MAX -> find_process self pid k' = Done (default 0 (fst <$> m !! pid), k')) /\
    (forall other page1 page2 name' pid, good_str name' -> 2 <= pid < PID_MAX -> m !! pid = None -> page1 || page2 = true ->
      proc_create other (page1, page2) name' k' = Panic).
Proof.
  intros Hm Hname Hprocs Hnext Hcwd Hk0 Htr. destruct (proc_bootstrap_eq self pages name k) as (k1&Hb&Hsim1&Hkp); [done..|].
  krun. rewrite Hb. krun. destruct (ptrace_runs self ops k1 _ rs (m, n) Hsim1) as (k2&Hrun&Hsim2&Hkp2); [by rewrite Hkp|].
  exists k2. split; [done|]. split; [done|]. split.
  2:{ intros other page1 page2 name' pid Hname' Hpid Hfree Hpages. destruct (least_free m pid Hpid Hfree) as (q&Hq&Hqf&Hleast).
      pose proof (psim_create other (page1, page2) k2 m n name' q Hsim2 Hname' Hq Hqf Hleast) as H. unfold atomic_ok in H.
      rewrite Hkp2, Hkp, (proj2 (Z.eqb_neq _ _)) in H by lia. cbn [fst snd] in H. by rewrite Hpages in H. }
  intros pid Hpid. pose proof Hsim2 as [(t&Ht&Hl&Hpt&_) _ _ _ _].
  rewrite (find_process_eq self pid k2 t) by done. cbn in Hpt. by rewrite Hpt, ptmap_fst.
Qed.

(** Two operations on the process table leave the kernel without it: with a process
    in the table, [destroy_proctable] panics, because it holds the table's lock when it
    calls [proc_destroy]; and [proc_count] never gives the lock back, so the next
    operation on the table panics on the same processor and waits for ever on another. *)
Theorem proctable_deadlocks {S} `{!Vops S} self (k : kern S) m n :
  psim k (m, n) -> m <> ∅ ->
  destroy_proctable self k = Panic /\
  exists k', proc_count self k = Done (s32 (Z.of_nat (size m)), k') /\
    forall other pid, find_process other pid k' = if bool_decide (self = other) then Panic else Blocked.
Proof.
  intros Hsim Hne. pose proof Hsim as [(t&Ht&Hl&Hpt&Hact&Hli) _ _ _ _]. cbn [fst snd] in *. split.
  - destruct (map_choose m Hne) as (pid&[p c]&Hp). unfold destroy_proctable. krun. erewrite pt_acquire_eq by done. krun.
    rewrite (destroy_slots_panics self (Z.to_nat PID_MAX) k t n 0 pid); [done|done|..].
    + intros q p' Hq. rewrite Hpt, ptmap_fst in Hq. destruct (m !! q) as [[p'' c']|] eqn:E; [|done]. injection Hq as <-. eauto.
    + rewrite Hpt, ptmap_fst, Hp. done.
    + pose proof (li_pid _ _ _ _ _ _ (Hli _ _ _ Hp)). rewrite Z2Nat.id by done. lia.
  - eexists. unfold proc_count. krun. erewrite pt_acquire_eq by done. krun. erewrite get_pt_eq by done. krun.
    cbn [active_procs with_pt_lock]. rewrite Hact. split; [done|]. intros other pid. unfold find_process. krun.
    erewrite pt_acquire_held by done. by case_bool_decide.
Qed.
