(* ===== verification/Kmalloc.v ===== *)
(** * vm/kmalloc.c: the kernel heap

    The subpage allocator: pages of blocks of one size, each with a free list whose
    links are the first words of its free blocks, and a [pageref] per page, kept on two
    lists.  The links are in the machine's memory ([phys] of Dumbvm), where the blocks
    themselves are, so that the theorems can say what the allocator does to the contents
    of blocks in use.  The pagerefs are objects known by their addresses, which are those
    of entries of pageref pages.  The spinlock is left out: each call is one step, also
    where the code releases the lock to call [alloc_kpages]; [c_spinlocks] is the number of
    spinlocks that the caller's processor holds, which [alloc_kpages] wants to be 0.  The
    debugging modes (SLOW, GUARDS, LABELS and the rest) are off in the source, and kprintf
    is left out. *)

From S2P Require Import Prelude Dumbvm.

Definition sizes : list Z := [16; 32; 64; 128; 256; 512; 1024; 2048].
Definition NSIZES : Z := 8.
Definition LARGEST_SUBPAGE_SIZE : Z := 2048.

(** [next_samesize] and [next_all] are addresses of pagerefs, or 0. *)
Record pageref := mkPr {
  next_samesize : Z; next_all : Z; pageaddr_and_blocktype : Z; freelist_offset : Z; nfree : Z }.
Definition sizeof_pageref : Z := 16.
Definition INVALID_OFFSET : Z := 65535.
Definition not_frame : Z := Z.lxor PAGE_FRAME (2 ^ 32 - 1).
Definition PR_PAGEADDR (pr : pageref) : Z := Z.land (pageaddr_and_blocktype pr) PAGE_FRAME.
Definition PR_BLOCKTYPE (pr : pageref) : Z := Z.land (pageaddr_and_blocktype pr) not_frame.
Definition MKPAB (pa blk : Z) : Z := Z.lor (Z.land pa PAGE_FRAME) (Z.land blk not_frame).

Definition NPAGEREFS_PER_PAGE : Z := PAGE_SIZE / sizeof_pageref.
Definition INUSE_WORDS : nat := 8.
Definition NUM_PAGEREFPAGES : nat := 16.

(** [root_page] is the address of the page of pagerefs, or 0. *)
Record kheap_root := mkRoot { root_page : Z; pagerefs_inuse : list Z; numinuse : Z }.

Record kheap := mkHeap {
  h_vm : vm; refs : gmap Z pageref; kheaproots : list kheap_root; sizebases : list Z; allbase : Z }.

Definition set_hvm (s : vm) (h : kheap) : kheap := mkHeap s (refs h) (kheaproots h) (sizebases h) (allbase h).
Definition set_refs (m : gmap Z pageref) (h : kheap) : kheap := mkHeap (h_vm h) m (kheaproots h) (sizebases h) (allbase h).
Definition set_roots (l : list kheap_root) (h : kheap) : kheap := mkHeap (h_vm h) (refs h) l (sizebases h) (allbase h).
Definition set_sizebases (l : list Z) (h : kheap) : kheap := mkHeap (h_vm h) (refs h) (kheaproots h) l (allbase h).
Definition set_allbase (p : Z) (h : kheap) : kheap := mkHeap (h_vm h) (refs h) (kheaproots h) (sizebases h) p.

Abbreviation M := (K kheap).
Definition vmcall {A} (m : K vm A) : M A := zoom h_vm set_hvm m.

(** ** The memory at kernel addresses *)

Definition load_byte (s : vm) (a : Z) : Z := phys s (a - MIPS_KSEG0).
Definition store_byte (a b : Z) (s : vm) : vm := set_phys (fun x => if x =? a - MIPS_KSEG0 then b else phys s x) s.
Definition load_word (s : vm) (a : Z) : Z :=
  un_be32 (load_byte s a) (load_byte s (a + 1)) (load_byte s (a + 2)) (load_byte s (a + 3)).
Definition store_word (a w : Z) (s : vm) : vm :=
  set_phys (fun x => let i := x - (a - MIPS_KSEG0) in if (0 <=? i) && (i <? 4) then nth (Z.to_nat i) (be32 w) 0 else phys s x) s.

Definition load (a : Z) : M Z := gets (fun h => load_word (h_vm h) a).
Definition store (a w : Z) : M unit := modify (fun h => set_hvm (store_word a w (h_vm h)) h).

(** The loop of [fill_deadbeef], word [i] of [ptr] on. *)
Fixpoint fill_from (n : nat) (i ptr : Z) : M unit :=
  match n with O => mret () | S n => store (ptr + i * 4) 3735928559;; fill_from n (i + 1) ptr end.
Definition fill_deadbeef (vptr len : Z) : M unit := fill_from (Z.to_nat (len / 4)) 0 vptr.

Definition get_ref (p : Z) : M pageref := fun h => x ← deref (refs h !! p); Done (x, h).
Definition put_ref (p : Z) (x : pageref) : M unit := modify (fun h => set_refs (<[p := x]> (refs h)) h).
Definition get_root (i : nat) : M kheap_root := fun h => x ← deref (kheaproots h !! i); Done (x, h).
Definition put_root (i : nat) (x : kheap_root) : M unit := modify (fun h => set_roots (<[i := x]> (kheaproots h)) h).

(** ** Pagerefs *)

(** The second test of [root->page] is for another thread's allocation; here it never
    succeeds. *)
Definition allocpagerefpage (c_spinlocks : Z) (whichroot : nat) : M unit :=
  root ← get_root whichroot;
  kassert (root_page root =? 0);;
  va ← vmcall (alloc_kpages c_spinlocks 1);
  if va =? 0 then mret () else
  kassert (va mod PAGE_SIZE =? 0);;
  root ← get_root whichroot;
  if negb (root_page root =? 0) then vmcall (free_kpages va) else
  put_root whichroot (mkRoot va (pagerefs_inuse root) (numinuse root)).

(** The innermost loop: the first clear bit of a word, with its mask. *)
Fixpoint clear_bit (n : nat) (k j w : Z) : option (Z * Z) :=
  match n with
  | O => None
  | S n => if Z.land w k =? 0 then Some (k, j) else clear_bit n (u32 (Z.shiftl k 1)) (j + 1) w
  end.

(** The loop over the words: the first that is not full, and the search in it. *)
Fixpoint scan_words (i : Z) (ws : list Z) : option (Z * option (Z * Z)) :=
  match ws with
  | [] => None
  | w :: ws => if w =? 4294967295 then scan_words (i + 1) ws else Some (i, clear_bit 32 1 0 w)
  end.

Definition set_word (i k : Z) (f : Z -> Z -> Z) (r : kheap_root) : list Z :=
  alter (fun w => f w k) (Z.to_nat i) (pagerefs_inuse r).

(** The loop over the [n] roots from [whichroot] on; 0: none left. *)
Fixpoint alloc_from (c_spinlocks : Z) (n whichroot : nat) : M Z :=
  match n with
  | O => mret 0
  | S n =>
    root ← get_root whichroot;
    if numinuse root >=? NPAGEREFS_PER_PAGE then alloc_from c_spinlocks n (S whichroot) else
    match scan_words 0 (pagerefs_inuse root) with
    | None => alloc_from c_spinlocks n (S whichroot)
    | Some (_, None) => lift Panic
    | Some (i, Some (k, j)) =>
      put_root whichroot (mkRoot (root_page root) (set_word i k Z.lor root) (u32 (numinuse root + 1)));;
      (if root_page root =? 0 then allocpagerefpage c_spinlocks whichroot else mret ());;
      root ← get_root whichroot;
      if root_page root =? 0 then mret 0 else mret (u32 (root_page root + (i * 32 + j) * sizeof_pageref))
    end
  end.
Definition allocpageref (c_spinlocks : Z) : M Z := alloc_from c_spinlocks NUM_PAGEREFPAGES 0.

(** [j] is the difference of two pointers, as an unsigned number. *)
Fixpoint free_from (n whichroot : nat) (p : Z) : M unit :=
  match n with
  | O => lift Panic
  | S n =>
    root ← get_root whichroot;
    if root_page root =? 0 then kassert (numinuse root =? 0);; free_from n (S whichroot) p else
    let j := u32 ((p - root_page root) / sizeof_pageref) in
    if j <? NPAGEREFS_PER_PAGE then
      let i := j / 32 in
      let k := u32 (Z.shiftl 1 (j mod 32)) in
      w ← lift (deref (pagerefs_inuse root !! Z.to_nat i));
      kassert (negb (Z.land w k =? 0));;
      kassert (numinuse root >? 0);;
      put_root whichroot (mkRoot (root_page root) (set_word i k (fun w k => Z.land w (Z.lxor k (2 ^ 32 - 1))) root) (u32 (numinuse root - 1)))
    else free_from n (S whichroot) p
  end.
Definition freepageref (p : Z) : M unit := free_from NUM_PAGEREFPAGES 0 p.

(** ** The lists of pagerefs *)

(** What [guy] of [remove_lists] points at: the head of a list or a field of a pageref. *)
Inductive cell := Base (blktype : Z) | SameOf (p : Z) | AllBase | AllOf (p : Z).

Definition read_cell (c : cell) : M Z :=
  match c with
  | Base b => fun h => x ← deref (sizebases h !! Z.to_nat b); Done (x, h)
  | SameOf p => x ← get_ref p; mret (next_samesize x)
  | AllBase => gets allbase
  | AllOf p => x ← get_ref p; mret (next_all x)
  end.
Definition write_cell (c : cell) (q : Z) : M unit :=
  match c with
  | Base b => modify (fun h => set_sizebases (<[Z.to_nat b := q]> (sizebases h)) h)
  | SameOf p => x ← get_ref p; put_ref p (mkPr q (next_all x) (pageaddr_and_blocktype x) (freelist_offset x) (nfree x))
  | AllBase => modify (set_allbase q)
  | AllOf p => x ← get_ref p; put_ref p (mkPr (next_samesize x) q (pageaddr_and_blocktype x) (freelist_offset x) (nfree x))
  end.
(** The cell of the same list in the pageref [q]. *)
Definition next_cell (c : cell) (q : Z) : cell :=
  match c with Base _ | SameOf _ => SameOf q | AllBase | AllOf _ => AllOf q end.

(** One of the two loops, in at most [fuel] rounds. *)
Fixpoint remove_from (fuel : nat) (guy : cell) (pr : Z) : M unit :=
  match fuel with
  | O => lift Blocked
  | S fuel =>
    q ← read_cell guy;
    if q =? 0 then mret () else
    if q =? pr then next ← read_cell (next_cell guy pr); write_cell guy next else
    remove_from fuel (next_cell guy q) pr
  end.
Definition list_fuel (h : kheap) : nat := S (size (refs h)).
Definition remove_lists (pr blktype : Z) : M unit :=
  kassert ((blktype >=? 0) && (blktype <? NSIZES));;
  fuel ← gets list_fuel;
  remove_from fuel (Base blktype) pr;;
  remove_from fuel AllBase pr.

(** ** Blocks *)

Fixpoint blocktype_from (i : Z) (l : list Z) (clientsz : Z) : outcome Z :=
  match l with
  | [] => Panic
  | s :: l => if clientsz <=? s then mret i else blocktype_from (i + 1) l clientsz
  end.
Definition blocktype (clientsz : Z) : outcome Z := blocktype_from 0 sizes clientsz.
Definition block_size (blktype : Z) : Z := nth (Z.to_nat blktype) sizes 0.

(** The loop of [subpage_kmalloc]: the first page of the size with a free block, or 0. *)
Fixpoint find_free (fuel : nat) (pr blktype : Z) : M Z :=
  match fuel with
  | O => lift Blocked
  | S fuel =>
    if pr =? 0 then mret 0 else
    x ← get_ref pr;
    kassert (PR_BLOCKTYPE x =? blktype);;
    if nfree x >? 0 then mret pr else find_free fuel (next_samesize x) blktype
  end.

(** From [doalloc] on. *)
Definition doalloc (pr : Z) : M Z :=
  x ← get_ref pr;
  kassert (freelist_offset x <? PAGE_SIZE);;
  let prpage := PR_PAGEADDR x in
  let retptr := u32 (prpage + freelist_offset x) in
  fl ← load retptr;
  let n := u16 (nfree x - 1) in
  if negb (fl =? 0) then
    kassert (n >? 0);;
    kassert (u32 (fl - prpage) <? PAGE_SIZE);;
    put_ref pr (mkPr (next_samesize x) (next_all x) (pageaddr_and_blocktype x) (u16 (u32 (fl - prpage))) n);;
    mret retptr
  else
    kassert (n =? 0);;
    put_ref pr (mkPr (next_samesize x) (next_all x) (pageaddr_and_blocktype x) INVALID_OFFSET n);;
    mret retptr.

(** The loop that links the blocks of a fresh page, block [i] on. *)
Fixpoint link_blocks (n : nat) (i fla size : Z) : M unit :=
  match n with
  | O => mret ()
  | S n =>
    let fl := u32 (fla + i * size) in
    let next := u32 (fla + (i - 1) * size) in
    store fl next;;
    kassert (negb (fl =? next));;
    link_blocks n (i + 1) fla size
  end.

(** The set-up of a fresh page and its pageref. *)
Definition init_page (pr prpage blktype : Z) : M unit :=
  let size := block_size blktype in
  let n := u16 (PAGE_SIZE / size) in
  store prpage 0;;
  link_blocks (Z.to_nat (n - 1)) 1 prpage size;;
  let offset := u16 ((n - 1) * size) in
  kassert (offset =? (n - 1) * size);;
  base ← read_cell (Base blktype);
  all ← read_cell AllBase;
  put_ref pr (mkPr base all (MKPAB prpage blktype) offset n);;
  write_cell (Base blktype) pr;;
  write_cell AllBase pr.

Definition subpage_kmalloc (c_spinlocks sz : Z) : M Z :=
  blktype ← lift (blocktype sz);
  base ← read_cell (Base blktype);
  fuel ← gets list_fuel;
  pr ← find_free fuel base blktype;
  if negb (pr =? 0) then doalloc pr else
  prpage ← vmcall (alloc_kpages c_spinlocks 1);
  if prpage =? 0 then mret 0 else
  kassert (prpage mod PAGE_SIZE =? 0);;
  pr ← allocpageref c_spinlocks;
  if pr =? 0 then vmcall (free_kpages prpage);; mret 0 else
  init_page pr prpage blktype;;
  doalloc pr.

(** The loop of [subpage_kfree]: the pageref of the page that holds the address, or 0. *)
Fixpoint find_page (fuel : nat) (pr ptraddr : Z) : M Z :=
  match fuel with
  | O => lift Blocked
  | S fuel =>
    if pr =? 0 then mret 0 else
    x ← get_ref pr;
    kassert (PR_BLOCKTYPE x <? NSIZES);;
    if (ptraddr >=? PR_PAGEADDR x) && (ptraddr <? u32 (PR_PAGEADDR x + PAGE_SIZE)) then mret pr
    else find_page fuel (next_all x) ptraddr
  end.

(** The block joins the free list of its page. *)
Definition link_front (x : pageref) (prpage offset : Z) : M unit :=
  let fl := u32 (prpage + offset) in
  if freelist_offset x =? INVALID_OFFSET then store fl 0 else
  let next := u32 (prpage + freelist_offset x) in
  store fl next;; kassert (negb (fl =? next)).

Definition subpage_kfree (ptr : Z) : M Z :=
  fuel ← gets list_fuel;
  all ← read_cell AllBase;
  pr ← find_page fuel all ptr;
  if pr =? 0 then mret (-1) else
  x ← get_ref pr;
  let prpage := PR_PAGEADDR x in
  let blktype := PR_BLOCKTYPE x in
  let size := block_size blktype in
  let offset := u32 (ptr - prpage) in
  if (offset >=? PAGE_SIZE) || negb (offset mod size =? 0) then lift Panic else
  fill_deadbeef ptr size;;
  link_front x prpage offset;;
  let n := u16 (nfree x + 1) in
  put_ref pr (mkPr (next_samesize x) (next_all x) (pageaddr_and_blocktype x) (u16 offset) n);;
  kassert (n <=? PAGE_SIZE / size);;
  (if n =? PAGE_SIZE / size then
     remove_lists pr blktype;; freepageref pr;; vmcall (free_kpages prpage)
   else mret ());;
  mret 0.

Definition kmalloc (c_spinlocks sz : Z) : M Z :=
  if sz >=? LARGEST_SUBPAGE_SIZE then
    let npages := u32 (u32 (sz + PAGE_SIZE) - 1) / PAGE_SIZE in
    address ← vmcall (alloc_kpages c_spinlocks npages);
    if address =? 0 then mret 0 else
    kassert (address mod PAGE_SIZE =? 0);;
    mret address
  else subpage_kmalloc c_spinlocks sz.

Definition kfree (ptr : Z) : M unit :=
  if ptr =? 0 then mret () else
  result ← subpage_kfree ptr;
  if negb (result =? 0) then kassert (ptr mod PAGE_SIZE =? 0);; vmcall (free_kpages ptr) else mret ().

(** ** Statistics *)

(** The walk along the free list of a page of [n] blocks. *)
Fixpoint mark_free (fuel : nat) (fl prpage size n : Z) (freemap : list Z) : M (list Z) :=
  match fuel with
  | O => lift Blocked
  | S fuel =>
    if fl =? 0 then mret freemap else
    let index := u32 (fl - prpage) / size in
    kassert (index <? n);;
    next ← load fl;
    mark_free fuel next prpage size n (alter (fun w => Z.lor w (u32 (Z.shiftl 1 (index mod 32)))) (Z.to_nat (index / 32)) freemap)
  end.

(** The map of the free blocks, which is what is printed, and the bytes in use. *)
Definition subpage_stats (pr : Z) : M (list Z * Z) :=
  x ← get_ref pr;
  let prpage := PR_PAGEADDR x in
  let blktype := PR_BLOCKTYPE x in
  kassert (blktype <? NSIZES);;
  let n := PAGE_SIZE / block_size blktype in
  kassert (n <=? 32 * 8);;
  freemap ← (if freelist_offset x =? INVALID_OFFSET then mret (replicate 8 0) else
    mark_free (S (Z.to_nat n)) (u32 (prpage + freelist_offset x)) prpage (block_size blktype) n (replicate 8 0));
  mret (freemap, u32 (block_size blktype * u32 (n - nfree x))).

Fixpoint used_from (fuel : nat) (pr total num_pages : Z) : M (Z * Z) :=
  match fuel with
  | O => lift Blocked
  | S fuel =>
    if pr =? 0 then mret (total, num_pages) else
    '(_, used) ← subpage_stats pr;
    x ← get_ref pr;
    used_from fuel (next_all x) (u32 (total + used)) (u32 (num_pages + 1))
  end.
Definition kheap_getused : M Z :=
  fuel ← gets list_fuel;
  all ← read_cell AllBase;
  '(total, num_pages) ← used_from fuel all 0 0;
  let coremap_bytes := coremap_used_bytes in
  mret (if coremap_bytes >? 0 then u32 (total + u32 (coremap_bytes - u32 (num_pages * PAGE_SIZE))) else total).

(** The static variables as the kernel starts: no page yet. *)
Definition kheap_start (s : vm) : kheap :=
  mkHeap s ∅ (replicate NUM_PAGEREFPAGES (mkRoot 0 (replicate INUSE_WORDS 0) 0)) (replicate (Z.to_nat NSIZES) 0) 0.
