(* ===== verification/KernelHeap.v ===== *)
(** * The kernel heap: its invariant, and the abstract allocator it implements

    The pages of blocks are described by a list of [hpage]: where the pageref and the
    page are, the block type, and the free list as offsets.  [heap_ok] ties the state of
    Kmalloc to such a list. *)

From S2P Require Import Prelude Dumbvm Kmalloc.

#[local] Set Warnings "-clear-no-such-hyp".

(** ** Lists *)

Lemma NoDup_fmap_eq {A B} (f : A -> B) l x y : NoDup (f <$> l) -> x ∈ l -> y ∈ l -> f x = f y -> x = y.
Proof.
  induction l as [|z l IH]; cbn; [by intros _ ?%elem_of_nil|]. rewrite NoDup_cons, !elem_of_cons. intros [Hz Hl] Hx Hy Heq.
  destruct Hx as [->|Hx], Hy as [->|Hy]; [done| | |by apply IH].
  - destruct Hz. rewrite Heq. by apply list_elem_of_fmap_2.
  - destruct Hz. rewrite <- Heq. by apply list_elem_of_fmap_2.
Qed.

Lemma NoDup_bind_eq {A B} (f : A -> list B) l x y z : NoDup (l ≫= f) -> x ∈ l -> y ∈ l -> z ∈ f x -> z ∈ f y -> x = y.
Proof.
  induction l as [|w l IH]; cbn; [by intros _ ?%elem_of_nil|]. rewrite NoDup_app, !elem_of_cons. intros (_&Hw&Hl) Hx Hy Hzx Hzy.
  assert (forall u, u ∈ l -> z ∈ f u -> z ∈ l ≫= f) as Hin by (intros u ??; apply list_elem_of_bind; eauto).
  destruct Hx as [->|Hx], Hy as [->|Hy]; [done| | |by apply IH].
  - by destruct (Hw z); eauto.
  - by destruct (Hw z); eauto.
Qed.

Lemma elem_of_middle {A} (L1 L2 : list A) P Q : Q ∈ L1 ++ P :: L2 <-> Q = P \/ Q ∈ L1 ++ L2.
Proof. rewrite !elem_of_app, elem_of_cons. tauto. Qed.

(** ** The memory *)

Lemma load_word_ext s s' a : (forall i, 0 <= i < 4 -> load_byte s (a + i) = load_byte s' (a + i)) -> load_word s a = load_word s' a.
Proof. intros H. unfold load_word. rewrite <- (Z.add_0_r a) at 1 5. rewrite !H by lia. done. Qed.

Lemma load_store_same s a w : 0 <= w < 2 ^ 32 -> load_word (store_word a w s) a = w.
Proof.
  intros Hw. unfold load_word, load_byte, store_word. cbn [phys set_phys].
  replace (a - MIPS_KSEG0 - (a - MIPS_KSEG0)) with 0 by lia. replace (a + 1 - MIPS_KSEG0 - (a - MIPS_KSEG0)) with 1 by lia.
  replace (a + 2 - MIPS_KSEG0 - (a - MIPS_KSEG0)) with 2 by lia. replace (a + 3 - MIPS_KSEG0 - (a - MIPS_KSEG0)) with 3 by lia.
  apply un_be32_be32, Hw.
Qed.

Lemma load_byte_store s a w b : b < a \/ a + 4 <= b -> load_byte (store_word a w s) b = load_byte s b.
Proof.
  intros H. unfold load_byte, store_word. cbn [phys set_phys].
  destruct (Z.leb_spec 0 (b - MIPS_KSEG0 - (a - MIPS_KSEG0))), (Z.ltb_spec (b - MIPS_KSEG0 - (a - MIPS_KSEG0)) 4); cbn; lia || done.
Qed.

(** What has changed in a heap whose memory alone was written, and only in [[lo, hi)]. *)
Record written (lo hi : Z) (h h' : kheap) : Prop := mkWritten {
  w_eq : exists g, h' = set_hvm (set_phys g (h_vm h)) h;
  w_out : forall a, a < lo \/ hi <= a -> load_byte (h_vm h') a = load_byte (h_vm h) a }.

Lemma written_refl lo hi h : written lo hi h h.
Proof. split; [|done]. exists (phys (h_vm h)). by destruct h as [[] ????]. Qed.

Lemma written_trans lo hi h h1 h2 : written lo hi h h1 -> written lo hi h1 h2 -> written lo hi h h2.
Proof.
  intros [[g ->] H1] [[g' ->] H2]. split; [by exists g'|]. intros a Ha. by rewrite H2, H1.
Qed.

Lemma written_mono lo hi lo' hi' h h' : written lo hi h h' -> lo' <= lo -> hi <= hi' -> written lo' hi' h h'.
Proof. intros [H1 H2] ??. split; [done|]. intros a Ha. apply H2. lia. Qed.

Lemma store_eq a w h : exists h', store a w h = Done (tt, h') /\ written a (a + 4) h h' /\
  (0 <= w < 2 ^ 32 -> load_word (h_vm h') a = w).
Proof.
  eexists. split; [reflexivity|]. split; [split; [by eexists|]|].
  - intros b Hb. by apply load_byte_store.
  - intros Hw. by apply load_store_same.
Qed.

Lemma fill_from_eq n i ptr h : exists h', fill_from n i ptr h = Done (tt, h') /\ written (ptr + i * 4) (ptr + (i + Z.of_nat n) * 4) h h'.
Proof.
  revert i h. induction n as [|n IH]; intros i h; cbn [fill_from].
  - exists h. split; [done|]. apply written_refl.
  - destruct (store_eq (ptr + i * 4) 3735928559 h) as (h1&E1&W1&_). destruct (IH (i + 1) h1) as (h2&E2&W2).
    exists h2. rewrite K_bind_eq, E1, E2. split; [done|].
    eapply written_trans; eapply written_mono; eauto; lia.
Qed.

(** ** Blocks *)

Definition is_block (s o : Z) : Prop := exists i, o = s * i /\ 0 <= i /\ s * i < PAGE_SIZE.

(** The number of blocks of a page. *)
Lemma size_facts b : 0 <= b < NSIZES -> exists n, block_size b * n = PAGE_SIZE /\ PAGE_SIZE / block_size b = n /\
  2 <= n <= 256 /\ 16 <= block_size b <= 2048 /\ block_size b mod 16 = 0.
Proof.
  intros Hb. change NSIZES with 8 in Hb.
  assert (b = 0 \/ b = 1 \/ b = 2 \/ b = 3 \/ b = 4 \/ b = 5 \/ b = 6 \/ b = 7) as [->|[->|[->|[->|[->|[->|[->| ->]]]]]]] by lia;
    [exists 256|exists 128|exists 64|exists 32|exists 16|exists 8|exists 4|exists 2];
    repeat split; vm_compute; first [reflexivity|discriminate].
Qed.

Lemma block_bounds b o : 0 <= b < NSIZES -> is_block (block_size b) o -> 0 <= o /\ o + block_size b <= PAGE_SIZE.
Proof.
  intros (n&Hn&_&?&?&?)%size_facts (i&->&Hi&Hlt). change PAGE_SIZE with 4096 in *.
  split; [nia|]. assert (i < n) by nia. nia.
Qed.

Lemma blocks_apart s o o' : 0 < s -> is_block s o -> is_block s o' -> o <> o' -> o + s <= o' \/ o' + s <= o.
Proof.
  intros Hs (i&->&_) (j&->&_) Hne. destruct (Z.lt_total i j) as [?|[->|?]]; [left; nia|done|right; nia].
Qed.

Lemma is_block_mod s o : 0 < s -> 0 <= o < PAGE_SIZE -> o mod s = 0 <-> is_block s o.
Proof.
  intros Hs Ho. split.
  - intros Hm. exists (o / s). assert (o = s * (o / s)) as E by (rewrite (Z.div_mod o s) at 1; lia).
    rewrite <- E. split; [done|]. split; [apply Z.div_pos; lia|lia].
  - intros (i&->&_). rewrite Z.mul_comm. apply Z.mod_mul. lia.
Qed.

(** [n] different blocks fit a page of [n] blocks. *)
Lemma blocks_length s n l : 0 < s -> s * n = PAGE_SIZE -> 0 <= n -> NoDup l -> Forall (is_block s) l -> Z.of_nat (length l) <= n.
Proof.
  intros Hs Hsn Hn Hl Hb. rewrite <- (Z2Nat.id n) by done. apply inj_le.
  rewrite <- (length_seqZ 0 n), <- (length_fmap (Z.mul s) (seqZ 0 n)). apply submseteq_length, NoDup_submseteq; [done|].
  intros o Ho. rewrite Forall_forall in Hb. destruct (Hb o Ho) as (i&->&Hi&Hlt).
  apply list_elem_of_fmap_2, elem_of_seqZ. nia.
Qed.

(** ** Pages of blocks *)

Lemma not_frame_mod x : 0 <= x -> Z.land x not_frame = x mod PAGE_SIZE.
Proof. intros Hx. change not_frame with (Z.ones 12). by rewrite Z.land_ones. Qed.

Lemma MKPAB_eq pa b : 0 <= pa < 2 ^ 32 -> pa mod PAGE_SIZE = 0 -> 0 <= b < NSIZES -> MKPAB pa b = pa + b.
Proof.
  intros Hpa Hm Hb. change NSIZES with 8 in Hb. unfold MKPAB. rewrite land_frame, not_frame_mod, page_eq, Hm, Z.sub_0_r by lia.
  change PAGE_SIZE with 4096 in *. rewrite (Z.mod_small b) by lia. rewrite Z.add_nocarry_lxor, Z.lxor_lor; try done.
  all: apply Z.bits_inj'; intros i Hi; rewrite Z.land_spec, Z.bits_0; destruct (Z.ltb_spec i 12).
  all: try (rewrite (Z.div_mod pa 4096), Hm, Z.add_0_r, Z.mul_comm by lia; change 4096 with (2 ^ 12);
    rewrite Z.mul_pow2_bits_low by lia; done).
  all: rewrite (Z.bits_above_log2 b i), andb_false_r; try done; try lia;
    destruct (Z.eq_dec b 0) as [->|]; [cbn; lia|apply Z.log2_lt_pow2; [lia|]; apply Z.lt_le_trans with (2 ^ 12); [lia|apply Z.pow_le_mono_r; lia]].
Qed.

Record hpage := mkPage { g_ref : Z; g_addr : Z; g_type : Z; g_free : list Z }.
Definition psize (P : hpage) : Z := block_size (g_type P).
Definition with_free (l : list Z) (P : hpage) : hpage := mkPage (g_ref P) (g_addr P) (g_type P) l.

(** The free list of the page at [pa], in memory. *)
Definition first_free (pa : Z) (l : list Z) : Z := match l with [] => 0 | o :: _ => pa + o end.
Fixpoint free_chain (s : vm) (pa : Z) (l : list Z) : Prop :=
  match l with [] => True | o :: l => load_word s (pa + o) = first_free pa l /\ free_chain s pa l end.

Lemma free_chain_ext s s' pa l :
  (forall o i, o ∈ l -> 0 <= i < 4 -> load_byte s (pa + o + i) = load_byte s' (pa + o + i)) -> free_chain s pa l -> free_chain s' pa l.
Proof.
  induction l as [|o l IH]; cbn; [done|]. intros H [H1 H2]. split.
  - rewrite <- H1. symmetry. apply load_word_ext. intros i Hi. apply H; [by left|done].
  - apply IH; [|done]. intros o' i Ho Hi. apply H; [by right|done].
Qed.

Record page_good (s : vm) (P : hpage) : Prop := mkGood {
  pg_type : 0 <= g_type P < NSIZES;
  pg_aligned : g_addr P mod PAGE_SIZE = 0;
  pg_range : MIPS_KSEG0 < g_addr P /\ g_addr P + PAGE_SIZE <= MIPS_KSEG0 + 2 ^ 29;
  pg_nodup : NoDup (g_free P);
  pg_blocks : Forall (is_block (psize P)) (g_free P);
  pg_chain : free_chain s (g_addr P) (g_free P) }.

(** The pageref of a page, its links apart. *)
Record describes (x : pageref) (P : hpage) : Prop := mkDescribes {
  ds_pab : pageaddr_and_blocktype x = MKPAB (g_addr P) (g_type P);
  ds_off : freelist_offset x = match g_free P with [] => INVALID_OFFSET | o :: _ => o end;
  ds_nfree : nfree x = Z.of_nat (length (g_free P)) }.

Ltac hlia := change PAGE_SIZE with 4096 in *; change MIPS_KSEG0 with 2147483648 in *; change NSIZES with 8 in *; lia.

Lemma describes_addr s x P : page_good s P -> describes x P -> PR_PAGEADDR x = g_addr P /\ PR_BLOCKTYPE x = g_type P.
Proof.
  intros [Ht Ha Hr _ _ _] [Hp _ _]. unfold PR_PAGEADDR, PR_BLOCKTYPE. rewrite Hp, MKPAB_eq by hlia.
  rewrite land_frame, not_frame_mod, page_eq by hlia. hlia.
Qed.

Lemma page_good_ext s s' P :
  (forall o i, o ∈ g_free P -> 0 <= i < 4 -> load_byte s (g_addr P + o + i) = load_byte s' (g_addr P + o + i)) -> page_good s P -> page_good s' P.
Proof. intros H []. split; auto. by eapply free_chain_ext. Qed.

Lemma free_length s P : page_good s P -> Z.of_nat (length (g_free P)) <= PAGE_SIZE / psize P.
Proof.
  intros [Ht _ _ Hn Hb _]. destruct (size_facts _ Ht) as (n&H1&H2&H3&H4&H5). unfold psize in *. rewrite H2.
  eapply blocks_length; eauto; lia.
Qed.

(** ** Lists of pagerefs *)

Fixpoint linked (next : pageref -> Z) (m : gmap Z pageref) (p : Z) (l : list Z) : Prop :=
  match l with [] => p = 0 | q :: l => p = q /\ q <> 0 /\ exists x, m !! q = Some x /\ linked next m (next x) l end.

Lemma linked_ext next m m' p l : (forall q, q ∈ l -> next <$> m !! q = next <$> m' !! q) -> linked next m p l -> linked next m' p l.
Proof.
  revert p. induction l as [|q l IH]; intros p H; cbn; [done|]. intros (->&Hq&x&Hx&Hl). split; [done|]. split; [done|].
  specialize (H q ltac:(by left)) as Hn. rewrite Hx in Hn. destruct (m' !! q) as [x'|] eqn:Hx'; [|done].
  cbn in Hn. injection Hn as Hn. exists x'. split; [done|]. rewrite <- Hn. apply IH; [|done]. intros q' ?. apply H. by right.
Qed.

Lemma linked_app next m p l1 l2 : linked next m p (l1 ++ l2) ->
  match last l1 with None => linked next m p l2 | Some a => exists x, m !! a = Some x /\ linked next m (next x) l2 end.
Proof.
  revert p. induction l1 as [|q l1 IH]; intros p; [done|]. cbn [app linked]. intros (->&Hq&x&Hx&Hl). specialize (IH _ Hl).
  rewrite last_cons. destruct (last l1) as [a|]; [done|]. by exists x.
Qed.

(** What comes after [a] is replaced by [l']. *)
Lemma linked_cut next m p l a l2 l' x : linked next m p (l ++ a :: l2) -> a ∉ l -> a ∉ l' -> linked next m (next x) l' ->
  linked next (<[a := x]> m) p (l ++ a :: l').
Proof.
  intros Hl Ha Ha' Hl'. revert p Hl. induction l as [|q l IH]; intros p; cbn [app linked]; intros (->&Hq&y&Hy&Hl).
  - split; [done|]. split; [done|]. exists x. rewrite lookup_insert_eq. split; [done|].
    eapply linked_ext; [|exact Hl']. intros q Hq'. rewrite lookup_insert_ne; [done|]. by intros ->.
  - apply not_elem_of_cons in Ha as [Hne Ha]. split; [done|]. split; [done|]. exists y. rewrite lookup_insert_ne by done.
    split; [done|]. by apply IH.
Qed.

Definition of_type (b : Z) (L : list hpage) : list hpage := filter (fun P => g_type P = b) L.

Record lists_ok (m : gmap Z pageref) (bases : list Z) (all : Z) (L : list hpage) : Prop := mkLists {
  li_all : linked next_all m all (g_ref <$> L);
  li_len : length bases = Z.to_nat NSIZES;
  li_same : forall b p, 0 <= b < NSIZES -> bases !! Z.to_nat b = Some p -> linked next_samesize m p (g_ref <$> of_type b L);
  li_data : forall P, P ∈ L -> exists x, m !! g_ref P = Some x /\ describes x P;
  li_nodup : NoDup (g_ref <$> L) }.

Lemma lists_fuel m bases all L : lists_ok m bases all L -> (length L <= size m)%nat.
Proof.
  intros [_ _ _ Hd Hn]. rewrite <- (length_fmap g_ref), <- size_dom. 
  rewrite <- (size_list_to_set (C := gset Z) (g_ref <$> L)) by done. apply subseteq_size.
  intros q. rewrite elem_of_list_to_set, list_elem_of_fmap. intros (P&->&HP). destruct (Hd P HP) as (x&Hx&_).
  apply elem_of_dom. eauto.
Qed.

Lemma of_type_length b L : (length (of_type b L) <= length L)%nat.
Proof. apply length_filter. Qed.

Definition ref_of (o : option hpage) : Z := from_option g_ref 0 o.
Definition has_free (P : hpage) : Prop := g_free P <> [].
#[export] Instance has_free_dec P : Decision (has_free P).
Proof. unfold has_free. apply _. Defined.
Definition contains (a : Z) (P : hpage) : Prop := g_addr P <= a < g_addr P + PAGE_SIZE.
#[export] Instance contains_dec a P : Decision (contains a P).
Proof. unfold contains. apply _. Defined.

(** The pages of a list have their pagerefs in memory. *)
Definition described (h : kheap) (L : list hpage) : Prop :=
  forall P, P ∈ L -> page_good (h_vm h) P /\ exists x, refs h !! g_ref P = Some x /\ describes x P.

Lemma described_cons h P L : described h (P :: L) ->
  (exists x, refs h !! g_ref P = Some x /\ describes x P /\ PR_PAGEADDR x = g_addr P /\ PR_BLOCKTYPE x = g_type P /\ page_good (h_vm h) P) /\ described h L.
Proof.
  intros H. split; [|by intros Q HQ; apply H; right]. destruct (H P ltac:(by left)) as (Hg&x&Hx&Hd).
  destruct (describes_addr _ _ _ Hg Hd). eauto 6.
Qed.

Lemma get_ref_eq h p x : refs h !! p = Some x -> get_ref p h = Done (x, h).
Proof. unfold get_ref. intros ->. done. Qed.

Lemma find_free_eq b L : forall fuel p h, linked next_samesize (refs h) p (g_ref <$> L) -> described h L ->
  Forall (fun P => g_type P = b) L -> (length L < fuel)%nat ->
  find_free fuel p b h = Done (ref_of (head (filter has_free L)), h).
Proof.
  induction L as [|P L IH]; intros [|fuel] p h Hl Hd Ht Hf; try (cbn in Hf; lia).
  - cbn in Hl. by subst.
  - cbn in Hl. destruct Hl as (->&Hnz&x&Hx&Hl). apply described_cons in Hd as [(y&Hy&Hd&_&Hty&_) HdL]. simplify_eq.
    apply Forall_cons in Ht as [Hb Ht]. cbn [find_free]. destruct (Z.eqb_spec (g_ref P) 0); [done|].
    krun. rewrite (get_ref_eq _ _ _ Hx). krun. unfold kassert. rewrite Hty, Hb, Z.eqb_refl. krun.
    rewrite (ds_nfree _ _ Hd), filter_cons. case_decide as Hh; unfold has_free in Hh; destruct (g_free P) as [|o l]; cbn [length].
    + by destruct Hh.
    + rewrite Z.gtb_ltb. rewrite (proj2 (Z.ltb_lt _ _)) by lia. done.
    + cbn in Hf. change (Z.of_nat 0 >? 0) with false. cbn iota. apply IH; auto; lia.
    + by destruct Hh.
Qed.

Lemma page_end P s : page_good s P -> u32 (g_addr P + PAGE_SIZE) = g_addr P + PAGE_SIZE.
Proof. intros [_ _ Hr _ _ _]. apply u32_small. hlia. Qed.

Lemma find_page_eq a L : forall fuel p h, linked next_all (refs h) p (g_ref <$> L) -> described h L -> (length L < fuel)%nat ->
  find_page fuel p a h = Done (ref_of (head (filter (contains a) L)), h).
Proof.
  induction L as [|P L IH]; intros [|fuel] p h Hl Hd Hf; try (cbn in Hf; lia).
  - cbn in Hl. by subst.
  - cbn in Hl. destruct Hl as (->&Hnz&x&Hx&Hl). apply described_cons in Hd as [(y&Hy&Hd&Hpa&Hty&Hg) HdL]. simplify_eq.
    cbn [find_page]. destruct (Z.eqb_spec (g_ref P) 0); [done|].
    krun. rewrite (get_ref_eq _ _ _ Hx). krun. unfold kassert. destruct (pg_type _ _ Hg) as [_ Hlt].
    rewrite Hty, (proj2 (Z.ltb_lt _ _) Hlt). krun. rewrite Hpa, (page_end _ _ Hg), filter_cons, Z.geb_leb. case_decide as Hc; unfold contains in Hc.
    + by rewrite (proj2 (Z.leb_le _ _)), (proj2 (Z.ltb_lt _ _)) by lia.
    + replace ((g_addr P <=? a) && (a <? g_addr P + PAGE_SIZE)) with false by (symmetry; apply andb_false_iff; lia).
      apply IH; auto. cbn in Hf. lia.
Qed.

Lemma read_base h b q : sizebases h !! Z.to_nat b = Some q -> read_cell (Base b) h = Done (q, h).
Proof. cbn. by intros ->. Qed.

(** *** Taking a pageref off a list *)

Definition next_of (c : cell) : pageref -> Z := match c with Base _ | SameOf _ => next_samesize | _ => next_all end.
Definition with_next (c : cell) (q : Z) (x : pageref) : pageref :=
  match c with
  | Base _ | SameOf _ => mkPr q (next_all x) (pageaddr_and_blocktype x) (freelist_offset x) (nfree x)
  | _ => mkPr (next_samesize x) q (pageaddr_and_blocktype x) (freelist_offset x) (nfree x)
  end.
Lemma read_next_cell c q x h : refs h !! q = Some x -> read_cell (next_cell c q) h = Done (next_of c x, h).
Proof. intros Hx. destruct c; cbn; krun; rewrite (get_ref_eq _ _ _ Hx); done. Qed.

Lemma write_next_cell c a x q h : refs h !! a = Some x -> write_cell (next_cell c a) q h = Done (tt, set_refs (<[a := with_next c q x]> (refs h)) h).
Proof. intros Hx. destruct c; cbn; krun; rewrite (get_ref_eq _ _ _ Hx); done. Qed.

Lemma next_cell_next c a : next_of (next_cell c a) = next_of c.
Proof. by destruct c. Qed.
Lemma next_cell_twice c a b : next_cell (next_cell c a) b = next_cell c b.
Proof. by destruct c. Qed.

Lemma remove_from_eq pr l1 : forall l2 fuel c p h, read_cell c h = Done (p, h) -> linked (next_of c) (refs h) p (l1 ++ pr :: l2) ->
  pr ∉ l1 -> (length l1 < fuel)%nat ->
  exists x, refs h !! pr = Some x /\ linked (next_of c) (refs h) (next_of c x) l2 /\
    remove_from fuel c pr h = write_cell (from_option (next_cell c) c (last l1)) (next_of c x) h.
Proof.
  induction l1 as [|a l1 IH]; intros l2 [|fuel] c p h Hr Hl Hn Hf; try (cbn in Hf; lia).
  - cbn in Hl. destruct Hl as (->&Hnz&x&Hx&Hl). exists x. split; [done|]. split; [done|]. cbn [remove_from]. krun. rewrite Hr. krun.
    destruct (Z.eqb_spec pr 0); [done|]. rewrite Z.eqb_refl. krun. rewrite (read_next_cell _ _ _ _ Hx). done.
  - cbn [app linked] in Hl. destruct Hl as (->&Hnz&y&Hy&Hl). apply not_elem_of_cons in Hn as [Hne Hn].
    destruct (IH l2 fuel (next_cell c a) (next_of c y) h) as (x&Hx&Hl2&E); [by apply read_next_cell|by rewrite next_cell_next|done|cbn in Hf; lia|].
    rewrite next_cell_next in Hl2, E. exists x. split; [done|]. split; [done|]. cbn [remove_from]. krun. rewrite Hr. krun.
    destruct (Z.eqb_spec a 0); [done|]. destruct (Z.eqb_spec a pr); [done|]. rewrite E, last_cons.
    destruct (last l1); cbn; by rewrite ?next_cell_twice.
Qed.

(** ** The pageref pages *)

Definition slot_used (r : kheap_root) (j : Z) : bool := Z.testbit (nth (Z.to_nat (j / 32)) (pagerefs_inuse r) 0) (j mod 32).
Definition slots (r : kheap_root) : list Z := filter (fun j => slot_used r j = true) (seqZ 0 NPAGEREFS_PER_PAGE).
Record root_ok (r : kheap_root) : Prop := mkRootOk {
  ro_len : length (pagerefs_inuse r) = INUSE_WORDS;
  ro_words : Forall (fun w => 0 <= w < 2 ^ 32) (pagerefs_inuse r);
  ro_num : numinuse r = Z.of_nat (length (slots r)) }.

Lemma NoDup_slots r : NoDup (slots r).
Proof. apply NoDup_filter, NoDup_seqZ. Qed.

Lemma elem_of_slots r j : j ∈ slots r <-> 0 <= j < 256 /\ slot_used r j = true.
Proof. unfold slots. rewrite list_elem_of_filter, elem_of_seqZ. change NPAGEREFS_PER_PAGE with 256. naive_solver lia. Qed.

Lemma slots_bound r : Z.of_nat (length (slots r)) <= 256.
Proof. unfold slots. pose proof (length_filter (fun j => slot_used r j = true) (seqZ 0 NPAGEREFS_PER_PAGE)) as H. rewrite length_seqZ in H. change NPAGEREFS_PER_PAGE with 256 in *. lia. Qed.

(** Bit [j] of the map of the entries in use changes to [b]. *)
Definition slot_set (r r' : kheap_root) (j : Z) (b : bool) : Prop :=
  forall i, 0 <= i < 256 -> slot_used r' i = if i =? j then b else slot_used r i.

Lemma slots_add r r' j : slot_set r r' j true -> 0 <= j < 256 -> slot_used r j = false -> length (slots r') = S (length (slots r)).
Proof.
  intros H Hj Hu. change (S (length (slots r))) with (length (j :: slots r)). apply Permutation_length, NoDup_Permutation.
  - apply NoDup_slots.
  - apply NoDup_cons. split; [|apply NoDup_slots]. rewrite elem_of_slots, Hu. naive_solver.
  - intros i. rewrite elem_of_cons, !elem_of_slots. destruct (Z.eqb_spec i j) as [->|Hne].
    + rewrite H, Z.eqb_refl by done. naive_solver.
    + assert (0 <= i < 256 -> slot_used r' i = slot_used r i) as E by (intros; rewrite H by done; by rewrite (proj2 (Z.eqb_neq _ _) Hne)).
      split; [intros [Hi Hr]; right; by rewrite <- E|]. intros [?|[Hi Hr]]; [done|]. by rewrite E.
Qed.

Lemma slots_remove r r' j : slot_set r r' j false -> 0 <= j < 256 -> slot_used r j = true -> S (length (slots r')) = length (slots r).
Proof.
  intros H Hj Hu. symmetry. apply (slots_add r' r j); [|done|by rewrite H, Z.eqb_refl].
  intros i Hi. rewrite H by done. destruct (Z.eqb_spec i j) as [->|]; [by rewrite Hu|done].
Qed.

Lemma slot_word (l : list Z) f i j : 0 <= j < 256 -> length l = 8%nat -> i = Z.to_nat (j / 32) ->
  forall a, 0 <= a < 256 -> Z.testbit (nth (Z.to_nat (a / 32)) (alter f i l) 0) (a mod 32) =
    if a / 32 =? j / 32 then Z.testbit (f (nth i l 0)) (a mod 32) else Z.testbit (nth (Z.to_nat (a / 32)) l 0) (a mod 32).
Proof.
  intros Hj Hl -> a Ha. rewrite !nth_lookup. destruct (Z.eqb_spec (a / 32) (j / 32)) as [->|Hne].
  - rewrite list_lookup_alter_eq. destruct (lookup_lt_is_Some_2 l (Z.to_nat (j / 32))) as [w Hw]; [lia|]. by rewrite Hw.
  - rewrite list_lookup_alter_ne by lia. done.
Qed.

Lemma Forall_alter_word (l : list Z) f i : (forall w, 0 <= w < 2 ^ 32 -> 0 <= f w < 2 ^ 32) -> Forall (fun w => 0 <= w < 2 ^ 32) l ->
  Forall (fun w => 0 <= w < 2 ^ 32) (alter f i l).
Proof. intros Hf Hl. apply Forall_alter; [done|]. intros w _ Hw. by apply Hf. Qed.

Lemma mask_eq j : 0 <= j < 32 -> u32 (Z.shiftl 1 j) = Z.shiftl 1 j.
Proof. intros Hj. apply u32_small. rewrite Z.shiftl_1_l. split; [lia|]. apply Z.pow_lt_mono_r; lia. Qed.

Lemma set_slot r j page n : root_ok r -> 0 <= j < 256 -> slot_used r j = false -> n = u32 (numinuse r + 1) ->
  let r' := mkRoot page (set_word (j / 32) (Z.shiftl 1 (j mod 32)) Z.lor r) n in root_ok r' /\ slot_set r r' j true.
Proof.
  intros [Hl Hw Hn] Hj Hu -> r'.
  assert (slot_set r r' j true) as Hs.
  { intros i Hi. unfold slot_used, r', set_word. cbn [pagerefs_inuse]. rewrite (slot_word _ _ _ j) by done.
    destruct (Z.eqb_spec (i / 32) (j / 32)) as [E|E], (Z.eqb_spec i j) as [->|Hne]; try done; rewrite ?testbit_lor by lia.
    - by rewrite Z.eqb_refl.
    - rewrite (proj2 (Z.eqb_neq (i mod 32) _)) by lia. by rewrite E. }
  split; [|done]. split; cbn [pagerefs_inuse numinuse r'].
  - unfold set_word. by rewrite length_alter.
  - apply Forall_alter_word; [|done]. intros w. rewrite (below_bits 32) by lia. intros [H1 H2]. apply (below_bits 32); [lia|].
    split; [apply Z.lor_nonneg; split; [done|]; apply Z.shiftl_nonneg; lia|].
    intros a Ha. rewrite testbit_lor, H2 by lia. by rewrite (proj2 (Z.eqb_neq _ _)) by lia.
  - change (slots (mkRoot page _ _)) with (slots r'). pose proof (slots_bound r). rewrite (slots_add r r' j), Hn, u32_small by (done || lia). lia.
Qed.

Lemma clear_slot r j : root_ok r -> 0 <= j < 256 -> slot_used r j = true ->
  let r' := mkRoot (root_page r) (set_word (j / 32) (Z.shiftl 1 (j mod 32)) (fun w k => Z.land w (Z.lxor k (2 ^ 32 - 1))) r) (u32 (numinuse r - 1)) in
  root_ok r' /\ slot_set r r' j false /\ 0 < numinuse r.
Proof.
  intros [Hl Hw Hn] Hj Hu r'.
  assert (forall w a, 0 <= w < 2 ^ 32 -> 0 <= a -> Z.testbit (Z.land w (Z.lxor (Z.shiftl 1 (j mod 32)) (2 ^ 32 - 1))) a =
    if a =? j mod 32 then false else Z.testbit w a) as Hbit.
  { intros w a Hwr Ha. change (2 ^ 32 - 1) with (Z.ones 32). rewrite Z.land_spec, Z.lxor_spec, Z.shiftl_1_l, Z.pow2_bits_eqb by lia.
    rewrite (Z.eqb_sym (j mod 32)). destruct (Z.ltb_spec a 32).
    - rewrite Z.ones_spec_low by lia. destruct (a =? j mod 32); cbn; by rewrite ?andb_false_r, ?andb_true_r.
    - apply (below_bits 32) in Hwr as [_ ->]; [|lia..]. by destruct (a =? _). }
  assert (slot_set r r' j false) as Hs.
  { intros i Hi. unfold slot_used, r', set_word. cbn [pagerefs_inuse]. rewrite (slot_word _ _ _ j) by done.
    destruct (Z.eqb_spec (i / 32) (j / 32)) as [E|E].
    - destruct (lookup_lt_is_Some_2 (pagerefs_inuse r) (Z.to_nat (j / 32))) as [w Hw']; [rewrite Hl; unfold INUSE_WORDS; lia|].
      rewrite E, nth_lookup, Hw'. cbn [default]. rewrite Hbit by (lia || by eapply (Forall_lookup_1 (fun w => 0 <= w < 2 ^ 32))).
      destruct (Z.eqb_spec i j) as [->|]; [by rewrite Z.eqb_refl|]. by rewrite (proj2 (Z.eqb_neq _ _)) by lia.
    - destruct (Z.eqb_spec i j) as [->|Hne]; [done|]. done. }
  pose proof (slots_remove r r' j Hs Hj Hu) as Hlen. split; [|split; [done|lia]]. split; cbn [pagerefs_inuse numinuse r'].
  - unfold set_word. by rewrite length_alter.
  - apply Forall_alter_word; [|done]. intros w Hwr. apply (below_bits 32); [lia|]. split; [apply Z.land_nonneg; lia|].
    intros a Ha. rewrite Hbit by lia. apply (below_bits 32) in Hwr as [_ ->]; [|lia..]. by destruct (a =? _).
  - change (slots (mkRoot _ _ _)) with (slots r'). pose proof (slots_bound r). rewrite u32_small by lia. lia.
Qed.

(** *** The search for a free entry *)

Lemma clear_bit_spec n : forall j w, 0 <= j -> Z.of_nat n + j = 32 ->
  match clear_bit n (Z.shiftl 1 j) j w with
  | Some (k, i) => k = Z.shiftl 1 i /\ j <= i < 32 /\ Z.testbit w i = false
  | None => forall i, j <= i < 32 -> Z.testbit w i = true
  end.
Proof.
  induction n as [|n IH]; intros j w Hj Hn; cbn [clear_bit]; [lia|].
  rewrite land_shiftl_bit by done. destruct (Z.testbit w j) eqn:E; cbn [negb].
  - rewrite Z.shiftl_shiftl by lia. destruct n as [|n]; [cbn; intros i Hi; by assert (i = j) as -> by lia|].
    rewrite mask_eq by lia. specialize (IH (j + 1) w ltac:(lia) ltac:(lia)).
    destruct (clear_bit (S n) _ _ w) as [[k i]|]; [destruct IH as (?&?&?); repeat split; done || lia|].
    intros i Hi. destruct (decide (i = j)) as [->|]; [done|]. apply IH. lia.
  - repeat split; done || lia.
Qed.

Lemma all_bits w : 0 <= w < 2 ^ 32 -> (forall i, 0 <= i < 32 -> Z.testbit w i = true) -> w = 4294967295.
Proof.
  intros Hw H. apply (below_bits 32) in Hw as [_ Hw]; [|lia]. change 4294967295 with (Z.ones 32). apply Z.bits_inj'. intros i Hi.
  destruct (Z.ltb_spec i 32); [rewrite H, Z.ones_spec_low by lia|rewrite Hw, Z.ones_spec_high by lia]; done.
Qed.

Lemma scan_words_spec ws : forall i0, Forall (fun w => 0 <= w < 2 ^ 32) ws ->
  match scan_words i0 ws with
  | None => Forall (fun w => w = 4294967295) ws
  | Some (i, o) => exists w j, ws !! Z.to_nat (i - i0) = Some w /\ i0 <= i < i0 + Z.of_nat (length ws) /\ 0 <= j < 32 /\
      Z.testbit w j = false /\ o = Some (Z.shiftl 1 j, j)
  end.
Proof.
  induction ws as [|w ws IH]; intros i0 H; cbn [scan_words]; [done|]. apply Forall_cons in H as [Hw H].
  destruct (Z.eqb_spec w 4294967295) as [->|Hne].
  - specialize (IH (i0 + 1) H). destruct (scan_words (i0 + 1) ws) as [[i o]|]; [|by apply Forall_cons].
    destruct IH as (w&j&Hl&Hi&?). exists w, j. split; [|split; [cbn; lia|done]].
    replace (Z.to_nat (i - i0)) with (S (Z.to_nat (i - (i0 + 1)))) by lia. done.
  - pose proof (clear_bit_spec 32 0 w ltac:(done) ltac:(done)) as Hb. change (Z.shiftl 1 0) with 1 in Hb.
    destruct (clear_bit 32 1 0 w) as [[k j]|]; [|by destruct Hne; apply all_bits].
    destruct Hb as (->&?&?). exists w, j. rewrite Z.sub_diag. split; [done|]. split; [cbn; lia|done].
Qed.

Lemma scan_root r : root_ok r -> numinuse r < NPAGEREFS_PER_PAGE ->
  exists j, 0 <= j < 256 /\ slot_used r j = false /\ scan_words 0 (pagerefs_inuse r) = Some (j / 32, Some (Z.shiftl 1 (j mod 32), j mod 32)).
Proof.
  intros [Hl Hw Hn] Hlt. change NPAGEREFS_PER_PAGE with 256 in *. pose proof (scan_words_spec (pagerefs_inuse r) 0 Hw) as H.
  destruct (scan_words 0 _) as [[i o]|].
  - destruct H as (w&j&Hi&Hr&Hj&Hb&->). rewrite Hl in Hr. unfold INUSE_WORDS in Hr. exists (32 * i + j).
    assert ((32 * i + j) / 32 = i /\ (32 * i + j) mod 32 = j) as [E1 E2] by lia. unfold slot_used. rewrite E1, E2.
    rewrite Z.sub_0_r in Hi. rewrite nth_lookup, Hi. split; [lia|]. done.
  - exfalso. assert (length (slots r) = 256%nat) as E; [|lia]. change 256%nat with (length (seqZ 0 256)).
    apply Permutation_length, NoDup_Permutation; [apply NoDup_slots|apply NoDup_seqZ|].
    intros j. rewrite elem_of_slots, elem_of_seqZ. split; [lia|]. intros Hj. split; [lia|]. unfold slot_used.
    destruct (lookup_lt_is_Some_2 (pagerefs_inuse r) (Z.to_nat (j / 32))) as [w Hw']; [rewrite Hl; unfold INUSE_WORDS; lia|].
    rewrite nth_lookup, Hw'. rewrite Forall_lookup in H. cbn [default]. rewrite (H _ _ Hw'). change 4294967295 with (Z.ones 32). apply Z.ones_spec_low. lia.
Qed.

(** What [allocpageref] does with the root it finds. *)
Definition use_root (w : nat) (j : Z) : M Z :=
  root ← get_root w;
  put_root w (mkRoot (root_page root) (set_word (j / 32) (Z.shiftl 1 (j mod 32)) Z.lor root) (u32 (numinuse root + 1)));;
  (if root_page root =? 0 then allocpagerefpage 0 w else mret ());;
  root ← get_root w;
  if root_page root =? 0 then mret 0 else mret (u32 (root_page root + (j / 32 * 32 + j mod 32) * sizeof_pageref)).

Lemma get_root_eq h i r : kheaproots h !! i = Some r -> get_root i h = Done (r, h).
Proof. unfold get_root. intros ->. done. Qed.

Lemma alloc_from_eq h n : forall w, (n + w = NUM_PAGEREFPAGES)%nat -> length (kheaproots h) = NUM_PAGEREFPAGES ->
  (forall i r, kheaproots h !! i = Some r -> root_ok r) ->
  (alloc_from 0 n w h = Done (0, h) /\ forall i r, kheaproots h !! i = Some r -> (w <= i)%nat -> NPAGEREFS_PER_PAGE <= numinuse r) \/
  exists i r j, (w <= i < NUM_PAGEREFPAGES)%nat /\ kheaproots h !! i = Some r /\ 0 <= j < 256 /\ slot_used r j = false /\ alloc_from 0 n w h = use_root i j h /\
    forall i' r', kheaproots h !! i' = Some r' -> (w <= i' < i)%nat -> NPAGEREFS_PER_PAGE <= numinuse r'.
Proof.
  induction n as [|n IH]; intros w Hn Hl Hok.
  - left. split; [done|]. intros i r Hi Hw. apply lookup_lt_Some in Hi. lia.
  - destruct (lookup_lt_is_Some_2 (kheaproots h) w) as [r Hr]; [lia|]. cbn [alloc_from]. rewrite K_bind_eq, (get_root_eq _ _ _ Hr), Z.geb_leb.
    destruct (Z.leb_spec NPAGEREFS_PER_PAGE (numinuse r)) as [Hf|Hf].
    + destruct (IH (S w)) as [[E H]|(i&r'&j&Hi&Hr'&Hj&Hu&E&H)]; [lia|done..| |]; rewrite E.
      * left. split; [done|]. intros i r' Hi Hw. destruct (decide (i = w)) as [->|]; [by simplify_eq|]. apply (H i); [done|lia].
      * right. exists i, r', j. repeat split; try done; try lia. intros i' r2 Hi' Hw'.
        destruct (decide (i' = w)) as [->|]; [by simplify_eq|]. apply (H i'); [done|lia].
    + destruct (scan_root r (Hok _ _ Hr) Hf) as (j&Hj&Hu&->). right. exists w, r, j. repeat split; try done; try lia.
      unfold use_root. rewrite (K_bind_eq (get_root w)), (get_root_eq _ _ _ Hr). done.
Qed.

(** ** Page allocation *)

Definition exhausted (s : vm) : Prop := lastpaddr s < firstpaddr s + PAGE_SIZE.
Definition steal (n : Z) (s : vm) : vm := set_first (firstpaddr s + n * PAGE_SIZE) s.
Definition top (s : vm) : Z := MIPS_KSEG0 + firstpaddr s.

Lemma alloc_kpages_eq n s : vm_ok s -> 0 < n < 2 ^ 19 ->
  alloc_kpages 0 n s = if bool_decide (firstpaddr s + n * PAGE_SIZE <= lastpaddr s) then Done (top s, steal n s) else Done (0, s).
Proof.
  intros Hs Hn. unfold alloc_kpages, dumbvm_can_sleep, kassert, getppages. krun. rewrite stealmem_eq by done. case_bool_decide; [|done].
  destruct Hs as (Hf&_&Hl). destruct (Z.eqb_spec (firstpaddr s) 0); [lia|]. krun. unfold PADDR_TO_KVADDR, top.
  rewrite u32_small by hlia. by rewrite Z.add_comm.
Qed.

Lemma vm_ok_top s : vm_ok s -> MIPS_KSEG0 < top s <= MIPS_KSEG0 + 2 ^ 29 /\ top s mod PAGE_SIZE = 0.
Proof. intros (H1&H2&H3). unfold top. hlia. Qed.

(** ** The invariant of the pageref pages; [used] lists the pagerefs that are taken *)

Record roots_ok (s : vm) (roots : list kheap_root) (used : list Z) : Prop := mkRootsOk {
  rs_len : length roots = NUM_PAGEREFPAGES;
  rs_ok : forall w r, roots !! w = Some r -> root_ok r;
  rs_page : forall w r, roots !! w = Some r -> root_page r <> 0 ->
    root_page r mod PAGE_SIZE = 0 /\ MIPS_KSEG0 < root_page r /\ root_page r + PAGE_SIZE <= top s;
  rs_out : forall w r, roots !! w = Some r -> root_page r = 0 -> numinuse r <> 0 -> exhausted s;
  rs_order : forall w w' r r', (w' < w)%nat -> roots !! w = Some r -> roots !! w' = Some r' -> root_page r <> 0 -> root_page r' <> 0;
  rs_distinct : forall w w' r r', roots !! w = Some r -> roots !! w' = Some r' -> root_page r <> 0 -> root_page r = root_page r' -> w = w';
  rs_used : forall w r j, roots !! w = Some r -> root_page r <> 0 -> 0 <= j < 256 ->
    slot_used r j = true <-> root_page r + j * 16 ∈ used;
  rs_placed : forall p, p ∈ used -> exists w r j, roots !! w = Some r /\ root_page r <> 0 /\ 0 <= j < 256 /\ p = root_page r + j * 16 }.

Definition root_pages (roots : list kheap_root) : list Z := filter (fun p => p <> 0) (root_page <$> roots).

Lemma root_pages_same roots w r r' : roots !! w = Some r -> root_page r' = root_page r -> root_pages (<[w := r']> roots) = root_pages roots.
Proof.
  intros Hr E. unfold root_pages. rewrite list_fmap_insert, E, list_insert_id; [done|]. by rewrite list_lookup_fmap, Hr.
Qed.

Lemma root_pages_new roots w r r' : roots !! w = Some r -> root_page r = 0 -> root_page r' <> 0 ->
  root_pages (<[w := r']> roots) ≡ₚ root_page r' :: root_pages roots.
Proof.
  intros Hr E Hp. rewrite <- (take_drop_middle roots w r Hr) at 2. rewrite insert_take_drop by by eapply lookup_lt_Some.
  unfold root_pages. rewrite !fmap_app, !filter_app, !fmap_cons, !filter_cons, E. rewrite decide_True by done. rewrite decide_False by naive_solver.
  by rewrite Permutation_middle.
Qed.

(** An entry of one page is not on another. *)
Lemma entries_apart s roots used w w' r r' j : roots_ok s roots used -> roots !! w = Some r -> roots !! w' = Some r' -> w <> w' ->
  root_page r <> 0 -> root_page r' <> 0 -> 0 <= j < 256 ->
  root_page r + j * 16 < root_page r' \/ root_page r' + PAGE_SIZE <= root_page r + j * 16.
Proof.
  intros H Hr Hr' Hw Hp Hp' Hj. destruct (rs_page _ _ _ H _ _ Hr Hp) as (?&_). destruct (rs_page _ _ _ H _ _ Hr' Hp') as (?&_).
  assert (root_page r <> root_page r') by (intros E; apply Hw; eapply (rs_distinct _ _ _ H); eauto). hlia.
Qed.

(** Taking or giving back entry [j] of page [w]. *)
Lemma roots_change s roots used used' w r r' j b : roots_ok s roots used -> roots !! w = Some r -> root_ok r' -> root_page r <> 0 ->
  root_page r' = root_page r -> slot_set r r' j b -> 0 <= j < 256 ->
  (forall p, p ∈ used' <-> if b then p = root_page r + j * 16 \/ p ∈ used else p <> root_page r + j * 16 /\ p ∈ used) ->
  roots_ok s (<[w := r']> roots) used'.
Proof.
  intros H Hr Hok Hp Hp' Hset Hj Hused.
  assert (forall w1 r1, <[w := r']> roots !! w1 = Some r1 -> (w1 = w /\ r1 = r') \/ (w1 <> w /\ roots !! w1 = Some r1)) as Hlk.
  { intros w1 r1 [(<-&->&_)|[? ?]]%list_lookup_insert_Some; auto. }
  destruct H as [H1 H2 H3 H4 H5 H6 H7 H8]. pose proof (mkRootsOk _ _ _ H1 H2 H3 H4 H5 H6 H7 H8) as H. split.
  - by rewrite length_insert.
  - intros w1 r1 [[-> ->]|[_ ?]]%Hlk; eauto.
  - intros w1 r1 [[-> ->]|[_ ?]]%Hlk ?; [rewrite Hp'|]; eauto.
  - intros w1 r1 [[-> ->]|[_ ?]]%Hlk; [congruence|eauto].
  - intros w1 w2 r1 r2 Hlt [[-> ->]|[_ ?]]%Hlk [[-> ->]|[_ ?]]%Hlk ?; try congruence; [eapply (H5 w w2); eauto|eauto].
  - intros w1 w2 r1 r2 [[-> ->]|[_ ?]]%Hlk [[-> ->]|[_ ?]]%Hlk ? ?; try done; [eapply (H6 w w2)|eapply (H6 w1 w)|]; eauto; congruence.
  - intros w1 r1 j1 [[-> ->]|[Hne Hr1]]%Hlk Hnz Hj1.
    + rewrite Hset, Hused, Hp' by done. destruct (Z.eqb_spec j1 j) as [->|Hne]; [destruct b; naive_solver|].
      rewrite (H7 w r j1) by done. destruct b; naive_solver lia.
    + rewrite (H7 w1 r1 j1), Hused by done. destruct (entries_apart _ _ _ _ _ _ _ j1 H Hr1 Hr Hne Hnz Hp Hj1) as [?|?]; destruct b; naive_solver hlia.
  - intros p Hpu. rewrite Hused in Hpu.
    assert (p ∈ used -> exists w0 r0 j0, <[w:=r']> roots !! w0 = Some r0 /\ root_page r0 <> 0 /\ 0 <= j0 < 256 /\ p = root_page r0 + j0 * 16) as Hold.
    { intros (w1&r1&j1&Hr1&?&?&?)%H8. destruct (decide (w1 = w)) as [->|Hne]; [|by exists w1, r1, j1; rewrite list_lookup_insert_ne].
      simplify_eq. exists w, r', j1. rewrite list_lookup_insert_eq, Hp' by by eapply lookup_lt_Some. done. }
    destruct b; [destruct Hpu as [->|]; [|by apply Hold]|apply Hold, Hpu].
    exists w, r', j. rewrite list_lookup_insert_eq, Hp' by by eapply lookup_lt_Some. done.
Qed.

(** The page of root [w] has been allocated, at the end of the memory in use. *)
Lemma roots_new_page s roots used w r : roots_ok s roots used -> vm_ok s -> roots !! w = Some r -> root_page r = 0 -> slots r = [] ->
  (forall w' r', (w' < w)%nat -> roots !! w' = Some r' -> root_page r' <> 0) -> firstpaddr s + PAGE_SIZE <= lastpaddr s ->
  roots_ok (steal 1 s) (<[w := mkRoot (top s) (pagerefs_inuse r) (numinuse r)]> roots) used.
Proof.
  intros H Hs Hr Hp Hsl Hbefore Hroom. set (r' := mkRoot (top s) _ _). destruct (vm_ok_top _ Hs) as [Htop Hmod].
  assert (forall w1 r1, <[w := r']> roots !! w1 = Some r1 -> (w1 = w /\ r1 = r') \/ (w1 <> w /\ roots !! w1 = Some r1)) as Hlk.
  { intros w1 r1 [(<-&->&_)|[? ?]]%list_lookup_insert_Some; auto. }
  assert (root_page r' <> 0) as Hp' by (cbn; hlia).
  assert (top (steal 1 s) = top s + PAGE_SIZE) as Etop by (unfold top, steal; cbn; lia).
  destruct H as [H1 H2 H3 H4 H5 H6 H7 H8]. split.
  - by rewrite length_insert.
  - intros w1 r1 [[-> ->]|[_ ?]]%Hlk; [|eauto]. destruct (H2 _ _ Hr). by split.
  - intros w1 r1 [[-> ->]|[_ Hr1]]%Hlk Hnz; rewrite Etop; [cbn; hlia|]. destruct (H3 _ _ Hr1 Hnz) as (?&?&?). hlia.
  - intros w1 r1 [[-> ->]|[_ Hr1]]%Hlk Hz Hn; [done|]. specialize (H4 _ _ Hr1 Hz Hn). unfold exhausted in H4. lia.
  - intros w1 w2 r1 r2 Hlt [[-> ->]|[_ ?]]%Hlk [[-> ->]|[_ ?]]%Hlk ?; try done; [by eapply Hbefore|by eapply (H5 w1 w2)].
  - intros w1 w2 r1 r2 [[-> ->]|[_ Hr1]]%Hlk [[-> ->]|[_ Hr2]]%Hlk Hnz E; try done; [..|by eapply (H6 w1 w2)]; exfalso.
    + cbn in E. destruct (H3 _ _ Hr2) as (?&?&?); [rewrite <- E; exact Hnz|hlia].
    + cbn in E. destruct (H3 _ _ Hr1 Hnz) as (?&?&?). hlia.
  - intros w1 r1 j1 [[-> ->]|[Hne Hr1]]%Hlk Hnz Hj1; [|by eapply H7]. change (slot_used r' j1) with (slot_used r j1). split.
    + intros Hu. assert (j1 ∈ slots r) as Hin by by apply elem_of_slots. rewrite Hsl in Hin. by apply elem_of_nil in Hin.
    + intros (w2&r2&j2&Hr2&Hp2&Hj2&E)%H8. destruct (H3 _ _ Hr2 Hp2) as (?&?&?). cbn in E. hlia.
  - intros p (w1&r1&j1&Hr1&?&?&?)%H8. exists w1, r1, j1. rewrite list_lookup_insert_ne; [done|]. by intros <-; simplify_eq.
Qed.

Lemma roots_no_page s roots used w r r' : roots_ok s roots used -> roots !! w = Some r -> root_page r = 0 -> root_page r' = 0 ->
  root_ok r' -> exhausted s -> roots_ok s (<[w := r']> roots) used.
Proof.
  intros [H1 H2 H3 H4 H5 H6 H7 H8] Hr Hp Hp' Hok Hex.
  assert (forall w1 r1, <[w := r']> roots !! w1 = Some r1 -> (w1 = w /\ r1 = r') \/ (w1 <> w /\ roots !! w1 = Some r1)) as Hlk.
  { intros w1 r1 [(<-&->&_)|[? ?]]%list_lookup_insert_Some; auto. }
  split; [by rewrite length_insert|..].
  - intros w1 r1 [[-> ->]|[_ ?]]%Hlk; eauto.
  - intros w1 r1 [[-> ->]|[_ ?]]%Hlk ?; [done|eauto].
  - done.
  - intros w1 w2 r1 r2 Hlt [[-> ->]|[_ Hr1]]%Hlk [[-> ->]|[_ Hr2]]%Hlk ?; try done; [by apply (H5 w1 w r1 r) in Hr1|by eapply (H5 w1 w2)].
  - intros w1 w2 r1 r2 [[-> ->]|[_ Hr1]]%Hlk [[-> ->]|[_ Hr2]]%Hlk ? E; try congruence. by eapply (H6 w1 w2).
  - intros w1 r1 j1 [[-> ->]|[_ ?]]%Hlk ??; [done|by apply (H7 w1)].
  - intros p (w1&r1&j1&Hr1&?&?&?)%H8. exists w1, r1, j1. rewrite list_lookup_insert_ne; [done|]. by intros <-; simplify_eq.
Qed.

(** Every entry of every pageref page is in use. *)
Definition refs_full (roots : list kheap_root) : Prop := forall w r, roots !! w = Some r -> NPAGEREFS_PER_PAGE <= numinuse r.

Definition with_roots (s : vm) (roots : list kheap_root) (h : kheap) : kheap := mkHeap s (refs h) roots (sizebases h) (allbase h).

Lemma allocpagerefpage_eq h w r : kheaproots h !! w = Some r -> root_page r = 0 -> vm_ok (h_vm h) ->
  allocpagerefpage 0 w h = if bool_decide (firstpaddr (h_vm h) + 1 * PAGE_SIZE <= lastpaddr (h_vm h))
    then Done (tt, with_roots (steal 1 (h_vm h)) (<[w := mkRoot (top (h_vm h)) (pagerefs_inuse r) (numinuse r)]> (kheaproots h)) h)
    else Done (tt, h).
Proof.
  intros Hr Hp Hs. unfold allocpagerefpage. krun. rewrite (get_root_eq _ _ _ Hr). krun. unfold kassert. rewrite Hp. krun.
  unfold vmcall, zoom. rewrite alloc_kpages_eq by done. case_bool_decide; krun; [|by destruct h].
  destruct (vm_ok_top _ Hs) as [Ht Hm]. destruct (Z.eqb_spec (top (h_vm h)) 0); [hlia|]. rewrite Hm. krun.
  rewrite (get_root_eq _ _ r) by done. krun. rewrite Hp. krun. done.
Qed.

Lemma allocpageref_eq h used : roots_ok (h_vm h) (kheaproots h) used -> vm_ok (h_vm h) ->
  exists p s' roots', allocpageref 0 h = Done (p, with_roots s' roots' h) /\
   ((p = 0 /\ s' = h_vm h /\ roots_ok s' roots' used /\ root_pages roots' = root_pages (kheaproots h) /\
      (exhausted s' \/ refs_full (kheaproots h))) \/
    (0 < p < 2 ^ 32 /\ (p ∉ used) /\ roots_ok s' roots' (p :: used) /\
      ((s' = h_vm h /\ root_pages roots' = root_pages (kheaproots h)) \/
       (s' = steal 1 (h_vm h) /\ firstpaddr (h_vm h) + PAGE_SIZE <= lastpaddr (h_vm h) /\
        root_pages roots' ≡ₚ top (h_vm h) :: root_pages (kheaproots h))))).
Proof.
  intros H Hs. destruct (alloc_from_eq h NUM_PAGEREFPAGES 0 eq_refl (rs_len _ _ _ H) (rs_ok _ _ _ H)) as [[E Hfull]|(w&r&j&Hw&Hr&Hj&Hu&E&Hbefore)];
    unfold allocpageref; rewrite E; clear E.
  { exists 0, (h_vm h), (kheaproots h). split; [by destruct h|]. left. split; [done|]. split; [done|]. split; [done|]. split; [done|].
    right. intros w r Hr. apply (Hfull w); [done|lia]. }
  destruct (vm_ok_top _ Hs) as [Htop Hmod]. pose proof (rs_ok _ _ _ H _ _ Hr) as Hok.
  set (r1 := mkRoot (root_page r) (set_word (j / 32) (Z.shiftl 1 (j mod 32)) Z.lor r) (u32 (numinuse r + 1))).
  destruct (set_slot r j (root_page r) _ Hok Hj Hu eq_refl) as [Hok1 Hset]. fold r1 in Hok1, Hset.
  assert (w < length (kheaproots h))%nat as Hlen by by eapply lookup_lt_Some.
  assert ((j / 32 * 32 + j mod 32) * sizeof_pageref = j * 16) as Hj16 by (unfold sizeof_pageref; lia).
  unfold use_root. krun. rewrite (get_root_eq _ _ _ Hr). krun. cbn [put_root modify]. fold r1.
  set (h1 := set_roots _ h). assert (kheaproots h1 !! w = Some r1) as Hr1 by (cbn; by rewrite list_lookup_insert_eq).
  destruct (Z.eqb_spec (root_page r) 0) as [Hz|Hnz]; cbn [negb].
  - krun. rewrite (allocpagerefpage_eq h1 w r1 Hr1 Hz Hs). change (h_vm h1) with (h_vm h). case_bool_decide as Hroom; krun.
    + assert (numinuse r = 0) as Hn0 by (destruct (decide (numinuse r = 0)) as [|Hn]; [done|]; pose proof (rs_out _ _ _ H _ _ Hr Hz Hn) as Hex; unfold exhausted in Hex; lia).
      assert (slots r = []) as Hsl by (destruct Hok as [_ _ Hn]; apply nil_length_inv; lia).
      set (r2 := mkRoot (top (h_vm h)) (pagerefs_inuse r1) (numinuse r1)).
      rewrite (get_root_eq _ w r2) by (cbn; by rewrite list_insert_insert_eq, list_lookup_insert_eq). krun. cbn [root_page r2].
      destruct (Z.eqb_spec (top (h_vm h)) 0); [hlia|]. rewrite Hj16, u32_small by hlia.
      eexists _, (steal 1 (h_vm h)), (<[w := r2]> (kheaproots h)). split; [unfold with_roots, h1; cbn; by rewrite list_insert_insert_eq|]. right.
      assert (roots_ok (steal 1 (h_vm h)) (<[w := mkRoot (top (h_vm h)) (pagerefs_inuse r) (numinuse r)]> (kheaproots h)) used) as H2.
      { apply roots_new_page; try done. intros w' r' Hlt Hr' Hz'. specialize (Hbefore w' r' Hr' ltac:(lia)). change NPAGEREFS_PER_PAGE with 256 in Hbefore.
        pose proof (rs_out _ _ _ H _ _ Hr' Hz' ltac:(lia)) as Hex. unfold exhausted in Hex. lia. }
      split; [hlia|]. split; [|split].
      * intros (w'&r'&j'&Hr'&Hp'&?&Heq)%(rs_placed _ _ _ H). destruct (rs_page _ _ _ H _ _ Hr' Hp') as (?&?&?). hlia.
      * rewrite <- (list_insert_insert_eq (kheaproots h) w r2 (mkRoot (top (h_vm h)) (pagerefs_inuse r) (numinuse r))).
        eapply (roots_change _ _ used _ w _ r2 j true); [exact H2|by rewrite list_lookup_insert_eq|..]; cbn [root_page]; try done.
        -- destruct Hok1 as [???]. by split.
        -- intros p. cbn. rewrite elem_of_cons. done.
      * right. split; [done|]. split; [lia|]. apply (root_pages_new _ _ r); [done..|cbn; hlia].
    + rewrite (get_root_eq _ w r1) by done. krun. cbn [root_page r1]. rewrite Hz. krun.
      assert (exhausted (h_vm h)) as Hex by (unfold exhausted; lia).
      exists 0, (h_vm h), (<[w := r1]> (kheaproots h)). split; [done|]. left. split; [done|]. split; [done|]. split.
      * by eapply roots_no_page.
      * split; [by apply (root_pages_same _ _ r)|]. by left.
  - krun. rewrite (get_root_eq _ w r1) by done. krun. cbn [root_page r1]. destruct (Z.eqb_spec (root_page r) 0); [done|].
    destruct (rs_page _ _ _ H _ _ Hr Hnz) as (?&?&?). rewrite Hj16, u32_small by hlia.
    exists (root_page r + j * 16), (h_vm h), (<[w := r1]> (kheaproots h)). split; [done|]. right. split; [hlia|]. split; [|split].
    + rewrite <- (rs_used _ _ _ H _ _ _ Hr Hnz Hj). by rewrite Hu.
    + eapply (roots_change _ _ used _ w _ r1 j true); eauto. intros p. by rewrite elem_of_cons.
    + left. split; [done|]. by apply (root_pages_same _ _ r).
Qed.

Lemma free_from_skip h used p w0 r0 j0 n : forall w, roots_ok (h_vm h) (kheaproots h) used -> vm_ok (h_vm h) ->
  kheaproots h !! w0 = Some r0 -> root_page r0 <> 0 -> 0 <= j0 < 256 -> p = root_page r0 + j0 * 16 ->
  (w + n = w0)%nat -> forall m, free_from (n + m) w p h = free_from m w0 p h.
Proof.
  induction n as [|n IH]; intros w H Hs Hr Hp Hj Hpe Hw m; [by replace w with w0 by lia|].
  destruct (lookup_lt_is_Some_2 (kheaproots h) w) as [r Hrw]; [apply lookup_lt_Some in Hr; lia|].
  cbn [Nat.add free_from]. rewrite K_bind_eq, (get_root_eq _ _ _ Hrw).
  pose proof (rs_order _ _ _ H w0 w r0 r ltac:(lia) Hr Hrw Hp) as Hnz. destruct (Z.eqb_spec (root_page r) 0); [done|].
  destruct (rs_page _ _ _ H _ _ Hrw Hnz) as (?&?&?). destruct (rs_page _ _ _ H _ _ Hr Hp) as (?&?&?). destruct (vm_ok_top _ Hs) as [Htop _].
  assert (NPAGEREFS_PER_PAGE <= u32 ((p - root_page r) / sizeof_pageref)) as Hge.
  { change NPAGEREFS_PER_PAGE with 256. change sizeof_pageref with 16. unfold u32.
    destruct (entries_apart _ _ _ w0 w r0 r j0 H Hr Hrw ltac:(lia) Hp Hnz Hj) as [?|?]; hlia. }
  rewrite (proj2 (Z.ltb_ge _ _) Hge). apply IH; auto; lia.
Qed.

Lemma freepageref_eq h used used' p : roots_ok (h_vm h) (kheaproots h) used -> vm_ok (h_vm h) -> p ∈ used ->
  (forall q, q ∈ used' <-> q <> p /\ q ∈ used) ->
  exists roots', freepageref p h = Done (tt, set_roots roots' h) /\ roots_ok (h_vm h) roots' used' /\ root_pages roots' = root_pages (kheaproots h).
Proof.
  intros H Hs Hp Hused. destruct (rs_placed _ _ _ H _ Hp) as (w&r&j&Hr&Hnz&Hj&Hpe).
  assert (w < NUM_PAGEREFPAGES)%nat as Hw by (rewrite <- (rs_len _ _ _ H); by eapply lookup_lt_Some).
  unfold freepageref. replace NUM_PAGEREFPAGES with (w + S (NUM_PAGEREFPAGES - S w))%nat by lia.
  rewrite (free_from_skip h used p w r j w 0 H Hs Hr Hnz Hj Hpe) by lia. cbn [free_from].
  rewrite K_bind_eq, (get_root_eq _ _ _ Hr). destruct (Z.eqb_spec (root_page r) 0); [done|].
  replace (u32 ((p - root_page r) / sizeof_pageref)) with j by (rewrite Hpe; change sizeof_pageref with 16; rewrite u32_small; lia).
  change NPAGEREFS_PER_PAGE with 256. rewrite (proj2 (Z.ltb_lt j 256)) by lia.
  assert (slot_used r j = true) as Hu by (apply (rs_used _ _ _ H _ _ _ Hr Hnz Hj); by rewrite <- Hpe).
  destruct (clear_slot r j (rs_ok _ _ _ H _ _ Hr) Hj Hu) as (Hok&Hset&Hn). pose proof (rs_ok _ _ _ H _ _ Hr) as [Hl Hwd _].
  destruct (lookup_lt_is_Some_2 (pagerefs_inuse r) (Z.to_nat (j / 32))) as [v Hv]; [rewrite Hl; unfold INUSE_WORDS; lia|].
  rewrite mask_eq by lia. krun. rewrite Hv. krun. unfold kassert. rewrite land_shiftl_bit by lia.
  unfold slot_used in Hu. rewrite nth_lookup, Hv in Hu. cbn [default from_option id] in Hu. rewrite Hu. krun.
  rewrite Z.gtb_ltb, (proj2 (Z.ltb_lt _ _) Hn). krun. eexists. split; [reflexivity|]. split.
  - eapply (roots_change _ _ _ _ w r _ j false); eauto. intros q. by rewrite Hused, Hpe.
  - by apply (root_pages_same _ _ r).
Qed.

(** ** The invariant of the heap *)

Definition big_pages (b : Z * Z) : list Z := (fun i => fst b + i * PAGE_SIZE) <$> seqZ 0 (snd b).
(** The pages in use: of blocks, of pagerefs, and of the allocations of whole pages. *)
Definition owned (L : list hpage) (roots : list kheap_root) (big : list (Z * Z)) : list Z :=
  (g_addr <$> L) ++ root_pages roots ++ (big ≫= big_pages).
Definition in_ram (s : vm) (a : Z) : Prop := a mod PAGE_SIZE = 0 /\ MIPS_KSEG0 < a /\ a + PAGE_SIZE <= top s.

Record heap_ok (h : kheap) (L : list hpage) (big : list (Z * Z)) : Prop := mkHeapOk {
  ho_vm : vm_ok (h_vm h);
  ho_lists : lists_ok (refs h) (sizebases h) (allbase h) L;
  ho_pages : Forall (page_good (h_vm h)) L;
  ho_roots : roots_ok (h_vm h) (kheaproots h) (g_ref <$> L);
  ho_big : Forall (fun b => 0 < snd b) big;
  ho_owned : NoDup (owned L (kheaproots h) big);
  ho_range : Forall (in_ram (h_vm h)) (owned L (kheaproots h) big) }.

(** The blocks in use, with their sizes. *)
Definition live (L : list hpage) (big : list (Z * Z)) (a n : Z) : Prop :=
  (exists P o, P ∈ L /\ a = g_addr P + o /\ is_block (psize P) o /\ (o ∉ g_free P) /\ n = psize P) \/
  (exists k, (a, k) ∈ big /\ n = k * PAGE_SIZE).

Lemma elem_of_big_pages b p : p ∈ big_pages b <-> exists i, 0 <= i < snd b /\ p = fst b + i * PAGE_SIZE.
Proof. unfold big_pages. rewrite list_elem_of_fmap. setoid_rewrite elem_of_seqZ. split; intros (i&?&?); exists i; (split; [lia|done]) || (split; [done|lia]). Qed.

Section Blocks.
Context (h : kheap) (L : list hpage) (big : list (Z * Z)).
Hypothesis Hok : heap_ok h L big.

Lemma page_of P : P ∈ L -> page_good (h_vm h) P.
Proof. intros HP. by apply (proj1 (Forall_forall _ _) (ho_pages _ _ _ Hok)). Qed.

Lemma heap_described : described h L.
Proof. intros P HP. split; [by apply page_of|]. by apply (li_data _ _ _ _ (ho_lists _ _ _ Hok)). Qed.

Lemma page_inj P Q : P ∈ L -> Q ∈ L -> g_addr P = g_addr Q -> P = Q.
Proof.
  intros HP HQ. pose proof (ho_owned _ _ _ Hok) as H. apply NoDup_app in H as (H&_). by eapply NoDup_fmap_eq.
Qed.

Lemma page_not_big P b : P ∈ L -> b ∈ big -> g_addr P ∉ big_pages b.
Proof.
  intros HP Hb Hin. pose proof (ho_owned _ _ _ Hok) as H. apply NoDup_app in H as (_&H&_).
  apply (H (g_addr P)); [by apply list_elem_of_fmap_2|]. apply elem_of_app. right. apply list_elem_of_bind. eauto.
Qed.

Lemma big_inj b b' p : b ∈ big -> b' ∈ big -> p ∈ big_pages b -> p ∈ big_pages b' -> b = b'.
Proof.
  intros Hb Hb'. pose proof (ho_owned _ _ _ Hok) as H. apply NoDup_app in H as (_&_&H). apply NoDup_app in H as (_&_&H). by eapply NoDup_bind_eq.
Qed.

Lemma big_range b p : b ∈ big -> p ∈ big_pages b -> in_ram (h_vm h) p.
Proof.
  intros Hb Hp. apply (proj1 (Forall_forall _ _) (ho_range _ _ _ Hok)). unfold owned. rewrite !elem_of_app. right. right. apply list_elem_of_bind. eauto.
Qed.

Lemma block_page P o x : P ∈ L -> is_block (psize P) o -> g_addr P + o <= x < g_addr P + o + psize P -> page x = g_addr P.
Proof.
  intros HP Ho Hx. destruct (page_of P HP) as [Ht Ha Hr _ _ _]. destruct (block_bounds _ _ Ht Ho). unfold psize in *. rewrite page_eq. hlia.
Qed.

Lemma big_page a k x : (a, k) ∈ big -> a <= x < a + k * PAGE_SIZE -> page x ∈ big_pages (a, k).
Proof.
  intros Hb Hx. assert (0 < k) as Hk by (pose proof (proj1 (Forall_forall _ _) (ho_big _ _ _ Hok) _ Hb); done).
  destruct (big_range (a, k) a Hb) as (Ha&_&_); [apply elem_of_big_pages; exists 0; cbn; lia|].
  apply elem_of_big_pages. exists ((x - a) / PAGE_SIZE). cbn. rewrite page_eq. hlia.
Qed.

(** No byte is in two blocks. *)
Lemma live_apart a n a' n' x : live L big a n -> live L big a' n' -> a <= x < a + n -> a' <= x < a' + n' -> a = a' /\ n = n'.
Proof.
  intros [(P&o&HP&->&Ho&Hf&->)|(k&Hk&->)] [(Q&o'&HQ&->&Ho'&Hf'&->)|(k'&Hk'&->)] Hx Hx'.
  - pose proof (block_page P o x HP Ho Hx) as E. rewrite (block_page Q o' x HQ Ho' Hx') in E. assert (P = Q) as <- by by apply page_inj.
    destruct (size_facts _ (pg_type _ _ (page_of P HP))) as (_&_&_&_&?&_). unfold psize in *. destruct (decide (o = o')) as [->|Hne]; [done|].
    destruct (blocks_apart (block_size (g_type P)) o o' ltac:(lia) Ho Ho' Hne); lia.
  - pose proof (block_page P o x HP Ho Hx) as E. pose proof (big_page _ _ x Hk' Hx') as Hin. rewrite E in Hin. by apply (page_not_big P) in Hin.
  - pose proof (block_page Q o' x HQ Ho' Hx') as E. pose proof (big_page _ _ x Hk Hx) as Hin. rewrite E in Hin. by apply (page_not_big Q) in Hin.
  - pose proof (big_page _ _ x Hk Hx) as H1. pose proof (big_page _ _ x Hk' Hx') as H2. pose proof (big_inj _ _ _ Hk Hk' H1 H2) as [= -> ->]. done.
Qed.

(** No byte of a block in use is in a free block. *)
Lemma free_apart a n x P o i : live L big a n -> a <= x < a + n -> P ∈ L -> o ∈ g_free P -> 0 <= i < psize P -> g_addr P + o + i <> x.
Proof.
  intros Hl Hx HP Ho Hi Hc.
  assert (is_block (psize P) o) as Hb by (apply (proj1 (Forall_forall _ _) (pg_blocks _ _ (page_of P HP))); done).
  assert (page x = g_addr P) as E by (apply (block_page P o); [done..|lia]).
  destruct Hl as [(Q&o'&HQ&->&Ho'&Hf'&->)|(k&Hk&->)].
  - rewrite (block_page Q o' x HQ Ho' Hx) in E. assert (Q = P) as -> by by apply page_inj.
    assert (o <> o') as Hne by (by intros ->). destruct (size_facts _ (pg_type _ _ (page_of P HP))) as (_&_&_&_&?&_). unfold psize in *.
    destruct (blocks_apart (block_size (g_type P)) o o' ltac:(lia) Hb Ho' Hne); lia.
  - pose proof (big_page _ _ x Hk Hx) as Hin. rewrite E in Hin. by apply (page_not_big P) in Hin.
Qed.

Lemma psize_16 P : P ∈ L -> 16 <= psize P.
Proof. intros HP. destruct (size_facts _ (pg_type _ _ (page_of P HP))) as (_&_&_&_&?&_). unfold psize. lia. Qed.

(** A block is in the memory that is in use, and is aligned. *)
Lemma live_range a n : live L big a n -> MIPS_KSEG0 < a /\ a + n <= top (h_vm h) /\ a mod 16 = 0 /\ 16 <= n.
Proof.
  intros [(P&o&HP&->&Ho&_&->)|(k&Hk&->)].
  - pose proof (page_of P HP) as Hg. destruct (block_bounds _ _ (pg_type _ _ Hg) Ho). destruct (size_facts _ (pg_type _ _ Hg)) as (_&_&_&_&?&Hm).
    assert (in_ram (h_vm h) (g_addr P)) as (?&?&?).
    { apply (proj1 (Forall_forall _ _) (ho_range _ _ _ Hok)). unfold owned. rewrite elem_of_app. left. by apply list_elem_of_fmap_2. }
    unfold psize in *. repeat split; try hlia. destruct Ho as (i&->&_). apply Z.mod_divide in Hm as [c Hc]; [|lia]. rewrite Hc.
    replace (c * 16 * i) with (c * i * 16) by lia. rewrite Z.mod_add by lia. hlia.
  - assert (0 < k) as Hk0 by (pose proof (proj1 (Forall_forall _ _) (ho_big _ _ _ Hok) _ Hk); done).
    destruct (big_range (a, k) a Hk) as (Ha&?&_); [apply elem_of_big_pages; exists 0; cbn; lia|].
    destruct (big_range (a, k) (a + (k - 1) * PAGE_SIZE) Hk) as (_&_&?); [apply elem_of_big_pages; exists (k - 1); cbn; lia|].
    hlia.
Qed.
End Blocks.

(** ** The lists change *)

Lemma of_type_with b l P L1 L2 : g_ref <$> of_type b (L1 ++ with_free l P :: L2) = g_ref <$> of_type b (L1 ++ P :: L2).
Proof. unfold of_type. rewrite !filter_app, !filter_cons, !fmap_app. by destruct (decide (g_type P = b)), (decide (g_type (with_free l P) = b)). Qed.

Lemma of_type_cons b P L : of_type b (P :: L) = if decide (g_type P = b) then P :: of_type b L else of_type b L.
Proof. unfold of_type. by rewrite filter_cons. Qed.

Lemma elem_of_of_type b P L : P ∈ of_type b L <-> g_type P = b /\ P ∈ L.
Proof. unfold of_type. by rewrite list_elem_of_filter. Qed.

(** The free list of one page changes. *)
Lemma lists_change m sb ab L1 P L2 x x' l : lists_ok m sb ab (L1 ++ P :: L2) -> m !! g_ref P = Some x ->
  next_all x' = next_all x -> next_samesize x' = next_samesize x -> describes x' (with_free l P) ->
  lists_ok (<[g_ref P := x']> m) sb ab (L1 ++ with_free l P :: L2).
Proof.
  intros [H1 H2 H3 H4 H5] Hx Ea Es Hd.
  assert (g_ref <$> (L1 ++ with_free l P :: L2) = g_ref <$> (L1 ++ P :: L2)) as Er by (rewrite !fmap_app; done).
  assert (forall next : pageref -> Z, next x' = next x -> forall q, next <$> m !! q = next <$> <[g_ref P := x']> m !! q) as Hsame.
  { intros next En q. destruct (decide (q = g_ref P)) as [->|]; [by rewrite lookup_insert_eq, Hx; cbn; rewrite En|by rewrite lookup_insert_ne]. }
  split; [|done|..].
  - rewrite Er. eapply linked_ext; [|exact H1]. auto.
  - intros b p Hb Hp. rewrite of_type_with. eapply linked_ext; [|by eapply H3]. auto.
  - rewrite fmap_app, NoDup_app in H5. destruct H5 as (_&Hdis&Hn2). cbn in Hn2. apply NoDup_cons in Hn2 as [Hn2 _].
    assert (forall Q, Q ∈ L1 \/ Q ∈ L2 -> exists y, <[g_ref P := x']> m !! g_ref Q = Some y /\ describes y Q) as Hother.
    { intros Q HQ. rewrite lookup_insert_ne.
      - apply H4. rewrite elem_of_app, elem_of_cons. tauto.
      - intros E. destruct HQ as [HQ|HQ]; [destruct (Hdis (g_ref Q)); [by apply list_elem_of_fmap_2|rewrite <- E; left]|].
        destruct Hn2. rewrite E. by apply list_elem_of_fmap_2. }
    intros Q. rewrite elem_of_app, elem_of_cons. intros [HQ|[->|HQ]]; auto. exists x'. by rewrite lookup_insert_eq.
  - by rewrite Er.
Qed.

(** A new page comes first. *)
Lemma lists_push m sb ab L P x : lists_ok m sb ab L -> 0 <= g_type P < NSIZES -> g_ref P <> 0 -> g_ref P ∉ g_ref <$> L -> describes x P ->
  next_all x = ab -> sb !! Z.to_nat (g_type P) = Some (next_samesize x) ->
  lists_ok (<[g_ref P := x]> m) (<[Z.to_nat (g_type P) := g_ref P]> sb) (g_ref P) (P :: L).
Proof.
  intros [H1 H2 H3 H4 H5] Ht Hnz Hnew Hd Ha Hs.
  assert (forall next p l, linked next m p l -> (forall q, q ∈ l -> q ∈ g_ref <$> L) -> linked next (<[g_ref P := x]> m) p l) as Hext.
  { intros next p l Hl Hin. eapply linked_ext; [|exact Hl]. intros q Hq. rewrite lookup_insert_ne; [done|]. intros <-. by apply Hnew, Hin. }
  assert (forall b q, q ∈ g_ref <$> of_type b L -> q ∈ g_ref <$> L) as Hsub.
  { intros b q (Q&->&HQ)%list_elem_of_fmap. apply list_elem_of_fmap_2. by apply elem_of_of_type in HQ as [_ ?]. }
  split.
  - cbn. split; [done|]. split; [done|]. exists x. rewrite lookup_insert_eq. split; [done|]. apply Hext; [by rewrite Ha|done].
  - by rewrite length_insert.
  - intros b p Hb Hp. rewrite of_type_cons. destruct (decide (g_type P = b)) as [<-|Hne].
    + rewrite list_lookup_insert_eq in Hp by (rewrite H2; hlia). injection Hp as <-. cbn. split; [done|]. split; [done|].
      exists x. rewrite lookup_insert_eq. split; [done|]. apply Hext; [by apply H3|by apply Hsub].
    + rewrite list_lookup_insert_ne in Hp by hlia. apply Hext; [by apply H3|by apply Hsub].
  - intros Q [->|HQ]%elem_of_cons; [exists x; by rewrite lookup_insert_eq|]. destruct (H4 Q HQ) as (y&?&?). exists y.
    rewrite lookup_insert_ne; [done|]. intros E. apply Hnew. rewrite E. by apply list_elem_of_fmap_2.
  - cbn. by apply NoDup_cons.
Qed.

(** One pass of [remove_lists]: what is in the list's cells afterwards. *)
Lemma remove_pass c fuel p h l1 pr l2 : read_cell c h = Done (p, h) -> linked (next_of c) (refs h) p (l1 ++ pr :: l2) -> NoDup (l1 ++ pr :: l2) ->
  (length l1 < fuel)%nat -> exists x, refs h !! pr = Some x /\
  match last l1 with
  | None => linked (next_of c) (refs h) (next_of c x) l2 /\ remove_from fuel c pr h = write_cell c (next_of c x) h
  | Some a => exists y, refs h !! a = Some y /\ linked (next_of c) (<[a := with_next c (next_of c x) y]> (refs h)) p (l1 ++ l2) /\
      remove_from fuel c pr h = Done (tt, set_refs (<[a := with_next c (next_of c x) y]> (refs h)) h)
  end.
Proof.
  intros Hr Hl Hn Hf. pose proof Hn as Hn'. apply NoDup_app in Hn' as (Hn1&Hd&Hn2). apply NoDup_cons in Hn2 as [Hpr Hn2].
  destruct (remove_from_eq pr l1 l2 fuel c p h Hr Hl) as (x&Hx&Hl2&E); [by intros Hin; destruct (Hd pr Hin); left|done|].
  exists x. split; [done|]. destruct (last l1) as [a|] eqn:Ela; [|done]. apply last_Some in Ela as [l ->].
  rewrite <- app_assoc in Hl. cbn [app] in Hl. pose proof (linked_app _ _ _ (l ++ [a]) _ ltac:(rewrite <- app_assoc; exact Hl)) as Hy.
  rewrite last_snoc in Hy. destruct Hy as (y&Hy&_). exists y. split; [done|]. split.
  - rewrite <- app_assoc. cbn [app]. eapply linked_cut; [exact Hl|..].
    + apply NoDup_app in Hn1 as (_&Hn1&_). intros Hin. by apply (Hn1 a Hin); left.
    + intros Hin. apply (Hd a); [apply elem_of_app; right; left|by right].
    + destruct c; exact Hl2.
  - rewrite E. cbn [from_option]. by apply write_next_cell.
Qed.

(** Pagerefs that describe the same pages, whatever their links. *)
Definition same_pages (m m' : gmap Z pageref) : Prop :=
  forall q P x, m !! q = Some x -> describes x P -> exists x', m' !! q = Some x' /\ describes x' P.

Lemma same_pages_with_next m c a q y : m !! a = Some y -> same_pages m (<[a := with_next c q y]> m).
Proof.
  intros Hy q' P x Hx Hd. destruct (decide (q' = a)) as [->|]; [|exists x; by rewrite lookup_insert_ne].
  assert (x = y) as -> by congruence. exists (with_next c q y). rewrite lookup_insert_eq. split; [done|]. destruct c, Hd; by split.
Qed.

Lemma other_with_next {B} (f : pageref -> B) (m : gmap Z pageref) c a q y k : m !! a = Some y -> f (with_next c q y) = f y ->
  f <$> <[a := with_next c q y]> m !! k = f <$> m !! k.
Proof. intros Hy Hf. destruct (decide (k = a)) as [->|]; [by rewrite lookup_insert_eq, Hy; cbn; rewrite Hf|by rewrite lookup_insert_ne]. Qed.

Lemma pass_same fuel b p h l1 pr l2 : sizebases h !! Z.to_nat b = Some p -> linked next_samesize (refs h) p (l1 ++ pr :: l2) ->
  NoDup (l1 ++ pr :: l2) -> (length l1 < fuel)%nat ->
  exists m sb p', remove_from fuel (Base b) pr h = Done (tt, mkHeap (h_vm h) m (kheaproots h) sb (allbase h)) /\ same_pages (refs h) m /\
    (forall q, next_all <$> m !! q = next_all <$> refs h !! q) /\ (forall q, q ∉ l1 -> m !! q = refs h !! q) /\
    sb = <[Z.to_nat b := p']> (sizebases h) /\ linked next_samesize m p' (l1 ++ l2).
Proof.
  intros Hp Hl Hn Hf. assert (read_cell (Base b) h = Done (p, h)) as Hr by (cbn; by rewrite Hp).
  destruct (remove_pass (Base b) fuel p h l1 pr l2 Hr Hl Hn Hf) as (x&Hx&H). destruct (last l1) as [a|] eqn:Ea.
  - destruct H as (y&Hy&Hl'&E). eexists _, (sizebases h), p. rewrite E. split; [reflexivity|]. split; [by apply same_pages_with_next|].
    split; [intros q; by apply other_with_next|]. split; [|by rewrite list_insert_id].
    intros q Hq. rewrite lookup_insert_ne; [done|]. intros <-. apply last_Some in Ea as [l ->]. apply Hq, elem_of_app. right. left.
  - destruct H as [Hl' E]. exists (refs h), (<[Z.to_nat b := next_samesize x]> (sizebases h)), (next_samesize x). rewrite E.
    apply last_None in Ea as ->. split; [reflexivity|]. split; [by intros ????; eauto|]. done.
Qed.

Lemma pass_all fuel h l1 pr l2 : linked next_all (refs h) (allbase h) (l1 ++ pr :: l2) ->
  NoDup (l1 ++ pr :: l2) -> (length l1 < fuel)%nat ->
  exists m ab, remove_from fuel AllBase pr h = Done (tt, mkHeap (h_vm h) m (kheaproots h) (sizebases h) ab) /\ same_pages (refs h) m /\
    (forall q, next_samesize <$> m !! q = next_samesize <$> refs h !! q) /\ linked next_all m ab (l1 ++ l2).
Proof.
  intros Hl Hn Hf. destruct (remove_pass AllBase fuel (allbase h) h l1 pr l2 eq_refl Hl Hn Hf) as (x&Hx&H). destruct (last l1) as [a|] eqn:Ea.
  - destruct H as (y&Hy&Hl'&E). eexists _, (allbase h). rewrite E. split; [reflexivity|]. split; [by apply same_pages_with_next|].
    split; [intros q; by apply other_with_next|]. done.
  - destruct H as [Hl' E]. exists (refs h), (next_all x). rewrite E. apply last_None in Ea as ->. split; [reflexivity|]. split; [by intros ????; eauto|]. done.
Qed.

Lemma of_type_mid b L1 P L2 : g_ref <$> of_type b (L1 ++ P :: L2) =
  (g_ref <$> of_type b L1) ++ (if decide (g_type P = b) then [g_ref P] else []) ++ (g_ref <$> of_type b L2).
Proof. unfold of_type. rewrite filter_app, filter_cons, fmap_app. by destruct (decide (g_type P = b)). Qed.

Lemma of_type_sub b L q : q ∈ g_ref <$> of_type b L -> q ∈ g_ref <$> L.
Proof. intros (Q&->&HQ)%list_elem_of_fmap. apply list_elem_of_fmap_2. by apply elem_of_of_type in HQ as [_ ?]. Qed.

Lemma of_type_NoDup b L : NoDup (g_ref <$> L) -> NoDup (g_ref <$> of_type b L).
Proof.
  induction L as [|P L IH]; [done|]. rewrite fmap_cons, NoDup_cons, of_type_cons. intros [Hn Hl].
  case_decide; [|by apply IH]. rewrite fmap_cons. apply NoDup_cons. split; [|by apply IH]. intros ?%of_type_sub. done.
Qed.

Lemma lists_remove h L1 P L2 : lists_ok (refs h) (sizebases h) (allbase h) (L1 ++ P :: L2) -> 0 <= g_type P < NSIZES ->
  exists m sb ab, remove_lists (g_ref P) (g_type P) h = Done (tt, mkHeap (h_vm h) m (kheaproots h) sb ab) /\ lists_ok m sb ab (L1 ++ L2).
Proof.
  intros Hli Ht. pose proof (lists_fuel _ _ _ _ Hli) as Hf. destruct Hli as [H1 H2 H3 H4 H5].
  assert (length L1 < list_fuel h)%nat as Hf1 by (rewrite length_app in Hf; unfold list_fuel; lia).
  destruct (lookup_lt_is_Some_2 (sizebases h) (Z.to_nat (g_type P))) as [p Hp]; [rewrite H2; hlia|].
  pose proof (H3 _ _ Ht Hp) as Hs. pose proof (of_type_NoDup (g_type P) _ H5) as Hns.
  rewrite of_type_mid, decide_True in Hs, Hns by done. cbn [app] in Hs, Hns.
  destruct (pass_same (list_fuel h) _ _ h _ _ _ Hp Hs Hns) as (m&sb&p'&E1&Hd1&Ha1&Hm1&->&Hl1).
  { rewrite length_fmap. pose proof (of_type_length (g_type P) L1). lia. }
  set (h1 := mkHeap _ m _ _ _) in E1. rewrite fmap_app, fmap_cons in H1, H5.
  destruct (pass_all (list_fuel h) h1 (g_ref <$> L1) (g_ref P) (g_ref <$> L2)) as (m2&ab&E2&Hd2&Hs2&Hl2); [|done|by rewrite length_fmap|].
  { eapply linked_ext; [|exact H1]. intros q _. by rewrite Ha1. }
  exists m2, (<[Z.to_nat (g_type P) := p']> (sizebases h)), ab. split.
  { unfold remove_lists, kassert. rewrite Z.geb_leb, (proj2 (Z.leb_le _ _)), (proj2 (Z.ltb_lt _ _)) by lia. krun. rewrite E1. exact E2. }
  pose proof H5 as Hnd. apply NoDup_app in Hnd as (_&Hdis&Hn2). apply NoDup_cons in Hn2 as [Hn2 _].
  split.
  - by rewrite fmap_app.
  - by rewrite length_insert.
  - intros b q Hb Hq. apply (linked_ext _ m); [intros ??; by rewrite Hs2|]. unfold of_type. rewrite filter_app, fmap_app.
    change (linked next_samesize m q ((g_ref <$> of_type b L1) ++ (g_ref <$> of_type b L2))).
    destruct (decide (b = g_type P)) as [->|Hne].
    + rewrite list_lookup_insert_eq in Hq by (rewrite H2; hlia). by injection Hq as <-.
    + rewrite list_lookup_insert_ne in Hq by hlia. specialize (H3 _ _ Hb Hq). rewrite of_type_mid, decide_False in H3 by done.
      eapply linked_ext; [|exact H3]. intros k Hk. cbn [app] in Hk. rewrite Hm1; [done|].
      intros (Q&->&HQ)%list_elem_of_fmap. apply elem_of_of_type in HQ as [HtQ HQ].
      assert (forall R, R ∈ L1 ++ P :: L2 -> g_ref R = g_ref Q -> R = Q) as Hinj.
      { intros R HR E. apply (NoDup_fmap_eq g_ref (L1 ++ P :: L2)); [by rewrite fmap_app|done| |done]. apply elem_of_app. by left. }
      apply elem_of_app in Hk as [(R&E&HR)%list_elem_of_fmap|(R&E&HR)%list_elem_of_fmap];
        apply elem_of_of_type in HR as [HtR HR]; (assert (R = Q) as -> by (apply Hinj; [rewrite elem_of_app, elem_of_cons; tauto|done])); congruence.
  - intros Q HQ. destruct (H4 Q) as (x&Hx&Hd); [rewrite elem_of_app, elem_of_cons; apply elem_of_app in HQ; tauto|].
    destruct (Hd1 _ _ _ Hx Hd) as (x1&Hx1&Hdx1). exact (Hd2 _ _ _ Hx1 Hdx1).
  - rewrite fmap_app. apply NoDup_app in H5 as (Ha&_&Hb). apply NoDup_cons in Hb as [_ Hb]. apply NoDup_app. split; [done|]. split; [|done].
    intros q Hq1 Hq2. apply (Hdis q Hq1). by right.
Qed.

(** ** Taking a block of a page that has one, and giving one back *)

Lemma heap_ok_change h L1 P L2 big l x x' g : heap_ok h (L1 ++ P :: L2) big -> refs h !! g_ref P = Some x ->
  next_all x' = next_all x -> next_samesize x' = next_samesize x -> describes x' (with_free l P) ->
  Forall (page_good (set_phys g (h_vm h))) (L1 ++ with_free l P :: L2) ->
  heap_ok (mkHeap (set_phys g (h_vm h)) (<[g_ref P := x']> (refs h)) (kheaproots h) (sizebases h) (allbase h)) (L1 ++ with_free l P :: L2) big.
Proof.
  intros [H1 H2 H3 H4 H5 H6 H7] Hx Ea Es Hd Hp.
  assert (forall {B} (f : hpage -> B), f (with_free l P) = f P -> f <$> (L1 ++ with_free l P :: L2) = f <$> (L1 ++ P :: L2)) as Emap.
  { intros B f E. rewrite !fmap_app, !fmap_cons. by rewrite E. }
  split; cbn [h_vm refs kheaproots sizebases allbase]; try done.
  - by eapply lists_change.
  - rewrite (Emap _ g_ref) by done. by destruct H4.
  - unfold owned. by rewrite (Emap _ g_addr).
  - unfold owned. by rewrite (Emap _ g_addr).
Qed.

Lemma pages_change s s' L1 P L2 l : Forall (page_good s) (L1 ++ P :: L2) ->
  (forall Q o i, Q ∈ L1 ++ P :: L2 -> o ∈ g_free Q -> 0 <= i < 4 -> load_byte s (g_addr Q + o + i) = load_byte s' (g_addr Q + o + i)) ->
  page_good s' (with_free l P) -> Forall (page_good s') (L1 ++ with_free l P :: L2).
Proof.
  intros H He HP. rewrite Forall_forall in H |- *. intros Q [->|HQ]%elem_of_middle; [done|].
  assert (Q ∈ L1 ++ P :: L2) as HQ' by (apply elem_of_middle; auto).
  apply (page_good_ext s); [|by apply H]. intros o i ??. by apply He.
Qed.

Lemma u16_small x : 0 <= x < 65536 -> u16 x = x.
Proof. apply Z.mod_small. Qed.

Lemma doalloc_eq h L1 P L2 big o l : heap_ok h (L1 ++ P :: L2) big -> g_free P = o :: l ->
  exists h', doalloc (g_ref P) h = Done (g_addr P + o, h') /\ h_vm h' = h_vm h /\ heap_ok h' (L1 ++ with_free l P :: L2) big.
Proof.
  intros Hok Hfree. assert (P ∈ L1 ++ P :: L2) as HP by (rewrite elem_of_app, elem_of_cons; auto).
  destruct (heap_described _ _ _ Hok P HP) as (Hg&x&Hx&Hd). destruct (describes_addr _ _ _ Hg Hd) as [Hpa Hty].
  pose proof (free_length _ _ Hg) as Hlen. destruct (size_facts _ (pg_type _ _ Hg)) as (n&_&Hn&Hn256&_). unfold psize in Hlen. rewrite Hn in Hlen.
  pose proof Hg as [Ht Ha Hr Hnd Hb Hc]. rewrite Hfree in Hnd, Hb, Hc, Hlen. cbn [length] in Hlen. apply NoDup_cons in Hnd as [Ho Hnd].
  apply Forall_cons in Hb as [Hbo Hb]. destruct Hc as [Hw Hc]. destruct Hd as [Dp Do Dn]. rewrite Hfree in Do, Dn. cbn [length] in Dn.
  destruct (block_bounds _ _ Ht Hbo) as [Ho0 Ho1]. destruct (size_facts _ Ht) as (_&_&_&_&Hsz&_). unfold psize in *.
  assert (page_good (h_vm h) (with_free l P)) as Hg' by by split.
  assert (forall x', next_all x' = next_all x -> next_samesize x' = next_samesize x -> describes x' (with_free l P) ->
    heap_ok (set_refs (<[g_ref P := x']> (refs h)) h) (L1 ++ with_free l P :: L2) big) as Hres.
  { intros x' E1 E2 E3. pose proof (heap_ok_change h L1 P L2 big l x x' (phys (h_vm h)) Hok Hx E1 E2 E3) as H.
    replace (set_phys (phys (h_vm h)) (h_vm h)) with (h_vm h) in H by (by destruct (h_vm h)). apply H.
    apply (pages_change (h_vm h) _ L1 P L2); [by apply (ho_pages _ _ _ Hok)|done|done]. }
  unfold doalloc. krun. rewrite (get_ref_eq _ _ _ Hx). krun. unfold kassert. rewrite Hpa, Do, Dn. rewrite (proj2 (Z.ltb_lt o PAGE_SIZE)) by hlia. krun.
  rewrite (u32_small (g_addr P + o)) by hlia. unfold load. krun. rewrite Hw. replace (u16 (Z.of_nat (S (length l)) - 1)) with (Z.of_nat (length l)) by (rewrite u16_small; lia).
  destruct l as [|o' l]; cbn [first_free].
  - krun. eexists. split; [reflexivity|]. split; [done|]. apply Hres; [done..|]. by split.
  - apply Forall_cons in Hb as [Hbo' Hb]. destruct (block_bounds _ _ Ht Hbo') as [Ho0' Ho1'].
    destruct (Z.eqb_spec (g_addr P + o') 0); [hlia|]. rewrite Z.gtb_ltb, (proj2 (Z.ltb_lt 0 _)) by (cbn; lia). krun.
    replace (u32 (g_addr P + o' - g_addr P)) with o' by (rewrite u32_small; hlia). rewrite (proj2 (Z.ltb_lt o' PAGE_SIZE)) by hlia. krun.
    rewrite u16_small by hlia. eexists. split; [reflexivity|]. split; [done|]. apply Hres; [done..|]. by split.
Qed.

Lemma live_take L1 P L2 big o l a n : g_free P = o :: l -> o ∉ l -> is_block (psize P) o ->
  live (L1 ++ with_free l P :: L2) big a n <-> live (L1 ++ P :: L2) big a n \/ (a = g_addr P + o /\ n = psize P).
Proof.
  intros Hf Ho Hb. unfold live. setoid_rewrite elem_of_middle. split.
  - intros [(Q&o'&[->|HQ]&->&Hbo&Hnf&->)|Hbig].
    + destruct (decide (o' = o)) as [->|]; [by right|]. left. left. exists P, o'. rewrite Hf, elem_of_cons. cbn in Hnf. naive_solver.
    + left. left. exists Q, o'. auto 7.
    + auto.
  - intros [[(Q&o'&[->|HQ]&->&Hbo&Hnf&->)|Hbig]|[-> ->]].
    + left. exists (with_free l P), o'. rewrite Hf, elem_of_cons in Hnf. naive_solver.
    + left. exists Q, o'. auto 7.
    + auto.
    + left. exists (with_free l P), o. auto 7.
Qed.

(** What is in use at the address of a block of a page. *)
Lemma live_block h L big P o n : heap_ok h L big -> P ∈ L -> is_block (psize P) o -> live L big (g_addr P + o) n ->
  (o ∉ g_free P) /\ n = psize P.
Proof.
  intros Hok HP Ho Hl. pose proof (psize_16 _ _ _ Hok P HP). pose proof (block_page _ _ _ Hok P o (g_addr P + o) HP Ho ltac:(lia)) as E.
  pose proof (live_range _ _ _ Hok _ _ Hl) as (_&_&_&Hn).
  destruct Hl as [(Q&o'&HQ&Ea&Ho'&Hf&->)|(k&Hk&->)].
  - pose proof (block_page _ _ _ Hok Q o' (g_addr Q + o') HQ Ho' ltac:(pose proof (psize_16 _ _ _ Hok Q HQ); lia)) as E'.
    rewrite <- Ea, E in E'. assert (P = Q) as <- by by eapply page_inj. by replace o with o' by lia.
  - pose proof (big_page _ _ _ Hok _ _ (g_addr P + o) Hk ltac:(lia)) as Hin. rewrite E in Hin. by eapply (page_not_big _ _ _ Hok P) in Hin.
Qed.

Lemma live_give h L1 P L2 big o a n : heap_ok h (L1 ++ with_free (o :: g_free P) P :: L2) big -> is_block (psize P) o ->
  live (L1 ++ with_free (o :: g_free P) P :: L2) big a n <-> live (L1 ++ P :: L2) big a n /\ a <> g_addr P + o.
Proof.
  intros Hok Hb. set (P' := with_free _ P) in *. split.
  - intros Hl. split.
    + unfold live in *. setoid_rewrite elem_of_middle. setoid_rewrite elem_of_middle in Hl.
      destruct Hl as [(Q&o'&[->|HQ]&->&Hbo&Hnf&->)|Hbig]; [|left; exists Q, o'; auto 7|auto].
      left. exists P, o'. cbn in Hnf. rewrite elem_of_cons in Hnf. naive_solver.
    + intros ->. destruct (live_block _ _ _ P' o n Hok) as [Hnf _]; [apply elem_of_middle; by left|done|done|]. apply Hnf. left.
  - intros [Hl Hne]. unfold live in *. setoid_rewrite elem_of_middle. setoid_rewrite elem_of_middle in Hl.
    destruct Hl as [(Q&o'&[->|HQ]&->&Hbo&Hnf&->)|Hbig]; [|left; exists Q, o'; auto 7|auto].
    left. exists P', o'. cbn. rewrite elem_of_cons. naive_solver.
Qed.

(** ** Memory is written, and pages are taken *)

(** Writes that leave the links of the free blocks alone. *)
Lemma heap_ok_written h L big h' lo hi : heap_ok h L big -> written lo hi h h' ->
  (forall P o i, P ∈ L -> o ∈ g_free P -> 0 <= i < 4 -> g_addr P + o + i < lo \/ hi <= g_addr P + o + i) -> heap_ok h' L big.
Proof.
  intros [H1 H2 H3 H4 H5 H6 H7] [[g ->] Hout] Hfree. split; cbn [h_vm refs kheaproots sizebases allbase set_hvm]; try done; [|by destruct H4].
  rewrite Forall_forall in H3 |- *. intros P HP. apply (page_good_ext (h_vm h)); [|by apply H3]. intros o i Ho Hi. symmetry. apply Hout. by apply Hfree.
Qed.

Lemma heap_ok_user h L big a n x b : heap_ok h L big -> live L big a n -> a <= x < a + n -> heap_ok (set_hvm (store_byte x b (h_vm h)) h) L big.
Proof.
  intros Hok Hl Hx. apply (heap_ok_written h L big _ x (x + 1)); [done| |].
  - split; [by eexists|]. intros y Hy. unfold load_byte, store_byte. cbn. destruct (Z.eqb_spec (y - MIPS_KSEG0) (x - MIPS_KSEG0)); [lia|done].
  - intros P o i HP Ho Hi. pose proof (psize_16 _ _ _ Hok P HP). pose proof (free_apart _ _ _ Hok a n x P o i Hl Hx HP Ho ltac:(lia)). lia.
Qed.

Lemma top_steal n s : top (steal n s) = top s + n * PAGE_SIZE.
Proof. unfold top, steal. cbn. lia. Qed.

Lemma in_ram_steal n s a : 0 <= n -> in_ram s a -> in_ram (steal n s) a.
Proof. unfold in_ram. rewrite top_steal. hlia. Qed.

Lemma roots_ok_steal n s roots used : 0 <= n -> roots_ok s roots used -> roots_ok (steal n s) roots used.
Proof.
  intros Hn [H1 H2 H3 H4 H5 H6 H7 H8]. split; try done.
  - intros w r Hr Hp. destruct (H3 w r Hr Hp) as (?&?&?). rewrite top_steal. hlia.
  - intros w r Hr Hp Hu. pose proof (H4 w r Hr Hp Hu) as H. unfold exhausted, steal in *. cbn. hlia.
Qed.

Lemma heap_ok_steal n h L big : heap_ok h L big -> 0 < n -> firstpaddr (h_vm h) + n * PAGE_SIZE <= lastpaddr (h_vm h) -> heap_ok (set_hvm (steal n (h_vm h)) h) L big.
Proof.
  intros [H1 H2 H3 H4 H5 H6 H7] Hn Hroom. split; cbn [h_vm refs kheaproots sizebases allbase set_hvm]; try done.
  - by apply vm_ok_steal.
  - eapply Forall_impl; [exact H3|]. intros P. by apply page_good_ext.
  - apply roots_ok_steal; [lia|done].
  - eapply Forall_impl; [exact H7|]. intros a. apply in_ram_steal. lia.
Qed.

Lemma big_pages_fresh h L big n i : heap_ok h L big -> 0 <= i < n -> top (h_vm h) + i * PAGE_SIZE ∉ owned L (kheaproots h) big.
Proof.
  intros Hok Hi Hin. pose proof (proj1 (Forall_forall _ _) (ho_range _ _ _ Hok) _ Hin) as (_&_&?). hlia.
Qed.

(** The pages from [top] on now belong to an allocation of whole pages. *)
Lemma heap_ok_big n h L big : heap_ok h L big -> 0 < n -> firstpaddr (h_vm h) + n * PAGE_SIZE <= lastpaddr (h_vm h) ->
  heap_ok (set_hvm (steal n (h_vm h)) h) L ((top (h_vm h), n) :: big).
Proof.
  intros Hok Hn Hroom. destruct (heap_ok_steal n h L big Hok Hn Hroom) as [H1 H2 H3 H4 H5 H6 H7].
  destruct (vm_ok_top _ (ho_vm _ _ _ Hok)) as [Ht Hm].
  assert (owned L (kheaproots h) ((top (h_vm h), n) :: big) ≡ₚ big_pages (top (h_vm h), n) ++ owned L (kheaproots h) big) as Ho.
  { unfold owned. cbn [mbind list_bind]. rewrite !app_assoc, (Permutation_app_comm _ (big_pages _)), !app_assoc. done. }
  split; cbn [h_vm refs kheaproots sizebases allbase set_hvm]; try done.
  - by apply Forall_cons.
  - rewrite Ho. apply NoDup_app. split; [|split; [|done]].
    + apply (NoDup_fmap_2_strong _ _); [|apply NoDup_seqZ]. intros i j _ _ E. cbn in E. hlia.
    + intros p (i&Hi&->)%elem_of_big_pages. by apply (big_pages_fresh h L big n i).
  - rewrite Ho. apply Forall_app. split; [|done]. apply Forall_forall. intros p (i&Hi&->)%elem_of_big_pages. unfold in_ram. rewrite top_steal. cbn in *. hlia.
Qed.

Lemma heap_ok_unbig h L B1 b B2 : heap_ok h L (B1 ++ b :: B2) -> heap_ok h L (B1 ++ B2).
Proof.
  intros [H1 H2 H3 H4 H5 H6 H7].
  assert (owned L (kheaproots h) (B1 ++ b :: B2) ≡ₚ big_pages b ++ owned L (kheaproots h) (B1 ++ B2)) as Ho.
  { unfold owned. rewrite !bind_app, bind_cons. rewrite (Permutation_app_comm (big_pages b) (B2 ≫= big_pages)).
    rewrite (Permutation_app_comm (big_pages b) (_ ++ _)), !app_assoc. done. }
  rewrite Ho in H6, H7. apply NoDup_app in H6 as (_&_&H6). apply Forall_app in H7 as [_ H7].
  split; try done. apply Forall_app in H5 as [? ?%Forall_cons]. apply Forall_app. naive_solver.
Qed.

(** ** A fresh page of blocks *)

Fixpoint block_list (s : Z) (n : nat) : list Z := match n with O => [] | S n => s * Z.of_nat n :: block_list s n end.

Lemma length_block_list s n : length (block_list s n) = n.
Proof. induction n; cbn; auto. Qed.

Lemma elem_of_block_list s n o : o ∈ block_list s n <-> exists i, 0 <= i < Z.of_nat n /\ o = s * i.
Proof.
  induction n as [|n IH]; cbn [block_list]; [rewrite elem_of_nil; naive_solver lia|]. rewrite elem_of_cons, IH. split.
  - intros [->|(i&?&->)]; [exists (Z.of_nat n); lia|exists i; lia].
  - intros (i&?&->). destruct (decide (i = Z.of_nat n)) as [->|]; [by left|right; exists i; lia].
Qed.

Lemma NoDup_block_list s n : 0 < s -> NoDup (block_list s n).
Proof.
  intros Hs. induction n as [|n IH]; cbn; constructor; [|done]. intros (i&?&?)%elem_of_block_list. nia.
Qed.

(** The loop over the blocks: the links of those before [i] are in place. *)
Lemma link_blocks_eq s pa n : forall i h, 0 < i -> 4 <= s -> MIPS_KSEG0 < pa -> pa + s * (i + Z.of_nat n) <= MIPS_KSEG0 + 2 ^ 29 ->
  free_chain (h_vm h) pa (block_list s (Z.to_nat i)) ->
  exists h', link_blocks n i pa s h = Done (tt, h') /\ written pa (pa + s * (i + Z.of_nat n)) h h' /\
    free_chain (h_vm h') pa (block_list s (Z.to_nat i + n)).
Proof.
  induction n as [|n IH]; intros i h Hi Hs Hpa Hend Hc; cbn [link_blocks].
  - exists h. rewrite Nat.add_0_r. split; [done|]. split; [apply written_refl|done].
  - change MIPS_KSEG0 with 2147483648 in *. rewrite !u32_small by nia.
    destruct (store_eq (pa + i * s) (pa + (i - 1) * s) h) as (h1&E1&W1&Hload).
    assert (free_chain (h_vm h1) pa (block_list s (Z.to_nat (i + 1)))) as Hc1.
    { replace (Z.to_nat (i + 1)) with (S (Z.to_nat i)) by lia. cbn [block_list free_chain]. rewrite Z2Nat.id by lia. split.
      - replace (pa + s * i) with (pa + i * s) by lia. rewrite Hload by nia. replace (Z.to_nat i) with (S (Z.to_nat (i - 1))) by lia.
        cbn [block_list first_free]. rewrite Z2Nat.id by lia. lia.
      - eapply free_chain_ext; [|exact Hc]. intros o k (j&Hj&->)%elem_of_block_list Hk. symmetry. apply (w_out _ _ _ _ W1). left. nia. }
    destruct (IH (i + 1) h1) as (h2&E2&W2&Hc2); [lia..|nia|done|].
    exists h2. krun. rewrite E1. krun. unfold kassert. destruct (Z.eqb_spec (pa + i * s) (pa + (i - 1) * s)); [lia|]. krun. rewrite E2.
    split; [done|]. split; [eapply written_trans; eapply written_mono; eauto; nia|]. by replace (Z.to_nat i + S n)%nat with (Z.to_nat (i + 1) + n)%nat by lia.
Qed.

(** ** kmalloc *)

Lemma load_same_vm f s a : load_byte (set_phys (phys s) f) a = load_byte s a.
Proof. done. Qed.

(** The blocks of [h'] are those of [h] and one more, of [n] bytes at [p], which was
    not in use; those in use keep their contents. *)
Record one_more (h h' : kheap) (L L' : list hpage) (big big' : list (Z * Z)) (p n : Z) : Prop := mkOneMore {
  om_ok : heap_ok h' L' big';
  om_live : forall a m, live L' big' a m <-> live L big a m \/ (a = p /\ m = n);
  om_new : forall m, ~ live L big p m;
  om_mem : forall a m x, live L big a m -> a <= x < a + m -> load_byte (h_vm h') x = load_byte (h_vm h) x }.

Lemma doalloc_more h L1 P L2 big : heap_ok h (L1 ++ P :: L2) big -> has_free P ->
  exists p h' l, doalloc (g_ref P) h = Done (p, h') /\ p <> 0 /\ h_vm h' = h_vm h /\
    one_more h h' (L1 ++ P :: L2) (L1 ++ with_free l P :: L2) big big p (psize P).
Proof.
  intros Hok Hf. destruct (g_free P) as [|o l] eqn:E; [by destruct Hf|]. assert (P ∈ L1 ++ P :: L2) as HP by (apply elem_of_middle; by left).
  destruct (doalloc_eq h L1 P L2 big o l Hok E) as (h'&Ed&Ev&Hok'). pose proof (page_of _ _ _ Hok P HP) as [Ht _ Hr Hn Hb _].
  rewrite E in Hn, Hb. apply NoDup_cons in Hn as [Hn _]. apply Forall_cons in Hb as [Hb _]. destruct (block_bounds _ _ Ht Hb).
  exists (g_addr P + o), h', l. split; [done|]. split; [hlia|]. split; [done|]. split; [done|..].
  - intros a m. by apply live_take.
  - intros m Hl. destruct (live_block _ _ _ P o m Hok HP Hb Hl) as [Hnf _]. apply Hnf. rewrite E. left.
  - intros. by rewrite Ev.
Qed.

Lemma blocktype_from_spec l : forall i sz, (exists s, last l = Some s /\ sz <= s) ->
  exists b, blocktype_from i l sz = Done b /\ i <= b < i + Z.of_nat (length l) /\ sz <= nth (Z.to_nat (b - i)) l 0 /\
    forall j, i <= j < b -> nth (Z.to_nat (j - i)) l 0 < sz.
Proof.
  induction l as [|s l IH]; intros i sz (m&Hm&Hle); [done|]. cbn [blocktype_from].
  destruct (Z.leb_spec sz s).
  - exists i. rewrite Z.sub_diag. cbn [length nth]. split; [done|]. split; [lia|]. split; [done|]. lia.
  - destruct (IH (i + 1) sz) as (b&E&Hb&Hs&Hmin).
    + rewrite last_cons in Hm. destruct (last l) eqn:El; [by exists m|]. simplify_eq. lia.
    + exists b. cbn [length]. split; [done|]. split; [lia|]. split.
      * replace (Z.to_nat (b - i)) with (S (Z.to_nat (b - (i + 1)))) by lia. done.
      * intros j Hj. destruct (decide (j = i)) as [->|]; [by rewrite Z.sub_diag|]. replace (Z.to_nat (j - i)) with (S (Z.to_nat (j - (i + 1)))) by lia.
        apply Hmin. lia.
Qed.

Lemma blocktype_spec sz : sz <= LARGEST_SUBPAGE_SIZE -> exists b, blocktype sz = Done b /\ 0 <= b < NSIZES /\ sz <= block_size b /\
  forall j, 0 <= j < b -> block_size j < sz.
Proof.
  intros Hsz. destruct (blocktype_from_spec sizes 0 sz) as (b&E&Hb&Hs&Hmin); [by exists 2048|]. rewrite Z.sub_0_r in Hs.
  exists b. split; [done|]. split; [done|]. split; [done|]. intros j Hj. specialize (Hmin j Hj). by rewrite Z.sub_0_r in Hmin.
Qed.

(** A page all of whose blocks are free. *)
Definition fresh_page (p pa b : Z) : hpage := mkPage p pa b (block_list (block_size b) (Z.to_nat (PAGE_SIZE / block_size b))).

Lemma fresh_page_live p pa b L big a m : 0 <= b < NSIZES -> live (fresh_page p pa b :: L) big a m <-> live L big a m.
Proof.
  intros Hb. unfold live. setoid_rewrite elem_of_cons. split; [|naive_solver].
  intros [(P&o&[->|HP]&->&Ho&Hf&->)|?]; [|left; eauto 8|auto]. destruct Hf. unfold fresh_page. cbn [g_free].
  destruct (size_facts b Hb) as (n&Hn&->&?&?&_). destruct Ho as (i&->&Hi&Hlt). unfold psize in *. cbn [g_type fresh_page] in *.
  apply elem_of_block_list. exists i. split; [|done]. hlia || (change PAGE_SIZE with 4096 in *; nia).
Qed.

Lemma fresh_page_free p pa b : 0 <= b < NSIZES -> has_free (fresh_page p pa b).
Proof.
  intros Hb. unfold has_free, fresh_page. cbn [g_free]. destruct (size_facts b Hb) as (n&Hn&->&?&_). destruct (Z.to_nat n) eqn:E; [lia|]. done.
Qed.

Lemma page_good_fresh s p pa b : 0 <= b < NSIZES -> in_ram s pa -> vm_ok s ->
  free_chain s pa (block_list (block_size b) (Z.to_nat (PAGE_SIZE / block_size b))) -> page_good s (fresh_page p pa b).
Proof.
  intros Hb (?&?&?) Hs Hc. destruct (vm_ok_top s Hs) as [? _]. destruct (size_facts b Hb) as (n&Hn&En&?&?&_). split; unfold fresh_page; cbn [g_type g_addr g_free]; try done.
  - hlia.
  - apply NoDup_block_list. lia.
  - apply Forall_forall. intros o (i&Hi&->)%elem_of_block_list. exists i. rewrite En in Hi. unfold psize; cbn [g_type]. split; [done|]. split; [lia|]. nia.
Qed.

Lemma of_type_all b L : Forall (fun P => g_type P = b) (of_type b L).
Proof. apply Forall_forall. intros P. by rewrite elem_of_of_type; intros []. Qed.

Lemma init_page_eq h L big p b s' roots' used h0 :
  heap_ok h0 L big -> firstpaddr (h_vm h0) + PAGE_SIZE <= lastpaddr (h_vm h0) -> h = with_roots s' roots' (set_hvm (steal 1 (h_vm h0)) h0) ->
  0 <= b < NSIZES -> used = g_ref <$> L -> 0 < p < 2 ^ 32 -> p ∉ used -> roots_ok s' roots' (p :: used) ->
  (s' = steal 1 (h_vm h0) /\ root_pages roots' = root_pages (kheaproots h0)) \/
  (s' = steal 1 (steal 1 (h_vm h0)) /\ firstpaddr (h_vm h0) + 2 * PAGE_SIZE <= lastpaddr (h_vm h0) /\
    root_pages roots' ≡ₚ top (steal 1 (h_vm h0)) :: root_pages (kheaproots h0)) ->
  exists h', init_page p (top (h_vm h0)) b h = Done (tt, h') /\ heap_ok h' (fresh_page p (top (h_vm h0)) b :: L) big /\
    forall a, a < top (h_vm h0) -> load_byte (h_vm h') a = load_byte (h_vm h0) a.
Proof.
  intros Hok0 Hroom -> Hb -> Hp Hnew Hroots Hcase. set (pa := top (h_vm h0)) in *. set (h := with_roots _ _ _).
  destruct (vm_ok_top _ (ho_vm _ _ _ Hok0)) as [Hpa Hpm]. fold pa in Hpa, Hpm.
  destruct (size_facts b Hb) as (n&Hn&En&Hn2&Hsz&_). set (sz := block_size b) in *.
  assert (vm_ok s' /\ top s' <= MIPS_KSEG0 + 2 ^ 29 /\ pa + PAGE_SIZE <= top s') as (Hs'&Htop&Hpae).
  { assert (vm_ok (steal 1 (h_vm h0))) as Hs1 by (apply vm_ok_steal; [apply Hok0|lia|hlia]).
    destruct Hcase as [[-> _]|(->&Hr2&_)]; [|assert (vm_ok (steal 1 (steal 1 (h_vm h0)))) by (apply vm_ok_steal; [done|lia|unfold steal; cbn; hlia])];
      (split; [done|]; split; [by apply vm_ok_top|]; rewrite !top_steal; unfold pa; hlia). }
  destruct (store_eq pa 0 h) as (h1&E1&W1&Hload). specialize (Hload ltac:(lia)).
  destruct (link_blocks_eq sz pa (Z.to_nat (n - 1)) 1 h1) as (h2&E2&W2&Hc2).
  { lia. } { lia. } { hlia. } { hlia. } { change (block_list sz (Z.to_nat 1)) with [sz * 0]. rewrite Z.mul_0_r. cbn [free_chain first_free]. by rewrite Z.add_0_r. }
  replace (Z.to_nat 1 + Z.to_nat (n - 1))%nat with (Z.to_nat n) in Hc2 by lia.
  assert (written pa (pa + PAGE_SIZE) h h2) as W by (eapply written_trans; eapply written_mono; eauto; hlia).
  destruct W as [[g ->] Hout]. cbn [h_vm set_hvm] in Hc2, Hout. change (h_vm h) with s' in Hout, Hc2.
  pose proof (ho_lists _ _ _ Hok0) as Hli. destruct (lookup_lt_is_Some_2 (sizebases h0) (Z.to_nat b)) as [q Hq]; [rewrite (li_len _ _ _ _ Hli); hlia|].
  set (P := fresh_page p pa b). set (x := mkPr q (allbase h0) (MKPAB pa b) ((n - 1) * sz) n).
  assert (describes x P) as Hd.
  { unfold P, fresh_page. fold sz. rewrite En. split; cbn [pageaddr_and_blocktype freelist_offset nfree g_free g_addr g_type x]; [done|..].
    - replace (Z.to_nat n) with (S (Z.to_nat (n - 1))) by lia. cbn [block_list]. rewrite Z2Nat.id by lia. lia.
    - rewrite length_block_list. lia. }
  exists (mkHeap (set_phys g s') (<[p := x]> (refs h0)) roots' (<[Z.to_nat b := p]> (sizebases h0)) p). split; [|split].
  - assert (0 <= (n - 1) * sz < 65536) as Hoff by (change PAGE_SIZE with 4096 in Hn; nia).
    unfold init_page. fold sz. rewrite En, (u16_small n), (u16_small _ Hoff) by lia.
    krun. rewrite E1. krun. rewrite E2. krun. unfold kassert. rewrite Z.eqb_refl. krun.
    rewrite (read_base _ b q) by exact Hq. krun. cbn [read_cell write_cell]. unfold put_ref. krun. reflexivity.
  - assert (in_ram s' pa) as Hram by (split; [done|]; hlia).
    assert (forall y, y < pa -> load_byte (set_phys g s') y = load_byte (h_vm h0) y) as Hlow.
    { intros y Hy. rewrite Hout by lia. destruct Hcase as [[-> _]|(->&_)]; done. }
    split; cbn [h_vm refs kheaproots sizebases allbase].
    + done.
    + apply (lists_push _ _ _ _ P x Hli); cbn [g_type g_ref P fresh_page x next_all next_samesize]; try done. lia.
    + apply Forall_cons. split.
      * apply page_good_fresh; try done. fold sz. by rewrite En.
      * apply Forall_forall. intros Q HQ. pose proof (page_of _ _ _ Hok0 Q HQ) as Hg. apply (page_good_ext (h_vm h0)); [|done].
        intros o i Ho Hi. symmetry. apply Hlow. pose proof (proj1 (Forall_forall _ _) (pg_blocks _ _ Hg) _ Ho) as Hbo.
        destruct (block_bounds _ _ (pg_type _ _ Hg) Hbo). pose proof (psize_16 _ _ _ Hok0 Q HQ). unfold psize in *.
        assert (in_ram (h_vm h0) (g_addr Q)) as (_&_&?).
        { apply (proj1 (Forall_forall _ _) (ho_range _ _ _ Hok0)). unfold owned. rewrite elem_of_app. left. by apply list_elem_of_fmap_2. }
        unfold pa. hlia.
    + by destruct Hroots.
    + apply Hok0.
    + pose proof (ho_owned _ _ _ Hok0) as Hno. pose proof (big_pages_fresh h0 L big 2 0 Hok0 ltac:(lia)) as F0. pose proof (big_pages_fresh h0 L big 2 1 Hok0 ltac:(lia)) as F1.
      rewrite Z.add_0_r in F0. unfold owned in *. rewrite fmap_cons. cbn [app g_addr P fresh_page]. fold pa in F0, F1.
      destruct Hcase as [[_ ->]|(_&_&->)]; [by apply NoDup_cons|]. rewrite top_steal. fold pa.
      cbn [app]. rewrite <- Permutation_middle. apply NoDup_cons. split; [rewrite elem_of_cons; intros [E|Hin]; [hlia|by apply F0]|]. apply NoDup_cons. by split.
    + assert (Forall (in_ram (set_phys g s')) (pa :: owned L (kheaproots h0) big)) as Hold.
      { apply Forall_cons. split; [done|]. eapply Forall_impl; [apply (ho_range _ _ _ Hok0)|]. intros y Hy.
        destruct Hcase as [[-> _]|(->&_)]; [by apply (in_ram_steal 1)|]. by apply (in_ram_steal 1), (in_ram_steal 1). }
      unfold owned in *. rewrite fmap_cons. cbn [app g_addr P fresh_page].
      destruct Hcase as [[_ ->]|(Es&_&->)]; [done|]. rewrite top_steal. fold pa. cbn [app]. rewrite <- Permutation_middle.
      apply Forall_cons in Hold as [Hh Hold]. apply Forall_cons. split; [done|]. apply Forall_cons. split; [|done].
      assert (top s' = pa + 2 * PAGE_SIZE) as Et by (rewrite Es, !top_steal; unfold pa; lia).
      split; [hlia|]. split; [hlia|]. change (top (set_phys g s')) with (top s'). hlia.
  - intros y Hy. rewrite Hout by lia. destruct Hcase as [[-> _]|(->&_)]; done.
Qed.

(** A call that found no memory: what was in use stays in use. *)
Record no_more (h h' : kheap) (L : list hpage) (big : list (Z * Z)) : Prop := mkNoMore {
  nm_ok : heap_ok h' L big;
  nm_mem : forall x, load_byte (h_vm h') x = load_byte (h_vm h) x;
  nm_why : lastpaddr (h_vm h) < firstpaddr (h_vm h) + 2 * PAGE_SIZE \/ refs_full (kheaproots h) }.

Lemma head_filter {A} (Q : A -> Prop) `{forall x, Decision (Q x)} l x : head (filter Q l) = Some x -> x ∈ l /\ Q x.
Proof. intros E. assert (x ∈ filter Q l) as Hin by (destruct (filter Q l); simplify_eq/=; left). apply list_elem_of_filter in Hin. naive_solver. Qed.

Lemma head_filter_None {A} (Q : A -> Prop) `{forall x, Decision (Q x)} l : head (filter Q l) = None -> forall x, x ∈ l -> ~ Q x.
Proof. intros E x Hx HQ. assert (x ∈ filter Q l) as Hin by by apply list_elem_of_filter. destruct (filter Q l); [by apply elem_of_nil in Hin|done]. Qed.

Lemma ref_of_zero h L big P : heap_ok h L big -> P ∈ L -> g_ref P <> 0.
Proof.
  intros Hok HP. destruct (rs_placed _ _ _ (ho_roots _ _ _ Hok) (g_ref P)) as (w&r&j&Hr&Hnz&Hj&->); [by apply list_elem_of_fmap_2|].
  destruct (rs_page _ _ _ (ho_roots _ _ _ Hok) _ _ Hr Hnz) as (?&?&?). hlia.
Qed.

Lemma find_free_heap h L big b p : heap_ok h L big -> 0 <= b < NSIZES -> sizebases h !! Z.to_nat b = Some p ->
  find_free (list_fuel h) p b h = Done (ref_of (head (filter has_free (of_type b L))), h).
Proof.
  intros Hok Hb Hp. pose proof (ho_lists _ _ _ Hok) as Hli. apply find_free_eq.
  - by apply (li_same _ _ _ _ Hli).
  - intros P [_ HP]%elem_of_of_type. by apply (heap_described _ _ _ Hok).
  - apply of_type_all.
  - pose proof (lists_fuel _ _ _ _ Hli). pose proof (of_type_length b L). unfold list_fuel. lia.
Qed.

Lemma no_page_eq h L big : heap_ok h L big -> alloc_kpages 0 1 (h_vm h) =
  if bool_decide (firstpaddr (h_vm h) + PAGE_SIZE <= lastpaddr (h_vm h)) then Done (top (h_vm h), steal 1 (h_vm h)) else Done (0, h_vm h).
Proof. intros Hok. rewrite alloc_kpages_eq by (apply Hok || done). by rewrite Z.mul_1_l. Qed.

Lemma heap_ok_no_ref h L big s' roots' h1 : heap_ok h1 L big -> s' = h_vm h1 -> h = with_roots s' roots' h1 -> roots_ok s' roots' (g_ref <$> L) ->
  root_pages roots' = root_pages (kheaproots h1) -> heap_ok h L big.
Proof. intros [H1 H2 H3 H4 H5 H6 H7] -> -> Hr E. split; cbn [h_vm refs kheaproots sizebases allbase with_roots]; try done; unfold owned; by rewrite E. Qed.

Lemma subpage_kmalloc_eq h L big sz : heap_ok h L big -> sz <= LARGEST_SUBPAGE_SIZE ->
  exists p h', subpage_kmalloc 0 sz h = Done (p, h') /\
    ((p = 0 /\ no_more h h' L big /\ (forall b, blocktype sz = Done b -> Forall (fun P => ~ has_free P) (of_type b L))) \/
     (p <> 0 /\ exists L' n, sz <= n /\ one_more h h' L L' big big p n)).
Proof.
  intros Hok Hsz. destruct (blocktype_spec sz Hsz) as (b&Eb&Hb&Hfit&_). unfold subpage_kmalloc. krun. rewrite Eb. krun.
  pose proof (ho_lists _ _ _ Hok) as Hli. destruct (lookup_lt_is_Some_2 (sizebases h) (Z.to_nat b)) as [q Hq]; [rewrite (li_len _ _ _ _ Hli); hlia|].
  rewrite (read_base _ _ _ Hq). krun. rewrite (find_free_heap _ _ _ _ _ Hok Hb Hq). krun.
  destruct (head (filter has_free (of_type b L))) as [P|] eqn:EP; cbn [ref_of from_option].
  - apply head_filter in EP as [[Et HP]%elem_of_of_type Hf]. destruct (Z.eqb_spec (g_ref P) 0) as [Hz|_]; [by eapply ref_of_zero in Hz|].
    apply list_elem_of_split in HP as (L1&L2&->). cbn [negb]. destruct (doalloc_more h L1 P L2 big Hok Hf) as (p&h'&l&E&Hp&_&Hm).
    exists p, h'. split; [done|]. right. split; [done|]. eexists _, _. split; [|exact Hm]. unfold psize. by rewrite Et.
  - krun. unfold vmcall at 1, zoom. rewrite (no_page_eq _ _ _ Hok). case_bool_decide as Hroom; krun.
    2: { exists 0, h. split; [by destruct h|]. left. split; [done|]. split; [split; [done..|left; hlia]|].
      intros b' [= <-]. apply Forall_forall. exact (head_filter_None has_free _ EP). }
    destruct (vm_ok_top _ (ho_vm _ _ _ Hok)) as [Ht Hm]. destruct (Z.eqb_spec (top (h_vm h)) 0); [hlia|]. unfold kassert. rewrite Hm. krun.
    pose proof (heap_ok_steal 1 h L big Hok ltac:(lia) ltac:(lia)) as Hok1. set (h1 := set_hvm (steal 1 (h_vm h)) h) in *.
    destruct (allocpageref_eq h1 _ (ho_roots _ _ _ Hok1) (ho_vm _ _ _ Hok1)) as (p&s'&roots'&E&Hcase). rewrite E. krun.
    destruct Hcase as [(->&->&Hr&Erp&Hwhy)|(Hp&Hnew&Hr&Hcase)].
    + krun. eexists 0, _. split; [reflexivity|]. left. split; [done|]. split.
      * split; [by eapply heap_ok_no_ref|done|]. destruct Hwhy as [Hex|]; [left|by right].
        change (lastpaddr (h_vm h) < firstpaddr (h_vm h) + 1 * PAGE_SIZE + PAGE_SIZE) in Hex. clear -Hex. lia.
      * intros b' [= <-]. apply Forall_forall. exact (head_filter_None has_free _ EP).
    + destruct (Z.eqb_spec p 0); [lia|]. krun.
      destruct (init_page_eq (with_roots s' roots' h1) L big p b s' roots' (g_ref <$> L) h Hok Hroom eq_refl Hb eq_refl Hp Hnew Hr) as (h2&E2&Hok2&Hmem).
      { destruct Hcase as [[-> ?]|(->&Hr2&?)]; [by left|right]. split; [done|]. split; [|done].
        change (firstpaddr (h_vm h) + 1 * PAGE_SIZE + PAGE_SIZE <= lastpaddr (h_vm h)) in Hr2. clear -Hr2. lia. }
      rewrite E2. krun. destruct (doalloc_more h2 [] (fresh_page p (top (h_vm h)) b) L big Hok2 (fresh_page_free _ _ _ Hb)) as (a&h3&l&E3&Ha&Ev&[M1 M2 M3 M4]).
      exists a, h3. change (g_ref (fresh_page p (top (h_vm h)) b)) with p in E3. rewrite E3. split; [done|]. right. split; [done|].
      eexists _, _. split; [exact Hfit|]. split; [exact M1|..].
      * intros a' m. rewrite M2. cbn [app]. by rewrite fresh_page_live.
      * intros m Hl. apply (M3 m). cbn [app]. by rewrite fresh_page_live.
      * intros a' m x Hl Hx. rewrite Ev, Hmem; [done|]. pose proof (live_range _ _ _ Hok _ _ Hl). lia.
Qed.

(** Sizes that do not wrap. *)
Lemma npages_eq sz : 0 <= sz <= 2 ^ 30 -> u32 (u32 (sz + PAGE_SIZE) - 1) / PAGE_SIZE = (sz + PAGE_SIZE - 1) / PAGE_SIZE.
Proof. intros Hsz. rewrite (u32_small (sz + PAGE_SIZE)), u32_small by hlia. done. Qed.

Lemma kmalloc_eq h L big sz : heap_ok h L big -> 0 <= sz <= 2 ^ 30 ->
  exists p h', kmalloc 0 sz h = Done (p, h') /\
    ((p = 0 /\ heap_ok h' L big /\ forall x, load_byte (h_vm h') x = load_byte (h_vm h) x) \/
     (p <> 0 /\ exists L' big' n, sz <= n /\ one_more h h' L L' big big' p n)).
Proof.
  intros Hok Hsz. unfold kmalloc. rewrite Z.geb_leb. destruct (Z.leb_spec LARGEST_SUBPAGE_SIZE sz) as [Hbig|Hsmall].
  - change LARGEST_SUBPAGE_SIZE with 2048 in Hbig. rewrite npages_eq by done. set (n := (sz + PAGE_SIZE - 1) / PAGE_SIZE).
    assert (0 < n < 2 ^ 19 /\ sz <= n * PAGE_SIZE) as [Hn Hfit] by (unfold n; hlia).
    unfold vmcall, zoom. krun. rewrite alloc_kpages_eq by (apply Hok || done). case_bool_decide as Hroom; krun.
    + destruct (vm_ok_top _ (ho_vm _ _ _ Hok)) as [Ht Hm]. destruct (Z.eqb_spec (top (h_vm h)) 0); [hlia|]. unfold kassert. rewrite Hm. krun.
      eexists _, _. split; [reflexivity|]. right. split; [done|]. exists L, ((top (h_vm h), n) :: big), (n * PAGE_SIZE). split; [done|].
      split; [apply heap_ok_big; done || lia|..].
      * intros a m. unfold live. setoid_rewrite elem_of_cons. naive_solver.
      * intros m Hl. pose proof (live_range _ _ _ Hok _ _ Hl). lia.
      * done.
    + exists 0, h. split; [by destruct h|]. left. done.
  - destruct (subpage_kmalloc_eq h L big sz Hok ltac:(lia)) as (p&h'&E&[(->&[H1 H2 _]&_)|(Hp&L'&n&?&?)]); exists p || exists 0; exists h'; (split; [done|]).
    + by left.
    + right. split; [done|]. by exists L', big, n.
Qed.

(** ** kfree *)

(** The block at [p] is no longer in use; the others keep their contents. *)
Record one_less (h h' : kheap) (L L' : list hpage) (big big' : list (Z * Z)) (p : Z) : Prop := mkOneLess {
  ol_ok : heap_ok h' L' big';
  ol_live : forall a m, live L' big' a m <-> live L big a m /\ a <> p;
  ol_mem : forall a m x, live L big a m -> a <> p -> a <= x < a + m -> load_byte (h_vm h') x = load_byte (h_vm h) x }.

Lemma find_page_heap h L big a : heap_ok h L big -> find_page (list_fuel h) (allbase h) a h = Done (ref_of (head (filter (contains a) L)), h).
Proof.
  intros Hok. pose proof (ho_lists _ _ _ Hok) as Hli. apply find_page_eq.
  - by apply (li_all _ _ _ _ Hli).
  - by apply (heap_described _ _ _ Hok).
  - pose proof (lists_fuel _ _ _ _ Hli). unfold list_fuel. lia.
Qed.

Lemma contains_page h L big P a : heap_ok h L big -> P ∈ L -> contains a P -> page a = g_addr P.
Proof. intros Hok HP Hc. destruct (page_of _ _ _ Hok P HP) as [_ Ha Hr _ _ _]. unfold contains in Hc. rewrite page_eq. hlia. Qed.

Lemma contains_head h L big P a : heap_ok h L big -> P ∈ L -> contains a P -> head (filter (contains a) L) = Some P.
Proof.
  intros Hok HP Hc. destruct (head (filter (contains a) L)) as [Q|] eqn:E; [|by apply (head_filter_None _ _ E) in Hc].
  apply head_filter in E as [HQ HcQ]. f_equal. eapply page_inj; eauto. by rewrite <- (contains_page _ _ _ Q a Hok HQ HcQ), <- (contains_page _ _ _ P a Hok HP Hc).
Qed.

(** The writes of [subpage_kfree]: the block is filled, then linked in front. *)
Lemma link_front_eq h L big P x o : heap_ok h L big -> P ∈ L -> describes x P -> is_block (psize P) o -> o ∉ g_free P ->
  exists h', (fill_deadbeef (g_addr P + o) (psize P);; link_front x (g_addr P) o) h = Done (tt, h') /\
    written (g_addr P + o) (g_addr P + o + psize P) h h' /\ load_word (h_vm h') (g_addr P + o) = first_free (g_addr P) (g_free P).
Proof.
  intros Hok HP Hd Hb Hnf. pose proof (page_of _ _ _ Hok P HP) as [Ht Ha Hr Hn Hbs _]. destruct (block_bounds _ _ Ht Hb) as [Ho0 Ho1].
  destruct (size_facts _ Ht) as (n&_&_&_&Hsz&Hs16). unfold psize in *. set (s := block_size (g_type P)) in *.
  destruct (fill_from_eq (Z.to_nat (s / 4)) 0 (g_addr P + o) h) as (h1&E1&W1).
  assert (forall w, 0 <= w < 2 ^ 32 -> exists h', store (g_addr P + o) w h1 = Done (tt, h') /\
    written (g_addr P + o) (g_addr P + o + s) h h' /\ load_word (h_vm h') (g_addr P + o) = w) as Hst.
  { intros w Hw. destruct (store_eq (g_addr P + o) w h1) as (h2&E2&W2&Hl). exists h2. split; [done|]. split; [|by apply Hl].
    eapply written_trans; eapply written_mono; eauto; hlia. }
  unfold fill_deadbeef, link_front. krun. rewrite E1. rewrite (u32_small (g_addr P + o)) by hlia. rewrite (ds_off _ _ Hd).
  destruct (g_free P) as [|o1 l]; cbn [first_free].
  - change (INVALID_OFFSET =? INVALID_OFFSET) with true. cbn iota. by apply Hst.
  - apply Forall_cons in Hbs as [Hb1 _]. destruct (block_bounds _ _ Ht Hb1). apply not_elem_of_cons in Hnf as [Hne _].
    destruct (Z.eqb_spec o1 INVALID_OFFSET) as [E|_]; [unfold INVALID_OFFSET in E; hlia|]. rewrite u32_small by hlia.
    destruct (Hst (g_addr P + o1)) as (h'&E2&W2&Hl); [hlia|]. exists h'. krun. rewrite E2. unfold kassert.
    destruct (Z.eqb_spec (g_addr P + o) (g_addr P + o1)); [lia|]. done.
Qed.

Lemma blocks_all s n l o : 0 < s -> s * n = PAGE_SIZE -> 0 <= n -> NoDup l -> Forall (is_block s) l -> Z.of_nat (length l) = n -> is_block s o -> o ∈ l.
Proof.
  intros Hs Hsn Hn Hl Hb Hlen Ho. destruct (decide (o ∈ l)) as [|Hne]; [done|].
  pose proof (blocks_length s n (o :: l) Hs Hsn Hn ltac:(by apply NoDup_cons) ltac:(by apply Forall_cons)) as H. cbn in H. lia.
Qed.

Lemma heap_ok_drop h L1 P L2 big m sb ab roots' : heap_ok h (L1 ++ P :: L2) big -> lists_ok m sb ab (L1 ++ L2) ->
  roots_ok (h_vm h) roots' (g_ref <$> (L1 ++ L2)) -> root_pages roots' = root_pages (kheaproots h) ->
  heap_ok (mkHeap (h_vm h) m roots' sb ab) (L1 ++ L2) big.
Proof.
  intros [H1 H2 H3 H4 H5 H6 H7] Hl Hr Erp.
  assert (owned (L1 ++ P :: L2) (kheaproots h) big ≡ₚ g_addr P :: owned (L1 ++ L2) roots' big) as Ho.
  { unfold owned. rewrite Erp, !fmap_app, fmap_cons, <- Permutation_middle. done. }
  rewrite Ho in H6, H7. apply NoDup_cons in H6 as [_ H6]. apply Forall_cons in H7 as [_ H7]. split; try done.
  apply Forall_app in H3 as [? [_ ?]%Forall_cons]. by apply Forall_app.
Qed.

Lemma K_then_eq {Σ A B} (m1 : K Σ unit) (m2 : K Σ A) (k : A -> K Σ B) s a s' : (m1;; m2) s = Done (a, s') -> (m1;; x ← m2; k x) s = k a s'.
Proof. rewrite !K_bind_eq. destruct (m1 s) as [[[] s1]| |]; try done. intros E. by rewrite K_bind_eq, E. Qed.

Lemma subpage_kfree_eq h L1 P L2 big o : heap_ok h (L1 ++ P :: L2) big -> is_block (psize P) o -> o ∉ g_free P ->
  exists h' L', subpage_kfree (g_addr P + o) h = Done (0, h') /\ one_less h h' (L1 ++ P :: L2) L' big big (g_addr P + o).
Proof.
  intros Hok Hb Hnf. set (L := L1 ++ P :: L2) in *. assert (P ∈ L) as HP by (apply elem_of_middle; by left).
  destruct (heap_described _ _ _ Hok P HP) as (Hg&x&Hx&Hd). destruct (describes_addr _ _ _ Hg Hd) as [Hpa Hty].
  pose proof Hg as [Ht Ha Hr Hn Hbs Hc]. destruct (block_bounds _ _ Ht Hb) as [Ho0 Ho1]. destruct (size_facts _ Ht) as (n&Hsn&En&Hn2&Hsz&_).
  pose proof (ref_of_zero _ _ _ _ Hok HP) as Hnz. pose proof (free_length _ _ Hg) as Hlen. unfold psize in Hlen, Ho1. rewrite En in Hlen.
  assert (Forall (is_block (psize P)) (o :: g_free P)) as Hbs' by by apply Forall_cons. assert (NoDup (o :: g_free P)) as Hn' by by apply NoDup_cons.
  pose proof (blocks_length (psize P) n (o :: g_free P) ltac:(unfold psize; lia) Hsn ltac:(lia) Hn' Hbs') as Hlen'. cbn [length] in Hlen'.
  destruct (link_front_eq h L big P x o Hok HP Hd Hb Hnf) as (h1&E1&W1&Hl1). destruct W1 as [[g ->] Hout].
  set (P' := with_free (o :: g_free P) P). set (x' := mkPr (next_samesize x) (next_all x) (pageaddr_and_blocktype x) o (Z.of_nat (length (g_free P)) + 1)).
  assert (describes x' P') as Hd'.
  { split; cbn [pageaddr_and_blocktype freelist_offset nfree x' P' with_free g_free length]; [apply Hd|done|lia]. }
  set (h2 := mkHeap (set_phys g (h_vm h)) (<[g_ref P := x']> (refs h)) (kheaproots h) (sizebases h) (allbase h)).
  assert (heap_ok h2 (L1 ++ P' :: L2) big) as Hok2.
  { apply (heap_ok_change h L1 P L2 big _ x); try done. apply (pages_change (h_vm h)); [apply (ho_pages _ _ _ Hok)|..].
    - intros Q o2 i HQ Ho2 Hi. symmetry. apply Hout. pose proof (psize_16 _ _ _ Hok Q HQ).
      destruct (Z.lt_ge_cases (g_addr Q + o2 + i) (g_addr P + o)) as [?|Hge]; [auto|]. right.
      destruct (Z.lt_ge_cases (g_addr Q + o2 + i) (g_addr P + o + psize P)) as [Hlt|?]; [|done]. exfalso.
      eapply (free_apart _ _ _ Hok (g_addr P + o) (psize P) (g_addr Q + o2 + i) Q o2 i); eauto; [|lia]. left. exists P, o. auto.
    - split; cbn [g_type g_addr g_free with_free]; try done. split; [exact Hl1|]. eapply free_chain_ext; [|exact Hc].
      intros o2 i Ho2 Hi. symmetry. apply Hout. pose proof (proj1 (Forall_forall _ _) Hbs _ Ho2) as Hb2. unfold psize in *.
      destruct (blocks_apart (block_size (g_type P)) o o2 ltac:(lia) Hb Hb2); [by intros ->|lia..]. }
  assert (forall a m, live (L1 ++ P' :: L2) big a m <-> live L big a m /\ a <> g_addr P + o) as Hlive by (intros a m; by apply (live_give h2)).
  assert (forall a m y, live L big a m -> a <> g_addr P + o -> a <= y < a + m -> load_byte (set_phys g (h_vm h)) y = load_byte (h_vm h) y) as Hmem.
  { intros a m y Hl Hne Hy. apply Hout. destruct (Z.lt_ge_cases y (g_addr P + o)); [auto|]. right.
    destruct (Z.lt_ge_cases y (g_addr P + o + psize P)); [|done]. destruct Hne.
    by destruct (live_apart _ _ _ Hok a m (g_addr P + o) (psize P) y Hl ltac:(left; exists P, o; auto) Hy ltac:(lia)). }
  unfold subpage_kfree. krun. cbn [read_cell]. krun. rewrite (find_page_heap h L big _ Hok), (contains_head h L big P) by (done || unfold contains; hlia).
  cbn [ref_of from_option]. destruct (Z.eqb_spec (g_ref P) 0); [done|]. krun. rewrite (get_ref_eq _ _ _ Hx). krun. rewrite Hpa, Hty.
  replace (u32 (g_addr P + o - g_addr P)) with o by (rewrite u32_small; hlia). rewrite Z.geb_leb, (proj2 (Z.leb_gt _ _)) by hlia.
  rewrite (proj2 (is_block_mod (block_size (g_type P)) o ltac:(lia) ltac:(hlia)) Hb). change (false || negb (0 =? 0)) with false. cbn iota.
  fold (psize P). erewrite K_then_eq by exact E1. unfold put_ref. krun. rewrite (ds_nfree _ _ Hd), !u16_small by hlia.
  unfold psize. rewrite En. unfold kassert. rewrite (proj2 (Z.leb_le _ _)) by lia. krun.
  fold x'. change (set_refs _ _) with h2. destruct (Z.eqb_spec (Z.of_nat (length (g_free P)) + 1) n) as [Hfull|Hnot].
  - destruct (lists_remove h2 L1 P' L2 (ho_lists _ _ _ Hok2) Ht) as (m&sb&ab&E2&Hli). change (g_ref P') with (g_ref P) in E2. change (g_type P') with (g_type P) in E2.
    krun. rewrite E2. krun. pose proof (ho_roots _ _ _ Hok2) as Hr2. pose proof (li_nodup _ _ _ _ (ho_lists _ _ _ Hok2)) as Hnd.
    set (h3 := mkHeap _ m _ sb ab).
    destruct (freepageref_eq h3 _ (g_ref <$> (L1 ++ L2)) (g_ref P) Hr2 (ho_vm _ _ _ Hok2)) as (roots'&E3&Hr3&Erp).
    { apply (list_elem_of_fmap_2 g_ref _ P'), elem_of_middle. by left. }
    { intros q. rewrite !fmap_app, fmap_cons in *. rewrite <- Permutation_middle, elem_of_cons. rewrite <- Permutation_middle in Hnd. apply NoDup_cons in Hnd as [Hnd _].
      change (g_ref P') with (g_ref P) in *. split; [intros Hq; split; [by intros ->|auto]|intros [? [?|?]]; done]. }
    rewrite E3. krun. eexists _, _. split; [reflexivity|]. split.
    + by apply (heap_ok_drop h2 L1 P' L2 big).
    + intros a m'. rewrite <- Hlive. unfold live. setoid_rewrite elem_of_middle. split; [naive_solver|].
      intros [(Q&o2&[->|HQ]&->&Hb2&Hnf2&->)|?]; [|left; eauto 8|auto]. destruct Hnf2. cbn [g_free P' with_free].
      apply (blocks_all (psize P) n); try done; unfold psize; cbn [length]; lia.
    + done.
  - krun. eexists _, _. split; [reflexivity|]. by split.
Qed.

Lemma one_less_big h L B1 p k B2 : heap_ok h L (B1 ++ (p, k) :: B2) -> one_less h h L L (B1 ++ (p, k) :: B2) (B1 ++ B2) p.
Proof.
  intros Hok. assert ((p, k) ∈ B1 ++ (p, k) :: B2) as Hin by (apply elem_of_middle; by left).
  assert (0 < k) as Hk by (pose proof (proj1 (Forall_forall _ _) (ho_big _ _ _ Hok) _ Hin); done).
  pose proof (heap_ok_unbig _ _ _ _ _ Hok) as Hok'. split; [done| |done].
  assert (forall k', (p, k') ∈ B1 ++ B2 -> False) as Hno.
  { intros k' Hk'. pose proof (ho_owned _ _ _ Hok) as H. unfold owned in H. rewrite bind_app, bind_cons in H.
    apply NoDup_app in H as (_&_&H). apply NoDup_app in H as (_&_&H).
    rewrite (Permutation_app_comm (big_pages _)), app_assoc, <- bind_app in H. apply NoDup_app in H as (_&H&_).
    assert (0 < k') as Hk0 by (pose proof (proj1 (Forall_forall _ _) (ho_big _ _ _ Hok') _ Hk'); done).
    apply (H p); [apply list_elem_of_bind; exists (p, k'); split; [|done]|]; apply elem_of_big_pages; exists 0; cbn; lia. }
  intros a m. unfold live. split.
  - intros [(P&o&HP&->&Ho&Hf&->)|(k'&Hk'&->)].
    + split; [left; by exists P, o|]. intros E.
      pose proof (big_page _ _ _ Hok p k p Hin ltac:(hlia)) as Hbp. pose proof (psize_16 _ _ _ Hok P HP).
      rewrite <- E in Hbp at 1. rewrite (block_page _ _ _ Hok P o _ HP Ho) in Hbp by lia. by apply (page_not_big _ _ _ Hok P) in Hbp.
    + split; [|by intros ->; eapply Hno]. right. exists k'. split; [|done]. apply elem_of_middle. by right.
  - intros [[?|(k'&[[= -> ->]|Hk']%elem_of_middle&->)] Hne]; [auto|done|]. right. eauto.
Qed.

Lemma kfree_eq h L big p n : heap_ok h L big -> live L big p n ->
  exists h' L' big', kfree p h = Done (tt, h') /\ one_less h h' L L' big big' p.
Proof.
  intros Hok Hl. pose proof (live_range _ _ _ Hok _ _ Hl) as (Hp&Hpt&_&Hn). unfold kfree. destruct (Z.eqb_spec p 0); [hlia|].
  destruct Hl as [(P&o&HP&->&Hb&Hnf&->)|(k&Hk&->)].
  - apply list_elem_of_split in HP as (L1&L2&->). destruct (subpage_kfree_eq h L1 P L2 big o Hok Hb Hnf) as (h'&L'&E&Hol).
    krun. rewrite E. krun. by exists h', L', big.
  - assert (filter (contains p) L = []) as Ef.
    { destruct (head (filter (contains p) L)) as [P|] eqn:E; [|by destruct (filter _ L)].
      apply head_filter in E as [HP Hc]. pose proof (contains_page _ _ _ P p Hok HP Hc) as Epg.
      pose proof (big_page _ _ _ Hok p k p Hk ltac:(hlia)) as Hbp. rewrite Epg in Hbp. by apply (page_not_big _ _ _ Hok P) in Hbp. }
    destruct (big_range _ _ _ Hok (p, k) p Hk) as (Hm&_&_); [apply elem_of_big_pages; exists 0; cbn; hlia|].
    apply list_elem_of_split in Hk as (B1&B2&->). exists h, L, (B1 ++ B2). split; [|by apply one_less_big].
    unfold subpage_kfree. krun. cbn [read_cell]. krun. rewrite (find_page_heap h L _ _ Hok), Ef. cbn [head ref_of from_option]. krun.
    unfold kassert. rewrite Hm. krun. unfold vmcall, zoom. cbn. by destruct h.
Qed.
