(* ===== verification/Allocator.v ===== *)
(** * The kernel heap as an allocator

    What the users of kmalloc and kfree rely on, stated without pages, free lists and
    pagerefs: a map of the blocks in use with their sizes, and the contents of their
    bytes.  [kheap_refines] says that the code of Kmalloc implements it for any client
    that frees only what it holds and writes only inside its blocks.  The rest of the
    file is about requests and frees outside that contract, and about the count of the
    bytes in use. *)

From S2P Require Import Prelude Dumbvm Kmalloc KernelHeap.

#[local] Set Warnings "-clear-no-such-hyp".

(** ** The abstract allocator *)

Inductive request :=
  | Malloc (sz : Z)       (* kmalloc *)
  | Free (p : Z)          (* kfree *)
  | Write (a b : Z)       (* the client stores a byte *)
  | Pages (n : Z).        (* another part of the kernel takes pages *)

Abbreviation blocks := (gmap Z Z).
Definition inside (a n x : Z) : Prop := a <= x < a + n.
Definition in_use (A : blocks) (x : Z) : Prop := exists a n, A !! a = Some n /\ inside a n x.

(** What a client may ask for when [A] is in use. *)
Definition allowed (A : blocks) (r : request) : Prop :=
  match r with
  | Malloc sz => 0 <= sz <= 2 ^ 30
  | Free p => p = 0 \/ is_Some (A !! p)
  | Write a b => in_use A a
  | Pages n => 0 < n < 2 ^ 18
  end.

(** A state is the blocks in use and the contents of memory; a step has a request and
    its result.  A new block is aligned, large enough and apart from those in use. *)
Inductive step : blocks * (Z -> Z) -> request -> Z -> blocks * (Z -> Z) -> Prop :=
  | step_none A c sz c' : (forall x, in_use A x -> c' x = c x) -> step (A, c) (Malloc sz) 0 (A, c')
  | step_malloc A c sz p n c' : p <> 0 -> p mod 16 = 0 -> sz <= n -> (forall x, in_use A x -> ~ inside p n x) ->
      (forall x, in_use A x -> c' x = c x) -> step (A, c) (Malloc sz) p (<[p := n]> A, c')
  | step_free A c p c' : (forall x, in_use (delete p A) x -> c' x = c x) -> step (A, c) (Free p) 0 (delete p A, c')
  | step_write A c a b : step (A, c) (Write a b) 0 (A, fun x => if x =? a then b else c x)
  | step_pages A c n p c' : (p <> 0 -> forall x, in_use A x -> ~ inside p (n * PAGE_SIZE) x) ->
      (forall x, in_use A x -> c' x = c x) -> step (A, c) (Pages n) p (A, c').

(** ** The kernel's side *)

Definition serve (r : request) : M Z :=
  match r with
  | Malloc sz => kmalloc 0 sz
  | Free p => kfree p;; mret 0
  | Write a b => modify (fun h => set_hvm (store_byte a b (h_vm h)) h);; mret 0
  | Pages n => vmcall (alloc_kpages 0 n)
  end.

(** The heap stands for the blocks [A] with contents [c]. *)
Definition rep (h : kheap) (st : blocks * (Z -> Z)) : Prop :=
  exists L big, heap_ok h L big /\ (forall a n, fst st !! a = Some n <-> live L big a n) /\
    forall x, in_use (fst st) x -> load_byte (h_vm h) x = snd st x.

Lemma rep_start s c : vm_ok s -> rep (kheap_start s) (∅, c).
Proof.
  intros Hs. exists [], []. split; [|split].
  - assert (forall w r, kheaproots (kheap_start s) !! w = Some r -> r = mkRoot 0 (replicate INUSE_WORDS 0) 0) as Hr
      by (cbn [kheaproots kheap_start]; by intros w r [-> _]%lookup_replicate).
    split; try done.
    + split; try done; [intros b p Hb [-> _]%lookup_replicate; done|by intros P ?%elem_of_nil|constructor].
    + split; [done|intros w r ->%Hr|by intros w r ->%Hr..|by intros w w' r r' _ ->%Hr|by intros w w' r r' ->%Hr|by intros w r j ->%Hr|by intros p ?%elem_of_nil].
      split; [done|by repeat constructor|by vm_compute].
    + constructor.
  - intros a n. cbn [fst]. rewrite lookup_empty. split; [done|]. intros [(P&_&HP%elem_of_nil&_)|(k&Hk%elem_of_nil&_)]; done.
  - intros x (a&n&Ha&_). done.
Qed.

(** One request: no panic, and a step of the allocator. *)
Lemma serve_step h st r : rep h st -> allowed (fst st) r ->
  exists v h' st', serve r h = Done (v, h') /\ step st r v st' /\ rep h' st'.
Proof.
  destruct st as [A c]. intros (L&big&Hok&HA&Hc) Hr. cbn [fst snd] in *.
  assert (forall x, in_use A x <-> exists a n, live L big a n /\ inside a n x) as Huse by (intros x; unfold in_use; by setoid_rewrite HA).
  destruct r as [sz|p|a b|n]; cbn [serve allowed] in *.
  - destruct (kmalloc_eq h L big sz Hok Hr) as (p&h'&E&[(->&Hok'&Hmem)|(Hp&L'&big'&n&Hn&[H1 H2 H3 H4])]); rewrite E.
    + exists 0, h', (A, c). split; [done|]. split; [by constructor|]. exists L, big. split; [done|]. split; [done|]. intros x Hx. cbn. by rewrite Hmem, Hc.
    + assert (live L' big' p n) as Hpn by (apply H2; auto). pose proof (live_range _ _ _ H1 _ _ Hpn) as (_&_&Hal&_).
      assert (A !! p = None) as Hnone by (destruct (A !! p) as [m|] eqn:Em; [by apply HA, H3 in Em|done]).
      assert (forall x, in_use A x -> ~ inside p n x) as Hapart.
      { intros x (a&m&Ha%HA&Hi) Hi'. destruct (live_apart _ _ _ H1 a m p n x) as [-> _]; [apply H2; auto|done..|]. by apply (H3 m). }
      exists p, h', (<[p := n]> A, load_byte (h_vm h')). split; [done|]. split.
      * apply step_malloc; try done. intros x (a&m&Ha%HA&Hi)%id. rewrite (H4 a m) by done. apply Hc. exists a, m. by rewrite HA.
      * exists L', big'. split; [done|]. split; [|done]. intros a m. cbn [fst]. rewrite H2, <- HA, lookup_insert_Some. split; [naive_solver|].
        intros [Ha|[-> ->]]; [right; split; [congruence|done]|by left].
  - destruct Hr as [->|[n Hn]].
    + exists 0, h, (delete 0 A, c). split; [done|]. assert (A !! 0 = None) as H0.
      { destruct (A !! 0) as [m|] eqn:Em; [|done]. apply HA in Em. pose proof (live_range _ _ _ Hok _ _ Em). hlia. }
      rewrite delete_id by done. split; [rewrite <- (delete_id A 0) at 2 by done; by constructor|]. by exists L, big.
    + apply HA in Hn. destruct (kfree_eq h L big p n Hok Hn) as (h'&L'&big'&E&[H1 H2 H3]).
      exists 0, h', (delete p A, load_byte (h_vm h')). split; [krun; by rewrite E|]. split.
      * constructor. intros x (a&m&[Hne Ha%HA]%lookup_delete_Some&Hi). rewrite (H3 a m) by done. apply Hc. exists a, m. by rewrite HA.
      * exists L', big'. split; [done|]. split; [|done]. intros a m. cbn [fst]. rewrite H2, <- HA, lookup_delete_Some. naive_solver.
  - destruct Hr as (a0&n&Ha%HA&Hi). eexists 0, _, (A, _). split; [reflexivity|]. split; [constructor|].
    exists L, big. split; [by eapply heap_ok_user|]. split; [done|]. intros x Hx. cbn [snd]. rewrite <- Hc by done.
    unfold load_byte, store_byte. cbn. destruct (Z.eqb_spec (x - MIPS_KSEG0) (a - MIPS_KSEG0)), (Z.eqb_spec x a); done || lia.
  - unfold vmcall, zoom. rewrite alloc_kpages_eq by (apply Hok || lia). case_bool_decide as Hroom; krun.
    + eexists (top (h_vm h)), _, (A, c). split; [reflexivity|]. split.
      * constructor; [|done]. intros _ x (a&m&Ha&Hi)%Huse Hi'. pose proof (live_range _ _ _ Hok _ _ Ha). unfold inside in *. lia.
      * exists L, big. split; [apply heap_ok_steal; done || lia|]. done.
    + exists 0, h, (A, c). split; [by destruct h|]. split; [by constructor|]. by exists L, big.
Qed.

(** ** Clients

    A client sees the requests so far with their results and says what comes next. *)

Definition history := list (request * Z).
Definition client := history -> request.

Fixpoint run (n : nat) (cl : client) (hist : history) : M history :=
  match n with
  | O => mret hist
  | S n => v ← serve (cl hist); run n cl (hist ++ [(cl hist, v)])
  end.

(** The histories of a client with the allocator. *)
Inductive trace (cl : client) (st0 : blocks * (Z -> Z)) : history -> blocks * (Z -> Z) -> Prop :=
  | trace_nil : trace cl st0 [] st0
  | trace_snoc hist st1 v st2 : trace cl st0 hist st1 -> step st1 (cl hist) v st2 -> trace cl st0 (hist ++ [(cl hist, v)]) st2.

(** It keeps to the contract whatever the allocator does. *)
Definition polite (cl : client) : Prop := forall c hist st, trace cl (∅, c) hist st -> allowed (fst st) (cl hist).

Lemma run_trace n cl st0 : forall hist st h, (forall hist st, trace cl st0 hist st -> allowed (fst st) (cl hist)) -> trace cl st0 hist st -> rep h st ->
  exists hist' h' st', run n cl hist h = Done (hist', h') /\ length hist' = (length hist + n)%nat /\ trace cl st0 hist' st' /\ rep h' st'.
Proof.
  induction n as [|n IH]; intros hist st h Hcl Ht Hrep; cbn [run].
  - exists hist, h, st. by rewrite Nat.add_0_r.
  - destruct (serve_step h st (cl hist) Hrep (Hcl _ _ Ht)) as (v&h1&st1&E&Hs&Hrep1). krun. rewrite E.
    destruct (IH (hist ++ [(cl hist, v)]) st1 h1 Hcl (trace_snoc _ _ _ _ _ _ Ht Hs) Hrep1) as (hist'&h'&st'&E'&Hlen&?&?).
    exists hist', h', st'. rewrite length_app in Hlen. cbn in Hlen. repeat split; try done. lia.
Qed.

(** C11. The kernel heap implements the allocator.  From the heap as the kernel starts it, a
    client that frees only blocks it holds and stores only inside them is served for
    ever, without a panic: every block it gets is aligned, as large as asked and apart
    from all others in use, and at every moment each byte in use has the contents last
    stored there, whatever the allocator has written into its free blocks. *)
Theorem kheap_refines s cl n : vm_ok s -> polite cl ->
  exists hist h A c, run n cl [] (kheap_start s) = Done (hist, h) /\ length hist = n /\
    trace cl (∅, load_byte s) hist (A, c) /\ forall x, in_use A x -> load_byte (h_vm h) x = c x.
Proof.
  intros Hs Hcl. destruct (run_trace n cl (∅, load_byte s) [] (∅, load_byte s) (kheap_start s)) as (hist&h&[A c]&E&Hlen&Ht&Hrep).
  - intros hist st. apply Hcl.
  - constructor.
  - by apply rep_start.
  - exists hist, h, A, c. destruct Hrep as (L&big&_&_&Hc). done.
Qed.

(** A client that takes a block, stores a byte in it, frees it and takes more. *)
Definition example_client : client := fun hist =>
  match hist with
  | [] => Malloc 20
  | [(Malloc _, p)] => if p =? 0 then Pages 1 else Write (p + 3) 7
  | [(Malloc _, p); _] => Free p
  | _ => Malloc 3000
  end.

Lemma trace_nil_inv cl st st' : trace cl st [] st' -> st' = st.
Proof. intros H. inversion H as [|hist st1 v st2 H1 H2 E]; [done|]. by destruct hist. Qed.

Lemma trace_snoc_inv cl st hist r v st2 : trace cl st (hist ++ [(r, v)]) st2 -> r = cl hist /\ exists st1, trace cl st hist st1 /\ step st1 r v st2.
Proof.
  intros H. inversion H as [E|hist' st1 v' st2' Ht Hs E]; [by destruct hist|].
  apply app_inj_2 in E as [-> [= <- ->]]; [|done]. eauto.
Qed.

Lemma example_first c v st : trace example_client (∅, c) [(Malloc 20, v)] st -> v = 0 \/ exists n, fst st = {[v := n]} /\ 20 <= n.
Proof.
  change [(Malloc 20, v)] with ([] ++ [(Malloc 20, v)]). intros (_&st1&->%trace_nil_inv&Hs)%trace_snoc_inv.
  inversion Hs; subst; [by left|right]. eexists. split; [|done]. apply insert_empty.
Qed.

Lemma example_polite : polite example_client.
Proof.
  intros c hist st Ht. destruct hist as [|[r v] [|[r2 w] [|e l]]]; [cbn; lia|..].
  - pose proof Ht as [-> _]%(trace_snoc_inv _ _ []). apply example_first in Ht. cbn. destruct (Z.eqb_spec v 0) as [|Hv]; [cbn; lia|].
    destruct Ht as [|(n&E&Hn)]; [done|]. exists v, n. rewrite E, lookup_singleton_eq. unfold inside. split; [done|lia].
  - pose proof Ht as (Er2&st1&Ht1&Hs)%(trace_snoc_inv _ _ [(r, v)]). pose proof Ht1 as [-> _]%(trace_snoc_inv _ _ []).
    apply example_first in Ht1. cbn in Er2. cbn. destruct Ht1 as [|(n&E&Hn)]; [auto|]. destruct (Z.eqb_spec v 0); [auto|]. right.
    subst r2. inversion Hs; subst. cbn in *. subst. by rewrite lookup_singleton_eq.
  - destruct r, e; cbn; lia.
Qed.

Definition small_ram : vm := mkVm 147456 524288 (fun _ => 0) [] ∅ 200 [].

Lemma kheap_refines_witness : exists hist h A c, run 5 example_client [] (kheap_start small_ram) = Done (hist, h) /\ length hist = 5%nat /\
    trace example_client (∅, load_byte small_ram) hist (A, c) /\ forall x, in_use A x -> load_byte (h_vm h) x = c x.
Proof. apply (kheap_refines small_ram example_client 5); [repeat split; vm_compute; discriminate || done|apply example_polite]. Defined.

(** ** When a request is refused *)

(** All entries of all pageref pages. *)
Definition all_entries (roots : list kheap_root) : list Z := roots ≫= fun r => (fun j => root_page r + j * 16) <$> seqZ 0 256.

Lemma refs_full_length s roots used : roots_ok s roots used -> ~ exhausted s -> refs_full roots -> 4096 <= Z.of_nat (length used).
Proof.
  intros H Hroom Hfull.
  assert (forall w r, roots !! w = Some r -> root_page r <> 0 /\ forall j, 0 <= j < 256 -> slot_used r j = true) as Hall.
  { intros w r Hr. pose proof (Hfull w r Hr) as Hn. change NPAGEREFS_PER_PAGE with 256 in Hn. split.
    - intros Hz. apply Hroom. eapply (rs_out _ _ _ H); eauto. lia.
    - intros j Hj. pose proof (ro_num _ (rs_ok _ _ _ H w r Hr)) as En. destruct (slot_used r j) eqn:E; [done|].
      assert (length (j :: slots r) <= length (seqZ 0 256))%nat as Hle; [|rewrite length_seqZ in Hle; cbn in Hle; lia].
      apply submseteq_length, NoDup_submseteq.
      + apply NoDup_cons. split; [|apply NoDup_slots]. rewrite elem_of_slots. intros [_ ?]. congruence.
      + intros i. rewrite elem_of_cons, elem_of_slots, elem_of_seqZ. naive_solver lia. }
  assert (NoDup (all_entries roots)) as Hnd.
  { apply NoDup_bind.
    - intros r r' y (w&Hr)%list_elem_of_lookup (w'&Hr')%list_elem_of_lookup (j&->&Hj%elem_of_seqZ)%list_elem_of_fmap (j'&E&Hj'%elem_of_seqZ)%list_elem_of_fmap.
      destruct (decide (w = w')) as [->|Hne]; [congruence|]. exfalso. destruct (Hall w r Hr) as [Hp _], (Hall w' r' Hr') as [Hp' _].
      destruct (entries_apart _ _ _ w w' r r' j H Hr Hr' Hne Hp Hp') as [?|?]; [lia|..]; hlia.
    - intros r _. apply (NoDup_fmap_2_strong _ _); [|apply NoDup_seqZ]. intros i j _ _ E. lia.
    - apply NoDup_alt. intros i j r Hi Hj. eapply (rs_distinct _ _ _ H); eauto. by apply (Hall i). }
  assert (Z.of_nat (length (all_entries roots)) = 4096) as <-.
  { pose proof (rs_len _ _ _ H) as Hl. unfold all_entries. clear -Hl.
    assert (forall l : list kheap_root, length (l ≫= fun r => (fun j => root_page r + j * 16) <$> seqZ 0 256) = (length l * 256)%nat) as E.
    { induction l as [|r l IH]; [done|]. rewrite bind_cons, length_app, IH, length_fmap, length_seqZ. cbn [length]. lia. }
    rewrite E, Hl. unfold NUM_PAGEREFPAGES. lia. }
  apply inj_le, submseteq_length, NoDup_submseteq; [done|].
  intros p (r&(j&->&Hj%elem_of_seqZ)%list_elem_of_fmap&(w&Hr)%list_elem_of_lookup)%list_elem_of_bind. destruct (Hall w r Hr) as [Hp Hu].
  apply (rs_used _ _ _ H w r j Hr Hp); [lia|]. apply Hu. lia.
Qed.

(** [kmalloc] refuses a small request only when no page of blocks of the right size has a
    free block, and memory is used up to less than two pages or the heap has its
    largest number of pages of blocks, 4096; a large one only when the pages are not
    there. *)
Theorem kmalloc_succeeds h L big sz : heap_ok h L big -> 0 <= sz <= 2 ^ 30 ->
  (if sz <? LARGEST_SUBPAGE_SIZE then
     (exists P b, blocktype sz = Done b /\ P ∈ L /\ g_type P = b /\ has_free P) \/
     (firstpaddr (h_vm h) + 2 * PAGE_SIZE <= lastpaddr (h_vm h) /\ Z.of_nat (length L) < 4096)
   else firstpaddr (h_vm h) + (sz + PAGE_SIZE - 1) / PAGE_SIZE * PAGE_SIZE <= lastpaddr (h_vm h)) ->
  exists p h', kmalloc 0 sz h = Done (p, h') /\ p <> 0.
Proof.
  intros Hok Hsz Hcond. unfold kmalloc. rewrite Z.geb_leb. destruct (Z.ltb_spec sz LARGEST_SUBPAGE_SIZE) as [Hs|Hs].
  - rewrite (proj2 (Z.leb_gt _ _)) by lia. destruct (subpage_kmalloc_eq h L big sz Hok ltac:(lia)) as (p&h'&E&[(->&Hno&Hfree)|(Hp&_)]); [|by exists p, h'].
    exfalso. destruct Hcond as [(P&b&Eb&HP&Et&Hf)|[Hroom Hlen]].
    + specialize (Hfree b Eb). rewrite Forall_forall in Hfree. apply (Hfree P); [|done]. by apply elem_of_of_type.
    + destruct (nm_why _ _ _ _ Hno) as [?|Hfull]; [lia|].
      pose proof (refs_full_length _ _ _ (ho_roots _ _ _ Hok) ltac:(unfold exhausted; hlia) Hfull) as Hn. rewrite length_fmap in Hn. lia.
  - change LARGEST_SUBPAGE_SIZE with 2048 in Hs. rewrite (proj2 (Z.leb_le _ _)) by done. rewrite npages_eq by done.
    unfold vmcall, zoom. krun. rewrite alloc_kpages_eq by (apply Hok || hlia). rewrite bool_decide_eq_true_2 by done. krun.
    destruct (vm_ok_top _ (ho_vm _ _ _ Hok)) as [Ht Hm]. destruct (Z.eqb_spec (top (h_vm h)) 0); [hlia|]. unfold kassert. rewrite Hm. krun. eauto.
Qed.

(** ** The count of the bytes in use *)

Definition zsum (l : list Z) : Z := foldr Z.add 0 l.

Lemma zsum_app l1 l2 : zsum (l1 ++ l2) = zsum l1 + zsum l2.
Proof. induction l1 as [|x l1 IH]; cbn; [done|]. unfold zsum in *. lia. Qed.

#[export] Instance zsum_proper : Proper ((≡ₚ) ==> eq) zsum.
Proof. induction 1; cbn; unfold zsum in *; lia. Qed.

Lemma zsum_const {A} (l : list A) c : zsum ((fun _ => c) <$> l) = c * Z.of_nat (length l).
Proof. induction l as [|x l IH]; cbn [fmap list_fmap zsum foldr length]; [lia|]. unfold zsum in IH. lia. Qed.

(** The sizes of the blocks smaller than a page. *)
Definition small_total (A : blocks) : Z := zsum (snd <$> filter (fun e : Z * Z => snd e < PAGE_SIZE) (map_to_list A)).

Definition page_blocks (P : hpage) : list Z := (fun i => psize P * i) <$> seqZ 0 (PAGE_SIZE / psize P).
Definition live_blocks (P : hpage) : list (Z * Z) := (fun o => (g_addr P + o, psize P)) <$> filter (fun o => o ∉ g_free P) (page_blocks P).

Section Used.
Context (h : kheap) (L : list hpage) (big : list (Z * Z)).
Hypothesis Hok : heap_ok h L big.

Lemma elem_of_page_blocks P o : P ∈ L -> o ∈ page_blocks P <-> is_block (psize P) o.
Proof.
  intros HP. destruct (size_facts _ (pg_type _ _ (page_of _ _ _ Hok P HP))) as (n&Hn&En&?&?&_). unfold page_blocks, psize in *. rewrite En.
  rewrite list_elem_of_fmap. unfold is_block. split.
  - intros (i&->&Hi%elem_of_seqZ). exists i. split; [done|]. split; [lia|]. nia.
  - intros (i&->&?&?). exists i. split; [done|]. apply elem_of_seqZ. nia.
Qed.

Lemma NoDup_page_blocks P : P ∈ L -> NoDup (page_blocks P).
Proof. intros HP. pose proof (psize_16 _ _ _ Hok P HP). apply (NoDup_fmap_2_strong _ _); [|apply NoDup_seqZ]. intros i j _ _ E. nia. Qed.

(** The bytes in use on one page. *)
Definition page_used (P : hpage) : Z := psize P * (PAGE_SIZE / psize P - Z.of_nat (length (g_free P))).

Lemma live_blocks_sum P : P ∈ L -> zsum (snd <$> live_blocks P) = page_used P.
Proof.
  intros HP. unfold live_blocks. rewrite <- list_fmap_compose. unfold compose. cbn [snd]. rewrite zsum_const. unfold page_used. f_equal.
  assert (filter (fun o => o ∈ g_free P) (page_blocks P) ≡ₚ g_free P) as E.
  { pose proof (page_of _ _ _ Hok P HP) as [_ _ _ Hn Hb _]. apply NoDup_Permutation; [by apply NoDup_filter, NoDup_page_blocks|done|].
    intros o. rewrite list_elem_of_filter, elem_of_page_blocks by done. rewrite Forall_forall in Hb. naive_solver. }
  apply Permutation_length in E. assert (Z.of_nat (length (page_blocks P)) = PAGE_SIZE / psize P) as El.
  { unfold page_blocks. rewrite length_fmap, length_seqZ. destruct (size_facts _ (pg_type _ _ (page_of _ _ _ Hok P HP))) as (n&Hn&En&?&_). unfold psize. lia. }
  rewrite <- El, <- E. pose proof (Permutation_length (filter_app_complement (fun o => o ∈ g_free P) (page_blocks P))) as Hl. rewrite length_app in Hl. lia.
Qed.

Lemma elem_of_live_blocks P a n : P ∈ L -> (a, n) ∈ live_blocks P <-> exists o, a = g_addr P + o /\ is_block (psize P) o /\ (o ∉ g_free P) /\ n = psize P.
Proof.
  intros HP. unfold live_blocks. rewrite list_elem_of_fmap. setoid_rewrite list_elem_of_filter. split.
  - intros (o&[= -> ->]&?&Ho%(elem_of_page_blocks P)); [eauto 6|done].
  - intros (o&->&?&?&->). exists o. split; [done|]. split; [done|]. by apply elem_of_page_blocks.
Qed.

Lemma small_blocks A : (forall a n, A !! a = Some n <-> live L big a n) -> filter (fun e : Z * Z => snd e < PAGE_SIZE) (map_to_list A) ≡ₚ L ≫= live_blocks.
Proof.
  intros HA. apply NoDup_Permutation.
  - apply NoDup_filter, NoDup_map_to_list.
  - apply NoDup_bind.
    + intros P Q [a n] HP HQ (o&->&Ho&_&->)%elem_of_live_blocks (o'&E&Ho'&_&_)%elem_of_live_blocks; [|done..].
      pose proof (psize_16 _ _ _ Hok P HP). pose proof (psize_16 _ _ _ Hok Q HQ). apply (page_inj _ _ _ Hok); [done..|].
      assert (page (g_addr P + o) = g_addr P) as E1 by (apply (block_page _ _ _ Hok P o); done || lia).
      assert (page (g_addr P + o) = g_addr Q) as E2 by (apply (block_page _ _ _ Hok Q o'); done || lia). congruence.
    + intros P HP. apply (NoDup_fmap_2_strong _ _); [|by apply NoDup_filter, NoDup_page_blocks]. intros o o' _ _ [= E]. lia.
    + eapply NoDup_fmap_1, (li_nodup _ _ _ _ (ho_lists _ _ _ Hok)).
  - intros [a n]. rewrite list_elem_of_filter, elem_of_map_to_list, HA, list_elem_of_bind. cbn [snd]. split.
    + intros [Hn [(P&o&HP&->&Ho&Hf&->)|(k&Hk&->)]]; [exists P; split; [apply elem_of_live_blocks; eauto|done]|].
      pose proof (proj1 (Forall_forall _ _) (ho_big _ _ _ Hok) _ Hk) as Hk0. cbn in Hk0. hlia.
    + intros (P&Hl&HP). apply elem_of_live_blocks in Hl as (o&->&Ho&Hf&->); [|done]. split; [|left; by exists P, o].
      destruct (size_facts _ (pg_type _ _ (page_of _ _ _ Hok P HP))) as (_&_&_&_&?&_). unfold psize. hlia.
Qed.

Lemma small_total_eq A : (forall a n, A !! a = Some n <-> live L big a n) -> small_total A = zsum (page_used <$> L).
Proof.
  intros HA. unfold small_total. rewrite (small_blocks A HA). clear HA.
  assert (forall l, (forall P, P ∈ l -> P ∈ L) -> zsum (snd <$> (l ≫= live_blocks)) = zsum (page_used <$> l)) as H; [|by apply H].
  induction l as [|P l IH]; intros Hl; [done|]. rewrite bind_cons, fmap_app, zsum_app, live_blocks_sum by (apply Hl; left).
  rewrite IH by (intros; apply Hl; by right). done.
Qed.

(** *** The walk of [kheap_getused] *)

Lemma mark_free_eq pa s n l : forall fuel map, (length l < fuel)%nat -> 0 < s -> s * n = PAGE_SIZE -> MIPS_KSEG0 < pa -> pa + PAGE_SIZE <= MIPS_KSEG0 + 2 ^ 29 ->
  Forall (is_block s) l -> free_chain (h_vm h) pa l -> exists map', mark_free fuel (first_free pa l) pa s n map h = Done (map', h).
Proof.
  induction l as [|o l IH]; intros [|fuel] map Hf Hs Hsn Hpa Hpe Hb Hc; try (cbn in Hf; lia); cbn [mark_free first_free]; [by exists map|].
  apply Forall_cons in Hb as [(i&->&Hi&Hlt) Hb]. destruct Hc as [Hw Hc]. destruct (Z.eqb_spec (pa + s * i) 0); [hlia|].
  replace (u32 (pa + s * i - pa)) with (s * i) by (rewrite u32_small; hlia). rewrite Z.mul_comm, Z.div_mul by lia.
  krun. unfold kassert. rewrite (proj2 (Z.ltb_lt i n)) by nia. krun. unfold load. krun. rewrite (Z.mul_comm i), Hw. apply IH; auto. cbn in Hf. lia.
Qed.

Lemma subpage_stats_eq P : P ∈ L -> exists map, subpage_stats (g_ref P) h = Done ((map, page_used P), h).
Proof.
  intros HP. destruct (heap_described _ _ _ Hok P HP) as (Hg&x&Hx&Hd). destruct (describes_addr _ _ _ Hg Hd) as [Hpa Hty].
  pose proof Hg as [Ht Ha Hr Hn Hb Hc]. destruct (size_facts _ Ht) as (n&Hsn&En&Hn2&Hsz&_). pose proof (free_length _ _ Hg) as Hlen. unfold psize in *. rewrite En in Hlen.
  unfold subpage_stats. krun. rewrite (get_ref_eq _ _ _ Hx). krun. rewrite Hpa, Hty, En. unfold kassert.
  rewrite (proj2 (Z.ltb_lt _ _)) by lia. krun. rewrite (proj2 (Z.leb_le _ _)) by lia. krun. rewrite (ds_off _ _ Hd), (ds_nfree _ _ Hd).
  assert (u32 (block_size (g_type P) * u32 (n - Z.of_nat (length (g_free P)))) = page_used P) as ->.
  { unfold page_used, psize. rewrite En, (u32_small (n - _)), u32_small by (change PAGE_SIZE with 4096 in *; nia). done. }
  destruct (g_free P) as [|o l] eqn:El; [change (INVALID_OFFSET =? INVALID_OFFSET) with true; krun; eauto|].
  pose proof (proj1 (Forall_cons _ _ _) Hb) as [Hbo _]. destruct (block_bounds _ _ Ht Hbo). destruct (Z.eqb_spec o INVALID_OFFSET) as [E|_]; [unfold INVALID_OFFSET in E; hlia|].
  destruct (mark_free_eq (g_addr P) (block_size (g_type P)) n (o :: l) (S (Z.to_nat n)) (replicate 8 0)) as (map&E); try done; try lia.
  exists map. rewrite u32_small by hlia. cbn [first_free] in E. rewrite E. krun. done.
Qed.

Lemma page_used_bounds P : P ∈ L -> 0 <= page_used P <= PAGE_SIZE.
Proof.
  intros HP. pose proof (page_of _ _ _ Hok P HP) as Hg. pose proof (free_length _ _ Hg). destruct (size_facts _ (pg_type _ _ Hg)) as (n&Hsn&En&Hn2&Hsz&_).
  unfold page_used, psize in *. rewrite En in *. nia.
Qed.

Lemma used_from_eq l : forall fuel p total np, linked next_all (refs h) p (g_ref <$> l) -> (forall P, P ∈ l -> P ∈ L) -> (length l < fuel)%nat ->
  0 <= total -> total + PAGE_SIZE * Z.of_nat (length l) < 2 ^ 32 ->
  exists np', used_from fuel p total np h = Done ((total + zsum (page_used <$> l), np'), h).
Proof.
  induction l as [|P l IH]; intros [|fuel] p total np Hl Hin Hf Ht Htm; try (cbn in Hf; lia); cbn [used_from].
  - cbn in Hl. subst p. exists np. cbn [fmap list_fmap zsum foldr]. rewrite Z.add_0_r. done.
  - cbn in Hl. destruct Hl as (->&Hnz&x&Hx&Hl). destruct (Z.eqb_spec (g_ref P) 0); [done|]. assert (P ∈ L) as HP by (apply Hin; left).
    destruct (subpage_stats_eq P HP) as (map&E). pose proof (page_used_bounds P HP). cbn [length] in Htm, Hf. krun. rewrite E. krun. rewrite (get_ref_eq _ _ _ Hx). krun.
    rewrite u32_small by hlia. destruct (IH fuel (next_all x) (total + page_used P) (u32 (np + 1)) Hl) as (np'&E'); [intros; apply Hin; by right|lia..|].
    exists np'. rewrite E'. change (zsum (page_used <$> (P :: l))) with (page_used P + zsum (page_used <$> l)). by rewrite Z.add_assoc.
Qed.

(** Pages are apart, so there are few enough. *)
Lemma pages_length : Z.of_nat (length L) <= 2 ^ 17.
Proof.
  rewrite <- (length_fmap g_addr L). change (2 ^ 17) with (Z.of_nat (Z.to_nat (2 ^ 17))). apply inj_le.
  rewrite <- (length_seqZ 1 (2 ^ 17)), <- (length_fmap (fun i => MIPS_KSEG0 + i * PAGE_SIZE) (seqZ 1 (2 ^ 17))). apply submseteq_length, NoDup_submseteq.
  - pose proof (ho_owned _ _ _ Hok) as H. by apply NoDup_app in H as [? _].
  - intros a (P&->&HP)%list_elem_of_fmap. destruct (page_of _ _ _ Hok P HP) as [_ Ha Hr _ _ _]. apply list_elem_of_fmap.
    exists ((g_addr P - MIPS_KSEG0) / PAGE_SIZE). rewrite elem_of_seqZ. hlia.
Qed.
End Used.

(** [kheap_getused] is the total size of the blocks in use that are smaller than a page; it
    changes nothing, and the loops along the lists end. *)
Theorem kheap_getused_total h A c : rep h (A, c) -> kheap_getused h = Done (small_total A, h).
Proof.
  intros (L&big&Hok&HA&_). cbn [fst] in HA. rewrite (small_total_eq h L big Hok A HA).
  pose proof (ho_lists _ _ _ Hok) as Hli. pose proof (lists_fuel _ _ _ _ Hli) as Hf. pose proof (pages_length h L big Hok).
  destruct (used_from_eq h L big Hok L (list_fuel h) (allbase h) 0 0) as (np&E); [by apply (li_all _ _ _ _ Hli)|done|unfold list_fuel; lia|done|hlia|].
  unfold kheap_getused. krun. cbn [read_cell]. krun. rewrite E. done.
Qed.

(** ** Outside the contract *)

Lemma kmalloc_wrapped h : vm_ok (h_vm h) -> PAGE_SIZE < firstpaddr (h_vm h) ->
  kmalloc 0 (2 ^ 32 - PAGE_SIZE) h = Done (top (h_vm h), set_hvm (set_first (firstpaddr (h_vm h) - PAGE_SIZE) (h_vm h)) h).
Proof.
  intros Hs Hf. destruct (vm_ok_top _ Hs) as [Ht Hm]. destruct Hs as (H0&H1&H2). unfold kmalloc. change (2 ^ 32 - PAGE_SIZE >=? LARGEST_SUBPAGE_SIZE) with true.
  change (u32 (u32 (2 ^ 32 - PAGE_SIZE + PAGE_SIZE) - 1) / PAGE_SIZE) with 1048575. cbn iota. unfold vmcall, zoom, alloc_kpages, dumbvm_can_sleep, kassert, getppages, ram_stealmem. krun.
  change (u32 (1048575 * PAGE_SIZE)) with (2 ^ 32 - PAGE_SIZE).
  replace (u32 (firstpaddr (h_vm h) + (2 ^ 32 - PAGE_SIZE))) with (firstpaddr (h_vm h) - PAGE_SIZE) by (unfold u32; hlia).
  rewrite Z.gtb_ltb, (proj2 (Z.ltb_ge _ _)) by hlia. krun. destruct (Z.eqb_spec (firstpaddr (h_vm h)) 0); [hlia|]. krun.
  unfold PADDR_TO_KVADDR. rewrite u32_small by hlia. rewrite Z.add_comm. fold (top (h_vm h)). destruct (Z.eqb_spec (top (h_vm h)) 0); [hlia|].
  unfold kassert. rewrite Hm. krun. done.
Qed.

Lemma kmalloc_page h : vm_ok (h_vm h) -> firstpaddr (h_vm h) + PAGE_SIZE <= lastpaddr (h_vm h) ->
  kmalloc 0 PAGE_SIZE h = Done (top (h_vm h), set_hvm (steal 1 (h_vm h)) h).
Proof.
  intros Hs Hroom. unfold kmalloc. change (PAGE_SIZE >=? LARGEST_SUBPAGE_SIZE) with true. change (u32 (u32 (PAGE_SIZE + PAGE_SIZE) - 1) / PAGE_SIZE) with 1.
  cbn iota. unfold vmcall, zoom. krun. rewrite alloc_kpages_eq by done. rewrite bool_decide_eq_true_2 by hlia. krun.
  destruct (vm_ok_top _ Hs) as [Ht Hm]. destruct (Z.eqb_spec (top (h_vm h)) 0); [hlia|]. unfold kassert. rewrite Hm. krun. done.
Qed.

(** Sizes are not checked against wrap-around.  A request for all but the last page of
    the address space succeeds, whatever memory there is, and sets the end of the used
    memory back by a page: the page given out before is given out again, so that two
    blocks in use are the same. *)
Theorem kmalloc_wraps h : vm_ok (h_vm h) -> firstpaddr (h_vm h) + PAGE_SIZE <= lastpaddr (h_vm h) ->
  exists h', (a ← kmalloc 0 PAGE_SIZE; b ← kmalloc 0 (2 ^ 32 - PAGE_SIZE); c ← kmalloc 0 PAGE_SIZE; mret [a; b; c]) h = Done ([top (h_vm h); top (h_vm h) + PAGE_SIZE; top (h_vm h)], h').
Proof.
  intros Hs Hroom. assert (vm_ok (steal 1 (h_vm h))) as Hs1 by (apply vm_ok_steal; [done|lia|hlia]). destruct Hs as (H0&H1&H2).
  krun. rewrite kmalloc_page by (by repeat split; lia). krun. rewrite kmalloc_wrapped by (done || (cbn; hlia)). krun.
  cbn [h_vm set_hvm]. rewrite top_steal. change (1 * PAGE_SIZE) with PAGE_SIZE.
  assert (set_first (firstpaddr (steal 1 (h_vm h)) - PAGE_SIZE) (steal 1 (h_vm h)) = h_vm h) as ->.
  { unfold steal, set_first. cbn. destruct (h_vm h). cbn. f_equal. hlia. }
  rewrite kmalloc_page; [|by repeat split; cbn; lia|done]. krun. cbn [h_vm set_hvm]. eauto.
Qed.

(** What [kfree] notices.  An address on a page of blocks that is not the start of a block,
    the block freed last on its page, and an address on no such page that is not the start
    of a page: each is a panic.  The start of any page without blocks is accepted, in use
    or not. *)
Theorem kfree_checks h L big a : heap_ok h L big -> a <> 0 ->
  (forall P, P ∈ L -> contains a P ->
     (~ is_block (psize P) (a - g_addr P) -> kfree a h = Panic) /\
     (forall l, g_free P = (a - g_addr P) :: l -> kfree a h = Panic)) /\
  (Forall (fun P => ~ contains a P) L -> kfree a h = if a mod PAGE_SIZE =? 0 then Done (tt, h) else Panic).
Proof.
  intros Hok Ha0. split.
  - intros P HP Hc. pose proof Hc as Hc'. unfold contains in Hc'. destruct (heap_described _ _ _ Hok P HP) as (Hg&x&Hx&Hd). destruct (describes_addr _ _ _ Hg Hd) as [Hpa Hty].
    pose proof Hg as [Ht Hal Hr Hn Hb _]. destruct (size_facts _ Ht) as (n&Hsn&En&Hn2&Hsz&_). pose proof (ref_of_zero _ _ _ _ Hok HP) as Hnz.
    unfold kfree. rewrite (proj2 (Z.eqb_neq _ _) Ha0). unfold subpage_kfree. krun. cbn [read_cell]. krun.
    rewrite (find_page_heap h L big _ Hok), (contains_head h L big P) by done. cbn [ref_of from_option]. destruct (Z.eqb_spec (g_ref P) 0); [done|].
    krun. rewrite (get_ref_eq _ _ _ Hx). krun. rewrite Hpa, Hty. replace (u32 (a - g_addr P)) with (a - g_addr P) by (rewrite u32_small; hlia).
    rewrite Z.geb_leb, (proj2 (Z.leb_gt _ _)) by hlia. split.
    + intros Hnb. destruct (Z.eqb_spec ((a - g_addr P) mod block_size (g_type P)) 0) as [E|E]; [|done].
      destruct Hnb. apply is_block_mod; [unfold psize; lia|hlia|done].
    + intros l El. rewrite El in Hb. apply Forall_cons in Hb as [Hb _]. destruct (block_bounds _ _ Ht Hb).
      rewrite (proj2 (is_block_mod (block_size (g_type P)) (a - g_addr P) ltac:(lia) ltac:(hlia)) Hb). change (false || negb (0 =? 0)) with false. cbn iota.
      unfold fill_deadbeef, link_front. krun. destruct (fill_from_eq (Z.to_nat (block_size (g_type P) / 4)) 0 a h) as (h1&E1&_). rewrite E1.
      rewrite (ds_off _ _ Hd), El. destruct (Z.eqb_spec (a - g_addr P) INVALID_OFFSET) as [E|_]; [unfold INVALID_OFFSET in E; hlia|].
      unfold kassert. rewrite Z.eqb_refl. krun. done.
  - intros Hno. assert (head (filter (contains a) L) = None) as En.
    { destruct (head (filter (contains a) L)) as [P|] eqn:E; [|done]. apply head_filter in E as [HP Hc]. rewrite Forall_forall in Hno. by destruct (Hno P HP). }
    unfold kfree. rewrite (proj2 (Z.eqb_neq _ _) Ha0). unfold subpage_kfree. krun. cbn [read_cell]. krun. rewrite (find_page_heap h L big _ Hok), En. cbn [ref_of from_option]. krun.
    unfold kassert. destruct (a mod PAGE_SIZE =? 0); krun; [|done]. unfold vmcall, zoom. cbn. by destruct h.
Qed.

(** ** The hypotheses hold: a heap with one block of 32 bytes *)

Lemma small_ram_ok : vm_ok small_ram.
Proof. repeat split; vm_compute; discriminate || done. Qed.

Definition used_heap : kheap := match kmalloc 0 20 (kheap_start small_ram) with Done (_, h) => h | _ => kheap_start small_ram end.

Lemma serve_malloc sz h : serve (Malloc sz) h = kmalloc 0 sz h.
Proof. reflexivity. Qed.

Lemma used_heap_rep : exists n c, rep used_heap ({[ 2147635168 := n ]}, c) /\ 20 <= n.
Proof.
  destruct (serve_step (kheap_start small_ram) (∅, fun _ => 0) (Malloc 20) (rep_start _ _ small_ram_ok)) as (v&h&[A c]&E&Hs&Hrep); [cbn; lia|].
  assert (v = 2147635168 /\ used_heap = h) as [-> <-].
  { rewrite serve_malloc in E. unfold used_heap. rewrite E. split; [|reflexivity]. assert (match kmalloc 0 20 (kheap_start small_ram) with Done (v, _) => v | _ => 0 end = 2147635168) as H by (vm_compute; reflexivity).
    rewrite E in H. exact H. }
  clear E. inversion Hs; subst. exists n, c. rewrite insert_empty in Hrep. split; [exact Hrep|assumption].
Qed.

Lemma kheap_getused_total_witness : exists n, 20 <= n /\ kheap_getused used_heap = Done (small_total {[ 2147635168 := n ]}, used_heap).
Proof.
  destruct used_heap_rep as (n&c&Hrep&Hn). exists n. split; [exact Hn|]. exact (kheap_getused_total _ _ _ Hrep).
Defined.

Lemma kmalloc_wraps_witness : exists h', (a ← kmalloc 0 PAGE_SIZE; b ← kmalloc 0 (2 ^ 32 - PAGE_SIZE); c ← kmalloc 0 PAGE_SIZE; mret [a; b; c]) (kheap_start small_ram) =
  Done ([top small_ram; top small_ram + PAGE_SIZE; top small_ram], h').
Proof. apply (kmalloc_wraps (kheap_start small_ram)); [exact small_ram_ok|vm_compute; discriminate]. Defined.

Lemma kmalloc_succeeds_witness : exists p h', kmalloc 0 20 (kheap_start small_ram) = Done (p, h') /\ p <> 0.
Proof.
  destruct (rep_start small_ram (fun _ => 0) small_ram_ok) as (L&big&Hok&HA&_).
  assert (L = []) as ->.
  { pose proof (li_all _ _ _ _ (ho_lists _ _ _ Hok)) as H. destruct L as [|P L]; [done|]. destruct H as (_&_&x&Hx&_). done. }
  apply (kmalloc_succeeds _ [] big 20 Hok); [lia|]. right. split; [vm_compute; discriminate|done].
Defined.

Lemma kfree_checks_witness : kfree 2147635169 used_heap = Panic.
Proof.
  destruct used_heap_rep as (n&c&(L&big&Hok&HA&_)&Hn). destruct (proj1 (HA 2147635168 n)) as [(P&o&HP&Ea&Hb&Hf&En)|(k&Hk&En)]; [apply lookup_singleton_eq| |].
  - destruct (kfree_checks used_heap L big 2147635169 Hok) as [H _]; [done|].
    destruct (block_bounds _ _ (pg_type _ _ (page_of _ _ _ Hok P HP)) Hb). pose proof (psize_16 _ _ _ Hok P HP). unfold psize in *.
    apply (H P HP); [unfold contains; lia|]. replace (2147635169 - g_addr P) with (o + 1) by lia. intros Hb1.
    destruct (blocks_apart (block_size (g_type P)) o (o + 1) ltac:(lia) Hb Hb1); lia.
  - exfalso. destruct (big_range _ _ _ Hok _ 2147635168 Hk) as (Hm&_); [apply elem_of_big_pages; exists 0; cbn|by vm_compute in Hm].
    pose proof (proj1 (Forall_forall _ _) (ho_big _ _ _ Hok) _ Hk) as Hk0. cbn in Hk0. lia.
Defined.
