(* ===== verification/Exec.v ===== *)
(** * syscall/loadelf.c, runprogram.c and execv.c: executing programs

    A program file is read through its vnode into the memory of an address space.  The
    user's memory is that of Dumbvm: [umem_of] is the memory as the user's addresses see
    it, and what a read stores there goes back to physical memory with [phys_of].  The
    faults on the way are not followed one by one: [Dumbvm.tlb_refines] shows that the
    TLB gives the user this memory as long as no more than NUM_TLB pages are touched
    after an activation. *)

From S2P Require Import Prelude Synch Cstring CopyInOut Uio LinkedList Vop Vfs FileTable FileSyscalls Dumbvm Proc.

Definition ENOEXEC : Z := 13.
Definition E2BIG : Z := 14.
Definition ARG_MAX : Z := 64 * 1024.

(** ** The file's headers, as the big-endian machine finds them in memory *)

Definition byte_at (l : list Z) (i : nat) : Z := nth i l 0.
Definition half_at (l : list Z) (i : nat) : Z := byte_at l i * 256 + byte_at l (i + 1).
Definition word_at (l : list Z) (i : nat) : Z := un_be32 (byte_at l i) (byte_at l (i + 1)) (byte_at l (i + 2)) (byte_at l (i + 3)).

Record Elf_Ehdr := mkEhdr {
  e_ident : list Z; e_type : Z; e_machine : Z; e_version : Z; e_entry : Z; e_phoff : Z; e_shoff : Z; e_flags : Z;
  e_ehsize : Z; e_phentsize : Z; e_phnum : Z; e_shentsize : Z; e_shnum : Z; e_shstrndx : Z }.
Definition sizeof_Ehdr : Z := 52.
Definition read_Ehdr (l : list Z) : Elf_Ehdr :=
  mkEhdr (take 16 l) (half_at l 16) (half_at l 18) (word_at l 20) (word_at l 24) (word_at l 28) (word_at l 32) (word_at l 36)
    (half_at l 40) (half_at l 42) (half_at l 44) (half_at l 46) (half_at l 48) (half_at l 50).

Record Elf_Phdr := mkPhdr {
  p_type : Z; p_offset : Z; p_vaddr : Z; p_paddr : Z; p_filesz : Z; p_memsz : Z; p_flags : Z; p_align : Z }.
Definition sizeof_Phdr : Z := 32.
Definition read_Phdr (l : list Z) : Elf_Phdr :=
  mkPhdr (word_at l 0) (word_at l 4) (word_at l 8) (word_at l 12) (word_at l 16) (word_at l 20) (word_at l 24) (word_at l 28).

Definition EI_CLASS : nat := 4.
Definition EI_DATA : nat := 5.
Definition EI_VERSION : nat := 6.
Definition ELFMAG : list Z := [127; 69; 76; 70].
Definition ELFCLASS32 : Z := 1.
Definition ELFDATA2MSB : Z := 2.
Definition EV_CURRENT : Z := 1.
Definition ET_EXEC : Z := 2.
Definition EM_MACHINE : Z := 8.
Definition PT_NULL : Z := 0.
Definition PT_LOAD : Z := 1.
Definition PT_PHDR : Z := 6.
Definition PT_MIPS_REGINFO : Z := 1879048192.
Definition PF_X : Z := 1.

(** The test on the header; the first four bytes of [e_ident] are compared one by one. *)
Definition good_Ehdr (eh : Elf_Ehdr) : bool :=
  (byte_at (e_ident eh) 0 =? byte_at ELFMAG 0) && (byte_at (e_ident eh) 1 =? byte_at ELFMAG 1) &&
  (byte_at (e_ident eh) 2 =? byte_at ELFMAG 2) && (byte_at (e_ident eh) 3 =? byte_at ELFMAG 3) &&
  (byte_at (e_ident eh) EI_CLASS =? ELFCLASS32) && (byte_at (e_ident eh) EI_DATA =? ELFDATA2MSB) &&
  (byte_at (e_ident eh) EI_VERSION =? EV_CURRENT) && (e_version eh =? EV_CURRENT) && (e_type eh =? ET_EXEC) && (e_machine eh =? EM_MACHINE).

(** The [switch] on a segment's type: is it to be loaded? *)
Definition to_load (ph : Elf_Phdr) : res bool :=
  if (p_type ph =? PT_NULL) || (p_type ph =? PT_PHDR) || (p_type ph =? PT_MIPS_REGINFO) then Ok false else
  if p_type ph =? PT_LOAD then Ok true else Err ENOEXEC.

#[export] Instance res_bool_eq_dec : EqDecision (res bool).
Proof. solve_decision. Defined.

(** [offset]; the arithmetic is that of 32-bit numbers. *)
Definition phdr_offset (eh : Elf_Ehdr) (i : Z) : Z := u32 (e_phoff eh + i * e_phentsize eh).

(** ** The user's memory *)

Definition region_bytes (g : Z -> Z) (vbase pbase npages : Z) : list (Z * Z) :=
  (fun i => (vbase + i, g (pbase + i))) <$> seqZ 0 (npages * PAGE_SIZE).
Definition umem_of (s : vm) (x : addrspace) : umem :=
  list_to_map (region_bytes (phys s) (as_vbase1 x) (as_pbase1 x) (as_npages1 x) ++
    region_bytes (phys s) (as_vbase2 x) (as_pbase2 x) (as_npages2 x) ++
    region_bytes (phys s) (USERSTACK - DUMBVM_STACKPAGES * PAGE_SIZE) (as_stackpbase x) DUMBVM_STACKPAGES).

(** The user's address of a byte of physical memory. *)
Definition user_addr (x : addrspace) (a : Z) : option Z :=
  list_find (fun va => translate x va = Some a)
    [a - as_pbase1 x + as_vbase1 x; a - as_pbase2 x + as_vbase2 x; a - as_stackpbase x + (USERSTACK - DUMBVM_STACKPAGES * PAGE_SIZE)] ≫= fun r => Some (snd r).
Definition phys_of (x : addrspace) (m : umem) (g : Z -> Z) : Z -> Z := fun a =>
  match user_addr x a with Some va => default (g a) (m !! va) | None => g a end.

(** What [vm_fault] asserts about the space of a process that touches its memory. *)
Definition prepared (x : addrspace) : bool :=
  negb (as_vbase1 x =? 0) && negb (as_pbase1 x =? 0) && negb (as_npages1 x =? 0) &&
  (negb (as_vbase2 x =? 0) && negb (as_pbase2 x =? 0) && negb (as_npages2 x =? 0)) && negb (as_stackpbase x =? 0) &&
  (aligned (as_vbase1 x) && aligned (as_pbase1 x) && aligned (as_vbase2 x) && aligned (as_pbase2 x) && aligned (as_stackpbase x)).

Section Exec.
Context {S : Type} `{!Vops S}.
Implicit Types k : kern S.
Abbreviation M := (K (kern S)).

Definition vop_read (v : Z) (u : uio) : M (Z * uio) := fvcall (fsop (fun s => '(r, u, s) ← VOP_READ s v u; mret ((r, u), s))).

(** A header at [offset] of the file, into the [size] bytes at [buf]. *)
Definition read_header (v : Z) (buf : list Z) (size offset : Z) : M (res (list Z)) :=
  '(result, ku) ← vop_read v (uio_kinit buf size offset UIO_READ);
  if negb (result =? 0) then mret (Err result) else
  if negb (uio_resid ku =? 0) then mret (Err ENOEXEC) else mret (Ok (uio_mem ku)).

(** The address space [a] must be prepared when a byte is loaded. *)
Definition load_segment (a v offset vaddr memsize filesize : Z) (is_executable : bool) : M Z :=
  let filesize := if filesize >? memsize then memsize else filesize in
  x ← vmcall (get_as a);
  kassert (negb (filesize >? 0) || prepared x);;
  s ← gets k_vm;
  let seg := if is_executable then UIO_USERISPACE else UIO_USERSPACE in
  '(result, u) ← vop_read v (mkUio [] [mkIovec (iov_ubase vaddr) memsize] 1 offset filesize seg UIO_READ (Some (umem_of s x)));
  m ← lift (deref (uio_space u));
  vmcall (modify (fun s => set_phys (phys_of x m (phys s)) s));;
  if negb (result =? 0) then mret result else
  if negb (uio_resid u =? 0) then mret ENOEXEC else mret result.

(** One round of each loop: the program header, and what is done with it. *)
Definition with_phdr (v : Z) (eh : Elf_Ehdr) (ph0 : list Z) (i : Z) (f : Elf_Phdr -> M Z) : M Z :=
  r ← read_header v ph0 sizeof_Phdr (phdr_offset eh i);
  match r with
  | Err result => mret result
  | Ok l =>
    let ph := read_Phdr l in
    match to_load ph with
    | Err result => mret result
    | Ok false => mret 0
    | Ok true => f ph
    end
  end.
Fixpoint for_phdrs (n : nat) (i v : Z) (eh : Elf_Ehdr) (ph0 : list Z) (f : Elf_Phdr -> M Z) : M Z :=
  match n with
  | O => mret 0
  | Datatypes.S n => result ← with_phdr v eh ph0 i f; if negb (result =? 0) then mret result else for_phdrs n (i + 1) v eh ph0 f
  end.

(** [eh0] and [ph0] are what the stack held; the entry point. *)
Definition load_elf (eh0 ph0 : list Z) (v : Z) : M (res Z) :=
  a ← proc_getas;
  r ← read_header v eh0 sizeof_Ehdr 0;
  match r with
  | Err result => mret (Err result)
  | Ok l =>
    let eh := read_Ehdr l in
    if negb (good_Ehdr eh) then mret (Err ENOEXEC) else
    result ← for_phdrs (Z.to_nat (e_phnum eh)) 0 v eh ph0 (fun ph => vmcall (as_define_region a (p_vaddr ph) (p_memsz ph)));
    if negb (result =? 0) then mret (Err result) else
    result ← vmcall (as_prepare_load a);
    if negb (result =? 0) then mret (Err result) else
    result ← for_phdrs (Z.to_nat (e_phnum eh)) 0 v eh ph0 (fun ph =>
      load_segment a v (p_offset ph) (p_vaddr ph) (p_memsz ph) (p_filesz ph) (negb (Z.land (p_flags ph) PF_X =? 0)));
    if negb (result =? 0) then mret (Err result) else
    result ← vmcall (as_complete_load a);
    if negb (result =? 0) then mret (Err result) else mret (Ok (e_entry eh))
  end.

(** ** Starting the program *)

(** What the new program starts with. *)
Record start := mkStart { s_argc : Z; s_argv : Z; s_env : Z; s_stack : Z; s_entry : Z }.

(** From here on the user runs, in the memory of its address space. *)
Definition enter_new_process (st : start) : M start :=
  a ← proc_getas;
  x ← vmcall (get_as a);
  modify (fun k => set_files (set_user (umem_of (k_vm k) x) (con_in (k_files k)) (con_out (k_files k)) (k_files k)) k);;
  mret st.

(** From the loading on, in the current address space [a]. *)
Definition run_image (eh0 ph0 : list Z) (a v argc : Z) (use_argv : bool) : M (res start) :=
  r ← load_elf eh0 ph0 v;
  fvcall (vfs_close v);;
  match r with
  | Err result => mret (Err result)
  | Ok entrypoint =>
    '(result, stackptr) ← vmcall (as_define_stack a);
    if negb (result =? 0) then mret (Err result) else
    st ← enter_new_process (mkStart argc (if use_argv then stackptr else 0) 0 stackptr entrypoint);
    mret (Ok st)
  end.

Definition activate_curproc : M unit := a ← proc_getas; vmcall (as_activate a).

Definition runprogram (eh0 ph0 : list Z) (progname : list Z) : M (res start) :=
  '(r, _) ← fvcall (vfs_open progname O_RDONLY 0);
  match r with
  | Err result => mret (Err result)
  | Ok v =>
    old ← proc_getas;
    kassert (old =? 0);;
    a ← vmcall as_create;
    if a =? 0 then fvcall (vfs_close v);; mret (Err ENOMEM) else
    proc_setas a;;
    activate_curproc;;
    run_image eh0 ph0 a v 0 false
  end.

(** ** execv *)

(** A word and a byte of the user's memory that the kernel reads by itself: a wrong
    address is a fault in the kernel. *)
Definition user_word (m : umem) (a : Z) : outcome Z :=
  KASSERT (a mod 4 =? 0);;
  b0 ← deref (m !! a); b1 ← deref (m !! (a + 1)); b2 ← deref (m !! (a + 2)); b3 ← deref (m !! (a + 3));
  mret (un_be32 b0 b1 b2 b3).
Fixpoint count_args (fuel : nat) (m : umem) (args argc : Z) : outcome Z :=
  match fuel with
  | O => Blocked
  | Datatypes.S fuel => w ← user_word m (u32 (args + argc * 4)); if w =? 0 then mret argc else count_args fuel m args (argc + 1)
  end.
Fixpoint user_strlen (fuel : nat) (m : umem) (a : Z) : outcome Z :=
  match fuel with
  | O => Blocked
  | Datatypes.S fuel => b ← deref (m !! a); if b =? 0 then mret 0 else n ← user_strlen fuel m (u32 (a + 1)); mret (n + 1)
  end.

(** The loop over the arguments from [i] on; the copies are not used. *)
Fixpoint copy_args (heap : nat -> list Z) (n : nat) (i args : Z) : M Z :=
  match n with
  | O => mret 0
  | Datatypes.S n =>
    m ← gets (fun k => f_umem (k_files k));
    let fuel := Datatypes.S (size m) in
    a ← lift (user_word m (u32 (args + i * 4)));
    len ← lift (user_strlen fuel m a);
    ok ← fvcall kmalloc;
    if negb ok then mret (- ENOMEM) else
    let '(result, _, _) := copyinstr m a (heap (Z.to_nat (len + 1))) (len + 1) in
    if negb (result =? 0) then mret result else
    copy_args heap n (i + 1) args
  end.

Definition sys_execv (heap : nat -> list Z) (eh0 ph0 : list Z) (program args : Z) : M (res start) :=
  m ← gets (fun k => f_umem (k_files k));
  argc ← lift (count_args (Datatypes.S (size m)) m args 0);
  if argc >? ARG_MAX then mret (Err (- E2BIG)) else
  ok ← fvcall kmalloc;
  if negb ok then mret (Err (- ENOMEM)) else
  result ← copy_args heap (Z.to_nat argc) 0 args;
  if negb (result =? 0) then mret (Err result) else
  len ← lift (user_strlen (Datatypes.S (size m)) m program);
  ok ← fvcall kmalloc;
  if negb ok then mret (Err (- ENOMEM)) else
  let '(result, _) := copyin m program (heap (Z.to_nat (len + 1))) (len + 1) in
  if negb (result =? 0) then mret (Err result) else
  c ← curproc;
  x ← get_proc c;
  vmcall (as_destroy (p_addrspace x));;
  a ← vmcall as_create;
  if a =? 0 then mret (Err (- ENOMEM)) else
  old ← gets (fun k => proc_ft (k_files k) !! c);
  ft ← lift (deref old);
  fcall (file_table_destroy ft);;
  new ← fcall file_table_create;
  modify (fun k => set_files (set_proc_ft (partial_alter (fun _ => new) c (proc_ft (k_files k))) (k_files k)) k);;
  '(r, path) ← fvcall (vfs_open (mapped_bytes m program (size m)) O_RDONLY 0);
  modify (fun k => set_files (set_user (store_bytes m program path) (con_in (k_files k)) (con_out (k_files k)) (k_files k)) k);;
  match r with
  | Err result => vmcall (as_destroy (p_addrspace x));; mret (Err result)
  | Ok v => proc_setas a;; activate_curproc;; run_image eh0 ph0 a v argc true
  end.
End Exec.

(** ** The user's memory and physical memory *)

Lemma region_lookup g vb pb n va :
  (list_to_map (region_bytes g vb pb n) : umem) !! va =
    if (vb <=? va) && (va <? vb + n * PAGE_SIZE) then Some (g (va - vb + pb)) else None.
Proof.
  assert (Hfst : (region_bytes g vb pb n).*1 = (fun i => vb + i) <$> seqZ 0 (n * PAGE_SIZE)).
  { unfold region_bytes. rewrite <- list_fmap_compose. done. }
  destruct ((vb <=? va) && _) eqn:E.
  - apply in_range in E. apply elem_of_list_to_map_1.
    + rewrite Hfst. apply NoDup_fmap; [intros ? ?; lia|apply NoDup_seqZ].
    + unfold region_bytes. apply list_elem_of_fmap. exists (va - vb). split; [f_equal; [lia|f_equal; lia]|]. apply elem_of_seqZ. lia.
  - apply not_elem_of_list_to_map_1. rewrite Hfst. intros (i&->&Hi%elem_of_seqZ)%list_elem_of_fmap.
    rewrite (proj2 (Z.leb_le _ _)), (proj2 (Z.ltb_lt _ _)) in E by lia. done.
Qed.

Lemma umem_of_lookup s x va : umem_of s x !! va = user_byte s x va.
Proof.
  unfold umem_of, user_byte, translate. rewrite !list_to_map_app, !lookup_union, !region_lookup.
  replace (USERSTACK - DUMBVM_STACKPAGES * PAGE_SIZE + DUMBVM_STACKPAGES * PAGE_SIZE) with USERSTACK by lia.
  destruct ((as_vbase1 x <=? va) && _), ((as_vbase2 x <=? va) && _), ((_ <=? va) && _); done.
Qed.

(** The frames of the two regions and of the stack do not meet. *)
Definition frames_apart (x : addrspace) : Prop :=
  as_pbase1 x + as_npages1 x * PAGE_SIZE <= as_pbase2 x /\ as_pbase2 x + as_npages2 x * PAGE_SIZE <= as_stackpbase x /\
  0 <= as_npages1 x /\ 0 <= as_npages2 x.

Lemma translate_inj x va1 va2 a : frames_apart x -> translate x va1 = Some a -> translate x va2 = Some a -> va1 = va2.
Proof.
  intros (H1&H2&H3&H4). unfold translate. set (sb := USERSTACK - _). assert (Hsb : USERSTACK = sb + 18 * PAGE_SIZE) by (unfold sb; change DUMBVM_STACKPAGES with 18; lia).
  rewrite Hsb. clearbody sb. intros E1 E2.
  repeat match type of E1 with (if ?b then _ else _) = _ => let E := fresh "R" in destruct b eqn:E; [apply in_range in E; injection E1 as E1|clear E] end; try done;
  repeat match type of E2 with (if ?b then _ else _) = _ => let E := fresh "R" in destruct b eqn:E; [apply in_range in E; injection E2 as E2|clear E] end; try done;
  change PAGE_SIZE with 4096 in *; lia.
Qed.

Lemma user_addr_eq x va a : frames_apart x -> translate x va = Some a <-> user_addr x a = Some va.
Proof.
  intros Hx. unfold user_addr. split.
  - intros Ha. set (l := [_; _; _]).
    assert (Hin : va ∈ l).
    { subst l. unfold translate in Ha. rewrite !elem_of_cons.
      repeat match type of Ha with (if ?b then _ else _) = _ => destruct b; [injection Ha as <-|] end; lia || done. }
    apply list_elem_of_lookup_1 in Hin as [i Hi].
    destruct (list_find _ l) as [[j vb]|] eqn:E; cbn.
    + apply list_find_Some in E as (_&Hb&_). f_equal. by eapply translate_inj.
    + apply (list_find_None _ l) in E. rewrite Forall_lookup in E. by destruct (E i va Hi).
  - intros (r&Hr&[= <-])%bind_Some. destruct r as [j vb]. apply list_find_Some in Hr as (_&Hb&_). done.
Qed.

(** What a user finds after a store of its memory. *)
Lemma user_byte_back s x m va : frames_apart x ->
  user_byte (set_phys (phys_of x m (phys s)) s) x va = (fun pa => default (phys s pa) (m !! va)) <$> translate x va.
Proof.
  intros Hx. unfold user_byte. cbn [phys set_phys]. destruct (translate x va) as [pa|] eqn:E; [|done]. cbn. f_equal.
  unfold phys_of. by rewrite (proj1 (user_addr_eq x va pa Hx)).
Qed.

Lemma umem_back s x m : frames_apart x -> (forall va, is_Some (m !! va) <-> is_Some (translate x va)) ->
  umem_of (set_phys (phys_of x m (phys s)) s) x = m.
Proof.
  intros Hx Hd. apply map_eq. intros va. rewrite umem_of_lookup, user_byte_back by done.
  destruct (translate x va) as [pa|] eqn:E.
  - destruct (proj2 (Hd va)) as [b Hb]; [by rewrite E|]. by rewrite Hb.
  - destruct (m !! va) eqn:Em; [|done]. destruct (proj1 (Hd va)) as [pa Hpa]; [by rewrite Em|]. congruence.
Qed.

(** No other byte is touched. *)
Lemma phys_of_other x m g a : frames_apart x -> (forall va, translate x va <> Some a) -> phys_of x m g a = g a.
Proof.
  intros Hx Ha. unfold phys_of. destruct (user_addr x a) as [va|] eqn:E; [|done]. apply user_addr_eq in E; [|done]. by destruct (Ha va).
Qed.

(** ** Loading *)

Section Load.
Context {S : Type} `{!Vops S} {v : Z} {data : list Z} `{!ReadsFile S v data}.
Implicit Types k : kern S.

Definition ready k : Prop := file_ready (v_s (f_vfs (k_files k))).
(** The kernel with another state of the file system, and with another memory. *)
Definition with_fs (s : S) k : kern S := set_files (set_vfs (set_s s (f_vfs (k_files k))) (k_files k)) k.

(** [n] bytes of the file. *)
Definition segment (off n : Z) : list Z := take (Z.to_nat n) (drop (Z.to_nat off) data).

Lemma segment_length off n : 0 <= off -> 0 <= n -> off + n <= Z.of_nat (length data) -> length (segment off n) = Z.to_nat n.
Proof. intros. unfold segment. rewrite length_take_le; [done|]. rewrite length_drop. lia. Qed.

Lemma vop_read_eq u k r b u' :
  ready k -> 0 <= uio_offset u -> uio_rwflag u = UIO_READ ->
  uiomove (drop (Z.to_nat (uio_offset u)) data) (Z.min (uio_resid u) (Z.of_nat (length data) - uio_offset u)) u = Done (r, b, u') ->
  exists s, vop_read v u k = Done ((r, u'), with_fs s k) /\ file_ready s.
Proof.
  intros Hk Ho Hr Hu. destruct (read_law (v_s (f_vfs (k_files k))) u Hk Ho Hr) as (s&Hs&Hok). exists s. split; [|done].
  unfold vop_read, fvcall, fcall, vcall, zoom, fsop. rewrite Hs, Hu. kred. done.
Qed.

Lemma read_header_eq buf size off k :
  ready k -> 0 <= off -> 0 <= size < 2 ^ 32 -> off + size <= Z.of_nat (length data) -> Z.of_nat (length buf) = size ->
  exists s, read_header v buf size off k = Done (Ok (segment off size), with_fs s k) /\ file_ready s.
Proof.
  intros Hk Ho Hsz Hend Hbuf. unfold read_header.
  pose proof (uio_kinit_wf buf off UIO_READ ltac:(lia)) as Hwf. pose proof (uio_kinit_data buf off UIO_READ) as Hd. rewrite Hbuf in Hwf, Hd.
  destruct (uiomove_ok (drop (Z.to_nat off) data) size (uio_kinit buf size off UIO_READ)) as (u&Hu&Hst);
    [done|rewrite length_drop; lia|left; cbn; lia|]. cbn [uio_rwflag uio_kinit uio_resid] in Hu, Hst. rewrite Z.min_id in Hst.
  destruct (vop_read_eq (uio_kinit buf size off UIO_READ) k 0 (drop (Z.to_nat off) data) u) as (s&Hs&Hok); [done|done|done| |].
  { cbn [uio_offset uio_kinit uio_resid]. rewrite Z.min_l by lia. exact Hu. }
  exists s. split; [|done]. krun. rewrite Hs. krun. rewrite (us_resid _ _ _ _ Hst). cbn [uio_resid uio_kinit].
  rewrite (proj2 (Z.eqb_eq _ 0)) by lia. krun. do 3 f_equal. unfold uio_mem.
  rewrite (us_moved _ _ _ _ Hst), (us_data _ _ _ _ Hst), Hd. rewrite (drop_ge buf) by lia. by rewrite app_nil_r.
Qed.

Lemma vm_get_as a x k : aspaces (k_vm k) !! a = Some x -> vmcall (get_as a) k = Done (x, k).
Proof. intros Hx. unfold vmcall, zoom. rewrite (get_as_eq _ _ _ Hx). kred. by destruct k. Qed.

(** A segment: [filesz] bytes go to [vaddr]. *)
Lemma load_segment_eq a x off vaddr memsz filesz ex k :
  ready k -> aspaces (k_vm k) !! a = Some x -> prepared x = true ->
  0 <= off -> 0 <= filesz <= memsz -> memsz < 2 ^ 32 -> off + filesz <= Z.of_nat (length data) -> 0 <= vaddr -> vaddr + filesz <= USERSTACK ->
  (forall va, vaddr <= va < vaddr + filesz -> is_Some (translate x va)) ->
  exists s, load_segment a v off vaddr memsz filesz ex k =
    Done (0, with_fs s (set_vm (set_phys (phys_of x (fst (user_write (umem_of (k_vm k) x) vaddr (segment off filesz))) (phys (k_vm k))) (k_vm k)) k)) /\ file_ready s.
Proof.
  intros Hk Hx Hp Ho Hf Hm Hend Hv Htop Hmap. unfold load_segment. rewrite Z.gtb_ltb, (proj2 (Z.ltb_ge _ _)) by lia.
  krun. rewrite (vm_get_as a x) by done. krun. rewrite Hp, orb_true_r. unfold kassert. krun.
  set (seg := if ex then UIO_USERISPACE else UIO_USERSPACE).
  destruct (uiomove_user_eq (drop (Z.to_nat off) data) filesz (umem_of (k_vm k) x) vaddr memsz off filesz seg) as (u&Hu&Hres&Hsp);
    [by destruct ex|lia|lia|lia|rewrite length_drop; lia|done|change USERSTACK with USERSPACETOP in Htop; unfold in_userspace; lia| |].
  { intros i Hi. rewrite umem_of_lookup. unfold user_byte. rewrite fmap_is_Some. apply Hmap. lia. }
  set (u0 := mkUio _ _ _ _ _ _ _ _) in Hu |- *.
  destruct (vop_read_eq u0 k 0 (drop (Z.to_nat off) data) u) as (s&Hs&Hok); [done|done|done| |].
  { cbn [u0 uio_offset uio_resid]. rewrite Z.min_l by lia. exact Hu. }
  exists s. split; [|done]. rewrite Hs. krun. rewrite Hsp. krun. rewrite Hres, Z.sub_diag. krun. done.
Qed.

(** The program headers in the file. *)
Definition phdr_at (eh : Elf_Ehdr) (i : Z) : Elf_Phdr := read_Phdr (segment (phdr_offset eh i) sizeof_Phdr).
Definition phdrs_ok (eh : Elf_Ehdr) (i : Z) (n : nat) : Prop :=
  forall j, i <= j < i + Z.of_nat n -> phdr_offset eh j + sizeof_Phdr <= Z.of_nat (length data) /\ to_load (phdr_at eh j) <> Err ENOEXEC.
Definition loads (eh : Elf_Ehdr) (i : Z) (n : nat) : list Elf_Phdr :=
  filter (fun ph => to_load ph = Ok true) (phdr_at eh <$> seqZ i (Z.of_nat n)).

Lemma loads_cons eh i n : loads eh i (Datatypes.S n) =
  (if bool_decide (to_load (phdr_at eh i) = Ok true) then [phdr_at eh i] else []) ++ loads eh (i + 1) n.
Proof.
  unfold loads. rewrite Nat2Z.inj_succ, seqZ_cons by lia. cbn [fmap list_fmap]. rewrite Z.pred_succ, Z.add_1_r, filter_cons.
  case_decide; [by rewrite bool_decide_true|by rewrite bool_decide_false].
Qed.

(** A loop over the headers does its work on those to be loaded, in order, whatever the
    reads do to the file system; [P] says what has been done for which headers, and [all]
    are all that there are. *)
Lemma for_phdrs_eq (P : list Elf_Phdr -> kern S -> Prop) (all : list Elf_Phdr) f eh ph0 n i done_ k :
  (forall l s k, P l k -> P l (with_fs s k)) ->
  (forall l ph r k, all = l ++ ph :: r -> P l k -> ready k -> exists k', f ph k = Done (0, k') /\ P (l ++ [ph]) k' /\ ready k') ->
  phdrs_ok eh i n -> Z.of_nat (length ph0) = sizeof_Phdr -> all = done_ ++ loads eh i n -> P done_ k -> ready k ->
  exists k', for_phdrs n i v eh ph0 f k = Done (0, k') /\ P all k' /\ ready k'.
Proof.
  intros Hfs Hf Hok Hlen. revert i done_ k Hok. induction n as [|n IH]; intros i done_ k Hok Hall HP Hk; cbn [for_phdrs].
  { exists k. unfold loads in Hall. cbn in Hall. rewrite app_nil_r in Hall. by subst. }
  destruct (Hok i) as [Hend Hty]; [lia|]. unfold with_phdr.
  destruct (read_header_eq ph0 sizeof_Phdr (phdr_offset eh i) k) as (s&Hs&Hready); [done|by apply Z.mod_pos_bound|done|done|done|].
  krun. rewrite Hs. krun. fold (phdr_at eh i). rewrite loads_cons in Hall.
  assert (Hok' : phdrs_ok eh (i + 1) n) by (intros j Hj; apply Hok; lia).
  destruct (to_load (phdr_at eh i)) as [[]|e] eqn:Et.
  - rewrite bool_decide_true in Hall by done. destruct (Hf done_ (phdr_at eh i) (loads eh (i + 1) n) (with_fs s k)) as (k1&Hk1&HP1&Hr1); [done|by apply Hfs|done|].
    rewrite Hk1. krun. apply (IH (i + 1) (done_ ++ [phdr_at eh i])); try done. by rewrite <- app_assoc.
  - rewrite bool_decide_false in Hall by done. krun. apply (IH (i + 1) done_); try done. by apply Hfs.
  - exfalso. unfold to_load in *. repeat case_match; congruence.
Qed.

(** *** Defining the regions *)

Definition ph_pages (ph : Elf_Phdr) : Z := (p_memsz ph + p_vaddr ph mod PAGE_SIZE + PAGE_SIZE - 1) / PAGE_SIZE.
Record segment_ok (ph : Elf_Phdr) : Prop := mkSegOk {
  sg_addr : PAGE_SIZE <= p_vaddr ph /\ p_vaddr ph + p_memsz ph <= USERSTACK;
  sg_size : 0 <= p_filesz ph <= p_memsz ph /\ 0 < p_memsz ph;
  sg_file : 0 <= p_offset ph /\ p_offset ph + p_filesz ph <= Z.of_nat (length data) }.

Lemma ph_pages_bound ph : segment_ok ph ->
  0 < ph_pages ph < 2 ^ 19 /\ page (p_vaddr ph) + ph_pages ph * PAGE_SIZE <= USERSTACK /\
  0 < page (p_vaddr ph) <= p_vaddr ph /\ p_vaddr ph + p_memsz ph <= page (p_vaddr ph) + ph_pages ph * PAGE_SIZE.
Proof.
  intros [(H1&H2) (H3&H4) _]. unfold ph_pages. rewrite page_eq. change USERSTACK with (2 ^ 31) in *. change PAGE_SIZE with 4096 in *. clear H3.
  pose proof (Z.mod_pos_bound (p_vaddr ph) 4096 ltac:(lia)). pose proof (Z.div_mod (p_vaddr ph) 4096 ltac:(lia)).
  set (q := p_vaddr ph / 4096) in *. set (r := p_vaddr ph mod 4096) in *.
  pose proof (Z.div_mod (p_memsz ph + r + 4096 - 1) 4096 ltac:(lia)). pose proof (Z.mod_pos_bound (p_memsz ph + r + 4096 - 1) 4096 ltac:(lia)).
  set (n := (p_memsz ph + r + 4096 - 1) / 4096) in *. clearbody q r n. lia.
Qed.

Lemma define_region_eq a x ph s : segment_ok ph -> aspaces s !! a = Some x -> (as_vbase1 x = 0 \/ as_vbase2 x = 0) ->
  as_define_region a (p_vaddr ph) (p_memsz ph) s = Done (0, set_aspaces (<[a :=
    if as_vbase1 x =? 0 then with_region1 (page (p_vaddr ph)) (ph_pages ph) x else with_region2 (page (p_vaddr ph)) (ph_pages ph) x]> (aspaces s)) s).
Proof.
  intros Hph Hx Hfree. pose proof Hph as [(H1&H2) (H3&H4) _]. change USERSTACK with (2 ^ 31) in *. 
  unfold as_define_region. change (Z.lxor PAGE_FRAME (2 ^ 32 - 1)) with (Z.ones 12). rewrite Z.land_ones by lia. change (2 ^ 12) with PAGE_SIZE.
  pose proof (Z.mod_pos_bound (p_vaddr ph) PAGE_SIZE ltac:(done)). rewrite land_frame by (change PAGE_SIZE with 4096 in *; lia).
  rewrite (u32_small (p_memsz ph + _)) by (change PAGE_SIZE with 4096 in *; lia). rewrite u32_small by (change PAGE_SIZE with 4096 in *; lia).
  rewrite land_frame by (change PAGE_SIZE with 4096 in *; lia).
  assert (E : page (p_memsz ph + p_vaddr ph mod PAGE_SIZE + PAGE_SIZE - 1) / PAGE_SIZE = ph_pages ph) by (unfold page; by rewrite Z.div_mul).
  rewrite E. krun. erewrite get_as_eq by exact Hx. krun.
  destruct (Z.eqb_spec (as_vbase1 x) 0); [unfold put_as; krun; done|]. destruct Hfree as [?|Hf]; [done|]. rewrite Hf. krun. done.
Qed.
(** *** The two loops *)

Definition blank : addrspace := mkAs 0 0 0 0 0 0 0.
(** The space after the first regions have been defined. *)
Definition regions (l : list Elf_Phdr) : addrspace :=
  match l with
  | [] => blank
  | [p] => with_region1 (page (p_vaddr p)) (ph_pages p) blank
  | p :: q :: _ => with_region2 (page (p_vaddr q)) (ph_pages q) (with_region1 (page (p_vaddr p)) (ph_pages p) blank)
  end.
Definition defined (a : Z) (w : vm) (l : list Elf_Phdr) k : Prop := k_vm k = set_aspaces (<[a := regions l]> (aspaces w)) w.

Lemma define_step a w p q l ph r k :
  segment_ok p -> segment_ok q -> [p; q] = l ++ ph :: r -> defined a w l k -> ready k ->
  exists k', vmcall (as_define_region a (p_vaddr ph) (p_memsz ph)) k = Done (0, k') /\ defined a w (l ++ [ph]) k' /\ ready k'.
Proof.
  intros Hp Hq Hl Hd Hk. unfold defined in Hd.
  assert (Hcase : segment_ok ph /\ (as_vbase1 (regions l) = 0 \/ as_vbase2 (regions l) = 0) /\
    (if as_vbase1 (regions l) =? 0 then with_region1 (page (p_vaddr ph)) (ph_pages ph) (regions l)
     else with_region2 (page (p_vaddr ph)) (ph_pages ph) (regions l)) = regions (l ++ [ph])).
  { destruct l as [|p1 [|q1 l]]; [injection Hl as <- <-|injection Hl as <- <- <-|destruct l; discriminate Hl].
    - split; [done|]. split; [by left|done].
    - split; [done|]. split; [by right|]. cbn. pose proof (ph_pages_bound p Hp) as (_&_&?&_). by rewrite (proj2 (Z.eqb_neq _ _)) by lia. }
  destruct Hcase as (Hph&Hfree&Hreg). unfold vmcall, zoom. rewrite (define_region_eq a (regions l) ph) by (try done; rewrite Hd; apply lookup_insert_eq).
  rewrite Hreg, Hd. kred. eexists. split; [done|]. split; [|done]. unfold defined. cbn. unfold set_aspaces. cbn. by rewrite insert_insert_eq.
Qed.

(** What the segments say an address holds, the last one that covers it first. *)
Definition image (l : list Elf_Phdr) (va : Z) : Z :=
  foldl (fun b ph => if (p_vaddr ph <=? va) && (va <? p_vaddr ph + p_filesz ph)
    then nth (Z.to_nat (p_offset ph + (va - p_vaddr ph))) data 0 else b) 0 l.

Record filled (a : Z) (x : addrspace) (w : vm) (l : list Elf_Phdr) k : Prop := mkFilled {
  fi_spaces : aspaces (k_vm k) = aspaces w; fi_first : firstpaddr (k_vm k) = firstpaddr w; fi_last : lastpaddr (k_vm k) = lastpaddr w;
  fi_bytes : forall va, user_byte (k_vm k) x va = (fun _ => image l va) <$> translate x va;
  fi_other : forall pa, (forall va, translate x va <> Some pa) -> phys (k_vm k) pa = phys w pa }.

Lemma fill_step a x w l ph k :
  segment_ok ph -> aspaces w !! a = Some x -> prepared x = true -> frames_apart x ->
  (forall va, p_vaddr ph <= va < p_vaddr ph + p_memsz ph -> is_Some (translate x va)) -> filled a x w l k -> ready k ->
  exists k', load_segment a v (p_offset ph) (p_vaddr ph) (p_memsz ph) (p_filesz ph) (negb (Z.land (p_flags ph) PF_X =? 0)) k = Done (0, k') /\
    filled a x w (l ++ [ph]) k' /\ ready k'.
Proof.
  intros [(H1&H2) (H3&H4) (H5&H6)] Hx Hp Ha Hmap [F1 F2 F3 F4 F5] Hk. change USERSTACK with (2 ^ 31) in *. change PAGE_SIZE with 4096 in *.
  destruct (load_segment_eq a x (p_offset ph) (p_vaddr ph) (p_memsz ph) (p_filesz ph) (negb (Z.land (p_flags ph) PF_X =? 0)) k) as (s&Hs&Hok);
    [done|by rewrite F1|done|done|done|lia|done|lia|change USERSTACK with (2 ^ 31); lia|intros va Hva; apply Hmap; lia|].
  rewrite Hs. eexists. split; [done|]. split; [|done].
  set (m := umem_of (k_vm k) x) in *. set (g := segment (p_offset ph) (p_filesz ph)) in *.
  assert (Hlen : length g = Z.to_nat (p_filesz ph)) by (apply segment_length; lia).
  destruct (user_write m (p_vaddr ph) g) as [m' ok] eqn:Ew. cbn [fst].
  pose proof (user_write_spec _ _ _ _ _ Ew) as (Hout&_&Hmp&Hin).
  assert (ok = true) as ->.
  { apply Hmp. intros i Hi. unfold m. rewrite umem_of_lookup. unfold user_byte. rewrite fmap_is_Some. apply Hmap. lia. }
  constructor; try done.
  - intros va. change (k_vm (with_fs s ?k1)) with (k_vm k1). cbn [k_vm set_vm]. rewrite user_byte_back by done.
    specialize (F4 va). pose proof (umem_of_lookup (k_vm k) x va) as Hm. fold m in Hm. rewrite F4 in Hm.
    destruct (translate x va) as [pa|] eqn:Et; [|done]. cbn in *. f_equal. unfold image. rewrite foldl_app. cbn. fold (image l va).
    destruct ((p_vaddr ph <=? va) && _) eqn:E.
    + apply in_range in E. replace va with (p_vaddr ph + Z.of_nat (Z.to_nat (va - p_vaddr ph))) at 1 by lia. rewrite Hin by (done || lia).
      unfold g, segment. rewrite lookup_take_lt by lia. rewrite lookup_drop.
      replace (Z.to_nat (p_offset ph) + Z.to_nat (va - p_vaddr ph))%nat with (Z.to_nat (p_offset ph + (va - p_vaddr ph))) by lia.
      destruct (lookup_lt_is_Some_2 data (Z.to_nat (p_offset ph + (va - p_vaddr ph)))) as [b Hb]; [lia|]. rewrite Hb. cbn. symmetry.
      by apply nth_lookup_Some.
    + rewrite Hout; [by rewrite Hm|]. intros Hr. rewrite Hlen in Hr. rewrite (proj2 (Z.leb_le _ _)), (proj2 (Z.ltb_lt _ _)) in E by lia. done.
  - intros pa Hpa. change (k_vm (with_fs s ?k1)) with (k_vm k1). cbn [k_vm set_vm phys set_phys]. rewrite phys_of_other by done. by apply F5.
Qed.

(** *** The space after [as_prepare_load] *)

Lemma regions_pages p q : segment_ok p -> segment_ok q -> total_pages (regions [p; q]) = ph_pages p + ph_pages q + DUMBVM_STACKPAGES.
Proof. done. Qed.

Lemma regions_placed p q f top : segment_ok p -> segment_ok q -> 0 < f -> f mod PAGE_SIZE = 0 -> f + total_pages (regions [p; q]) * PAGE_SIZE <= top ->
  top <= 2 ^ 29 -> let x := placed (regions [p; q]) f in
  Dumbvm.space_ok x top /\ frames_apart x /\ prepared x = true /\
  forall ph va, ph ∈ [p; q] -> p_vaddr ph <= va < p_vaddr ph + p_memsz ph -> is_Some (translate x va).
Proof.
  intros Hp Hq Hf Hm Ht Htop x. pose proof (ph_pages_bound p Hp) as (Bp1&Bp2&Bp3&Bp4). pose proof (ph_pages_bound q Hq) as (Bq1&Bq2&Bq3&Bq4).
  rewrite (regions_pages p q) in Ht by done. change DUMBVM_STACKPAGES with 18 in *.
  assert (Hpm : forall va, page va mod PAGE_SIZE = 0) by (intros va; unfold page; by apply Z.mod_mul).
  assert (Hok : Dumbvm.space_ok x top).
  { constructor; cbn; [split_and!; [lia|apply Hpm|lia|lia]..| | |]; change DUMBVM_STACKPAGES with 18;
      (split; [change PAGE_SIZE with 4096 in *; lia|]); (split; [by rewrite ?Z.mod_add|change PAGE_SIZE with 4096 in *; lia]). }
  split; [exact Hok|]. split; [unfold frames_apart; cbn; change PAGE_SIZE with 4096 in *; lia|]. split.
  - destruct (space_checks x top Hok Htop) as (E1&E2&E3&E4). unfold prepared. by rewrite E1, E2, E3, E4.
  - intros ph va Hin Hva. unfold x, translate. cbn. rewrite elem_of_cons, list_elem_of_singleton in Hin.
    destruct (_ && _) eqn:E1; [done|]. destruct Hin as [->| ->].
    + by rewrite (proj2 (Z.leb_le _ _)), (proj2 (Z.ltb_lt _ _)) in E1 by lia.
    + clear E1. by rewrite (proj2 (Z.leb_le _ _)), (proj2 (Z.ltb_lt _ _)) by lia.
Qed.
End Load.

(** C10. Loading a program puts it where its headers say: for an executable with two
    segments to load (others are skipped), in a process with a new address space and with
    enough memory, [load_elf] returns the entry point, every address of both segments is
    mapped, each mapped address of the user holds the byte of the file that the segments
    put there and 0 otherwise (also on the stack and beyond the file's part of a segment),
    and no byte of another address space has changed. *)
Theorem load_elf_correct {S} `{!Vops S} {v data} `{!ReadsFile S v data} eh0 ph0 p q a y (k : kern S) :
  let eh := read_Ehdr (segment (data := data) 0 sizeof_Ehdr) in let n := Z.to_nat (e_phnum eh) in
  let f := firstpaddr (k_vm k) in
  ready k -> Z.of_nat (length eh0) = sizeof_Ehdr -> Z.of_nat (length ph0) = sizeof_Phdr ->
  sizeof_Ehdr <= Z.of_nat (length data) -> good_Ehdr eh = true -> phdrs_ok (data := data) eh 0 n -> loads (data := data) eh 0 n = [p; q] ->
  segment_ok (data := data) p -> segment_ok (data := data) q ->
  Vfs.curproc (f_vfs (k_files k)) <> 0 -> k_procs k !! Vfs.curproc (f_vfs (k_files k)) = Some y -> p_addrspace y = a ->
  aspaces (k_vm k) !! a = Some blank -> vm_ok (k_vm k) ->
  f + (ph_pages p + ph_pages q + DUMBVM_STACKPAGES) * PAGE_SIZE <= lastpaddr (k_vm k) ->
  exists x k', load_elf eh0 ph0 v k = Done (Ok (e_entry eh), k') /\ aspaces (k_vm k') !! a = Some x /\
    Dumbvm.space_ok x (firstpaddr (k_vm k')) /\
    (forall ph va, ph ∈ [p; q] -> p_vaddr ph <= va < p_vaddr ph + p_memsz ph -> is_Some (translate x va)) /\
    (forall va, user_byte (k_vm k') x va = (fun _ => image (data := data) [p; q] va) <$> translate x va) /\
    (forall z va, Dumbvm.space_ok z f -> user_byte (k_vm k') z va = user_byte (k_vm k) z va).
Proof.
  intros eh n f Hk He0 Hp0 Hlen Hgood Hphs Hloads Hp Hq Hc Hy Hya Hblank Hvm Hroom.
  unfold load_elf, proc_getas, curproc. krun. rewrite (proj2 (Z.eqb_neq _ _) Hc). krun. erewrite get_proc_eq by exact Hy. krun. rewrite Hya.
  destruct (read_header_eq eh0 sizeof_Ehdr 0 k) as (s0&Hs0&Hr0); [done|done|done|done|done|]. rewrite Hs0. krun. fold eh. rewrite Hgood. krun. fold n.
  destruct (for_phdrs_eq (defined a (k_vm k)) [p; q] (fun ph => vmcall (as_define_region a (p_vaddr ph) (p_memsz ph))) eh ph0 n 0 [] (with_fs s0 k))
    as (k1&Hk1&Hd1&Hr1); [done|intros l ph r k1 ? ? ?; by apply (define_step a (k_vm k) p q l ph r)|done|done|done|unfold defined; cbn; rewrite insert_id by done; by destruct (k_vm k)|done|].
  rewrite Hk1. krun. unfold defined in Hd1.
  set (w := set_aspaces (<[a := regions [p; q]]> (aspaces (k_vm k))) (k_vm k)) in *.
  pose proof (ph_pages_bound p Hp) as (Bp&_). pose proof (ph_pages_bound q Hq) as (Bq&_).
  destruct (prepare_load_eq w a (regions [p; q])) as (r&w2&Hw2&Hok2&_&_&_&Hlow&Hres); [exact Hvm|apply lookup_insert_eq|done|done|done|done|done|].
  change (firstpaddr w) with f in *. change (lastpaddr w) with (lastpaddr (k_vm k)) in *. rewrite bool_decide_true in Hres by exact Hroom.
  destruct Hres as (->&Hsp2&Hf2&Hzero). unfold vmcall at 1, zoom. rewrite Hd1, Hw2. krun.
  pose proof Hvm as (Vf&Vm&Vl). pose proof Hok2 as (Vf2&Vm2&Vl2).
  destruct (regions_placed (data := data) p q f (firstpaddr w2)) as (Hok&Hap&Hprep&Hmap); [done|done|done|done|lia|lia|].
  set (x := placed (regions [p; q]) f) in *.
  assert (Hrange : forall va pa, translate x va = Some pa -> f <= pa < firstpaddr w2).
  { intros va pa Hpa. split; [by eapply translate_placed_range|by eapply translate_below]. }
  assert (Hx2 : aspaces w2 !! a = Some x) by (rewrite Hsp2; apply lookup_insert_eq).
  destruct (for_phdrs_eq (filled (data := data) a x w2) [p; q] (fun ph => load_segment a v (p_offset ph) (p_vaddr ph) (p_memsz ph) (p_filesz ph) (negb (Z.land (p_flags ph) PF_X =? 0)))
    eh ph0 n 0 [] (set_vm w2 k1)) as (k2&Hk2&[F1 F2 F3 F4 F5]&Hr2).
  { intros l s k3 []. by constructor. }
  { intros l ph r k3 Hl Hfl Hk3. assert (Hin : ph ∈ [p; q]) by (rewrite Hl; apply elem_of_app; right; left).
    apply (fill_step a x w2); try done; [|intros va Hva; by apply (Hmap ph)].
    rewrite elem_of_cons, list_elem_of_singleton in Hin. by destruct Hin as [->| ->]. }
  { done. } { done. } { done. }
  { constructor; try done. intros va. unfold user_byte. cbn [k_vm set_vm]. destruct (translate x va) as [pa|] eqn:E; [|done]. cbn. f_equal. apply Hzero. by eapply Hrange. }
  { done. }
  rewrite Hk2. krun. unfold vmcall, zoom, as_complete_load. krun.
  exists x, (set_vm (k_vm k2) k2). split; [done|]. cbn [k_vm set_vm]. rewrite F1, F2. split; [done|]. split; [done|]. split; [done|]. split; [done|].
  intros z va Hz. apply user_byte_below; [done| |done]. intros pa Hpa. rewrite F5; [by apply Hlow|]. intros vb Hb. apply Hrange in Hb. fold f in Hpa. lia.
Qed.

(** ** execv *)

Section Execv.
Context {S : Type} `{!Vops S}.

(** Opening a computation that has returned. *)
Ltac kopen H := apply K_bind_inv in H as (?&?&?&H).

(** The table is freed before its lock is released. *)
Lemma file_table_destroy_never t (k : files S) r : file_table_destroy t k <> Done r.
Proof.
  unfold file_table_destroy. intros H. do 3 kopen H. rewrite K_bind_eq in H. cbn [modify] in H. revert H.
  unfold tunlock, me, get_table. krun. cbn [f_tables free_table set_core]. by rewrite lookup_delete_eq.
Qed.

(** The ways in which the arguments can be refused. *)
Definition refusals : list Z := [- E2BIG; - ENOMEM; EFAULT; ENAMETOOLONG].
Ltac refused := unfold refusals; rewrite !elem_of_cons; cbn; auto 10.

Lemma copystr_result {D} rd (wr : D -> Z -> Z -> option D) d i maxlen stoplen n r g d' :
  copystr rd wr d i maxlen stoplen n = (r, g, d') -> default EFAULT r = 0 \/ default EFAULT r ∈ refusals.
Proof.
  revert d i. induction n as [|n IH]; intros d i; cbn [copystr].
  - intros [= <- _ _]. right. destruct (stoplen <? maxlen); cbn; refused.
  - destruct (rd i) as [c|]; [|intros [= <- _ _]; right; refused]. destruct (wr d i c) as [d1|]; [|intros [= <- _ _]; right; refused].
    destruct (c =? 0); [intros [= <- _ _]; by left|apply IH].
Qed.

Lemma copycheck_result a len : fst (copycheck a len) = 0 \/ fst (copycheck a len) = EFAULT.
Proof. unfold copycheck. repeat case_match; cbn; auto. Qed.

Lemma copyinstr_result m a dest len r g d : copyinstr m a dest len = (r, g, d) -> r = 0 \/ r ∈ refusals.
Proof.
  unfold copyinstr. pose proof (copycheck_result a len) as Hc. destruct (copycheck a len) as [c stoplen]. cbn [fst] in Hc.
  destruct (negb (c =? 0)); [intros [= <- _ _]; destruct Hc as [->| ->]; [by left|right; refused]|].
  destruct (copystr _ _ _ _ _ _ _) as [[r1 g1] d1] eqn:E. intros [= <- _ _]. by eapply copystr_result.
Qed.

Lemma copyin_result m a dest len r d : copyin m a dest len = (r, d) -> r = 0 \/ r ∈ refusals.
Proof.
  unfold copyin. pose proof (copycheck_result a len) as Hc. destruct (copycheck a len) as [c stoplen]. cbn [fst] in Hc.
  destruct (negb (c =? 0)); [intros [= <- _]; destruct Hc as [->| ->]; [by left|right; refused]|].
  destruct (negb (stoplen =? len)); [intros [= <- _]; right; refused|].
  destruct (user_read m a (Z.to_nat len)) as [got []]; intros [= <- _]; [by left|right; refused].
Qed.

Lemma copy_args_result heap n i args (k : kern S) r k' : copy_args heap n i args k = Done (r, k') -> r = 0 \/ r ∈ refusals.
Proof.
  revert i k. induction n as [|n IH]; intros i k; cbn [copy_args]; [intros [= <- _]; by left|].
  intros H. do 4 kopen H. match type of H with (if ?b then _ else _) _ = _ => destruct b end; [injection H as <- _; right; refused|].
  destruct (copyinstr _ _ _ _) as [[result g] d] eqn:E. apply copyinstr_result in E.
  destruct (Z.eqb_spec result 0); cbn [negb] in H; [by apply IH in H|]. injection H as <- _. done.
Qed.
End Execv.

Ltac refuse H := injection H as <- _; eexists; split; [done|unfold refusals; rewrite !elem_of_cons; auto 10].

(** C40. No call of execv starts a program: if it returns at all, it returns one of its
    four refusals (too many arguments, no memory, a bad address, a name too long), because
    once the arguments are accepted [file_table_destroy] works on the table it has
    freed. *)
Theorem execv_never_runs {S} `{!Vops S} heap eh0 ph0 program args (k : kern S) :
  match sys_execv heap eh0 ph0 program args k with Done (r, _) => exists e, r = Err e /\ e ∈ refusals | _ => True end.
Proof.
  destruct (sys_execv heap eh0 ph0 program args k) as [[r k']| |] eqn:H; [|done..].
  unfold sys_execv in H. do 2 (apply K_bind_inv in H as (?&?&?&H)).
  destruct (_ >? ARG_MAX); [refuse H|].
  apply K_bind_inv in H as ([]&?&?&H); cbn [negb] in H; [|refuse H].
  apply K_bind_inv in H as (result&?&Hr%copy_args_result&H).
  destruct (Z.eqb_spec result 0); cbn [negb] in H; [|injection H as <- _; exists result; split; [done|by destruct Hr]].
  apply K_bind_inv in H as (?&?&?&H). apply K_bind_inv in H as ([]&?&?&H); cbn [negb] in H; [|refuse H].
  destruct (copyin _ _ _ _) as [result2 d] eqn:E. apply copyin_result in E.
  destruct (Z.eqb_spec result2 0); cbn [negb] in H; [|injection H as <- _; exists result2; split; [done|by destruct E]].
  do 3 (apply K_bind_inv in H as (?&?&?&H)). apply K_bind_inv in H as (a&?&?&H). destruct (a =? 0); [refuse H|].
  do 2 (apply K_bind_inv in H as (?&?&?&H)). apply K_bind_inv in H as (?&?&Hd&H). exfalso.
  unfold fcall, zoom in Hd. destruct (file_table_destroy _ _) as [z| |] eqn:Ed; try done. by apply file_table_destroy_never in Ed.
Qed.
