(* ===== verification/System.v ===== *)
(** * syscall/fork.c, exit.c, waitpid.c, getpid.c, arch/mips/syscall/syscall.c: threads,
    processes and files together

    The whole kernel: the threads and processors of Thread over the processes of Proc,
    which are over the files, the VFS and the memory below them.  What runs on processor
    [self] is its current thread in that thread's process.  [f_umem] is the user's memory
    as the file calls and the store through fork's pointer see it; it is not connected to
    the physical memory of Dumbvm. *)

From S2P Require Import Prelude Synch Cstring CopyInOut Uio LinkedList Vop Vfs FileTable FileSyscalls Dumbvm Thread Proc.

(** What [syscall] uses of the saved registers; the others stay. *)
Record trapframe := mkTf { tf_v0 : Z; tf_a0 : Z; tf_a1 : Z; tf_a2 : Z; tf_a3 : Z; tf_epc : Z; tf_rest : list Z }.

Definition SYS_fork : Z := 0.
Definition SYS__exit : Z := 3.
Definition SYS_getpid : Z := 5.
Definition SYS_open : Z := 45.
Definition SYS_dup2 : Z := 48.
Definition SYS_close : Z := 49.
Definition SYS_read : Z := 50.
Definition SYS_write : Z := 55.
Definition SYS_lseek : Z := 59.
Definition SYS___getcwd : Z := 76.
Definition SYS___time : Z := 113.
Definition SYS_reboot : Z := 119.
Definition RB_REBOOT : Z := 0.
Definition RB_HALT : Z := 1.
Definition RB_POWEROFF : Z := 2.

(** [_MKWAIT_EXIT]. *)
Definition MKWAIT_EXIT (x : Z) : Z := Z.lor (s32 (Z.shiftl x 2)) 0.

(** The comparisons of a call's number that is known. *)
Ltac dispatch := cbn [Z.eqb Pos.eqb SYS_reboot SYS___time SYS__exit SYS_fork SYS_lseek SYS_write SYS___getcwd SYS_open SYS_read SYS_getpid SYS_close SYS_dup2].

Section System.
Context {S : Type} `{!Vops S} `{!Devices S}.

(** Who is running, as the file layer sees it. *)
Definition set_running (t p : Z) (k : kern S) : kern S := set_files (set_vfs (set_current t p (f_vfs (k_files k))) (k_files k)) k.

#[export] Instance kern_threads : ProcThreads (kern S) := {
  proc_add := count_thread;
  proc_rem := fun self cur p => modify (set_running cur p);; uncount_thread self p;
  the_kproc := kproc }.

Abbreviation sys := (ksys (kern S)).
Abbreviation M := (K sys).

(** A computation on the processes, on processor [self]. *)
Definition in_kernel {A} (self : nat) (m : K (kern S) A) : M A :=
  c ← get_cpu self;
  th ← get_thread (fst (c_curthread c));
  on_procs (modify (set_running (fst (c_curthread c)) (t_proc th));; m).

(** ** fork *)

Definition child_name : list Z := [99; 104; 105; 108; 100; 95; 112; 114; 111; 99; 0].

(** What the child's thread starts with: the trap frame and the address space. *)
Definition child_start : Type := trapframe * Z.

(** [*retval = pid], where the kernel follows a pointer it got from the user. *)
Definition store_word (a v : Z) (k : kern S) : outcome (kern S) :=
  let f := k_files k in
  let '(m, ok) := user_write (f_umem f) a (be32 v) in
  KASSERT ok;; Done (set_files (set_user m (con_in f) (con_out f) f) k).

Definition set_child_ft (child : Z) (ft : option Z) (k : kern S) : kern S :=
  set_files (set_proc_ft (partial_alter (fun _ => ft) child (proc_ft (k_files k))) (k_files k)) k.

(** The process of the child, up to its trap frame: the process, or the result.  It is put
    into the table twice; [pages] say what the two lots of locks and condition variables
    take. *)
Definition fork_process (self : nat) (pages : (bool * bool) * (bool * bool)) : K (kern S) (Z * Z) :=
  c ← Proc.curproc;
  x ← get_proc c;
  if p_addrspace x =? 0 then mret (- EINVAL, 0) else
  child ← proc_create self (fst pages) child_name;
  y ← get_proc child;
  put_proc child (with_ppid (p_pid x) y);;
  add_proc self (snd pages) child (p_pid y);;
  '(result, new) ← vmcall (as_copy (p_addrspace x));
  if negb (result =? 0) then proc_destroy self child;; mret (result, 0) else
  y ← get_proc child;
  put_proc child (with_addrspace new y);;
  old ← gets (fun k => proc_ft (k_files k) !! c);
  ft ← fcall (file_table_copy old);
  modify (set_child_ft child ft);;
  if bool_decide (ft = None) then vmcall (as_destroy new);; proc_destroy self child;; mret (- ENOMEM, 0) else
  ok ← fvcall kmalloc;
  if negb ok then vmcall (as_destroy new);; proc_destroy self child;; mret (- ENOMEM, 0) else
  mret (0, child).

(** [t] is where the child's thread will be, [stack] whether there is memory for it. *)
Definition sys_fork (self : nat) (pages : (bool * bool) * (bool * bool)) (parent_tf : trapframe) (retval t : Z) (mem stack : bool) : M (Z * option child_start) :=
  '(result, child) ← in_kernel self (fork_process self pages);
  if negb (result =? 0) then mret (result, None) else
  y ← in_kernel self (get_proc child);
  fork_result ← thread_fork self 10 mem stack t child;
  if negb (fork_result =? 0) then
    in_kernel self (vmcall (as_destroy (p_addrspace y));; proc_destroy self child);; mret (- ENOMEM, None)
  else
  in_kernel self (fun k => k ← store_word retval (p_pid y) k; Done ((), k));;
  mret (0, Some (parent_tf, p_addrspace y)).

(** The child's first steps: what it goes to user mode with. *)
Definition entrypoint (self : nat) (start : child_start) : M trapframe :=
  let '(child_tf, child_addresses) := start in
  in_kernel self (c ← Proc.curproc; x ← get_proc c; put_proc c (with_addrspace child_addresses x);; vmcall (as_activate child_addresses));;
  mret (mkTf 0 (tf_a0 child_tf) (tf_a1 child_tf) (tf_a2 child_tf) 0 (u32 (tf_epc child_tf + 4)) (tf_rest child_tf)).

(** ** exit, waitpid, getpid *)

(** Up to [thread_exit], which does not return. *)
Definition exit_process (self : nat) : K (kern S) (list Z) :=
  h ← Proc.curthread;
  c ← Proc.curproc;
  kassert (negb (c =? 0));;
  x ← get_proc c;
  in_table (p_pid x);;
  t ← get_pt;
  lk ← lift (deref (exit_locks t !! p_pid x));
  v ← lift (deref (exit_cvs t !! p_pid x));
  '(woken, v) ← lift (cv_broadcast h v lk);
  put_pt (with_exit_cv (p_pid x) (Some v) t);;
  let code := MKWAIT_EXIT (exitcode x) in
  put_proc c (with_exitcode code x);;
  (if parent_proc x =? 0 then mret ()
   else y ← get_proc (parent_proc x); put_proc (parent_proc x) (with_exitcode code y));;
  mret woken.
Definition sys_exit (self : nat) (exitcode : Z) : M switch :=
  woken ← in_kernel self (exit_process self);
  make_all_runnable self ((fun t => (t, 0)) <$> woken);;
  thread_exit self.

(** The loop over the children, from [node] on. *)
Fixpoint find_child (fuel : nat) (node pid : Z) : K (kern S) bool :=
  match fuel with
  | O => lift Blocked
  | Datatypes.S fuel =>
    if node =? 0 then mret false else
    n ← (fun k => n ← deref (k_nodes k !! node); Done (n, k));
    child ← (fun k => i ← deref (k_ints k !! data n); Done (i, k));
    if child =? pid then mret true else find_child fuel (next n) pid
  end.

(** The call returns, or is asleep in [cv_wait] with the process it waits for. *)
Inductive wait_result := Returned (r : Z) | Sleeping (target_proc : Z).

(** Up to the end of [wchan_sleep] in [cv_wait], with the threads woken by the releases of
    the lock; [Blocked]: the caller waits for the lock. *)
Definition waitpid_process (self : nat) (pid options : Z) : K (kern S) (list Z * wait_result) :=
  if negb (options =? 0) then mret ([], Returned (- EINVAL)) else
  target_proc ← find_process self pid;
  if target_proc =? 0 then mret ([], Returned (- ESRCH)) else
  h ← Proc.curthread;
  t ← get_pt;
  lk ← lift (lk ← deref (exit_locks t !! pid); lock_acquire h lk);
  put_pt (with_exit_lock pid (Some lk) t);;
  c ← Proc.curproc;
  x ← get_proc c;
  fuel ← gets (fun k => Datatypes.S (size (k_nodes k)));
  found ← find_child fuel (first (p_children_ll x)) pid;
  if negb found then
    t ← get_pt;
    r ← lift (lk ← deref (exit_locks t !! pid); lock_release h lk);
    put_pt (with_exit_lock pid (Some (snd r)) t);;
    mret (option_list (fst r), Returned (- ECHILD))
  else
  t ← get_pt;
  lk ← lift (deref (exit_locks t !! pid));
  v ← lift (deref (exit_cvs t !! pid));
  '(woken, v, lk) ← lift (cv_wait_release h v lk);
  v ← lift (cv_wait_sleep h v);
  put_pt (with_exit_cv pid (Some v) (with_exit_lock pid (Some lk) t));;
  mret (option_list woken, Sleeping target_proc).

(** The rest, when the thread has been woken.  The lock and the condition variable are
    those [cv_wait] was called with; they are freed with the process.  [status] is set to
    the address of the exit code, and is a variable of the function. *)
Definition waitpid_woken (self : nat) (pid target_proc status : Z) : K (kern S) (list Z * Z) :=
  h ← Proc.curthread;
  t ← get_pt;
  kassert (bool_decide (pt_procs t !! pid = Some target_proc));;
  v ← lift (v ← deref (exit_cvs t !! pid); cv_wait_woken h v);
  put_pt (with_exit_cv pid (Some v) t);;
  t ← get_pt;
  lk ← lift (lk ← deref (exit_locks t !! pid); lock_acquire h lk);
  put_pt (with_exit_lock pid (Some lk) t);;
  t ← get_pt;
  r ← lift (lk ← deref (exit_locks t !! pid); lock_release h lk);
  put_pt (with_exit_lock pid (Some (snd r)) t);;
  mret (option_list (fst r), pid).

Definition sys_waitpid (self : nat) (pid options : Z) : M wait_result :=
  '(woken, r) ← in_kernel self (waitpid_process self pid options);
  make_all_runnable self ((fun t => (t, 0)) <$> woken);;
  mret r.
Definition sys_waitpid_woken (self : nat) (pid target_proc status : Z) : M Z :=
  '(woken, r) ← in_kernel self (waitpid_woken self pid target_proc status);
  make_all_runnable self ((fun t => (t, 0)) <$> woken);;
  mret r.

Definition sys_getpid (self : nat) : M Z := in_kernel self (c ← Proc.curproc; x ← get_proc c; mret (p_pid x)).

(** ** time and reboot *)

(** [now] is what the clock device says: seconds and nanoseconds. *)
Definition sys___time (now : Z * Z) (user_seconds_ptr user_nanoseconds_ptr : Z) : K (files S) Z := fun f =>
  let '(result, m) := copyout (f_umem f) (be32 (fst now / 2 ^ 32) ++ be32 (fst now)) user_seconds_ptr 8 in
  let f := set_user m (con_in f) (con_out f) f in
  if negb (result =? 0) then Done (result, f) else
  let '(result, m) := copyout (f_umem f) (be32 (snd now)) user_nanoseconds_ptr 4 in
  Done (result, set_user m (con_in f) (con_out f) f).

(** [shutdown], after which the machine stops: [Blocked]. *)
Definition sys_reboot (self : nat) (code : Z) : M Z :=
  if negb ((code =? RB_REBOOT) || (code =? RB_HALT) || (code =? RB_POWEROFF)) then mret EINVAL else
  in_kernel self (fvcall (vfs_clearbootfs;; vfs_clearcurdir;; vfs_unmountall));;
  thread_shutdown self;;
  lift Blocked.

(** ** The dispatcher *)

(** What the calls get from outside: the time, the place of a new thread and whether
    there is memory for it, what new memory and the stack hold, and whether fork's
    creations take pages. *)
Record outside := mkOutside { o_now : Z * Z; o_thread : Z; o_mem : bool; o_stack : bool; o_heap : nat -> list Z; o_stack_v : Z;
  o_pages : (bool * bool) * (bool * bool) }.

Definition minus_one (retval : Z) : Z * Z := if retval <? 0 then (-1, - retval) else (retval, 0).
Definition keep_value (retval : Z) : Z * Z := if retval <? 0 then (retval, - retval) else (retval, 0).

(** [retval], [err], and the child of a fork. *)
Definition run_call (self : nat) (o : outside) (tf : trapframe) : M (Z * Z * option child_start) :=
  let fc (how : Z -> Z * Z) (m : K (files S) Z) : M (Z * Z * option child_start) :=
    r ← in_kernel self (fcall m); let '(retval, err) := how (s32 r) in mret (retval, err, None) in
  let callno := tf_v0 tf in
  let a0 := s32 (tf_a0 tf) in
  if callno =? SYS_reboot then err ← sys_reboot self a0; mret (0, err, None) else
  if callno =? SYS___time then err ← in_kernel self (fcall (sys___time (o_now o) (tf_a0 tf) (tf_a1 tf))); mret (0, err, None) else
  if callno =? SYS__exit then sys_exit self a0;; lift Blocked else
  if callno =? SYS_fork then
    '(err, child) ← sys_fork self (o_pages o) tf (tf_a0 tf) (o_thread o) (o_mem o) (o_stack o); mret (0, err, child) else
  if callno =? SYS_lseek then fc keep_value (sys_lseek a0 (tf_a1 tf) (s32 (tf_a2 tf))) else
  if callno =? SYS_write then fc minus_one (sys_write (o_heap o) a0 (tf_a1 tf) (s32 (tf_a2 tf))) else
  if callno =? SYS___getcwd then fc keep_value (sys_getcwd (o_heap o) (tf_a0 tf) (tf_a1 tf)) else
  if callno =? SYS_open then fc minus_one (sys_open (o_heap o) (o_stack_v o) (tf_a0 tf) (s32 (tf_a1 tf))) else
  if callno =? SYS_read then fc minus_one (sys_read a0 (tf_a1 tf) (tf_a2 tf)) else
  if callno =? SYS_getpid then pid ← sys_getpid self; mret (pid, 0, None) else
  if callno =? SYS_close then fc minus_one (sys_close a0) else
  if callno =? SYS_dup2 then fc minus_one (sys_dup2 a0 (s32 (tf_a1 tf))) else
  mret (0, ENOSYS, None).

Definition syscall (self : nat) (o : outside) (tf : trapframe) : M (trapframe * option child_start) :=
  '(retval, err, child) ← run_call self o tf;
  let '(v0, a3) := if negb (err =? 0) then (u32 err, 1) else (u32 retval, 0) in
  mret (mkTf v0 (tf_a0 tf) (tf_a1 tf) (tf_a2 tf) a3 (u32 (tf_epc tf + 4)) (tf_rest tf), child).

(** ** fork, when there is memory *)

Definition child_proc (pid new : Z) (x : proc) : proc := with_addrspace new (with_ppid (p_pid x) (new_proc pid)).

(** The state after [fork_process]: [s] is what the copied files' vnodes became. *)
Definition fork_files (s : S) (ftx : file_table) (child : Z) (f : files S) : files S :=
  set_proc_ft (<[child := f_next f + 1]> (proc_ft f)) (with_copy s ftx (put_table (f_next f) (mkFt empty_arr new_lock 0) (fresh_key f))).
Definition forked (pid new : Z) (x : proc) (t : proctable) (v : vm) (f : files S) (k : kern S) : kern S :=
  mkKern f v (<[k_next k := child_proc pid new x]> (k_procs k)) (Some (enter pid (k_next k) (enter pid (k_next k) t))) (kproc k) (k_next k + 1) (k_nodes k) (k_ints k).

(** The parent's parts, and room for the child's. *)
Record fork_ready `{!VopsRefs S} (c : Z) (x : proc) (o : addrspace) (ft : Z) (ftx : file_table) (t : proctable) (pid : Z) (k : kern S) : Prop := mkReady {
  fr_proc : k_procs k !! c = Some x /\ c <> 0 /\ c <> k_next k /\ 0 < k_next k;
  fr_space : p_addrspace x <> 0 /\ aspaces (k_vm k) !! p_addrspace x = Some o /\ space_ok o (firstpaddr (k_vm k));
  fr_vm : vm_ok (k_vm k) /\ aspaces (k_vm k) !! as_next (k_vm k) = None /\ 0 < as_next (k_vm k);
  fr_frames : fst (kalloc (vm_mem (k_vm k))) = true /\ firstpaddr (k_vm k) + total_pages o * PAGE_SIZE <= lastpaddr (k_vm k);
  fr_table : proc_table k = Some t /\ pt_lock t = None;
  fr_pid : 2 <= pid < PID_MAX /\ pt_procs t !! pid = None /\ forall j, 2 <= j < pid -> pt_procs t !! j <> None;
  fr_mem : memory_left k /\ p_cwd (f_vfs (k_files k)) !! k_next k = None;
  fr_ft : proc_ft (k_files k) !! c = Some ft /\ f_tables (k_files k) !! ft = Some ftx /\ ft < f_next (k_files k);
  fr_ftx : file_table_lock ftx = new_lock /\ length (file_arr ftx) = OPEN_MAX;
  fr_open : forall j p, (MIN_FD <= j < OPEN_MAX)%nat -> file_arr ftx !! j = Some (Some p) -> copyable (k_files k) p }.

Lemma assign_least (m : gmap Z Z) pid :
  2 <= pid < PID_MAX -> m !! pid = None -> (forall j, 2 <= j < pid -> m !! j <> None) -> assign_loop (Z.to_nat (PID_MAX - 2)) 2 m = Some pid.
Proof.
  intros Hpid Hfree Hleast. pose proof (assign_loop_spec (Z.to_nat (PID_MAX - 2)) 2 m) as Hs.
  destruct (assign_loop _ 2 m) as [q|].
  - destruct Hs as (Hr&Hq&Hlow). f_equal. destruct (Z.lt_trichotomy q pid) as [H|[H|H]]; [|done|].
    + by destruct (Hleast q); [lia|].
    + by destruct (Hlow pid); [lia|].
  - by destruct (Hs pid); [unfold PID_MAX in *; lia|].
Qed.

Lemma kern_eq (k1 k2 : kern S) :
  k_files k1 = k_files k2 -> k_vm k1 = k_vm k2 -> k_procs k1 = k_procs k2 -> proc_table k1 = proc_table k2 -> kproc k1 = kproc k2 ->
  k_next k1 = k_next k2 -> k_nodes k1 = k_nodes k2 -> k_ints k1 = k_ints k2 -> k1 = k2.
Proof. destruct k1, k2. cbn. by intros -> -> -> -> -> -> -> ->. Qed.

Lemma set_proc_ft_set m1 m2 (f : files S) : set_proc_ft m1 (set_proc_ft m2 f) = set_proc_ft m1 f.
Proof. done. Qed.
Lemma with_copy_ft s ftx m (f : files S) : with_copy s ftx (set_proc_ft m f) = set_proc_ft m (with_copy s ftx f).
Proof. done. Qed.

Definition pages_ok (pages : (bool * bool) * (bool * bool)) (k : kern S) : bool := atomic_ok (fst pages) k && atomic_ok (snd pages) k.

Lemma fork_process_eq `{!VopsRefs S} self pages c x o ft ftx t pid k :
  fork_ready c x o ft ftx t pid k -> Vfs.curproc (f_vfs (k_files k)) = c ->
  pages_ok pages k = true ->
  exists s v, fork_process self pages k = Done ((0, k_next k), forked pid (as_next (k_vm k)) x t v (fork_files s ftx (k_next k) (k_files k)) k) /\
    vm_ok v /\ aspaces v = <[as_next (k_vm k) := placed o (firstpaddr (k_vm k))]> (aspaces (k_vm k)) /\
    (forall a, a < firstpaddr (k_vm k) -> phys v a = phys (k_vm k) a) /\
    forall va, user_byte v (placed o (firstpaddr (k_vm k))) va = user_byte (k_vm k) o va.
Proof.
  intros [(Hx&Hc0&Hcn&Hn) (Ha0&Ho&Hsp) (Hok&Hfresh&Hnext) (Hka&Hroom) (Ht&Hl) (Hpid&Hfree&Hleast) (Hm&_) (Hft&Hftx&Hlt) (Hlk&Hlen) Hopen] Hcur [Hp1 Hp2]%andb_true_iff.
  unfold fork_process. unfold Proc.curproc at 1. krun. rewrite Hcur. erewrite get_proc_eq by exact Hx. krun.
  rewrite (proj2 (Z.eqb_neq _ _) Ha0). krun.
  erewrite proc_create_eq; [|exact Ht|exact Hl|exact Hm|split; [unfold is_str, child_name; rewrite !elem_of_cons; tauto|repeat constructor; unfold is_byte; lia]|done|by apply assign_least].
  rewrite Hp1. krun. erewrite get_proc_eq by (cbn; by rewrite lookup_insert_eq). krun. unfold put_proc at 1. krun.
  erewrite add_proc_eq; [|done|done|done|lia|cbn; lia]. change (atomic_ok (snd pages) (set_procs _ _)) with (atomic_ok (snd pages) k).
  rewrite Hp2. krun.
  destruct (as_copy_eq (k_vm k) (p_addrspace x) o) as (r&new&v&Has&Hok'&_&Hph&Hres); [done..|]. rewrite Hka, bool_decide_true in Hres by done.
  destruct Hres as (->&->&Hasp&_&Hby).
  unfold vmcall at 1, zoom. cbn [k_vm set_table set_procs created]. rewrite Has. krun.
  erewrite get_proc_eq by (cbn; by rewrite lookup_insert_eq). krun. unfold put_proc at 1. krun.
  cbn [k_files set_vm set_table set_procs created proc_ft set_proc_ft]. rewrite lookup_insert_ne, Hft by done.
  unfold fcall, zoom. cbn [k_files set_vm set_table set_procs created].
  destruct (file_table_copy_eq ft ftx (set_proc_ft (<[k_next k := f_next (k_files k)]> (proc_ft (k_files k)))
    (put_table (f_next (k_files k)) (mkFt empty_arr new_lock 0) (fresh_key (k_files k))))) as [s Hs].
  { cbn. rewrite lookup_insert_ne by lia. done. } { done. } { done. } { cbn. lia. } { done. }
  { intros j p Hj Hp. destruct (Hopen j p Hj Hp) as (f&w&n&?&?&?&?). by exists f, w, n. }
  rewrite Hs. krun. rewrite bool_decide_false by done. krun. rewrite fkmalloc_eq by done. krun. exists s, v. split; [|done]. do 2 f_equal.
  apply kern_eq; [|done|cbn; by rewrite !insert_insert_eq|done..].
  cbn [k_files set_child_ft set_files forked]. unfold fork_files. rewrite with_copy_ft, set_proc_ft_set. f_equal.
  change (proc_ft (set_proc_ft ?m _)) with m. exact (insert_insert_eq (proc_ft (k_files k)) (k_next k) (f_next (k_files k) + 1) (f_next (k_files k))).
Qed.

(** Memory asked for under the table's lock, by the first or the second [add_proc]. *)
Lemma fork_process_panics `{!VopsRefs S} self pages c x o ft ftx t pid k :
  fork_ready c x o ft ftx t pid k -> Vfs.curproc (f_vfs (k_files k)) = c -> pages_ok pages k = false -> fork_process self pages k = Panic.
Proof.
  intros [(Hx&Hc0&Hcn&Hn) (Ha0&_&_) _ _ (Ht&Hl) (Hpid&Hfree&Hleast) (Hm&_) _ _ _] Hcur Hp.
  unfold fork_process. unfold Proc.curproc at 1. krun. rewrite Hcur. erewrite get_proc_eq by exact Hx. krun.
  rewrite (proj2 (Z.eqb_neq _ _) Ha0). krun.
  erewrite proc_create_eq; [|exact Ht|exact Hl|exact Hm|split; [unfold is_str, child_name; rewrite !elem_of_cons; tauto|repeat constructor; unfold is_byte; lia]|done|by apply assign_least].
  unfold pages_ok in Hp. destruct (atomic_ok (fst pages) k); krun; [|done]. cbn [andb] in Hp.
  erewrite get_proc_eq by (cbn; by rewrite lookup_insert_eq). krun. unfold put_proc at 1. krun.
  erewrite add_proc_eq; [|done|done|done|lia|cbn; lia]. change (atomic_ok (snd pages) (set_procs _ _)) with (atomic_ok (snd pages) k).
  by rewrite Hp.
Qed.

Lemma in_kernel_eq {A} self (m : K (kern S) A) s c me :
  allcpus s !! self = Some c -> threads s !! fst (c_curthread c) = Some me ->
  in_kernel self m s = ('(a, k) ← m (set_running (fst (c_curthread c)) (t_proc me) (procs s)); Done (a, with_procs k s)).
Proof. intros Hc Hme. unfold in_kernel. krun. erewrite get_cpu_eq by exact Hc. krun. erewrite get_thread_eq by exact Hme. krun. done. Qed.

Lemma ready_running `{!VopsRefs S} c x o ft ftx t pid th p k :
  fork_ready c x o ft ftx t pid k -> fork_ready c x o ft ftx t pid (set_running th p k).
Proof. intros []. by constructor. Qed.

(** The error path of fork: the address space, then the process that still points to it. *)
Lemma destroyed_twice self p a y (k : kern S) :
  p <> 0 -> k_procs k !! p = Some y -> p_addrspace y = a -> a <> 0 -> is_Some (aspaces (k_vm k) !! a) ->
  p_cwd (f_vfs (k_files k)) !! p = None -> Vfs.curproc (f_vfs (k_files k)) <> p ->
  (vmcall (as_destroy a);; proc_destroy self p) k = Panic.
Proof.
  intros Hp Hy Hya Ha [o Ho] Hcwd Hcur.
  unfold vmcall, zoom, as_destroy. krun. rewrite (proj2 (Z.eqb_neq a 0)) by done. krun. erewrite get_as_eq by exact Ho. krun.
  unfold proc_destroy, kassert. krun. rewrite (proj2 (Z.eqb_neq p 0)) by done.
  destruct (negb (p =? _)); krun; [|done]. unfold drop_cwd. krun. cbn [k_files set_vm]. rewrite Hcwd. krun. unfold drop_addrspace. krun.
  erewrite get_proc_eq by exact Hy. krun. rewrite Hya, (proj2 (Z.eqb_neq a 0)) by done. krun. unfold Proc.curproc. krun.
  cbn [k_files set_vm]. rewrite (proj2 (Z.eqb_neq p _)) by done. krun.
  unfold put_proc, vmcall, zoom, as_destroy, get_as. krun. rewrite (proj2 (Z.eqb_neq a 0)) by done. krun.
  cbn [k_vm set_procs set_vm aspaces set_aspaces]. by rewrite lookup_delete_eq.
Qed.

(** What follows [fork_process] when it has made [child]. *)
Lemma sys_fork_start self pages tf retval t (s : sys) c me child k1 y :
  allcpus s !! self = Some c -> threads s !! fst (c_curthread c) = Some me ->
  fork_process self pages (set_running (fst (c_curthread c)) (t_proc me) (procs s)) = Done ((0, child), k1) ->
  k_procs k1 !! child = Some y ->
  forall mem stack, sys_fork self pages tf retval t mem stack s =
    (fork_result ← thread_fork self 10 mem stack t child;
     if negb (fork_result =? 0) then
       in_kernel self (vmcall (as_destroy (p_addrspace y));; proc_destroy self child);; mret (- ENOMEM, None)
     else
     in_kernel self (fun k => k ← store_word retval (p_pid y) k; Done ((), k));;
     mret (0, Some (tf, p_addrspace y))) (with_procs (set_running (fst (c_curthread c)) (t_proc me) k1) s).
Proof.
  intros Hc Hme Hrun Hy mem stack. unfold sys_fork. krun. rewrite (in_kernel_eq _ _ _ c me) by done. rewrite Hrun. krun.
  rewrite (in_kernel_eq _ _ _ c me) by done. erewrite get_proc_eq by exact Hy. krun. done.
Qed.

(** ** waitpid *)

(** The search finds exactly the numbers the list of children points to. *)
Lemma find_child_eq fuel pr xs kids pid (k : kern S) :
  dseg (k_nodes k) pr xs 0 -> Forall2 (fun x kid => k_ints k !! idata x = Some kid) xs kids -> (length xs < fuel)%nat ->
  find_child fuel (head_addr xs 0) pid k = Done (bool_decide (pid ∈ kids), k).
Proof.
  intros Hd Hk. revert pr fuel Hd. induction Hk as [|[a [key d]] kid xs kids Hx _ IH]; intros pr fuel Hd Hf; (destruct fuel as [|fuel]; [cbn in Hf; lia|]);
    cbn [find_child head_addr].
  { krun. by rewrite bool_decide_false by (by intros ?%not_elem_of_nil). }
  destruct Hd as (Ha&Hn&Hd). cbn [fst] in *. rewrite (proj2 (Z.eqb_neq a 0)) by done. krun. rewrite Hn. krun. cbn [data]. rewrite Hx. krun.
  destruct (Z.eqb_spec kid pid) as [->|Hne]; krun.
  { by rewrite bool_decide_true by (by left). }
  cbn [next]. rewrite (IH a fuel Hd) by (cbn in Hf; lia). do 2 f_equal. apply bool_decide_ext. rewrite elem_of_cons. intuition congruence.
Qed.

Lemma with_exit_lock_twice pid a b t : with_exit_lock pid a (with_exit_lock pid b t) = with_exit_lock pid a t.
Proof. unfold with_exit_lock. cbn. by rewrite partial_alter_partial_alter_eq. Qed.
Lemma with_exit_cv_same pid v t : exit_cvs t !! pid = v -> with_exit_cv pid v t = t.
Proof. intros <-. destruct t as [? ? l ? ?]. unfold with_exit_cv. cbn. by rewrite partial_alter_self. Qed.
Lemma cv_wait_release_held t q lk : cv_wait_release t (mkCv None q) (held_by t lk) = Done (head (lk_wchan lk), mkCv (Some t) q, freed lk).
Proof. unfold cv_wait_release, lock_do_i_hold, cv_spin. cbn [held_by lk_owner cv_spinlock]. by rewrite bool_decide_true, KASSERT_true, lock_release_held. Qed.
Lemma cv_wait_sleep_eq t q : cv_wait_sleep t (mkCv (Some t) q) = Done (mkCv None (q ++ [t])).
Proof. unfold cv_wait_sleep, cv_unspin. cbn [cv_spinlock]. by rewrite !bool_decide_true, !KASSERT_true. Qed.
Lemma cv_wait_woken_eq t q : cv_wait_woken t (mkCv None q) = Done (mkCv None q).
Proof. unfold cv_wait_woken, cv_unspin, cv_spin. cbn [cv_spinlock cv_wchan]. kred. cbn [cv_spinlock]. by rewrite bool_decide_true, KASSERT_true. Qed.

Lemma with_exit_lock_same pid lk t : exit_locks t !! pid = lk -> with_exit_lock pid lk t = t.
Proof. intros <-. destruct t as [? l ? ? ?]. unfold with_exit_lock. cbn. by rewrite partial_alter_self. Qed.

(** ** Who holds an exit lock

    Between two calls that use the process table nobody does. *)

Definition unowned_pt (t : proctable) : Prop := forall pid lk, exit_locks t !! pid = Some lk -> lk_owner lk = None.
Definition unowned (k : kern S) : Prop := forall t, proc_table k = Some t -> unowned_pt t.

(** The computations that keep it so. *)
Definition stays {A} (m : K (kern S) A) : Prop := forall k a k', unowned k -> m k = Done (a, k') -> unowned k'.

(** The calls that use the process table, and whatever else happens to the kernel. *)
Inductive proc_op : Type :=
  | PBoot (pages : bool * bool) (name : list Z) | PMake (pages : bool * bool) (name : list Z) | PRunprogram (pages : bool * bool) (name : list Z)
  | PDestroy (p : Z) | PDestroyTable | PJoin (p : Z) | PLeave (p : Z) | PLookup (pid : Z) | PCount
  | PFork (pages : (bool * bool) * (bool * bool)) | PWaitpid (pid options : Z) | PWoken (pid target_proc status : Z) | PExit.
Definition run_proc_op (self : nat) (op : proc_op) : K (kern S) unit :=
  match op with
  | PBoot pages name => proc_bootstrap self pages name
  | PMake pages name => proc_create self pages name;; mret ()
  | PRunprogram pages name => proc_create_runprogram self pages name;; mret ()
  | PDestroy p => proc_destroy self p
  | PDestroyTable => destroy_proctable self
  | PJoin p => count_thread p;; mret ()
  | PLeave p => uncount_thread self p
  | PLookup pid => find_process self pid;; mret ()
  | PCount => proc_count self;; mret ()
  | PFork pages => fork_process self pages;; mret ()
  | PWaitpid pid options => waitpid_process self pid options;; mret ()
  | PWoken pid target_proc status => waitpid_woken self pid target_proc status;; mret ()
  | PExit => exit_process self;; mret ()
  end.

Inductive table_reached : kern S -> Prop :=
  | table_start k : proc_table k = None -> table_reached k
  | table_step self op k k' : table_reached k -> run_proc_op self op k = Done ((), k') -> table_reached k'
  | table_other k k' : table_reached k -> proc_table k' = proc_table k -> table_reached k'.

Lemma stays_ret {A} (a : A) : stays (mret a).
Proof. by intros k b k' Hu [= <- <-]. Qed.
Lemma stays_lift {A} (o : outcome A) : stays (lift o).
Proof. intros k a k' Hu. unfold lift. destruct o; [|done..]. by intros [= <- <-]. Qed.
Lemma stays_gets {A} (f : kern S -> A) : stays (gets f).
Proof. by intros k a k' Hu [= <- <-]. Qed.
Lemma stays_bind {A B} (m : K (kern S) A) (f : A -> K (kern S) B) : stays m -> (forall a, stays (f a)) -> stays (m ≫= f).
Proof. intros Hm Hf k b k' Hu (a&k1&H1&H2)%K_bind_inv. eapply Hf; [|exact H2]. by eapply Hm. Qed.
Lemma stays_modify f : (forall k, proc_table (f k) = proc_table k) -> stays (modify f).
Proof. intros Hf k a k' Hu [= <- <-] t. rewrite Hf. apply Hu. Qed.
Lemma stays_zoom {T A} (get : kern S -> T) (set : T -> kern S -> kern S) (m : K T A) :
  (forall x k, proc_table (set x k) = proc_table k) -> stays (zoom get set m).
Proof. intros Hf k a k' Hu. unfold zoom. destruct (m (get k)) as [[b x]| |]; [|done..]. intros [= <- <-] t. rewrite Hf. apply Hu. Qed.
Lemma stays_state {A} (m : kern S -> outcome A) : stays (fun k => a ← m k; Done (a, k)).
Proof. intros k a k' Hu. destruct (m k); cbn; [|done..]. by intros [= <- <-]. Qed.
Lemma stays_get_pt {A} (f : proctable -> K (kern S) A) : (forall t, unowned_pt t -> stays (f t)) -> stays (get_pt ≫= f).
Proof.
  intros Hf k b k' Hu (t&k1&H1&H2)%K_bind_inv. unfold get_pt in H1. destruct (proc_table k) as [t'|] eqn:Ht; [|done]. injection H1 as <- <-.
  eapply Hf; [|exact Hu|exact H2]. by apply Hu.
Qed.
Lemma stays_put_pt t : unowned_pt t -> stays (put_pt t).
Proof. intros Ht k a k' Hu [= <- <-] t'. cbn. by intros [= <-]. Qed.
Lemma stays_get_proc p : stays (get_proc p).
Proof. apply (stays_state (fun k => deref (k_procs k !! p))). Qed.

Lemma unowned_lock t pid lk : unowned_pt t -> (forall l, lk = Some l -> lk_owner l = None) -> unowned_pt (with_exit_lock pid lk t).
Proof.
  intros Ht Hlk q l. cbn. destruct (decide (q = pid)) as [->|Hne].
  - rewrite lookup_partial_alter_eq. apply Hlk.
  - rewrite lookup_partial_alter_ne by done. apply Ht.
Qed.

Lemma lock_create_unowned mem lk mem' : lock_create mem = (Some lk, mem') -> lk_owner lk = None.
Proof. unfold lock_create. destruct (kalloc3 mem) as [[] ?]; by intros [= <- <-]. Qed.
Lemma stays_create_at {A} self page (f : list bool -> option A * list bool) : stays (create_at self page f).
Proof.
  unfold create_at, spinlocks_held. apply stays_bind; [apply stays_zoom; intros; reflexivity|intros a].
  apply stays_bind; [apply stays_bind; [apply stays_gets|intros kernel; destruct (kernel =? 0); [apply stays_ret|]]; apply stays_bind;
    [apply stays_gets|intros; apply stays_ret]|intros n].
  apply stays_bind; [|intros; apply stays_ret]. destruct (_ || _); [|apply stays_ret]. apply stays_zoom; intros; reflexivity.
Qed.
Lemma stays_with_new_lock {A} self page (f : option lock -> K (kern S) A) :
  (forall lk, (forall l, lk = Some l -> lk_owner l = None) -> stays (f lk)) -> stays (create_at self page lock_create ≫= f).
Proof.
  intros Hf k b k' Hu (lk&k1&H1&H2)%K_bind_inv. eapply Hf; [|by eapply stays_create_at|exact H2].
  unfold create_at in H1. apply K_bind_inv in H1 as (lk'&k2&H1&H3). apply K_bind_inv in H3 as (?&?&_&H3). apply K_bind_inv in H3 as (?&?&_&[= <- _]).
  unfold with_mem, fvcall, fcall, vcall, zoom in H1. destruct (lock_create _) as [lk mem] eqn:E. injection H1 as <- _. intros l ->.
  by eapply lock_create_unowned.
Qed.

Create HintDb stays.
#[local] Hint Resolve stays_ret stays_lift stays_gets stays_get_proc stays_create_at unowned_lock : stays.
Ltac stays_step :=
  match goal with
  | |- stays (get_pt ≫= _) => apply stays_get_pt; intros ? ?
  | |- stays (create_at _ _ lock_create ≫= _) => apply stays_with_new_lock; intros ? ?
  | |- stays (_ ≫= _) => apply stays_bind; [|intros ?]
  | |- stays (modify _) => apply stays_modify; intros; reflexivity
  | |- stays (zoom _ _ _) => apply stays_zoom; intros; reflexivity
  | |- stays (put_pt _) => apply stays_put_pt
  | |- stays (if ?b then _ else _) => destruct b
  | |- stays (match ?o with Some _ => _ | None => _ end) => destruct o
  | |- stays (let '(_, _) := ?x in _) => destruct x
  | |- stays (match ?h with None => _ | Some _ => _ end) => destruct h
  | |- stays (put_proc _ _) => unfold put_proc
  | |- stays (kassert _) => unfold kassert
  | |- stays (vmcall _) => unfold vmcall
  | |- stays (fvcall _) => unfold fvcall
  | |- stays (fcall _) => unfold fcall
  | |- stays (with_mem _) => unfold with_mem
  | |- stays Proc.curproc => unfold Proc.curproc
  | |- stays Proc.curthread => unfold Proc.curthread
  | |- stays (in_table _) => unfold in_table
  | |- unowned_pt (with_exit_cv _ _ ?t) => change (unowned_pt t)
  | |- unowned_pt (with_exit_lock _ None _) => apply unowned_lock; [|discriminate]
  | |- unowned_pt (with_exit_lock _ _ _) => apply unowned_lock; [|assumption]
  | H : unowned_pt ?t |- unowned_pt _ => exact H
  | |- _ => solve [eauto with stays]
  end.
Ltac stays := repeat stays_step.

Lemma stays_acquire self : stays (pt_acquire self).
Proof. unfold pt_acquire. stays. Qed.
Lemma stays_release self : stays (pt_release self).
Proof. unfold pt_release. stays. Qed.
#[local] Hint Resolve stays_acquire stays_release : stays.

Lemma stays_add_proc self pages p pid : stays (add_proc self pages p pid).
Proof. unfold add_proc. stays. Qed.
#[local] Hint Resolve stays_add_proc : stays.
Lemma stays_remove_proc self pid : stays (remove_proc self pid).
Proof. unfold remove_proc. stays. Qed.
#[local] Hint Resolve stays_remove_proc : stays.
Lemma stays_find_process self pid : stays (find_process self pid).
Proof. unfold find_process. stays. Qed.
#[local] Hint Resolve stays_find_process : stays.
Lemma stays_proc_create self pages name : stays (proc_create self pages name).
Proof. unfold proc_create, assign_pid. stays. Qed.
#[local] Hint Resolve stays_proc_create : stays.
Lemma stays_proc_destroy self p : stays (proc_destroy self p).
Proof. unfold proc_destroy, drop_cwd, drop_addrspace, proc_setas, free_proc, destroy_children. stays. Qed.
#[local] Hint Resolve stays_proc_destroy : stays.

Lemma stays_create_proctable : stays create_proctable.
Proof.
  unfold create_proctable. apply stays_bind; [unfold fvcall, fcall; stays|intros ok]. apply stays_bind; [|intros; unfold kassert; stays].
  intros k a k' Hu [= <- <-] t. cbn. destruct ok; [|done]. intros [= <-] pid lk. cbn. by rewrite lookup_empty.
Qed.
#[local] Hint Resolve stays_create_proctable : stays.
Lemma stays_destroy_slots self n i : stays (destroy_slots self n i).
Proof.
  revert i. induction n as [|n IH]; intros i; cbn [destroy_slots]; [stays|]. apply stays_get_pt. intros t Ht.
  apply stays_bind; [|intros; apply IH]. destruct (pt_procs t !! i); stays.
Qed.
#[local] Hint Resolve stays_destroy_slots : stays.
Lemma stays_destroy_proctable self : stays (destroy_proctable self).
Proof.
  unfold destroy_proctable. stays. intros k u k1 Hu [= _ <-] t. done.
Qed.
Lemma stays_uncount_thread self p : stays (uncount_thread self p).
Proof. unfold uncount_thread. stays. Qed.
Lemma stays_fork_process self pages : stays (fork_process self pages).
Proof. unfold fork_process, set_child_ft. stays. Qed.
Lemma stays_find_child fuel node pid : stays (find_child fuel node pid).
Proof.
  revert node. induction fuel as [|fuel IH]; intros node; cbn [find_child]; [stays|]. destruct (node =? 0); [stays|].
  apply stays_bind; [apply (stays_state (fun k => deref (k_nodes k !! node)))|intros n].
  apply stays_bind; [apply (stays_state (fun k => deref (k_ints k !! data n)))|intros i]. destruct (i =? pid); [stays|apply IH].
Qed.

Lemma find_child_same fuel node pid (k : kern S) a k' : find_child fuel node pid k = Done (a, k') -> k' = k.
Proof.
  revert node. induction fuel as [|fuel IH]; intros node; cbn [find_child]; [done|]. destruct (node =? 0); [by intros [= _ <-]|].
  intros (n&k1&H1&(i&k2&H2&H)%K_bind_inv)%K_bind_inv. destruct (k_nodes k !! node) as [nd|]; [|done]. injection H1 as <- <-.
  destruct (k_ints k !! data nd) as [j|]; [|done]. injection H2 as <- <-. destruct (j =? pid); [by injection H as _ <-|by eapply IH].
Qed.
Lemma lock_release_owner t lk w lk' : lock_release t lk = Done (w, lk') -> lk_owner lk' = None.
Proof. unfold lock_release. intros H. inv_done. destruct (Synch.wchan_wakeone _). by injection H as _ <-. Qed.
Lemma cv_wait_release_owner t v lk w v' lk' : cv_wait_release t v lk = Done (w, v', lk') -> lk_owner lk' = None.
Proof. unfold cv_wait_release. intros H. inv_done. destruct a1 as [w1 l1]. injection H as _ _ <-. by eapply lock_release_owner. Qed.

(** The lock of [pid], taken by an acquisition, is set free. *)
Lemma unowned_given t pid lk lk' : unowned_pt t -> lk_owner lk' = None -> unowned_pt (with_exit_lock pid (Some lk') (with_exit_lock pid (Some lk) t)).
Proof. intros Ht Hlk. rewrite with_exit_lock_twice. apply unowned_lock; [done|]. by intros l [= <-]. Qed.

Ltac bind_inv H a k H1 := apply K_bind_inv in H as (a & k & H1 & H).

Lemma stays_waitpid self pid options : stays (waitpid_process self pid options).
Proof.
  unfold waitpid_process. destruct (negb _); [stays|]. apply stays_bind; [stays|intros p]. destruct (p =? 0); [stays|].
  apply stays_bind; [stays|intros h]. apply stays_get_pt. intros t Ht. apply stays_bind; [stays|intros lk].
  intros k a k' Hu H. bind_inv H u k1 H1. injection H1 as <- <-. bind_inv H c k1 H1. injection H1 as _ <-.
  bind_inv H x k1 H1. unfold get_proc in H1. destruct (k_procs _ !! c); [|done]. injection H1 as -> <-.
  bind_inv H fuel k1 H1. injection H1 as <- <-. bind_inv H found k1 H1. apply find_child_same in H1 as ->.
  destruct found; cbn [negb] in H; bind_inv H t2 k1 H1; injection H1 as <- <-.
  - bind_inv H lk2 k1 H1. rewrite lift_eq in H1. destruct (deref _) as [lk2'| |]; [|done..]. injection H1 as -> <-.
    bind_inv H v k1 H1. rewrite lift_eq in H1. destruct (deref _) as [v'| |]; [|done..]. injection H1 as -> <-.
    bind_inv H r k1 H1. rewrite lift_eq in H1. destruct (cv_wait_release h v lk2) as [[[w v2] lk3]| |] eqn:E; [|done..]. injection H1 as <- <-.
    bind_inv H v3 k1 H1. rewrite lift_eq in H1. destruct (cv_wait_sleep h v2) as [v4| |]; [|done..]. injection H1 as -> <-.
    bind_inv H u k1 H1. injection H1 as <- <-. injection H as <- <-. intros t3. cbn. intros [= <-].
    change (unowned_pt (with_exit_lock pid (Some lk3) (with_exit_lock pid (Some lk) t))). apply unowned_given; [done|by eapply cv_wait_release_owner].
  - bind_inv H r k1 H1. rewrite lift_eq in H1. destruct (_ ≫= _) as [[w lk3]| |] eqn:E in H1; [|done..]. injection H1 as <- <-.
    apply bind_Done_inv in E as (lk2&_&E). bind_inv H u k1 H1. injection H1 as <- <-. injection H as <- <-. intros t3. cbn. intros [= <-].
    apply unowned_given; [done|by eapply lock_release_owner].
Qed.

Lemma stays_waitpid_woken self pid p status : stays (waitpid_woken self pid p status).
Proof.
  unfold waitpid_woken. apply stays_bind; [stays|intros h]. apply stays_get_pt. intros t Ht. do 3 (apply stays_bind; [stays|intros ?]).
  apply stays_get_pt. intros t2 Ht2. apply stays_bind; [stays|intros lk].
  intros k a' k' Hu H. bind_inv H u k1 H1. injection H1 as <- <-. bind_inv H t3 k1 H1. injection H1 as <- <-.
  bind_inv H r k1 H1. rewrite lift_eq in H1. destruct (_ ≫= _) as [[w lk3]| |] eqn:E in H1; [|done..]. injection H1 as <- <-.
  apply bind_Done_inv in E as (lk2&_&E). bind_inv H u2 k1 H1. injection H1 as <- <-. injection H as <- <-. intros t4. cbn. intros [= <-].
  apply unowned_given; [done|by eapply lock_release_owner].
Qed.

Lemma stays_exit_process self : stays (exit_process self).
Proof. unfold exit_process. stays. Qed.

Lemma table_reached_unowned k : table_reached k -> unowned k.
Proof.
  induction 1 as [k Hk|self op k k' _ IH Hrun|k k' _ IH Hk].
  - intros t Ht. by rewrite Hk in Ht.
  - assert (Hs : stays (run_proc_op self op)); [|by eapply Hs].
    destruct op; cbn [run_proc_op];
      try (apply stays_bind; [|intros; apply stays_ret]);
      auto using stays_destroy_proctable, stays_uncount_thread, stays_fork_process, stays_waitpid, stays_waitpid_woken, stays_exit_process with stays.
    + unfold proc_bootstrap. stays.
    + unfold proc_create_runprogram. stays.
    + unfold count_thread. stays.
    + unfold proc_count. stays.
  - intros t. rewrite Hk. apply IH.
Qed.

(** exit wants the lock that its caller does not hold. *)
Lemma exit_process_panics self k : unowned k -> exit_process self k = Panic.
Proof.
  intros Hu. unfold exit_process, Proc.curthread, Proc.curproc, kassert. krun. destruct (negb _); krun; [|done].
  unfold get_proc. destruct (k_procs k !! _) as [x|]; krun; [|done]. unfold in_table, kassert. destruct (_ && _); krun; [|done].
  unfold get_pt. destruct (proc_table k) as [t|] eqn:Ht; krun; [|done]. destruct (exit_locks t !! p_pid x) as [lk|] eqn:Hlk; krun; [|done].
  destruct (exit_cvs t !! p_pid x) as [v|]; krun; [|done]. unfold cv_broadcast, lock_do_i_hold. by rewrite (Hu t Ht _ _ Hlk), bool_decide_false.
Qed.

(** ** System calls *)

(** What the user gets: [v0] and [a3]. *)
Definition answer (tf : trapframe) (v0 a3 : Z) : trapframe :=
  mkTf (u32 v0) (tf_a0 tf) (tf_a1 tf) (tf_a2 tf) a3 (u32 (tf_epc tf + 4)) (tf_rest tf).

(** The calls that go to the file layer, with their numbers. *)
Definition file_calls (o : outside) (tf : trapframe) : list (Z * K (files S) Z) :=
  let a0 := s32 (tf_a0 tf) in
  [(SYS_lseek, sys_lseek a0 (tf_a1 tf) (s32 (tf_a2 tf))); (SYS_write, sys_write (o_heap o) a0 (tf_a1 tf) (s32 (tf_a2 tf)));
   (SYS___getcwd, sys_getcwd (o_heap o) (tf_a0 tf) (tf_a1 tf)); (SYS_open, sys_open (o_heap o) (o_stack_v o) (tf_a0 tf) (s32 (tf_a1 tf)));
   (SYS_read, sys_read a0 (tf_a1 tf) (tf_a2 tf)); (SYS_close, sys_close a0); (SYS_dup2, sys_dup2 a0 (s32 (tf_a1 tf)))].

(** How the file layer's results become [retval] and [err]. *)
Lemma file_call_eq (how : Z -> Z * Z) self m (s : sys) c me r f :
  allcpus s !! self = Some c -> threads s !! fst (c_curthread c) = Some me ->
  let k := set_running (fst (c_curthread c)) (t_proc me) (procs s) in
  m (k_files k) = Done (r, f) -> -2 ^ 31 < r < 2 ^ 31 -> how = minus_one \/ how = keep_value ->
  exists v, (r ← in_kernel self (fcall m); let '(retval, err) := how (s32 r) in mret (retval, err, None : option child_start)) s =
    Done ((v, if r <? 0 then - r else 0, None), with_procs (set_files f k) s) /\ (0 <= r -> v = r).
Proof.
  intros Hc Hme k Hm Hr Hhow. rewrite K_bind_eq, (in_kernel_eq _ _ _ c me) by done. fold k. unfold fcall, zoom. rewrite Hm. krun. rewrite s32_small by lia.
  unfold minus_one, keep_value in Hhow. destruct Hhow as [->| ->]; destruct (Z.ltb_spec r 0); krun; eexists; (split; [done|lia]).
Qed.

Lemma syscall_file self o tf m (s : sys) c me r f :
  allcpus s !! self = Some c -> threads s !! fst (c_curthread c) = Some me -> (tf_v0 tf, m) ∈ file_calls o tf ->
  let k := set_running (fst (c_curthread c)) (t_proc me) (procs s) in
  m (k_files k) = Done (r, f) -> -2 ^ 31 < r < 2 ^ 31 ->
  syscall self o tf s = Done ((answer tf (Z.abs r) (if r <? 0 then 1 else 0), None), with_procs (set_files f k) s).
Proof.
  intros Hc Hme Hin k Hm Hr.
  assert (Hrun : exists v, run_call self o tf s = Done ((v, if r <? 0 then - r else 0, None), with_procs (set_files f k) s) /\ (0 <= r -> v = r)).
  { unfold file_calls in Hin. repeat (apply elem_of_cons in Hin as [[= Hno ->]|Hin]); [..|by apply not_elem_of_nil in Hin];
      unfold run_call; rewrite Hno; dispatch;
      apply (file_call_eq _ self _ s c me); auto. }
  destruct Hrun as (v&Hv&Hval). unfold syscall. krun. rewrite Hv. krun. unfold answer. destruct (Z.ltb_spec r 0).
  - rewrite (proj2 (Z.eqb_neq (- r) 0)) by lia. krun. by rewrite Z.abs_neq by lia.
  - krun. by rewrite Hval, Z.abs_eq by lia.
Qed.

Definition known_calls : list Z :=
  [SYS_fork; SYS__exit; SYS_getpid; SYS_open; SYS_dup2; SYS_close; SYS_read; SYS_write; SYS_lseek; SYS___getcwd; SYS___time; SYS_reboot].

End System.


(** C37. The system call convention: a call of the file layer that returns [r] leaves the
    user with [r] in v0 and 0 in a3, or with the error number [- r] and 1 in a3 when [r]
    is negative, the program counter past the instruction, the other registers as they
    were, and the state that the call left; getpid answers with the caller's number; any
    other number, with waitpid, execv and chdir among them, is answered ENOSYS and changes
    nothing; and after fork the parent and the child go on with the same registers, so
    that neither can tell which of the two it is from the value returned. *)
Theorem syscall_spec {S} `{!Vops S} `{!Devices S} self o tf (s : ksys (kern S)) c me :
  allcpus s !! self = Some c -> threads s !! fst (c_curthread c) = Some me ->
  let k := set_running (fst (c_curthread c)) (t_proc me) (procs s) in
  (forall m r f, (tf_v0 tf, m) ∈ file_calls o tf -> m (k_files k) = Done (r, f) -> -2 ^ 31 < r < 2 ^ 31 ->
    syscall self o tf s = Done ((answer tf (Z.abs r) (if r <? 0 then 1 else 0), None), with_procs (set_files f k) s)) /\
  (forall x, tf_v0 tf = SYS_getpid -> k_procs k !! t_proc me = Some x ->
    syscall self o tf s = Done ((answer tf (p_pid x) 0, None), with_procs k s)) /\
  (tf_v0 tf ∉ known_calls -> syscall self o tf s = Done ((answer tf ENOSYS 1, None), s)) /\
  (forall a s' (s1 s2 : ksys (kern S)) fr, tf_v0 tf = SYS_fork ->
    sys_fork self (o_pages o) tf (tf_a0 tf) (o_thread o) (o_mem o) (o_stack o) s = Done ((0, Some (tf, a)), s') ->
    entrypoint self (tf, a) s1 = Done (fr, s2) ->
    syscall self o tf s = Done ((fr, Some (tf, a)), s')).
Proof.
  intros Hc Hme k. split; [|split; [|split]].
  - intros m r f. by apply syscall_file.
  - intros x Hno Hx. unfold syscall, run_call. rewrite Hno. dispatch.
    krun. unfold sys_getpid. rewrite (in_kernel_eq _ _ _ c me) by done. fold k. unfold Proc.curproc. krun. erewrite get_proc_eq by exact Hx. krun. done.
  - intros Hno. unfold known_calls in Hno. repeat setoid_rewrite elem_of_cons in Hno.
    unfold syscall, run_call. rewrite !(proj2 (Z.eqb_neq (tf_v0 tf) _)) by tauto. krun. done.
  - intros a s' s1 s2 fr Hno Hf He. unfold entrypoint in He. revert He. krun.
    destruct (in_kernel self _ s1) as [[u s3]| |]; [|done..]. krun. intros [= <- _].
    unfold syscall, run_call. rewrite Hno. dispatch. krun. rewrite Hf. krun. done.
Qed.

(** C38. waitpid, on every branch: options other than 0 are EINVAL; a number outside the
    table panics (the code reads beyond the array); one that no process has is ESRCH; while
    another thread holds the exit lock of the process the caller waits for it; a process
    that is not in the caller's list of children is ECHILD; all without a change to the
    state.  With a child of the list the caller sleeps on the child's condition variable,
    behind those that sleep there, with the exit lock free again.  When it has been woken
    it returns the number, with nothing else changed (the exit code is stored nowhere), if
    the process is still there; if it has been destroyed, the call uses the lock and
    condition variable that were freed with it. *)
Theorem waitpid_spec {S} `{!Vops S} `{!Devices S} self pid options (k : kern S) tb x xs kids lk q :
  let h := Vfs.curthread (f_vfs (k_files k)) in
  proc_table k = Some tb -> pt_lock tb = None ->
  (forall p, pt_procs tb !! pid = Some p -> p <> 0 /\ exit_locks tb !! pid = Some lk /\ exit_cvs tb !! pid = Some (mkCv None q)) ->
  lk = new_lock \/ (is_busy lk = true /\ lk_owner lk <> Some h) ->
  k_procs k !! Vfs.curproc (f_vfs (k_files k)) = Some x ->
  first (p_children_ll x) = head_addr xs 0 -> dseg (k_nodes k) 0 xs 0 -> NoDup xs.*1 ->
  Forall2 (fun i kid => k_ints k !! idata i = Some kid) xs kids ->
  waitpid_process self pid options k =
    (if negb (options =? 0) then Done (([], Returned (- EINVAL)), k) else
     if negb ((0 <=? pid) && (pid <? PID_MAX)) then Panic else
     match pt_procs tb !! pid with
     | None => Done (([], Returned (- ESRCH)), k)
     | Some p =>
       if is_busy lk then Blocked else
       if bool_decide (pid ∈ kids) then Done (([], Sleeping p), set_table (Some (with_exit_cv pid (Some (mkCv None (q ++ [h]))) tb)) k)
       else Done (([], Returned (- ECHILD)), k)
     end) /\
  (forall p status, pt_procs tb !! pid = Some p -> lk = new_lock -> waitpid_woken self pid p status k = Done (([], pid), k)) /\
  (forall p status, pt_procs tb !! pid <> Some p -> waitpid_woken self pid p status k = Panic).
Proof.
  intros h Ht Hl Htab Hlk Hx Hfirst Hd Hnd Hkids. split; [|split].
  - unfold waitpid_process. destruct (negb (options =? 0)); krun; [done|].
    destruct (negb ((0 <=? pid) && (pid <? PID_MAX))) eqn:Hr.
    { unfold find_process. krun. erewrite pt_acquire_eq by done. krun. unfold in_table, kassert. apply negb_true_iff in Hr. by rewrite Hr. }
    assert (Hpid : 0 <= pid < PID_MAX) by lia.
    rewrite (find_process_eq self pid k tb) by done. krun. destruct (pt_procs tb !! pid) as [p|] eqn:Hp; cbn [from_option]; [|done].
    destruct (Htab p eq_refl) as (Hp0&Hlk'&Hcv). change (id p) with p. rewrite (proj2 (Z.eqb_neq p 0)) by done. krun.
    unfold Proc.curthread. krun. fold h. erewrite get_pt_eq by exact Ht. krun. rewrite Hlk'. krun.
    destruct Hlk as [->|(Hb&Ho)]; [|by rewrite lock_acquire_busy, Hb by done].
    rewrite lock_acquire_free by done. cbn [is_busy new_lock]. krun. unfold put_pt at 1. krun.
    unfold Proc.curproc. krun. cbn [k_files set_table]. erewrite get_proc_eq by exact Hx. krun. rewrite Hfirst.
    rewrite (find_child_eq _ 0 xs kids) by (try done; cbn [k_nodes set_table]; pose proof (dseg_size _ _ _ _ Hd Hnd); lia). krun.
    case_bool_decide as Hin; krun.
    + erewrite get_pt_eq by done. krun. cbn [exit_locks with_exit_lock]. rewrite lookup_partial_alter_eq. krun. cbn [exit_cvs with_exit_lock]. rewrite Hcv. krun.
      rewrite cv_wait_release_held. krun. rewrite cv_wait_sleep_eq. krun.
      unfold put_pt. krun. do 2 f_equal. apply kern_eq; try done. cbn [proc_table set_table]. f_equal.
      by rewrite with_exit_lock_twice, (with_exit_lock_same pid (Some (freed new_lock))) by done.
    + erewrite get_pt_eq by done. krun. cbn [exit_locks with_exit_lock]. rewrite lookup_partial_alter_eq. krun. rewrite lock_release_held. krun.
      unfold put_pt. krun. do 2 f_equal. apply kern_eq; try done. cbn [proc_table set_table]. rewrite Ht. f_equal.
      by rewrite with_exit_lock_twice, (with_exit_lock_same pid (Some (freed new_lock))) by done.
  - intros p status Hp ->. destruct (Htab p Hp) as (Hp0&Hlk'&Hcv). unfold waitpid_woken, Proc.curthread, kassert. krun. erewrite get_pt_eq by exact Ht. krun.
    rewrite bool_decide_true by done. krun. rewrite Hcv. krun. rewrite cv_wait_woken_eq. krun. unfold put_pt at 1. krun. erewrite get_pt_eq by done. krun. cbn [exit_locks with_exit_cv]. rewrite Hlk'. krun.
    rewrite lock_acquire_free by done. krun. unfold put_pt at 1. krun. erewrite get_pt_eq by done. krun. cbn [exit_locks with_exit_lock]. rewrite lookup_partial_alter_eq. krun.
    rewrite lock_release_held. krun. unfold put_pt. krun. do 2 f_equal. apply kern_eq; try done. cbn [proc_table set_table]. rewrite Ht. f_equal.
    rewrite with_exit_lock_twice, (with_exit_cv_same pid) by done. by apply with_exit_lock_same.
  - intros p status Hp. unfold waitpid_woken, Proc.curthread, kassert. krun. erewrite get_pt_eq by exact Ht. krun. by rewrite bool_decide_false.
Qed.

(** C39. No process exits by sys_exit: in every state that the calls on processes lead to,
    from the start of the kernel and in any order, by any processors and threads, sys_exit
    panics, whatever its argument and whoever calls it.  Between two of those calls nobody
    holds an exit lock ([waitpid] gives it back before it returns or sleeps), and the
    broadcast at the beginning of sys_exit wants its caller to hold it.  A thread of the
    kernel's own process cannot end by [thread_exit] either: [proc_remthread] destroys the
    process of each thread that leaves, and panics for that one. *)
Theorem exit_panics {S} `{!Vops S} `{!Devices S} self code (s : ksys (kern S)) :
  table_reached (procs s) ->
  sys_exit self code s = Panic /\
  (forall c me x, allcpus s !! self = Some c -> threads s !! fst (c_curthread c) = Some me -> k_procs (procs s) !! t_proc me = Some x ->
    t_proc me = kproc (procs s) -> thread_exit self s = Panic).
Proof.
  intros Hs. split.
  - apply table_reached_unowned in Hs. unfold sys_exit, in_kernel, on_procs, zoom, get_cpu, get_thread. krun.
    destruct (allcpus s !! self) as [c|]; krun; [|done]. destruct (threads s !! _) as [me|]; krun; [|done].
    by rewrite exit_process_panics.
  - intros c me x Hc Hme Hx Hk. unfold thread_exit, proc_remthread, kassert. krun. erewrite get_cpu_eq by exact Hc. krun. erewrite get_thread_eq by exact Hme. krun.
    destruct (negb (t_proc me =? 0)); krun; [|done]. unfold on_procs, zoom. cbn [proc_rem kern_threads]. krun. unfold uncount_thread, kassert. krun.
    erewrite get_proc_eq by exact Hx. krun. destruct (p_numthreads x >? 0); krun; [|done]. unfold put_proc. krun.
    unfold proc_destroy, kassert. krun. cbn [kproc set_procs set_running set_files]. rewrite Hk, Z.eqb_refl.
    by destruct (negb (kproc (procs s) =? 0)); krun.
Qed.
