(* ===== verification/Machine.v ===== *)
(** * A small machine: the VFS layer over an SFS volume and the null device

    The concrete instance at which the theorems on [Device] and [Vfs] are tried
    out: the volume of [Sfs] mounted on lhd0, with its root directory and one file
    in memory, and the null device. *)

From S2P Require Import Prelude Synch Cstring CopyInOut Uio Vop Device Sfs SfsDir SfsVnode SfsFs Vfs FileTable FileSyscalls.

Abbreviation machine := (dstate mount unit).

Definition root_obj : vobj := mkVobj example_dir sfs_dirops 2.
Definition machine_mount : mount :=
  mkMount example_fs {[ 0 := mkVobj (vo_sv example_obj) sfs_fileops 2; 1 := root_obj ]} [0; 1] 2 [].
Definition machine_s : machine :=
  mkD machine_mount () {[ -1 := mkDevvn (Some 0) 2; -2 := mkDevvn (Some 1) 1 ]} (-3) [].

(** "null", "lhd0", "lhd0raw" *)
Definition s_null : list Z := [110; 117; 108; 108; 0].
Definition s_lhd0 : list Z := [108; 104; 100; 48; 0].
Definition s_lhd0raw : list Z := [108; 104; 100; 48; 114; 97; 119; 0].

Definition machine_devs : list knowndev :=
  [mkKd s_null None (Some 0) (-1) NO_FS; mkKd s_lhd0 (Some s_lhd0raw) (Some 1) (-2) (FS 0)].
Definition machine_v : vfs machine :=
  mkVfs machine_s 7 1 {[ 1 := 1 ]} (Some 1) machine_devs {[ 0 := 1; 1 := 2 ]} new_lock 0 [].
(** Inside a VFS call. *)
Definition machine_in : vfs machine := set_biglock (held_by 7 new_lock) 1 machine_v.

(** What a computation returned, and the state it left. *)
Definition final {A} (v : vfs machine) (o : outcome (A * vfs machine)) : vfs machine :=
  match o with Done (_, w) => w | _ => v end.

Lemma good_strb s : (existsb (Z.eqb 0) s && forallb (fun b => (0 <=? b) && (b <? 256)) s) = true -> good_str s.
Proof.
  intros [H1 H2]%andb_true_iff. split.
  - apply existsb_exists in H1 as (x & Hx & E). apply Z.eqb_eq in E. subst x. by apply list_elem_of_In.
  - apply Forall_forall. intros x Hx%list_elem_of_In. rewrite forallb_forall in H2. pose proof (H2 x Hx).
    unfold is_byte. lia.
Defined.

Lemma machine_kd_wf (s : machine) : ds_fs s = machine_mount -> Forall (kd_wf s) machine_devs.
Proof.
  destruct s as [f d vs nx mem]. cbn [ds_fs]. intros ->.
  constructor; [|constructor; [|constructor]].
  - split; try discriminate; try (intros; discriminate).
    + by apply good_strb.
    + intros _. by eexists.
  - split; try discriminate; try (intros; discriminate).
    + by apply good_strb.
    + intros r [= <-]. by apply good_strb.
    + intros r [= <-]. by apply good_strb.
    + intros fs [= <-]. reflexivity.
    + intros _. by eexists.
Defined.

Lemma machine_names (s : machine) :
  ds_fs s = machine_mount -> map (names s) machine_devs = [[take 4 s_null]; [take 4 s_lhd0; take 7 s_lhd0raw; []]].
Proof. destruct s as [f d vs nx mem]. cbn [ds_fs]. intros ->. vm_compute. reflexivity. Defined.

Lemma machine_table_wf (s : machine) : ds_fs s = machine_mount -> table_wf s machine_devs.
Proof.
  intros Hs. split; [by apply machine_kd_wf|]. pose proof (machine_names s Hs) as Hn. intros i j a b n Hi Hj Ha Hb.
  assert (E : forall k x, machine_devs !! k = Some x ->
    (k = 0%nat /\ names s x = [take 4 s_null]) \/
    (k = 1%nat /\ names s x = [take 4 s_lhd0; take 7 s_lhd0raw; []])).
  { intros [|[|k]] x Hx; [left|right|discriminate Hx]; split; try reflexivity; injection Hx as <-;
      [exact (f_equal (fun l => nth 0 l []) Hn)|exact (f_equal (fun l => nth 1 l []) Hn)]. }
  destruct (E i a Hi) as [[-> Ea]|[-> Ea]], (E j b Hj) as [[-> Eb]|[-> Eb]]; try reflexivity; exfalso;
    rewrite Ea in Ha; rewrite Eb in Hb; repeat setoid_rewrite elem_of_cons in Ha; repeat setoid_rewrite elem_of_cons in Hb;
    rewrite elem_of_nil in Ha; rewrite elem_of_nil in Hb; decompose [or] Ha; decompose [or] Hb; subst; try discriminate; done.
Defined.

(** ** Witnesses *)

Definition null_read : uio := uio_kinit [1; 2; 3] 3 0 UIO_READ.

Lemma dev_io_spec_witness :
  VOP_READ machine_s (-1) null_read = Done (0, null_read, set_dev () machine_s).
Proof.
  destruct (dev_io_spec machine_s (-1) 0 (mkDevice 0 1) 2 null_read) as [H _];
    [lia|reflexivity|reflexivity|cbn; lia|cbn; lia|cbn; lia|]. destruct (H eq_refl) as [Hhere _]. clear H. rename Hhere into H.
  exact (H (or_introl eq_refl)).
Defined.

(** "lhd0:" and "/a" *)
Lemma getdevice_spec_witness :
  exists off, drop off (s_lhd0 ++ [47; 97; 0]) = [97; 0] /\
    getdevice (take 4 s_lhd0 ++ COLON :: [47; 97; 0]) machine_in =
      (r ← vfs_getroot (s_lhd0 ++ [47; 97; 0]);
       mret (match r with Ok vn => Ok (vn, off) | Err e => Err e end, s_lhd0 ++ [47; 97; 0])) machine_in.
Proof.
  apply (getdevice_spec (take 4 s_lhd0) COLON [47; 97; 0] machine_in).
  - repeat constructor; discriminate.
  - right. right. reflexivity.
  - intros _. unfold is_str. repeat constructor.
  - reflexivity.
Defined.

Lemma getroot_spec_witness : vfs_getroot s_lhd0raw machine_in = kd_root (mkKd s_lhd0 (Some s_lhd0raw) (Some 1) (-2) (FS 0)) (take 7 s_lhd0raw) machine_in.
Proof.
  destruct (getroot_spec s_lhd0raw machine_in) as [H _].
  - by apply machine_table_wf.
  - constructor; [intros r; discriminate|]. constructor; [|constructor]. intros r [= <-]. split; discriminate.
  - apply good_strb. reflexivity.
  - reflexivity.
  - apply (H 1%nat); [reflexivity|]. vm_compute. right. left.
Defined.

(** "con", a character device *)
Definition s_con : list Z := [99; 111; 110; 0].

Lemma doadd_spec_witness :
  exists v', vfs_doadd s_con false (Some 2) None machine_v = Done (0, v') /\
    knowndevs v' = machine_devs ++ [mkKd s_con None (Some 2) (-3) NO_FS].
Proof.
  set (s1 := mkD machine_mount () (<[-3 := mkDevvn (Some 2) 1]> (ds_vnodes machine_s)) (-4) [] : machine).
  destruct (doadd_spec s_con false (Some 2) None (-3) s1 machine_v) as [H _].
  - left. repeat split.
  - reflexivity.
  - apply good_strb. reflexivity.
  - reflexivity.
  - split; try (intros; discriminate); [by apply good_strb|]. intros _. eexists. reflexivity.
  - by apply machine_table_wf.
  - destruct H as (v' & H1 & _ & H2 & _).
    + intros old Hold (n & Hn & Hk).
      assert (n = take 3 s_con) as -> by (vm_compute in Hk |- *; by apply list_elem_of_singleton in Hk).
      assert (Hall : Forall (fun l => take 3 s_con ∉ l) (map (names s1) machine_devs)).
      { rewrite machine_names by reflexivity. repeat constructor; rewrite ?not_elem_of_cons; repeat split; try discriminate; apply not_elem_of_nil. }
      rewrite Forall_map, Forall_forall in Hall. by apply (Hall old).
    + exists v'. split; [exact H1|exact H2].
Defined.

(** "lhd0:" *)
Definition p_lhd0 : list Z := [108; 104; 100; 48; 58; 0].
Definition looked_up : vfs machine := final machine_v (vfs_lookup p_lhd0 machine_v).

Lemma looked_up_done : vfs_lookup p_lhd0 machine_v = Done ((Ok 1, s_lhd0 ++ [0]), looked_up).
Proof. vm_compute. reflexivity. Defined.

Lemma chdir_refs_witness :
  exists v', vfs_chdir p_lhd0 machine_v = Done (0, v') /\ p_cwd v' !! 1 = Some 1 /\
    vrefs (v_s v') 1 = Some 2.
Proof.
  destruct (chdir_refs p_lhd0 1 (s_lhd0 ++ [0]) 3 machine_v looked_up looked_up_done) as [H _]; [vm_compute; reflexivity|].
  destruct H as (v' & H1 & H2 & H3).
  - vm_compute. reflexivity.
  - lia.
  - intros old Ho. assert (old = 1) as -> by (vm_compute in Ho; congruence). exists 3. split; [vm_compute; reflexivity|lia].
  - exists v'. split; [exact H1|].
    assert (Hc : curproc v' = 1 -> p_cwd v' !! 1 = Some 1) by (intros E; rewrite E in H2; exact H2).
    pose proof (H3 1 3 ltac:(vm_compute; reflexivity)) as H4. split; [|vm_compute in H4; exact H4].
    apply Hc. clear -H1. unfold vfs_chdir in H1. vm_compute in H1. injection H1 as <-. reflexivity.
Defined.

(** "lhd0:" again, with the colon [vfs_setbootfs] does not take. *)
Lemma setbootfs_spec_witness :
  exists lk, vfs_setbootfs p_lhd0 machine_v = Done (EINVAL, set_biglock lk 0 machine_v).
Proof.
  destruct (setbootfs_spec p_lhd0 machine_v) as [H _].
  - left. repeat split.
  - unfold is_str. repeat constructor.
  - apply H. repeat constructor.
Defined.

(** ** Open files *)

(** The process, 1, has the file of vnode 0 open as descriptor 3; the path "null:"
    is at 4096 in its memory. *)
Definition machine_file : file := mkFile (Some 0) new_lock 0 [102; 0] 3.
Definition machine_gt : file_table := mkFt (<[3%nat := Some 200]> empty_arr) new_lock 0.
Definition machine_tx : file_table := mkFt (<[3%nat := Some 200]> empty_arr) new_lock 0.
Definition p_null : list Z := [110; 117; 108; 108; 58; 0].
Definition machine_umem : umem := list_to_map (zip (seqZ 4096 1024) (p_null ++ zeros 1018)).
Definition machine_k : files machine :=
  mkFiles machine_v {[ 200 := machine_file ]} {[ 100 := machine_gt; 101 := machine_tx ]} 100 300 {[ 1 := 101 ]}
    machine_umem [] [].

Lemma machine_open_fd : open_fd machine_k 3 101 100 200 machine_tx machine_gt machine_file 0.
Proof. repeat split; discriminate. Defined.

Lemma sys_close_spec_witness :
  exists (s' : machine) k', sys_close 3 machine_k = Done (0, k') /\ vrefs s' 0 = Some 1 /\
    f_files k' = delete 200 (f_files machine_k).
Proof.
  destruct (sys_close_spec machine_k 3 101 100 200 machine_tx machine_gt machine_file 0 2 machine_open_fd)
    as (s' & k' & H1 & _ & _ & H2 & H3 & _); [reflexivity|lia|right; unfold OPEN_MAX; cbn; lia|].
  exists s', k'. exact (conj H1 (conj H2 H3)).
Defined.

Lemma write_ok o :
  match o with Done (r, u, _) => (r =? 0) && (uio_resid u =? 0) | _ => false end = true ->
  exists u (s : machine), o = Done (0, u, s) /\ uio_resid u = 0.
Proof.
  destruct o as [[[r u] s]| |]; [|discriminate..]. intros [H1%Z.eqb_eq H2%Z.eqb_eq]%andb_true_iff. subst r. exists u, s. auto.
Defined.

Lemma sys_write_spec_witness :
  exists s', sys_write zeros 3 4096 5 machine_k = Done (5, set_vfs (set_s s' machine_v) machine_k).
Proof.
  destruct (write_ok (VOP_WRITE machine_s 0 (uio_kinit (take 5 p_null) 5 0 UIO_WRITE))) as (u & s' & Hw & Hu); [vm_compute; reflexivity|].
  exists s'. rewrite (sys_write_spec zeros machine_k 3 101 100 200 machine_tx machine_gt machine_file 0 4096 5 (take 5 p_null) 0 u s'
    machine_open_fd); [rewrite Hu; reflexivity|reflexivity|discriminate|lia|vm_compute; reflexivity|exact Hw].
Defined.

Lemma sys_read_spec_witness :
  exists k', sys_read 3 4096 5 machine_k = Done (5, k').
Proof.
  destruct (write_ok (VOP_READ machine_s 0 (uio_kinit (mapped_bytes machine_umem 4096 5) 5 0 UIO_READ))) as (u & s' & Hw & Hu);
    [vm_compute; reflexivity|].
  rewrite (sys_read_spec machine_k 3 101 100 200 machine_tx machine_gt machine_file 0 4096 5 0 u s' machine_open_fd);
    [rewrite Hu; eexists; reflexivity|discriminate|lia|exact Hw].
Defined.

Lemma sys_lseek_spec_witness :
  sys_lseek 3 10 1 machine_k = Done (10, put_file 200 (with_seek 10 machine_file) machine_k) /\
  sys_lseek 3 (-2) 1 machine_k = Done (- EINVAL, machine_k).
Proof.
  split.
  - exact (sys_lseek_spec machine_k 3 101 100 200 machine_tx machine_gt machine_file 0 10 1 true 7700 machine_open_fd
      ltac:(lia) ltac:(lia) eq_refl eq_refl).
  - exact (sys_lseek_spec machine_k 3 101 100 200 machine_tx machine_gt machine_file 0 (-2) 1 true 7700 machine_open_fd
      ltac:(lia) ltac:(lia) eq_refl eq_refl).
Defined.

Lemma sys_dup2_spec_witness :
  sys_dup2 3 7 machine_k = Done (- EBADF, put_table 101 (with_slot 7 (Some 200) machine_tx) machine_k).
Proof.
  exact (proj1 (sys_dup2_spec machine_k 3 101 100 200 machine_tx machine_gt machine_file 0 7 machine_open_fd
    eq_refl eq_refl eq_refl)).
Defined.

Definition opened : vfs machine := final machine_v (vfs_open (p_null ++ zeros 1018) 0 0 machine_v).
Lemma opened_done : vfs_open (p_null ++ zeros 1018) 0 0 machine_v = Done ((Ok (-1), s_null ++ 0 :: zeros 1018), opened).
Proof. vm_compute. reflexivity. Defined.

Lemma sys_open_spec_witness :
  exists k', sys_open zeros (-9) 4096 0 machine_k = Done (4, k').
Proof.
  destruct (sys_open_spec zeros (-9) machine_k 4096 0 (p_null ++ zeros 1018) (s_null ++ 0 :: zeros 1018) opened (-1) 101 100
    machine_gt machine_tx 4 4 3) as (s' & H & _).
  - discriminate.
  - reflexivity.
  - vm_compute. reflexivity.
  - exact opened_done.
  - vm_compute. reflexivity.
  - apply good_strb. reflexivity.
  - vm_compute. reflexivity.
  - reflexivity.
  - discriminate.
  - reflexivity.
  - reflexivity.
  - reflexivity.
  - reflexivity.
  - discriminate.
  - split; reflexivity.
  - split; reflexivity.
  - vm_compute. reflexivity.
  - lia.
  - reflexivity.
  - reflexivity.
  - eexists. exact H.
Defined.

Lemma file_table_add_spec_witness :
  let k := put_file 201 (mkFile (Some 1) new_lock 0 [103; 0] FLOATING_FILE) machine_k in
  exists k', file_table_add 101 (Some 201) k = Done (4, k').
Proof.
  intros k. destruct (file_table_add_spec k 101 100 201 machine_tx machine_gt (mkFile (Some 1) new_lock 0 [103; 0] FLOATING_FILE) 1 2)
    as (s' & H & _).
  - repeat split; discriminate.
  - reflexivity.
  - discriminate.
  - reflexivity.
  - lia.
  - eexists. exact H.
Defined.
