(* ===== verification/MachineProc.v ===== *)
(** * The small machine with a process that runs on it

    The theorems on [Proc] and [System] at concrete inputs: the machine of [Machine] with
    the memory of [Dumbvm], one processor, and process 1, number 2, with one thread. *)

From S2P Require Import Prelude Synch Cstring CopyInOut Uio LinkedList Vop Device Sfs SfsDir SfsVnode SfsFs Vfs FileTable FileSyscalls Dumbvm Thread Proc Exec System Machine.

(** ** The process table *)

Definition boot_files : files machine := set_vfs (set_cwds ∅ machine_v) machine_k.
Definition boot_kern : kern machine := mkKern boot_files small_vm ∅ None 0 10 ∅ ∅.
Definition some_ops : list pop := [PCreate no_pages s_con; PAddThread 11; PFind 3; PRemThread 11; PFind 3; PCreate no_pages s_null].

(** Number 3 was given away, given back and given away again. *)
Definition some_map : gmap Z (Z * Z) := <[3 := (12, 0)]> (delete 3 (<[3 := (11, 0 + 1)]> (<[3 := (11, 0)]> {[2 := (10, 0)]}))).

Lemma proctable_refines_witness :
  exists k', (proc_bootstrap 0 (true, true) s_lhd0;; run_pops 0 some_ops) boot_kern = Done ([11; 0; 11; 0; 0; 12], k') /\
    psim k' (some_map, 13) /\
    (forall pid, 0 <= pid < PID_MAX -> find_process 0 pid k' = Done (default 0 (fst <$> some_map !! pid), k')) /\
    (forall other page1 page2 name' pid, good_str name' -> 2 <= pid < PID_MAX -> some_map !! pid = None -> page1 || page2 = true ->
      proc_create other (page1, page2) name' k' = Panic).
Proof.
  apply (proctable_refines 0 (true, true) s_lhd0 boot_kern some_ops); try reflexivity; [by apply good_strb|].
  assert (Hleast : forall (m : gmap Z (Z * Z)) j, is_Some (m !! 2) -> 2 <= j < 3 -> m !! j <> None).
  { intros m j [y Hy] Hj E. assert (j = 2) as -> by lia. congruence. }
  repeat eapply ptrace_cons; [..|apply ptrace_nil].
  - apply (pabs_create _ _ _ _ 3); [by apply good_strb|done|reflexivity|intros; apply Hleast; [by eexists|lia]].
  - by apply (pabs_add _ 3).
  - by apply pabs_find.
  - by apply (pabs_rem _ 3).
  - by apply pabs_find.
  - refine (pabs_create _ s_null (delete 3 (<[3 := (11, 0 + 1)]> (<[3 := (11, 0)]> {[2 := (10, 0)]}))) 12 3 _ _ _ _); [by apply good_strb|done|reflexivity|intros; apply Hleast; [by eexists|lia]].
Defined.

(** The kernel's process alone. *)
Definition up_table : proctable := mkPt {[2 := 10]} {[2 := new_lock]} {[2 := mkCv None []]} None 1.
Definition up_kern : kern machine :=
  mkKern (set_proc_ft {[10 := 300]} (put_table 300 (mkFt empty_arr new_lock 0) (fresh_key boot_files))) small_vm
    {[10 := new_proc 2]} (Some up_table) 10 11 ∅ ∅.

Lemma proctable_deadlocks_witness :
  destroy_proctable 0 up_kern = Panic /\
  exists k', proc_count 0 up_kern = Done (1, k') /\
    forall other pid, find_process other pid k' = if bool_decide (0%nat = other) then Panic else Blocked.
Proof.
  assert (E : s32 (Z.of_nat (size ({[2 := (10, 0)]} : gmap Z (Z * Z)))) = 1) by (by rewrite map_size_singleton). rewrite <- E.
  apply (proctable_deadlocks 0 up_kern {[2 := (10, 0)]} 11); [|vm_compute; discriminate].
  constructor.
  - exists up_table. split; [reflexivity|]. split; [reflexivity|]. split; [exact (eq_sym (map_fmap_singleton fst 2 (10, 0)))|].
    split; [by rewrite <- E at 1|]. intros pid p c. change (fst ({[2 := (10, 0)]}, 11)) with ({[2 := (10, 0)]} : gmap Z (Z * Z)). intros [<- [= <- <-]]%lookup_singleton_Some.
    constructor; [split; [lia|reflexivity]|cbn; lia|lia|apply lookup_empty|apply lookup_singleton_eq|apply lookup_singleton_eq|]. exists (new_proc 2). split; [reflexivity|]. split; [reflexivity|]. split; [reflexivity|]. split; [reflexivity|].
    split; [reflexivity|by exists 0|reflexivity].
  - reflexivity.
  - split; reflexivity.
  - intros p x Hx. exists 0. change (k_procs up_kern) with ({[10 := new_proc 2]} : gmap Z proc) in Hx.
    apply lookup_singleton_Some in Hx as [<- <-]. reflexivity.
  - intros p _. apply lookup_empty.
Defined.

(** ** fork, system calls, waitpid, exit *)

Definition parent : proc := mkProc 2 (-1) 1 100 no_children false (-1) 0 (Some (mkSem 0 [])).
Definition run_table : proctable := mkPt {[2 := 1]} {[2 := new_lock]} {[2 := mkCv None []]} None 1.
Definition run_kern : kern machine := mkKern machine_k small_vm {[1 := parent]} (Some run_table) 9 50 ∅ ∅.
Definition run_cpu : cpu := mkCpu (7, 0) [] 0 false [] 0 [] (9, 0).
Definition run_thread : thread := mkThread S_RUN (Some 0%nat) 1.
Definition run_sys : ksys (kern machine) := mkSys_ [run_cpu] {[7 := run_thread]} [[]] 1 run_kern.

Lemma run_inv : inv run_sys [].
Proof.
  constructor; cbn.
  - repeat constructor. apply not_elem_of_nil.
  - intros t. rewrite list_elem_of_singleton. split; [intros ->; by eexists|]. intros [y [<- _]%lookup_singleton_Some]. done.
  - intros t p [= -> ->]%list_elem_of_singleton. exists run_thread. split; [reflexivity|]. split; [by left|reflexivity].
  - intros t th [<- <-]%lookup_singleton_Some. exists 0%nat. split; [reflexivity|lia].
  - intros [|i] c; [|done]. intros [= <-]. by exists run_thread.
  - unfold thread_count_wchan. lia.
Qed.

Lemma run_ready : fork_ready 1 parent small_space 101 machine_tx run_table 3 run_kern.
Proof.
  constructor.
  - split; [reflexivity|done].
  - split; [done|]. split; [reflexivity|exact small_space_ok].
  - split; [exact small_vm_ok|]. split; [reflexivity|done].
  - split; [reflexivity|done].
  - split; reflexivity.
  - split; [split; [lia|reflexivity]|]. split; [reflexivity|]. intros j Hj. assert (j = 2) as -> by lia. done.
  - split; reflexivity.
  - split; [reflexivity|]. split; [reflexivity|cbn; lia].
  - split; reflexivity.
  - intros j p Hj Hp. unfold machine_tx in Hp. cbn [file_arr] in Hp. apply list_lookup_insert_Some in Hp as [(<-&[= <-]&_)|(_&Hp)].
    + exists machine_file, 0, 2. repeat split; reflexivity.
    + unfold empty_arr in Hp. by apply lookup_replicate_1 in Hp as [? _].
Qed.

Definition fork_frame : trapframe := mkTf SYS_fork 4096 0 0 0 400 [].


Definition calm : outside := mkOutside (0, 0) 8 true true zeros 0 (no_pages, no_pages).
Definition getpid_frame : trapframe := mkTf SYS_getpid 0 0 0 0 400 [].
(** SYS_waitpid *)
Definition waitpid_frame : trapframe := mkTf 4 0 0 0 0 400 [].

Lemma syscall_spec_witness :
  syscall 0 calm getpid_frame run_sys = Done ((answer getpid_frame 2 0, None), with_procs (set_running 7 1 run_kern) run_sys) /\
  syscall 0 calm waitpid_frame run_sys = Done ((answer waitpid_frame ENOSYS 1, None), run_sys) /\
  answer waitpid_frame ENOSYS 1 = mkTf 1 0 0 0 1 404 [].
Proof.
  split; [|split; [|reflexivity]].
  - destruct (syscall_spec 0 calm getpid_frame run_sys run_cpu run_thread eq_refl eq_refl) as (_&H&_).
    exact (H parent eq_refl eq_refl).
  - destruct (syscall_spec 0 calm waitpid_frame run_sys run_cpu run_thread eq_refl eq_refl) as (_&_&H&_). apply H.
    apply (bool_decide_unpack _). vm_compute. exact I.
Defined.

(** Process 2 has a list of one child, itself. *)
Definition self_list : Linked_List := mkList 60 60 1 (Some new_lock).
Definition wait_kern : kern machine :=
  mkKern machine_k small_vm {[1 := mkProc 2 (-1) 1 100 self_list false (-1) 0 (Some (mkSem 0 []))]} (Some run_table) 9 50
    {[60 := mkNode 0 0 0 70]} {[70 := 2]}.

Lemma waitpid_spec_witness :
  waitpid_process 0 2 0 run_kern = Done (([], Returned (- ECHILD)), run_kern) /\
  waitpid_process 0 2 0 wait_kern = Done (([], Sleeping 1), set_table (Some (with_exit_cv 2 (Some (mkCv None [7])) run_table)) wait_kern) /\
  waitpid_woken 0 2 1 0 wait_kern = Done (([], 2), wait_kern) /\ waitpid_woken 0 2 5 0 wait_kern = Panic.
Proof.
  assert (Ht : forall p, pt_procs run_table !! 2 = Some p -> p <> 0 /\ exit_locks run_table !! 2 = Some new_lock /\ exit_cvs run_table !! 2 = Some (mkCv None [])).
  { intros p Hp. apply (lookup_singleton_Some (M := gmap Z) 2 2 1 p) in Hp as [_ <-]. split; [done|]. split; reflexivity. }
  destruct (waitpid_spec 0 2 0 run_kern run_table parent [] [] new_lock []) as (H&_); try reflexivity; [exact Ht|by left|constructor|constructor|].
  destruct (waitpid_spec 0 2 0 wait_kern run_table (mkProc 2 (-1) 1 100 self_list false (-1) 0 (Some (mkSem 0 []))) [(60, (0, 70))] [2] new_lock [])
    as (H1&H2&H3); try reflexivity; [exact Ht|by left|split; [done|split; [reflexivity|exact I]]|apply (bool_decide_unpack _); exact I|by repeat constructor|].
  split; [exact H|]. split; [exact H1|]. split; [by apply H2|by apply H3].
Defined.

(** The small machine when the kernel has its process table. *)
Definition exit_sys : ksys (kern machine) := mkSys_ [run_cpu] {[7 := run_thread]} [[]] 1 (set_table None run_kern).

Lemma exit_panics_witness : sys_exit 0 0 exit_sys = Panic /\ exists k, proc_bootstrap 0 no_pages s_lhd0 (set_table None run_kern) = Done ((), k) /\
  sys_exit 0 3 (with_procs k exit_sys) = Panic.
Proof.
  split.
  - destruct (exit_panics 0 0 exit_sys) as [H _]; [by apply table_start|exact H].
  - eexists. split; [vm_compute; reflexivity|]. apply exit_panics. eapply (table_step 0 (PBoot no_pages s_lhd0) (set_table None run_kern)); [by apply table_start|].
    vm_compute. reflexivity.
Defined.

(** ** Loading a program

    A file system of one file, which holds an executable of two segments: eight bytes of
    code at 0x400000 and four of data at 0x10000000, where the segment has sixteen. *)

Definition bad {A} : outcome A := Panic.
Definition program : list Z :=
  [127; 69; 76; 70; 1; 2; 1; 0; 0; 0; 0; 0; 0; 0; 0; 0] ++ [0; 2; 0; 8] ++ be32 1 ++ be32 4194304 ++ be32 52 ++ be32 0 ++ be32 0 ++
  [0; 52; 0; 32; 0; 3; 0; 0; 0; 0; 0; 0] ++
  encode_words [1879048192; 0; 0; 0; 0; 0; 0; 0] ++
  encode_words [1; 148; 4194304; 0; 8; 8; 5; 4096] ++ encode_words [1; 156; 268435456; 0; 4; 16; 6; 4096] ++ [1; 2; 3; 4; 5; 6; 7; 8] ++ [9; 10; 11; 12].

#[local] Instance one_file : Vops unit := {
  vn_fs _ _ := bad; vn_refcount_of _ _ := bad; VNODE_CLEANUP _ _ := bad; VOP_INCREF _ _ := bad; VOP_DECREF _ _ := bad;
  VOP_EACHOPEN _ _ _ := bad;
  VOP_READ s _ u := '(r, _, u) ← uiomove (drop (Z.to_nat (uio_offset u)) program) (Z.min (uio_resid u) (Z.of_nat (length program) - uio_offset u)) u; mret (r, u, s);
  VOP_READLINK _ _ _ := bad; VOP_WRITE _ _ _ := bad; VOP_STAT_SIZE _ _ := bad; VOP_GETTYPE _ _ := bad; VOP_ISSEEKABLE _ _ := bad;
  VOP_TRUNCATE _ _ _ := bad; VOP_NAMEFILE _ _ _ := bad; VOP_CREAT _ _ _ _ := bad; VOP_SYMLINK _ _ _ _ := bad; VOP_MKDIR _ _ _ := bad;
  VOP_LINK _ _ _ _ := bad; VOP_REMOVE _ _ _ := bad; VOP_RMDIR _ _ _ := bad; VOP_RENAME _ _ _ _ _ := bad; VOP_LOOKUP _ _ _ := bad;
  VOP_LOOKPARENT _ _ _ _ := bad; FSOP_GETVOLNAME _ _ := bad; FSOP_GETROOT _ _ := bad; FSOP_SYNC _ _ := bad; FSOP_UNMOUNT _ _ := bad }.

#[local] Instance one_file_reads : ReadsFile unit 5 program.
Proof. refine {| file_ready := fun _ => True |}. intros s u _ _ _. by exists s. Defined.

Definition loader : proc := mkProc 2 (-1) 1 100 no_children false (-1) 0 (Some (mkSem 0 [])).
Definition load_kern : kern unit :=
  mkKern (mkFiles (mkVfs () 7 1 ∅ None [] ∅ new_lock 0 []) ∅ ∅ 100 300 ∅ ∅ [] [])
    (mkVm 147456 524288 (fun a => a mod 256) [] {[ 100 := blank ]} 200 []) {[ 1 := loader ]} None 9 50 ∅ ∅.

Lemma load_elf_correct_witness :
  exists x k', load_elf (zeros 52) (zeros 32) 5 load_kern = Done (Ok 4194304, k') /\ aspaces (k_vm k') !! 100 = Some x /\
    user_byte (k_vm k') x 4194307 = Some 4 /\ user_byte (k_vm k') x 268435458 = Some 11 /\ user_byte (k_vm k') x 268435465 = Some 0.
Proof.
  set (p := mkPhdr 1 148 4194304 0 8 8 5 4096). set (q := mkPhdr 1 156 268435456 0 4 16 6 4096).
  destruct (load_elf_correct (v := 5) (data := program) (zeros 52) (zeros 32) p q 100 loader load_kern) as (x&k'&H1&H2&_&H3&H4&_).
  - exact I.
  - reflexivity.
  - reflexivity.
  - vm_compute. discriminate.
  - reflexivity.
  - intros j Hj. change (0 <= j < 3) in Hj. assert (j = 0 \/ j = 1 \/ j = 2) as [->|[->| ->]] by lia; split; vm_compute; discriminate.
  - reflexivity.
  - constructor; cbn; repeat split; vm_compute; discriminate || reflexivity.
  - constructor; cbn; repeat split; vm_compute; discriminate || reflexivity.
  - discriminate.
  - reflexivity.
  - reflexivity.
  - reflexivity.
  - repeat split; vm_compute; discriminate || reflexivity.
  - vm_compute. discriminate.
  - exists x, k'. split; [exact H1|]. split; [exact H2|].
    assert (Hp : forall va, 4194304 <= va < 4194312 -> is_Some (translate x va)) by (intros va Hva; apply (H3 p); [left|exact Hva]).
    assert (Hq : forall va, 268435456 <= va < 268435472 -> is_Some (translate x va)) by (intros va Hva; apply (H3 q); [right; left|exact Hva]).
    rewrite !H4. destruct (Hp 4194307 ltac:(lia)) as [? ->], (Hq 268435458 ltac:(lia)) as [? ->], (Hq 268435465 ltac:(lia)) as [? ->].
    repeat split.
Defined.
